(* ===== verification/_CoqProject ===== *)
-Q . S2P
Prelude.v
Crc.v
Modbus.v
Nvs.v
Datetime.v
Base64.v
Jsmn.v
Heap.v
Cjson.v
Misc.v
SpiFlash.v
Partition.v
Sha256.v
Image.v
Boot.v
Ota.v
MqttPacket.v
MqttTransport.v
MqttClient.v
MqttExchange.v
World.v
System.v
Nlight.v
Device.v
Mqtt.v
MqttSession.v
Session.v
MqttOnline.v
Motor.v
