(* ===== verification/Prelude.v ===== *)
(** * A verification development for the ESP8266 smart-home firmware

    The repository is a fork of the ESP8266 RTOS SDK with an application in
    [src/app]: a wall switch with three lights that finds its server by UDP
    datagrams, keeps a session with an MQTT broker, obeys JSON messages, reports
    its state, keeps a table of weekly alarms in flash and talks Modbus to other
    devices. This library models that application and the parts of the SDK its
    logic rests on - the heap, the JSON library, the MQTT client, the checksums,
    the base64 and the tokenizer - and, below it, what brings an application on
    to the device: the flash driver, the partitions, the check of images, the
    boot loader and the updates over the air. It proves what makes them correct.

    ** How to read it

    [Prelude.v] (this file) has the shared vocabulary: integers of the machine
    with their wrap-around ([u8], [u16], [u32], [s32]), bounded arrays ([rd],
    [wr]), the state monad with faults [M S A] and its loops, invariants of
    procedures ([keeps], with its hint database), and lemmas on lists. A read or
    write outside an array, the dereference of a null pointer and the use of a
    freed block are the fault [None], so that a theorem that gives a result also
    says that memory is respected. Then, from the bottom up:

    - [Crc.v]: [components/util/src/crc.c]. The bit-serial CRC is the
      specification, the three table-driven routines are proved equal to it;
      a change of one byte is always detected.
    - [Modbus.v]: [app/components/modbus]. The checksum with its two tables, the
      transmit and receive buffers of the global [Master], the exchange on the
      line and the six requests: the frames are the ones of the protocol, what
      the slave answers is what the caller gets, a corrupted reply is refused,
      and how many registers fit the buffer.
    - [Nvs.v]: what the application relies on of [components/nvs_flash], as the
      classes [Nvs] (numbers) and [NvsStr] (strings), with the finite map that
      implements them.
    - [Datetime.v]: [csro_datetime.c]. [Alarm]: the table of twenty alarms with
      its copy in flash refines a list of entries ([spec], [holds], [run_run]);
      it survives a restart. [Clock]: the second timer and the synchronisation
      with a time string; the run time is consistent in every reachable state.
    - [Base64.v]: [components/util/src/base64.c]. Round trip, and the decoder
      stays in its buffers on any input.
    - [Jsmn.v]: [components/jsmn]. The tokenizer ends on any text and is safe
      there, its tokens are nested, and the counting run agrees with the storing
      one.
    - [Heap.v]: [components/heap]. The allocator over a memory of words with the
      block headers in it. First fit, merging, calloc, realloc, the accounting
      of free bytes, and the tracing mode, against an abstract list of blocks.
    - [Cjson.v]: [components/cjson]. The parser, the printer and the tree
      functions the application calls, over an interface [Double] for the
      floating point of the C library, of which [DoubleLaws] states what is
      used; module [Rational] has a model of it. Printing and parsing are
      inverse, and the parser returns on every text without reading past it.
    - [Misc.v]: [csro_misc.c]. Numbers, strings and objects out of a message,
      and the last level of a topic, over the memory of the receive buffer.
      [carries msg j] says that the message is the text of the value [j].
    - [SpiFlash.v]: [components/spi_flash/src/spi_flash.c]. Reading, programming
      and erasing at any address and length over a chip of pages and sectors;
      what is stored is read back. A program of 256 whole pages never ends.
    - [Partition.v]: [components/spi_flash/src/partition.c]. The table, the
      searches, and the access through a partition, which stays inside at any
      offset, one that makes the end wrap around included - but for an erasure
      of no bytes.
    - [Sha256.v]: [bootloader_sha.c]. The hash of the boot loader is that of the
      standard (module [Fips]), whatever the pieces of the message.
    - [Image.v]: [esp_image_format.c] and [bootloader_flash.c]. The check of an
      image, the same code in two builds (class [Build]): an image of the format
      is accepted by both. The build of an application is one with mbedTLS
      ([CONFIG_SSL_USING_MBEDTLS]), not the one of [app/sdkconfig], for which
      [bootloader_sha.c] defines no hash; [src/app] installs no updates.
    - [Boot.v]: [bootloader_start.c], [bootloader_utility.c],
      [flash_partitions.c], [bootloader_common.c]. The boot loader from the
      table and the records of the OTA data to the image it loads; [choice] is
      the specification of its choice.
    - [Ota.v]: [components/app_update/esp_ota_ops.c]. Updates, and the choice of
      what to boot: the application and the boot loader compute the same
      [choice], a slot that is chosen is the one that starts, and a loss of
      power while its record is programmed leaves a device that starts the image
      of the old slot or that of the new one.
    - [MqttPacket.v]: [components/mqtt/paho/MQTTPacket]. Every packet as it is
      written into a buffer and read from one ([Cursor], a buffer with a place
      in it): the length field, PUBLISH and its answers, CONNECT, SUBSCRIBE,
      UNSUBSCRIBE. What is written is read back, and what becomes of malformed
      packets.
    - [MqttTransport.v]: the readers of packets from a transport, at once or
      in as many pieces as it gives: both put the same packet together.
    - [MqttClient.v]: [MQTTClient.c] and [MQTTFreeRTOS.c] with the timeouts of
      [tasks.c]. The client over a socket, whose answers are a script of
      [sockcall]s, and over an application that it calls back (class [App]).
      Its calls end within a bound on the ticks that the timers set, however
      long the script; topics match by levels, and a PUBLISH packet is delivered
      and answered.
    - [MqttExchange.v]: the calls of the client on a network that works - a
      login, a subscription, a message, each with its acknowledgement - as one
      step each.
    - [World.v]: the state of the application ([system_struct], [mqtt_struct],
      the lights, the semaphores as booleans, the status timer, what has been
      sent) and the monad [MR] of procedures that may restart the device.
    - [System.v]: [csro_system.c] and the triggers of [csro_mqtt.c]; the
      invariant [app_ok] of the running application.
    - [Nlight.v]: [csro_nlight.c] and [aw9523b.c]. The lights, their status
      message and the messages of the home assistant.
    - [Device.v]: [csro_device.c]. The messages to the device, proved to do what
      their members ask for on an abstract [view] of the state, and the list of
      the alarms.
    - [Mqtt.v]: [csro_mqtt.c], [csro_udp.c], [csro_sc.c], [csro_common.c]. The
      boot, the main loop and everything that can happen beside it; [reachable]
      is closed under both, and [app_ok] holds in every reachable state.
    - [MqttSession.v]: the main task of [csro_mqtt.c] with the calls of
      [MqttClient.v] in the place of the answers of [Mqtt.v]. Its rounds refine
      the ones of [Mqtt.v], so that what holds of every round there holds of
      the device, and messages reach the handlers of the application.
    - [Session.v]: theorems about [Mqtt.v]: the sequence of a connection, the
      status message, which falls due whatever else happens, the datagrams,
      giving up without a network, smartconfig and every boot after it over any
      life of the device ([lives]).
    - [MqttOnline.v]: the device of [MqttSession.v] on a network that accepts
      gets a session: the packets it sends, in order, and the handlers that are
      in place then, which is what the theorem on messages asks for.
    - [Motor.v]: [csro_motor.c], a variant the build leaves out. The motors are
      a state machine; its invariant, its termination and its reversals.

    ** Interaction

    The tasks and timers of the application share its globals without locks, so
    the model interleaves whole handlers: an [event] is the second timer, a tick
    of the status or key timer, a datagram or a message, and it happens between
    rounds of the main loop or while one of its calls blocks. [Mqtt.v] leaves
    the MQTT client to the environment: each call of a round comes with an
    [answer], which says whether it succeeds and which events happen meanwhile.
    [MqttSession.v] takes the calls of the real client instead, over a socket
    whose every [select], [recv] and [send] is answered by a script: bytes,
    nothing or an error, some ticks, and the events that happen meanwhile. A
    round of it is a round of [Mqtt.v] for some answers ([client_refinement]).
    Uninitialised arrays on the stack are parameters of the handlers that read
    them. Interfaces are classes: [Nvs] and [NvsStr] for the store,
    [Double] and [DoubleLaws] for floating point, [App] and [AppLaws] for the
    application under the client, [Transport] and [Stream] for the source of
    packets, [FlashChip] and [NorFlash] for the chip, [Build] and [BuildOk] for
    the two builds of the image check, over [BootRom] (the ROM) and [Mbedtls]
    (the hash of the application), [BootCache] for the mapped flash; each has an
    instance, at which the witnesses evaluate the
    definitions.

    ** Fuel and bounds

    Loops over arrays run for their length ([for_proc], [for_ret]). Recursion
    that is not structural has fuel: the parser of [Cjson.v] the length of the
    text and [CJSON_NESTING_LIMIT], the loops of [Jsmn.v] the rest of the text
    (to use it up is the fault [None]), the walks of [Heap.v] the number of words
    of a region ([rounds]), the last level of a topic its length, and the proofs
    show that it is never used up. The loops of the MQTT client that wait for
    the network have two rounds more than the script has answers
    ([rounds_left]), so that a finite script ends each of them; that it is the
    timers that end them is a theorem about time ([calls_end]): a call lasts no
    longer than a bound that does not depend on the length of the script. A copy of the flash driver takes a round for 64 bytes
    ([copy_fuel]), an erasure one for a sector of the chip ([erase_fuel]), the
    data of a segment one for 1024 bytes ([data_fuel]); the slots are counted to
    the assertion at sixteen, and the next sequence number is at most a round of
    the slots above the last ([next_seq_run]). Integers are [Z] with the wrap-around of
    their width written out; the application compiles for 32 bits, and
    [CONFIG_FREERTOS_HZ] is 100.

    ** Not modelled

    - The wifi driver and its events, sockets, GPIO, I2C and UART set-up: I/O.
    - [components/nvs_flash], the SHA-1 of the TLS library and the sockets of
      lwIP: the environment above.
    - Of [components/mqtt], the task [MQTTRun], which the application does not
      start, the transport over TLS, and the texts of [MQTTFormat.c] for logs.
    - cJSON references, detaching, comparison and minification, which the
      application does not call, and failing allocations inside cJSON.
    - [csro_airsys.c], compiled out and not linkable: it would drive the Modbus
      master from two tasks.
    - Of the flash: the ROM and the commands to the identification and status
      registers (operations of [FlashChip]), the switch to quad mode, mapping
      and encryption, which the configuration leaves out. Of the boot loader:
      the start of the processor, secure boot, the factory reset and the copy of
      an application, also left out, and the code for the ESP32. The locks of
      the list of partitions and allocations of its items that fail.
    - FreeRTOS, lwIP, mDNS, newlib, the TLS libraries, libsodium, CoAP, SPIFFS,
      wpa_supplicant, the AWS SDK, logging, the virtual file system, the other
      drivers, host tools and examples: third-party or platform code below the
      logic of this application.

    The theorems that are properties of the program are numbered C1, C2, ... in
    their comments. *)

From stdpp Require Export base gmap sets list strings.
From Stdlib Require Export ZArith Lia Btauto.

#[global] Open Scope Z_scope.


(** * Machine integers

    A C integer is a [Z]; the conversion to a [w]-bit type is written out at
    each place where the code converts. *)

Definition u8 (z : Z) : Z := z mod 2 ^ 8.
Definition u16 (z : Z) : Z := z mod 2 ^ 16.
Definition u32 (z : Z) : Z := z mod 2 ^ 32.

(** Two's complement reading of a 32-bit pattern. *)
Definition s32 (z : Z) : Z := if u32 z <? 2 ^ 31 then u32 z else u32 z - 2 ^ 32.

Definition in_u8 (z : Z) : Prop := 0 <= z < 2 ^ 8.
Definition in_u16 (z : Z) : Prop := 0 <= z < 2 ^ 16.
Definition in_u32 (z : Z) : Prop := 0 <= z < 2 ^ 32.

#[global] Instance in_u8_dec z : Decision (in_u8 z).
Proof. unfold in_u8. apply _. Defined.
#[global] Instance in_u16_dec z : Decision (in_u16 z).
Proof. unfold in_u16. apply _. Defined.
#[global] Instance in_u32_dec z : Decision (in_u32 z).
Proof. unfold in_u32. apply _. Defined.

Create HintDb cint.

Lemma u8_range z : in_u8 (u8 z).
Proof. unfold in_u8, u8. apply Z.mod_pos_bound. lia. Qed.
Lemma u16_range z : in_u16 (u16 z).
Proof. unfold in_u16, u16. apply Z.mod_pos_bound. lia. Qed.
Lemma u32_range z : in_u32 (u32 z).
Proof. unfold in_u32, u32. apply Z.mod_pos_bound. lia. Qed.
Lemma u8_id z : in_u8 z → u8 z = z.
Proof. apply Z.mod_small. Qed.
Lemma u16_id z : in_u16 z → u16 z = z.
Proof. apply Z.mod_small. Qed.
Lemma u32_id z : in_u32 z → u32 z = z.
Proof. apply Z.mod_small. Qed.
#[export] Hint Resolve u8_range u16_range u32_range : cint.

(** [lia] for goals with divisions and remainders. *)
Ltac dlia := Z.to_euclidean_division_equations; lia.

(** * Options as outcomes

    A computation that may perform an access C leaves undefined (an index
    outside an array, a freed object) has type [option]: [None] is that fault,
    and stdpp's monad notation [x ← m; k] sequences the steps. *)

(** Reading and writing a C array; a position outside it is a fault. *)
Definition rd {A} (l : list A) (i : Z) : option A :=
  if i <? 0 then None else l !! Z.to_nat i.
Definition wr {A} (l : list A) (i : Z) (v : A) : option (list A) :=
  if (0 <=? i) && (i <? Z.of_nat (length l)) then Some (<[Z.to_nat i := v]> l) else None.

Lemma rd_lookup {A} (l : list A) (i : nat) : rd l (Z.of_nat i) = l !! i.
Proof. unfold rd. destruct (Z.ltb_spec (Z.of_nat i) 0); [lia|]. by rewrite Nat2Z.id. Qed.

Lemma rd_is_Some {A} (l : list A) i :
  0 <= i < Z.of_nat (length l) → ∃ v, rd l i = Some v.
Proof.
  intros H. unfold rd. destruct (Z.ltb_spec i 0); [lia|].
  apply lookup_lt_is_Some_2. lia.
Qed.

Lemma rd_Some_range {A} (l : list A) i v :
  rd l i = Some v → 0 <= i < Z.of_nat (length l).
Proof.
  unfold rd. destruct (Z.ltb_spec i 0); [done|]. intros Hl%lookup_lt_Some. lia.
Qed.

Lemma rd_Forall {A} (P : A → Prop) (l : list A) i v :
  Forall P l → rd l i = Some v → P v.
Proof.
  unfold rd. destruct (i <? 0); [done|]. intros HF H. by eapply Forall_lookup_1.
Qed.

Lemma wr_Some {A} (l : list A) i v :
  0 <= i < Z.of_nat (length l) → wr l i v = Some (<[Z.to_nat i := v]> l).
Proof.
  intros H. unfold wr.
  destruct (Z.leb_spec 0 i), (Z.ltb_spec i (Z.of_nat (length l))); simpl; [done|lia..].
Qed.

Lemma wr_None {A} (l : list A) i v :
  ¬ (0 <= i < Z.of_nat (length l)) → wr l i v = None.
Proof.
  intros H. unfold wr.
  destruct (Z.leb_spec 0 i), (Z.ltb_spec i (Z.of_nat (length l))); simpl; [lia|done..].
Qed.

Lemma wr_inv {A} (l l' : list A) i v :
  wr l i v = Some l' →
  0 <= i < Z.of_nat (length l) ∧ l' = <[Z.to_nat i := v]> l ∧ length l' = length l.
Proof.
  unfold wr. destruct (Z.leb_spec 0 i), (Z.ltb_spec i (Z.of_nat (length l))); simpl; try done.
  intros [= <-]. rewrite length_insert. auto.
Qed.

Lemma rd_wr_eq {A} (l l' : list A) i v : wr l i v = Some l' → rd l' i = Some v.
Proof.
  intros (? & -> & _)%wr_inv. unfold rd. destruct (Z.ltb_spec i 0); [lia|].
  apply list_lookup_insert_eq. lia.
Qed.

Lemma rd_wr_ne {A} (l l' : list A) i j v :
  i ≠ j → wr l i v = Some l' → rd l' j = rd l j.
Proof.
  intros Hij (? & -> & _)%wr_inv. unfold rd. destruct (Z.ltb_spec j 0); [done|].
  apply list_lookup_insert_ne. lia.
Qed.

(** ** Lengths and copies *)

Definition zlen {A} (l : list A) : Z := Z.of_nat (length l).

Lemma zlen_app {A} (l k : list A) : zlen (l ++ k) = zlen l + zlen k.
Proof. unfold zlen. rewrite length_app. lia. Qed.
Lemma zlen_cons {A} (x : A) l : zlen (x :: l) = 1 + zlen l.
Proof. unfold zlen. simpl. lia. Qed.
Lemma zlen_nonneg {A} (l : list A) : 0 <= zlen l.
Proof. unfold zlen. lia. Qed.

(** [memcpy] into a buffer. *)
Fixpoint copy_to (off : Z) (bs b : list Z) : option (list Z) :=
  match bs with
  | [] => Some b
  | x :: bs => b ← wr b off x; copy_to (off + 1) bs b
  end.

Lemma copy_to_run bs : ∀ pre old post, length old = length bs → copy_to (zlen pre) bs (pre ++ old ++ post) = Some (pre ++ bs ++ post).
Proof.
  induction bs as [|x bs IH]; intros pre old post Hlen; [by destruct old|]. destruct old as [|y old]; [done|]. cbn [copy_to].
  rewrite wr_Some by (unfold zlen; rewrite !length_app; cbn; lia). cbn [mbind option_bind].
  replace (Z.to_nat (zlen pre)) with (length pre + 0)%nat by (unfold zlen; lia). rewrite insert_app_r. cbn [app insert list_insert].
  change (x :: old ++ post) with ([x] ++ old ++ post). rewrite app_assoc.
  replace (zlen pre + 1) with (zlen (pre ++ [x])) by by rewrite zlen_app.
  rewrite IH by (cbn in Hlen; lia). by rewrite <- app_assoc.
Qed.

(** * Counted loops

    [for_up i n body s] runs [body] at [i], [i+1], ..., [i+n-1]. *)
Fixpoint for_up {S} (i : Z) (n : nat) (body : Z → S → option S) (s : S) : option S :=
  match n with
  | O => Some s
  | Datatypes.S n => s' ← body i s; for_up (i + 1) n body s'
  end.

(** The loop rule: a body that keeps the invariant from every state in it
    makes the loop terminate without a fault in a state of the invariant. *)
Lemma for_up_inv {S} (P : Z → S → Prop) (body : Z → S → option S) (lo : Z) (n : nat) (s : S) :
  P lo s →
  (∀ i s, lo <= i < lo + Z.of_nat n → P i s → ∃ s', body i s = Some s' ∧ P (i + 1) s') →
  ∃ s', for_up lo n body s = Some s' ∧ P (lo + Z.of_nat n) s'.
Proof.
  revert lo s. induction n as [|n IH]; intros lo s H0 Hstep; simpl.
  - exists s. by rewrite Z.add_0_r.
  - destruct (Hstep lo s) as (s' & -> & Hs'); [lia|done|]. simpl.
    destruct (IH (lo + 1) s' Hs') as (s'' & Hr & HP); [intros; apply Hstep; [lia|done]|].
    exists s''. split; [done|]. by replace (lo + Z.of_nat (Datatypes.S n)) with (lo + 1 + Z.of_nat n) by lia.
Qed.

Lemma for_up_app {S} (i : Z) (n m : nat) (body : Z → S → option S) (s : S) :
  for_up i (n + m) body s = (s' ← for_up i n body s; for_up (i + Z.of_nat n) m body s').
Proof.
  revert i s. induction n as [|n IH]; intros i s; simpl; [by rewrite Z.add_0_r|].
  destruct (body i s) as [s'|]; simpl; [|done].
  rewrite IH. by replace (i + 1 + Z.of_nat n) with (i + Z.of_nat (Datatypes.S n)) by lia.
Qed.

Lemma for_up_ext {S} (f g : Z → S → option S) (i : Z) (n : nat) (s : S) :
  (∀ j s, i <= j < i + Z.of_nat n → f j s = g j s) → for_up i n f s = for_up i n g s.
Proof.
  revert i s. induction n as [|n IH]; intros i s H; simpl; [done|].
  rewrite H by lia. destruct (g i s); simpl; [|done]. apply IH. intros; apply H; lia.
Qed.

(** A loop that consumes a buffer byte by byte is a fold over its prefix. *)
Lemma for_up_fold {S} (P : S → Prop) (Q : Z → Prop) (f : S → Z → option S) (g : S → Z → S)
    (buf : list Z) (lo n : nat) (s : S) :
  (∀ s b, P s → Q b → f s b = Some (g s b) ∧ P (g s b)) →
  Forall Q buf → (lo + n <= length buf)%nat → P s →
  for_up (Z.of_nat lo) n (λ i s, b ← rd buf i; f s b) s = Some (foldl g s (take n (drop lo buf))).
Proof.
  intros Hf HQ. revert lo s. induction n as [|n IH]; intros lo s Hlen HP; simpl; [done|].
  rewrite rd_lookup. destruct (lookup_lt_is_Some_2 buf lo ltac:(lia)) as [b Hb].
  rewrite Hb. simpl. destruct (Hf s b HP) as [-> HP']; [by eapply Forall_lookup_1|]. simpl.
  replace (Z.of_nat lo + 1) with (Z.of_nat (Datatypes.S lo)) by lia.
  rewrite IH by (done || lia). by rewrite (drop_S _ _ _ Hb).
Qed.

(** * Bits of an integer *)

Lemma u_lnot n x : 0 <= n → 0 <= x < 2 ^ n → Z.lnot x mod 2 ^ n = Z.lxor (Z.ones n) x.
Proof.
  intros Hn Hx. rewrite <- Z.land_ones by done. apply Z.bits_inj'. intros i Hi.
  rewrite Z.land_spec, Z.lxor_spec, Z.lnot_spec by done.
  destruct (Z.ltb_spec i n).
  - rewrite Z.ones_spec_low by lia. btauto.
  - rewrite Z.ones_spec_high by lia. rewrite <- (Z.mod_small x (2 ^ n)) by done.
    rewrite Z.mod_pow2_bits_high by lia. done.
Qed.

Lemma testbit_range_high n i z : 0 <= n → 0 <= z < 2 ^ n → n <= i → Z.testbit z i = false.
Proof.
  intros Hn Hz Hi. rewrite <- (Z.mod_small z (2 ^ n)) by done.
  apply Z.mod_pow2_bits_high. lia.
Qed.

Lemma lxor_range n a b :
  0 <= n → 0 <= a < 2 ^ n → 0 <= b < 2 ^ n → 0 <= Z.lxor a b < 2 ^ n.
Proof.
  intros Hn Ha Hb. split; [apply Z.lxor_nonneg; lia|].
  destruct (Z.eq_dec (Z.lxor a b) 0) as [->|Hne]; [apply Z.pow_pos_nonneg; lia|].
  assert (0 <= Z.lxor a b) by (apply Z.lxor_nonneg; lia).
  apply Z.log2_lt_pow2; [lia|].
  destruct (Z.le_gt_cases n (Z.log2 (Z.lxor a b))) as [Hle|]; [|done].
  exfalso. pose proof (Z.bit_log2 (Z.lxor a b) ltac:(lia)) as Hb1.
  rewrite Z.lxor_spec, (testbit_range_high n _ a), (testbit_range_high n _ b) in Hb1 by done.
  done.
Qed.

Lemma shiftr_range n k a :
  0 <= k <= n → 0 <= a < 2 ^ n → 0 <= Z.shiftr a k < 2 ^ (n - k).
Proof.
  intros Hk Ha. rewrite Z.shiftr_div_pow2 by lia. split; [apply Z.div_pos; lia|].
  apply Z.div_lt_upper_bound; [lia|]. rewrite <- Z.pow_add_r by lia.
  replace (k + (n - k)) with n by lia. apply Ha.
Qed.

Lemma land_255_u8 a : Z.land a 255 = u8 a.
Proof. change 255 with (Z.ones 8). by rewrite Z.land_ones. Qed.

Ltac bits := apply Z.bits_inj'; intros ?i ?Hi;
  repeat first [rewrite Z.lxor_spec | rewrite Z.land_spec | rewrite Z.lor_spec
               | rewrite Z.shiftr_spec by lia | rewrite Z.shiftl_spec by lia].
Ltac bits_done := bits; btauto.

(** Fields that do not overlap: "or" is addition. *)
Lemma lor_fields n a k : 0 <= n → 0 <= a < 2 ^ n → Z.lor a (k * 2 ^ n) = a + k * 2 ^ n.
Proof.
  intros Hn Ha. symmetry. apply Z.add_nocarry_lor. rewrite <- Z.shiftl_mul_pow2 by done.
  bits. rewrite Z.bits_0. destruct (Z.ltb_spec i n).
  - rewrite (Z.testbit_neg_r k) by lia. btauto.
  - by rewrite (testbit_range_high n) by lia.
Qed.



(** * Procedures

    A C function over a state [S] that returns an [A]: the state is threaded
    explicitly and [None] is a fault (see above). *)
Definition M (S A : Type) : Type := S → option (A * S).

Section Procedures.
Context {S : Type}.

Definition ret {A} (a : A) : M S A := λ s, Some (a, s).
Definition bind {A B} (m : M S A) (k : A → M S B) : M S B :=
  λ s, match m s with Some (a, s') => k a s' | None => None end.
Definition fault {A} : M S A := λ _, None.
Definition get {A} (f : S → A) : M S A := λ s, Some (f s, s).
Definition modify (f : S → S) : M S unit := λ s, Some (tt, f s).
(** An access that may fault. *)
Definition lift {A} (o : option A) : M S A := λ s, (a ← o; Some (a, s)).
Definition when (b : bool) (m : M S unit) : M S unit := if b then m else ret tt.
End Procedures.

Declare Scope proc_scope.
Delimit Scope proc_scope with proc.
Notation "'let!' p := m 'in' k" := (bind m (λ p, k))
  (at level 10, p pattern, m at level 100, k at level 200) : proc_scope.
Notation "m ';;;' k" := (bind m (λ _, k))
  (at level 199, right associativity) : proc_scope.
#[global] Open Scope proc_scope.

(** [for (i = lo; ...; i++)] around a procedure. *)
Fixpoint for_proc {S} (i : Z) (n : nat) (body : Z → M S unit) : M S unit :=
  match n with
  | O => ret tt
  | Datatypes.S n => body i ;;; for_proc (i + 1) n body
  end.

Section ProcedureLemmas.
Context {S : Type}.

Lemma bind_run {A B} (m : M S A) (k : A → M S B) s a s' :
  m s = Some (a, s') → bind m k s = k a s'.
Proof. unfold bind. by intros ->. Qed.

Lemma bind_Some_inv {A B} (m : M S A) (k : A → M S B) s r :
  bind m k s = Some r → ∃ a s', m s = Some (a, s') ∧ k a s' = Some r.
Proof. unfold bind. destruct (m s) as [[a s']|]; [eauto|done]. Qed.

Lemma lift_run {A} (o : option A) a (s : S) : o = Some a → lift o s = Some (a, s).
Proof. unfold lift. by intros ->. Qed.

Lemma for_proc_inv (P : Z → S → Prop) (body : Z → M S unit) (lo : Z) (n : nat) (s : S) :
  P lo s →
  (∀ i s, lo <= i < lo + Z.of_nat n → P i s → ∃ s', body i s = Some (tt, s') ∧ P (i + 1) s') →
  ∃ s', for_proc lo n body s = Some (tt, s') ∧ P (lo + Z.of_nat n) s'.
Proof.
  revert lo s. induction n as [|n IH]; intros lo s H0 Hstep; simpl.
  - exists s. by rewrite Z.add_0_r.
  - destruct (Hstep lo s) as (s' & Hb & Hs'); [lia|done|].
    destruct (IH (lo + 1) s' Hs') as (s'' & Hr & HP); [intros; apply Hstep; [lia|done]|].
    exists s''. rewrite (bind_run _ _ _ _ _ Hb). split; [done|].
    by replace (lo + Z.of_nat (Datatypes.S n)) with (lo + 1 + Z.of_nat n) by lia.
Qed.
End ProcedureLemmas.

(** ** Total correctness triples

    [triple P m Q]: from every state of [P] the procedure returns, without a
    fault, an answer and a state related by [Q]. *)
Section Triples.
Context {S : Type}.
Implicit Types P R : S → Prop.

Definition triple {A} P (m : M S A) (Q : A → S → Prop) : Prop :=
  ∀ s, P s → ∃ a s', m s = Some (a, s') ∧ Q a s'.

Lemma triple_ret {A} P (a : A) : triple P (ret a) (λ b s, b = a ∧ P s).
Proof. intros s Hs. by exists a, s. Qed.

Lemma triple_bind {A B} P (m : M S A) (Q : A → S → Prop) (k : A → M S B) (R : B → S → Prop) :
  triple P m Q → (∀ a, triple (Q a) (k a) R) → triple P (bind m k) R.
Proof.
  intros Hm Hk s Hs. destruct (Hm s Hs) as (a & s' & Hr & HQ).
  destruct (Hk a s' HQ) as (b & s'' & Hr' & HR). exists b, s''.
  by rewrite (bind_run _ _ _ _ _ Hr).
Qed.

Lemma triple_weaken {A} P P' (m : M S A) (Q Q' : A → S → Prop) :
  triple P' m Q' → (∀ s, P s → P' s) → (∀ a s, Q' a s → Q a s) → triple P m Q.
Proof.
  intros Hm HP HQ s Hs. destruct (Hm s (HP s Hs)) as (a & s' & ? & ?). eauto.
Qed.

Lemma triple_modify P (f : S → S) (Q : S → Prop) :
  (∀ s, P s → Q (f s)) → triple P (modify f) (λ _, Q).
Proof. intros H s Hs. exists tt, (f s). auto. Qed.

Lemma triple_get {A} P (f : S → A) : triple P (get f) (λ a s, a = f s ∧ P s).
Proof. intros s Hs. by exists (f s), s. Qed.

Lemma triple_lift {A} P (o : option A) (Q : A → Prop) :
  (∀ s, P s → ∃ a, o = Some a ∧ Q a) → triple P (lift o) (λ a s, Q a ∧ P s).
Proof. intros H s Hs. destruct (H s Hs) as (a & -> & Ha). by exists a, s. Qed.

(** Reading the state first lets the triple speak about it. *)
Lemma triple_get_bind {A B} P (f : S → A) (k : A → M S B) (R : B → S → Prop) :
  (∀ s, P s → triple (λ s', s' = s) (k (f s)) R) → triple P (bind (get f) k) R.
Proof.
  intros H s Hs. destruct (H s Hs s eq_refl) as (b & s' & Hr & HR). exists b, s'. done.
Qed.

Lemma triple_point {A} P (m : M S A) (Q : A → S → Prop) :
  (∀ s, P s → triple (λ s', s' = s) m Q) → triple P m Q.
Proof. intros H s Hs. by apply (H s Hs s). Qed.
End Triples.

(** Run the next call of a procedure with a lemma that describes it. *)
Tactic Notation "step" uconstr(H) := (erewrite bind_run; [|eapply H]); cbv beta.

(** Prove that every element of an explicit list is a byte. *)
Ltac forall_u8 :=
  repeat (apply Forall_cons; split;
    [solve [assumption | apply u8_range | unfold in_u8; lia | vm_compute; done]|]);
  try apply Forall_nil_2.

(** * Loops that may return *)

(** [for (i = lo; ...; i++)] whose body may return from the function with
    [Some r]. *)
Fixpoint for_ret {S R} (i : Z) (n : nat) (body : Z → M S (option R)) : M S (option R) :=
  match n with
  | O => ret None
  | Datatypes.S n =>
      let! r := body i in
      match r with Some _ => ret r | None => for_ret (i + 1) n body end
  end.

(** The first position of [lo, lo+1, ..., lo+n-1] that passes a test. *)
Fixpoint first_index (test : Z → bool) (lo : Z) (n : nat) : option Z :=
  match n with
  | O => None
  | Datatypes.S n => if test lo then Some lo else first_index test (lo + 1) n
  end.

Lemma first_index_Some test lo n j :
  first_index test lo n = Some j →
  lo <= j < lo + Z.of_nat n ∧ test j = true ∧ ∀ i, lo <= i < j → test i = false.
Proof.
  revert lo. induction n as [|n IH]; intros lo; simpl; [done|].
  destruct (test lo) eqn:E.
  - intros [= ->]. repeat split; try lia. done.
  - intros (Hr & Ht & Hlt)%IH. repeat split; try lia; [done|].
    intros i Hi. destruct (Z.eq_dec i lo) as [->|]; [done|]. apply Hlt. lia.
Qed.

Lemma first_index_None test lo n :
  first_index test lo n = None → ∀ i, lo <= i < lo + Z.of_nat n → test i = false.
Proof.
  revert lo. induction n as [|n IH]; intros lo; simpl; [lia|].
  destruct (test lo) eqn:E; [done|]. intros H i Hi.
  destruct (Z.eq_dec i lo) as [->|]; [done|]. apply (IH (lo + 1)); [done|lia].
Qed.

(** A search loop: the body leaves the state alone where the test fails and
    returns at the first position that passes it. *)
Lemma for_ret_search {S R} (test : Z → bool) (body : Z → M S (option R)) lo n s :
  (∀ i, lo <= i < lo + Z.of_nat n → test i = false → body i s = Some (None, s)) →
  (∀ i, first_index test lo n = Some i → ∃ r s', body i s = Some (Some r, s')) →
  for_ret lo n body s =
    match first_index test lo n with Some j => body j s | None => Some (None, s) end.
Proof.
  revert lo. induction n as [|n IH]; intros lo Hf Ht; simpl in *; [done|].
  destruct (test lo) eqn:E.
  - destruct (Ht lo) as (r & s' & Hb); [done|].
    by rewrite (bind_run _ _ _ _ _ Hb), Hb.
  - rewrite (bind_run _ _ _ _ _ (Hf lo ltac:(lia) E)).
    apply IH; intros; [apply Hf; done || lia|by apply Ht].
Qed.

(** Run a procedure of a component on its part of a larger state. *)
Definition zoom {S T A} (g : S → T) (p : T → S → S) (m : M T A) : M S A :=
  λ s, match m (g s) with Some (a, t) => Some (a, p t s) | None => None end.

Lemma zoom_run {S T A} (g : S → T) (p : T → S → S) (m : M T A) s a t :
  m (g s) = Some (a, t) → zoom g p m s = Some (a, p t s).
Proof. unfold zoom. by intros ->. Qed.

(** ** Invariants of procedures

    [keeps I m]: wherever [m] returns from a state of [I], it ends in one. *)
Definition keeps {S A} (I : S → Prop) (m : M S A) : Prop := ∀ s a s', I s → m s = Some (a, s') → I s'.

Create HintDb keeps discriminated.
#[export] Hint Constants Opaque : keeps.

Section Keeps.
Context {S : Type}.
Implicit Types I : S → Prop.

Lemma keeps_ret {A} I (a : A) : keeps I (ret a).
Proof. by intros s a' s' HI [= <- <-]. Qed.
Lemma keeps_fault {A} I : keeps I (fault : M S A).
Proof. by intros s a s'. Qed.
Lemma keeps_get {A} I (f : S → A) : keeps I (get f).
Proof. by intros s a s' HI [= <- <-]. Qed.
Lemma keeps_modify I (f : S → S) : (∀ s, I s → I (f s)) → keeps I (modify f).
Proof. intros Hf s a s' HI [= <- <-]. by apply Hf. Qed.
Lemma keeps_lift {A} I (o : option A) : keeps I (lift o).
Proof. intros s a s' HI. unfold lift. destruct o; [by intros [= <- <-]|done]. Qed.
Lemma keeps_bind {A B} I (m : M S A) (k : A → M S B) : keeps I m → (∀ a, keeps I (k a)) → keeps I (bind m k).
Proof. intros Hm Hk s b s' HI (a & s1 & Hr & Hr')%bind_Some_inv. by eapply Hk, Hr'; eapply Hm, Hr. Qed.
Lemma keeps_when I b (m : M S unit) : keeps I m → keeps I (when b m).
Proof. intros Hm. destruct b; [done|apply keeps_ret]. Qed.
Lemma keeps_for_proc I (body : Z → M S unit) n : (∀ i, keeps I (body i)) → ∀ i, keeps I (for_proc i n body).
Proof. intros Hb. induction n as [|n IH]; intros i; cbn; [apply keeps_ret|]. apply keeps_bind; [apply Hb|intros; apply IH]. Qed.
Lemma keeps_for_ret {R} I (body : Z → M S (option R)) n : (∀ i, keeps I (body i)) → ∀ i, keeps I (for_ret i n body).
Proof.
  intros Hb. induction n as [|n IH]; intros i; cbn; [apply keeps_ret|].
  apply keeps_bind; [apply Hb|]. intros [r|]; [apply keeps_ret|apply IH].
Qed.
(** A procedure of a component, on its part of the state. *)
Lemma keeps_zoom {T A} I (g : S → T) (p : T → S → S) (m : M T A) (J : S → T → Prop) :
  (∀ s, I s → J s (g s)) → (∀ s, I s → keeps (J s) m) → (∀ s t, I s → J s t → I (p t s)) → keeps I (zoom g p m).
Proof.
  intros Hg Hm Hp s a s' HI. unfold zoom. destruct (m (g s)) as [[a' t]|] eqn:E; [|done].
  intros [= <- <-]. apply Hp; [done|]. by eapply Hm; [| |exact E]; [done|apply Hg].
Qed.
End Keeps.
#[export] Hint Resolve keeps_ret keeps_fault keeps_get keeps_lift : keeps.

(** Take a procedure apart, one call at a time. *)
Ltac keep_step :=
  match goal with
  | |- keeps _ (bind _ _) => apply keeps_bind; [|intros]
  | |- keeps _ (when _ _) => apply keeps_when
  | |- keeps _ (for_proc _ _ _) => apply keeps_for_proc; intros
  | |- keeps _ (for_ret _ _ _) => apply keeps_for_ret; intros
  | |- keeps _ (if ?b then _ else _) => destruct b
  | |- keeps _ (match ?x with _ => _ end) => destruct x
  | |- keeps _ (let _ := _ in _) => cbv zeta
  | |- keeps _ _ => solve [auto with keeps]
  end.
Ltac keep := repeat keep_step.

(** ** Procedures that may restart the device

    [esp_restart] does not return: nothing after it runs. A procedure of [MR]
    answers [None] when it has restarted. *)
Definition MR (S A : Type) : Type := M S (option A).
Definition returning {S A} (m : M S A) : MR S A := let! a := m in ret (Some a).
Definition esp_restart {S A} : MR S A := ret None.
Definition bind_r {S A B} (m : MR S A) (k : A → MR S B) : MR S B :=
  let! r := m in match r with Some a => k a | None => ret None end.
Notation "'let?' p := m 'in' k" := (bind_r m (λ p, k))
  (at level 10, p pattern, m at level 100, k at level 200) : proc_scope.
Notation "m ';?' k" := (bind_r m (λ _, k)) (at level 199, right associativity) : proc_scope.

Lemma bind_r_run {S A B} (m : MR S A) (k : A → MR S B) s a s' : m s = Some (Some a, s') → bind_r m k s = k a s'.
Proof. intros E. unfold bind_r. by rewrite (bind_run _ _ _ _ _ E). Qed.
Lemma returning_run {S A} (m : M S A) s a s' : m s = Some (a, s') → returning m s = Some (Some a, s').
Proof. intros E. unfold returning. by rewrite (bind_run _ _ _ _ _ E). Qed.

Section RestartKeeps.
Context {S : Type}.
Implicit Types I : S → Prop.
Lemma keeps_returning {A} I (m : M S A) : keeps I m → keeps I (returning m).
Proof. intros Hm. apply keeps_bind; [done|intros; apply keeps_ret]. Qed.
Lemma keeps_esp_restart {A} I : keeps I (esp_restart : MR S A).
Proof. apply keeps_ret. Qed.
Lemma keeps_bind_r {A B} I (m : MR S A) (k : A → MR S B) : keeps I m → (∀ a, keeps I (k a)) → keeps I (bind_r m k).
Proof. intros Hm Hk. apply keeps_bind; [done|]. intros [a|]; [apply Hk|apply keeps_ret]. Qed.
End RestartKeeps.
#[export] Hint Resolve keeps_esp_restart : keeps.
Ltac keep_r := repeat first
  [ match goal with
    | |- keeps _ (returning _) => apply keeps_returning
    | |- keeps _ (bind_r _ _) => apply keeps_bind_r; [|intros]
    end
  | keep_step ].
