(* ===== verification/Crc.v ===== *)
(** Checksums: [components/util/src/crc.c].

    Module [Reflected] is the bit-by-bit definition of a reflected CRC, the
    abstract specification of every table-driven routine of the repository;
    module [Util] models [crc16_le], [crc32_le] and [esp_crc8] with their
    tables, and proves them equal to that specification. *)
From S2P Require Import Prelude.

(** * The bit-serial specification *)
Module Reflected.
Section Spec.
Context (w poly : Z).

(** One step of the shift register: the bit shifted out selects the
    polynomial. *)
Definition bit_step (r : Z) : Z :=
  if Z.testbit r 0 then Z.lxor (Z.shiftr r 1) poly else Z.shiftr r 1.

Definition bits_step (n : nat) (r : Z) : Z := Nat.iter n bit_step r.

(** One message byte, least significant bit first. *)
Definition byte_step (r b : Z) : Z := bits_step 8 (Z.lxor r b).

Definition run (r : Z) (msg : list Z) : Z := foldl byte_step r msg.

(** The register step is linear over exclusive or. *)
Lemma bit_step_lxor a b : bit_step (Z.lxor a b) = Z.lxor (bit_step a) (bit_step b).
Proof.
  unfold bit_step. rewrite Z.lxor_spec, Z.shiftr_lxor.
  destruct (Z.testbit a 0), (Z.testbit b 0); simpl; [|bits; btauto..].
  rewrite Z.lxor_assoc, (Z.lxor_comm poly), Z.lxor_assoc, Z.lxor_nilpotent, Z.lxor_0_r.
  done.
Qed.

Lemma bits_step_lxor n a b :
  bits_step n (Z.lxor a b) = Z.lxor (bits_step n a) (bits_step n b).
Proof. induction n as [|n IH]; simpl; [done|]. rewrite <- bit_step_lxor. f_equal. apply IH. Qed.

(** Bits above the [n] lowest are only shifted by [n] steps. *)
Lemma bits_step_high n x : bits_step n (Z.shiftl x (Z.of_nat n)) = x.
Proof.
  revert x. induction n as [|n IH]; intros x; [by rewrite Z.shiftl_0_r|].
  unfold bits_step in *. rewrite Nat.iter_succ_r. rewrite <- (IH x) at 2. f_equal.
  unfold bit_step. rewrite Z.shiftl_spec, Z.testbit_neg_r by lia.
  rewrite Z.shiftr_shiftl_l by lia. f_equal. lia.
Qed.

(** The usual table method: a byte step looks up the low byte. *)
Lemma byte_step_table r b :
  byte_step r b = Z.lxor (bits_step 8 (u8 (Z.lxor r b))) (Z.shiftr (Z.lxor r b) 8).
Proof.
  unfold byte_step. set (x := Z.lxor r b).
  rewrite <- (bits_step_high 8 (Z.shiftr x 8)) at 1. rewrite <- bits_step_lxor. f_equal.
  rewrite <- land_255_u8. change 255 with (Z.ones 8). bits.
  destruct (Z.ltb_spec i 8).
  - rewrite Z.ones_spec_low, (Z.testbit_neg_r _ (i - Z.of_nat 8)) by lia. btauto.
  - rewrite Z.ones_spec_high, Z.shiftr_spec by lia.
    replace (i - Z.of_nat 8 + 8) with i by lia. btauto.
Qed.

Context (Hw : 8 <= w) (Hpoly : 0 <= poly < 2 ^ w) (Htop : Z.testbit poly (w - 1) = true).

Lemma bit_step_range r : 0 <= r < 2 ^ w → 0 <= bit_step r < 2 ^ w.
Proof using Hw Hpoly.
  intros Hr. assert (0 <= Z.shiftr r 1 < 2 ^ w).
  { pose proof (shiftr_range w 1 r ltac:(lia) Hr).
    pose proof (Z.pow_lt_mono_r 2 (w - 1) w ltac:(lia) ltac:(lia) ltac:(lia)). lia. }
  unfold bit_step. destruct (Z.testbit r 0); [apply lxor_range; lia|done].
Qed.

Lemma bits_step_range n r : 0 <= r < 2 ^ w → 0 <= bits_step n r < 2 ^ w.
Proof using Hw Hpoly. intros Hr. induction n; simpl; [done|by apply bit_step_range]. Qed.

Lemma byte_range b : in_u8 b → 0 <= b < 2 ^ w.
Proof using Hw.
  unfold in_u8. intros Hb. pose proof (Z.pow_le_mono_r 2 8 w ltac:(lia) Hw). lia.
Qed.

Lemma byte_step_range r b : 0 <= r < 2 ^ w → in_u8 b → 0 <= byte_step r b < 2 ^ w.
Proof using Hw Hpoly.
  intros Hr Hb%byte_range. apply bits_step_range. apply lxor_range; lia.
Qed.

Lemma run_range r msg : 0 <= r < 2 ^ w → Forall in_u8 msg → 0 <= run r msg < 2 ^ w.
Proof using Hw Hpoly.
  intros Hr Hm. revert r Hr. induction Hm; intros r Hr; simpl; [done|].
  apply IHHm. by apply byte_step_range.
Qed.

(** The top bit of a register after a step tells which branch was taken, so
    that a step loses no information. *)
Lemma bit_step_inj a b :
  0 <= a < 2 ^ w → 0 <= b < 2 ^ w → bit_step a = bit_step b → a = b.
Proof using Hw Hpoly Htop.
  intros Ha Hb Heq.
  assert (Hbit : ∀ r, 0 <= r < 2 ^ w → Z.testbit (bit_step r) (w - 1) = Z.testbit r 0).
  { intros r Hr. unfold bit_step. destruct (Z.testbit r 0) eqn:E.
    - rewrite Z.lxor_spec, Htop, Z.shiftr_spec by lia.
      rewrite (testbit_range_high w) by lia. done.
    - rewrite Z.shiftr_spec by lia. rewrite (testbit_range_high w) by lia. done. }
  pose proof (Hbit a Ha) as Ha0. pose proof (Hbit b Hb) as Hb0. rewrite Heq in Ha0.
  assert (H0 : Z.testbit a 0 = Z.testbit b 0) by congruence.
  assert (Hs : Z.shiftr a 1 = Z.shiftr b 1).
  { unfold bit_step in Heq. rewrite H0 in Heq. destruct (Z.testbit b 0); [|done].
    apply (f_equal (λ z, Z.lxor z poly)) in Heq.
    by rewrite !Z.lxor_assoc, Z.lxor_nilpotent, !Z.lxor_0_r in Heq. }
  apply Z.bits_inj'. intros i Hi. destruct (Z.eq_dec i 0) as [->|]; [done|].
  apply (f_equal (λ z, Z.testbit z (i - 1))) in Hs.
  rewrite !Z.shiftr_spec in Hs by lia. by replace (i - 1 + 1) with i in Hs by lia.
Qed.

Lemma bits_step_inj n a b :
  0 <= a < 2 ^ w → 0 <= b < 2 ^ w → bits_step n a = bits_step n b → a = b.
Proof using Hw Hpoly Htop.
  intros Ha Hb. induction n as [|n IH]; simpl; [done|]. intros Heq. apply IH.
  by apply bit_step_inj; [apply bits_step_range..|].
Qed.

Lemma byte_step_inj_reg a a' b :
  0 <= a < 2 ^ w → 0 <= a' < 2 ^ w → in_u8 b → byte_step a b = byte_step a' b → a = a'.
Proof using Hw Hpoly Htop.
  intros Ha Ha' Hb%byte_range Heq. apply bits_step_inj in Heq; [|apply lxor_range; lia..].
  apply (f_equal (λ z, Z.lxor z b)) in Heq.
  by rewrite !Z.lxor_assoc, Z.lxor_nilpotent, !Z.lxor_0_r in Heq.
Qed.

Lemma byte_step_inj_byte r b b' :
  0 <= r < 2 ^ w → in_u8 b → in_u8 b' → byte_step r b = byte_step r b' → b = b'.
Proof using Hw Hpoly Htop.
  intros Hr Hb%byte_range Hb'%byte_range Heq.
  apply bits_step_inj in Heq; [|apply lxor_range; lia..].
  apply (f_equal (Z.lxor r)) in Heq.
  by rewrite <- !Z.lxor_assoc, Z.lxor_nilpotent, !Z.lxor_0_l in Heq.
Qed.

Lemma run_inj a a' msg :
  0 <= a < 2 ^ w → 0 <= a' < 2 ^ w → Forall in_u8 msg → run a msg = run a' msg → a = a'.
Proof using Hw Hpoly Htop.
  intros Ha Ha' Hm. revert a a' Ha Ha'. induction Hm as [|b msg Hb Hm IH]; intros a a' Ha Ha' Heq.
  - done.
  - simpl in Heq. apply IH in Heq; [|by apply byte_step_range..].
    by apply byte_step_inj_reg in Heq.
Qed.

(** Any change confined to one byte changes the register. *)
Lemma run_detects_byte r pre post b b' :
  0 <= r < 2 ^ w → Forall in_u8 pre → Forall in_u8 post → in_u8 b → in_u8 b' → b ≠ b' →
  run r (pre ++ b :: post) ≠ run r (pre ++ b' :: post).
Proof using Hw Hpoly Htop.
  intros Hr Hpre Hpost Hb Hb' Hne Heq. unfold run in Heq. rewrite !foldl_app in Heq. simpl in Heq.
  pose proof (run_range r pre Hr Hpre) as Hp. fold (run r pre) in Heq.
  apply run_inj in Heq; [|by apply byte_step_range..|done].
  by apply byte_step_inj_byte in Heq.
Qed.

Lemma run_app r m1 m2 : run r (m1 ++ m2) = run (run r m1) m2.
Proof using Type. apply foldl_app. Qed.
End Spec.
#[global] Arguments bits_step : simpl never.
End Reflected.

(** * The table-driven routines *)
Module Util.

Definition crc32_le_table : list Z := [
   0x00000000; 0x77073096; 0xee0e612c; 0x990951ba; 0x076dc419; 0x706af48f; 0xe963a535; 0x9e6495a3;
   0x0edb8832; 0x79dcb8a4; 0xe0d5e91e; 0x97d2d988; 0x09b64c2b; 0x7eb17cbd; 0xe7b82d07; 0x90bf1d91;
   0x1db71064; 0x6ab020f2; 0xf3b97148; 0x84be41de; 0x1adad47d; 0x6ddde4eb; 0xf4d4b551; 0x83d385c7;
   0x136c9856; 0x646ba8c0; 0xfd62f97a; 0x8a65c9ec; 0x14015c4f; 0x63066cd9; 0xfa0f3d63; 0x8d080df5;
   0x3b6e20c8; 0x4c69105e; 0xd56041e4; 0xa2677172; 0x3c03e4d1; 0x4b04d447; 0xd20d85fd; 0xa50ab56b;
   0x35b5a8fa; 0x42b2986c; 0xdbbbc9d6; 0xacbcf940; 0x32d86ce3; 0x45df5c75; 0xdcd60dcf; 0xabd13d59;
   0x26d930ac; 0x51de003a; 0xc8d75180; 0xbfd06116; 0x21b4f4b5; 0x56b3c423; 0xcfba9599; 0xb8bda50f;
   0x2802b89e; 0x5f058808; 0xc60cd9b2; 0xb10be924; 0x2f6f7c87; 0x58684c11; 0xc1611dab; 0xb6662d3d;
   0x76dc4190; 0x01db7106; 0x98d220bc; 0xefd5102a; 0x71b18589; 0x06b6b51f; 0x9fbfe4a5; 0xe8b8d433;
   0x7807c9a2; 0x0f00f934; 0x9609a88e; 0xe10e9818; 0x7f6a0dbb; 0x086d3d2d; 0x91646c97; 0xe6635c01;
   0x6b6b51f4; 0x1c6c6162; 0x856530d8; 0xf262004e; 0x6c0695ed; 0x1b01a57b; 0x8208f4c1; 0xf50fc457;
   0x65b0d9c6; 0x12b7e950; 0x8bbeb8ea; 0xfcb9887c; 0x62dd1ddf; 0x15da2d49; 0x8cd37cf3; 0xfbd44c65;
   0x4db26158; 0x3ab551ce; 0xa3bc0074; 0xd4bb30e2; 0x4adfa541; 0x3dd895d7; 0xa4d1c46d; 0xd3d6f4fb;
   0x4369e96a; 0x346ed9fc; 0xad678846; 0xda60b8d0; 0x44042d73; 0x33031de5; 0xaa0a4c5f; 0xdd0d7cc9;
   0x5005713c; 0x270241aa; 0xbe0b1010; 0xc90c2086; 0x5768b525; 0x206f85b3; 0xb966d409; 0xce61e49f;
   0x5edef90e; 0x29d9c998; 0xb0d09822; 0xc7d7a8b4; 0x59b33d17; 0x2eb40d81; 0xb7bd5c3b; 0xc0ba6cad;
   0xedb88320; 0x9abfb3b6; 0x03b6e20c; 0x74b1d29a; 0xead54739; 0x9dd277af; 0x04db2615; 0x73dc1683;
   0xe3630b12; 0x94643b84; 0x0d6d6a3e; 0x7a6a5aa8; 0xe40ecf0b; 0x9309ff9d; 0x0a00ae27; 0x7d079eb1;
   0xf00f9344; 0x8708a3d2; 0x1e01f268; 0x6906c2fe; 0xf762575d; 0x806567cb; 0x196c3671; 0x6e6b06e7;
   0xfed41b76; 0x89d32be0; 0x10da7a5a; 0x67dd4acc; 0xf9b9df6f; 0x8ebeeff9; 0x17b7be43; 0x60b08ed5;
   0xd6d6a3e8; 0xa1d1937e; 0x38d8c2c4; 0x4fdff252; 0xd1bb67f1; 0xa6bc5767; 0x3fb506dd; 0x48b2364b;
   0xd80d2bda; 0xaf0a1b4c; 0x36034af6; 0x41047a60; 0xdf60efc3; 0xa867df55; 0x316e8eef; 0x4669be79;
   0xcb61b38c; 0xbc66831a; 0x256fd2a0; 0x5268e236; 0xcc0c7795; 0xbb0b4703; 0x220216b9; 0x5505262f;
   0xc5ba3bbe; 0xb2bd0b28; 0x2bb45a92; 0x5cb36a04; 0xc2d7ffa7; 0xb5d0cf31; 0x2cd99e8b; 0x5bdeae1d;
   0x9b64c2b0; 0xec63f226; 0x756aa39c; 0x026d930a; 0x9c0906a9; 0xeb0e363f; 0x72076785; 0x05005713;
   0x95bf4a82; 0xe2b87a14; 0x7bb12bae; 0x0cb61b38; 0x92d28e9b; 0xe5d5be0d; 0x7cdcefb7; 0x0bdbdf21;
   0x86d3d2d4; 0xf1d4e242; 0x68ddb3f8; 0x1fda836e; 0x81be16cd; 0xf6b9265b; 0x6fb077e1; 0x18b74777;
   0x88085ae6; 0xff0f6a70; 0x66063bca; 0x11010b5c; 0x8f659eff; 0xf862ae69; 0x616bffd3; 0x166ccf45;
   0xa00ae278; 0xd70dd2ee; 0x4e048354; 0x3903b3c2; 0xa7672661; 0xd06016f7; 0x4969474d; 0x3e6e77db;
   0xaed16a4a; 0xd9d65adc; 0x40df0b66; 0x37d83bf0; 0xa9bcae53; 0xdebb9ec5; 0x47b2cf7f; 0x30b5ffe9;
   0xbdbdf21c; 0xcabac28a; 0x53b39330; 0x24b4a3a6; 0xbad03605; 0xcdd70693; 0x54de5729; 0x23d967bf;
   0xb3667a2e; 0xc4614ab8; 0x5d681b02; 0x2a6f2b94; 0xb40bbe37; 0xc30c8ea1; 0x5a05df1b; 0x2d02ef8d ].

Definition crc16_le_table : list Z := [
   0x0000; 0x1189; 0x2312; 0x329b; 0x4624; 0x57ad; 0x6536; 0x74bf; 0x8c48; 0x9dc1;
   0xaf5a; 0xbed3; 0xca6c; 0xdbe5; 0xe97e; 0xf8f7; 0x1081; 0x0108; 0x3393; 0x221a;
   0x56a5; 0x472c; 0x75b7; 0x643e; 0x9cc9; 0x8d40; 0xbfdb; 0xae52; 0xdaed; 0xcb64;
   0xf9ff; 0xe876; 0x2102; 0x308b; 0x0210; 0x1399; 0x6726; 0x76af; 0x4434; 0x55bd;
   0xad4a; 0xbcc3; 0x8e58; 0x9fd1; 0xeb6e; 0xfae7; 0xc87c; 0xd9f5; 0x3183; 0x200a;
   0x1291; 0x0318; 0x77a7; 0x662e; 0x54b5; 0x453c; 0xbdcb; 0xac42; 0x9ed9; 0x8f50;
   0xfbef; 0xea66; 0xd8fd; 0xc974; 0x4204; 0x538d; 0x6116; 0x709f; 0x0420; 0x15a9;
   0x2732; 0x36bb; 0xce4c; 0xdfc5; 0xed5e; 0xfcd7; 0x8868; 0x99e1; 0xab7a; 0xbaf3;
   0x5285; 0x430c; 0x7197; 0x601e; 0x14a1; 0x0528; 0x37b3; 0x263a; 0xdecd; 0xcf44;
   0xfddf; 0xec56; 0x98e9; 0x8960; 0xbbfb; 0xaa72; 0x6306; 0x728f; 0x4014; 0x519d;
   0x2522; 0x34ab; 0x0630; 0x17b9; 0xef4e; 0xfec7; 0xcc5c; 0xddd5; 0xa96a; 0xb8e3;
   0x8a78; 0x9bf1; 0x7387; 0x620e; 0x5095; 0x411c; 0x35a3; 0x242a; 0x16b1; 0x0738;
   0xffcf; 0xee46; 0xdcdd; 0xcd54; 0xb9eb; 0xa862; 0x9af9; 0x8b70; 0x8408; 0x9581;
   0xa71a; 0xb693; 0xc22c; 0xd3a5; 0xe13e; 0xf0b7; 0x0840; 0x19c9; 0x2b52; 0x3adb;
   0x4e64; 0x5fed; 0x6d76; 0x7cff; 0x9489; 0x8500; 0xb79b; 0xa612; 0xd2ad; 0xc324;
   0xf1bf; 0xe036; 0x18c1; 0x0948; 0x3bd3; 0x2a5a; 0x5ee5; 0x4f6c; 0x7df7; 0x6c7e;
   0xa50a; 0xb483; 0x8618; 0x9791; 0xe32e; 0xf2a7; 0xc03c; 0xd1b5; 0x2942; 0x38cb;
   0x0a50; 0x1bd9; 0x6f66; 0x7eef; 0x4c74; 0x5dfd; 0xb58b; 0xa402; 0x9699; 0x8710;
   0xf3af; 0xe226; 0xd0bd; 0xc134; 0x39c3; 0x284a; 0x1ad1; 0x0b58; 0x7fe7; 0x6e6e;
   0x5cf5; 0x4d7c; 0xc60c; 0xd785; 0xe51e; 0xf497; 0x8028; 0x91a1; 0xa33a; 0xb2b3;
   0x4a44; 0x5bcd; 0x6956; 0x78df; 0x0c60; 0x1de9; 0x2f72; 0x3efb; 0xd68d; 0xc704;
   0xf59f; 0xe416; 0x90a9; 0x8120; 0xb3bb; 0xa232; 0x5ac5; 0x4b4c; 0x79d7; 0x685e;
   0x1ce1; 0x0d68; 0x3ff3; 0x2e7a; 0xe70e; 0xf687; 0xc41c; 0xd595; 0xa12a; 0xb0a3;
   0x8238; 0x93b1; 0x6b46; 0x7acf; 0x4854; 0x59dd; 0x2d62; 0x3ceb; 0x0e70; 0x1ff9;
   0xf78f; 0xe606; 0xd49d; 0xc514; 0xb1ab; 0xa022; 0x92b9; 0x8330; 0x7bc7; 0x6a4e;
   0x58d5; 0x495c; 0x3de3; 0x2c6a; 0x1ef1; 0x0f78 ].

Definition crc8_le_table : list Z := [
   0x00; 0x5e; 0xbc; 0xe2; 0x61; 0x3f; 0xdd; 0x83; 0xc2; 0x9c; 0x7e; 0x20;
   0xa3; 0xfd; 0x1f; 0x41; 0x9d; 0xc3; 0x21; 0x7f; 0xfc; 0xa2; 0x40; 0x1e;
   0x5f; 0x01; 0xe3; 0xbd; 0x3e; 0x60; 0x82; 0xdc; 0x23; 0x7d; 0x9f; 0xc1;
   0x42; 0x1c; 0xfe; 0xa0; 0xe1; 0xbf; 0x5d; 0x03; 0x80; 0xde; 0x3c; 0x62;
   0xbe; 0xe0; 0x02; 0x5c; 0xdf; 0x81; 0x63; 0x3d; 0x7c; 0x22; 0xc0; 0x9e;
   0x1d; 0x43; 0xa1; 0xff; 0x46; 0x18; 0xfa; 0xa4; 0x27; 0x79; 0x9b; 0xc5;
   0x84; 0xda; 0x38; 0x66; 0xe5; 0xbb; 0x59; 0x07; 0xdb; 0x85; 0x67; 0x39;
   0xba; 0xe4; 0x06; 0x58; 0x19; 0x47; 0xa5; 0xfb; 0x78; 0x26; 0xc4; 0x9a;
   0x65; 0x3b; 0xd9; 0x87; 0x04; 0x5a; 0xb8; 0xe6; 0xa7; 0xf9; 0x1b; 0x45;
   0xc6; 0x98; 0x7a; 0x24; 0xf8; 0xa6; 0x44; 0x1a; 0x99; 0xc7; 0x25; 0x7b;
   0x3a; 0x64; 0x86; 0xd8; 0x5b; 0x05; 0xe7; 0xb9; 0x8c; 0xd2; 0x30; 0x6e;
   0xed; 0xb3; 0x51; 0x0f; 0x4e; 0x10; 0xf2; 0xac; 0x2f; 0x71; 0x93; 0xcd;
   0x11; 0x4f; 0xad; 0xf3; 0x70; 0x2e; 0xcc; 0x92; 0xd3; 0x8d; 0x6f; 0x31;
   0xb2; 0xec; 0x0e; 0x50; 0xaf; 0xf1; 0x13; 0x4d; 0xce; 0x90; 0x72; 0x2c;
   0x6d; 0x33; 0xd1; 0x8f; 0x0c; 0x52; 0xb0; 0xee; 0x32; 0x6c; 0x8e; 0xd0;
   0x53; 0x0d; 0xef; 0xb1; 0xf0; 0xae; 0x4c; 0x12; 0x91; 0xcf; 0x2d; 0x73;
   0xca; 0x94; 0x76; 0x28; 0xab; 0xf5; 0x17; 0x49; 0x08; 0x56; 0xb4; 0xea;
   0x69; 0x37; 0xd5; 0x8b; 0x57; 0x09; 0xeb; 0xb5; 0x36; 0x68; 0x8a; 0xd4;
   0x95; 0xcb; 0x29; 0x77; 0xf4; 0xaa; 0x48; 0x16; 0xe9; 0xb7; 0x55; 0x0b;
   0x88; 0xd6; 0x34; 0x6a; 0x2b; 0x75; 0x97; 0xc9; 0x4a; 0x14; 0xf6; 0xa8;
   0x74; 0x2a; 0xc8; 0x96; 0x15; 0x4b; 0xa9; 0xf7; 0xb6; 0xe8; 0x0a; 0x54;
   0xd7; 0x89; 0x6b; 0x35 ].


(** [crc16_le]: [for (i = 0; i < len; i++)] over the table. *)
Definition crc16_le (crc : Z) (buf : list Z) (len : Z) : option Z :=
  crc ← for_up 0 (Z.to_nat len) (λ i crc,
          b ← rd buf i;
          t ← rd crc16_le_table (Z.land (Z.lxor crc b) 0xff);
          Some (u16 (Z.lxor t (Z.shiftr crc 8)))) (u16 (Z.lnot crc));
  Some (u16 (Z.lnot crc)).

(** [crc32_le]. *)
Definition crc32_le (crc : Z) (buf : list Z) (len : Z) : option Z :=
  crc ← for_up 0 (Z.to_nat len) (λ i crc,
          b ← rd buf i;
          t ← rd crc32_le_table (Z.land (Z.lxor crc b) 0xff);
          Some (u32 (Z.lxor t (Z.shiftr crc 8)))) (u32 (Z.lnot crc));
  Some (u32 (Z.lnot crc)).

(** [esp_crc8]: the index [crc ^ *p++] is not masked. *)
Definition esp_crc8 (p : list Z) (len : Z) : option Z :=
  for_up 0 (Z.to_nat len) (λ i crc,
    b ← rd p i;
    rd crc8_le_table (Z.lxor crc b)) 0x00.

(** ** The tables are those of the three polynomials *)

Definition table_of (poly : Z) : list Z :=
  (λ i : nat, Reflected.bits_step poly 8 (Z.of_nat i)) <$> seq 0 256.

Lemma crc32_table_ok : crc32_le_table = table_of 0xEDB88320.
Proof. vm_compute. reflexivity. Qed.
Lemma crc16_table_ok : crc16_le_table = table_of 0x8408.
Proof. vm_compute. reflexivity. Qed.
Lemma crc8_table_ok : crc8_le_table = table_of 0x8C.
Proof. vm_compute. reflexivity. Qed.

Lemma rd_table_of poly i :
  in_u8 i → rd (table_of poly) i = Some (Reflected.bits_step poly 8 i).
Proof.
  intros [H0 H1]. change (2 ^ 8) with 256 in H1. unfold rd, table_of.
  destruct (Z.ltb_spec i 0); [lia|].
  rewrite list_lookup_fmap, lookup_seq_lt by lia. cbn [fmap option_fmap option_map]. by rewrite Nat.add_0_l, Z2Nat.id by lia.
Qed.

(** One table step of width [w], as the three routines perform it. *)
Lemma table_step w poly r b :
  8 <= w → 0 <= poly < 2 ^ w → 0 <= r < 2 ^ w → in_u8 b →
  (t ← rd (table_of poly) (Z.land (Z.lxor r b) 255); Some (Z.lxor t (Z.shiftr r 8) mod 2 ^ w))
  = Some (Reflected.byte_step poly r b).
Proof.
  intros Hw Hp Hr Hb. rewrite land_255_u8, rd_table_of by apply u8_range. simpl.
  rewrite Reflected.byte_step_table, Z.shiftr_lxor.
  assert (Z.shiftr b 8 = 0) as ->.
  { rewrite Z.shiftr_div_pow2 by lia. apply Z.div_small. exact Hb. }
  rewrite Z.lxor_0_r, Z.mod_small; [done|].
  assert (H8 : 0 <= u8 (Z.lxor r b) < 2 ^ w).
  { pose proof (u8_range (Z.lxor r b)) as [? ?].
    pose proof (Z.pow_le_mono_r 2 8 w ltac:(lia) Hw). lia. }
  pose proof (shiftr_range w 8 r ltac:(lia) Hr).
  pose proof (Z.pow_le_mono_r 2 (w - 8) w ltac:(lia) ltac:(lia)).
  apply lxor_range; [lia|by apply Reflected.bits_step_range|lia].
Qed.

Definition crc_spec (w poly crc : Z) (msg : list Z) : Z :=
  Z.lxor (Z.ones w) (Reflected.run poly (Z.lxor (Z.ones w) crc) msg).

Lemma ones_range w : 0 <= w → 0 <= Z.ones w < 2 ^ w.
Proof. intros. rewrite Z.ones_equiv. pose proof (Z.pow_pos_nonneg 2 w). lia. Qed.

Lemma crc_spec_range w poly crc msg :
  8 <= w → 0 <= poly < 2 ^ w → 0 <= crc < 2 ^ w → Forall in_u8 msg →
  0 <= crc_spec w poly crc msg < 2 ^ w.
Proof.
  intros Hw Hp Hc Hm. pose proof (ones_range w ltac:(lia)).
  apply lxor_range; [lia..|]. apply Reflected.run_range; [done..| |done].
  by apply lxor_range; lia.
Qed.

(** The loop shared by the 16- and the 32-bit routine. *)
Lemma crc_loop w poly crc buf len :
  8 <= w → 0 <= poly < 2 ^ w → 0 <= crc < 2 ^ w → Forall in_u8 buf →
  0 <= len <= Z.of_nat (length buf) →
  (r ← for_up 0 (Z.to_nat len) (λ i r, b ← rd buf i;
         t ← rd (table_of poly) (Z.land (Z.lxor r b) 255);
         Some (Z.lxor t (Z.shiftr r 8) mod 2 ^ w)) (Z.lnot crc mod 2 ^ w);
   Some (Z.lnot r mod 2 ^ w))
  = Some (crc_spec w poly crc (take (Z.to_nat len) buf)).
Proof.
  intros Hw Hp Hc Hb Hlen. rewrite u_lnot by lia.
  assert (Hi : 0 <= Z.lxor (Z.ones w) crc < 2 ^ w).
  { apply lxor_range; [lia|apply ones_range; lia|lia]. }
  change 0 with (Z.of_nat 0) at 1.
  rewrite (for_up_fold (λ r, 0 <= r < 2 ^ w) in_u8
             (λ r b, t ← rd (table_of poly) (Z.land (Z.lxor r b) 255);
                     Some (Z.lxor t (Z.shiftr r 8) mod 2 ^ w)) (Reflected.byte_step poly)); simpl.
  - rewrite drop_0, u_lnot; [done|lia|].
    apply (Reflected.run_range w); [done..|]. by apply Forall_take.
  - intros s b Hs Hb'. rewrite (table_step w) by done.
    split; [done|]. by apply (Reflected.byte_step_range w).
  - done.
  - lia.
  - done.
Qed.

Lemma crc16_le_eq crc buf len :
  in_u16 crc → Forall in_u8 buf → 0 <= len <= Z.of_nat (length buf) →
  crc16_le crc buf len = Some (crc_spec 16 0x8408 crc (take (Z.to_nat len) buf)).
Proof.
  intros. unfold crc16_le. rewrite crc16_table_ok. by apply crc_loop.
Qed.

Lemma crc32_le_eq crc buf len :
  in_u32 crc → Forall in_u8 buf → 0 <= len <= Z.of_nat (length buf) →
  crc32_le crc buf len = Some (crc_spec 32 0xEDB88320 crc (take (Z.to_nat len) buf)).
Proof.
  intros. unfold crc32_le. rewrite crc32_table_ok. by apply crc_loop.
Qed.

Lemma crc_spec_app w poly crc m1 m2 :
  crc_spec w poly (crc_spec w poly crc m1) m2 = crc_spec w poly crc (m1 ++ m2).
Proof.
  unfold crc_spec. rewrite Reflected.run_app. do 2 f_equal.
  by rewrite <- Z.lxor_assoc, Z.lxor_nilpotent, Z.lxor_0_l.
Qed.

Lemma crc_spec_detects w poly crc pre post b b' :
  8 <= w → 0 <= poly < 2 ^ w → Z.testbit poly (w - 1) = true → 0 <= crc < 2 ^ w →
  Forall in_u8 pre → Forall in_u8 post → in_u8 b → in_u8 b' → b ≠ b' →
  crc_spec w poly crc (pre ++ b :: post) ≠ crc_spec w poly crc (pre ++ b' :: post).
Proof.
  intros Hw Hp Ht Hc Hpre Hpost Hb Hb' Hne Heq. unfold crc_spec in Heq.
  apply (f_equal (Z.lxor (Z.ones w))) in Heq.
  rewrite <- !Z.lxor_assoc, Z.lxor_nilpotent, !Z.lxor_0_l in Heq. revert Heq.
  apply (Reflected.run_detects_byte w); try done.
  pose proof (ones_range w ltac:(lia)). apply lxor_range; lia.
Qed.
Lemma esp_crc8_eq buf len :
  Forall in_u8 buf → 0 <= len <= Z.of_nat (length buf) →
  esp_crc8 buf len = Some (Reflected.run 0x8C 0 (take (Z.to_nat len) buf)).
Proof.
  intros Hb Hlen. unfold esp_crc8. rewrite crc8_table_ok. change 0 with (Z.of_nat 0) at 1.
  rewrite (for_up_fold in_u8 in_u8 (λ r b, rd (table_of 0x8C) (Z.lxor r b)) (Reflected.byte_step 0x8C)).
  - by rewrite drop_0.
  - intros r b Hr Hb'. assert (Hx : in_u8 (Z.lxor r b)) by (by apply lxor_range).
    rewrite rd_table_of by done. split; [done|].
    by apply (Reflected.byte_step_range 8).
  - done.
  - lia.
  - done.
Qed.

(** ** Properties *)

(** C37: the three table-driven checksums of [util] compute, over the first [len]
    bytes, the bit-by-bit reflected CRCs of polynomials 0x8408, 0xEDB88320 and
    0x8C (the first two with the register complemented before and after), for
    every initial value, buffer and length. *)
Theorem crc_routines_correct (crc : Z) (buf : list Z) (len : Z) :
  Forall in_u8 buf → 0 <= len <= Z.of_nat (length buf) →
  let msg := take (Z.to_nat len) buf in
  (in_u16 crc → crc16_le crc buf len
     = Some (Z.lxor 0xFFFF (Reflected.run 0x8408 (Z.lxor 0xFFFF crc) msg))) ∧
  (in_u32 crc → crc32_le crc buf len
     = Some (Z.lxor 0xFFFFFFFF (Reflected.run 0xEDB88320 (Z.lxor 0xFFFFFFFF crc) msg))) ∧
  esp_crc8 buf len = Some (Reflected.run 0x8C 0 msg).
Proof.
  intros Hb Hl msg. split; [|split].
  - intros Hc. by apply crc16_le_eq.
  - intros Hc. by apply crc32_le_eq.
  - by apply esp_crc8_eq.
Qed.

Lemma crc_routines_correct_witness :
  crc16_le 0 [0x31; 0x32] 2 = Some (Z.lxor 0xFFFF (Reflected.run 0x8408 0xFFFF [0x31; 0x32])) ∧
  esp_crc8 [0x31; 0x32] 2 = Some (Reflected.run 0x8C 0 [0x31; 0x32]).
Proof.
  destruct (crc_routines_correct 0 [0x31; 0x32] 2) as (H16 & _ & H8); [forall_u8|simpl; lia|].
  split; [apply H16; by vm_compute|exact H8].
Defined.

(** [crc32_le] can be fed in pieces - continuing from the checksum of a first
    buffer gives the checksum of the concatenation - and any change confined to
    one byte of a buffer changes its checksum. *)
Theorem crc32_incremental_detecting (crc : Z) (a b : list Z) (x x' : Z) :
  in_u32 crc → Forall in_u8 a → Forall in_u8 b →
  (c ← crc32_le crc a (Z.of_nat (length a)); crc32_le c b (Z.of_nat (length b)))
    = crc32_le crc (a ++ b) (Z.of_nat (length (a ++ b))) ∧
  (in_u8 x → in_u8 x' → x ≠ x' →
   crc32_le crc (a ++ x :: b) (Z.of_nat (length (a ++ x :: b)))
   ≠ crc32_le crc (a ++ x' :: b) (Z.of_nat (length (a ++ x' :: b)))).
Proof.
  intros Hc Ha Hb.
  assert (Heq : ∀ c l, in_u32 c → Forall in_u8 l →
    crc32_le c l (Z.of_nat (length l)) = Some (crc_spec 32 0xEDB88320 c l)).
  { intros c l Hc' Hl. rewrite crc32_le_eq by (done || lia). by rewrite Nat2Z.id, firstn_all. }
  split.
  - rewrite !Heq by (done || by apply Forall_app). cbn [mbind option_bind].
    rewrite Heq; [by rewrite crc_spec_app| |done].
    apply crc_spec_range; done || lia.
  - intros Hx Hx' Hne. rewrite !Heq by (done || (apply Forall_app; split; [done|by constructor])).
    intros [= He]. revert He. apply crc_spec_detects; done || lia.
Qed.

Lemma crc32_incremental_detecting_witness :
  (c ← crc32_le 0 [1; 2] 2; crc32_le c [3] 1) = crc32_le 0 [1; 2; 3] 3 ∧
  crc32_le 0 [1; 2; 7; 3] 4 ≠ crc32_le 0 [1; 2; 8; 3] 4.
Proof.
  destruct (crc32_incremental_detecting 0 [1; 2] [3] 7 8) as [Happ Hdet];
    [by vm_compute|forall_u8|forall_u8|].
  split; [exact Happ|apply Hdet; [by vm_compute|by vm_compute|lia]].
Defined.

End Util.
