(* ===== verification/Modbus.v ===== *)
(** The Modbus RTU master: [app/components/modbus].

    Module [Crc16] models [modbus.c] (the two byte tables and [modbus_crc16])
    and proves it to be the reflected CRC of polynomial 0xA001. Module [Master]
    models [modbus_master.c], [modbus_master_coils.c] and
    [modbus_master_holdings.c]: the global [Master], its transmit and receive
    buffers with their C bounds, and the six requests. *)
From S2P Require Import Prelude Crc.

(** * [modbus.c] *)
Module Crc16.

Definition CRCHi : list Z := [
   0x00; 0xc1; 0x81; 0x40; 0x01; 0xc0; 0x80; 0x41; 0x01; 0xc0; 0x80; 0x41;
   0x00; 0xc1; 0x81; 0x40; 0x01; 0xc0; 0x80; 0x41; 0x00; 0xc1; 0x81; 0x40;
   0x00; 0xc1; 0x81; 0x40; 0x01; 0xc0; 0x80; 0x41; 0x01; 0xc0; 0x80; 0x41;
   0x00; 0xc1; 0x81; 0x40; 0x00; 0xc1; 0x81; 0x40; 0x01; 0xc0; 0x80; 0x41;
   0x00; 0xc1; 0x81; 0x40; 0x01; 0xc0; 0x80; 0x41; 0x01; 0xc0; 0x80; 0x41;
   0x00; 0xc1; 0x81; 0x40; 0x01; 0xc0; 0x80; 0x41; 0x00; 0xc1; 0x81; 0x40;
   0x00; 0xc1; 0x81; 0x40; 0x01; 0xc0; 0x80; 0x41; 0x00; 0xc1; 0x81; 0x40;
   0x01; 0xc0; 0x80; 0x41; 0x01; 0xc0; 0x80; 0x41; 0x00; 0xc1; 0x81; 0x40;
   0x00; 0xc1; 0x81; 0x40; 0x01; 0xc0; 0x80; 0x41; 0x01; 0xc0; 0x80; 0x41;
   0x00; 0xc1; 0x81; 0x40; 0x01; 0xc0; 0x80; 0x41; 0x00; 0xc1; 0x81; 0x40;
   0x00; 0xc1; 0x81; 0x40; 0x01; 0xc0; 0x80; 0x41; 0x01; 0xc0; 0x80; 0x41;
   0x00; 0xc1; 0x81; 0x40; 0x00; 0xc1; 0x81; 0x40; 0x01; 0xc0; 0x80; 0x41;
   0x00; 0xc1; 0x81; 0x40; 0x01; 0xc0; 0x80; 0x41; 0x01; 0xc0; 0x80; 0x41;
   0x00; 0xc1; 0x81; 0x40; 0x00; 0xc1; 0x81; 0x40; 0x01; 0xc0; 0x80; 0x41;
   0x01; 0xc0; 0x80; 0x41; 0x00; 0xc1; 0x81; 0x40; 0x01; 0xc0; 0x80; 0x41;
   0x00; 0xc1; 0x81; 0x40; 0x00; 0xc1; 0x81; 0x40; 0x01; 0xc0; 0x80; 0x41;
   0x00; 0xc1; 0x81; 0x40; 0x01; 0xc0; 0x80; 0x41; 0x01; 0xc0; 0x80; 0x41;
   0x00; 0xc1; 0x81; 0x40; 0x01; 0xc0; 0x80; 0x41; 0x00; 0xc1; 0x81; 0x40;
   0x00; 0xc1; 0x81; 0x40; 0x01; 0xc0; 0x80; 0x41; 0x01; 0xc0; 0x80; 0x41;
   0x00; 0xc1; 0x81; 0x40; 0x00; 0xc1; 0x81; 0x40; 0x01; 0xc0; 0x80; 0x41;
   0x00; 0xc1; 0x81; 0x40; 0x01; 0xc0; 0x80; 0x41; 0x01; 0xc0; 0x80; 0x41;
   0x00; 0xc1; 0x81; 0x40 ].

Definition CRCLo : list Z := [
   0x00; 0xc0; 0xc1; 0x01; 0xc3; 0x03; 0x02; 0xc2; 0xc6; 0x06; 0x07; 0xc7;
   0x05; 0xc5; 0xc4; 0x04; 0xcc; 0x0c; 0x0d; 0xcd; 0x0f; 0xcf; 0xce; 0x0e;
   0x0a; 0xca; 0xcb; 0x0b; 0xc9; 0x09; 0x08; 0xc8; 0xd8; 0x18; 0x19; 0xd9;
   0x1b; 0xdb; 0xda; 0x1a; 0x1e; 0xde; 0xdf; 0x1f; 0xdd; 0x1d; 0x1c; 0xdc;
   0x14; 0xd4; 0xd5; 0x15; 0xd7; 0x17; 0x16; 0xd6; 0xd2; 0x12; 0x13; 0xd3;
   0x11; 0xd1; 0xd0; 0x10; 0xf0; 0x30; 0x31; 0xf1; 0x33; 0xf3; 0xf2; 0x32;
   0x36; 0xf6; 0xf7; 0x37; 0xf5; 0x35; 0x34; 0xf4; 0x3c; 0xfc; 0xfd; 0x3d;
   0xff; 0x3f; 0x3e; 0xfe; 0xfa; 0x3a; 0x3b; 0xfb; 0x39; 0xf9; 0xf8; 0x38;
   0x28; 0xe8; 0xe9; 0x29; 0xeb; 0x2b; 0x2a; 0xea; 0xee; 0x2e; 0x2f; 0xef;
   0x2d; 0xed; 0xec; 0x2c; 0xe4; 0x24; 0x25; 0xe5; 0x27; 0xe7; 0xe6; 0x26;
   0x22; 0xe2; 0xe3; 0x23; 0xe1; 0x21; 0x20; 0xe0; 0xa0; 0x60; 0x61; 0xa1;
   0x63; 0xa3; 0xa2; 0x62; 0x66; 0xa6; 0xa7; 0x67; 0xa5; 0x65; 0x64; 0xa4;
   0x6c; 0xac; 0xad; 0x6d; 0xaf; 0x6f; 0x6e; 0xae; 0xaa; 0x6a; 0x6b; 0xab;
   0x69; 0xa9; 0xa8; 0x68; 0x78; 0xb8; 0xb9; 0x79; 0xbb; 0x7b; 0x7a; 0xba;
   0xbe; 0x7e; 0x7f; 0xbf; 0x7d; 0xbd; 0xbc; 0x7c; 0xb4; 0x74; 0x75; 0xb5;
   0x77; 0xb7; 0xb6; 0x76; 0x72; 0xb2; 0xb3; 0x73; 0xb1; 0x71; 0x70; 0xb0;
   0x50; 0x90; 0x91; 0x51; 0x93; 0x53; 0x52; 0x92; 0x96; 0x56; 0x57; 0x97;
   0x55; 0x95; 0x94; 0x54; 0x9c; 0x5c; 0x5d; 0x9d; 0x5f; 0x9f; 0x9e; 0x5e;
   0x5a; 0x9a; 0x9b; 0x5b; 0x99; 0x59; 0x58; 0x98; 0x88; 0x48; 0x49; 0x89;
   0x4b; 0x8b; 0x8a; 0x4a; 0x4e; 0x8e; 0x8f; 0x4f; 0x8d; 0x4d; 0x4c; 0x8c;
   0x44; 0x84; 0x85; 0x45; 0x87; 0x47; 0x46; 0x86; 0x82; 0x42; 0x43; 0x83;
   0x41; 0x81; 0x80; 0x40 ].

(** [modbus_crc16]: [length] is a [uint8_t], so the caller's value is
    truncated on entry. *)
Definition modbus_crc16 (frame : list Z) (length : Z) : option Z :=
  '(ucCRCHi, ucCRCLo) ← for_up 0 (Z.to_nat (u8 length)) (λ i '(ucCRCHi, ucCRCLo),
      b ← rd frame i;
      let index := Z.lxor ucCRCLo b in
      h ← rd CRCHi index;
      l ← rd CRCLo index;
      Some (l, u8 (Z.lxor ucCRCHi h))) (0xFF, 0xFF);
  Some (u16 (Z.lor (Z.shiftl ucCRCHi 8) ucCRCLo)).

(** ** The two byte tables are the halves of one CRC table *)

Definition crc (msg : list Z) : Z := Reflected.run 0xA001 0xFFFF msg.

Definition hi_half (z : Z) : Z := Z.shiftr z 8.
Definition lo_half (z : Z) : Z := u8 z.

Lemma tables_ok :
  CRCHi = lo_half <$> Util.table_of 0xA001 ∧ CRCLo = hi_half <$> Util.table_of 0xA001.
Proof. split; vm_compute; reflexivity. Qed.

Lemma rd_fmap {A B} (f : A → B) (l : list A) i : rd (f <$> l) i = f <$> rd l i.
Proof. unfold rd. destruct (i <? 0); [done|]. apply list_lookup_fmap. Qed.

Lemma rd_CRC i : in_u8 i →
  rd CRCHi i = Some (lo_half (Reflected.bits_step 0xA001 8 i)) ∧
  rd CRCLo i = Some (hi_half (Reflected.bits_step 0xA001 8 i)).
Proof.
  intros Hi. destruct tables_ok as [-> ->].
  by rewrite !rd_fmap, !Util.rd_table_of.
Qed.

Lemma u16_halves z : in_u16 z → Z.lor (Z.shiftl (hi_half z) 8) (lo_half z) = z.
Proof.
  intros Hz. unfold hi_half, lo_half. rewrite <- land_255_u8. change 255 with (Z.ones 8).
  bits. destruct (Z.ltb_spec i 8).
  - rewrite Z.ones_spec_low, (Z.testbit_neg_r _ (i - 8)) by lia. btauto.
  - rewrite Z.ones_spec_high, Z.shiftr_spec by lia. rewrite Z.sub_add. btauto.
Qed.

Lemma hi_half_range z : in_u16 z → in_u8 (hi_half z).
Proof. intros Hz. apply (shiftr_range 16 8); [lia|exact Hz]. Qed.

Lemma lo_half_range z : in_u8 (lo_half z).
Proof. apply u8_range. Qed.

Lemma u8_lxor a b : u8 (Z.lxor a b) = Z.lxor (u8 a) (u8 b).
Proof. rewrite <- !land_255_u8. bits_done. Qed.

(** One iteration on the pair of bytes is one byte step on the register. *)
Lemma pair_step r b : in_u16 r → in_u8 b →
  (h ← rd CRCHi (Z.lxor (lo_half r) b); l ← rd CRCLo (Z.lxor (lo_half r) b);
   Some (l, u8 (Z.lxor (hi_half r) h)))
  = Some (hi_half (Reflected.byte_step 0xA001 r b), lo_half (Reflected.byte_step 0xA001 r b)).
Proof.
  intros Hr Hb. assert (Hi : in_u8 (Z.lxor (lo_half r) b)).
  { apply lxor_range; [lia|apply lo_half_range|done]. }
  destruct (rd_CRC _ Hi) as [-> ->]. cbn [mbind option_bind].
  rewrite Reflected.byte_step_table. unfold lo_half in *.
  rewrite !u8_lxor, (u8_id b), Z.shiftr_lxor by done.
  assert (Z.shiftr b 8 = 0) as ->.
  { rewrite Z.shiftr_div_pow2 by lia. by apply Z.div_small. }
  rewrite Z.lxor_0_r. fold (hi_half r).
  set (t := Reflected.bits_step 40961 8 _).
  assert (Hh : hi_half (Z.lxor t (hi_half r)) = hi_half t).
  { unfold hi_half. rewrite Z.shiftr_lxor. fold (hi_half r).
    assert (Z.shiftr (hi_half r) 8 = 0) as ->; [|by rewrite Z.lxor_0_r].
    rewrite Z.shiftr_div_pow2 by lia. by apply Z.div_small, hi_half_range. }
  rewrite Hh. do 2 f_equal. rewrite Z.lxor_comm. f_equal. apply u8_id, u8_range.
Qed.

Lemma crc_range msg : Forall in_u8 msg → in_u16 (crc msg).
Proof. intros H. apply (Reflected.run_range 16); [lia..|done]. Qed.

Lemma crc16_fold (frame : list Z) (n : nat) (r : Z) :
  Forall in_u8 frame → (n <= length frame)%nat → in_u16 r →
  for_up 0 n (λ i '(hi, lo), b ← rd frame i;
      h ← rd CRCHi (Z.lxor lo b); l ← rd CRCLo (Z.lxor lo b); Some (l, u8 (Z.lxor hi h)))
    (hi_half r, lo_half r)
  = Some (hi_half (Reflected.run 0xA001 r (take n frame)),
          lo_half (Reflected.run 0xA001 r (take n frame))).
Proof.
  intros Hf Hn Hr.
  set (P := λ s : Z * Z, ∃ r, in_u16 r ∧ s = (hi_half r, lo_half r)).
  set (g := λ (s : Z * Z) (b : Z),
    let r := Reflected.byte_step 0xA001 (Z.lor (Z.shiftl s.1 8) s.2) b in (hi_half r, lo_half r)).
  assert (Hg : ∀ l r, in_u16 r → Forall in_u8 l →
    foldl g (hi_half r, lo_half r) l
    = (hi_half (Reflected.run 0xA001 r l), lo_half (Reflected.run 0xA001 r l))).
  { intros l. induction l as [|b l IH]; intros r' Hr' Hl; [done|]. inversion_clear Hl.
    simpl. unfold g at 2. cbn [fst snd]. rewrite u16_halves by done. apply IH; [|done].
    apply (Reflected.byte_step_range 16); [lia..|done|done]. }
  pose proof (for_up_fold P in_u8
    (λ '(hi, lo) b, h ← rd CRCHi (Z.lxor lo b); l ← rd CRCLo (Z.lxor lo b);
       Some (l, u8 (Z.lxor hi h))) g frame 0 n (hi_half r, lo_half r)) as HF.
  rewrite drop_0, Hg in HF; [|done|by apply Forall_take].
  rewrite <- HF; [..|done|lia|by exists r].
  - apply for_up_ext. intros j [hi lo] _. done.
  - intros s b (r' & Hr' & ->) Hb. rewrite pair_step by done.
    unfold g. cbn [fst snd]. rewrite u16_halves by done. split; [done|].
    eexists. split; [|done]. apply (Reflected.byte_step_range 16); [lia..|done|done].
Qed.

Lemma modbus_crc16_eq frame n :
  Forall in_u8 frame → u8 n <= Z.of_nat (length frame) →
  modbus_crc16 frame n = Some (crc (take (Z.to_nat (u8 n)) frame)).
Proof.
  intros Hf Hn. pose proof (u8_range n) as [??]. unfold modbus_crc16.
  pose proof (crc16_fold frame (Z.to_nat (u8 n)) 0xFFFF Hf ltac:(lia) ltac:(split; lia)) as HF.
  change (hi_half 0xFFFF, lo_half 0xFFFF) with (0xFF, 0xFF) in HF.
  rewrite HF. cbn [mbind option_bind].
  assert (Hc : in_u16 (crc (take (Z.to_nat (u8 n)) frame))) by (apply crc_range; by apply Forall_take).
  fold (crc (take (Z.to_nat (u8 n)) frame)). by rewrite u16_halves, u16_id.
Qed.

(** A message followed by its own checksum, low byte first, leaves zero. *)
Lemma crc_residue msg :
  Forall in_u8 msg → crc (msg ++ [lo_half (crc msg); hi_half (crc msg)]) = 0.
Proof.
  intros Hm. unfold crc at 1. rewrite Reflected.run_app. fold (crc msg).
  pose proof (crc_range msg Hm) as Hc. simpl.
  assert (Hz : ∀ r, in_u16 r → Reflected.byte_step 0xA001 r (lo_half r) = hi_half r).
  { intros r Hr. rewrite Reflected.byte_step_table, u8_lxor. unfold lo_half.
    rewrite (u8_id (u8 r)), Z.lxor_nilpotent by apply u8_range.
    change (Reflected.bits_step 40961 8 0) with 0. rewrite Z.lxor_0_l, Z.shiftr_lxor.
    assert (Z.shiftr (u8 r) 8 = 0) as ->; [|by rewrite Z.lxor_0_r].
    rewrite Z.shiftr_div_pow2 by lia. apply Z.div_small, u8_range. }
  rewrite Hz by done. pose proof (hi_half_range _ Hc) as Hh.
  rewrite <- (u8_id (hi_half (crc msg))) at 2 by done. fold (lo_half (hi_half (crc msg))).
  rewrite Hz; [|unfold in_u8, in_u16 in *; lia].
  unfold hi_half at 1. rewrite Z.shiftr_div_pow2 by lia. by apply Z.div_small.
Qed.

End Crc16.

(** * [modbus_master.c], [modbus_master_coils.c], [modbus_master_holdings.c] *)
Module Master.
Import Crc16.

Definition FUNC_READ_COILS : Z := 1.
Definition FUNC_READ_HOLDING_REGISTER : Z := 3.
Definition FUNC_WRITE_SINGLE_COIL : Z := 5.
Definition FUNC_WRITE_REGISTER : Z := 6.
Definition FUNC_WRITE_MULTIPLE_COILS : Z := 15.
Definition FUNC_WRITE_MULTIPLE_REGISTERS : Z := 16.

(** [Modbus_Master]; [master_command] is the function pointer, [false] while it
    is still null. *)
Record Modbus_Master := mkMaster {
  slave_id : Z; func_code : Z;
  read_addr : Z; read_qty : Z; write_addr : Z; write_qty : Z;
  rx_enable : bool; rx_buf : list Z; rx_len : Z;
  tx_buf : list Z; tx_len : Z;
  master_command : bool }.

(** What the module shares with its surroundings: the global [Master], the
    binary semaphore, the frames handed to [uart_write_bytes] and the script of
    what the line does during the next waits. *)
Inductive uart_event := RxByte (data : Z) | RxComplete.

Record line := mkLine {
  M_ : Modbus_Master;
  uart0_receive_semaphore : bool;
  uart1_sent : list (list Z);
  during_wait : list (list uart_event) }.

Definition upd (f : Modbus_Master → Modbus_Master) (w : line) : line :=
  mkLine (f (M_ w)) (uart0_receive_semaphore w) (uart1_sent w) (during_wait w).

Definition set_request (id func : Z) (m : Modbus_Master) : Modbus_Master :=
  mkMaster (u8 id) (u8 func) (read_addr m) (read_qty m) (write_addr m) (write_qty m)
    (rx_enable m) (rx_buf m) (rx_len m) (tx_buf m) (tx_len m) (master_command m).
Definition set_read (addr qty : Z) (m : Modbus_Master) : Modbus_Master :=
  mkMaster (slave_id m) (func_code m) (u16 addr) (u16 qty) (write_addr m) (write_qty m)
    (rx_enable m) (rx_buf m) (rx_len m) (tx_buf m) (tx_len m) (master_command m).
Definition set_write_addr (addr : Z) (m : Modbus_Master) : Modbus_Master :=
  mkMaster (slave_id m) (func_code m) (read_addr m) (read_qty m) (u16 addr) (write_qty m)
    (rx_enable m) (rx_buf m) (rx_len m) (tx_buf m) (tx_len m) (master_command m).
Definition set_write_qty (qty : Z) (m : Modbus_Master) : Modbus_Master :=
  mkMaster (slave_id m) (func_code m) (read_addr m) (read_qty m) (write_addr m) (u16 qty)
    (rx_enable m) (rx_buf m) (rx_len m) (tx_buf m) (tx_len m) (master_command m).
Definition set_tx (buf : list Z) (len : Z) (m : Modbus_Master) : Modbus_Master :=
  mkMaster (slave_id m) (func_code m) (read_addr m) (read_qty m) (write_addr m) (write_qty m)
    (rx_enable m) (rx_buf m) (rx_len m) buf len (master_command m).
Definition set_rx (en : bool) (buf : list Z) (len : Z) (m : Modbus_Master) : Modbus_Master :=
  mkMaster (slave_id m) (func_code m) (read_addr m) (read_qty m) (write_addr m) (write_qty m)
    en buf len (tx_buf m) (tx_len m) (master_command m).
Definition set_command (c : bool) (m : Modbus_Master) : Modbus_Master :=
  mkMaster (slave_id m) (func_code m) (read_addr m) (read_qty m) (write_addr m) (write_qty m)
    (rx_enable m) (rx_buf m) (rx_len m) (tx_buf m) (tx_len m) c.

(** [master->tx_buf[master->tx_len++] = v]. *)
Definition tx_push (v : Z) : M line unit :=
  let! m := get M_ in
  let! buf := lift (wr (tx_buf m) (tx_len m) (u8 v)) in
  modify (upd (set_tx buf (u16 (tx_len m + 1)))).

(** [modbus_master_validate_rx]. *)
Definition modbus_master_validate_rx (m : Modbus_Master) : option bool :=
  if rx_len m <? 5 then Some false else
  crc ← modbus_crc16 (rx_buf m) (rx_len m - 2);
  lo ← rd (rx_buf m) (rx_len m - 2);
  if negb (Z.land crc 0xFF =? lo) then Some false else
  hi ← rd (rx_buf m) (rx_len m - 1);
  if negb (Z.shiftr crc 8 =? hi) then Some false else
  b0 ← rd (rx_buf m) 0;
  if negb (b0 =? slave_id m) then Some false else
  b1 ← rd (rx_buf m) 1;
  if negb (b1 =? func_code m) then Some false else
  Some true.

(** [uart0_receive_one_byte]. *)
Definition uart0_receive_one_byte (data : Z) : M line unit :=
  let! m := get M_ in
  if rx_enable m then
    let! buf := lift (wr (rx_buf m) (rx_len m) (u8 data)) in
    modify (upd (set_rx true buf ((rx_len m + 1) mod 512)))
  else ret tt.

(** [uart0_receive_complete]: gives the binary semaphore. *)
Definition uart0_receive_complete : M line unit :=
  modify (λ w, mkLine (M_ w) true (uart1_sent w) (during_wait w)).

Definition line_event (e : uart_event) : M line unit :=
  match e with
  | RxByte data => uart0_receive_one_byte data
  | RxComplete => uart0_receive_complete
  end.

Fixpoint line_events (es : list uart_event) : M line unit :=
  match es with [] => ret tt | e :: es => line_event e ;;; line_events es end.

(** [xSemaphoreTake]: takes a given semaphore; the events of a blocking wait
    have been played before. *)
Definition semaphore_take : M line bool :=
  let! given := get uart0_receive_semaphore in
  modify (λ w, mkLine (M_ w) false (uart1_sent w) (during_wait w)) ;;;
  ret given.

(** The line plays the script of this wait. *)
Definition next_wait : M line (list uart_event) :=
  let! s := get during_wait in
  match s with
  | [] => ret []
  | es :: rest =>
      modify (λ w, mkLine (M_ w) (uart0_receive_semaphore w) (uart1_sent w) rest) ;;; ret es
  end.

(** [uart_write_bytes(UART_NUM_1, Master.tx_buf, Master.tx_len)]. *)
Definition uart_write_bytes : M line unit :=
  modify (λ w, mkLine (M_ w) (uart0_receive_semaphore w)
                 (uart1_sent w ++ [take (Z.to_nat (tx_len (M_ w))) (tx_buf (M_ w))]) (during_wait w)).

(** [master_send_receive]. *)
Definition master_send_receive : M line bool :=
  let! m := get M_ in
  let! crc := lift (modbus_crc16 (tx_buf m) (tx_len m)) in
  tx_push (Z.land crc 0xFF) ;;;
  tx_push (Z.shiftr crc 8) ;;;
  let! _ := semaphore_take in
  modify (upd (λ m, set_rx true (rx_buf m) (rx_len m) m)) ;;;
  modify (upd (λ m, set_rx (rx_enable m) (rx_buf m) 0 m)) ;;;
  uart_write_bytes ;;;
  let! es := next_wait in
  line_events es ;;;
  let! result := semaphore_take in
  modify (upd (λ m, set_rx false (rx_buf m) (rx_len m) m)) ;;;
  ret result.

(** [master->master_command(MODBUS_TIMEOUT)]; a null pointer faults. *)
Definition call_master_command : M line bool :=
  let! m := get M_ in
  if master_command m then master_send_receive else fault.

(** [modbus_master_init]: the UART and task set-up has no state of this module;
    a new binary semaphore is not given. *)
Definition modbus_master_init : M line unit :=
  modify (λ w, mkLine (M_ w) false (uart1_sent w) (during_wait w)) ;;;
  modify (upd (set_command true)).

(** The exchange every request ends with: send, wait, validate. *)
Definition exchange (ok : Modbus_Master → M line bool) : M line bool :=
  let! done := call_master_command in
  if done then
    let! m := get M_ in
    let! valid := lift (modbus_master_validate_rx m) in
    if valid then ok m else ret false
  else ret false.

(** The reply to a write must repeat the four bytes after the function code. *)
Definition echo (m : Modbus_Master) (b2 b3 b4 b5 : Z) : option bool :=
  r2 ← rd (rx_buf m) 2;
  if negb (r2 =? b2) then Some false else
  r3 ← rd (rx_buf m) 3;
  if negb (r3 =? b3) then Some false else
  r4 ← rd (rx_buf m) 4;
  if negb (r4 =? b4) then Some false else
  r5 ← rd (rx_buf m) 5;
  if negb (r5 =? b5) then Some false else
  Some true.

(** The four bytes every request frame starts with. *)
Definition push_header (addr : Modbus_Master → Z) : M line unit :=
  modify (upd (λ m, set_tx (tx_buf m) 0 m)) ;;;
  let! m := get M_ in
  tx_push (slave_id m) ;;;
  tx_push (func_code m) ;;;
  tx_push (Z.shiftr (addr m) 8) ;;;
  tx_push (Z.land (addr m) 0xFF).

Definition coil_bytes (qty : Z) : Z :=
  if qty mod 8 =? 0 then qty / 8 else qty / 8 + 1.

(** [modbus_master_read_coils]: returns the answer and the caller's array. *)
Definition modbus_master_read_coils (id start qty : Z) (result : list Z)
  : M line (bool * list Z) :=
  let qty := u8 qty in
  modify (upd (set_request id FUNC_READ_COILS)) ;;;
  modify (upd (set_read (u8 start) qty)) ;;;
  push_header read_addr ;;;
  let! m := get M_ in
  tx_push (Z.shiftr (read_qty m) 8) ;;;
  tx_push (Z.land (read_qty m) 0xFF) ;;;
  let! done := call_master_command in
  if done then
    let! m := get M_ in
    let! valid := lift (modbus_master_validate_rx m) in
    if valid then
      let! b2 := lift (rd (rx_buf m) 2) in
      if negb (b2 =? coil_bytes (read_qty m)) then ret (false, result) else
      let! result := lift (for_up 0 (Z.to_nat qty) (λ i result,
        value ← rd (rx_buf m) (3 + i / 8);
        wr result i (Z.land 0x01 (Z.shiftr value (i mod 8)))) result) in
      ret (true, result)
    else ret (false, result)
  else ret (false, result).

(** [modbus_master_write_single_coil]. *)
Definition modbus_master_write_single_coil (id address value : Z) : M line bool :=
  let value := u8 value in
  modify (upd (set_request id FUNC_WRITE_SINGLE_COIL)) ;;;
  modify (upd (set_write_addr (u8 address))) ;;;
  push_header write_addr ;;;
  tx_push (if value =? 1 then 0xFF else 0x00) ;;;
  tx_push 0x00 ;;;
  exchange (λ m, lift (echo m (Z.shiftr (write_addr m) 8) (Z.land (write_addr m) 0xFF)
                         (if value =? 1 then 0xFF else 0x00) 0x00)).

(** One iteration of the packing loop of [modbus_master_write_multiple_coils];
    [data] is the uninitialised local array of 32 bytes. *)
Definition pack_coil (qty : Z) (values : list Z) (i : Z) (data : list Z) : option (list Z) :=
  d ← rd data (i / 8);
  if i <? qty then
    v ← rd values i;
    if v =? 1 then wr data (i / 8) (u8 (Z.lor (Z.shiftr d 1) 0x80))
    else wr data (i / 8) (Z.land (Z.shiftr d 1) 0x7F)
  else wr data (i / 8) (Z.shiftr d 1).

Definition pack_coils (qty : Z) (values data : list Z) : option (list Z) :=
  for_up 0 (Z.to_nat (coil_bytes qty * 8)) (pack_coil qty values) data.

(** [modbus_master_write_multiple_coils]; [stack] is what the 32 bytes of
    [data] hold on entry. The packed bytes are not appended to the frame. *)
Definition modbus_master_write_multiple_coils (stack : list Z) (id start qty : Z) (values : list Z)
  : M line bool :=
  let qty := u8 qty in
  let byte_count := u8 (coil_bytes qty) in
  let! _ := lift (pack_coils qty values stack) in
  modify (upd (set_request id FUNC_WRITE_MULTIPLE_COILS)) ;;;
  modify (upd (set_write_addr (u8 start))) ;;;
  modify (upd (set_write_qty qty)) ;;;
  push_header write_addr ;;;
  let! m := get M_ in
  tx_push (Z.shiftr (write_qty m) 8) ;;;
  tx_push (Z.land (write_qty m) 0xFF) ;;;
  tx_push byte_count ;;;
  exchange (λ m, lift (echo m (Z.shiftr (write_addr m) 8) (Z.land (write_addr m) 0xFF)
                         (Z.shiftr (write_qty m) 8) (Z.land (write_qty m) 0xFF))).

(** [modbus_master_read_holding_regs]. *)
Definition modbus_master_read_holding_regs (id start qty : Z) (holdingregs : list Z)
  : M line (bool * list Z) :=
  modify (upd (set_request id FUNC_READ_HOLDING_REGISTER)) ;;;
  modify (upd (set_read (u8 start) (u8 qty))) ;;;
  push_header read_addr ;;;
  let! m := get M_ in
  tx_push (Z.shiftr (read_qty m) 8) ;;;
  tx_push (Z.land (read_qty m) 0xFF) ;;;
  let! done := call_master_command in
  if done then
    let! m := get M_ in
    let! valid := lift (modbus_master_validate_rx m) in
    if valid then
      let! b2 := lift (rd (rx_buf m) 2) in
      if negb (b2 =? read_qty m * 2) then ret (false, holdingregs) else
      let! regs := lift (for_up 0 (Z.to_nat (read_qty m)) (λ i regs,
        h ← rd (rx_buf m) (3 + i * 2);
        l ← rd (rx_buf m) (4 + i * 2);
        wr regs i (u16 (h * 256 + l))) holdingregs) in
      ret (true, regs)
    else ret (false, holdingregs)
  else ret (false, holdingregs).

(** [modbus_master_Write_single_holding_reg]. *)
Definition modbus_master_Write_single_holding_reg (id address value : Z) : M line bool :=
  let value := u16 value in
  modify (upd (set_request id FUNC_WRITE_REGISTER)) ;;;
  modify (upd (set_write_addr (u8 address))) ;;;
  push_header write_addr ;;;
  tx_push (Z.shiftr value 8) ;;;
  tx_push (Z.land value 0xFF) ;;;
  exchange (λ m, lift (echo m (Z.shiftr (write_addr m) 8) (Z.land (write_addr m) 0xFF)
                         (Z.shiftr value 8) (Z.land value 0xFF))).

(** The loop that appends the register values. *)
Definition push_values (qty : Z) (values : list Z) : M line unit :=
  for_proc 0 (Z.to_nat qty) (λ i,
    let! v := lift (rd values i) in
    tx_push (Z.shiftr v 8) ;;;
    tx_push (Z.land v 0xFF)).

(** [modbus_master_Write_multiple_holding_regs]. *)
Definition modbus_master_Write_multiple_holding_regs (id start qty : Z) (values : list Z)
  : M line bool :=
  modify (upd (set_request id FUNC_WRITE_MULTIPLE_REGISTERS)) ;;;
  modify (upd (set_write_addr (u8 start))) ;;;
  modify (upd (set_write_qty (u8 qty))) ;;;
  push_header write_addr ;;;
  let! m := get M_ in
  tx_push (Z.shiftr (write_qty m) 8) ;;;
  tx_push (Z.land (write_qty m) 0xFF) ;;;
  tx_push (2 * write_qty m) ;;;
  push_values (write_qty m) values ;;;
  exchange (λ m, lift (echo m (Z.shiftr (write_addr m) 8) (Z.land (write_addr m) 0xFF)
                         (Z.shiftr (write_qty m) 8) (Z.land (write_qty m) 0xFF))).

(** ** Running the request builders *)

(** [w] after [sent] has been written at the start of the transmit buffer. *)
Definition with_tx (sent : list Z) (w : line) : line :=
  upd (λ m, set_tx (sent ++ drop (length sent) (tx_buf m)) (Z.of_nat (length sent)) m) w.

(** [w] after [got] has been received. *)
Definition with_rx (got : list Z) (w : line) : line :=
  upd (λ m, set_rx true (got ++ drop (length got) (rx_buf m)) (Z.of_nat (length got)) m) w.

Lemma wr_app_drop (pre buf : list Z) v :
  (length pre < length buf)%nat →
  wr (pre ++ drop (length pre) buf) (Z.of_nat (length pre)) v
  = Some ((pre ++ [v]) ++ drop (length (pre ++ [v])) buf).
Proof.
  intros H. rewrite wr_Some; [|rewrite length_app, length_drop; lia].
  rewrite Nat2Z.id. rewrite insert_app_r_alt, Nat.sub_diag by lia.
  destruct (lookup_lt_is_Some_2 buf (length pre) H) as [x Hx].
  rewrite (drop_S _ _ _ Hx). simpl. rewrite length_app. simpl.
  by rewrite Nat.add_1_r, <- app_assoc.
Qed.

Lemma tx_push_run sent v w :
  length (tx_buf (M_ w)) = 512%nat → (length sent < 512)%nat →
  tx_push v (with_tx sent w) = Some (tt, with_tx (sent ++ [u8 v]) w).
Proof.
  intros Hl Hs. unfold tx_push, bind, get, lift. cbn [with_tx upd M_ set_tx tx_buf tx_len].
  rewrite wr_app_drop by lia. cbn [mbind option_bind].
  rewrite u16_id by (unfold in_u16; lia).
  replace (Z.of_nat (length sent) + 1) with (Z.of_nat (length (sent ++ [u8 v])));
    [done|rewrite length_app; simpl; lia].
Qed.

Lemma tx_push_full sent v w :
  length (tx_buf (M_ w)) = 512%nat → length sent = 512%nat → tx_push v (with_tx sent w) = None.
Proof.
  intros Hl Hs. unfold tx_push, bind, get, lift. cbn [with_tx upd M_ set_tx tx_buf tx_len].
  rewrite wr_None; [done|]. rewrite length_app, length_drop. lia.
Qed.

Definition be16 (v : Z) : list Z := [u8 (Z.shiftr v 8); u8 (Z.land v 0xFF)].

Lemma push_header_run addr w :
  (∀ m b l, addr (set_tx b l m) = addr m) →
  length (tx_buf (M_ w)) = 512%nat →
  push_header addr w
  = Some (tt, with_tx ([u8 (slave_id (M_ w)); u8 (func_code (M_ w))] ++ be16 (addr (M_ w))) w).
Proof.
  intros Ha Hl. unfold push_header. erewrite bind_run by reflexivity.
  change (upd _ w) with (with_tx [] w). unfold bind at 1, get.
  cbn [with_tx upd M_]. rewrite !Ha. cbn [slave_id func_code set_tx]. fold (with_tx [] w).
  do 3 (erewrite bind_run by (apply tx_push_run; [done|simpl; lia])).
  by rewrite tx_push_run by (done || (simpl; lia)).
Qed.

Lemma for_proc_app {S} (i : Z) (n m : nat) (body : Z → M S unit) s :
  for_proc i (n + m) body s = bind (for_proc i n body) (λ _, for_proc (i + Z.of_nat n) m body) s.
Proof.
  revert i s. induction n as [|n IH]; intros i s; simpl.
  - unfold bind, ret. by rewrite Z.add_0_r.
  - unfold bind in *. destruct (body i s) as [[[] s']|]; [|done]. rewrite IH.
    destruct (for_proc (i + 1) n body s') as [[[] s'']|]; [|done].
    by replace (i + 1 + Z.of_nat n) with (i + Z.of_nat (Datatypes.S n)) by lia.
Qed.

Lemma push_values_run (n : nat) values sent w :
  length (tx_buf (M_ w)) = 512%nat → (n <= length values)%nat →
  (length sent + 2 * n <= 512)%nat →
  push_values (Z.of_nat n) values (with_tx sent w)
  = Some (tt, with_tx (sent ++ concat (be16 <$> take n values)) w).
Proof.
  intros Hl Hv Hs. unfold push_values. rewrite Nat2Z.id. revert Hv Hs.
  induction n as [|n IH]; intros Hv Hs; [by rewrite app_nil_r|].
  replace (Datatypes.S n) with (n + 1)%nat by lia. rewrite for_proc_app.
  erewrite bind_run by (apply IH; lia).
  destruct (lookup_lt_is_Some_2 values n ltac:(lia)) as [v Hvn].
  cbn [for_proc]. rewrite Z.add_0_l.
  rewrite Nat.add_1_r, (take_S_r _ _ _ Hvn), fmap_app, concat_app. simpl.
  assert (Hc : length (concat (be16 <$> take n values)) = (2 * n)%nat).
  { clear -Hv. revert values Hv. induction n as [|n IH]; intros [|x l] Hv; simpl in *; try lia.
    rewrite IH by lia. lia. }
  unfold bind at 1. erewrite bind_run by (apply lift_run; rewrite rd_lookup; exact Hvn).
  erewrite bind_run by (apply tx_push_run; [done|rewrite length_app; lia]).
  rewrite tx_push_run by (done || (rewrite !length_app; simpl; lia)).
  rewrite <- !app_assoc. done.
Qed.

(** ** The exchange on the line *)

(** A frame: the message and its checksum, low byte first. *)
Definition adu (pdu : list Z) : list Z := pdu ++ [lo_half (crc pdu); hi_half (crc pdu)].

Lemma length_adu pdu : length (adu pdu) = (length pdu + 2)%nat.
Proof. unfold adu. rewrite length_app. done. Qed.

(** The line is idle and its buffers hold bytes. *)
Record wf (w : line) : Prop := {
  wf_tx : length (tx_buf (M_ w)) = 512%nat;
  wf_txb : Forall in_u8 (tx_buf (M_ w));
  wf_rx : length (rx_buf (M_ w)) = 512%nat;
  wf_rxb : Forall in_u8 (rx_buf (M_ w));
  wf_rxl : 0 <= rx_len (M_ w) < 512;
  wf_cmd : master_command (M_ w) = true }.

(** [w] once [sent] went out and [reply] came back. *)
Definition answered (sent reply : list Z) (rest : list (list uart_event)) (w : line) : line :=
  mkLine (set_rx false (reply ++ drop (length reply) (rx_buf (M_ w))) (Z.of_nat (length reply))
            (M_ (with_tx (adu sent) w)))
    false (uart1_sent w ++ [adu sent]) rest.

Lemma line_events_app es fs w :
  line_events (es ++ fs) w = bind (line_events es) (λ _, line_events fs) w.
Proof.
  revert w. induction es as [|e es IH]; intros w; [done|]. simpl. unfold bind in *.
  destruct (line_event e w) as [[[] w']|]; [apply IH|done].
Qed.

Lemma rx_bytes_run got bs w :
  length (rx_buf (M_ w)) = 512%nat → Forall in_u8 bs → (length got + length bs < 512)%nat →
  line_events (RxByte <$> bs) (with_rx got w) = Some (tt, with_rx (got ++ bs) w).
Proof.
  intros Hl. revert got. induction bs as [|b bs IH]; intros got Hb Hs; [by rewrite app_nil_r|].
  inversion_clear Hb. simpl in Hs. cbn [fmap list_fmap line_events].
  assert (Hrun : line_event (RxByte b) (with_rx got w) = Some (tt, with_rx (got ++ [b]) w)).
  { unfold line_event, uart0_receive_one_byte, bind, get, lift.
    cbn [with_rx upd M_ set_rx rx_enable rx_buf rx_len].
    rewrite wr_app_drop by lia. cbn [mbind option_bind].
    rewrite Z.mod_small, u8_id by (done || lia).
    replace (Z.of_nat (length got) + 1) with (Z.of_nat (length (got ++ [b])));
      [done|rewrite length_app; simpl; lia]. }
  erewrite bind_run by exact Hrun. rewrite IH by (done || (rewrite length_app; simpl; lia)).
  by rewrite <- app_assoc.
Qed.

Lemma take_adu_buffer (pdu buf : list Z) :
  take (Z.to_nat (Z.of_nat (length pdu))) (pdu ++ buf) = pdu.
Proof. rewrite Nat2Z.id. by rewrite take_app_length. Qed.

(** Sending [sent], up to 253 bytes of message, puts its frame on the line. *)
Lemma send_prefix_run sent w k :
  wf w → Forall in_u8 sent → (length sent <= 255)%nat →
  bind (get M_) (λ m, bind (lift (modbus_crc16 (tx_buf m) (tx_len m))) (λ c,
    tx_push (Z.land c 0xFF) ;;; tx_push (Z.shiftr c 8) ;;; k)) (with_tx sent w)
  = k (with_tx (adu sent) w) :> option (bool * line).
Proof.
  intros Hw Hs Hlen. unfold bind at 1, get.
  assert (Hbytes : Forall in_u8 (sent ++ drop (length sent) (tx_buf (M_ w)))).
  { apply Forall_app. split; [done|]. apply Forall_drop, Hw. }
  assert (Hu : u8 (Z.of_nat (length sent)) = Z.of_nat (length sent)).
  { apply u8_id. unfold in_u8. lia. }
  erewrite bind_run.
  2:{ apply lift_run. apply modbus_crc16_eq; [done|].
      cbn. rewrite Hu, length_app, length_drop, (wf_tx _ Hw). lia. }
  cbn [with_tx upd M_ set_tx tx_len tx_buf]. rewrite Hu, Nat2Z.id, take_app_length.
  fold (with_tx sent w).
  erewrite bind_run by (apply tx_push_run; [apply Hw|lia]).
  erewrite bind_run by (apply tx_push_run; [apply Hw|rewrite length_app; simpl; lia]).
  rewrite land_255_u8. unfold adu, lo_half, hi_half.
  rewrite (u8_id (u8 _)) by apply u8_range.
  rewrite (u8_id (Z.shiftr _ _)) by (apply hi_half_range; by apply crc_range).
  by rewrite <- app_assoc.
Qed.

Lemma call_answered sent reply rest w :
  wf w → Forall in_u8 sent → (length sent <= 255)%nat →
  during_wait w = ((RxByte <$> reply) ++ [RxComplete]) :: rest →
  Forall in_u8 reply → (length reply < 512)%nat →
  call_master_command (with_tx sent w) = Some (true, answered sent reply rest w).
Proof.
  intros Hw Hs Hlen Hwait Hr Hrl. unfold call_master_command, bind at 1, get.
  cbn [with_tx upd M_ set_tx master_command]. rewrite (wf_cmd _ Hw). fold (with_tx sent w).
  unfold master_send_receive. rewrite send_prefix_run by done.
  do 4 (erewrite bind_run by reflexivity). cbv beta.
  erewrite bind_run by (unfold next_wait, bind, get; cbn; rewrite Hwait; reflexivity).
  set (w1 := mkLine _ _ _ _).
  assert (Hrun : line_events ((RxByte <$> reply) ++ [RxComplete]) w1
    = Some (tt, mkLine (M_ (with_rx reply w1)) true (uart1_sent w ++ [adu sent]) rest)).
  { rewrite line_events_app. change w1 with (with_rx [] w1).
    erewrite bind_run by (apply rx_bytes_run; [apply Hw|done|simpl; lia]).
    cbn. unfold with_tx, upd. cbn. rewrite take_adu_buffer. done. }
  erewrite bind_run by exact Hrun. reflexivity.
Qed.

(** ** Validation of a received frame *)

Lemma validate_eq m body lo hi junk b0 b1 tl :
  rx_buf m = body ++ lo :: hi :: junk → rx_len m = Z.of_nat (length body) + 2 →
  body = b0 :: b1 :: tl → (3 <= length body <= 255)%nat → Forall in_u8 (rx_buf m) →
  modbus_master_validate_rx m
  = Some ((lo_half (crc body) =? lo) && (hi_half (crc body) =? hi)
          && (b0 =? slave_id m) && (b1 =? func_code m)).
Proof.
  intros Hbuf Hlen Hbody Hrange Hb. unfold modbus_master_validate_rx.
  destruct (Z.ltb_spec (rx_len m) 5); [lia|]. rewrite Hlen.
  replace (Z.of_nat (length body) + 2 - 2) with (Z.of_nat (length body)) by lia.
  replace (Z.of_nat (length body) + 2 - 1) with (Z.of_nat (Datatypes.S (length body))) by lia.
  assert (Hu : u8 (Z.of_nat (length body)) = Z.of_nat (length body)) by (apply u8_id; unfold in_u8; lia).
  rewrite modbus_crc16_eq; [|done|].
  2:{ rewrite Hbuf, Hu, length_app. lia. }
  rewrite Hbuf, Hu, Nat2Z.id, take_app_length. cbn [mbind option_bind].
  rewrite !rd_lookup, !lookup_app_r by lia. rewrite Nat.sub_diag.
  replace (Datatypes.S (length body) - length body)%nat with 1%nat by lia. cbn [mbind option_bind lookup list_lookup].
  rewrite land_255_u8. fold (lo_half (crc body)) (hi_half (crc body)).
  change (rd ?l 0) with (l !! 0%nat). change (rd ?l 1) with (l !! 1%nat). subst body. simpl.
  repeat (destruct (_ =? _); simpl; try done).
Qed.

Lemma validate_adu m pdu junk b0 b1 tl :
  rx_buf m = adu pdu ++ junk → rx_len m = Z.of_nat (length (adu pdu)) →
  pdu = b0 :: b1 :: tl → (3 <= length pdu <= 255)%nat → Forall in_u8 (rx_buf m) →
  b0 = slave_id m → b1 = func_code m → modbus_master_validate_rx m = Some true.
Proof.
  intros Hbuf Hlen Hpdu Hr Hb -> ->. unfold adu in Hbuf. rewrite <- app_assoc in Hbuf.
  erewrite validate_eq; [..|exact Hpdu|done|done].
  2:{ exact Hbuf. }
  2:{ rewrite Hlen, length_adu. lia. }
  by rewrite !Z.eqb_refl.
Qed.

(** ** No request faults on its own buffers *)

Lemma wf_upd_rx w en buf len :
  wf w → length buf = 512%nat → Forall in_u8 buf → 0 <= len < 512 → wf (upd (set_rx en buf len) w).
Proof. intros []; constructor; done. Qed.

Lemma wf_env w sem sent script : wf w → wf (mkLine (M_ w) sem sent script).
Proof. intros []; by constructor. Qed.

Lemma Forall_insert_u8 (l : list Z) i v : Forall in_u8 l → in_u8 v → Forall in_u8 (<[i:=v]> l).
Proof. intros. by apply Forall_insert. Qed.

Lemma line_event_wf e : triple wf (line_event e) (λ _, wf).
Proof.
  intros w Hw. destruct e as [b|]; simpl.
  - unfold uart0_receive_one_byte, bind, get, lift. destruct (rx_enable (M_ w)); [|by exists tt, w].
    rewrite wr_Some by (rewrite (wf_rx _ Hw); apply Hw). simpl. do 2 eexists. split; [done|].
    apply wf_upd_rx; [done|by rewrite length_insert, (wf_rx _ Hw)| |apply Z.mod_pos_bound; lia].
    apply Forall_insert_u8; [apply Hw|apply u8_range].
  - do 2 eexists. split; [done|]. by apply wf_env.
Qed.

Lemma line_events_wf es : triple wf (line_events es) (λ _, wf).
Proof.
  induction es as [|e es IH]; simpl.
  - intros w Hw. by exists tt, w.
  - eapply triple_bind; [apply line_event_wf|]. intros a. exact IH.
Qed.

Lemma with_tx_wf sent w :
  wf w → Forall in_u8 sent → (length sent <= 512)%nat → wf (with_tx sent w).
Proof.
  intros Hw Hs Hl. constructor; try apply Hw; cbn.
  - rewrite length_app, length_drop, (wf_tx _ Hw). lia.
  - apply Forall_app. split; [done|]. apply Forall_drop, Hw.
Qed.

Lemma tx_push_wf sent v w :
  wf w → Forall in_u8 sent → (length sent < 512)%nat →
  tx_push v (with_tx sent w) = Some (tt, with_tx (sent ++ [u8 v]) w) ∧ Forall in_u8 (sent ++ [u8 v]).
Proof.
  intros Hw Hs Hl. split; [apply tx_push_run; [apply Hw|done]|].
  apply Forall_app. split; [done|]. repeat constructor; apply u8_range.
Qed.

(** Whatever the line does, a request of at most 510 bytes is answered. *)
Lemma call_wf sent w :
  wf w → Forall in_u8 sent → (length sent <= 510)%nat →
  ∃ b w', call_master_command (with_tx sent w) = Some (b, w') ∧ wf w'.
Proof.
  intros Hw Hs Hl. unfold call_master_command, bind at 1, get.
  pose proof (with_tx_wf _ _ Hw Hs ltac:(lia)) as Hw1. rewrite (wf_cmd _ Hw1).
  unfold master_send_receive, bind at 1, get.
  pose proof (u8_range (tx_len (M_ (with_tx sent w)))) as [??].
  erewrite bind_run.
  2:{ apply lift_run, modbus_crc16_eq; [apply Hw1|]. rewrite (wf_tx _ Hw1). lia. }
  set (c := crc _).
  destruct (tx_push_wf sent (Z.land c 255) w Hw Hs ltac:(lia)) as [Hp1 Hs1].
  erewrite bind_run by exact Hp1.
  destruct (tx_push_wf _ (Z.shiftr c 8) w Hw Hs1) as [Hp2 Hs2]; [rewrite length_app; simpl; lia|].
  erewrite bind_run by exact Hp2.
  pose proof (with_tx_wf _ _ Hw Hs2 ltac:(rewrite !length_app; simpl; lia)) as Hw2.
  set (w2 := with_tx _ _) in *. do 4 (erewrite bind_run by reflexivity). cbv beta.
  assert (Hn : ∀ w3, wf w3 → ∃ es w', next_wait w3 = Some (es, w') ∧ wf w').
  { intros w3 Hw3. unfold next_wait, bind, get. destruct (during_wait w3) as [|es r].
    - by exists [], w3.
    - do 2 eexists. split; [done|]. by apply wf_env. }
  match goal with |- context [bind next_wait _ ?w3] => destruct (Hn w3) as (es & w4 & Hrun & Hw4) end.
  { apply wf_env, wf_upd_rx; [|apply Hw2|apply Hw2|lia].
    apply wf_upd_rx; [by apply wf_env|apply Hw2..]. }
  erewrite bind_run by exact Hrun.
  destruct (line_events_wf es w4 Hw4) as ([] & w5 & Hrun' & Hw5).
  erewrite bind_run by exact Hrun'. do 2 eexists. split; [reflexivity|].
  apply wf_upd_rx; [by apply wf_env|apply Hw5..].
Qed.

Lemma validate_total m :
  length (rx_buf m) = 512%nat → Forall in_u8 (rx_buf m) → 0 <= rx_len m < 512 →
  ∃ b, modbus_master_validate_rx m = Some b.
Proof.
  intros Hl Hb Hr. unfold modbus_master_validate_rx.
  destruct (Z.ltb_spec (rx_len m) 5); [by eexists|].
  pose proof (u8_range (rx_len m - 2)) as [??].
  rewrite modbus_crc16_eq by (done || lia). cbn [mbind option_bind].
  destruct (rd_is_Some (rx_buf m) (rx_len m - 2)) as [? ->]; [lia|].
  destruct (rd_is_Some (rx_buf m) (rx_len m - 1)) as [? ->]; [lia|].
  destruct (rd_is_Some (rx_buf m) 0) as [? ->]; [lia|].
  destruct (rd_is_Some (rx_buf m) 1) as [? ->]; [lia|]. cbn [mbind option_bind].
  repeat (destruct (_ =? _); simpl; [|by eexists]). by eexists.
Qed.

Lemma echo_total m b2 b3 b4 b5 : length (rx_buf m) = 512%nat → ∃ b, echo m b2 b3 b4 b5 = Some b.
Proof.
  intros Hl. unfold echo.
  destruct (rd_is_Some (rx_buf m) 2) as [? ->]; [lia|].
  destruct (rd_is_Some (rx_buf m) 3) as [? ->]; [lia|].
  destruct (rd_is_Some (rx_buf m) 4) as [? ->]; [lia|].
  destruct (rd_is_Some (rx_buf m) 5) as [? ->]; [lia|]. cbn [mbind option_bind].
  repeat (destruct (_ =? _); simpl; [|by eexists]). by eexists.
Qed.

Lemma exchange_wf sent b2 b3 b4 b5 w :
  wf w → Forall in_u8 sent → (length sent <= 510)%nat →
  ∃ b w', exchange (λ m, lift (echo m (b2 m) (b3 m) (b4 m) (b5 m))) (with_tx sent w) = Some (b, w') ∧ wf w'.
Proof.
  intros Hw Hs Hl. unfold exchange.
  destruct (call_wf sent w Hw Hs Hl) as (b & w' & Hrun & Hw'). erewrite bind_run by exact Hrun.
  destruct b; [|by exists false, w']. unfold bind at 1, get.
  destruct (validate_total (M_ w')) as [v Hv]; [apply Hw'..|].
  erewrite bind_run by (apply lift_run; exact Hv). destruct v; [|by exists false, w'].
  destruct (echo_total (M_ w') (b2 (M_ w')) (b3 (M_ w')) (b4 (M_ w')) (b5 (M_ w'))) as [e He]; [apply Hw'|].
  exists e, w'. split; [by apply lift_run|done].
Qed.

(** ** The frames of the requests *)

Lemma be16_u8 v : in_u8 v → be16 v = [0; v].
Proof.
  intros Hv. unfold be16. rewrite land_255_u8, (u8_id v), (u8_id v) by done.
  rewrite Z.shiftr_div_pow2, Z.div_small by done. done.
Qed.

Lemma be16_bytes v : Forall in_u8 (be16 v).
Proof. unfold be16. repeat constructor; apply u8_range. Qed.

Lemma concat_be16_bytes vs : Forall in_u8 (concat (be16 <$> vs)).
Proof. induction vs; simpl; [done|]. do 2 (constructor; [apply u8_range|]). done. Qed.

Lemma length_concat_be16 vs : length (concat (be16 <$> vs)) = (2 * length vs)%nat.
Proof.
  induction vs as [|v vs IH]; [done|]. rewrite fmap_cons. cbn [concat].
  rewrite length_app, IH. simpl. lia.
Qed.

Lemma upd_wf f w :
  wf w → (∀ m, tx_buf (f m) = tx_buf m ∧ rx_buf (f m) = rx_buf m ∧ rx_len (f m) = rx_len m
               ∧ master_command (f m) = master_command m) → wf (upd f w).
Proof.
  intros [] Hf. destruct (Hf (M_ w)) as (?&?&?&?).
  constructor; cbn; congruence.
Qed.

(** Run the assignments and pushes at the front of a request. *)
Ltac run_push := erewrite bind_run by (apply tx_push_run; [by auto|simpl; lia]).
Ltac run_setup := repeat (erewrite bind_run by reflexivity).

Definition pdu_write_regs (id start n : Z) (values : list Z) : list Z :=
  [id; FUNC_WRITE_MULTIPLE_REGISTERS; 0; start; 0; n; u8 (2 * n)] ++ concat (be16 <$> values).

Definition req_write_regs (id start n : Z) (w : line) : line :=
  upd (set_write_qty n) (upd (set_write_addr start) (upd (set_request id FUNC_WRITE_MULTIPLE_REGISTERS) w)).

Lemma req_write_regs_wf id start n w : wf w → wf (req_write_regs id start n w).
Proof. intros. by repeat (apply upd_wf; [|done]). Qed.

Definition write_echo (m : Modbus_Master) : M line bool :=
  lift (echo m (Z.shiftr (write_addr m) 8) (Z.land (write_addr m) 0xFF)
          (Z.shiftr (write_qty m) 8) (Z.land (write_qty m) 0xFF)).

Lemma be16_push v : be16 v = [u8 (Z.shiftr v 8); u8 (Z.land v 255)].
Proof. done. Qed.

(** The header of a multiple register write, up to the byte count. *)
Lemma write_regs_prefix id start (n : nat) values w :
  wf w → in_u8 id → in_u8 start → (n <= 255)%nat →
  modbus_master_Write_multiple_holding_regs id start (Z.of_nat n) values w
  = bind (push_values (Z.of_nat n) values) (λ _, exchange write_echo)
      (with_tx (pdu_write_regs id start (Z.of_nat n) []) (req_write_regs id start (Z.of_nat n) w)).
Proof.
  intros Hw Hid Hst Hn. unfold modbus_master_Write_multiple_holding_regs.
  assert (Hn8 : in_u8 (Z.of_nat n)) by (unfold in_u8; lia).
  rewrite (u8_id start), (u8_id (Z.of_nat n)) by done. run_setup.
  fold (req_write_regs id start (Z.of_nat n) w). set (w0 := req_write_regs _ _ _ _).
  assert (Hw0 : length (tx_buf (M_ w0)) = 512%nat) by apply Hw.
  erewrite bind_run by (apply push_header_run; [done|exact Hw0]).
  unfold bind at 1, get. do 3 run_push.
  cbn [with_tx upd M_ set_tx write_qty w0 req_write_regs set_write_qty].
  rewrite u16_id by (unfold in_u16, in_u8 in *; lia). fold w0.
  cbn [slave_id func_code write_addr w0 req_write_regs upd M_ set_write_qty set_write_addr set_request].
  assert (Hst16 : u16 start = start) by (apply u16_id; unfold in_u16, in_u8 in *; lia).
  rewrite Hst16, !(be16_u8 start), (u8_id (u8 id)), (u8_id id) by (done || apply u8_range).
  fold w0. change (u8 (u8 FUNC_WRITE_MULTIPLE_REGISTERS)) with FUNC_WRITE_MULTIPLE_REGISTERS.
  cbn [app]. rewrite (u8_id (Z.land _ _)) by (rewrite land_255_u8; apply u8_range).
  rewrite land_255_u8, (u8_id (Z.of_nat n)), Z.shiftr_div_pow2, Z.div_small by (done || lia).
  done.
Qed.

Lemma pdu_write_regs_bytes id start n values :
  in_u8 id → in_u8 start → in_u8 n → Forall in_u8 (pdu_write_regs id start n values).
Proof.
  intros. unfold pdu_write_regs. apply Forall_app. split; [|apply concat_be16_bytes].
  forall_u8.
Qed.

Lemma length_pdu_write_regs id start n values :
  length (pdu_write_regs id start n values) = (7 + 2 * length values)%nat.
Proof. unfold pdu_write_regs. rewrite length_app, length_concat_be16. done. Qed.

Lemma adu_bytes pdu : Forall in_u8 pdu → Forall in_u8 (adu pdu).
Proof.
  intros H. apply Forall_app. split; [done|]. repeat constructor; try apply u8_range.
  all: apply hi_half_range; by apply crc_range.
Qed.

Lemma echo_eq m r0 r1 r2 r3 r4 r5 tl b2 b3 b4 b5 :
  rx_buf m = r0 :: r1 :: r2 :: r3 :: r4 :: r5 :: tl →
  echo m b2 b3 b4 b5 = Some ((r2 =? b2) && (r3 =? b3) && (r4 =? b4) && (r5 =? b5)).
Proof.
  intros Hb. unfold echo. rewrite Hb.
  change (rd ?l 2) with (l !! 2%nat). change (rd ?l 3) with (l !! 3%nat).
  change (rd ?l 4) with (l !! 4%nat). change (rd ?l 5) with (l !! 5%nat).
  cbn [lookup list_lookup mbind option_bind].
  by destruct (r2 =? b2), (r3 =? b3), (r4 =? b4), (r5 =? b5).
Qed.

(** The slave's reply [pdu] to a request in state [w] passes validation. *)
Lemma answered_valid sent pdu rest w tl :
  wf w → Forall in_u8 pdu → pdu = slave_id (M_ w) :: func_code (M_ w) :: tl →
  (3 <= length pdu <= 255)%nat →
  modbus_master_validate_rx (M_ (answered sent (adu pdu) rest w)) = Some true.
Proof.
  intros Hw Hp Hpdu Hl. eapply validate_adu; [reflexivity|done|exact Hpdu|done| |done|done].
  cbn. apply Forall_app. split; [by apply adu_bytes|apply Forall_drop, Hw].
Qed.

(** A reply that repeats the four bytes the request expects. *)
Lemma exchange_echo sent (ok : Modbus_Master → M line bool) b2 b3 b4 b5 rest w :
  let pdu := [slave_id (M_ w); func_code (M_ w); b2; b3; b4; b5] in
  wf w → Forall in_u8 sent → (length sent <= 255)%nat → Forall in_u8 pdu →
  during_wait w = ((RxByte <$> adu pdu) ++ [RxComplete]) :: rest →
  ok (M_ (answered sent (adu pdu) rest w))
    = lift (echo (M_ (answered sent (adu pdu) rest w)) b2 b3 b4 b5) →
  exchange ok (with_tx sent w) = Some (true, answered sent (adu pdu) rest w).
Proof.
  intros pdu Hw Hs Hl Hb Hwait Hok. unfold exchange.
  erewrite bind_run
    by (apply call_answered; [done..|by apply adu_bytes|rewrite length_adu; simpl; lia]).
  unfold bind at 1, get.
  erewrite bind_run by (apply lift_run; eapply answered_valid; [done..|simpl; lia]).
  rewrite Hok. apply lift_run. erewrite echo_eq; [|reflexivity]. by rewrite !Z.eqb_refl.
Qed.

Lemma u8_u16 v : in_u8 v → u16 v = v.
Proof. intros. apply u16_id. unfold in_u16, in_u8 in *. lia. Qed.

Lemma u8_hi v : in_u8 v → Z.shiftr v 8 = 0.
Proof. intros. rewrite Z.shiftr_div_pow2 by lia. by apply Z.div_small. Qed.

Lemma u8_lo v : in_u8 v → Z.land v 255 = v.
Proof. intros. rewrite land_255_u8. by apply u8_id. Qed.

Definition ends_sent (w : line) (pdu : list Z) (w' : line) : Prop :=
  uart1_sent w' = uart1_sent w ++ [adu pdu] ∧ rx_enable (M_ w') = false.

Lemma write_regs_ok w id start (n : nat) values rest :
  wf w → in_u8 id → in_u8 start → (n <= 124)%nat → (n <= length values)%nat →
  during_wait w = ((RxByte <$> adu [id; 16; 0; start; 0; Z.of_nat n]) ++ [RxComplete]) :: rest →
  ∃ w', modbus_master_Write_multiple_holding_regs id start (Z.of_nat n) values w = Some (true, w')
        ∧ ends_sent w (pdu_write_regs id start (Z.of_nat n) (take n values)) w'.
Proof.
  intros Hw Hid Hst Hn Hv Hwait. rewrite write_regs_prefix by (done || lia).
  assert (Hn8 : in_u8 (Z.of_nat n)) by (unfold in_u8; lia).
  pose proof (req_write_regs_wf id start (Z.of_nat n) w Hw) as Hw0.
  erewrite bind_run by (apply push_values_run; [apply Hw0|done|cbn; lia]).
  change (pdu_write_regs id start ?k [] ++ ?l) with (pdu_write_regs id start k (take n values)).
  assert (Hid' : slave_id (M_ (req_write_regs id start (Z.of_nat n) w)) = id) by (by apply u8_id).
  eexists. split.
  - apply (exchange_echo _ _ 0 start 0 (Z.of_nat n) rest); rewrite ?Hid'; [done| | | |done|].
    + by apply pdu_write_regs_bytes.
    + rewrite length_pdu_write_regs, length_take. lia.
    + forall_u8.
    + unfold write_echo. cbn [answered M_ set_rx with_tx upd set_tx write_addr write_qty
        req_write_regs set_write_qty set_write_addr].
      by rewrite !u8_u16, !u8_hi, !u8_lo.
  - done.
Qed.

(** ** Memory safety of the multiple register write *)

Lemma write_regs_total w id start (n : nat) values :
  wf w → in_u8 id → in_u8 start → (n <= 251)%nat → (n <= length values)%nat →
  ∃ b w', modbus_master_Write_multiple_holding_regs id start (Z.of_nat n) values w = Some (b, w') ∧ wf w'.
Proof.
  intros Hw Hid Hst Hn Hv. rewrite write_regs_prefix by (done || lia).
  assert (Hn8 : in_u8 (Z.of_nat n)) by (unfold in_u8; lia).
  pose proof (req_write_regs_wf id start (Z.of_nat n) w Hw) as Hw0.
  erewrite bind_run by (apply push_values_run; [apply Hw0|done|cbn; lia]).
  apply exchange_wf; [done| |].
  - change (Forall in_u8 (pdu_write_regs id start (Z.of_nat n) (take n values))).
    by apply pdu_write_regs_bytes.
  - rewrite length_app, length_concat_be16, length_take. simpl. lia.
Qed.

(** After 252 registers 511 bytes are in the buffer: one more register, or the
    two checksum bytes, do not fit. *)
Lemma write_regs_overflow w id start (n : nat) values :
  wf w → in_u8 id → in_u8 start → (252 <= n <= 255)%nat → (n <= length values)%nat →
  modbus_master_Write_multiple_holding_regs id start (Z.of_nat n) values w = None.
Proof.
  intros Hw Hid Hst Hn Hv. rewrite write_regs_prefix by (done || lia).
  pose proof (req_write_regs_wf id start (Z.of_nat n) w Hw) as Hw0.
  set (w0 := req_write_regs _ _ _ _) in *. set (hdr := pdu_write_regs _ _ _ _).
  assert (Hfull : ∀ v sent, length sent = 511%nat →
    bind (tx_push v) (λ _, tx_push v) (with_tx sent w0) = None).
  { intros v sent Hs. erewrite bind_run by (apply tx_push_run; [apply Hw0|lia]).
    apply tx_push_full; [apply Hw0|rewrite length_app; simpl; lia]. }
  assert (H252 : push_values 252 values (with_tx hdr w0)
    = Some (tt, with_tx (hdr ++ concat (be16 <$> take 252 values)) w0)).
  { change 252 with (Z.of_nat 252). apply push_values_run; [apply Hw0|lia|].
    unfold hdr. rewrite length_pdu_write_regs. simpl. lia. }
  set (sent := hdr ++ _) in H252.
  assert (Hsent : length sent = 511%nat).
  { unfold sent, hdr.
    rewrite length_app, length_pdu_write_regs, length_concat_be16, length_take. cbn [length]. lia. }
  clearbody sent.
  destruct (decide (n = 252%nat)) as [->|Hne].
  - erewrite bind_run by exact H252. unfold exchange, call_master_command, bind, get.
    cbn [with_tx upd M_ set_tx master_command]. rewrite (wf_cmd _ Hw0). fold (with_tx sent w0).
    unfold master_send_receive, bind at 1, get, bind at 1.
    destruct (lift (modbus_crc16 _ _) (with_tx sent w0)) as [[c w1]|] eqn:E; [|done].
    unfold lift in E. destruct (modbus_crc16 _ _); [|done]. injection E as -> <-.
    unfold bind at 1. rewrite tx_push_run by (apply Hw0 || lia). unfold bind at 1.
    by rewrite tx_push_full by (apply Hw0 || (rewrite length_app; simpl; lia)).
  - unfold bind at 1. unfold push_values at 1. rewrite Nat2Z.id.
    replace n with (252 + Datatypes.S (n - 253))%nat by lia. rewrite for_proc_app.
    unfold bind at 1. unfold push_values in H252. change (Z.to_nat 252) with 252%nat in H252.
    rewrite H252. cbn [for_proc]. unfold bind at 1.
    destruct (lookup_lt_is_Some_2 values 252 ltac:(lia)) as [v Hv252].
    erewrite bind_run by (apply lift_run; change (0 + Z.of_nat 252) with (Z.of_nat 252); rewrite rd_lookup; exact Hv252).
    erewrite bind_run by (apply tx_push_run; [apply Hw0|lia]).
    by rewrite tx_push_full by (apply Hw0 || (rewrite length_app; simpl; lia)).
Qed.

(** ** Reading registers and coils *)

Lemma concat_be16_lookup (vs : list Z) (i : nat) v :
  vs !! i = Some v → in_u16 v →
  concat (be16 <$> vs) !! (2 * i)%nat = Some (Z.shiftr v 8) ∧
  concat (be16 <$> vs) !! (2 * i + 1)%nat = Some (u8 v).
Proof.
  revert i. induction vs as [|x vs IH]; intros i Hi Hv; [done|]. rewrite fmap_cons. cbn [concat].
  destruct i as [|i].
  - injection Hi as ->. simpl. unfold be16.
    rewrite land_255_u8, (u8_id (Z.shiftr v 8)), (u8_id (u8 v)); [done|apply u8_range|].
    by apply (hi_half_range v).
  - simpl in Hi. destruct (IH i Hi Hv) as [H1 H2].
    replace (2 * Datatypes.S i)%nat with (2 + 2 * i)%nat by lia. unfold be16 at 1 3. simpl.
    by split.
Qed.

(** A loop that stores [f i] at position [i] fills a prefix of the array. *)
Lemma fill_prefix (f : Z → option Z) (xs arr : list Z) :
  (length xs <= length arr)%nat →
  (∀ i x, xs !! i = Some x → f (Z.of_nat i) = Some x) →
  for_up 0 (length xs) (λ i arr, v ← f i; wr arr i v) arr = Some (xs ++ drop (length xs) arr).
Proof.
  intros Hlen Hf.
  assert (Hk : ∀ k, (k <= length xs)%nat →
    for_up 0 k (λ i arr, v ← f i; wr arr i v) arr = Some (take k xs ++ drop k arr)).
  { induction k as [|k IH]; intros Hk; [done|]. replace (Datatypes.S k) with (k + 1)%nat by lia.
    rewrite for_up_app, IH by lia. cbn [mbind option_bind for_up].
    destruct (lookup_lt_is_Some_2 xs k ltac:(lia)) as [x Hx]. rewrite Z.add_0_l, (Hf _ _ Hx).
    cbn [mbind option_bind].
    assert (Htk : length (take k xs) = k) by (rewrite length_take; lia).
    pose proof (wr_app_drop (take k xs) arr x) as Hw. rewrite Htk in Hw. rewrite Hw by lia.
    cbn [mbind option_bind]. rewrite Nat.add_1_r, (take_S_r _ _ _ Hx), length_app, Htk. simpl.
    by rewrite Nat.add_1_r. }
  rewrite Hk by done. by rewrite firstn_all.
Qed.

Definition req_read (id func start n : Z) (w : line) : line :=
  upd (set_read start n) (upd (set_request id func) w).

Definition pdu_read (id func start n : Z) : list Z := [id; func; 0; start; 0; n].

(** The front of both read requests. *)
Lemma read_prefix {A} id func start n w (k : M line A) :
  wf w → in_u8 id → in_u8 func → in_u8 start → in_u8 n →
  (modify (upd (set_request id func)) ;;;
   modify (upd (set_read (u8 start) (u8 n))) ;;;
   push_header read_addr ;;;
   let! m := get M_ in
   tx_push (Z.shiftr (read_qty m) 8) ;;;
   tx_push (Z.land (read_qty m) 0xFF) ;;;
   k) w = k (with_tx (pdu_read id func start n) (req_read id func start n w)).
Proof.
  intros Hw Hid Hf Hst Hn. rewrite (u8_id start), (u8_id n) by done. run_setup.
  fold (req_read id func start n w). set (w0 := req_read _ _ _ _ _).
  assert (Hw0 : length (tx_buf (M_ w0)) = 512%nat) by apply Hw.
  erewrite bind_run by (apply push_header_run; [done|exact Hw0]).
  unfold bind at 1, get. do 2 run_push.
  cbn [with_tx upd M_ set_tx read_qty w0 req_read set_read]. fold w0.
  cbn [slave_id func_code read_addr w0 req_read upd M_ set_read set_request]. fold w0.
  rewrite !u8_u16, !(be16_u8 start), (u8_id (u8 id)), (u8_id (u8 func)), (u8_id id), (u8_id func)
    by (done || apply u8_range).
  cbn [app]. rewrite u8_hi, u8_lo, (u8_id n) by done. done.
Qed.

Lemma req_read_wf id func start n w : wf w → wf (req_read id func start n w).
Proof. intros. by repeat (apply upd_wf; [|done]). Qed.

Lemma be16_value v : in_u16 v → u16 (Z.shiftr v 8 * 256 + u8 v) = v.
Proof.
  intros Hv. rewrite Z.shiftr_div_pow2 by lia. unfold u8. change (2 ^ 8) with 256.
  rewrite Z.mul_comm, <- Z.div_mod by lia. by apply u16_id.
Qed.

Lemma read_regs_run w id start vals regs rest :
  wf w → in_u8 id → in_u8 start → (length vals <= 126)%nat → (length vals <= length regs)%nat →
  Forall in_u16 vals →
  during_wait w =
    ((RxByte <$> adu (id :: 3 :: 2 * Z.of_nat (length vals) :: concat (be16 <$> vals))) ++ [RxComplete]) :: rest →
  ∃ w', modbus_master_read_holding_regs id start (Z.of_nat (length vals)) regs w
          = Some ((true, vals ++ drop (length vals) regs), w')
        ∧ ends_sent w (pdu_read id 3 start (Z.of_nat (length vals))) w'.
Proof.
  intros Hw Hid Hst Hn Hr Hv Hwait.
  assert (Hn8 : in_u8 (Z.of_nat (length vals))) by (unfold in_u8; lia).
  unfold modbus_master_read_holding_regs. rewrite read_prefix by done.
  pose proof (req_read_wf id FUNC_READ_HOLDING_REGISTER start (Z.of_nat (length vals)) w Hw) as Hw0.
  set (w0 := req_read _ _ _ _ _) in *. set (reply := id :: 3 :: _) in Hwait.
  assert (Hrb : Forall in_u8 reply).
  { unfold reply. forall_u8. apply concat_be16_bytes. }
  assert (Hrl : length reply = (3 + 2 * length vals)%nat).
  { unfold reply. cbn [length]. rewrite length_concat_be16. lia. }
  assert (Hsb : Forall in_u8 (pdu_read id 3 start (Z.of_nat (length vals)))) by (unfold pdu_read; forall_u8).
  erewrite bind_run by (apply call_answered; [done|exact Hsb|simpl; lia|exact Hwait|
    by apply adu_bytes|rewrite length_adu; lia]).
  unfold bind at 1, get.
  erewrite bind_run.
  2:{ apply lift_run. eapply answered_valid; [done|done| |lia].
      unfold reply, w0. cbn. by rewrite (u8_id id). }
  set (w1 := answered _ _ _ _).
  assert (Hbuf : rx_buf (M_ w1) = adu reply ++ drop (length (adu reply)) (rx_buf (M_ w0))) by done.
  assert (Hq : read_qty (M_ w1) = Z.of_nat (length vals)) by (by apply u8_u16).
  cbv iota. erewrite bind_run by (apply lift_run; rewrite Hbuf; reflexivity).
  rewrite Hq, Z.mul_comm, Z.eqb_refl. cbn [negb].
  erewrite bind_run.
  2:{ apply lift_run. rewrite Nat2Z.id, Hbuf. rewrite <- (fill_prefix (λ i,
        h ← rd (adu reply ++ drop (length (adu reply)) (rx_buf (M_ w0))) (3 + i * 2);
        l ← rd (adu reply ++ drop (length (adu reply)) (rx_buf (M_ w0))) (4 + i * 2);
        Some (u16 (h * 256 + l))) vals regs); [|done|].
      - apply for_up_ext. intros j s _. destruct (rd _ (3 + j * 2)) as [h|]; [|done]. simpl.
        by destruct (rd _ (4 + j * 2)).
      - intros i v Hi. pose proof (lookup_lt_Some _ _ _ Hi) as Hlt.
        assert (Hv16 : in_u16 v) by (by eapply Forall_lookup_1).
        destruct (concat_be16_lookup vals i v Hi Hv16) as [H1 H2].
        replace (3 + Z.of_nat i * 2) with (Z.of_nat (3 + 2 * i)) by lia.
        replace (4 + Z.of_nat i * 2) with (Z.of_nat (3 + (2 * i + 1))) by lia.
        rewrite !rd_lookup, !lookup_app_l by (rewrite length_adu; lia).
        unfold adu, reply. rewrite !lookup_app_l
          by (cbn [length]; rewrite length_concat_be16; lia).
        assert (Hk : ∀ (a b c : Z) l k, (a :: b :: c :: l) !! (3 + k)%nat = l !! k) by done.
        rewrite !Hk, H1, H2. cbn [mbind option_bind].
        by rewrite be16_value. }
  eexists. split; [reflexivity|]. done.
Qed.

(** The protocol's packing of coils: bit [j] of byte [k] is coil [8k+j]. *)
Fixpoint byte_val (bs : list bool) : Z :=
  match bs with [] => 0 | b :: bs => Z.b2z b + 2 * byte_val bs end.

Definition packed (coils : list bool) : list Z :=
  (λ k, byte_val (take 8 (drop (8 * k) coils))) <$>
    seq 0 (Z.to_nat (coil_bytes (Z.of_nat (length coils)))).

Lemma byte_val_testbit bs (j : nat) :
  Z.testbit (byte_val bs) (Z.of_nat j) = default false (bs !! j).
Proof.
  revert j. induction bs as [|b bs IH]; intros j; [by rewrite Z.testbit_0_l|]. cbn [byte_val].
  destruct j as [|j].
  - change (Z.of_nat 0) with 0. by rewrite Z.add_b2z_double_bit0.
  - rewrite Nat2Z.inj_succ, Z.add_comm, Z.testbit_succ_r by lia. apply IH.
Qed.

Lemma byte_val_range bs : (length bs <= 8)%nat → in_u8 (byte_val bs).
Proof.
  intros Hl. assert (0 <= byte_val bs < 2 ^ Z.of_nat (length bs)) as [H0 H1].
  { clear Hl. induction bs as [|b bs IH]; [cbn; lia|]. cbn [byte_val length].
    rewrite Nat2Z.inj_succ, Z.pow_succ_r by lia. destruct b; cbn [Z.b2z]; lia. }
  split; [done|]. pose proof (Z.pow_le_mono_r 2 (Z.of_nat (length bs)) 8 ltac:(lia) ltac:(lia)). lia.
Qed.

Lemma packed_bytes coils : Forall in_u8 (packed coils).
Proof.
  apply Forall_fmap, Forall_true. intros k. apply byte_val_range. rewrite length_take. lia.
Qed.

Lemma coil_bytes_range n : 0 <= n → n / 8 <= coil_bytes n /\ n <= 8 * coil_bytes n <= n + 7.
Proof.
  intros Hn. unfold coil_bytes. pose proof (Z.div_mod n 8 ltac:(lia)).
  pose proof (Z.mod_pos_bound n 8 ltac:(lia)).
  destruct (Z.eqb_spec (n mod 8) 0); lia.
Qed.

Lemma length_packed coils : length (packed coils) = Z.to_nat (coil_bytes (Z.of_nat (length coils))).
Proof. unfold packed. by rewrite length_fmap, length_seq. Qed.

Lemma packed_bit coils (i : nat) b :
  coils !! i = Some b →
  ∃ v, packed coils !! (i / 8)%nat = Some v ∧ Z.testbit v (Z.of_nat (i mod 8)) = b.
Proof.
  intros Hi. pose proof (lookup_lt_Some _ _ _ Hi) as Hlt.
  destruct (coil_bytes_range (Z.of_nat (length coils)) ltac:(lia)) as [_ Hcb].
  pose proof (Nat.div_mod i 8 ltac:(lia)) as Hdm. pose proof (Nat.mod_upper_bound i 8 ltac:(lia)).
  unfold packed. rewrite list_lookup_fmap, lookup_seq_lt by lia.
  eexists. split; [done|]. rewrite byte_val_testbit, lookup_take_lt, lookup_drop by lia.
  replace (8 * (0 + i / 8) + i mod 8)%nat with i by lia. by rewrite Hi.
Qed.

Lemma land_1_shiftr v j : 0 <= j → Z.land 1 (Z.shiftr v j) = Z.b2z (Z.testbit v j).
Proof.
  intros Hj. rewrite Z.land_comm. change 1 with (Z.ones 1). rewrite Z.land_ones by lia.
  rewrite Z.testbit_odd. change (2 ^ 1) with 2. by rewrite Zmod_odd; destruct (Z.odd _).
Qed.

Lemma read_coils_run w id start coils result rest :
  wf w → in_u8 id → in_u8 start → (length coils <= 255)%nat → (length coils <= length result)%nat →
  during_wait w =
    ((RxByte <$> adu (id :: 1 :: coil_bytes (Z.of_nat (length coils)) :: packed coils)) ++ [RxComplete]) :: rest →
  ∃ w', modbus_master_read_coils id start (Z.of_nat (length coils)) result w
          = Some ((true, (Z.b2z <$> coils) ++ drop (length coils) result), w')
        ∧ ends_sent w (pdu_read id 1 start (Z.of_nat (length coils))) w'.
Proof.
  intros Hw Hid Hst Hn Hr Hwait.
  assert (Hn8 : in_u8 (Z.of_nat (length coils))) by (unfold in_u8; lia).
  destruct (coil_bytes_range (Z.of_nat (length coils)) ltac:(lia)) as [_ Hcb].
  unfold modbus_master_read_coils. rewrite read_prefix by done. rewrite (u8_id (Z.of_nat (length coils))) by done.
  pose proof (req_read_wf id FUNC_READ_COILS start (Z.of_nat (length coils)) w Hw) as Hw0.
  set (w0 := req_read _ _ _ _ _) in *. set (reply := id :: 1 :: _) in Hwait.
  assert (Hrb : Forall in_u8 reply) by (unfold reply; forall_u8; apply packed_bytes).
  assert (Hrl : length reply = (3 + Z.to_nat (coil_bytes (Z.of_nat (length coils))))%nat).
  { unfold reply. cbn [length]. by rewrite length_packed. }
  assert (Hsb : Forall in_u8 (pdu_read id 1 start (Z.of_nat (length coils)))) by (unfold pdu_read; forall_u8).
  erewrite bind_run by (apply call_answered; [done|exact Hsb|simpl; lia|exact Hwait|
    by apply adu_bytes|rewrite length_adu; lia]).
  unfold bind at 1, get.
  erewrite bind_run.
  2:{ apply lift_run. eapply answered_valid; [done|done| |lia].
      unfold reply, w0. cbn. by rewrite (u8_id id). }
  set (w1 := answered _ _ _ _).
  assert (Hbuf : rx_buf (M_ w1) = adu reply ++ drop (length (adu reply)) (rx_buf (M_ w0))) by done.
  assert (Hq : read_qty (M_ w1) = Z.of_nat (length coils)) by (by apply u8_u16).
  cbv iota. erewrite bind_run by (apply lift_run; rewrite Hbuf; reflexivity).
  rewrite Hq, Z.eqb_refl. cbn [negb].
  erewrite bind_run.
  2:{ apply lift_run. rewrite Nat2Z.id, Hbuf.
      rewrite <- (length_fmap Z.b2z coils). rewrite <- (fill_prefix (λ i,
        value ← rd (adu reply ++ drop (length (adu reply)) (rx_buf (M_ w0))) (3 + i / 8);
        Some (Z.land 0x01 (Z.shiftr value (i mod 8)))) (Z.b2z <$> coils) result);
        [|by rewrite length_fmap|].
      - apply for_up_ext. intros j s _. by destruct (rd _ (3 + j / 8)).
      - intros i x Hi. rewrite list_lookup_fmap in Hi.
        destruct (coils !! i) as [b|] eqn:Hb; [|done]. injection Hi as <-.
        pose proof (lookup_lt_Some _ _ _ Hb) as Hlt.
        destruct (packed_bit coils i b Hb) as (v & Hv & Hbit).
        pose proof (lookup_lt_Some _ _ _ Hv) as Hvl. rewrite length_packed in Hvl.
        replace (3 + Z.of_nat i / 8) with (Z.of_nat (3 + i / 8)%nat)
          by (by rewrite Nat2Z.inj_add, Nat2Z.inj_div).
        replace (Z.of_nat i mod 8) with (Z.of_nat (i mod 8)) by (by rewrite Nat2Z.inj_mod).
        rewrite rd_lookup, lookup_app_l by (rewrite length_adu; lia).
        unfold adu, reply. rewrite lookup_app_l by (cbn [length]; rewrite length_packed; lia).
        assert (Hk : ∀ (a b c : Z) l k, (a :: b :: c :: l) !! (3 + k)%nat = l !! k) by done.
        rewrite Hk, Hv. cbn [mbind option_bind]. by rewrite land_1_shiftr, Hbit by lia. }
  rewrite length_fmap. eexists. split; [reflexivity|]. done.
Qed.

(** ** The packing loop of the multiple coil write *)

Definition shift_in (d : Z) (b : bool) : Z := Z.lor (Z.shiftr d 1) (if b then 128 else 0).

Lemma shift_in_div d b : in_u8 d → shift_in d b = d / 2 + 128 * Z.b2z b.
Proof.
  intros Hd. unfold shift_in. rewrite Z.shiftr_div_pow2 by lia. change (2 ^ 1) with 2.
  destruct b; cbn [Z.b2z]; [|rewrite Z.lor_0_r; lia].
  change 128 with (1 * 2 ^ 7) at 1. rewrite lor_fields; [lia|lia|].
  unfold in_u8 in Hd. dlia.
Qed.

Lemma shift_in_range d b : in_u8 d → in_u8 (shift_in d b).
Proof.
  intros Hd. rewrite shift_in_div by done. unfold in_u8 in *. destruct b; cbn [Z.b2z]; dlia.
Qed.

Lemma foldl_shift_range bs d : in_u8 d → in_u8 (foldl shift_in d bs).
Proof. revert d. induction bs; intros d Hd; simpl; [done|]. apply IHbs. by apply shift_in_range. Qed.

Lemma byte_val_snoc bs b :
  byte_val (bs ++ [b]) = byte_val bs + Z.b2z b * 2 ^ Z.of_nat (length bs).
Proof.
  induction bs as [|c bs IH]; cbn [byte_val app length]; [lia|]. rewrite IH, Nat2Z.inj_succ, Z.pow_succ_r; lia.
Qed.

(** After [n] shifts the byte holds the [n] new bits above the old ones; after
    eight, nothing of the old byte is left. *)
Lemma shift_in_run bs d :
  in_u8 d → (length bs <= 8)%nat →
  foldl shift_in d bs = d / 2 ^ Z.of_nat (length bs) + byte_val bs * 2 ^ (8 - Z.of_nat (length bs)).
Proof.
  intros Hd. induction bs as [|b bs IH] using rev_ind; intros Hl.
  - cbn. rewrite Z.div_1_r. lia.
  - rewrite length_app in *. cbn [length] in *. rewrite foldl_snoc, shift_in_div, IH
      by (lia || by apply foldl_shift_range).
    rewrite byte_val_snoc, Nat2Z.inj_add. set (n := Z.of_nat (length bs)).
    assert (H128 : 2 ^ n * 2 ^ (8 - (n + 1)) = 128).
    { rewrite <- Z.pow_add_r by lia. by replace (n + (8 - (n + 1))) with 7 by lia. }
    assert (H8 : 2 ^ (8 - n) = 2 * 2 ^ (8 - (n + 1))).
    { rewrite <- Z.pow_succ_r by lia. f_equal. lia. }
    assert (Hd1 : d / 2 ^ (n + 1) = d / 2 ^ n / 2).
    { rewrite Z.pow_add_r, Z.div_div by lia. done. }
    change (Z.of_nat 1) with 1. rewrite H8, Hd1. set (P := 2 ^ (8 - (n + 1))) in *.
    replace (d / 2 ^ n + byte_val bs * (2 * P)) with (d / 2 ^ n + byte_val bs * P * 2) by lia.
    rewrite Z.div_add by lia. rewrite Z.mul_add_distr_r, <- Z.mul_assoc, H128. lia.
Qed.

Lemma shift_in_8 bs d : in_u8 d → length bs = 8%nat → foldl shift_in d bs = byte_val bs.
Proof.
  intros Hd Hl. rewrite shift_in_run, Hl by (done || lia). change (Z.of_nat 8) with 8.
  rewrite Z.div_small by done. lia.
Qed.

(** The coil the loop shifts in at step [i]. *)
Definition coil_at (qty : Z) (values : list Z) (i : nat) : bool :=
  (Z.of_nat i <? qty) && bool_decide (values !! i = Some 1).

Lemma pack_step qty values data (i k : nat) d :
  in_u8 d → (k < length data)%nat → (i / 8 = k)%nat → qty <= Z.of_nat (length values) →
  pack_coil qty values (Z.of_nat i) (<[k := d]> data)
  = Some (<[k := shift_in d (coil_at qty values i)]> data).
Proof.
  intros Hd Hk Hik Hq. unfold pack_coil. replace (Z.of_nat i / 8) with (Z.of_nat k) by (by rewrite <- Hik, Nat2Z.inj_div).
  rewrite (rd_lookup (<[k := d]> data)), list_lookup_insert_eq by done. cbn [mbind option_bind].
  assert (Hwr : ∀ x, wr (<[k := d]> data) (Z.of_nat k) x = Some (<[k := x]> data)).
  { intros x. rewrite wr_Some by (rewrite length_insert; lia). by rewrite Nat2Z.id, list_insert_insert_eq. }
  assert (H7F : Z.land (Z.shiftr d 1) 0x7F = Z.shiftr d 1).
  { change 0x7F with (Z.ones 7). rewrite Z.land_ones by lia.
    rewrite Z.shiftr_div_pow2 by lia. apply Z.mod_small. unfold in_u8 in Hd. dlia. }
  unfold coil_at, shift_in. destruct (Z.ltb_spec (Z.of_nat i) qty); cbn [andb].
  - rewrite rd_lookup. destruct (lookup_lt_is_Some_2 values i ltac:(lia)) as [v Hv].
    rewrite Hv. cbn [mbind option_bind]. destruct (Z.eqb_spec v 1) as [->|Hne].
    + rewrite Hwr, bool_decide_true by done. rewrite u8_id; [done|].
      by apply (shift_in_range d true).
    + rewrite Hwr, bool_decide_false by congruence. by rewrite H7F, Z.lor_0_r.
  - by rewrite Hwr, Z.lor_0_r.
Qed.

Lemma pack_chunk qty values data (k j : nat) d :
  in_u8 d → (k < length data)%nat → (j <= 8)%nat → qty <= Z.of_nat (length values) →
  for_up (Z.of_nat (8 * k)) j (pack_coil qty values) (<[k := d]> data)
  = Some (<[k := foldl shift_in d (coil_at qty values <$> seq (8 * k) j)]> data).
Proof.
  intros Hd Hk. induction j as [|j IH]; intros Hj Hq; [done|].
  replace (Datatypes.S j) with (j + 1)%nat by lia. rewrite for_up_app, IH by lia.
  rewrite seq_app, fmap_app, foldl_app. cbn [mbind option_bind for_up fmap list_fmap seq foldl].
  replace (Z.of_nat (8 * k) + Z.of_nat j) with (Z.of_nat (8 * k + j)) by lia.
  rewrite pack_step; [done|by apply foldl_shift_range|done| |done].
  symmetry. apply Nat.div_unique with (r := j); lia.
Qed.

(** What the loop leaves in [data], for any garbage it started from: the
    protocol's packing of the coils. *)
Lemma pack_coils_eq qty values data :
  0 <= qty <= 255 → qty <= Z.of_nat (length values) → length data = 32%nat → Forall in_u8 data →
  pack_coils qty values data
  = Some (packed (coil_at qty values <$> seq 0 (Z.to_nat qty))
          ++ drop (Z.to_nat (coil_bytes qty)) data).
Proof.
  intros Hq Hv Hl Hd. unfold pack_coils.
  destruct (coil_bytes_range qty ltac:(lia)) as [_ Hcb].
  set (bytes := λ k, byte_val (coil_at qty values <$> seq (8 * k) 8)).
  assert (Hk : ∀ k, (k <= 32)%nat → for_up 0 (k * 8) (pack_coil qty values) data
    = Some ((bytes <$> seq 0 k) ++ drop k data)).
  { induction k as [|k IH]; intros Hk; [done|].
    replace (Datatypes.S k * 8)%nat with (k * 8 + 8)%nat by lia.
    rewrite for_up_app, IH by lia. cbn [mbind option_bind]. rewrite Z.add_0_l.
    destruct (lookup_lt_is_Some_2 data k ltac:(lia)) as [d Hdk]. rewrite (drop_S _ _ _ Hdk).
    set (l := (bytes <$> seq 0 k) ++ d :: drop (Datatypes.S k) data).
    assert (Hb : length (bytes <$> seq 0 k) = k) by (by rewrite length_fmap, length_seq).
    assert (Hlk : l !! k = Some d).
    { unfold l. rewrite lookup_app_r by lia. by rewrite Hb, Nat.sub_diag. }
    rewrite <- (list_insert_id l k d Hlk). replace (k * 8)%nat with (8 * k)%nat by lia.
    assert (Hd8 : in_u8 d) by (by eapply Forall_lookup_1).
    rewrite pack_chunk; [|done|by eapply lookup_lt_Some|done|done].
    rewrite shift_in_8 by (done || by rewrite length_fmap, length_seq). fold (bytes k).
    unfold l. rewrite insert_app_r_alt, Hb, Nat.sub_diag by lia. cbn [insert list_insert].
    rewrite seq_S, fmap_app, <- app_assoc. done. }
  replace (Z.to_nat (coil_bytes qty * 8)) with (Z.to_nat (coil_bytes qty) * 8)%nat by lia.
  rewrite Hk by lia. do 2 f_equal. unfold packed.
  rewrite length_fmap, length_seq, Z2Nat.id by lia. apply list_fmap_ext. intros i x Hx.
  apply lookup_seq in Hx as [-> Hx]. unfold bytes. rewrite Nat.add_0_l.
  rewrite <- fmap_drop, <- fmap_take, drop_seq, take_seq, Nat.add_0_l.
  set (m := (8 `min` (Z.to_nat qty - 8 * i))%nat).
  replace 8%nat with (m + (8 - m))%nat at 2 by (unfold m; lia).
  rewrite seq_app, fmap_app.
  assert (Hz : ∀ l, Forall (λ b, b = false) l → ∀ l0, byte_val (l0 ++ l) = byte_val l0).
  { intros l Hf l0. induction l0 as [|b l0 IH]; cbn [byte_val app]; [|by rewrite IH].
    induction Hf as [|b l -> _ IH]; [done|]. cbn [byte_val Z.b2z]. lia. }
  apply Hz. apply Forall_fmap, Forall_seq. intros j Hj. unfold compose, coil_at.
  destruct (Z.ltb_spec (Z.of_nat j) qty); [|done]. unfold m in Hj. lia.
Qed.

(** ** Properties *)

Definition idle_line (script : list (list uart_event)) : line :=
  mkLine (mkMaster 0 0 0 0 0 0 false (replicate 512 0) 0 (replicate 512 0) 0 true) false [] script.

Lemma idle_wf script : wf (idle_line script).
Proof.
  assert (Hz : Forall in_u8 (replicate 512 0)) by (apply Forall_replicate; by vm_compute).
  constructor; cbn [idle_line M_ tx_buf rx_buf rx_len master_command];
    [by rewrite length_replicate|done|by rewrite length_replicate|done|lia|done].
Qed.

(** [modbus_crc16], which keeps the register as two bytes and looks both up in
    [CRCHi] and [CRCLo], computes over the first [length] bytes the reflected
    CRC of polynomial 0xA001 started from 0xFFFF, for every buffer and length;
    and a message followed by its checksum, low byte first, has checksum 0. *)
Theorem modbus_crc16_correct (frame : list Z) (n : Z) :
  Forall in_u8 frame → 0 <= n <= 255 → n <= Z.of_nat (length frame) →
  modbus_crc16 frame n = Some (Reflected.run 0xA001 0xFFFF (take (Z.to_nat n) frame)) ∧
  Reflected.run 0xA001 0xFFFF (adu (take (Z.to_nat n) frame)) = 0.
Proof.
  intros Hf Hn Hl. assert (Hu : u8 n = n) by (apply u8_id; unfold in_u8; lia). split.
  - rewrite modbus_crc16_eq, Hu; [done|done|by rewrite Hu].
  - apply crc_residue. by apply Forall_take.
Qed.

Lemma modbus_crc16_correct_witness :
  modbus_crc16 [1; 3; 0; 0; 0; 1] 6 = Some (Reflected.run 0xA001 0xFFFF [1; 3; 0; 0; 0; 1]) ∧
  Reflected.run 0xA001 0xFFFF (adu [1; 3; 0; 0; 0; 1]) = 0.
Proof. apply (modbus_crc16_correct [1; 3; 0; 0; 0; 1] 6); [forall_u8|lia|simpl; lia]. Defined.

(** The shape of a frame of [n + 2] bytes at the front of a buffer. *)
Lemma frame_shape (buf : list Z) (n : nat) :
  (2 <= n)%nat → (n + 2 <= length buf)%nat →
  ∃ body lo hi junk b0 b1 tl,
    buf = body ++ lo :: hi :: junk ∧ length body = n ∧ body = b0 :: b1 :: tl.
Proof.
  intros H2 Hn. exists (take n buf).
  destruct (lookup_lt_is_Some_2 buf n ltac:(lia)) as [lo Hlo].
  destruct (lookup_lt_is_Some_2 buf (Datatypes.S n) ltac:(lia)) as [hi Hhi].
  pose proof (take_drop n buf) as Htd. rewrite (drop_S _ _ _ Hlo), (drop_S _ _ _ Hhi) in Htd.
  assert (Htl : length (take n buf) = n) by (rewrite length_take; lia).
  destruct (take n buf) as [|b0 [|b1 tl]] eqn:E; [simpl in Htl; lia..|].
  by exists lo, hi, (drop (Datatypes.S (Datatypes.S n)) buf), b0, b1, tl.
Qed.

(** Replacing one byte of a message changes one of the checksum bytes. *)
Lemma crc_detects body (i : nat) b b' :
  Forall in_u8 body → body !! i = Some b → in_u8 b' → b' ≠ b →
  (lo_half (crc (<[i := b']> body)) =? lo_half (crc body))
  && (hi_half (crc (<[i := b']> body)) =? hi_half (crc body)) = false.
Proof.
  intros Hbb Hib Hb' Hne. apply not_true_iff_false.
  intros [Hlo Hhi]%andb_prop. apply Z.eqb_eq in Hlo, Hhi.
  assert (Hcb : in_u16 (crc body)) by by apply crc_range.
  assert (Hcb' : in_u16 (crc (<[i := b']> body))) by (apply crc_range; by apply Forall_insert).
  assert (Heq : crc (<[i := b']> body) = crc body).
  { rewrite <- (u16_halves _ Hcb), <- (u16_halves _ Hcb'). congruence. }
  revert Heq. rewrite (insert_take_drop body i b') by (apply lookup_lt_is_Some_1; eauto).
  rewrite <- (take_drop_middle body i b Hib) at 3.
  apply (Reflected.run_detects_byte 16);
    [lia|lia|done|lia|by apply Forall_take|by apply Forall_drop|done|by eapply Forall_lookup_1|done].
Qed.

(** C23: whatever reply [modbus_master_validate_rx] accepts, it rejects every reply
    that differs from it in exactly one byte, the two checksum bytes included
    (replies of up to 257 bytes, the longest whose length survives the
    [uint8_t] parameter of [modbus_crc16]). *)
Theorem validate_rejects_corruption (m : Modbus_Master) (i : nat) (b b' : Z) :
  length (rx_buf m) = 512%nat → Forall in_u8 (rx_buf m) → 5 <= rx_len m <= 257 →
  modbus_master_validate_rx m = Some true →
  Z.of_nat i < rx_len m → rx_buf m !! i = Some b → in_u8 b' → b' ≠ b →
  modbus_master_validate_rx (set_rx (rx_enable m) (<[i := b']> (rx_buf m)) (rx_len m) m) = Some false.
Proof.
  intros Hl Hb Hr Hok Hi Hib Hb' Hne. set (n := (Z.to_nat (rx_len m) - 2)%nat).
  assert (Hlen : rx_len m = Z.of_nat n + 2) by lia. clearbody n.
  destruct (frame_shape (rx_buf m) n) as (body & lo & hi & junk & b0 & b1 & tl & Hbuf & Hn & Hbody); [lia..|].
  destruct (frame_shape (<[i := b']> (rx_buf m)) n)
    as (body' & lo' & hi' & junk' & b0' & b1' & tl' & Hbuf' & Hn' & Hbody'); [lia|rewrite length_insert; lia|].
  rewrite (validate_eq m body lo hi junk b0 b1 tl) in Hok by (done || lia).
  set (m' := set_rx _ _ _ _). assert (Hbytes' : Forall in_u8 (rx_buf m')) by by apply Forall_insert.
  rewrite (validate_eq m' body' lo' hi' junk' b0' b1' tl'); [|done|cbn; lia|done|lia|done].
  injection Hok as Hok. apply andb_prop in Hok as [[[Hlo Hhi]%andb_prop _]%andb_prop _].
  apply Z.eqb_eq in Hlo, Hhi. f_equal. apply andb_false_iff. left. apply andb_false_iff. left.
  rewrite Hbuf in Hbuf', Hib. rewrite Hbuf, Forall_app in Hb. destruct Hb as [Hbb _].
  destruct (decide (i < n)%nat) as [Hin|Hin].
  - rewrite insert_app_l in Hbuf' by lia. rewrite lookup_app_l in Hib by lia.
    apply app_inj_1 in Hbuf' as [<- [= <- <- _]]; [|by rewrite length_insert, Hn, Hn'].
    rewrite <- Hlo, <- Hhi. by eapply crc_detects.
  - rewrite insert_app_r_alt in Hbuf' by lia. rewrite lookup_app_r in Hib by lia. rewrite Hn in *.
    apply app_inj_1 in Hbuf' as [<- Htail]; [|lia].
    assert (i = n ∨ i = Datatypes.S n) as [-> | ->] by lia.
    + rewrite Nat.sub_diag in *. injection Hib as ->. injection Htail as <- _ _.
      destruct (Z.eqb_spec (lo_half (crc body)) b'); [congruence|done].
    + replace (Datatypes.S n - n)%nat with 1%nat in * by lia. injection Hib as ->.
      injection Htail as _ <- _. rewrite andb_comm.
      destruct (Z.eqb_spec (hi_half (crc body)) b'); [congruence|done].
Qed.

Definition accepted_example : Modbus_Master :=
  set_rx false (adu [1; 5; 0; 7; 0xFF; 0] ++ replicate 504 0) 8
    (set_request 1 5 (M_ (idle_line []))).

Lemma validate_rejects_corruption_witness :
  modbus_master_validate_rx
    (set_rx false (<[3%nat := 8]> (rx_buf accepted_example)) 8 accepted_example) = Some false.
Proof.
  apply (validate_rejects_corruption accepted_example 3 7 8);
    [by vm_compute| |by vm_compute|by vm_compute|by vm_compute|by vm_compute|by vm_compute|lia].
  apply Forall_app. split; [apply adu_bytes; forall_u8|apply Forall_replicate; by vm_compute].
Defined.

(** A multiple register write of up to 124 registers (the protocol's maximum
    is 123) puts on the line exactly the protocol's frame - identifier,
    function 16, address, quantity, byte count, the values high byte first,
    the checksum - and succeeds when the slave echoes it. *)
Theorem write_registers_sends_frame (w : line) (id start : Z) (n : nat) (values : list Z)
    (rest : list (list uart_event)) :
  wf w → in_u8 id → in_u8 start → (n <= 124)%nat → (n <= length values)%nat →
  during_wait w = ((RxByte <$> adu [id; 16; 0; start; 0; Z.of_nat n]) ++ [RxComplete]) :: rest →
  ∃ w', modbus_master_Write_multiple_holding_regs id start (Z.of_nat n) values w = Some (true, w')
        ∧ uart1_sent w' = uart1_sent w ++
            [adu ([id; 16; 0; start; 0; Z.of_nat n; 2 * Z.of_nat n]
                  ++ concat (be16 <$> take n values))].
Proof.
  intros Hw Hid Hst Hn Hv Hwait.
  destruct (write_regs_ok w id start n values rest) as (w' & Hrun & Hsent & _); [done..|].
  exists w'. split; [done|]. rewrite Hsent. unfold pdu_write_regs.
  rewrite u8_id by (unfold in_u8; lia). done.
Qed.

Lemma write_registers_sends_frame_witness :
  ∃ w', modbus_master_Write_multiple_holding_regs 1 4 2 [258; 3]
          (idle_line [(RxByte <$> adu [1; 16; 0; 4; 0; 2]) ++ [RxComplete]]) = Some (true, w')
        ∧ uart1_sent w' = [adu ([1; 16; 0; 4; 0; 2; 4] ++ [1; 2; 0; 3])].
Proof.
  apply (write_registers_sends_frame (idle_line [(RxByte <$> adu [1; 16; 0; 4; 0; 2]) ++ [RxComplete]])
           1 4 2 [258; 3] []); [apply idle_wf|done|done|lia|simpl; lia|done].
Defined.

(** The transmit buffer of 512 bytes bounds a multiple register write: whatever
    the line does, the request runs without a fault for up to 251 registers,
    and for 252 to 255 registers - which the [uint8_t] parameter admits - it
    writes past the end of [tx_buf]. *)
Theorem write_registers_in_bounds (w : line) (id start : Z) (n : nat) (values : list Z) :
  wf w → in_u8 id → in_u8 start → (n <= 255)%nat → (n <= length values)%nat →
  (is_Some (modbus_master_Write_multiple_holding_regs id start (Z.of_nat n) values w)
   ↔ (n <= 251)%nat).
Proof.
  intros Hw Hid Hst Hn Hv. split.
  - intros [r Hr]. destruct (decide (n <= 251)%nat); [done|].
    rewrite write_regs_overflow in Hr; done || lia.
  - intros Hn'. destruct (write_regs_total w id start n values) as (b & w' & -> & _); [done..|]. done.
Qed.

Lemma write_registers_in_bounds_witness :
  is_Some (modbus_master_Write_multiple_holding_regs 1 0 252 (replicate 255 0) (idle_line []))
  ↔ (252 <= 251)%nat.
Proof.
  apply (write_registers_in_bounds (idle_line []) 1 0 252 (replicate 255 0));
    [apply idle_wf|done|done|lia|rewrite length_replicate; lia].
Defined.

(** Reading up to 126 holding registers returns exactly the values the slave
    answers with, in order, at the front of the caller's array, and asks with
    the frame identifier, 3, address, quantity. *)
Theorem read_registers_roundtrip (w : line) (id start : Z) (vals regs : list Z)
    (rest : list (list uart_event)) :
  wf w → in_u8 id → in_u8 start → (length vals <= 126)%nat → (length vals <= length regs)%nat →
  Forall in_u16 vals →
  during_wait w =
    ((RxByte <$> adu (id :: 3 :: 2 * Z.of_nat (length vals) :: concat (be16 <$> vals)))
       ++ [RxComplete]) :: rest →
  ∃ w', modbus_master_read_holding_regs id start (Z.of_nat (length vals)) regs w
          = Some ((true, vals ++ drop (length vals) regs), w')
        ∧ uart1_sent w' = uart1_sent w ++ [adu [id; 3; 0; start; 0; Z.of_nat (length vals)]].
Proof.
  intros. destruct (read_regs_run w id start vals regs rest) as (w' & Hrun & Hsent & _); [done..|].
  by exists w'.
Qed.

Lemma read_registers_roundtrip_witness :
  ∃ w', modbus_master_read_holding_regs 1 7 2 [0; 0; 9]
          (idle_line [(RxByte <$> adu [1; 3; 4; 1; 2; 0; 255]) ++ [RxComplete]])
          = Some ((true, [258; 255; 9]), w')
        ∧ uart1_sent w' = [adu [1; 3; 0; 7; 0; 2]].
Proof.
  apply (read_registers_roundtrip (idle_line [(RxByte <$> adu [1; 3; 4; 1; 2; 0; 255]) ++ [RxComplete]])
           1 7 [258; 255] [0; 0; 9] []);
    [apply idle_wf|done|done|simpl; lia|simpl; lia|by repeat (constructor; [by vm_compute|])|by vm_compute].
Defined.

(** Reading up to 255 coils returns each coil the slave packed into its answer,
    bit [i mod 8] of byte [i / 8] at position [i]. *)
Theorem read_coils_roundtrip (w : line) (id start : Z) (coils : list bool) (result : list Z)
    (rest : list (list uart_event)) :
  wf w → in_u8 id → in_u8 start → (length coils <= 255)%nat → (length coils <= length result)%nat →
  during_wait w =
    ((RxByte <$> adu (id :: 1 :: coil_bytes (Z.of_nat (length coils)) :: packed coils))
       ++ [RxComplete]) :: rest →
  ∃ w', modbus_master_read_coils id start (Z.of_nat (length coils)) result w
          = Some ((true, (Z.b2z <$> coils) ++ drop (length coils) result), w')
        ∧ uart1_sent w' = uart1_sent w ++ [adu [id; 1; 0; start; 0; Z.of_nat (length coils)]].
Proof.
  intros. destruct (read_coils_run w id start coils result rest) as (w' & Hrun & Hsent & _); [done..|].
  by exists w'.
Qed.

Lemma read_coils_roundtrip_witness :
  ∃ w', modbus_master_read_coils 1 0 9 (replicate 10 7)
          (idle_line [(RxByte <$> adu [1; 1; 2; 5; 1]) ++ [RxComplete]])
          = Some ((true, [1; 0; 1; 0; 0; 0; 0; 0; 1; 7]), w')
        ∧ uart1_sent w' = [adu [1; 1; 0; 0; 0; 9]].
Proof.
  apply (read_coils_roundtrip (idle_line [(RxByte <$> adu [1; 1; 2; 5; 1]) ++ [RxComplete]]) 1 0
           [true; false; true; false; false; false; false; false; true] (replicate 10 7) []);
    [apply idle_wf|done|done|simpl; lia|simpl; lia|by vm_compute].
Defined.

(** The packing loop of the multiple coil write computes the protocol's
    packing of the coils whatever the uninitialised array held, but the request
    then sends no byte of it: two requests that differ only in the values to
    write behave the same, to the frame on the line. *)
Theorem write_coils_drops_values (w : line) (stack stack' : list Z) (id start qty : Z)
    (values values' : list Z) :
  0 <= qty <= 255 → length stack = 32%nat → length stack' = 32%nat →
  Forall in_u8 stack → Forall in_u8 stack' →
  qty <= Z.of_nat (length values) → qty <= Z.of_nat (length values') →
  (∃ data, pack_coils qty values stack = Some data ∧
     take (Z.to_nat (coil_bytes qty)) data = packed (coil_at qty values <$> seq 0 (Z.to_nat qty))) ∧
  modbus_master_write_multiple_coils stack id start qty values w
  = modbus_master_write_multiple_coils stack' id start qty values' w.
Proof.
  intros Hq Hs Hs' Hb Hb' Hv Hv'.
  pose proof (pack_coils_eq qty values stack Hq Hv Hs Hb) as E.
  pose proof (pack_coils_eq qty values' stack' Hq Hv' Hs' Hb') as E'. split.
  - eexists. split; [exact E|].
    rewrite take_app_le by (rewrite length_packed, length_fmap, length_seq, Z2Nat.id; lia).
    apply firstn_all2. rewrite length_packed, length_fmap, length_seq, Z2Nat.id; lia.
  - unfold modbus_master_write_multiple_coils. rewrite u8_id by (unfold in_u8; lia).
    erewrite bind_run by (apply lift_run; exact E). symmetry.
    by erewrite bind_run by (apply lift_run; exact E').
Qed.

Lemma write_coils_drops_values_witness :
  (∃ data, pack_coils 3 [1; 0; 1] (replicate 32 0xAA) = Some data ∧ take 1 data = [5]) ∧
  modbus_master_write_multiple_coils (replicate 32 0xAA) 1 0 3 [1; 0; 1] (idle_line [])
  = modbus_master_write_multiple_coils (replicate 32 0xAA) 1 0 3 [0; 0; 0] (idle_line []).
Proof.
  apply (write_coils_drops_values (idle_line []) (replicate 32 0xAA) (replicate 32 0xAA) 1 0 3
           [1; 0; 1] [0; 0; 0]);
    [lia|done|done|by apply Forall_replicate|by apply Forall_replicate|simpl; lia|simpl; lia].
Defined.

End Master.
