(* ===== verification/Nvs.v ===== *)
(** The non-volatile store, as the application uses it.

    [components/nvs_flash] keeps typed values under a namespace and a key. The
    application reads with [nvs_get_*], writes with [nvs_set_*] and ignores the
    results, so what it relies on is the map that a sequence of writes leaves.
    The class [Nvs] states that promise; the application's theorems are proved
    against it. *)
From S2P Require Import Prelude.

Inductive nvs_type := NVS_U8 | NVS_U16 | NVS_U32.

#[global] Instance nvs_type_eq_dec : EqDecision nvs_type.
Proof. solve_decision. Defined.

#[global] Instance nvs_type_countable : Countable nvs_type.
Proof.
  apply (inj_countable'
    (λ t, match t with NVS_U8 => 0%nat | NVS_U16 => 1%nat | NVS_U32 => 2%nat end)
    (λ n, match n with 0%nat => NVS_U8 | 1%nat => NVS_U16 | _ => NVS_U32 end)).
  by intros [].
Defined.

(** An entry is found by namespace, key and type. *)
Definition nvs_key : Type := string * string * nvs_type.

Class Nvs (st : Type) := {
  nvs_get : nvs_key → st → option Z;
  nvs_set : nvs_key → Z → st → st;
  nvs_get_set_eq k v s : nvs_get k (nvs_set k v s) = Some v;
  nvs_get_set_ne k k' v s : k ≠ k' → nvs_get k' (nvs_set k v s) = nvs_get k' s }.

(** [nvs_get_*(handle, key, &dest)]: a missing key leaves [dest] as it was. *)
Definition nvs_read `{Nvs st} (k : nvs_key) (dest : Z) (s : st) : Z := default dest (nvs_get k s).

#[global] Instance Nvs_gmap : Nvs (gmap nvs_key Z).
Proof.
  refine {| nvs_get := λ k s, s !! k; nvs_set := λ k v s, <[k := v]> s |}.
  - intros. apply lookup_insert_eq.
  - intros. by apply lookup_insert_ne.
Defined.

(** Strings, kept beside the numbers. *)
Class NvsStr (st : Type) `{Nvs st} := {
  nvs_get_str : string * string → st → option (list Z);
  nvs_set_str : string * string → list Z → st → st;
  nvs_get_str_set_eq k v s : nvs_get_str k (nvs_set_str k v s) = Some v;
  nvs_get_str_set_ne k k' v s : k ≠ k' → nvs_get_str k' (nvs_set_str k v s) = nvs_get_str k' s;
  nvs_get_set_str k k' v s : nvs_get k' (nvs_set_str k v s) = nvs_get k' s;
  nvs_get_str_set k k' v s : nvs_get_str k' (nvs_set k v s) = nvs_get_str k' s }.

(** A store of both. *)
Definition nvs_map : Type := gmap nvs_key Z * gmap (string * string) (list Z).

#[global] Instance Nvs_map : Nvs nvs_map.
Proof.
  refine {| nvs_get := λ k s, s.1 !! k; nvs_set := λ k v s, (<[k := v]> s.1, s.2) |}.
  - intros. apply lookup_insert_eq.
  - intros. by apply lookup_insert_ne.
Defined.

#[global] Instance NvsStr_map : NvsStr nvs_map.
Proof.
  refine {| nvs_get_str := λ k s, s.2 !! k; nvs_set_str := λ k v s, (s.1, <[k := v]> s.2) |}; try done.
  - intros. apply lookup_insert_eq.
  - intros. by apply lookup_insert_ne.
Defined.
