(* ===== verification/Datetime.v ===== *)
(** The clock and the alarm table: [app/components/common/csro_datetime.c].

    Module [Libc] has what the file uses of the C library ([sscanf] with the
    one format it is called with, [mktime] and [localtime_r] in UTC). Module
    [Alarm] models the alarm table with its copy in the non-volatile store and
    proves it to refine a list of entries. Module [Clock] models the second
    timer and the synchronisation with a time string. *)
From Stdlib Require Import Ascii.
From stdpp Require Import pretty.
From S2P Require Import Prelude Nvs.

(** * What the file uses of the C library *)
Module Libc.

Definition is_space (c : ascii) : bool :=
  let n := Z.of_N (N_of_ascii c) in (n =? 32) || ((9 <=? n) && (n <=? 13)).
Definition digit (c : ascii) : option Z :=
  let n := Z.of_N (N_of_ascii c) in if (48 <=? n) && (n <=? 57) then Some (n - 48) else None.

Fixpoint skip_spaces (s : string) : string :=
  match s with
  | String c s' => if is_space c then skip_spaces s' else s
  | EmptyString => s
  end.

Fixpoint scan_digits (acc : Z) (s : string) : Z * string :=
  match s with
  | String c s' => match digit c with Some d => scan_digits (10 * acc + d) s' | None => (acc, s) end
  | EmptyString => (acc, s)
  end.

(** [%d]: white space, a sign, at least one digit. *)
Definition scan_d (s : string) : option (Z * string) :=
  let s := skip_spaces s in
  let '(sign, s) := match s with
    | String "-"%char s' => (-1, s') | String "+"%char s' => (1, s') | _ => (1, s) end in
  match s with
  | String c _ =>
      match digit c with Some _ => let '(v, s) := scan_digits 0 s in Some (sign * v, s) | None => None end
  | EmptyString => None
  end.

Inductive directive := Conv_d | Literal (c : ascii) | White.

(** The values [sscanf] stores before it stops. *)
Fixpoint sscanf (fmt : list directive) (s : string) : list Z :=
  match fmt with
  | [] => []
  | Conv_d :: fmt => match scan_d s with Some (v, s) => v :: sscanf fmt s | None => [] end
  | Literal c :: fmt =>
      match s with String c' s => if decide (c = c') then sscanf fmt s else [] | EmptyString => [] end
  | White :: fmt => sscanf fmt (skip_spaces s)
  end.

(** The members of [struct tm] the application reads. *)
Record tm := mkTm { tm_sec : Z; tm_min : Z; tm_hour : Z; tm_mday : Z;
                    tm_mon : Z; tm_year : Z; tm_wday : Z }.

Definition leap (y : Z) : bool := (y mod 4 =? 0) && (negb (y mod 100 =? 0) || (y mod 400 =? 0)).
Definition year_days (y : Z) : Z := if leap y then 366 else 365.
(** Leap years in [1, y]. *)
Definition leaps (y : Z) : Z := y / 4 - y / 100 + y / 400.
(** Days from 1970-01-01 to the first of January of year [y]. *)
Definition days_to_year (y : Z) : Z := 365 * (y - 1970) + (leaps (y - 1) - leaps 1969).
Definition month_days (y : Z) : list Z :=
  [31; if leap y then 29 else 28; 31; 30; 31; 30; 31; 31; 30; 31; 30; 31].
Definition sum (l : list Z) : Z := foldr Z.add 0 l.
Definition days_to_month (y : Z) (m : nat) : Z := sum (take m (month_days y)).

(** Seconds since 1970 of a broken-down time; a month out of range carries
    into the year, every other member carries by being added. *)
Definition seconds (t : tm) : Z :=
  let y := tm_year t + 1900 + tm_mon t / 12 in
  let m := tm_mon t mod 12 in
  86400 * (days_to_year y + days_to_month y (Z.to_nat m) + tm_mday t - 1)
  + 3600 * tm_hour t + 60 * tm_min t + tm_sec t.

(** Split a day number into the index of the part it falls in and the rest. *)
Fixpoint split_days (parts : list Z) (i d : Z) : Z * Z :=
  match parts with
  | p :: parts => if d <? p then (i, d) else split_days parts (i + 1) (d - p)
  | [] => (i, d)
  end.

(** The year of a day number: a first guess, then at most one step back. *)
Definition year_of (d : Z) : Z :=
  let g := 1970 + d / 365 in
  (fix back (n : nat) (y : Z) : Z :=
     match n with
     | O => y
     | Datatypes.S n => if d <? days_to_year y then back n (y - 1) else y
     end) 200%nat g.

Definition localtime_r (t : Z) : tm :=
  let d := t / 86400 in
  let r := t mod 86400 in
  let y := year_of d in
  let '(m, day) := split_days (month_days y) 0 (d - days_to_year y) in
  mkTm (r mod 60) (r / 60 mod 60) (r / 3600) (day + 1) m (y - 1900) ((d + 4) mod 7).

(** [mktime] returns the time and normalises its argument; a time that a
    32-bit [time_t] cannot hold gives -1 and leaves the argument. *)
Definition mktime (t : tm) : Z * tm :=
  let s := seconds t in
  if decide (- 2 ^ 31 <= s < 2 ^ 31) then (s, localtime_r s) else (-1, t).

(** ** The calendar, checked day by day for the years a 32-bit clock covers *)

Definition day_number (y : Z) (m : nat) (d : Z) : Z := days_to_year y + days_to_month y m + d - 1.

Definition day_check (y : Z) (m : nat) (d : Z) : bool :=
  let D := day_number y m d in
  (year_of D =? y) && bool_decide (split_days (month_days y) 0 (D - days_to_year y) = (Z.of_nat m, d - 1)).

Definition year_check (y : Z) : bool :=
  forallb (λ m, forallb (λ d, day_check y m (Z.of_nat d)) (seq 1 (Z.to_nat (nth m (month_days y) 0)))) (seq 0 12).

Lemma calendar_checked : forallb (λ n, year_check (2018 + Z.of_nat n)) (seq 0 20) = true.
Proof. vm_compute. reflexivity. Qed.

(** A date of the calendar. *)
Definition real_date (y mo d : Z) : Prop :=
  2018 <= y < 2038 ∧ 1 <= mo <= 12 ∧ 1 <= d <= nth (Z.to_nat (mo - 1)) (month_days y) 0.
#[global] Instance real_date_dec y mo d : Decision (real_date y mo d).
Proof. unfold real_date. apply _. Defined.

Lemma real_date_day y mo d : real_date y mo d → d <= 31.
Proof.
  intros (_ & _ & Hd). assert (nth (Z.to_nat (mo - 1)) (month_days y) 0 <= 31); [|lia].
  generalize (Z.to_nat (mo - 1)). intros n. unfold month_days.
  do 12 (destruct n as [|n]; [simpl; destruct (leap y); lia|]). by destruct n.
Qed.

Lemma calendar_day y mo d :
  real_date y mo d → day_check y (Z.to_nat (mo - 1)) d = true.
Proof.
  intros (Hy & Hm & Hd). pose proof calendar_checked as Hc. rewrite forallb_forall in Hc.
  specialize (Hc (Z.to_nat (y - 2018))). rewrite in_seq in Hc. specialize (Hc ltac:(lia)).
  replace (2018 + Z.of_nat (Z.to_nat (y - 2018))) with y in Hc by lia.
  unfold year_check in Hc. rewrite forallb_forall in Hc.
  specialize (Hc (Z.to_nat (mo - 1))). rewrite in_seq in Hc. specialize (Hc ltac:(lia)).
  rewrite forallb_forall in Hc. specialize (Hc (Z.to_nat d)). rewrite in_seq in Hc.
  rewrite Z2Nat.id in Hc by lia. apply Hc. lia.
Qed.

Lemma mktime_in_range t : 0 <= seconds t < 2 ^ 31 → mktime t = (seconds t, localtime_r (seconds t)).
Proof. intros Ht. unfold mktime. by rewrite decide_True by lia. Qed.

(** [mktime] ignores the weekday it is given. *)
Lemma seconds_wday se mi h d mo y w w' :
  seconds (mkTm se mi h d mo y w) = seconds (mkTm se mi h d mo y w').
Proof. reflexivity. Qed.

Lemma localtime_seconds y mo d h mi se w :
  real_date y mo d → 0 <= h < 24 → 0 <= mi < 60 → 0 <= se < 60 →
  let t := seconds (mkTm se mi h d (mo - 1) (y - 1900) w) in
  0 <= t < 2 ^ 31 ∧
  localtime_r t = mkTm se mi h d (mo - 1) (y - 1900)
    ((day_number y (Z.to_nat (mo - 1)) d + 4) mod 7).
Proof.
  intros Hdate Hh Hmi Hse. pose proof (calendar_day y mo d Hdate) as Hc.
  destruct Hdate as (Hy & Hm & Hd). cbv zeta. unfold seconds. cbn [tm_sec tm_min tm_hour tm_mday tm_mon tm_year].
  rewrite (Z.div_small (mo - 1) 12), (Z.mod_small (mo - 1) 12) by lia.
  replace (y - 1900 + 1900 + 0) with y by lia. fold (day_number y (Z.to_nat (mo - 1)) d).
  set (D := day_number y (Z.to_nat (mo - 1)) d) in *.
  assert (HD : 0 <= D < 24854).
  { subst D. unfold day_number, days_to_year, leaps.
    assert (Hmd : 0 <= days_to_month y (Z.to_nat (mo - 1)) + d <= 366); [|dlia].
    revert Hd. unfold days_to_month, month_days. destruct (leap y);
      (assert (Hcase : mo = 1 ∨ mo = 2 ∨ mo = 3 ∨ mo = 4 ∨ mo = 5 ∨ mo = 6 ∨ mo = 7 ∨ mo = 8 ∨
        mo = 9 ∨ mo = 10 ∨ mo = 11 ∨ mo = 12) by lia);
      repeat destruct Hcase as [->|Hcase]; subst; simpl; lia. }
  split; [lia|]. unfold localtime_r. set (t := 86400 * D + _ + _ + _).
  assert (t / 86400 = D) as -> by (subst t; dlia).
  assert (t mod 86400 = 3600 * h + 60 * mi + se) as -> by (subst t; dlia).
  unfold day_check in Hc. fold D in Hc. apply andb_true_iff in Hc as [Hyear Hsplit].
  apply Z.eqb_eq in Hyear. apply bool_decide_eq_true in Hsplit. rewrite Hyear, Hsplit.
  rewrite Z2Nat.id by lia. f_equal; dlia.
Qed.

Example mktime_ex : mktime (mkTm 30 15 9 30 2 119 0) = (1553937330, mkTm 30 15 9 30 2 119 6).
Proof. vm_compute. reflexivity. Qed.

Example sscanf_ex :
  sscanf [Conv_d; Literal "-"%char; Conv_d; Literal "-"%char; Conv_d; White; Conv_d; Literal ":"%char; Conv_d;
    Literal ":"%char; Conv_d] "2019-03-30 09:15:30" = [2019; 3; 30; 9; 15; 30].
Proof. vm_compute. reflexivity. Qed.

(** Keep conversion from unfolding the calendar on symbolic dates. *)
#[global] Opaque localtime_r seconds mktime day_number.
End Libc.

(** * The alarm table *)
Module Alarm.

Definition ALARM_NUMBER : Z := 20.

Record alarm_struct := mkAlarm { valid : bool; weekday : Z; minutes : Z; action : Z }.

Definition set_valid (v : bool) (a : alarm_struct) : alarm_struct :=
  mkAlarm v (weekday a) (minutes a) (action a).
Definition set_action (ac : Z) (a : alarm_struct) : alarm_struct :=
  mkAlarm (valid a) (weekday a) (minutes a) ac.

(** The global array and the non-volatile store. *)
Record table (st : Type) := mkTable { alarms : list alarm_struct; store : st }.
#[global] Arguments mkTable {st}.
#[global] Arguments alarms {st}.
#[global] Arguments store {st}.

Section Alarm.
Context `{Nvs st}.

Definition count_key : nvs_key := ("alarms"%string, "alarm_count"%string, NVS_U8).
(** [sprintf(key, "alarm%d", i)]. *)
Definition alarm_key (i : Z) : nvs_key :=
  ("alarms"%string, ("alarm" +:+ pretty (Z.to_N i))%string, NVS_U32).

Definition get_alarm (i : Z) : M (table st) alarm_struct :=
  let! l := get alarms in lift (rd l i).
Definition put_alarm (i : Z) (a : alarm_struct) : M (table st) unit :=
  let! l := get alarms in
  let! l := lift (wr l i a) in
  modify (λ t, mkTable l (store t)).
Definition put_store (f : st → st) : M (table st) unit :=
  modify (λ t, mkTable (alarms t) (f (store t))).

(** The 32-bit word an alarm is kept as. *)
Definition pack (a : alarm_struct) : Z :=
  u32 (u32 (u32 (Z.shiftl (weekday a) 25) + u32 (Z.shiftl (minutes a) 14)) + action a).
Definition unpack (alarm_value : Z) : alarm_struct :=
  mkAlarm true (u8 (Z.shiftr (Z.land alarm_value 0xFE000000) 25))
    (u16 (Z.shiftr (Z.land alarm_value 0x01FFC000) 14)) (u16 (Z.land alarm_value 0x00003FFF)).

Definition load_alarm_from_nvs : M (table st) unit :=
  let! nvs := get store in
  let alarm_count := nvs_read count_key 0 nvs in
  for_proc 0 (Z.to_nat ALARM_NUMBER) (λ i,
    if i <? alarm_count then
      let alarm_value := nvs_read (alarm_key i) 0 nvs in
      put_alarm i (unpack alarm_value)
    else
      let! a := get_alarm i in
      put_alarm i (set_valid false a)).

(** The loop of [save_alarm_to_nvs], which breaks at the first free entry. *)
Fixpoint save_loop (n : nat) (i alarm_count : Z) : M (table st) Z :=
  match n with
  | O => ret alarm_count
  | Datatypes.S n =>
      let! a := get_alarm i in
      if valid a then
        put_store (nvs_set (alarm_key i) (pack a)) ;;;
        save_loop n (i + 1) (u8 (alarm_count + 1))
      else ret alarm_count
  end.

Definition save_alarm_to_nvs : M (table st) unit :=
  let! alarm_count := save_loop (Z.to_nat ALARM_NUMBER) 0 0 in
  put_store (nvs_set count_key alarm_count).

Definition csro_alarm_add (weekday_ minutes_ action_ : Z) : M (table st) unit :=
  let weekday_ := u8 weekday_ in let minutes_ := u16 minutes_ in let action_ := u16 action_ in
  let! r := for_ret 0 (Z.to_nat ALARM_NUMBER) (λ i,
    let! a := get_alarm i in
    if valid a && ((weekday a =? weekday_) && (minutes a =? minutes_)) then
      (put_alarm i (set_action action_ a) ;;; save_alarm_to_nvs) ;;;
      ret (Some tt)
    else ret None) in
  match r with
  | Some _ => ret tt
  | None =>
      let! _ := for_ret 0 (Z.to_nat ALARM_NUMBER) (λ i,
        let! a := get_alarm i in
        if negb (valid a) then
          (put_alarm i (mkAlarm true weekday_ minutes_ action_) ;;; save_alarm_to_nvs) ;;;
          ret (Some tt)
        else ret None) in
      ret tt
  end.

Definition csro_alarm_modify (index weekday_ minutes_ action_ : Z) : M (table st) unit :=
  let index := u8 index in
  if ALARM_NUMBER - 1 <? index then ret tt else
  let! a := get_alarm index in
  when (valid a) (
    put_alarm index (mkAlarm true (u8 weekday_) (u16 minutes_) (u16 action_)) ;;;
    save_alarm_to_nvs).

Definition csro_alarm_delete (index : Z) : M (table st) unit :=
  let index := u8 index in
  if ALARM_NUMBER - 1 <? index then ret tt else
  let! a := get_alarm index in
  when (valid a) (
    put_alarm index (set_valid false a) ;;;
    for_proc 0 (Z.to_nat (ALARM_NUMBER - 1)) (λ i,
      let! next := get_alarm (i + 1) in
      when ((index <=? i) && valid next) (
        put_alarm i (mkAlarm true (weekday next) (minutes next) (action next)) ;;;
        put_alarm (i + 1) (set_valid false next))) ;;;
    save_alarm_to_nvs).

Definition csro_alarm_clear : M (table st) unit :=
  for_proc 0 (Z.to_nat ALARM_NUMBER) (λ i,
    let! a := get_alarm i in put_alarm i (set_valid false a)) ;;;
  save_alarm_to_nvs.

(** ** The specification: a list of at most twenty entries *)

Record entry := mkEntry { e_weekday : Z; e_minutes : Z; e_action : Z }.

Definition same_time (w mi : Z) (e : entry) : Prop := e_weekday e = w ∧ e_minutes e = mi.
#[global] Instance same_time_dec w mi e : Decision (same_time w mi e).
Proof. unfold same_time. apply _. Defined.

Definition spec_add (w mi ac : Z) (xs : list entry) : list entry :=
  match list_find (same_time w mi) xs with
  | Some (i, e) => <[i := mkEntry w mi ac]> xs
  | None => if decide (length xs < 20)%nat then xs ++ [mkEntry w mi ac] else xs
  end.

Inductive command :=
  | Add (w mi ac : Z) | Modify (i w mi ac : Z) | Delete (i : Z) | Clear.

Definition spec (c : command) (xs : list entry) : list entry :=
  match c with
  | Add w mi ac => spec_add (u8 w) (u16 mi) (u16 ac) xs
  | Modify i w mi ac => <[Z.to_nat (u8 i) := mkEntry (u8 w) (u16 mi) (u16 ac)]> xs
  | Delete i => delete (Z.to_nat (u8 i)) xs
  | Clear => []
  end.

Definition run (c : command) : M (table st) unit :=
  match c with
  | Add w mi ac => csro_alarm_add w mi ac
  | Modify i w mi ac => csro_alarm_modify i w mi ac
  | Delete i => csro_alarm_delete i
  | Clear => csro_alarm_clear
  end.

Fixpoint run_all (cs : list command) : M (table st) unit :=
  match cs with [] => ret tt | c :: cs => run c ;;; run_all cs end.

(** ** Representation *)

Definition of_entry (e : entry) : alarm_struct := mkAlarm true (e_weekday e) (e_minutes e) (e_action e).

Definition agrees (a : alarm_struct) (o : option entry) : Prop :=
  match o with Some e => a = of_entry e | None => valid a = false end.

(** [al] shows the contents [f], position by position. *)
Definition shows (al : list alarm_struct) (f : nat → option entry) : Prop :=
  length al = 20%nat ∧ ∀ i a, al !! i = Some a → agrees a (f i).

Definition repr (al : list alarm_struct) (xs : list entry) : Prop :=
  shows al (λ i, xs !! i) ∧ (length xs <= 20)%nat.

(** The store keeps the same list. *)
Definition stored (nvs : st) (xs : list entry) : Prop :=
  nvs_read count_key 0 nvs = Z.of_nat (length xs) ∧
  ∀ i e, xs !! i = Some e → nvs_get (alarm_key (Z.of_nat i)) nvs = Some (pack (of_entry e)).

Lemma alarm_key_inj i j : 0 <= i → 0 <= j → alarm_key i = alarm_key j → i = j.
Proof. intros Hi Hj [= E]. do 2 apply (inj _) in E. lia. Qed.

Lemma shows_lookup al f i :
  shows al f → 0 <= i < 20 → ∃ a, al !! Z.to_nat i = Some a ∧ agrees a (f (Z.to_nat i)).
Proof.
  intros [Hl Ha] Hi. destruct (lookup_lt_is_Some_2 al (Z.to_nat i)) as [a E]; [lia|].
  exists a. auto.
Qed.

Lemma shows_insert al f i a o :
  shows al f → agrees a o → shows (<[i := a]> al) (λ j, if decide (j = i) then o else f j).
Proof.
  intros [Hl Ha] Hao. split; [by rewrite length_insert|]. intros j b.
  rewrite list_lookup_insert_Some. intros [(<- & <- & _)|(? & ?)]; case_decide; subst; eauto; done.
Qed.

Lemma shows_ext al f g : (∀ i, (i < 20)%nat → f i = g i) → shows al f → shows al g.
Proof.
  intros Hfg [Hl Ha]. split; [done|]. intros i a E. rewrite <- Hfg; [auto|].
  apply lookup_lt_Some in E. lia.
Qed.

Lemma agrees_valid a o : agrees a o → valid a = bool_decide (is_Some o).
Proof. destruct o; simpl; [by intros ->|intros ->; done]. Qed.

Lemma get_alarm_run t f i :
  shows (alarms t) f → 0 <= i < 20 →
  ∃ a, get_alarm i t = Some (a, t) ∧ agrees a (f (Z.to_nat i)).
Proof.
  intros Hs Hi. destruct (shows_lookup _ _ i Hs Hi) as (a & E & Ha). exists a. split; [|done].
  unfold get_alarm, bind, get. cbv beta. apply lift_run.
  rewrite <- (Z2Nat.id i) by lia. rewrite rd_lookup. done.
Qed.

Lemma put_alarm_run t f i a o :
  shows (alarms t) f → 0 <= i < 20 → agrees a o →
  ∃ t', put_alarm i a t = Some (tt, t') ∧ store t' = store t ∧
    shows (alarms t') (λ j, if decide (j = Z.to_nat i) then o else f j).
Proof.
  intros Hs Hi Ha. unfold put_alarm.
  rewrite (bind_run (get alarms) _ t (alarms t) t) by done.
  erewrite bind_run by (apply lift_run, wr_Some; destruct Hs; lia).
  eexists. split; [done|]. split; [done|]. by apply shows_insert.
Qed.

Ltac case_valid H :=
  let E := fresh "E" in
  rewrite (agrees_valid _ _ H); case_bool_decide as E.

(** ** Saving and loading *)

Lemma save_loop_run t xs n i :
  repr (alarms t) xs → i <= Z.of_nat (length xs) → 0 <= i → i + Z.of_nat n = 20 →
  (∀ j e, Z.of_nat j < i → xs !! j = Some e →
     nvs_get (alarm_key (Z.of_nat j)) (store t) = Some (pack (of_entry e))) →
  ∃ t', save_loop n i i t = Some (Z.of_nat (length xs), t') ∧ alarms t' = alarms t ∧
    ∀ j e, xs !! j = Some e →
      nvs_get (alarm_key (Z.of_nat j)) (store t') = Some (pack (of_entry e)).
Proof.
  revert i t. induction n as [|n IH]; intros i t Hr Hi H0 Hn Hst; cbn [save_loop].
  { destruct Hr as [_ Hlen]. exists t.
    assert (Z.of_nat (length xs) = i) as -> by lia. split; [done|]. split; [done|].
    intros j e Hj. apply Hst; [|done]. apply lookup_lt_Some in Hj. lia. }
  destruct (get_alarm_run t _ i (proj1 Hr)) as (a & Hg & Ha); [lia|].
  rewrite (bind_run _ _ _ _ _ Hg). cbv beta in Ha. case_valid Ha.
  - destruct E as [e E]. rewrite E in Ha. simpl in Ha. subst a.
    pose proof (lookup_lt_Some _ _ _ E) as Hlt. destruct Hr as [Hs Hlen].
    unfold put_store at 1. rewrite (bind_run (modify _) _ t tt
      (mkTable (alarms t) (nvs_set (alarm_key i) (pack (of_entry e)) (store t)))) by done.
    rewrite u8_id by (unfold in_u8; lia).
    destruct (IH (i + 1) (mkTable (alarms t) (nvs_set (alarm_key i) (pack (of_entry e)) (store t))))
      as (t' & ? & ? & ?); cbn [alarms store]; [done|lia..| |by exists t'].
    intros j e' Hj He'. destruct (Z.eq_dec (Z.of_nat j) i) as [<-|Hne].
    + rewrite Nat2Z.id in E. rewrite He' in E. injection E as ->. apply nvs_get_set_eq.
    + rewrite nvs_get_set_ne; [apply Hst; [lia|done]|].
      intros Hk%alarm_key_inj; lia.
  - apply eq_None_not_Some, lookup_ge_None in E. exists t.
    assert (Z.of_nat (length xs) = i) as -> by lia. split; [done|]. split; [done|].
    intros j e Hj. apply Hst; [|done]. apply lookup_lt_Some in Hj. lia.
Qed.

Lemma save_run t xs :
  repr (alarms t) xs →
  ∃ t', save_alarm_to_nvs t = Some (tt, t') ∧ repr (alarms t') xs ∧ stored (store t') xs.
Proof.
  intros Hr. unfold save_alarm_to_nvs.
  destruct (save_loop_run t xs 20 0 Hr) as (t' & Hs & Ha & Hk); [lia..|].
  change (Z.to_nat ALARM_NUMBER) with 20%nat. rewrite (bind_run _ _ _ _ _ Hs).
  eexists. split; [done|]. cbn [alarms store]. rewrite Ha. split; [done|]. split.
  - unfold nvs_read. by rewrite nvs_get_set_eq.
  - intros i e E. rewrite nvs_get_set_ne by done. auto.
Qed.

Definition fits (e : entry) : Prop :=
  0 <= e_weekday e < 2 ^ 7 ∧ 0 <= e_minutes e < 2 ^ 11 ∧ 0 <= e_action e < 2 ^ 14.
#[global] Instance fits_dec e : Decision (fits e).
Proof. unfold fits. apply _. Defined.

Lemma unpack_pack e : fits e → unpack (pack (of_entry e)) = of_entry e.
Proof.
  destruct e as [w mi ac]. unfold fits, pack, unpack, of_entry. cbn [e_weekday e_minutes e_action].
  cbn [weekday minutes action]. intros (Hw & Hm & Ha).
  rewrite !Z.shiftl_mul_pow2 by lia.
  rewrite (u32_id (w * 2 ^ 25)), (u32_id (mi * 2 ^ 14)) by (unfold in_u32; lia).
  rewrite (u32_id (w * 2 ^ 25 + mi * 2 ^ 14)), u32_id by (unfold in_u32; lia).
  set (v := w * 2 ^ 25 + mi * 2 ^ 14 + ac).
  assert (Z.shiftr (Z.land v 0xFE000000) 25 = w) as ->.
  { rewrite Z.shiftr_land. change (Z.shiftr 0xFE000000 25) with (Z.ones 7).
    rewrite Z.land_ones, Z.shiftr_div_pow2 by lia. subst v. dlia. }
  assert (Z.shiftr (Z.land v 0x01FFC000) 14 = mi) as ->.
  { rewrite Z.shiftr_land. change (Z.shiftr 0x01FFC000 14) with (Z.ones 11).
    rewrite Z.land_ones, Z.shiftr_div_pow2 by lia. subst v. dlia. }
  assert (Z.land v 0x00003FFF = ac) as ->.
  { change 0x00003FFF with (Z.ones 14). rewrite Z.land_ones by lia. subst v. dlia. }
  rewrite u8_id, !u16_id by (unfold in_u8, in_u16; lia). done.
Qed.

(** An arbitrary array shows what its valid positions hold. *)
Definition contents (al : list alarm_struct) (i : nat) : option entry :=
  a ← al !! i; if valid a then Some (mkEntry (weekday a) (minutes a) (action a)) else None.

Lemma shows_contents al : length al = 20%nat → shows al (contents al).
Proof.
  intros Hl. split; [done|]. intros i a E. unfold contents. rewrite E. simpl.
  destruct a as [[] w mi ac]; done.
Qed.

Lemma load_run t xs :
  length (alarms t) = 20%nat → stored (store t) xs → Forall fits xs → (length xs <= 20)%nat →
  ∃ t', load_alarm_from_nvs t = Some (tt, t') ∧ repr (alarms t') xs ∧ store t' = store t.
Proof.
  intros Hl [Hc Hst] Hfit Hlen. unfold load_alarm_from_nvs.
  rewrite (bind_run (get store) _ t (store t) t) by done. rewrite Hc.
  set (P := λ (i : Z) (t' : table st), store t' = store t ∧
    shows (alarms t') (λ j, if decide (Z.of_nat j < i) then xs !! j else contents (alarms t) j)).
  match goal with |- context [for_proc 0 _ ?b] =>
    destruct (for_proc_inv P b 0 20 t) as (t' & Hr & [Hs' Ha']) end.
  - split; [done|]. eapply shows_ext, shows_contents, Hl. intros i _. by case_decide; [lia|].
  - intros i t' Hi [Hs Ha]. cbv beta. destruct (Z.ltb_spec i (Z.of_nat (length xs))) as [Hlt|Hge].
    + destruct (lookup_lt_is_Some_2 xs (Z.to_nat i)) as [e E]; [lia|].
      pose proof (Hst _ _ E) as Hk. rewrite Z2Nat.id in Hk by lia.
      unfold nvs_read. rewrite Hk. cbn [from_option id].
      rewrite unpack_pack by (by eapply Forall_lookup_1).
      destruct (put_alarm_run t' _ i (of_entry e) (Some e) Ha) as (t'' & Hp & Hs'' & Ha'');
        [lia|done|]. exists t''. split; [done|]. split; [congruence|].
      eapply shows_ext, Ha''. intros j _. cbv beta. repeat case_decide; subst; done || lia.
    + destruct (get_alarm_run t' _ i Ha) as (a & Hg & _); [lia|].
      rewrite (bind_run _ _ _ _ _ Hg).
      destruct (put_alarm_run t' _ i (set_valid false a) None Ha) as (t'' & Hp & Hs'' & Ha'');
        [lia|done|]. exists t''. split; [done|]. split; [congruence|].
      eapply shows_ext, Ha''. intros j _. cbv beta. repeat case_decide; subst; try (done || lia).
      symmetry. apply lookup_ge_None. lia.
  - exists t'. split; [done|]. split; [|done]. split; [|done].
    eapply shows_ext, Ha'. intros j Hj. cbv beta. by case_decide; [|lia].
Qed.

(** ** The operations refine the list specification *)

(** The invariant: memory and store hold the list [xs]. *)
Definition holds (xs : list entry) (t : table st) : Prop :=
  repr (alarms t) xs ∧ stored (store t) xs.

(** A write followed by a save. *)
Lemma put_save_run t f xs i a o :
  shows (alarms t) f → 0 <= i < 20 → agrees a o → (length xs <= 20)%nat →
  (∀ j, (j < 20)%nat → (if decide (j = Z.to_nat i) then o else f j) = xs !! j) →
  ∃ t', bind (put_alarm i a) (λ _, save_alarm_to_nvs) t = Some (tt, t') ∧ holds xs t'.
Proof.
  intros Hs Hi Ha Hlen Hf. destruct (put_alarm_run t f i a o Hs Hi Ha) as (t1 & Hp & _ & H1).
  destruct (save_run t1 xs) as (t2 & Hsv & Hr & Hst).
  { split; [|done]. by eapply shows_ext, H1. }
  exists t2. rewrite (bind_run _ _ _ _ _ Hp). done.
Qed.

(** A loop that looks for an alarm and acts on the first one found. *)
Lemma search_run t f (c : alarm_struct → bool) (test : Z → bool)
    (act : Z → alarm_struct → M (table st) unit) :
  shows (alarms t) f →
  (∀ i a, 0 <= i < 20 → agrees a (f (Z.to_nat i)) → c a = test i) →
  (∀ i a, first_index test 0 20 = Some i → agrees a (f (Z.to_nat i)) → ∃ t', act i a t = Some (tt, t')) →
  let loop := for_ret 0 20 (λ i,
    let! a := get_alarm i in if c a then act i a ;;; ret (Some tt) else ret None) t in
  match first_index test 0 20 with
  | Some j => ∃ a t', agrees a (f (Z.to_nat j)) ∧ act j a t = Some (tt, t') ∧ loop = Some (Some tt, t')
  | None => loop = Some (None, t)
  end.
Proof.
  intros Hs Hc Hact. cbv zeta. rewrite (for_ret_search test).
  - destruct (first_index test 0 20) as [j|] eqn:Ef; [|done].
    pose proof (first_index_Some _ _ _ _ Ef) as (Hj & Ht & _).
    destruct (get_alarm_run t f j Hs Hj) as (a & Hg & Ha).
    destruct (Hact j a eq_refl Ha) as (t' & Hr). exists a, t'. split; [done|]. split; [done|].
    by rewrite (bind_run _ _ _ _ _ Hg), (Hc _ _ Hj Ha), Ht, (bind_run _ _ _ _ _ Hr).
  - intros i Hi Ht. destruct (get_alarm_run t f i Hs Hi) as (a & Hg & Ha).
    by rewrite (bind_run _ _ _ _ _ Hg), (Hc _ _ Hi Ha), Ht.
  - intros i Ef. pose proof (first_index_Some _ _ _ _ Ef) as (Hi & Ht & _).
    destruct (get_alarm_run t f i Hs Hi) as (a & Hg & Ha).
    destruct (Hact i a Ef Ha) as (t' & Hr). exists tt, t'.
    by rewrite (bind_run _ _ _ _ _ Hg), (Hc _ _ Hi Ha), Ht, (bind_run _ _ _ _ _ Hr).
Qed.

Definition match_at (w mi : Z) (xs : list entry) (i : Z) : bool :=
  match xs !! Z.to_nat i with Some e => bool_decide (same_time w mi e) | None => false end.
Definition free_at (xs : list entry) (i : Z) : bool := bool_decide (xs !! Z.to_nat i = None).

Lemma match_at_valid w mi xs i a :
  agrees a (xs !! Z.to_nat i) →
  valid a && ((weekday a =? w) && (minutes a =? mi)) = match_at w mi xs i.
Proof.
  intros Ha. unfold match_at. destruct (xs !! Z.to_nat i) as [e|]; simpl in Ha.
  - subst a. simpl. apply eq_bool_prop_intro.
    by rewrite bool_decide_spec, andb_True, !Is_true_true, !Z.eqb_eq.
  - by rewrite Ha.
Qed.

Lemma match_at_find w mi xs :
  (length xs <= 20)%nat →
  match first_index (match_at w mi xs) 0 20 with
  | Some j => ∃ e, list_find (same_time w mi) xs = Some (Z.to_nat j, e)
  | None => list_find (same_time w mi) xs = None
  end.
Proof.
  intros Hlen. destruct (first_index _ 0 20) as [j|] eqn:Ef.
  - apply first_index_Some in Ef as (Hj & Ht & Hlt). unfold match_at in Ht.
    destruct (xs !! Z.to_nat j) as [e|] eqn:E; [|done]. apply bool_decide_eq_true in Ht.
    exists e. apply list_find_Some. split; [done|]. split; [done|]. intros k y Hk Hkj Hy.
    specialize (Hlt (Z.of_nat k) ltac:(lia)). unfold match_at in Hlt.
    rewrite Nat2Z.id, Hk in Hlt. by apply bool_decide_eq_false in Hlt.
  - apply list_find_None, Forall_lookup. intros k y Hk Hy.
    pose proof (first_index_None _ _ _ Ef (Z.of_nat k)) as Hf. unfold match_at in Hf.
    rewrite Nat2Z.id, Hk in Hf. apply lookup_lt_Some in Hk.
    by apply bool_decide_eq_false in Hf; [|lia].
Qed.

Lemma free_at_find xs :
  (length xs <= 20)%nat →
  first_index (free_at xs) 0 20 =
    if decide (length xs < 20)%nat then Some (Z.of_nat (length xs)) else None.
Proof.
  intros Hlen. destruct (first_index _ 0 20) as [j|] eqn:Ef.
  - apply first_index_Some in Ef as (Hj & Ht & Hlt). unfold free_at in *.
    apply bool_decide_eq_true, lookup_ge_None in Ht.
    rewrite decide_True by lia. f_equal.
    destruct (decide (Z.of_nat (length xs) < j)); [|lia].
    specialize (Hlt (Z.of_nat (length xs)) ltac:(lia)). apply bool_decide_eq_false in Hlt.
    rewrite Nat2Z.id in Hlt. by rewrite (proj2 (lookup_ge_None _ _)) in Hlt by lia.
  - case_decide; [|done]. pose proof (first_index_None _ _ _ Ef (Z.of_nat (length xs)) ltac:(lia)) as Hf.
    unfold free_at in Hf. rewrite Nat2Z.id in Hf. apply bool_decide_eq_false in Hf.
    by rewrite (proj2 (lookup_ge_None _ _)) in Hf by lia.
Qed.

(** The two places where [csro_alarm_add] writes. *)
Lemma replace_run t xs w mi ac i a e :
  repr (alarms t) xs → 0 <= i < 20 → xs !! Z.to_nat i = Some e → same_time w mi e →
  agrees a (xs !! Z.to_nat i) →
  ∃ t', bind (put_alarm i (set_action ac a)) (λ _, save_alarm_to_nvs) t = Some (tt, t') ∧
    holds (<[Z.to_nat i := mkEntry w mi ac]> xs) t'.
Proof.
  intros [Hs Hlen] Hi E [<- <-] Ha. rewrite E in Ha. simpl in Ha. subst a.
  apply (put_save_run t (λ i, xs !! i) _ i _ (Some (mkEntry (e_weekday e) (e_minutes e) ac)));
    [done..|by rewrite length_insert|].
  intros j _. cbv beta. case_decide as Ej.
  - subst j. symmetry. apply list_lookup_insert_eq. by eapply lookup_lt_Some.
  - by rewrite list_lookup_insert_ne.
Qed.

Lemma append_run t xs w mi ac :
  repr (alarms t) xs → (length xs < 20)%nat →
  ∃ t', bind (put_alarm (Z.of_nat (length xs)) (mkAlarm true w mi ac)) (λ _, save_alarm_to_nvs) t
      = Some (tt, t') ∧ holds (xs ++ [mkEntry w mi ac]) t'.
Proof.
  intros [Hs Hlen] Hlt.
  apply (put_save_run t (λ i, xs !! i) _ _ _ (Some (mkEntry w mi ac))); [done|lia|done|..].
  - rewrite length_app. simpl. lia.
  - intros j _. cbv beta. rewrite Nat2Z.id. case_decide as Ej.
    + subst j. by rewrite lookup_app_r, Nat.sub_diag by done.
    + destruct (decide (j < length xs)%nat); [by rewrite lookup_app_l|].
      rewrite !(proj2 (lookup_ge_None _ _)); [done|rewrite length_app; simpl; lia|lia].
Qed.

Lemma add_run t xs w mi ac :
  holds xs t → ∃ t', csro_alarm_add w mi ac t = Some (tt, t') ∧
    holds (spec_add (u8 w) (u16 mi) (u16 ac) xs) t'.
Proof.
  intros [Hr Hst]. pose proof Hr as [Hs Hlen]. unfold csro_alarm_add, spec_add.
  change (Z.to_nat ALARM_NUMBER) with 20%nat.
  set (w' := u8 w). set (mi' := u16 mi). set (ac' := u16 ac). cbv zeta.
  assert (Hrep : ∀ i a, first_index (match_at w' mi' xs) 0 20 = Some i → agrees a (xs !! Z.to_nat i) →
    ∃ t', bind (put_alarm i (set_action ac' a)) (λ _, save_alarm_to_nvs) t = Some (tt, t') ∧
      holds (<[Z.to_nat i := mkEntry w' mi' ac']> xs) t').
  { intros i a (Hi & Ht & _)%first_index_Some Ha. unfold match_at in Ht.
    destruct (xs !! Z.to_nat i) as [e|] eqn:E; [|done].
    apply bool_decide_eq_true in Ht. eapply replace_run; try done. by rewrite E. }
  pose proof (search_run t (λ i, xs !! i) _ (match_at w' mi' xs)
    (λ i a, put_alarm i (set_action ac' a) ;;; save_alarm_to_nvs) Hs
    (λ i a _, match_at_valid w' mi' xs i a)) as H1.
  specialize (H1 ltac:(intros i a Ef Ha; destruct (Hrep i a Ef Ha) as (t' & ? & _); by exists t')).
  cbv zeta in H1. pose proof (match_at_find w' mi' xs Hlen) as Hf.
  destruct (first_index (match_at w' mi' xs) 0 20) as [j|].
  - destruct H1 as (a & t' & Ha & Hact & Hloop). destruct Hf as (e & ->).
    rewrite (bind_run _ _ _ _ _ Hloop). exists t'. split; [done|].
    destruct (Hrep j a eq_refl Ha) as (t2 & Hact2 & Hh). rewrite Hact in Hact2.
    by injection Hact2 as ->.
  - rewrite (bind_run _ _ _ _ _ H1), Hf. cbv match.
    pose proof (search_run t (λ i, xs !! i) (λ a, negb (valid a)) (free_at xs)
      (λ i a, put_alarm i (mkAlarm true w' mi' ac') ;;; save_alarm_to_nvs) Hs) as H2.
    rewrite (free_at_find xs Hlen) in H2. cbv zeta in H2.
    assert (Hfree : ∀ i a, 0 <= i < 20 → agrees a (xs !! Z.to_nat i) → negb (valid a) = free_at xs i).
    { intros i a _ Ha. unfold free_at. rewrite (agrees_valid _ _ Ha).
      by destruct (xs !! Z.to_nat i). }
    case_decide as Hlt.
    + destruct (append_run t xs w' mi' ac' Hr Hlt) as (t' & Happ & Hh).
      destruct (H2 Hfree) as (a & t2 & _ & Hact & Hloop); [intros i a [= <-] _; by exists t'|].
      rewrite Happ in Hact. injection Hact as <-. exists t'. split; [|done].
      by rewrite (bind_run _ _ _ _ _ Hloop).
    + exists t. rewrite (bind_run _ _ _ _ _ (H2 Hfree ltac:(done))). done.
Qed.

Lemma modify_run t xs i w mi ac :
  holds xs t → ∃ t', csro_alarm_modify i w mi ac t = Some (tt, t') ∧
    holds (spec (Modify i w mi ac) xs) t'.
Proof.
  intros [Hr Hst]. pose proof Hr as [Hs Hlen]. unfold csro_alarm_modify. cbv zeta.
  cbn [spec]. set (i' := u8 i). pose proof (u8_range i) as Hi. fold i' in Hi. unfold in_u8 in Hi.
  destruct (Z.ltb_spec (ALARM_NUMBER - 1) i') as [Hgt|Hle]; unfold ALARM_NUMBER in *.
  { exists t. split; [done|]. rewrite list_insert_ge by lia. done. }
  destruct (get_alarm_run t _ i' Hs) as (a & Hg & Ha); [lia|].
  rewrite (bind_run _ _ _ _ _ Hg). cbv beta in Ha. case_valid Ha; simpl.
  - apply (put_save_run t (λ i, xs !! i) _ _ _ (Some (mkEntry (u8 w) (u16 mi) (u16 ac))));
      [done|lia|done|by rewrite length_insert|].
    intros j _. cbv beta. case_decide as Ej.
    + subst j. symmetry. apply list_lookup_insert_eq. by apply lookup_lt_is_Some_1.
    + by rewrite list_lookup_insert_ne.
  - exists t. split; [done|]. apply eq_None_not_Some, lookup_ge_None in E.
    by rewrite list_insert_ge by lia.
Qed.

Lemma delete_ge {A} (l : list A) i : (length l <= i)%nat → delete i l = l.
Proof. intros H1. rewrite delete_take_drop, take_ge, drop_ge, app_nil_r by lia. done. Qed.

(** While entries move down the array shows a hole at position [k]. *)
Definition hole (k i : nat) (xs : list entry) (j : nat) : option entry :=
  if decide (j < k)%nat then delete i xs !! j else if decide (j = k) then None else xs !! j.

Lemma hole_next xs i k a t :
  (i <= k < 19)%nat → shows (alarms t) (hole k i xs) → agrees a (xs !! S k) → valid a = true →
  ∃ t', bind (put_alarm (Z.of_nat k) (mkAlarm true (weekday a) (minutes a) (action a)))
      (λ _, put_alarm (Z.of_nat k + 1) (set_valid false a)) t = Some (tt, t') ∧
    shows (alarms t') (hole (S k) i xs).
Proof.
  intros Hk Hs Ha Hv. rewrite (agrees_valid _ _ Ha) in Hv. apply bool_decide_eq_true in Hv as [e E].
  rewrite E in Ha. simpl in Ha. subst a. simpl.
  destruct (put_alarm_run t _ (Z.of_nat k) (of_entry e) (Some e) Hs) as (t1 & H1 & _ & Hs1); [lia|done|].
  destruct (put_alarm_run t1 _ (Z.of_nat k + 1) (set_valid false (of_entry e)) None Hs1)
    as (t2 & H2 & _ & Hs2); [lia|done|].
  exists t2. rewrite (bind_run _ _ _ _ _ H1). split; [done|].
  eapply shows_ext, Hs2. intros j Hj. cbv beta. unfold hole.
  replace (Z.to_nat (Z.of_nat k + 1)) with (S k) by lia. rewrite Nat2Z.id.
  repeat case_decide; subst; try (done || lia). by rewrite list_lookup_delete_ge, E by lia.
Qed.

Lemma shift_run t xs i :
  (i < length xs <= 20)%nat → shows (alarms t) (hole i i xs) →
  ∃ t', for_proc 0 19 (λ k,
      let! next := get_alarm (k + 1) in
      when ((Z.of_nat i <=? k) && valid next) (
        put_alarm k (mkAlarm true (weekday next) (minutes next) (action next)) ;;;
        put_alarm (k + 1) (set_valid false next))) t = Some (tt, t') ∧
    shows (alarms t') (λ j, delete i xs !! j).
Proof.
  intros Hi Hs.
  set (P := λ (k : Z) (t' : table st), shows (alarms t') (hole (i `max` Z.to_nat k) i xs)).
  match goal with |- context [for_proc 0 _ ?b] =>
    destruct (for_proc_inv P b 0 19 t) as (t' & Hr & Ha') end.
  - unfold P. by rewrite Nat.max_l by lia.
  - intros k t' Hk Hsk. unfold P in *.
    destruct (get_alarm_run t' _ (k + 1) Hsk) as (a & Hg & Ha); [lia|].
    rewrite (bind_run _ _ _ _ _ Hg).
    destruct (Z.leb_spec (Z.of_nat i) k) as [Hik|Hik]; simpl.
    2: { exists t'. split; [done|]. by rewrite Nat.max_l in * by lia. }
    rewrite Nat.max_r in * by lia. assert (Hx : agrees a (xs !! S (Z.to_nat k))).
    { revert Ha. unfold hole. replace (Z.to_nat (k + 1)) with (S (Z.to_nat k)) by lia.
      by rewrite !decide_False by lia. }
    destruct (valid a) eqn:Ev; simpl.
    + destruct (hole_next xs i (Z.to_nat k) a t') as (t2 & Hr2 & Hs2); [lia|done..|].
      exists t2. rewrite Z2Nat.id in Hr2 by lia. split; [done|].
      by replace (Z.to_nat (k + 1)) with (S (Z.to_nat k)) by lia.
    + exists t'. split; [done|]. replace (Z.to_nat (k + 1)) with (S (Z.to_nat k)) by lia.
      rewrite (agrees_valid _ _ Hx) in Ev.
      apply bool_decide_eq_false, eq_None_not_Some in Ev. eapply shows_ext, Hsk.
      intros j Hj. unfold hole.
      repeat case_decide; subst; try (done || lia). by rewrite list_lookup_delete_ge, Ev by lia.
  - exists t'. split; [done|]. eapply shows_ext, Ha'. intros j Hj. unfold hole.
    change (Z.to_nat (0 + Z.of_nat 19)) with 19%nat.
    destruct (decide (j < i `max` 19)%nat); [done|].
    assert (delete i xs !! j = None) as ->; [|by case_decide; [|lia]].
    apply lookup_ge_None. rewrite length_delete by (apply lookup_lt_is_Some_2; lia). lia.
Qed.

Lemma delete_run t xs i :
  holds xs t → ∃ t', csro_alarm_delete i t = Some (tt, t') ∧ holds (spec (Delete i) xs) t'.
Proof.
  intros [Hr Hst]. pose proof Hr as [Hs Hlen]. unfold csro_alarm_delete. cbv zeta.
  cbn [spec]. set (i' := u8 i). pose proof (u8_range i) as Hi. fold i' in Hi. unfold in_u8 in Hi.
  destruct (Z.ltb_spec (ALARM_NUMBER - 1) i') as [Hgt|Hle].
  { unfold ALARM_NUMBER in Hgt. exists t. split; [done|]. rewrite delete_ge by lia. done. }
  unfold ALARM_NUMBER in Hle. destruct (get_alarm_run t _ i' Hs) as (a & Hg & Ha); [lia|].
  rewrite (bind_run _ _ _ _ _ Hg). cbv beta in Ha. case_valid Ha; simpl.
  - destruct E as [e E]. apply lookup_lt_Some in E as Hlt.
    destruct (put_alarm_run t _ i' (set_valid false a) None Hs) as (t1 & Hp & _ & Hs1); [lia|done|].
    rewrite (bind_run _ _ _ _ _ Hp).
    destruct (shift_run t1 xs (Z.to_nat i')) as (t2 & Hl & Hs2); [lia|..].
    { eapply shows_ext, Hs1. intros j _. cbv beta. unfold hole. case_decide as Ej.
      - subst j. by rewrite decide_False by lia.
      - case_decide; [|done]. symmetry. by apply list_lookup_delete_lt. }
    change (Z.to_nat (ALARM_NUMBER - 1)) with 19%nat. rewrite Z2Nat.id in Hl by lia.
    rewrite (bind_run _ _ _ _ _ Hl).
    destruct (save_run t2 (delete (Z.to_nat i') xs)) as (t3 & Hsv & Hh).
    + split; [done|]. rewrite length_delete by done. lia.
    + exists t3. done.
  - exists t. split; [done|]. apply eq_None_not_Some, lookup_ge_None in E. by rewrite delete_ge.
Qed.

Lemma clear_run t xs :
  holds xs t → ∃ t', csro_alarm_clear t = Some (tt, t') ∧ holds [] t'.
Proof.
  intros [[Hs Hlen] Hst]. unfold csro_alarm_clear. change (Z.to_nat ALARM_NUMBER) with 20%nat.
  set (P := λ (k : Z) (t' : table st),
    shows (alarms t') (λ j, if decide (Z.of_nat j < k) then None else xs !! j)).
  match goal with |- context [for_proc 0 _ ?b] =>
    destruct (for_proc_inv P b 0 20 t) as (t' & Hr & Ha') end.
  - eapply shows_ext, Hs. intros j _. by rewrite decide_False by lia.
  - intros k t' Hk Hsk. destruct (get_alarm_run t' _ k Hsk) as (a & Hg & _); [lia|].
    rewrite (bind_run _ _ _ _ _ Hg).
    destruct (put_alarm_run t' _ k (set_valid false a) None Hsk) as (t2 & Hp & _ & Hs2); [lia|done|].
    exists t2. split; [done|]. eapply shows_ext, Hs2. intros j _. cbv beta.
    repeat case_decide; subst; done || lia.
  - rewrite (bind_run _ _ _ _ _ Hr). destruct (save_run t' []) as (t2 & Hsv & Hh).
    + split; [|simpl; lia]. eapply shows_ext, Ha'. intros j Hj. cbv beta.
      by rewrite decide_True by lia.
    + exists t2. done.
Qed.

Lemma run_run t xs c : holds xs t → ∃ t', run c t = Some (tt, t') ∧ holds (spec c xs) t'.
Proof.
  destruct c; [apply add_run|apply modify_run|apply delete_run|apply clear_run].
Qed.

Lemma run_all_run t xs cs :
  holds xs t → ∃ t', run_all cs t = Some (tt, t') ∧ holds (foldl (λ xs c, spec c xs) xs cs) t'.
Proof.
  revert t xs. induction cs as [|c cs IH]; intros t xs Hh; simpl; [by exists t|].
  destruct (run_run t xs c Hh) as (t1 & Hr & Hh1). rewrite (bind_run _ _ _ _ _ Hr). by apply IH.
Qed.

(** Boot of a device whose store holds the list [xs]. *)
Lemma boot_run t xs :
  length (alarms t) = 20%nat → stored (store t) xs → Forall fits xs → (length xs <= 20)%nat →
  ∃ t', load_alarm_from_nvs t = Some (tt, t') ∧ holds xs t' ∧ store t' = store t.
Proof.
  intros Hl Hst Hf Hlen. destruct (load_run t xs Hl Hst Hf Hlen) as (t' & Hr & Hrep & Hs).
  exists t'. split; [done|]. split; [|done]. split; [done|]. by rewrite Hs.
Qed.

(** A command whose arguments fit the packed word. *)
Definition command_fits (c : command) : Prop :=
  match c with
  | Add w mi ac | Modify _ w mi ac => fits (mkEntry (u8 w) (u16 mi) (u16 ac))
  | _ => True
  end.
#[global] Instance command_fits_dec c : Decision (command_fits c).
Proof. destruct c; apply _. Defined.

Lemma spec_fits c xs : command_fits c → Forall fits xs → Forall fits (spec c xs).
Proof.
  intros Hc Hx. destruct c as [w mi ac|i w mi ac|i|]; cbn [spec command_fits] in *.
  - unfold spec_add. destruct (list_find _ xs) as [[i e]|]; [by apply Forall_insert|].
    case_decide; [|done]. apply Forall_app. split; [done|]. by apply Forall_singleton.
  - by apply Forall_insert.
  - by apply Forall_delete.
  - by apply Forall_nil_2.
Qed.

Lemma specs_fit cs xs :
  Forall command_fits cs → Forall fits xs → Forall fits (foldl (λ xs c, spec c xs) xs cs).
Proof.
  intros Hc. revert xs. induction Hc as [|c cs Hc Hcs IH]; intros xs Hx; simpl; [done|].
  by apply IH, spec_fits.
Qed.

(** Whatever word is read back, its fields fit. *)
Lemma unpack_fits v : ∃ e, unpack v = of_entry e ∧ fits e.
Proof.
  exists (mkEntry (weekday (unpack v)) (minutes (unpack v)) (action (unpack v))).
  split; [done|]. unfold fits, unpack. cbn [weekday minutes action e_weekday e_minutes e_action].
  assert (Hw : 0 <= Z.shiftr (Z.land v 0xFE000000) 25 < 2 ^ 7).
  { rewrite Z.shiftr_land. change (Z.shiftr 0xFE000000 25) with (Z.ones 7).
    rewrite Z.land_ones by lia. by apply Z.mod_pos_bound. }
  assert (Hm : 0 <= Z.shiftr (Z.land v 0x01FFC000) 14 < 2 ^ 11).
  { rewrite Z.shiftr_land. change (Z.shiftr 0x01FFC000 14) with (Z.ones 11).
    rewrite Z.land_ones by lia. by apply Z.mod_pos_bound. }
  assert (Ha : 0 <= Z.land v 0x00003FFF < 2 ^ 14).
  { change 0x00003FFF with (Z.ones 14). rewrite Z.land_ones by lia. by apply Z.mod_pos_bound. }
  rewrite u8_id, !u16_id by (unfold in_u8, in_u16; lia). done.
Qed.

(** ** What the operations leave alone

    The size of the array, and whatever does not depend on the namespace
    "alarms". *)
Definition ignores_alarms (P : st → Prop) : Prop :=
  ∀ (k : nvs_key) x s, k.1.1 = "alarms"%string → P s → P (nvs_set k x s).
Definition frame (P : st → Prop) (t : table st) : Prop := length (alarms t) = 20%nat ∧ P (store t).

Section Frame.
Context (P : st → Prop) (HP : ignores_alarms P).

Lemma get_alarm_frame i : keeps (frame P) (get_alarm i).
Proof. unfold get_alarm. keep. Qed.
Lemma put_alarm_frame i a : keeps (frame P) (put_alarm i a).
Proof.
  intros t r t' [Hl Hk] (l & t1 & [= <- <-] & (l' & t2 & Hw & [= _ <-])%bind_Some_inv)%bind_Some_inv.
  unfold lift in Hw. destruct (wr (alarms t) i a) as [l1|] eqn:E; [|done]. injection Hw as <- <-.
  apply wr_inv in E as (_ & _ & E). split; [by rewrite <- Hl|done].
Qed.
Lemma put_store_frame k x : k.1.1 = "alarms"%string → keeps (frame P) (put_store (nvs_set k x)).
Proof. intros Hk. apply keeps_modify. intros t [Hl Hv]. split; [done|]. by apply HP. Qed.
#[local] Hint Resolve get_alarm_frame put_alarm_frame : keeps.

Lemma save_loop_frame n i c : keeps (frame P) (save_loop n i c).
Proof.
  revert i c. induction n as [|n IH]; intros i c; cbn; [apply keeps_ret|].
  apply keeps_bind; [auto with keeps|intros a]. destruct (valid a); [|apply keeps_ret].
  apply keeps_bind; [by apply put_store_frame|intros; apply IH].
Qed.
Lemma save_frame : keeps (frame P) save_alarm_to_nvs.
Proof. apply keeps_bind; [apply save_loop_frame|intros; by apply put_store_frame]. Qed.
#[local] Hint Resolve save_frame : keeps.

Lemma load_frame : keeps (frame P) load_alarm_from_nvs.
Proof. unfold load_alarm_from_nvs. keep. Qed.

Lemma run_frame c : keeps (frame P) (run c).
Proof.
  destruct c; cbn [run]; unfold csro_alarm_add, csro_alarm_modify, csro_alarm_delete, csro_alarm_clear; keep.
Qed.
End Frame.

(** C18: Booted on a store without alarms, the alarm table behaves as a list of
    at most twenty entries under every sequence of add, modify, delete and
    clear commands: no command faults, "add" replaces the action of the entry
    with the same time or appends when there is room, "modify" overwrites,
    "delete" closes the gap, and the array holds exactly the entries of the
    list, in order, followed by free positions. *)
Theorem alarm_table_refines (t : table st) (cs : list command) :
  length (alarms t) = 20%nat → nvs_get count_key (store t) = None →
  ∃ t0 t1, load_alarm_from_nvs t = Some (tt, t0) ∧ run_all cs t0 = Some (tt, t1) ∧
    repr (alarms t1) (foldl (λ xs c, spec c xs) [] cs).
Proof.
  intros Hl Hc. destruct (boot_run t [] Hl) as (t0 & Hb & Hh & _);
    [|by apply Forall_nil_2|simpl; lia|].
  { split; [unfold nvs_read; by rewrite Hc|]. by intros i e. }
  destruct (run_all_run t0 [] cs Hh) as (t1 & Hr & Hrep & _). by exists t0, t1.
Qed.

(** C22: The alarms survive a restart: after any sequence of commands whose
    arguments fit the fields of the packed word, a boot on the same store, with
    whatever the memory of the array holds, restores the same list. *)
Theorem alarms_survive_restart (t t1 : table st) (xs : list entry) (cs : list command) (al : list alarm_struct) :
  holds xs t → Forall fits xs → Forall command_fits cs →
  run_all cs t = Some (tt, t1) → length al = 20%nat →
  ∃ t2, load_alarm_from_nvs (mkTable al (store t1)) = Some (tt, t2) ∧
    repr (alarms t2) (foldl (λ xs c, spec c xs) xs cs) ∧ repr (alarms t1) (foldl (λ xs c, spec c xs) xs cs).
Proof.
  intros Hh Hx Hc Hr Hl. destruct (run_all_run t xs cs Hh) as (t1' & Hr' & Hrep & Hst).
  rewrite Hr in Hr'. injection Hr' as <-.
  destruct (boot_run (mkTable al (store t1)) _ Hl Hst (specs_fit cs xs Hc Hx) (proj2 Hrep))
    as (t2 & Hb & [Hrep2 _] & _). by exists t2.
Qed.

(** The word an alarm is kept as gives the alarm back exactly when its
    weekday mask has 7 bits, its minute 11 and its action 14; [csro_alarm_add]
    and [csro_alarm_modify] accept 8, 16 and 16 bits, and any other alarm comes
    back from a restart as a different one. *)
Theorem alarm_word_roundtrip_iff (e : entry) : unpack (pack (of_entry e)) = of_entry e ↔ fits e.
Proof.
  split; [|apply unpack_pack]. intros Hu. destruct (unpack_fits (pack (of_entry e))) as (e' & He & Hf).
  rewrite Hu in He. unfold of_entry in He. destruct e, e'. simpl in He. by injection He as -> -> ->.
Qed.
End Alarm.

Definition demo_table : table (gmap nvs_key Z) := mkTable (replicate 20 (mkAlarm true 9 9 9)) ∅.
Definition demo_commands : list command :=
  [Add 0x7F 480 3; Add 1 60 5; Add 0x7F 480 9; Modify 1 2 61 6; Add 3 10 1; Delete 0].

Lemma alarm_table_refines_witness : ∃ t0 t1,
  load_alarm_from_nvs demo_table = Some (tt, t0) ∧ run_all demo_commands t0 = Some (tt, t1) ∧
  repr (alarms t1) [mkEntry 2 61 6; mkEntry 3 10 1].
Proof. apply (alarm_table_refines demo_table demo_commands); vm_compute; reflexivity. Defined.

Definition demo_off : table (gmap nvs_key Z) := mkTable (replicate 20 (mkAlarm false 0 0 0)) ∅.
Definition demo_run : table (gmap nvs_key Z) :=
  match run_all demo_commands demo_off with Some (_, t) => t | None => demo_table end.

Lemma demo_off_holds : holds [] demo_off.
Proof.
  split; [|split; [vm_compute; reflexivity|by intros i e]].
  split; [|simpl; lia]. split; [done|]. intros i a E.
  apply lookup_replicate in E as [-> _]. done.
Qed.

Lemma alarms_survive_restart_witness : ∃ t2,
  load_alarm_from_nvs (mkTable (replicate 20 (mkAlarm true 9 9 9)) (store demo_run)) = Some (tt, t2) ∧
  repr (alarms t2) [mkEntry 2 61 6; mkEntry 3 10 1] ∧ repr (alarms demo_run) [mkEntry 2 61 6; mkEntry 3 10 1].
Proof.
  apply (alarms_survive_restart demo_off demo_run [] demo_commands).
  - apply demo_off_holds.
  - apply Forall_nil_2.
  - apply (bool_decide_unpack _). vm_compute. done.
  - destruct (run_all_run demo_off [] demo_commands demo_off_holds) as (t & E & _).
    unfold demo_run. rewrite E. reflexivity.
  - reflexivity.
Defined.
End Alarm.

(** * The clock *)
Module Clock.
Import Libc Alarm.

Record datetime_struct := mkDatetime {
  time_on : Z; time_conn : Z; time_now : Z; time_run : Z; time_info : tm; time_str : string }.

(** The globals of the file; [console] is what [debug] has printed about
    alarms: weekday, minute of the day and action. *)
Record state (st : Type) := mkState {
  datetime : datetime_struct; time_sync : bool; tbl : table st; console : list (Z * Z * Z) }.
#[global] Arguments mkState {st}.
#[global] Arguments datetime {st}.
#[global] Arguments time_sync {st}.
#[global] Arguments tbl {st}.
#[global] Arguments console {st}.

Section Clock.
Context `{Nvs st}.

Definition put_datetime (f : datetime_struct → datetime_struct) : M (state st) unit :=
  modify (λ s, mkState (f (datetime s)) (time_sync s) (tbl s) (console s)).
Definition set_time_sync (b : bool) : M (state st) unit :=
  modify (λ s, mkState (datetime s) b (tbl s) (console s)).
Definition debug (line : Z * Z * Z) : M (state st) unit :=
  modify (λ s, mkState (datetime s) (time_sync s) (tbl s) (console s ++ [line])).

Definition set_on (t : Z) (d : datetime_struct) :=
  mkDatetime t (time_conn d) (time_now d) (time_run d) (time_info d) (time_str d).
Definition set_now (t : Z) (d : datetime_struct) :=
  mkDatetime (time_on d) (time_conn d) t (time_run d) (time_info d) (time_str d).
Definition set_run (t : Z) (d : datetime_struct) :=
  mkDatetime (time_on d) (time_conn d) (time_now d) t (time_info d) (time_str d).
Definition set_info (i : tm) (d : datetime_struct) :=
  mkDatetime (time_on d) (time_conn d) (time_now d) (time_run d) i (time_str d).

Definition is_due (now_weekday now_minutes : Z) (a : alarm_struct) : bool :=
  (valid a && (minutes a =? now_minutes)) &&
  (Z.land (weekday a) (Z.shiftl 1 now_weekday) =? Z.shiftl 1 now_weekday).

Definition datetime_check_alarm : M (state st) unit :=
  let! d := get datetime in
  let now_minutes := u16 (tm_hour (time_info d) * 60 + tm_min (time_info d)) in
  let now_weekday := u8 (tm_wday (time_info d)) in
  for_proc 0 (Z.to_nat ALARM_NUMBER) (λ i,
    let! l := get (λ s, alarms (tbl s)) in
    let! a := lift (rd l i) in
    when (is_due now_weekday now_minutes a) (debug (now_weekday, now_minutes, action a))).

(** "%d-%d-%d %d:%d:%d" *)
Definition time_format : list directive :=
  [Conv_d; Literal "-"%char; Conv_d; Literal "-"%char; Conv_d; White;
   Conv_d; Literal ":"%char; Conv_d; Literal ":"%char; Conv_d].

(** [csro_datetime_set]. The array [tim] starts with what the stack holds;
    [sscanf] overwrites the members it converts. A [time_t] has 32 bits. *)
Definition csro_datetime_set (stack : list Z) (time_str : string) : M (state st) unit :=
  let scanned := u32 <$> sscanf time_format time_str in
  let tim := scanned ++ drop (length scanned) stack in
  let! t0 := lift (rd tim 0) in let! t1 := lift (rd tim 1) in let! t2 := lift (rd tim 2) in
  let! t3 := lift (rd tim 3) in let! t4 := lift (rd tim 4) in let! t5 := lift (rd tim 5) in
  if (t0 <? 2018) || (12 <? t1) || (31 <? t2) || (23 <? t3) || (59 <? t4) || (59 <? t5) then ret tt else
  let! sync := get time_sync in
  if negb sync || (t5 =? 30) then
    let! d := get datetime in
    let info := mkTm t5 t4 t3 t2 (s32 (t1 - 1)) (s32 (t0 - 1900)) (tm_wday (time_info d)) in
    let '(now, info) := mktime info in
    put_datetime (set_info info) ;;;
    put_datetime (set_now now) ;;;
    when (negb sync) (
      set_time_sync true ;;;
      put_datetime (λ d, set_on (s32 (time_now d - time_run d)) d)) ;;;
    put_datetime (λ d, set_run (s32 (time_now d - time_on d)) d)
  else ret tt.

Definition second_timer_callback : M (state st) unit :=
  put_datetime (λ d, set_run (s32 (time_run d + 1)) d) ;;;
  let! sync := get time_sync in
  when sync (
    put_datetime (λ d, set_now (s32 (time_now d + 1)) d) ;;;
    put_datetime (λ d, set_info (localtime_r (time_now d)) d) ;;;
    let! d := get datetime in
    when (tm_sec (time_info d) =? 0) datetime_check_alarm).

(** [csro_datetime_init]; [timer] is whether [xTimerCreate] got its timer. *)
Definition csro_datetime_init (timer : bool) : M (state st) unit :=
  when timer (zoom tbl (λ t s, mkState (datetime s) (time_sync s) t (console s)) load_alarm_from_nvs).

(** ** What can happen to the clock *)
Inductive event := Tick | Set_time (stack : list Z) (s : string).

Definition handle (e : event) : M (state st) unit :=
  match e with Tick => second_timer_callback | Set_time stack s => csro_datetime_set stack s end.

(** [tim] has six members. *)
Definition event_ok (e : event) : Prop :=
  match e with Tick => True | Set_time stack _ => length stack = 6%nat end.

Inductive reachable (s0 : state st) : state st → Prop :=
  | reachable_start : reachable s0 s0
  | reachable_step s e s' : reachable s0 s → event_ok e → handle e s = Some (tt, s') → reachable s0 s'.

Definition in_s32 (z : Z) : Prop := - 2 ^ 31 <= z < 2 ^ 31.

Lemma s32_range z : in_s32 (s32 z).
Proof.
  unfold in_s32, s32. pose proof (u32_range z) as Hu. unfold in_u32 in Hu.
  destruct (Z.ltb_spec (u32 z) (2 ^ 31)); lia.
Qed.

(** [s32] picks the representative modulo 2^32. *)
Lemma s32_eq a b : in_s32 a → (a - b) mod 2 ^ 32 = 0 → a = s32 b.
Proof.
  unfold in_s32, s32, u32. intros Ha Hm. destruct (Z.ltb_spec (b mod 2 ^ 32) (2 ^ 31)); dlia.
Qed.

Lemma s32_cong a : (s32 a - a) mod 2 ^ 32 = 0.
Proof. unfold s32, u32. destruct (Z.ltb_spec (a mod 2 ^ 32) (2 ^ 31)); dlia. Qed.

Lemma s32_id a : in_s32 a → s32 a = a.
Proof. intros Ha. symmetry. apply s32_eq; [done|]. by rewrite Z.sub_diag. Qed.

Definition uptime_ok (s : state st) : Prop :=
  length (alarms (tbl s)) = 20%nat ∧
  (time_sync s = true → time_run (datetime s) = s32 (time_now (datetime s) - time_on (datetime s))).

(** The alarms a check reports, in table order. *)
Definition reports (d : datetime_struct) (al : list alarm_struct) : list (Z * Z * Z) :=
  let now_minutes := u16 (tm_hour (time_info d) * 60 + tm_min (time_info d)) in
  let now_weekday := u8 (tm_wday (time_info d)) in
  (λ a, (now_weekday, now_minutes, action a)) <$> filter (λ a, is_due now_weekday now_minutes a = true) al.

Lemma check_alarm_run s :
  length (alarms (tbl s)) = 20%nat →
  datetime_check_alarm s = Some (tt, mkState (datetime s) (time_sync s) (tbl s)
    (console s ++ reports (datetime s) (alarms (tbl s)))).
Proof.
  intros Hl. unfold datetime_check_alarm. rewrite (bind_run (get datetime) _ s (datetime s) s) by done.
  cbv zeta. change (Z.to_nat ALARM_NUMBER) with 20%nat.
  match goal with |- for_proc 0 20 ?b s = _ =>
    destruct (for_proc_inv (λ i s', s' = mkState (datetime s) (time_sync s) (tbl s)
      (console s ++ reports (datetime s) (take (Z.to_nat i) (alarms (tbl s))))) b 0 20 s) as (s' & Hr & Hs') end.
  - unfold reports. simpl. rewrite app_nil_r. by destruct s.
  - intros i s' Hi ->. destruct (lookup_lt_is_Some_2 (alarms (tbl s)) (Z.to_nat i)) as [a Ea]; [lia|].
    cbn [tbl]. rewrite (bind_run (get _) _ _ (alarms (tbl s)) _) by done.
    erewrite bind_run by (apply lift_run; rewrite <- (Z2Nat.id i) by lia; rewrite rd_lookup; exact Ea).
    replace (Z.to_nat (i + 1)) with (S (Z.to_nat i)) by lia.
    rewrite (take_S_r _ _ _ Ea). unfold reports. rewrite filter_app, filter_cons, filter_nil, fmap_app.
    destruct (is_due _ _ a); cbn [when]; eexists; (split; [done|]); cbn [console datetime time_sync tbl].
    + by rewrite app_assoc.
    + by rewrite app_nil_r.
  - rewrite Hr. subst s'. rewrite take_ge; [done|]. simpl. lia.
Qed.

(** One second: the state after the timer callback. *)
Definition ticked (s : state st) : state st :=
  let d := set_run (s32 (time_run (datetime s) + 1)) (datetime s) in
  if time_sync s then
    let now := s32 (time_now d + 1) in
    let d := set_info (localtime_r now) (set_now now d) in
    mkState d true (tbl s)
      (console s ++ (if tm_sec (time_info d) =? 0 then reports d (alarms (tbl s)) else []))
  else mkState d (time_sync s) (tbl s) (console s).

Lemma tick_run s : length (alarms (tbl s)) = 20%nat → second_timer_callback s = Some (tt, ticked s).
Proof.
  intros Hl. unfold second_timer_callback, ticked. destruct s as [d sync t con]. cbn in Hl.
  unfold put_datetime at 1. unfold bind at 1, modify at 1. cbv beta. cbn [datetime time_sync tbl console].
  unfold bind at 1, get at 1. cbv beta iota. cbn [time_sync].
  destruct sync; cbn [when]; [|done].
  unfold put_datetime. unfold bind at 1, modify at 1. cbv beta. cbn [datetime time_sync tbl console].
  unfold bind at 1, modify at 1. cbv beta. cbn [datetime time_sync tbl console].
  unfold bind at 1, get at 1. cbv beta iota. cbn [datetime].
  set (d' := set_info _ _). change (tm_sec (time_info d')) with (tm_sec (localtime_r (time_now
    (set_now (s32 (time_now (set_run (s32 (time_run d + 1)) d) + 1)) (set_run (s32 (time_run d + 1)) d))))).
  destruct (_ =? 0); cbn [when]; [|by rewrite app_nil_r].
  by rewrite check_alarm_run.
Qed.

Lemma tick_uptime s : uptime_ok s → uptime_ok (ticked s).
Proof.
  intros [Hl Hu]. split; [unfold ticked; by destruct (time_sync s)|].
  unfold ticked. destruct (time_sync s) eqn:E; cbn; [|congruence]. intros _. rewrite Hu by done.
  set (n := time_now (datetime s)). set (o := time_on (datetime s)).
  apply s32_eq; [apply s32_range|].
  pose proof (s32_cong (n + 1)). pose proof (s32_cong (n - o)). pose proof (s32_cong (s32 (n - o) + 1)).
  dlia.
Qed.

(** The outcome of a synchronisation, from the six numbers of the string. *)
Definition accepted (t0 t1 t2 t3 t4 t5 : Z) : bool :=
  negb ((t0 <? 2018) || (12 <? t1) || (31 <? t2) || (23 <? t3) || (59 <? t4) || (59 <? t5)).

Definition synced (t0 t1 t2 t3 t4 t5 : Z) (s : state st) : state st :=
  let d := datetime s in
  let '(now, info) := mktime (mkTm t5 t4 t3 t2 (s32 (t1 - 1)) (s32 (t0 - 1900)) (tm_wday (time_info d))) in
  let on := if time_sync s then time_on d else s32 (now - time_run d) in
  mkState (mkDatetime on (time_conn d) now (s32 (now - on)) info (time_str d)) true (tbl s) (console s).

Lemma set_run' s stack str t0 t1 t2 t3 t4 t5 rest :
  (let scanned := u32 <$> sscanf time_format str in scanned ++ drop (length scanned) stack)
    = t0 :: t1 :: t2 :: t3 :: t4 :: t5 :: rest →
  csro_datetime_set stack str s = Some (tt,
    if accepted t0 t1 t2 t3 t4 t5 && (negb (time_sync s) || (t5 =? 30))
    then synced t0 t1 t2 t3 t4 t5 s else s).
Proof.
  cbv zeta. intros Ht. unfold csro_datetime_set. cbv zeta. rewrite Ht.
  do 6 (erewrite bind_run by (apply lift_run; reflexivity)).
  unfold accepted. destruct (_ || (59 <? t5)) eqn:Ea; cbn [negb andb]; [done|].
  unfold bind at 1, get at 1. cbv beta iota. destruct (_ || (t5 =? 30)) eqn:Eb; [|done].
  unfold bind at 1, get at 1. cbv beta iota. unfold synced.
  destruct (mktime _) as [now info]. destruct s as [d sync t con]. cbn in *.
  by destruct sync.
Qed.

Lemma set_total s stack str : length stack = 6%nat →
  ∃ t0 t1 t2 t3 t4 t5, csro_datetime_set stack str s = Some (tt,
    if accepted t0 t1 t2 t3 t4 t5 && (negb (time_sync s) || (t5 =? 30))
    then synced t0 t1 t2 t3 t4 t5 s else s).
Proof.
  intros Hl. assert (Hlen : (6 <= length ((u32 <$> sscanf time_format str) ++
    drop (length (u32 <$> sscanf time_format str)) stack))%nat).
  { rewrite length_app, length_drop. lia. }
  destruct ((u32 <$> sscanf time_format str) ++ _) as [|t0 [|t1 [|t2 [|t3 [|t4 [|t5 rest]]]]]] eqn:E;
    simpl in Hlen; try lia.
  exists t0, t1, t2, t3, t4, t5. by eapply set_run'.
Qed.

Lemma sync_uptime t0 t1 t2 t3 t4 t5 s : uptime_ok s → uptime_ok (synced t0 t1 t2 t3 t4 t5 s).
Proof.
  intros [Hl Hu]. unfold synced. destruct (mktime _) as [now info]. split; [done|]. done.
Qed.

(** C28: From the power-up state on, no second tick and no received time string
    faults, and in every reachable state with a synchronised clock the run time
    is the difference between the current time and the power-on time (in 32-bit
    arithmetic). *)
Theorem uptime_invariant (s0 s : state st) (e : event) :
  length (alarms (tbl s0)) = 20%nat → time_sync s0 = false → reachable s0 s → event_ok e →
  (∃ s', handle e s = Some (tt, s') ∧ (time_sync s = true → time_sync s' = true)) ∧
  (time_sync s = true → time_run (datetime s) = s32 (time_now (datetime s) - time_on (datetime s))).
Proof.
  intros Hl Hf Hr He. assert (Hstep : ∀ s e, uptime_ok s → event_ok e →
    ∃ s', handle e s = Some (tt, s') ∧ uptime_ok s' ∧ (time_sync s = true → time_sync s' = true)).
  { intros s1 [|stack str] Hu He1; simpl in *.
    - exists (ticked s1). rewrite tick_run by apply Hu. split; [done|].
      split; [by apply tick_uptime|]. unfold ticked. by destruct (time_sync s1).
    - destruct (set_total s1 stack str He1) as (t0 & t1 & t2 & t3 & t4 & t5 & ->).
      eexists. split; [done|]. destruct (accepted _ _ _ _ _ _ && _); [|done].
      split; [by apply sync_uptime|]. unfold synced. by destruct (mktime _). }
  assert (Hok : uptime_ok s).
  { induction Hr as [|s e' s' Hr IH He' Hh]; [split; [done|congruence]|].
    destruct (Hstep s e' IH He') as (s'' & Hh' & Hu & _). rewrite Hh in Hh'. by injection Hh' as <-. }
  split; [|apply Hok]. destruct (Hstep s e Hok He) as (s' & ? & _ & ?). by exists s'.
Qed.

(** The first well-formed time string with a real date and time sets the
    clock to exactly that date and time and fixes the power-on time; every
    second after that, up to the 32-bit limit, the clock shows one second more,
    and at second zero it reports exactly the enabled alarms of that weekday and
    minute, in table order. *)
Theorem first_sync_sets_clock (s : state st) (stack : list Z) (str : string) (y mo d h mi se : Z) :
  sscanf time_format str = [y; mo; d; h; mi; se] → length (alarms (tbl s)) = 20%nat →
  real_date y mo d → 0 <= h < 24 → 0 <= mi < 60 → 0 <= se < 60 → time_sync s = false →
  ∃ s1 s2, csro_datetime_set stack str s = Some (tt, s1) ∧ time_sync s1 = true ∧
    time_info (datetime s1) = mkTm se mi h d (mo - 1) (y - 1900)
      ((day_number y (Z.to_nat (mo - 1)) d + 4) mod 7) ∧
    time_now (datetime s1) = seconds (time_info (datetime s1)) ∧
    time_on (datetime s1) = s32 (time_now (datetime s1) - time_run (datetime s)) ∧
    second_timer_callback s1 = Some (tt, s2) ∧
    time_info (datetime s2) = localtime_r (s32 (time_now (datetime s1) + 1)) ∧
    console s2 = console s1 ++ (if tm_sec (time_info (datetime s2)) =? 0
                                then reports (datetime s2) (alarms (tbl s)) else []).
Proof.
  intros Hscan Hl Hdate Hh Hmi Hse Hsync. pose proof (real_date_day _ _ _ Hdate) as Hd31.
  pose proof (localtime_seconds y mo d h mi se (tm_wday (time_info (datetime s))) Hdate Hh Hmi Hse) as [Ht Hlt].
  destruct Hdate as (Hy & Hmo & Hd).
  assert (Hu : u32 <$> [y; mo; d; h; mi; se] = [y; mo; d; h; mi; se]).
  { cbn [fmap list_fmap]. rewrite !u32_id by (unfold in_u32; lia). done. }
  pose proof (set_run' s stack str y mo d h mi se (drop 6 stack)) as Hrun.
  rewrite Hscan, Hu in Hrun. specialize (Hrun eq_refl).
  assert (Ha : accepted y mo d h mi se = true).
  { unfold accepted. destruct (Z.ltb_spec y 2018), (Z.ltb_spec 12 mo), (Z.ltb_spec 31 d),
      (Z.ltb_spec 23 h), (Z.ltb_spec 59 mi), (Z.ltb_spec 59 se); simpl; done || lia. }
  rewrite Ha, Hsync in Hrun. cbn [negb orb andb] in Hrun.
  set (t := mkTm se mi h d (mo - 1) (y - 1900) (tm_wday (time_info (datetime s)))) in *.
  assert (Hm : mktime t = (seconds t, localtime_r (seconds t))).
  { by apply mktime_in_range. }
  rewrite Hlt in Hm. assert (Hw : seconds t = seconds (mkTm se mi h d (mo - 1) (y - 1900)
    ((day_number y (Z.to_nat (mo - 1)) d + 4) mod 7))) by apply seconds_wday.
  revert Hm Hw Hrun. unfold synced. rewrite !s32_id by (unfold in_s32; lia). fold t.
  generalize (seconds t). generalize (mktime t). clear Ht Hlt.
  generalize ((day_number y (Z.to_nat (mo - 1)) d + 4) mod 7). clear t.
  intros wd mk now -> Hw Hrun. rewrite Hsync in Hrun.
  eexists _, _. split; [exact Hrun|]. cbn [time_sync datetime time_info time_now time_on].
  split; [done|]. split; [done|]. split; [exact Hw|]. split; [done|].
  split; [apply tick_run; exact Hl|]. done.
Qed.

End Clock.

Definition demo_state : state (gmap nvs_key Z) :=
  mkState (mkDatetime 0 0 0 7 (mkTm 0 0 0 0 0 0 0) "") false
    (mkTable (mkAlarm true 0x40 556 3 :: replicate 19 (mkAlarm false 0 0 0)) ∅) [].

Lemma uptime_invariant_witness :
  (∃ s', handle (Set_time [0; 0; 0; 0; 0; 0] "2019-03-30 09:15:59") (ticked demo_state) = Some (tt, s') ∧
    (time_sync (ticked demo_state) = true → time_sync s' = true)) ∧
  (time_sync (ticked demo_state) = true → time_run (datetime (ticked demo_state)) =
    s32 (time_now (datetime (ticked demo_state)) - time_on (datetime (ticked demo_state)))).
Proof.
  apply (uptime_invariant demo_state); [done|done| |done].
  apply (reachable_step demo_state demo_state Tick); [apply reachable_start|done|vm_compute; reflexivity].
Defined.

Lemma first_sync_sets_clock_witness : ∃ s1 s2,
  csro_datetime_set [0; 0; 0; 0; 0; 0] "2019-03-30 09:15:59" demo_state = Some (tt, s1) ∧
  time_sync s1 = true ∧ time_info (datetime s1) = mkTm 59 15 9 30 2 119 6 ∧
  time_now (datetime s1) = seconds (time_info (datetime s1)) ∧
  time_on (datetime s1) = s32 (time_now (datetime s1) - 7) ∧
  second_timer_callback s1 = Some (tt, s2) ∧
  time_info (datetime s2) = localtime_r (s32 (time_now (datetime s1) + 1)) ∧
  console s2 = console s1 ++ (if tm_sec (time_info (datetime s2)) =? 0
    then reports (datetime s2) (alarms (tbl demo_state)) else []).
Proof.
  apply (first_sync_sets_clock demo_state _ _ 2019 3 30 9 15 59); [vm_compute; reflexivity|done| |lia..|done].
  apply (bool_decide_unpack _). vm_compute. done.
Defined.
End Clock.
