(* ===== verification/Base64.v ===== *)
(** Base64: [components/util/src/base64.c].

    The two routines work on caller-supplied buffers; every read of [src] and
    every write of [dst] goes through [rd] and [wr], so a step outside a buffer
    is a fault. A failed [assert] is a fault too. *)
From S2P Require Import Prelude.

Module Base64.

Definition ENOBUFS : Z := 105.
Definition EINVAL : Z := 22.

Definition s_base64_enc_lut : list Z := [
  0x44434241; 0x48474645; 0x4c4b4a49; 0x504f4e4d;
  0x54535251; 0x58575655; 0x62615a59; 0x66656463;
  0x6a696867; 0x6e6d6c6b; 0x7271706f; 0x76757473;
  0x7a797877; 0x33323130; 0x37363534; 0x2f2b3938 ].

Definition s_base64_dec_lut : list Z := [
  0x7f7f7f7f; 0x7f7f7f7f; 0x7f7f7f7f; 0x7f7f7f7f;
  0x7f7f7f7f; 0x7f7f7f7f; 0x7f7f7f7f; 0x7f7f7f7f;
  0x7f7f7f7f; 0x7f7f7f7f; 0x3e7f7f7f; 0x3f7f7f7f;
  0x37363534; 0x3b3a3938; 0x7f7f3d3c; 0x7f7f407f;
  0x0201007f; 0x06050403; 0x0a090807; 0x0e0d0c0b;
  0x1211100f; 0x16151413; 0x7f191817; 0x7f7f7f7f;
  0x1c1b1a7f; 0x201f1e1d; 0x24232221; 0x28272625;
  0x2c2b2a29; 0x302f2e2d; 0x7f333231; 0x7f7f7f7f ].

(** [cache_t]: the byte [u8d[off]] of the little-endian word [u32d]. *)
Definition u8d (u32d off : Z) : Z := u8 (Z.shiftr u32d (8 * off)).

Definition __map_base64_enc_data (index : Z) : option Z :=
  let index := u8 index in
  w ← rd s_base64_enc_lut (index / 4); Some (u8d w (index mod 4)).
Definition __map_base64_dec_data (index : Z) : option Z :=
  let index := u8 index in
  w ← rd s_base64_dec_lut (index / 4); Some (u8d w (index mod 4)).

(** [*p++ = v]. *)
Definition put (v : Z) (s : Z * list Z) : option (Z * list Z) :=
  let '(p, dst) := s in dst ← wr dst p (u8 v); Some (p + 1, dst).
(** [*p++ = __map_base64_enc_data(v)]. *)
Definition put_enc (v : Z) (s : Z * list Z) : option (Z * list Z) :=
  c ← __map_base64_enc_data v; put c s.

(** [esp_base64_encode]: the value returned and the destination buffer. *)
Definition esp_base64_encode (src : list Z) (slen : Z) (dst : list Z) (dlen : Z)
  : option (Z * list Z) :=
  if (dlen =? 0) || (slen =? 0) then None else
  let n := u32 (slen / 3 + (if slen mod 3 =? 0 then 0 else 1)) in
  let n := u32 (n * 4) in
  if dlen <? u32 (n + 1) then Some (- ENOBUFS, dst) else
  let n := u32 (slen / 3 * 3) in
  s ← for_up 0 (Z.to_nat (n / 3)) (λ k s,
        C1 ← rd src (3 * k); C2 ← rd src (3 * k + 1); C3 ← rd src (3 * k + 2);
        s ← put_enc (Z.land (Z.shiftr C1 2) 0x3F) s;
        s ← put_enc (Z.land (Z.shiftl (Z.land C1 3) 4 + Z.shiftr C2 4) 0x3F) s;
        s ← put_enc (Z.land (Z.shiftl (Z.land C2 15) 2 + Z.shiftr C3 6) 0x3F) s;
        put_enc (Z.land C3 0x3F) s) (0, dst);
  s ← (if n <? slen then
         C1 ← rd src n;
         C2 ← (if n + 1 <? slen then rd src (n + 1) else Some 0);
         s ← put_enc (Z.land (Z.shiftr C1 2) 0x3F) s;
         s ← put_enc (Z.land (Z.shiftl (Z.land C1 3) 4 + Z.shiftr C2 4) 0x3F) s;
         s ← (if n + 1 <? slen then put_enc (Z.land (Z.shiftl (Z.land C2 15) 2) 0x3F) s
              else put 61 s);
         put 61 s
       else Some s);
  let '(p, dst) := s in
  dst ← wr dst p 0; Some (p, dst).

(** The inner loop of the first pass: skip spaces, counting them. *)
Fixpoint skip_spaces (fuel : nat) (src : list Z) (slen i x : Z) : option (Z * Z) :=
  match fuel with
  | O => Some (i, x)
  | Datatypes.S fuel =>
      if i <? slen then
        c ← rd src i; if c =? 32 then skip_spaces fuel src slen (i + 1) (x + 1) else Some (i, x)
      else Some (i, x)
  end.

(** The first pass, from position [i] with [n] characters and [j] padding
    characters seen: an error ([inl]) or the final [i], [n] and [j]. Every
    iteration and every space skipped advances [i], so [slen] rounds do. *)
Fixpoint check_pass (fuel : nat) (src : list Z) (slen i n j : Z) : option (Z + Z * Z * Z) :=
  match fuel with
  | O => Some (inr (i, n, j))
  | Datatypes.S fuel' =>
      if slen <=? i then Some (inr (i, n, j)) else
      '(i, x) ← skip_spaces fuel src slen i 0;
      if i =? slen then Some (inr (i, n, j)) else
      c ← rd src i;
      crlf ← (if (2 <=? slen - i) && (c =? 13) then c' ← rd src (i + 1); Some (c' =? 10) else Some false);
      if (crlf : bool) then check_pass fuel' src slen (i + 1) n j else
      if c =? 10 then check_pass fuel' src slen (i + 1) n j else
      if negb (x =? 0) then Some (inl (- EINVAL)) else
      let j := if c =? 61 then j + 1 else j in
      if (c =? 61) && (2 <? j) then Some (inl (- EINVAL)) else
      if 127 <? c then Some (inl (- EINVAL)) else
      d ← __map_base64_dec_data c;
      if d =? 127 then Some (inl (- EINVAL)) else
      if (d <? 64) && negb (j =? 0) then Some (inl (- EINVAL)) else
      check_pass fuel' src slen (i + 1) (n + 1) j
  end.

(** The second pass: [i] characters left, the next one at [k]. *)
Fixpoint out_pass (i : nat) (src : list Z) (k j n x : Z) (s : Z * list Z) : option (Z * list Z) :=
  match i with
  | O => Some s
  | Datatypes.S i =>
      c ← rd src k;
      if (c =? 13) || (c =? 10) || (c =? 32) then out_pass i src (k + 1) j n x s else
      d ← __map_base64_dec_data c;
      let j := u32 (j - (if d =? 64 then 1 else 0)) in
      let x := u32 (Z.lor (Z.shiftl x 6) (Z.land d 0x3F)) in
      if n + 1 =? 4 then
        s ← (if 0 <? j then put (Z.shiftr x 16) s else Some s);
        s ← (if 1 <? j then put (Z.shiftr x 8) s else Some s);
        s ← (if 2 <? j then put x s else Some s);
        out_pass i src (k + 1) j 0 x s
      else out_pass i src (k + 1) j (n + 1) x s
  end.

(** [esp_base64_decode]. *)
Definition esp_base64_decode (src : list Z) (slen : Z) (dst : list Z) (dlen : Z)
  : option (Z * list Z) :=
  if (dlen =? 0) || (slen =? 0) then None else
  r ← check_pass (Z.to_nat slen) src slen 0 0 0;
  match r with
  | inl e => Some (e, dst)
  | inr (i, n, j) =>
      if n =? 0 then Some (- EINVAL, dst) else
      let n := u32 (6 * Z.shiftr n 3 + Z.shiftr (6 * Z.land n 0x7 + 7) 3) in
      let n := u32 (n - j) in
      if dlen <? n then Some (- ENOBUFS, dst) else
      out_pass (Z.to_nat i) src 0 3 0 0 (0, dst)
  end.

Definition text (s : string) : list Z := (λ c, Z.of_N (Ascii.N_of_ascii c)) <$> String.list_ascii_of_string s.

Example encode_ex : esp_base64_encode (text "light") 5 (replicate 9 0) 9 = Some (8, text "bGlnaHQ=" ++ [0]).
Proof. vm_compute. reflexivity. Qed.

Example decode_ex : esp_base64_decode (text "bGln aHQ=") 9 (replicate 9 0) 9 = Some (-22, replicate 9 0).
Proof. vm_compute. reflexivity. Qed.

Example decode_ex2 : esp_base64_decode (text "bGlnaHQ=  ") 10 (replicate 5 0) 5 = Some (5, text "light").
Proof. vm_compute. reflexivity. Qed.

(** ** The two tables *)

(** The character for a six bit value, and the value of a character. *)
Definition sym (v : Z) : Z := default 0 (__map_base64_enc_data v).
Definition val (c : Z) : Z := default 127 (__map_base64_dec_data c).
Definition blank (c : Z) : bool := (c =? 13) || (c =? 10) || (c =? 32).

Lemma tables_checked :
  forallb (λ v, let v := Z.of_nat v in
    bool_decide (__map_base64_enc_data v = Some (sym v)) && (val (sym v) =? v) &&
    negb (blank (sym v)) && negb (sym v =? 61) && (sym v <=? 127) && (0 <=? sym v)) (seq 0 64) = true ∧
  forallb (λ c, let c := Z.of_nat c in
    bool_decide (__map_base64_dec_data c = Some (val c)) &&
    ((val c <? 64) || (val c =? 64) || (val c =? 127)) && (0 <=? val c) &&
    eqb (val c =? 64) (c =? 61)) (seq 0 128) = true.
Proof. split; vm_compute; reflexivity. Qed.

Lemma sym_ok v : 0 <= v < 64 →
  __map_base64_enc_data v = Some (sym v) ∧ val (sym v) = v ∧ blank (sym v) = false ∧
  sym v ≠ 61 ∧ 0 <= sym v <= 127.
Proof.
  intros Hv. destruct tables_checked as [Ht _]. rewrite forallb_forall in Ht.
  specialize (Ht (Z.to_nat v)). rewrite in_seq, Z2Nat.id in Ht by lia. specialize (Ht ltac:(lia)).
  cbv zeta in Ht. rewrite !andb_true_iff, !negb_true_iff, bool_decide_eq_true in Ht.
  destruct Ht as (((((H1 & H2) & H3) & H4) & H5) & H6). repeat split; [done|lia|done|lia..].
Qed.

Lemma val_ok c : 0 <= c <= 127 →
  __map_base64_dec_data c = Some (val c) ∧ (0 <= val c < 64 ∨ val c = 64 ∨ val c = 127) ∧
  (val c =? 64) = (c =? 61).
Proof.
  intros Hc. destruct tables_checked as [_ Ht]. rewrite forallb_forall in Ht.
  specialize (Ht (Z.to_nat c)). rewrite in_seq, Z2Nat.id in Ht by lia. specialize (Ht ltac:(lia)).
  cbv zeta in Ht. rewrite !andb_true_iff, bool_decide_eq_true, !orb_true_iff in Ht.
  destruct Ht as (((H1 & H2) & H3) & H4). apply eqb_prop in H4. split; [done|]. split; [lia|done].
Qed.

(** ** Writing front to back *)

(** The destination after [out] has been written over its start. *)
Definition buf (out dst : list Z) : Z * list Z :=
  (Z.of_nat (length out), out ++ drop (length out) dst).

Lemma put_run v out dst :
  (length out < length dst)%nat → put v (buf out dst) = Some (buf (out ++ [u8 v]) dst).
Proof.
  intros Hlt. unfold put, buf. rewrite wr_Some by (rewrite length_app, length_drop; lia).
  cbn [mbind option_bind]. rewrite Nat2Z.id, insert_app_r_alt, Nat.sub_diag by done.
  destruct (lookup_lt_is_Some_2 dst (length out)) as [x Hx]; [done|].
  rewrite (drop_S _ _ _ Hx). cbn. rewrite length_app, Nat.add_1_r. cbn. f_equal. f_equal; [lia|].
  by rewrite <- app_assoc.
Qed.

Lemma put_enc_run v out dst :
  0 <= v < 64 → (length out < length dst)%nat → put_enc v (buf out dst) = Some (buf (out ++ [sym v]) dst).
Proof.
  intros Hv Hlt. destruct (sym_ok v Hv) as (E & _ & _ & _ & Hr). unfold put_enc. rewrite E.
  cbn [mbind option_bind]. rewrite put_run by done. by rewrite u8_id by (unfold in_u8; lia).
Qed.

(** ** The reference encoder *)

Fixpoint encode (msg : list Z) : list Z :=
  match msg with
  | a :: b :: c :: rest =>
      sym (a / 4) :: sym (a mod 4 * 16 + b / 16) :: sym (b mod 16 * 4 + c / 64) :: sym (c mod 64)
      :: encode rest
  | [a; b] => [sym (a / 4); sym (a mod 4 * 16 + b / 16); sym (b mod 16 * 4); 61]
  | [a] => [sym (a / 4); sym (a mod 4 * 16); 61; 61]
  | [] => []
  end.

(** Induction three bytes at a time. *)
Lemma triples_ind (P : list Z → Prop) :
  P [] → (∀ a, P [a]) → (∀ a b, P [a; b]) →
  (∀ a b c l, P l → P (a :: b :: c :: l)) → ∀ l, P l.
Proof.
  intros H0 H1 H2 H3. fix IH 1. intros [|a [|b [|c l]]]; [done|done|done|]. by apply H3.
Qed.

Lemma encode_app k a b : length a = (3 * k)%nat → encode (a ++ b) = encode a ++ encode b.
Proof.
  revert a. induction k as [|k IH]; intros a Ha.
  - by destruct a.
  - destruct a as [|x [|y [|z a]]]; cbn [length] in Ha; try lia.
    cbn [app encode]. by rewrite IH by lia.
Qed.

Lemma encode_length msg : Z.of_nat (length (encode msg)) = 4 * ((Z.of_nat (length msg) + 2) / 3).
Proof.
  induction msg as [|a|a b|a b c l IH] using triples_ind; [done..|].
  cbn [encode length]. rewrite !Nat2Z.inj_succ, IH.
  replace (Z.succ (Z.succ (Z.succ (Z.of_nat (length l)))) + 2)
    with (Z.of_nat (length l) + 2 + 1 * 3) by lia. rewrite Z.div_add by lia. lia.
Qed.

(** The four six bit groups of three bytes, as the code computes them. *)
Lemma groups a b c : in_u8 a → in_u8 b → in_u8 c →
  Z.land (Z.shiftr a 2) 0x3F = a / 4 ∧
  Z.land (Z.shiftl (Z.land a 3) 4 + Z.shiftr b 4) 0x3F = a mod 4 * 16 + b / 16 ∧
  Z.land (Z.shiftl (Z.land b 15) 2 + Z.shiftr c 6) 0x3F = b mod 16 * 4 + c / 64 ∧
  Z.land c 0x3F = c mod 64.
Proof.
  unfold in_u8. intros Ha Hb Hc. change 0x3F with (Z.ones 6). change 3 with (Z.ones 2).
  change 15 with (Z.ones 4). rewrite !Z.land_ones, !Z.shiftr_div_pow2, !Z.shiftl_mul_pow2 by lia.
  repeat split; dlia.
Qed.

Lemma groups_range a b c : in_u8 a → in_u8 b → in_u8 c →
  0 <= a / 4 < 64 ∧ 0 <= a mod 4 * 16 + b / 16 < 64 ∧ 0 <= b mod 16 * 4 + c / 64 < 64 ∧ 0 <= c mod 64 < 64.
Proof. unfold in_u8. intros Ha Hb Hc. repeat split; dlia. Qed.

Section Encode.
Context (src dst : list Z) (slen dlen : Z).
Context (Hsrc : Forall in_u8 src) (Hslen : Z.of_nat (length src) = slen) (Hdlen : Z.of_nat (length dst) = dlen).
Context (Hpos : 0 < slen < 2 ^ 31).

Lemma rd_src i : 0 <= i < slen → ∃ c, rd src i = Some c ∧ src !! Z.to_nat i = Some c ∧ in_u8 c.
Proof.
  intros Hi. destruct (lookup_lt_is_Some_2 src (Z.to_nat i)) as [c Hc]; [lia|].
  exists c. rewrite <- (Z2Nat.id i) at 1 by lia. rewrite rd_lookup. split; [done|]. split; [done|].
  by eapply Forall_lookup_1.
Qed.

(** Four characters for the three bytes at [3 * k]. *)
Lemma encode_group k out :
  0 <= 3 * k → 3 * k + 3 <= slen → (length out + 4 <= length dst)%nat →
  ∃ a b c, take 3 (drop (Z.to_nat (3 * k)) src) = [a; b; c] ∧
    (C1 ← rd src (3 * k); C2 ← rd src (3 * k + 1); C3 ← rd src (3 * k + 2);
     s ← put_enc (Z.land (Z.shiftr C1 2) 0x3F) (buf out dst);
     s ← put_enc (Z.land (Z.shiftl (Z.land C1 3) 4 + Z.shiftr C2 4) 0x3F) s;
     s ← put_enc (Z.land (Z.shiftl (Z.land C2 15) 2 + Z.shiftr C3 6) 0x3F) s;
     put_enc (Z.land C3 0x3F) s) = Some (buf (out ++ encode [a; b; c]) dst).
Proof.
  intros Hk Hk3 Hout.
  destruct (rd_src (3 * k)) as (a & Ea & La & Ha); [lia|].
  destruct (rd_src (3 * k + 1)) as (b & Eb & Lb & Hb); [lia|].
  destruct (rd_src (3 * k + 2)) as (c & Ec & Lc & Hc); [lia|].
  exists a, b, c. split.
  - rewrite (drop_S _ _ _ La). replace (S (Z.to_nat (3 * k))) with (Z.to_nat (3 * k + 1)) by lia.
    rewrite (drop_S _ _ _ Lb). replace (S (Z.to_nat (3 * k + 1))) with (Z.to_nat (3 * k + 2)) by lia.
    by rewrite (drop_S _ _ _ Lc).
  - rewrite Ea, Eb, Ec. cbn [mbind option_bind].
    destruct (groups a b c Ha Hb Hc) as (-> & -> & -> & ->).
    destruct (groups_range a b c Ha Hb Hc) as (R1 & R2 & R3 & R4).
    rewrite put_enc_run by (done || lia). cbn [mbind option_bind].
    rewrite put_enc_run by (done || (rewrite length_app; simpl; lia)). cbn [mbind option_bind].
    rewrite put_enc_run by (done || (rewrite !length_app; simpl; lia)). cbn [mbind option_bind].
    rewrite put_enc_run by (done || (rewrite !length_app; simpl; lia)).
    by rewrite <- !app_assoc.
Qed.

Lemma take_groups k :
  0 <= k → 3 * k + 3 <= slen →
  take (Z.to_nat (3 * (k + 1))) src = take (Z.to_nat (3 * k)) src ++ take 3 (drop (Z.to_nat (3 * k)) src).
Proof.
  intros Hk Hk3. rewrite take_take_drop. f_equal. lia.
Qed.

(** The main loop. *)
Lemma encode_loop :
  4 * ((slen + 2) / 3) + 1 <= dlen →
  for_up 0 (Z.to_nat (slen / 3)) (λ k s,
    C1 ← rd src (3 * k); C2 ← rd src (3 * k + 1); C3 ← rd src (3 * k + 2);
    s ← put_enc (Z.land (Z.shiftr C1 2) 0x3F) s;
    s ← put_enc (Z.land (Z.shiftl (Z.land C1 3) 4 + Z.shiftr C2 4) 0x3F) s;
    s ← put_enc (Z.land (Z.shiftl (Z.land C2 15) 2 + Z.shiftr C3 6) 0x3F) s;
    put_enc (Z.land C3 0x3F) s) (buf [] dst)
  = Some (buf (encode (take (Z.to_nat (3 * (slen / 3))) src)) dst).
Proof.
  intros Hd. match goal with |- for_up 0 _ ?f _ = _ =>
    destruct (for_up_inv (λ k s, s = buf (encode (take (Z.to_nat (3 * k)) src)) dst) f 0
      (Z.to_nat (slen / 3)) (buf [] dst)) as (s' & Hr & Hs') end.
  - done.
  - intros k s Hk ->. rewrite Z2Nat.id in Hk by dlia.
    assert (Hlen : Z.of_nat (length (encode (take (Z.to_nat (3 * k)) src))) = 4 * k).
    { rewrite encode_length, length_take, Nat.min_l by dlia. rewrite Z2Nat.id by lia.
      replace (3 * k + 2) with (2 + k * 3) by lia. rewrite Z.div_add by lia. change (2 / 3) with 0. lia. }
    destruct (encode_group k (encode (take (Z.to_nat (3 * k)) src))) as (a & b & c & Ht & Hg); [lia|dlia..|].
    eexists. split; [exact Hg|]. rewrite take_groups, Ht by dlia.
    rewrite (encode_app (Z.to_nat k)); [done|]. rewrite length_take. dlia.
  - rewrite Hr, Hs'. do 5 f_equal. dlia.
Qed.

(** The last one or two bytes and the padding. *)
Lemma encode_tail (q : Z) out :
  q = slen / 3 → Z.of_nat (length out) = 4 * q → 4 * ((slen + 2) / 3) + 1 <= dlen →
  (if 3 * q <? slen then
     C1 ← rd src (3 * q);
     C2 ← (if 3 * q + 1 <? slen then rd src (3 * q + 1) else Some 0);
     s ← put_enc (Z.land (Z.shiftr C1 2) 0x3F) (buf out dst);
     s ← put_enc (Z.land (Z.shiftl (Z.land C1 3) 4 + Z.shiftr C2 4) 0x3F) s;
     s ← (if 3 * q + 1 <? slen then put_enc (Z.land (Z.shiftl (Z.land C2 15) 2) 0x3F) s
          else put 61 s);
     put 61 s
   else Some (buf out dst)) = Some (buf (out ++ encode (drop (Z.to_nat (3 * q)) src)) dst).
Proof.
  intros Hq Hout Hd. assert (0 <= q) by dlia.
  destruct (Z.ltb_spec (3 * q) slen) as [Hlt|Hge].
  2: { rewrite drop_ge by lia. simpl. by rewrite app_nil_r. }
  destruct (rd_src (3 * q)) as (a & Ea & La & Ha); [lia|].
  rewrite Ea. cbn [mbind option_bind]. rewrite (drop_S _ _ _ La).
  assert (Hroom : (length out + 4 <= length dst)%nat) by dlia.
  destruct (Z.ltb_spec (3 * q + 1) slen) as [Hlt2|Hge2].
  - destruct (rd_src (3 * q + 1)) as (b & Eb & Lb & Hb); [lia|].
    rewrite Eb. cbn [mbind option_bind].
    destruct (groups a b 0 Ha Hb) as (-> & -> & _ & _); [unfold in_u8; lia|].
    assert (Z.land (Z.shiftl (Z.land b 15) 2) 63 = b mod 16 * 4) as ->.
    { unfold in_u8 in *. change 63 with (Z.ones 6). change 15 with (Z.ones 4).
      rewrite !Z.land_ones, !Z.shiftl_mul_pow2 by lia. dlia. }
    destruct (groups_range a b 0 Ha Hb) as (R1 & R2 & R3 & _); [unfold in_u8; lia|].
    replace (0 / 64) with 0 in R3 by done. rewrite Z.add_0_r in R3.
    rewrite put_enc_run by (done || lia). cbn [mbind option_bind].
    rewrite put_enc_run by (done || (rewrite length_app; simpl; lia)). cbn [mbind option_bind].
    rewrite put_enc_run by (done || (rewrite !length_app; simpl; lia)). cbn [mbind option_bind].
    rewrite put_run by (rewrite !length_app; simpl; lia).
    replace (S (Z.to_nat (3 * q))) with (Z.to_nat (3 * q + 1)) by lia.
    rewrite (drop_S _ _ _ Lb), drop_ge by dlia. by rewrite <- !app_assoc.
  - cbn [mbind option_bind]. destruct (groups a 0 0 Ha) as (-> & -> & _ & _); [unfold in_u8; lia..|].
    destruct (groups_range a 0 0 Ha) as (R1 & R2 & _ & _); [unfold in_u8; lia..|].
    rewrite put_enc_run by (done || lia). cbn [mbind option_bind].
    rewrite put_enc_run by (done || (rewrite length_app; simpl; lia)). cbn [mbind option_bind].
    rewrite put_run by (rewrite !length_app; simpl; lia). cbn [mbind option_bind].
    rewrite put_run by (rewrite !length_app; simpl; lia).
    rewrite drop_ge by lia. rewrite <- !app_assoc. cbn [encode app].
    by replace (a mod 4 * 16 + 0 / 16) with (a mod 4 * 16) by (change (0 / 16) with 0; lia).
Qed.

Lemma encode_run :
  0 < dlen →
  esp_base64_encode src slen dst dlen =
    if dlen <? 4 * ((slen + 2) / 3) + 1 then Some (- ENOBUFS, dst)
    else Some (Z.of_nat (length (encode src)),
               encode src ++ 0 :: drop (S (length (encode src))) dst).
Proof.
  intros Hd0. unfold esp_base64_encode.
  destruct (Z.eqb_spec dlen 0), (Z.eqb_spec slen 0); try lia. cbn [orb].
  assert (Hn : u32 (u32 (u32 (slen / 3 + (if slen mod 3 =? 0 then 0 else 1)) * 4) + 1)
    = 4 * ((slen + 2) / 3) + 1).
  { assert (slen / 3 + (if slen mod 3 =? 0 then 0 else 1) = (slen + 2) / 3) as ->.
    { destruct (Z.eqb_spec (slen mod 3) 0); dlia. }
    rewrite (u32_id ((slen + 2) / 3)), (u32_id (_ * 4)), u32_id by (unfold in_u32; dlia). lia. }
  rewrite Hn. destruct (Z.ltb_spec dlen (4 * ((slen + 2) / 3) + 1)) as [|Hd]; [done|].
  rewrite (u32_id (slen / 3 * 3)) by (unfold in_u32; dlia). rewrite Z.div_mul by lia.
  change (0, dst) with (buf [] dst). rewrite encode_loop by done. cbn [mbind option_bind].
  assert (Hlen : Z.of_nat (length (encode (take (Z.to_nat (3 * (slen / 3))) src))) = 4 * (slen / 3)).
  { rewrite encode_length, length_take, Nat.min_l by dlia. rewrite Z2Nat.id by dlia.
    replace (3 * (slen / 3) + 2) with (2 + slen / 3 * 3) by lia. rewrite Z.div_add by lia.
    change (2 / 3) with 0. lia. }
  rewrite (Z.mul_comm (slen / 3) 3).
  rewrite (encode_tail (slen / 3)) by done. cbn [mbind option_bind].
  rewrite <- (encode_app (Z.to_nat (slen / 3))) by (rewrite length_take; dlia).
  rewrite take_drop. pose proof (encode_length src) as El. rewrite Hslen in El.
  unfold buf. rewrite wr_Some by (rewrite length_app, length_drop; dlia). cbn [mbind option_bind].
  rewrite Nat2Z.id, insert_app_r_alt, Nat.sub_diag by done.
  destruct (lookup_lt_is_Some_2 dst (length (encode src))) as [x Hx]; [dlia|].
  by rewrite (drop_S _ _ _ Hx).
Qed.
End Encode.

(** ** The first pass of the decoder *)

Definition pad (c : Z) : Z := if c =? 61 then 1 else 0.

(** What the first pass accepts once line breaks and spaces are dropped, with
    [j] padding characters before. *)
Fixpoint good (j : Z) (cs : list Z) : Prop :=
  match cs with
  | [] => True
  | c :: cs => j + pad c <= 2 ∧ 0 <= c <= 127 ∧ val c ≠ 127 ∧ (val c < 64 → j = 0) ∧ good (j + pad c) cs
  end.

Definition clean (l : list Z) : list Z := filter (λ c, blank c = false) l.
Definition pads (cs : list Z) : Z := foldr (λ c n, pad c + n) 0 cs.

Lemma clean_cons c l : clean (c :: l) = if blank c then clean l else c :: clean l.
Proof. unfold clean. rewrite filter_cons. by destruct (blank c). Qed.

(** The stores of the second pass. *)

(** The number of bytes the second pass writes for the characters [cs]. *)
Fixpoint writes (j n : Z) (cs : list Z) : Z :=
  match cs with
  | [] => 0
  | c :: cs => let j := j - pad c in
      if n =? 3 then (Z.min (Z.max j 0) 3) + writes j 0 cs else writes j (n + 1) cs
  end.

Lemma put_some v p dst : 0 <= p < Z.of_nat (length dst) →
  ∃ dst', put v (p, dst) = Some (p + 1, dst') ∧ length dst' = length dst.
Proof.
  intros Hp. unfold put. rewrite wr_Some by done. cbn. eexists. split; [done|]. apply length_insert.
Qed.

Lemma pads_nonneg cs : 0 <= pads cs.
Proof.
  induction cs as [|c cs IH]; [done|]. cbn. fold (pads cs). unfold pad. destruct (c =? 61); lia.
Qed.

(** The stores at the end of a group of four characters. *)
Lemma flush_run j x p dst :
  0 <= j <= 3 → 0 <= p → p + j <= Z.of_nat (length dst) →
  ∃ dst', (s ← (if 0 <? j then put (Z.shiftr x 16) (p, dst) else Some (p, dst));
           s ← (if 1 <? j then put (Z.shiftr x 8) s else Some s);
           if 2 <? j then put x s else Some s) = Some (p + j, dst') ∧ length dst' = length dst.
Proof.
  intros Hj Hp Hd. assert (Hcase : j = 0 ∨ j = 1 ∨ j = 2 ∨ j = 3) by lia.
  destruct Hcase as [->|[->|[->| ->]]]; cbn [Z.ltb Z.compare Pos.compare Pos.compare_cont mbind option_bind].
  - exists dst. by rewrite Z.add_0_r.
  - destruct (put_some (Z.shiftr x 16) p dst) as (d1 & -> & ?); [lia|]. by exists d1.
  - destruct (put_some (Z.shiftr x 16) p dst) as (d1 & -> & ?); [lia|]. cbn [mbind option_bind].
    destruct (put_some (Z.shiftr x 8) (p + 1) d1) as (d2 & -> & ?); [lia|]. cbn [mbind option_bind].
    exists d2. split; [by replace (p + 2) with (p + 1 + 1) by lia|congruence].
  - destruct (put_some (Z.shiftr x 16) p dst) as (d1 & -> & ?); [lia|]. cbn [mbind option_bind].
    destruct (put_some (Z.shiftr x 8) (p + 1) d1) as (d2 & -> & ?); [lia|]. cbn [mbind option_bind].
    destruct (put_some x (p + 1 + 1) d2) as (d3 & -> & ?); [lia|].
    exists d3. split; [by replace (p + 3) with (p + 1 + 1 + 1) by lia|congruence].
Qed.

Lemma writes_nonneg j n cs : 0 <= writes j n cs.
Proof.
  revert j n. induction cs as [|c cs IH]; intros j n; simpl; [done|].
  destruct (n =? 3); [specialize (IH (j - pad c) 0); lia|apply IH].
Qed.

Section Decode.
Context (src : list Z) (slen : Z).
Context (Hsrc : Forall in_u8 src) (Hslen : Z.of_nat (length src) = slen).

Lemma read_src i : 0 <= i < slen →
  ∃ c, rd src i = Some c ∧ in_u8 c ∧ drop (Z.to_nat i) src = c :: drop (Z.to_nat (i + 1)) src.
Proof.
  intros Hi. destruct (lookup_lt_is_Some_2 src (Z.to_nat i)) as [c Hc]; [lia|].
  exists c. rewrite <- (Z2Nat.id i) at 1 by lia. rewrite rd_lookup. split; [done|].
  split; [by eapply Forall_lookup_1|]. rewrite (drop_S _ _ _ Hc). do 2 f_equal. lia.
Qed.

Lemma skip_spaces_run fuel i x :
  0 <= i <= slen → slen - i <= Z.of_nat fuel →
  ∃ i', skip_spaces fuel src slen i x = Some (i', x + (i' - i)) ∧ i <= i' <= slen ∧
    clean (drop (Z.to_nat i') src) = clean (drop (Z.to_nat i) src) ∧
    (i' < slen → ∀ c, rd src i' = Some c → c ≠ 32).
Proof.
  revert i x. induction fuel as [|fuel IH]; intros i x Hi Hf; cbn [skip_spaces].
  { exists i. replace (x + (i - i)) with x by lia. repeat split; lia. }
  destruct (Z.ltb_spec i slen) as [Hlt|Hge].
  2: { exists i. replace (x + (i - i)) with x by lia. repeat split; lia. }
  destruct (read_src i) as (c & Ec & _ & Hd); [lia|]. rewrite Ec. cbn [mbind option_bind].
  destruct (Z.eqb_spec c 32) as [->|Hne].
  - destruct (IH (i + 1) (x + 1)) as (i' & Hr & Hi' & Hcl & Hn); [lia..|]. exists i'.
    rewrite Hr. split; [f_equal; f_equal; lia|]. split; [lia|]. split; [|done].
    by rewrite Hcl, Hd, clean_cons.
  - exists i. replace (x + (i - i)) with x by lia. split; [done|]. split; [lia|].
    split; [done|]. intros _ c' Hc'. congruence.
Qed.

(** The first pass never leaves [src], ends, and reports what it has seen. *)
Lemma check_pass_run fuel i n j :
  0 <= i <= slen → slen - i <= Z.of_nat fuel → j <= 2 →
  ∃ r, check_pass fuel src slen i n j = Some r ∧
    match r with
    | inl e => e = - EINVAL
    | inr (i', n', j') => i' = slen ∧ n' = n + Z.of_nat (length (clean (drop (Z.to_nat i) src))) ∧
        j' = j + pads (clean (drop (Z.to_nat i) src)) ∧ good j (clean (drop (Z.to_nat i) src))
    end.
Proof.
  revert i n j. induction fuel as [|fuel IH]; intros i n j Hi Hf Hj2.
  { cbn [check_pass]. eexists. split; [done|]. cbv beta iota.
    rewrite drop_ge by lia. unfold clean. cbn. repeat split; lia. }
  cbn [check_pass]. destruct (Z.leb_spec slen i).
  { eexists. split; [done|]. cbv beta iota. rewrite drop_ge by lia. unfold clean. cbn.
    repeat split; lia. }
  destruct (skip_spaces_run (S fuel) i 0 Hi Hf) as (i' & Hs & Hi' & <- & Hn32).
  rewrite Hs. cbn [mbind option_bind]. destruct (Z.eqb_spec i' slen) as [->|Hne].
  { eexists. split; [done|]. cbv beta iota. rewrite drop_ge by lia. unfold clean. cbn.
    repeat split; lia. }
  destruct (read_src i') as (c & Ec & Hc & Hd); [lia|]. rewrite Ec. cbn [mbind option_bind].
  specialize (Hn32 ltac:(lia) c Ec). rewrite Hd, clean_cons.
  assert (Hcrlf : ∃ b, (if (2 <=? slen - i') && (c =? 13) then c' ← rd src (i' + 1); Some (c' =? 10)
    else Some false) = Some b ∧ (b = true → c = 13)).
  { destruct (Z.leb_spec 2 (slen - i')), (Z.eqb_spec c 13); cbn [andb]; [|by exists false..].
    destruct (read_src (i' + 1)) as (c' & -> & _); [lia|]. cbn [mbind option_bind]. eauto. }
  destruct Hcrlf as (b & -> & Hb). cbn [mbind option_bind].
  destruct b.
  { rewrite (Hb eq_refl). cbn. apply IH; lia. }
  destruct (Z.eqb_spec c 10) as [->|Hn10]; [cbn; apply IH; lia|].
  destruct (Z.eqb_spec (0 + (i' - i)) 0); cbn [negb]; [|by eexists].
  assert (Hp : (if c =? 61 then j + 1 else j) = j + pad c) by (unfold pad; destruct (c =? 61); lia).
  rewrite Hp. destruct ((c =? 61) && (2 <? j + pad c)) eqn:E2; [by eexists|].
  destruct (Z.ltb_spec 127 c); [by eexists|]. unfold in_u8 in Hc.
  destruct (val_ok c) as (-> & Hval & Hpad); [lia|]. cbn [mbind option_bind].
  destruct (Z.eqb_spec (val c) 127) as [|Hn127]; [by eexists|].
  destruct ((val c <? 64) && negb (j + pad c =? 0)) eqn:E3; [by eexists|].
  assert (Hj : j + pad c <= 2).
  { revert E2. unfold pad. destruct (c =? 61); simpl; [|lia]. by destruct (Z.ltb_spec 2 (j + 1)). }
  destruct (IH (i' + 1) (n + 1) (j + pad c)) as (r & Hr & Hpost); [lia..|].
  exists r. split; [done|]. destruct r as [err|[[i2 n2] j2]]; [done|].
  destruct Hpost as (-> & -> & -> & Hg).
  assert (Hbl : blank c = false).
  { unfold blank. destruct (Z.eqb_spec c 13) as [->|]; [by destruct Hn127|].
    destruct (Z.eqb_spec c 10), (Z.eqb_spec c 32); done || lia. }
  rewrite Hbl. cbn [length pads foldr good]. fold (pads (clean (drop (Z.to_nat (i' + 1)) src))).
  split; [done|]. split; [lia|]. split; [lia|]. split; [done|]. split; [lia|]. split; [done|].
  split; [|done]. intros Hv. unfold pad in E3. rewrite <- Hpad in E3.
  destruct (Z.ltb_spec (val c) 64); [|lia]. destruct (Z.eqb_spec (val c) 64); [lia|].
  simpl in E3. destruct (Z.eqb_spec (j + 0) 0); [lia|done].
Qed.

(** A text without blanks that the first pass accepts. *)
Lemma check_pass_good fuel i n j :
  0 <= i <= slen → slen - i <= Z.of_nat fuel →
  Forall (λ c, blank c = false) (drop (Z.to_nat i) src) → good j (drop (Z.to_nat i) src) →
  check_pass fuel src slen i n j = Some (inr (slen, n + (slen - i), j + pads (drop (Z.to_nat i) src))).
Proof.
  revert i n j. induction fuel as [|fuel IH]; intros i n j Hi Hf Hbl Hg.
  { cbn [check_pass]. rewrite drop_ge by lia. cbn. do 3 f_equal; lia || f_equal; lia. }
  cbn [check_pass]. destruct (Z.leb_spec slen i).
  { rewrite drop_ge by lia. cbn. do 3 f_equal; lia || f_equal; lia. }
  destruct (read_src i) as (c & Ec & Hc & Hd); [lia|]. rewrite Hd in *.
  inversion_clear Hbl as [|? ? Hb Hbl']. destruct Hg as (Hj & Hc127 & Hv & Hv0 & Hg).
  assert (Hn : c ≠ 13 ∧ c ≠ 10 ∧ c ≠ 32).
  { revert Hb. unfold blank. destruct (Z.eqb_spec c 13), (Z.eqb_spec c 10), (Z.eqb_spec c 32); done. }
  destruct Hn as (Hn13 & Hn10 & Hn32).
  assert (skip_spaces (S fuel) src slen i 0 = Some (i, 0)) as ->.
  { cbn [skip_spaces]. destruct (Z.ltb_spec i slen); [|lia]. rewrite Ec. cbn [mbind option_bind].
    by destruct (Z.eqb_spec c 32). }
  cbn [mbind option_bind]. destruct (Z.eqb_spec i slen); [lia|]. rewrite Ec. cbn [mbind option_bind].
  destruct (Z.eqb_spec c 13); [done|]. rewrite andb_false_r. cbn [mbind option_bind].
  destruct (Z.eqb_spec c 10); [done|]. cbn [Z.eqb negb].
  replace (if c =? 61 then j + 1 else j) with (j + pad c) by (unfold pad; destruct (c =? 61); lia).
  destruct (Z.ltb_spec 2 (j + pad c)); [lia|]. rewrite andb_false_r.
  destruct (Z.ltb_spec 127 c); [lia|]. destruct (val_ok c Hc127) as (-> & Hval & Hpad).
  cbn [mbind option_bind]. destruct (Z.eqb_spec (val c) 127); [done|].
  assert ((val c <? 64) && negb (j + pad c =? 0) = false) as ->.
  { destruct (Z.ltb_spec (val c) 64); [|done]. unfold pad. rewrite <- Hpad.
    destruct (Z.eqb_spec (val c) 64); [lia|]. by rewrite Hv0. }
  rewrite IH by (done || lia). cbn [pads foldr]. fold (pads (drop (Z.to_nat (i + 1)) src)).
  do 3 f_equal; lia || f_equal; lia.
Qed.

(** ** The second pass

    It stays inside both buffers. *)
Lemma out_pass_run i k j n x p dst :
  0 <= k → k + Z.of_nat i = slen → 0 <= n <= 3 → j <= 3 →
  Forall (λ c, 0 <= c <= 127) (clean (drop (Z.to_nat k) src)) →
  pads (clean (drop (Z.to_nat k) src)) <= j →
  0 <= p → p + writes j n (clean (drop (Z.to_nat k) src)) <= Z.of_nat (length dst) →
  ∃ dst', out_pass i src k j n x (p, dst) =
      Some (p + writes j n (clean (drop (Z.to_nat k) src)), dst') ∧ length dst' = length dst.
Proof.
  revert k j n x p dst. induction i as [|i IH]; intros k j n x p dst Hk Hki Hn Hj Hcs Hpj Hp Hw; cbn [out_pass].
  { rewrite drop_ge by lia. cbn. exists dst. by rewrite Z.add_0_r. }
  destruct (read_src k) as (c & Ec & Hc & Hd); [lia|]. rewrite Ec. cbn [mbind option_bind].
  rewrite Hd, clean_cons in *. fold (blank c). destruct (blank c); [apply IH; done || lia|].
  inversion_clear Hcs as [|? ? Hc127 Hcs']. destruct (val_ok c Hc127) as (-> & Hval & Hpad).
  cbn [mbind option_bind]. rewrite Hpad. fold (pad c).
  cbn [pads foldr] in Hpj. fold (pads (clean (drop (Z.to_nat (k + 1)) src))) in Hpj.
  pose proof (pads_nonneg (clean (drop (Z.to_nat (k + 1)) src))) as Hpp.
  assert (Hpc : 0 <= pad c <= 1) by (unfold pad; destruct (c =? 61); lia).
  rewrite (u32_id (j - pad c)) by (unfold in_u32; lia). cbn [writes] in *.
  pose proof (writes_nonneg (j - pad c) 0 (clean (drop (Z.to_nat (k + 1)) src))).
  destruct (Z.eqb_spec (n + 1) 4), (Z.eqb_spec n 3); try lia; [|apply IH; done || lia].
  rewrite Z.max_l, Z.min_l in * by lia.
  destruct (flush_run (j - pad c) (u32 (Z.lor (Z.shiftl x 6) (Z.land (val c) 63))) p dst)
    as (d1 & Hf & Hl); [lia..|].
  revert Hf. set (s1 := if 0 <? j - pad c then _ else _). destruct s1 as [s2|]; [|done].
  cbn [mbind option_bind]. set (s3 := if 1 <? j - pad c then _ else _). destruct s3 as [s4|]; [|done].
  cbn [mbind option_bind]. intros ->. cbn [mbind option_bind]. rewrite Z.add_assoc, <- Hl.
  apply IH; done || lia.
Qed.
End Decode.

(** A good text goes on with a data character (before any padding) or a padding
    character, and after padding only padding follows, two in all. *)
Lemma good_cons j c cs :
  0 <= j → good j (c :: cs) → (pad c = 0 ∧ j = 0 ∧ good 0 cs) ∨ (pad c = 1 ∧ good (j + 1) cs).
Proof.
  intros Hj (Hj2 & Hc & Hv & Hv0 & Hg). destruct (val_ok c Hc) as (_ & Hval & Hpad).
  unfold pad in *. rewrite <- Hpad in *. destruct (Z.eqb_spec (val c) 64); [by right|].
  left. assert (j = 0) as -> by (apply Hv0; lia). done.
Qed.

Lemma good_padded j cs :
  1 <= j → good j cs → cs = [] ∨ (j = 1 ∧ ∃ c, cs = [c] ∧ pad c = 1).
Proof.
  intros Hj Hg. destruct cs as [|c [|c' cs]]; [by left|right|exfalso].
  - pose proof Hg as (Hle & _). destruct (good_cons j c []) as [(_ & -> & _)|(Hp & _)]; [lia|done|lia|].
    split; [lia|]. by exists c.
  - pose proof Hg as (Hle & _). destruct (good_cons j c _ ltac:(lia) Hg) as [(_ & -> & _)|(Hp & Hg')]; [lia|].
    pose proof Hg' as (Hle' & _). destruct (good_cons (j + 1) c' _ ltac:(lia) Hg') as [(_ & ? & _)|(Hp' & _)]; lia.
Qed.

Ltac good_step H :=
  lazymatch type of H with
  | good 0 (?c :: ?cs) =>
      destruct (good_cons 0 c cs ltac:(lia) H) as [(? & _ & H')|(? & H')]; clear H; rename H' into H;
      [|cbn [Z.add] in H; destruct (good_padded 1 cs ltac:(lia) H) as [->|(_ & ? & -> & ?)]]
  end.

Ltac rewrite_pads :=
  repeat match goal with H : pad ?c = _ |- context [pad ?c] => rewrite H end.

(** The bytes written never exceed the count the first pass computed. *)
Lemma writes_bound cs :
  good 0 cs → writes 3 0 cs <=
    6 * Z.shiftr (Z.of_nat (length cs)) 3 + Z.shiftr (6 * Z.land (Z.of_nat (length cs)) 7 + 7) 3 - pads cs.
Proof.
  assert (Hn : ∀ n, 0 <= n → 6 * Z.shiftr n 3 + Z.shiftr (6 * Z.land n 7 + 7) 3 = (6 * n + 7) / 8).
  { intros n Hn. change 7 with (Z.ones 3) at 1. rewrite Z.land_ones, !Z.shiftr_div_pow2 by lia. dlia. }
  rewrite Hn by lia. clear Hn.
  remember (length cs) as len eqn:El. revert cs El.
  induction (lt_wf len) as [len _ IH]. intros cs -> Hg.
  destruct cs as [|c1 cs]; [done|]. good_step Hg.
  2-3: simpl; rewrite_pads; simpl; dlia.
  destruct cs as [|c2 cs]; [simpl; rewrite_pads; dlia|]. good_step Hg.
  2-3: simpl; rewrite_pads; simpl; dlia.
  destruct cs as [|c3 cs]; [simpl; rewrite_pads; dlia|]. good_step Hg.
  2-3: simpl; rewrite_pads; simpl; dlia.
  destruct cs as [|c4 cs]; [simpl; rewrite_pads; dlia|]. good_step Hg.
  2-3: simpl; rewrite_pads; simpl; dlia.
  specialize (IH (length cs) ltac:(simpl; lia) cs eq_refl Hg).
  assert (writes 3 0 (c1 :: c2 :: c3 :: c4 :: cs) = 3 + writes 3 0 cs) as ->.
  { cbn [writes]. rewrite_pads. reflexivity. }
  cbn [pads foldr length]. fold (pads cs). rewrite_pads. rewrite !Nat2Z.inj_succ. dlia.
Qed.

Lemma good_pads j cs : j <= 2 → good j cs → j + pads cs <= 2.
Proof.
  revert j. induction cs as [|c cs IH]; intros j Hj Hg; [simpl; lia|].
  destruct Hg as (Hle & _ & _ & _ & Hg). apply IH in Hg; [|done]. simpl. fold (pads cs). lia.
Qed.

Lemma good_ascii j cs : good j cs → Forall (λ c, 0 <= c <= 127) cs.
Proof.
  revert j. induction cs as [|c cs IH]; intros j Hg; [by apply Forall_nil_2|].
  destruct Hg as (_ & Hc & _ & _ & Hg). apply Forall_cons. split; [done|]. by eapply IH.
Qed.

(** For every input text and every destination of [dlen] bytes the decoder
    finishes without reading outside the text or writing outside the
    destination, and either reports -EINVAL, reports -ENOBUFS, or returns the
    number of bytes it wrote, at most [dlen]. *)
Theorem decode_stays_in_bounds (src dst : list Z) (slen dlen : Z) :
  Forall in_u8 src → Z.of_nat (length src) = slen → Z.of_nat (length dst) = dlen →
  0 < slen < 2 ^ 30 → 0 < dlen →
  ∃ r dst', esp_base64_decode src slen dst dlen = Some (r, dst') ∧ length dst' = length dst ∧
    (r = - EINVAL ∧ dst' = dst ∨ r = - ENOBUFS ∧ dst' = dst ∨ 0 <= r <= dlen).
Proof.
  intros Hs Hsl Hdl Hpos Hd. unfold esp_base64_decode.
  destruct (Z.eqb_spec dlen 0), (Z.eqb_spec slen 0); try lia. cbn [orb].
  destruct (check_pass_run src slen Hs Hsl (Z.to_nat slen) 0 0 0) as (r & Hr & Hpost); [lia..|].
  rewrite Hr. cbn [mbind option_bind]. destruct r as [err|[[i' n'] j']].
  { exists err, dst. subst err. auto. }
  destruct Hpost as (-> & -> & -> & Hg). rewrite drop_0 in *.
  set (cs := clean src) in *. rewrite !Z.add_0_l.
  destruct (Z.eqb_spec (Z.of_nat (length cs)) 0); [by eauto 8|].
  pose proof (writes_bound cs Hg) as Hw. pose proof (writes_nonneg 3 0 cs) as Hw0.
  assert (Hcl : Z.of_nat (length cs) <= slen).
  { rewrite <- Hsl. apply inj_le, length_filter. }
  pose proof (pads_nonneg cs) as Hp0.
  set (N := 6 * Z.shiftr (Z.of_nat (length cs)) 3 + Z.shiftr (6 * Z.land (Z.of_nat (length cs)) 7 + 7) 3) in *.
  assert (HN : 0 <= N <= 2 ^ 31).
  { subst N. change (Z.land (Z.of_nat (length cs)) 7) with (Z.land (Z.of_nat (length cs)) (Z.ones 3)).
    rewrite Z.land_ones, !Z.shiftr_div_pow2 by lia. dlia. }
  rewrite (u32_id N), (u32_id (N - _)) by (unfold in_u32; lia).
  destruct (Z.ltb_spec dlen (N - pads cs)); [by eauto 8|].
  pose proof (good_pads 0 cs ltac:(lia) Hg).
  destruct (out_pass_run src slen Hs Hsl (Z.to_nat slen) 0 3 0 0 0 dst) as (dst' & Ho & Hl);
    rewrite ?drop_0; fold cs; [lia..|by eapply good_ascii|lia|lia|lia|].
  rewrite drop_0 in Ho. fold cs in Ho. rewrite Ho. eexists _, dst'. split; [done|]. split; [done|].
  right; right. lia.
Qed.

(** ** Round trip *)

(** Four accepted characters in a row, wherever the accumulator stands. *)
Lemma quad_value x a b c d :
  0 <= a < 64 → 0 <= b < 64 → 0 <= c < 64 → 0 <= d < 64 →
  let acc := λ x v, u32 (Z.lor (Z.shiftl x 6) (Z.land v 0x3F)) in
  0 <= x →
  acc (acc (acc (acc x a) b) c) d mod 2 ^ 24 = a * 2 ^ 18 + b * 2 ^ 12 + c * 2 ^ 6 + d.
Proof.
  intros Ha Hb Hc Hd. cbv beta zeta. intros Hx.
  assert (Hacc : ∀ x v, 0 <= x → 0 <= v < 64 → u32 (Z.lor (Z.shiftl x 6) (Z.land v 0x3F)) = u32 (x * 64 + v)).
  { intros y v Hy Hv. change 0x3F with (Z.ones 6). rewrite Z.land_ones, Z.shiftl_mul_pow2 by lia.
    rewrite (Z.mod_small v) by lia. rewrite Z.lor_comm, lor_fields by lia. f_equal. lia. }
  assert (Hpos : ∀ z, 0 <= u32 z) by (intros; apply u32_range).
  rewrite !Hacc by auto. unfold u32.
  rewrite !(Z.mod_eq _ (2 ^ 32)) by lia.
  generalize ((x * 64 + a) / 2 ^ 32). intros q1.
  generalize (((x * 64 + a - 2 ^ 32 * q1) * 64 + b) / 2 ^ 32). intros q2.
  generalize ((((x * 64 + a - 2 ^ 32 * q1) * 64 + b - 2 ^ 32 * q2) * 64 + c) / 2 ^ 32). intros q3.
  match goal with |- (?e - 2 ^ 32 * ?q4) mod _ = _ => generalize q4; intros q end.
  symmetry. apply (Z.mod_unique_pos _ _ (x - 2 ^ 26 * q1 - 2 ^ 20 * q2 - 2 ^ 14 * q3 - 2 ^ 8 * q)); lia.
Qed.

Lemma u8_high x : u8 (Z.shiftr x 16) = x mod 2 ^ 24 / 2 ^ 16 ∧ u8 (Z.shiftr x 8) = x mod 2 ^ 24 / 2 ^ 8 mod 2 ^ 8 ∧
  u8 x = x mod 2 ^ 24 mod 2 ^ 8.
Proof. unfold u8. rewrite !Z.shiftr_div_pow2 by lia. repeat split; dlia. Qed.

Lemma pad_sym v : 0 <= v < 64 → pad (sym v) = 0.
Proof. intros Hv. destruct (sym_ok v Hv) as (_ & _ & _ & Hne & _). unfold pad. by destruct (Z.eqb_spec (sym v) 61). Qed.

Lemma dec_sym v : 0 <= v < 64 → __map_base64_dec_data (sym v) = Some v.
Proof.
  intros Hv. destruct (sym_ok v Hv) as (_ & Hval & _ & _ & Hr).
  destruct (val_ok (sym v) Hr) as (E & _). by rewrite E, Hval.
Qed.

(** A character of the alphabet or the padding character. *)
Definition letter (c : Z) : Prop := 0 <= c <= 127 ∧ blank c = false ∧ val c <= 64.
(** Its six bits: padding counts as zero. *)
Definition six (c : Z) : Z := val c mod 64.

Lemma letter_sym v : 0 <= v < 64 → letter (sym v) ∧ six (sym v) = v.
Proof.
  intros Hv. destruct (sym_ok v Hv) as (_ & Hval & Hb & _ & Hr). unfold letter, six. rewrite Hval.
  split; [split; [done|split; [done|lia]]|]. by apply Z.mod_small.
Qed.

Lemma letter_pad : letter 61 ∧ six 61 = 0 ∧ pad 61 = 1.
Proof. split; [split; [lia|]|]; vm_compute; done. Qed.

(** The second pass on one letter. *)
Lemma out_letter i src k j n x s c rest :
  0 <= k → letter c → drop (Z.to_nat k) src = c :: rest → 0 <= j - pad c <= 3 →
  out_pass (S i) src k j n x s =
    let j := j - pad c in
    let x := u32 (Z.lor (Z.shiftl x 6) (Z.land (six c) 0x3F)) in
    if n + 1 =? 4 then
      s ← (if 0 <? j then put (Z.shiftr x 16) s else Some s);
      s ← (if 1 <? j then put (Z.shiftr x 8) s else Some s);
      s ← (if 2 <? j then put x s else Some s);
      out_pass i src (k + 1) j 0 x s
    else out_pass i src (k + 1) j (n + 1) x s.
Proof.
  intros Hk (Hc & Hb & Hv) Hd Hj. cbn [out_pass].
  assert (rd src k = Some c) as ->.
  { rewrite <- (Z2Nat.id k) by lia. rewrite rd_lookup.
    by rewrite <- (Nat.add_0_r (Z.to_nat k)), <- lookup_drop, Hd. }
  cbn [mbind option_bind]. destruct (val_ok c Hc) as (-> & Hval & Hpad).
  unfold blank in Hb. rewrite Hb. cbn [mbind option_bind]. rewrite Hpad. fold (pad c).
  rewrite (u32_id (j - pad c)) by (unfold in_u32; lia).
  assert (Z.land (val c) 63 = Z.land (six c) 63) as ->; [|done].
  unfold six. change 63 with (Z.ones 6). rewrite !Z.land_ones by lia. change (2 ^ 6) with 64.
  by rewrite Z.mod_mod by lia.
Qed.

Lemma drop_next {A} (l : list A) k c rest :
  0 <= k → drop (Z.to_nat k) l = c :: rest → drop (Z.to_nat (k + 1)) l = rest.
Proof.
  intros Hk E. replace (Z.to_nat (k + 1)) with (Z.to_nat k + 1)%nat by lia.
  by rewrite <- drop_drop, E.
Qed.

Definition group_bytes (v : Z) : list Z := [v / 2 ^ 16; v / 2 ^ 8 mod 2 ^ 8; v mod 2 ^ 8].

(** The stores at the end of a group, on a destination written front to back. *)
Lemma flush_buf {A} j x out dst (f : Z * list Z → option A) :
  1 <= j <= 3 → Z.of_nat (length out) + j <= Z.of_nat (length dst) →
  (s ← (if 0 <? j then put (Z.shiftr x 16) (buf out dst) else Some (buf out dst));
   s ← (if 1 <? j then put (Z.shiftr x 8) s else Some s);
   s ← (if 2 <? j then put x s else Some s); f s)
  = f (buf (out ++ take (Z.to_nat j) [u8 (Z.shiftr x 16); u8 (Z.shiftr x 8); u8 x]) dst).
Proof.
  intros Hj Hlen. assert (Hcase : j = 1 ∨ j = 2 ∨ j = 3) by lia.
  destruct Hcase as [->|[->| ->]]; cbn [Z.ltb Z.compare Pos.compare Pos.compare_cont].
  - rewrite put_run by lia. done.
  - rewrite put_run by lia. cbn [mbind option_bind].
    rewrite put_run by (rewrite length_app; simpl; lia). by rewrite <- app_assoc.
  - rewrite put_run by lia. cbn [mbind option_bind].
    rewrite put_run by (rewrite length_app; simpl; lia). cbn [mbind option_bind].
    rewrite put_run by (rewrite !length_app; simpl; lia). by rewrite <- !app_assoc.
Qed.

(** A group of four letters, of which the last two may be padding. *)
Lemma out_group i src k x out dst c0 c1 c2 c3 rest :
  0 <= k → 0 <= x → letter c0 → letter c1 → letter c2 → letter c3 → pad c0 = 0 → pad c1 = 0 →
  drop (Z.to_nat k) src = c0 :: c1 :: c2 :: c3 :: rest →
  let j := 3 - pad c2 - pad c3 in
  let v := six c0 * 2 ^ 18 + six c1 * 2 ^ 12 + six c2 * 2 ^ 6 + six c3 in
  Z.of_nat (length out) + j <= Z.of_nat (length dst) →
  ∃ x', 0 <= x' ∧ out_pass (S (S (S (S i)))) src k 3 0 x (buf out dst) =
    out_pass i src (k + 4) j 0 x' (buf (out ++ take (Z.to_nat j) (group_bytes v)) dst).
Proof.
  intros Hk Hx L0 L1 L2 L3 P0 P1 Hd j v Hlen.
  assert (Hp : ∀ c, 0 <= pad c <= 1) by (intros c; unfold pad; destruct (c =? 61); lia).
  pose proof (Hp c2). pose proof (Hp c3).
  assert (Hsix : ∀ c, 0 <= six c < 64) by (intros c; unfold six; apply Z.mod_pos_bound; lia).
  pose proof (drop_next _ _ _ _ Hk Hd) as D1. pose proof (drop_next _ (k + 1) _ _ ltac:(lia) D1) as D2.
  pose proof (drop_next _ (k + 1 + 1) _ _ ltac:(lia) D2) as D3.
  rewrite (out_letter _ _ _ _ _ _ _ _ _ Hk L0 Hd) by lia. cbv zeta. change (0 + 1 =? 4) with false. cbv iota.
  rewrite (out_letter _ _ (k + 1) _ _ _ _ _ _ ltac:(lia) L1 D1) by lia. cbv zeta. change (0 + 1 + 1 =? 4) with false. cbv iota.
  rewrite (out_letter _ _ (k + 1 + 1) _ _ _ _ _ _ ltac:(lia) L2 D2) by lia. cbv zeta.
  change (0 + 1 + 1 + 1 =? 4) with false. cbv iota.
  rewrite (out_letter _ _ (k + 1 + 1 + 1) _ _ _ _ _ _ ltac:(lia) L3 D3) by lia. cbv zeta.
  change (0 + 1 + 1 + 1 + 1 =? 4) with true. cbv iota.
  replace (3 - pad c0 - pad c1 - pad c2 - pad c3) with j by (subst j; lia).
  pose proof (quad_value x _ _ _ _ (Hsix c0) (Hsix c1) (Hsix c2) (Hsix c3) Hx) as Hq. cbv beta zeta in Hq.
  fold v in Hq. set (y := u32 (Z.lor (Z.shiftl _ 6) (Z.land (six c3) 63))) in *.
  exists y. split; [apply u32_range|].
  destruct (u8_high y) as (U1 & U2 & U3). rewrite Hq in U1, U2, U3.
  assert (Hj : 1 <= j <= 3) by (subst j; lia).
  rewrite flush_buf by (exact Hj || exact Hlen). rewrite U1, U2, U3.
  by replace (k + 4) with (k + 1 + 1 + 1 + 1) by lia.
Qed.

(** The bytes of the groups the encoder writes. *)
Lemma group_of_bytes a b c : in_u8 a → in_u8 b → in_u8 c →
  group_bytes (a / 4 * 2 ^ 18 + (a mod 4 * 16 + b / 16) * 2 ^ 12 + (b mod 16 * 4 + c / 64) * 2 ^ 6 + c mod 64)
  = [a; b; c].
Proof. unfold in_u8, group_bytes. intros Ha Hb Hc. repeat f_equal; dlia. Qed.

Lemma group_of_one a : in_u8 a →
  group_bytes (a / 4 * 2 ^ 18 + a mod 4 * 16 * 2 ^ 12 + 0 * 2 ^ 6 + 0) = [a; 0; 0].
Proof. unfold in_u8, group_bytes. intros Ha. repeat f_equal; dlia. Qed.
Lemma group_of_two a b : in_u8 a → in_u8 b →
  group_bytes (a / 4 * 2 ^ 18 + (a mod 4 * 16 + b / 16) * 2 ^ 12 + b mod 16 * 4 * 2 ^ 6 + 0) = [a; b; 0].
Proof. unfold in_u8, group_bytes. intros Ha Hb. repeat f_equal; dlia. Qed.

Lemma out_encode msg : ∀ src k x out dst,
  Forall in_u8 msg → 0 <= k → 0 <= x → drop (Z.to_nat k) src = encode msg →
  (length out + length msg <= length dst)%nat →
  out_pass (length (encode msg)) src k 3 0 x (buf out dst) = Some (buf (out ++ msg) dst).
Proof.
  assert (H0 : in_u8 0) by (unfold in_u8; lia). destruct letter_pad as (Lp & Sp & Pp).
  induction msg as [|a|a b|a b c l IH] using triples_ind; intros src k x out dst Hm Hk Hx Hd Hlen.
  - cbn. by rewrite app_nil_r.
  - rewrite Forall_singleton in Hm. destruct (groups_range a 0 0 Hm H0 H0) as (R1 & R2 & _ & _).
    change (0 / 16) with 0 in R2. rewrite Z.add_0_r in R2. cbn [encode length] in *.
    destruct (letter_sym _ R1) as [L1 S1], (letter_sym _ R2) as [L2 S2].
    destruct (out_group 0 src k x out dst _ _ _ _ _ Hk Hx L1 L2 Lp Lp (pad_sym _ R1) (pad_sym _ R2) Hd)
      as (x' & _ & ->); [rewrite Pp; lia|]. cbn [out_pass]. rewrite S1, S2, Sp, Pp.
    by rewrite group_of_one.
  - rewrite Forall_cons, Forall_singleton in Hm. destruct Hm as [Ha Hb].
    destruct (groups_range a b 0 Ha Hb H0) as (R1 & R2 & R3 & _).
    change (0 / 64) with 0 in R3. rewrite Z.add_0_r in R3. cbn [encode length] in *.
    destruct (letter_sym _ R1) as [L1 S1], (letter_sym _ R2) as [L2 S2], (letter_sym _ R3) as [L3 S3].
    destruct (out_group 0 src k x out dst _ _ _ _ _ Hk Hx L1 L2 L3 Lp (pad_sym _ R1) (pad_sym _ R2) Hd)
      as (x' & _ & ->); [rewrite Pp, pad_sym by done; lia|]. cbn [out_pass].
    rewrite S1, S2, S3, Sp, Pp, pad_sym by done.
    by rewrite group_of_two.
  - rewrite !Forall_cons in Hm. destruct Hm as (Ha & Hb & Hc & Hl).
    destruct (groups_range a b c Ha Hb Hc) as (R1 & R2 & R3 & R4). cbn [encode length] in *.
    destruct (letter_sym _ R1) as [L1 S1], (letter_sym _ R2) as [L2 S2],
      (letter_sym _ R3) as [L3 S3], (letter_sym _ R4) as [L4 S4].
    destruct (out_group (length (encode l)) src k x out dst _ _ _ _ _ Hk Hx L1 L2 L3 L4
      (pad_sym _ R1) (pad_sym _ R2) Hd) as (x' & Hx' & ->); [rewrite !pad_sym by done; lia|].
    rewrite S1, S2, S3, S4, !pad_sym, group_of_bytes by done.
    rewrite IH; [by rewrite <- app_assoc|done|lia|done| |rewrite length_app; simpl; lia].
    replace (Z.to_nat (k + 4)) with (Z.to_nat k + 4)%nat by lia. by rewrite <- drop_drop, Hd.
Qed.

Lemma good_encode msg : Forall in_u8 msg → good 0 (encode msg) ∧ Forall (λ c, blank c = false) (encode msg) ∧
  pads (encode msg) = 3 * ((Z.of_nat (length msg) + 2) / 3) - Z.of_nat (length msg).
Proof.
  assert (Hs : ∀ v cs, 0 <= v < 64 → good 0 cs → good 0 (sym v :: cs)).
  { intros v cs Hv Hg. destruct (sym_ok v Hv) as (_ & Hval & _ & _ & Hr). cbn [good].
    rewrite (pad_sym v Hv), Hval, Z.add_0_r. split; [lia|]. split; [done|]. split; [lia|]. done. }
  assert (Hb : ∀ v, 0 <= v < 64 → blank (sym v) = false) by (intros v Hv; by destruct (sym_ok v Hv) as (_ & _ & ? & _)).
  assert (H0 : in_u8 0) by (unfold in_u8; lia).
  assert (G1 : good 0 [61]) by (cbn; repeat split; try lia; vm_compute; done).
  assert (G2 : good 0 [61; 61]) by (cbn; repeat split; try lia; vm_compute; done).
  induction msg as [|a|a b|a b c l IH] using triples_ind; intros Hm; cbn [encode].
  - split; [done|]. split; [by apply Forall_nil_2|done].
  - rewrite Forall_singleton in Hm. destruct (groups_range a 0 0 Hm H0 H0) as (R1 & R2 & _ & _).
    change (0 / 16) with 0 in R2. rewrite Z.add_0_r in R2.
    split; [auto|]. split; [repeat (apply Forall_cons; split; [auto|]); by apply Forall_nil_2|].
    cbn [pads foldr]. by rewrite !pad_sym.
  - rewrite Forall_cons, Forall_singleton in Hm. destruct Hm as [Ha Hb'].
    destruct (groups_range a b 0 Ha Hb' H0) as (R1 & R2 & R3 & _).
    change (0 / 64) with 0 in R3. rewrite Z.add_0_r in R3.
    split; [auto|]. split; [repeat (apply Forall_cons; split; [auto|]); by apply Forall_nil_2|].
    cbn [pads foldr]. by rewrite !pad_sym.
  - rewrite !Forall_cons in Hm. destruct Hm as (Ha & Hb' & Hc & Hl).
    destruct (groups_range a b c Ha Hb' Hc) as (R1 & R2 & R3 & R4).
    destruct (IH Hl) as (Hg & Hbl & Hp). split; [auto|].
    split; [repeat (apply Forall_cons; split; [auto|]); done|].
    cbn [pads foldr length]. fold (pads (encode l)). rewrite !pad_sym, Hp, !Nat2Z.inj_succ by done.
    dlia.
Qed.

Lemma encode_u8 msg : Forall in_u8 msg → Forall in_u8 (encode msg).
Proof.
  intros Hm. destruct (good_encode msg Hm) as (Hg & _). eapply Forall_impl; [by eapply good_ascii|].
  unfold in_u8. simpl. lia.
Qed.

(** C38: Encoding a message and decoding the text gives the message back: with
    room for the text and its terminator the encoder writes the text, and with
    room for the message the decoder restores it byte for byte, both leaving
    the rest of their destination alone. On success both return the positive
    length of what they wrote; [esp_base64.h] documents 0 for it. *)
Theorem base64_roundtrip (msg txt out : list Z) (tlen olen : Z) :
  Forall in_u8 msg → 0 < Z.of_nat (length msg) < 2 ^ 29 →
  Z.of_nat (length txt) = tlen → Z.of_nat (length out) = olen →
  4 * ((Z.of_nat (length msg) + 2) / 3) < tlen → Z.of_nat (length msg) <= olen →
  ∃ n txt', esp_base64_encode msg (Z.of_nat (length msg)) txt tlen = Some (n, txt') ∧
    n = 4 * ((Z.of_nat (length msg) + 2) / 3) ∧ length txt' = length txt ∧ rd txt' n = Some 0 ∧
    esp_base64_decode (take (Z.to_nat n) txt') n out olen =
      Some (Z.of_nat (length msg), msg ++ drop (length msg) out).
Proof.
  intros Hm Hlen Ht Ho Hroom Hroom2.
  pose proof (encode_run msg txt (Z.of_nat (length msg)) tlen Hm eq_refl Ht ltac:(lia) ltac:(dlia)) as He.
  destruct (Z.ltb_spec tlen (4 * ((Z.of_nat (length msg) + 2) / 3) + 1)); [lia|].
  pose proof (encode_length msg) as El. eexists _, _. split; [exact He|]. split; [done|].
  split. { rewrite length_app. cbn [length]. rewrite length_drop. lia. }
  split. { rewrite rd_lookup, lookup_app_r, Nat.sub_diag by done. done. }
  rewrite Nat2Z.id, take_app_length. destruct (good_encode msg Hm) as (Hg & Hb & Hp).
  unfold esp_base64_decode. destruct (Z.eqb_spec olen 0), (Z.eqb_spec (Z.of_nat (length (encode msg))) 0);
    try dlia. cbn [orb]. rewrite Nat2Z.id.
  rewrite (check_pass_good (encode msg) _ (encode_u8 msg Hm) eq_refl) by (rewrite ?drop_0; done || lia).
  cbn [mbind option_bind]. rewrite drop_0, Z.sub_0_r, !Z.add_0_l, Hp, El.
  destruct (Z.eqb_spec (4 * ((Z.of_nat (length msg) + 2) / 3)) 0); [dlia|].
  assert (Hn : ∀ q, 0 <= q → 6 * Z.shiftr (4 * q) 3 + Z.shiftr (6 * Z.land (4 * q) 7 + 7) 3 = 3 * q).
  { intros q Hq. change 7 with (Z.ones 3) at 1. rewrite Z.land_ones, !Z.shiftr_div_pow2 by lia. dlia. }
  rewrite Hn, (u32_id (3 * _)), u32_id by (unfold in_u32; dlia).
  destruct (Z.ltb_spec olen (3 * ((Z.of_nat (length msg) + 2) / 3) -
    (3 * ((Z.of_nat (length msg) + 2) / 3) - Z.of_nat (length msg)))); [lia|].
  rewrite <- El, Nat2Z.id. change (0, out) with (buf [] out).
  by rewrite (out_encode msg) by (rewrite ?drop_0; done || (simpl; lia)).
Qed.

Lemma decode_stays_in_bounds_witness : ∃ r dst',
  esp_base64_decode (text "QU JD") 5 (replicate 2 7) 2 = Some (r, dst') ∧ length dst' = 2%nat ∧
  (r = - EINVAL ∧ dst' = replicate 2 7 ∨ r = - ENOBUFS ∧ dst' = replicate 2 7 ∨ 0 <= r <= 2).
Proof.
  apply (decode_stays_in_bounds (text "QU JD") (replicate 2 7) 5 2); [|done|done|lia..].
  apply (bool_decide_unpack _). vm_compute. done.
Defined.

Lemma base64_roundtrip_witness : ∃ n txt',
  esp_base64_encode (text "light") 5 (replicate 12 9) 12 = Some (n, txt') ∧ n = 8 ∧
  length txt' = 12%nat ∧ rd txt' n = Some 0 ∧
  esp_base64_decode (take (Z.to_nat n) txt') n (replicate 6 3) 6 = Some (5, text "light" ++ [3]).
Proof.
  apply (base64_roundtrip (text "light") (replicate 12 9) (replicate 6 3) 12 6);
    [|vm_compute; done|done|done|vm_compute; done|vm_compute; done].
  apply (bool_decide_unpack _). vm_compute. done.
Defined.
End Base64.
