(* ===== verification/Jsmn.v ===== *)
(** The JSON tokenizer: [components/jsmn/src/jsmn.c], as it is built here
    (neither JSMN_STRICT nor JSMN_PARENT_LINKS).

    The input is a buffer of [len] bytes and the tokens an array of
    [num_tokens] entries, or a null pointer when the caller only counts. Every
    access goes through [rd] and [wr]. A loop has the rest of the text as its
    fuel; one that has not ended by then is a fault. *)
From S2P Require Import Prelude.

Module Jsmn.

(** [jsmntype_t], a plain integer in C. *)
Definition JSMN_UNDEFINED : Z := 0.
Definition JSMN_OBJECT : Z := 1.
Definition JSMN_ARRAY : Z := 2.
Definition JSMN_STRING : Z := 3.
Definition JSMN_PRIMITIVE : Z := 4.

Definition JSMN_ERROR_NOMEM : Z := -1.
Definition JSMN_ERROR_INVAL : Z := -2.
Definition JSMN_ERROR_PART : Z := -3.

Record jsmntok_t := mkTok { type : Z; start : Z; end_ : Z; size : Z }.
Record jsmn_parser := mkParser { pos : Z; toknext : Z; toksuper : Z }.

(** The parser and the token array; [None] is a null pointer. *)
Record state := mkState { parser : jsmn_parser; tokens : option (list jsmntok_t) }.

Definition jsmn_init : jsmn_parser := mkParser 0 0 (-1).

Definition set_pos (p : Z) : M state unit :=
  modify (λ s, mkState (mkParser p (toknext (parser s)) (toksuper (parser s))) (tokens s)).
Definition set_toknext (n : Z) : M state unit :=
  modify (λ s, mkState (mkParser (pos (parser s)) n (toksuper (parser s))) (tokens s)).
Definition set_toksuper (n : Z) : M state unit :=
  modify (λ s, mkState (mkParser (pos (parser s)) (toknext (parser s)) n) (tokens s)).

Definition get_token (i : Z) : M state jsmntok_t :=
  let! ts := get tokens in lift (l ← ts; rd l i).
Definition put_token (i : Z) (t : jsmntok_t) : M state unit :=
  let! ts := get tokens in
  let! l := lift (l ← ts; wr l i t) in
  modify (λ s, mkState (parser s) (Some l)).
Definition counting : M state bool := get (λ s, match tokens s with Some _ => false | None => true end).

Section Parse.
Context (js : list Z) (len : Z) (num_tokens : Z).

(** [parser->pos < len && js[parser->pos] != '\0']. *)
Definition more (p : Z) : option bool :=
  if p <? len then c ← rd js p; Some (negb (c =? 0)) else Some false.

(** [jsmn_alloc_token]: the index of the token. *)
Definition jsmn_alloc_token : M state (option Z) :=
  let! p := get parser in
  if num_tokens <=? toknext p then ret None else
  let tok := toknext p in
  set_toknext (tok + 1) ;;;
  let! t := get_token tok in
  put_token tok (mkTok (type t) (-1) (-1) 0) ;;;
  ret (Some tok).

Definition jsmn_fill_token (token type start end_ : Z) : M state unit :=
  put_token token (mkTok type start end_ 0).

(** The scanning loop of [jsmn_parse_primitive]: whether it stopped at a
    delimiter or at the end, and the position. Here and below a loop that does
    not come to its end within the fuel is a fault. *)
Fixpoint primitive_loop (fuel : nat) (p : Z) : option (bool * Z) :=
  match fuel with
  | O => None
  | Datatypes.S fuel =>
      m ← more p;
      if negb m then Some (true, p) else
      c ← rd js p;
      if (c =? 58) || (c =? 9) || (c =? 13) || (c =? 10) || (c =? 32) || (c =? 44) || (c =? 93) || (c =? 125)
      then Some (true, p) else
      if (c <? 32) || (127 <=? c) then Some (false, p) else primitive_loop fuel (p + 1)
  end.

Definition fuel_from (p : Z) : nat := Datatypes.S (Z.to_nat (len - p)).

Definition jsmn_parse_primitive : M state Z :=
  let! p0 := get parser in
  let start := pos p0 in
  let! r := lift (primitive_loop (fuel_from start) start) in
  let '(found, p) := r in
  if negb found then set_pos start ;;; ret JSMN_ERROR_INVAL else
  set_pos p ;;;
  let! null := counting in
  if null then set_pos (u32 (p - 1)) ;;; ret 0 else
  let! token := jsmn_alloc_token in
  match token with
  | None => set_pos start ;;; ret JSMN_ERROR_NOMEM
  | Some token =>
      jsmn_fill_token token JSMN_PRIMITIVE start p ;;;
      set_pos (u32 (p - 1)) ;;;
      ret 0
  end.

Definition is_hex (c : Z) : bool :=
  ((48 <=? c) && (c <=? 57)) || ((65 <=? c) && (c <=? 70)) || ((97 <=? c) && (c <=? 102)).

(** The loop over the four digits of an escape: [inl] for a bad digit. *)
Fixpoint hex_loop (n : nat) (p : Z) : option (unit + Z) :=
  match n with
  | O => Some (inr p)
  | Datatypes.S n =>
      m ← more p;
      if negb m then Some (inr p) else
      c ← rd js p; if negb (is_hex c) then Some (inl tt) else hex_loop n (p + 1)
  end.

Inductive scanned := Quote (p : Z) | Invalid | Partial.

(** The scanning loop of [jsmn_parse_string]. *)
Fixpoint string_loop (fuel : nat) (p : Z) : option scanned :=
  match fuel with
  | O => None
  | Datatypes.S fuel =>
      m ← more p;
      if negb m then Some Partial else
      c ← rd js p;
      if c =? 34 then Some (Quote p) else
      if (c =? 92) && (p + 1 <? len) then
        c ← rd js (p + 1);
        if (c =? 34) || (c =? 47) || (c =? 92) || (c =? 98) || (c =? 102) || (c =? 114) || (c =? 110) || (c =? 116)
        then string_loop fuel (p + 2)
        else if c =? 117 then
          r ← hex_loop 4 (p + 2);
          match r with inl _ => Some Invalid | inr p => string_loop fuel (p - 1 + 1) end
        else Some Invalid
      else string_loop fuel (p + 1)
  end.

Definition jsmn_parse_string : M state Z :=
  let! p0 := get parser in
  let start := pos p0 in
  let! r := lift (string_loop (fuel_from start) (start + 1)) in
  match r with
  | Invalid => set_pos start ;;; ret JSMN_ERROR_INVAL
  | Partial => set_pos start ;;; ret JSMN_ERROR_PART
  | Quote p =>
      set_pos p ;;;
      let! null := counting in
      if null then ret 0 else
      let! token := jsmn_alloc_token in
      match token with
      | None => set_pos start ;;; ret JSMN_ERROR_NOMEM
      | Some token => jsmn_fill_token token JSMN_STRING (start + 1) p ;;; ret 0
      end
  end.

(** [token->start != -1 && token->end == -1]. *)
Definition is_open (t : jsmntok_t) : bool := negb (start t =? -1) && (end_ t =? -1).

(** [for (i = n - 1; i >= 0; i--)] looking for a token: its index, or -1. *)
Fixpoint find_down (test : jsmntok_t → bool) (n : nat) : M state Z :=
  match n with
  | O => ret (-1)
  | Datatypes.S n =>
      let! t := get_token (Z.of_nat n) in
      if test t then ret (Z.of_nat n) else find_down test n
  end.

(** [if (parser->toksuper != -1 && tokens != NULL) tokens[parser->toksuper].size++]. *)
Definition count_in_super : M state unit :=
  let! null := counting in
  let! p := get parser in
  if negb (toksuper p =? -1) && negb null then
    let! t := get_token (toksuper p) in
    put_token (toksuper p) (mkTok (type t) (start t) (end_ t) (size t + 1))
  else ret tt.

Definition open_bracket (c : Z) : M state (option Z) :=
  let! token := jsmn_alloc_token in
  match token with
  | None => ret (Some JSMN_ERROR_NOMEM)
  | Some token =>
      count_in_super ;;;
      let! p := get parser in
      let! t := get_token token in
      put_token token (mkTok (if c =? 123 then JSMN_OBJECT else JSMN_ARRAY) (pos p) (end_ t) (size t)) ;;;
      set_toksuper (toknext p - 1) ;;;
      ret None
  end.

Definition close_bracket (c : Z) : M state (option Z) :=
  let ty := if c =? 125 then JSMN_OBJECT else JSMN_ARRAY in
  let! p := get parser in
  let! i := find_down is_open (Z.to_nat (toknext p)) in
  if i =? -1 then ret (Some JSMN_ERROR_INVAL) else
  let! t := get_token i in
  if negb (type t =? ty) then ret (Some JSMN_ERROR_INVAL) else
  set_toksuper (-1) ;;;
  put_token i (mkTok (type t) (start t) (pos p + 1) (size t)) ;;;
  let! i := find_down is_open (Z.to_nat (i + 1)) in
  when (negb (i =? -1)) (set_toksuper i) ;;;
  ret None.

Definition is_container (t : jsmntok_t) : bool := (type t =? JSMN_ARRAY) || (type t =? JSMN_OBJECT).

Definition comma : M state unit :=
  let! null := counting in
  let! p := get parser in
  if null || (toksuper p =? -1) then ret tt else
  let! t := get_token (toksuper p) in
  if is_container t then ret tt else
  let! i := find_down (λ t, is_container t && is_open t) (Z.to_nat (toknext p)) in
  when (negb (i =? -1)) (set_toksuper i).

(** One character of the main loop: a result to return, or the new count. *)
Definition parse_char (c count : Z) : M state (Z + Z) :=
  let! null := counting in
  if (c =? 123) || (c =? 91) then
    if null then ret (inr (count + 1)) else
    let! r := open_bracket c in
    ret (match r with Some e => inl e | None => inr (count + 1) end)
  else if (c =? 125) || (c =? 93) then
    if null then ret (inr count) else
    let! r := close_bracket c in
    ret (match r with Some e => inl e | None => inr count end)
  else if c =? 34 then
    let! r := jsmn_parse_string in
    if r <? 0 then ret (inl r) else count_in_super ;;; ret (inr (count + 1))
  else if (c =? 9) || (c =? 13) || (c =? 10) || (c =? 32) then ret (inr count)
  else if c =? 58 then
    let! p := get parser in set_toksuper (toknext p - 1) ;;; ret (inr count)
  else if c =? 44 then comma ;;; ret (inr count)
  else
    let! r := jsmn_parse_primitive in
    if r <? 0 then ret (inl r) else count_in_super ;;; ret (inr (count + 1)).

(** The main loop; every round advances the position. *)
Fixpoint parse_loop (fuel : nat) (count : Z) : M state (Z + Z) :=
  match fuel with
  | O => fault
  | Datatypes.S fuel =>
      let! p := get parser in
      let! m := lift (more (pos p)) in
      if negb m then ret (inr count) else
      let! c := lift (rd js (pos p)) in
      let! r := parse_char c count in
      match r with
      | inl e => ret (inl e)
      | inr count =>
          let! p := get parser in
          set_pos (u32 (pos p + 1)) ;;;
          parse_loop fuel count
      end
  end.

Definition jsmn_parse : M state Z :=
  let! p := get parser in
  let! r := parse_loop (fuel_from (pos p)) (toknext p) in
  match r with
  | inl e => ret e
  | inr count =>
      let! null := counting in
      if null then ret count else
      let! p := get parser in
      let! i := find_down is_open (Z.to_nat (toknext p)) in
      ret (if i =? -1 then count else JSMN_ERROR_PART)
  end.
End Parse.

(** ** The scanning loops stay inside the buffer *)
Section Scan.
Context (js : list Z) (len : Z).
Context (Hjs : Forall in_u8 js) (Hlen : Z.of_nat (length js) = len).

Lemma char_at p : 0 <= p < len → ∃ c, rd js p = Some c ∧ in_u8 c.
Proof.
  intros Hp. destruct (rd_is_Some js p) as [c Hc]; [lia|]. exists c. split; [done|].
  by eapply rd_Forall.
Qed.

Lemma more_run p : 0 <= p <= len →
  ∃ b, more js len p = Some b ∧ (b = true → p < len ∧ ∃ c, rd js p = Some c ∧ c ≠ 0 ∧ in_u8 c).
Proof.
  intros Hp. unfold more. destruct (Z.ltb_spec p len) as [Hlt|Hge]; [|exists false; split; [done|intros [=]]].
  destruct (char_at p) as (c & E & Hc); [lia|]. rewrite E. cbn [mbind option_bind].
  exists (negb (c =? 0)). split; [done|]. destruct (Z.eqb_spec c 0); cbn [negb]; [done|]. eauto.
Qed.

Lemma primitive_loop_run fuel p :
  0 <= p <= len → len - p < Z.of_nat fuel →
  ∃ b p', primitive_loop js len fuel p = Some (b, p') ∧ p <= p' <= len.
Proof.
  revert p. induction fuel as [|fuel IH]; intros p Hp Hf; [lia|]. cbn [primitive_loop].
  destruct (more_run p Hp) as (b & -> & Hb). cbn [mbind option_bind].
  destruct b; cbn [negb]; [|exists true, p; split; [done|lia]].
  destruct (Hb eq_refl) as (Hlt & c & -> & _). cbn [mbind option_bind].
  destruct (_ || (c =? 125)); [exists true, p; split; [done|lia]|].
  destruct (_ || (127 <=? c)); [exists false, p; split; [done|lia]|].
  destruct (IH (p + 1)) as (b & p' & -> & Hr); [lia..|]. exists b, p'. split; [done|lia].
Qed.

Lemma hex_loop_run n p : 0 <= p <= len →
  ∃ r, hex_loop js len n p = Some r ∧ match r with inl _ => True | inr p' => p <= p' <= len end.
Proof.
  revert p. induction n as [|n IH]; intros p Hp; cbn [hex_loop]; [exists (inr p); split; [done|lia]|].
  destruct (more_run p Hp) as (b & -> & Hb). cbn [mbind option_bind].
  destruct b; cbn [negb]; [|exists (inr p); split; [done|lia]].
  destruct (Hb eq_refl) as (Hlt & c & -> & _). cbn [mbind option_bind].
  destruct (is_hex c); cbn [negb]; [|by exists (inl tt)].
  destruct (IH (p + 1)) as (r & -> & Hr); [lia|]. exists r. split; [done|]. destruct r; [done|lia].
Qed.

Lemma string_loop_run fuel p :
  0 <= p <= len → len - p < Z.of_nat fuel →
  ∃ r, string_loop js len fuel p = Some r ∧
    match r with Quote q => p <= q < len ∧ rd js q = Some 34 | _ => True end.
Proof.
  revert p. induction fuel as [|fuel IH]; intros p Hp Hf; [lia|]. cbn [string_loop].
  assert (Hnext : ∀ q, p < q <= len → ∃ r, string_loop js len fuel q = Some r ∧
    match r with Quote q => p <= q < len ∧ rd js q = Some 34 | _ => True end).
  { intros q Hq. destruct (IH q) as (r & -> & Hr); [lia..|]. exists r. split; [done|].
    destruct r; [|done..]. split; [lia|apply Hr]. }
  destruct (more_run p Hp) as (b & -> & Hb). cbn [mbind option_bind].
  destruct b; cbn [negb]; [|by exists Partial].
  destruct (Hb eq_refl) as (Hlt & c & Ec & _). rewrite Ec. cbn [mbind option_bind].
  destruct (Z.eqb_spec c 34) as [->|]; [exists (Quote p); repeat split; done || lia|].
  destruct ((c =? 92) && (p + 1 <? len)) eqn:Eb; [|apply Hnext; lia].
  apply andb_true_iff in Eb as [_ Hp1]. apply Z.ltb_lt in Hp1.
  destruct (char_at (p + 1)) as (c' & -> & _); [lia|]. cbn [mbind option_bind].
  destruct (_ || (c' =? 116)); [apply Hnext; lia|].
  destruct (c' =? 117); [|by exists Invalid].
  destruct (hex_loop_run 4 (p + 2)) as (r & -> & Hr); [lia|]. cbn [mbind option_bind].
  destruct r as [|q]; [by exists Invalid|]. apply Hnext. lia.
Qed.

(** The position after one character of the main loop, the same whether tokens
    are stored or only counted; [None] for a lexical error. *)
Definition opens (c : Z) : bool := (c =? 123) || (c =? 91).
Definition closes (c : Z) : bool := (c =? 125) || (c =? 93).
Definition spaces (c : Z) : bool := (c =? 9) || (c =? 13) || (c =? 10) || (c =? 32).
Definition structural (c : Z) : bool := opens c || closes c || spaces c || (c =? 58) || (c =? 44).
(** Whether a token starts at the character. *)
Definition starts_token (c : Z) : bool := opens c || negb (structural c).

Definition lex (c p : Z) : option (option Z) :=
  if structural c then Some (Some p) else
  if c =? 34 then
    r ← string_loop js len (fuel_from len p) (p + 1);
    Some (match r with Quote q => Some q | _ => None end)
  else
    '(found, q) ← primitive_loop js len (fuel_from len p) p;
    Some (if (found : bool) then Some (q - 1) else None).

Lemma primitive_loop_first p c : rd js p = Some c → 0 <= p < len → c ≠ 0 → structural c = false → c ≠ 34 →
  ∃ b q, primitive_loop js len (fuel_from len p) p = Some (b, q) ∧ q <= len ∧ (b = true → p < q).
Proof.
  intros Ec Hp Hc0 Hst Hq. unfold fuel_from.
  destruct (primitive_loop_run (S (Z.to_nat (len - p))) p) as (b & q & E & Hr); [lia..|].
  exists b, q. split; [done|]. split; [lia|]. intros ->. cbn [primitive_loop] in E.
  unfold more in E. destruct (Z.ltb_spec p len); [|lia]. rewrite Ec in E. cbn [mbind option_bind] in E.
  destruct (Z.eqb_spec c 0); [done|]. cbn [negb] in E.
  unfold structural, opens, closes, spaces in Hst. rewrite !orb_false_iff in Hst.
  destruct Hst as ((((H1 & H2) & H3) & H4) & H5). destruct H2 as [H2a H2b].
  destruct H3 as (((H3a & H3b) & H3c) & H3d).
  rewrite H4, H3a, H3b, H3c, H3d, H5, H2a, H2b in E. cbn [orb] in E.
  destruct (_ || (127 <=? c)); [done|].
  destruct (primitive_loop_run (Z.to_nat (len - p)) (p + 1)) as (b' & q' & E' & Hr'); [lia..|].
  rewrite E' in E. injection E as -> ->. lia.
Qed.

Lemma lex_run p c : rd js p = Some c → 0 <= p < len → c ≠ 0 →
  ∃ r, lex c p = Some r ∧ match r with Some q => p <= q < len | None => True end.
Proof.
  intros Ec Hp Hc0. unfold lex. destruct (structural c) eqn:Est; [exists (Some p); split; [done|lia]|].
  destruct (Z.eqb_spec c 34).
  - destruct (string_loop_run (fuel_from len p) (p + 1)) as (r & -> & Hr); [lia|unfold fuel_from; lia|].
    cbn [mbind option_bind]. eexists. split; [done|]. destruct r; [lia|done..].
  - destruct (primitive_loop_first p c) as (b & q & -> & Hq & Hb); [done..|].
    cbn [mbind option_bind]. eexists. split; [done|]. destruct b; [specialize (Hb eq_refl); lia|done].
Qed.
End Scan.

(** ** The token array *)
Section Tokens.
Context (js : list Z) (len num_tokens : Z).
Context (Hjs : Forall in_u8 js) (Hlen : Z.of_nat (length js) = len) (Hlen31 : len < 2 ^ 31).

(** What a token stored while the input is read up to [p] says about it: an
    object or an array starts at its bracket and, once closed, ends after the
    matching one; a string lies between its quotes; a primitive is not empty. *)
Definition tok_ok (p : Z) (t : jsmntok_t) : Prop :=
  0 <= start t < p ∧
  ((type t = JSMN_OBJECT ∧ rd js (start t) = Some 123 ∧
      (end_ t = -1 ∨ start t < end_ t <= p ∧ rd js (end_ t - 1) = Some 125)) ∨
   (type t = JSMN_ARRAY ∧ rd js (start t) = Some 91 ∧
      (end_ t = -1 ∨ start t < end_ t <= p ∧ rd js (end_ t - 1) = Some 93)) ∨
   (type t = JSMN_STRING ∧ rd js (start t - 1) = Some 34 ∧ rd js (end_ t) = Some 34 ∧
      start t <= end_ t <= p) ∨
   (type t = JSMN_PRIMITIVE ∧ start t < end_ t <= p)).

(** The first [n] tokens are well-formed and start in input order. *)
Definition wf (p : Z) (n : nat) (l : list jsmntok_t) : Prop :=
  ∀ i, (i < n)%nat → ∃ t, l !! i = Some t ∧ tok_ok p t ∧
    ∀ j t', (j < i)%nat → l !! j = Some t' → start t' < start t.

(** [n] tokens are stored, the input is read up to [p]. *)
Definition INV (p : Z) (n : nat) (s : state) : Prop :=
  ∃ l, tokens s = Some l ∧ Z.of_nat (length l) = num_tokens ∧ (n <= length l)%nat ∧ wf p n l ∧
    -1 <= toksuper (parser s) < Z.of_nat n.

Lemma tok_ok_mono p q t : p <= q → tok_ok p t → tok_ok q t.
Proof. unfold tok_ok. intros Hpq (Hs & Hc). split; [lia|]. intuition lia. Qed.

Lemma wf_mono p q n l : p <= q → wf p n l → wf q n l.
Proof.
  intros Hpq Hw i Hi. destruct (Hw i Hi) as (t & E & Ht & Hlt). exists t. split; [done|].
  split; [by eapply tok_ok_mono|done].
Qed.

Lemma INV_mono p q n s : p <= q → INV p n s → INV q n s.
Proof.
  intros Hpq (l & ? & ? & ? & Hw & ?). exists l. do 3 (split; [done|]). split; [|done]. by eapply wf_mono.
Qed.

Lemma INV_parser p n s s' :
  INV p n s → tokens s' = tokens s → -1 <= toksuper (parser s') < Z.of_nat n → INV p n s'.
Proof. intros (l & ? & ? & ? & ? & ?) E ?. exists l. by rewrite E. Qed.

Lemma counting_run s l : tokens s = Some l → counting s = Some (false, s).
Proof. intros E. unfold counting, get. by rewrite E. Qed.

Lemma get_token_run p n s (i : nat) :
  INV p n s → (i < n)%nat →
  ∃ l t, tokens s = Some l ∧ l !! i = Some t ∧ get_token (Z.of_nat i) s = Some (t, s) ∧ tok_ok p t.
Proof.
  intros (l & E & Hl & Hn & Hw & _) Hi. destruct (Hw i Hi) as (t & Et & Ht & _).
  exists l, t. do 2 (split; [done|]). split; [|done]. unfold get_token.
  rewrite (bind_run (get tokens) _ s (Some l) s) by (unfold get; by rewrite E).
  apply lift_run. cbn [mbind option_bind]. by rewrite rd_lookup.
Qed.

(** Replacing a stored token by one with the same start. *)
Lemma put_token_run p n s (i : nat) l t t' :
  INV p n s → (i < n)%nat → tokens s = Some l → l !! i = Some t → start t' = start t → tok_ok p t' →
  put_token (Z.of_nat i) t' s = Some (tt, mkState (parser s) (Some (<[i:=t']> l))) ∧
  INV p n (mkState (parser s) (Some (<[i:=t']> l))).
Proof.
  intros (l' & E & Hl & Hn & Hw & Hsup) Hi E' Et Hst Hok. rewrite E in E'. injection E' as ->.
  unfold put_token. rewrite (bind_run (get tokens) _ s (Some l) s) by (unfold get; by rewrite E).
  erewrite bind_run by (apply lift_run; cbn [mbind option_bind]; apply wr_Some; lia).
  rewrite Nat2Z.id. split; [done|]. eexists. split; [done|].
  split; [by rewrite length_insert|]. split; [by rewrite length_insert|]. split; [|done].
  intros k Hk. destruct (Hw k Hk) as (tk & Ek & Htk & Hlt).
  assert (Hstart : ∀ j u, (j < k)%nat → <[i:=t']> l !! j = Some u → start u < start tk).
  { intros j u Hj Hu. destruct (decide (j = i)) as [->|].
    - rewrite list_lookup_insert_eq in Hu by lia. injection Hu as <-. rewrite Hst. by eapply Hlt.
    - rewrite list_lookup_insert_ne in Hu by done. by eapply Hlt. }
  destruct (decide (k = i)) as [->|].
  - exists t'. rewrite list_lookup_insert_eq by lia. split; [done|]. split; [done|].
    rewrite Et in Ek. injection Ek as ->. rewrite Hst. done.
  - exists tk. by rewrite list_lookup_insert_ne.
Qed.

(** [jsmn_alloc_token] with room left. *)
Lemma alloc_run p n s :
  INV p n s → Z.of_nat n < num_tokens → toknext (parser s) = Z.of_nat n →
  ∃ l1 u, let s1 := mkState (mkParser (pos (parser s)) (Z.of_nat n + 1) (toksuper (parser s))) (Some l1) in
    jsmn_alloc_token num_tokens s = Some (Some (Z.of_nat n), s1) ∧
    l1 !! n = Some u ∧ end_ u = -1 ∧ size u = 0 ∧ INV p n s1.
Proof.
  intros (l & E & Hl & Hn & Hw & Hsup) Hlt Hnext.
  destruct (lookup_lt_is_Some_2 l n) as [t0 Et0]; [lia|].
  unfold jsmn_alloc_token. rewrite (bind_run (get parser) _ s (parser s) s) by done.
  rewrite Hnext. destruct (Z.leb_spec num_tokens (Z.of_nat n)); [lia|].
  set (s0 := mkState (mkParser (pos (parser s)) (Z.of_nat n + 1) (toksuper (parser s))) (Some l)).
  rewrite (bind_run (set_toknext _) _ s tt s0) by (unfold set_toknext, modify; by rewrite E).
  rewrite (bind_run (get_token _) _ s0 t0 s0).
  2: { unfold get_token. rewrite (bind_run (get tokens) _ s0 (Some l) s0) by done.
       apply lift_run. cbn [mbind option_bind]. by rewrite rd_lookup. }
  set (u := mkTok (type t0) (-1) (-1) 0). exists (<[n:=u]> l), u. cbv zeta.
  rewrite (bind_run (put_token _ _) _ s0 tt (mkState (parser s0) (Some (<[n:=u]> l)))).
  2: { unfold put_token. rewrite (bind_run (get tokens) _ s0 (Some l) s0) by done.
       erewrite bind_run by (apply lift_run; cbn [mbind option_bind]; apply wr_Some; lia).
       by rewrite Nat2Z.id. }
  split; [done|]. split; [apply list_lookup_insert_eq; lia|]. do 2 (split; [done|]).
  exists (<[n:=u]> l). rewrite !length_insert. do 3 (split; [done|]). split; [|done].
  assert (Hlow : ∀ k, (k < n)%nat → <[n:=u]> l !! k = l !! k).
  { intros k Hk. apply list_lookup_insert_ne. lia. }
  intros i Hi. destruct (Hw i Hi) as (ti & Ei & Hti & Hmin). exists ti. rewrite Hlow by lia.
  split; [done|]. split; [done|]. intros j t' Hj. rewrite Hlow by lia. by apply Hmin.
Qed.

(** Writing the token after the [n] present ones. *)
Lemma append_token_run p q n s l t :
  INV p n s → tokens s = Some l → Z.of_nat n < num_tokens → p <= q → p <= start t → tok_ok q t →
  let s' := mkState (parser s) (Some (<[n:=t]> l)) in
  put_token (Z.of_nat n) t s = Some (tt, s') ∧ INV q (S n) s'.
Proof.
  intros (l' & E & Hl & Hn & Hw & Hsup) E' Hlt Hpq Hst Hok. rewrite E in E'. injection E' as ->.
  cbv zeta. unfold put_token. rewrite (bind_run (get tokens) _ s (Some l) s) by (unfold get; by rewrite E).
  erewrite bind_run by (apply lift_run; cbn [mbind option_bind]; apply wr_Some; lia).
  rewrite Nat2Z.id. split; [done|]. exists (<[n:=t]> l). split; [done|]. rewrite !length_insert.
  split; [done|]. split; [lia|]. cbn [parser]. split; [|lia].
  intros i Hi. destruct (decide (i = n)) as [->|Hne].
  - exists t. rewrite list_lookup_insert_eq by lia. split; [done|]. split; [done|].
    intros j t' Hj. rewrite list_lookup_insert_ne by lia. intros Ej.
    destruct (Hw j Hj) as (tj & Ej' & [Hsj _] & _). rewrite Ej in Ej'. injection Ej' as ->. lia.
  - destruct (Hw i) as (ti & Ei & Hti & Hmin); [lia|]. exists ti.
    rewrite list_lookup_insert_ne by lia. split; [done|]. split; [by eapply tok_ok_mono|].
    intros j t' Hj. rewrite list_lookup_insert_ne by lia. by apply Hmin.
Qed.

Lemma find_down_run p n s test (k : nat) :
  INV p n s → (k <= n)%nat →
  ∃ i, find_down test k s = Some (i, s) ∧ -1 <= i < Z.of_nat k ∧
    (0 <= i → ∃ l t, tokens s = Some l ∧ l !! Z.to_nat i = Some t ∧ test t = true) ∧
    (i = -1 → ∀ j l t, (j < k)%nat → tokens s = Some l → l !! j = Some t → test t = false).
Proof.
  intros Hinv. induction k as [|k IH]; intros Hk; cbn [find_down].
  { exists (-1). repeat split; lia. }
  destruct (get_token_run p n s k Hinv) as (l & t & E & Et & Hg & _); [lia|].
  rewrite (bind_run _ _ _ _ _ Hg). destruct (test t) eqn:Ht.
  - exists (Z.of_nat k). split; [done|]. split; [lia|]. split; [|lia]. intros _. exists l, t.
    by rewrite Nat2Z.id.
  - destruct IH as (i & Hr & Hi & Hfound & Hnone); [lia|]. exists i. split; [done|]. split; [lia|].
    split; [done|]. intros Hi1 j l' t' Hj E' Et'. rewrite E in E'. injection E' as <-.
    destruct (decide (j = k)) as [->|]; [congruence|]. apply (Hnone Hi1 j l t'); [lia|done|done].
Qed.

(** ** One character *)

Definition error (r : Z) : Prop :=
  r = JSMN_ERROR_NOMEM ∨ r = JSMN_ERROR_INVAL ∨ r = JSMN_ERROR_PART.

(** Where the run stands: the input is read up to [p], [n] tokens stored. *)
Definition at_ (p : Z) (n : nat) (s : state) : Prop :=
  INV p n s ∧ toknext (parser s) = Z.of_nat n.

Lemma alloc_full p n s :
  at_ p n s → num_tokens <= Z.of_nat n → jsmn_alloc_token num_tokens s = Some (None, s).
Proof.
  intros (_ & Hn) Hfull. unfold jsmn_alloc_token.
  rewrite (bind_run (get parser) _ s (parser s) s) by done. rewrite Hn.
  by destruct (Z.leb_spec num_tokens (Z.of_nat n)); [|lia].
Qed.

Lemma INV_counting p n s : INV p n s → counting s = Some (false, s).
Proof. intros (l & E & _). by eapply counting_run. Qed.

Lemma at_super p q n s v :
  at_ p n s → p <= q → -1 <= v < Z.of_nat n →
  at_ q n (mkState (mkParser (pos (parser s)) (toknext (parser s)) v) (tokens s)).
Proof.
  intros (Hinv & Hn) Hpq Hv. split; [|done]. eapply INV_mono; [exact Hpq|].
  by eapply INV_parser.
Qed.

Lemma at_pos p n s v :
  at_ p n s → at_ p n (mkState (mkParser v (toknext (parser s)) (toksuper (parser s))) (tokens s)).
Proof.
  intros ((l & E & ? & ? & ? & ?) & Hn). split; [|done]. exists l. done.
Qed.

(** Adding a member to the enclosing token changes nothing that [INV] sees. *)
Lemma count_in_super_run p n s l :
  INV p n s → tokens s = Some l →
  ∃ l', count_in_super s = Some (tt, mkState (parser s) (Some l')) ∧
    INV p n (mkState (parser s) (Some l')) ∧ ∀ k, (n <= k)%nat → l' !! k = l !! k.
Proof.
  intros Hinv E. pose proof Hinv as (l' & E' & Hl & Hn & Hw & Hsup).
  rewrite E in E'. injection E' as <-.
  unfold count_in_super. rewrite (bind_run _ _ _ _ _ (counting_run _ _ E)).
  rewrite (bind_run (get parser) _ s (parser s) s) by done.
  destruct (Z.eqb_spec (toksuper (parser s)) (-1)); cbn [negb andb].
  { exists l. split; [by destruct s; simpl in *; subst|]. split; [by destruct s; simpl in *; subst|done]. }
  destruct (get_token_run p n s (Z.to_nat (toksuper (parser s))) Hinv) as (l2 & t & E2 & Et & Hg & Ht); [lia|].
  rewrite E in E2. injection E2 as <-. rewrite Z2Nat.id in Hg by lia.
  rewrite (bind_run _ _ _ _ _ Hg).
  destruct (put_token_run p n s (Z.to_nat (toksuper (parser s))) l t
    (mkTok (type t) (start t) (end_ t) (size t + 1)) Hinv) as (Hp & Hinv'); [lia|done..|].
  rewrite Z2Nat.id in Hp by lia. eexists. split; [exact Hp|]. split; [done|].
  intros k Hk. apply list_lookup_insert_ne. lia.
Qed.

Lemma count_at p n s : at_ p n s →
  ∃ s', count_in_super s = Some (tt, s') ∧ at_ p n s' ∧ pos (parser s') = pos (parser s).
Proof.
  intros (Hinv & Hn). pose proof Hinv as (l & E & _).
  destruct (count_in_super_run p n s l Hinv E) as (l' & Hr & Hinv' & _). by eexists.
Qed.

Lemma open_run p n s c :
  at_ p n s → pos (parser s) = p → rd js p = Some c → opens c = true →
  ∃ r s', open_bracket num_tokens c s = Some (r, s') ∧
    match r with
    | Some e => e = JSMN_ERROR_NOMEM
    | None => at_ (p + 1) (S n) s' ∧ pos (parser s') = p
    end.
Proof.
  intros Hat Hpos Ec Ho. pose proof Hat as (Hinv & Hnext). unfold open_bracket.
  destruct (Z.le_gt_cases num_tokens (Z.of_nat n)) as [Hfull|Hroom].
  { rewrite (bind_run _ _ _ _ _ (alloc_full _ _ _ Hat Hfull)). by eexists _, _. }
  destruct (alloc_run p n s Hinv) as (l1 & u & Ha & Eu & Hend & Hsize & Hinv1); [lia|done|].
  rewrite (bind_run _ _ _ _ _ Ha).
  destruct (count_in_super_run p n _ l1 Hinv1) as (l2 & Hc & Hinv2 & Hl2); [done|].
  rewrite (bind_run _ _ _ _ _ Hc). cbn [parser] in *.
  set (s2 := mkState _ (Some l2)) in *. rewrite (bind_run (get parser) _ s2 (parser s2) s2) by done.
  assert (Hg : get_token (Z.of_nat n) s2 = Some (u, s2)).
  { unfold get_token. rewrite (bind_run (get tokens) _ s2 (Some l2) s2) by done.
    apply lift_run. cbn [mbind option_bind]. rewrite rd_lookup, Hl2 by lia. done. }
  rewrite (bind_run _ _ _ _ _ Hg), Hend, Hsize. apply rd_Some_range in Ec as Hr.
  set (t := mkTok _ _ _ _). assert (Ht : tok_ok (p + 1) t).
  { unfold tok_ok, t. cbn [start type end_ parser s2 pos]. rewrite Hpos. split; [lia|].
    unfold opens in Ho. apply orb_true_iff in Ho. rewrite !Z.eqb_eq in Ho.
    destruct (Z.eqb_spec c 123); [left|right; left]; (split; [done|]); (split; [|by left]);
      rewrite Ec; f_equal; lia. }
  assert (Hst : p <= start t) by (unfold t; cbn [start parser s2 pos]; lia).
  destruct (append_token_run p (p + 1) n s2 l2 t Hinv2) as (Happ & Hinv3); [done|lia|lia|done..|].
  rewrite (bind_run _ _ _ _ _ Happ). eexists None, _. split; [done|]. split; [|done].
  split; [|cbn [parser toknext]; unfold s2; cbn [parser toknext]; lia].
  eapply INV_parser; [exact Hinv3|done|]. cbn [parser toksuper s2 toknext]. lia.
Qed.

Lemma close_run p n s c :
  at_ p n s → pos (parser s) = p → rd js p = Some c → closes c = true →
  ∃ r s', close_bracket c s = Some (r, s') ∧
    match r with
    | Some e => e = JSMN_ERROR_INVAL
    | None => at_ (p + 1) n s' ∧ pos (parser s') = p
    end.
Proof.
  intros Hat Hpos Ec Hcl. pose proof Hat as (Hinv & Hnext). unfold close_bracket.
  rewrite (bind_run (get parser) _ s (parser s) s) by done. rewrite Hnext, Nat2Z.id.
  destruct (find_down_run p n s is_open n Hinv) as (i & Hf & Hi & Hfound & _); [done|].
  rewrite (bind_run _ _ _ _ _ Hf). destruct (Z.eqb_spec i (-1)); [by eexists _, _|].
  destruct (get_token_run p n s (Z.to_nat i) Hinv) as (l & t & E & Et & Hg & Ht); [lia|].
  rewrite Z2Nat.id in Hg by lia. rewrite (bind_run _ _ _ _ _ Hg).
  destruct (Hfound ltac:(lia)) as (l' & t' & E' & Et' & Ho). rewrite E in E'. injection E' as <-.
  rewrite Et in Et'. injection Et' as <-.
  destruct (Z.eqb_spec (type t) (if c =? 125 then JSMN_OBJECT else JSMN_ARRAY)) as [Hty|]; cbn [negb];
    [|by eexists _, _].
  set (s1 := mkState (mkParser (pos (parser s)) (toknext (parser s)) (-1)) (tokens s)).
  rewrite (bind_run (set_toksuper _) _ s tt s1) by done. rewrite Hpos.
  assert (Hat1 : at_ (p + 1) n s1) by (apply (at_super p); [done|lia..]).
  set (tc := mkTok _ _ _ _). assert (Htc : tok_ok (p + 1) tc).
  { destruct Ht as [Hs Hc]. unfold tok_ok, tc. cbn [start type end_].
    replace (p + 1 - 1) with p by lia. split; [lia|]. unfold closes in Hcl. apply orb_true_iff in Hcl.
    rewrite !Z.eqb_eq in Hcl. unfold JSMN_OBJECT, JSMN_ARRAY, JSMN_STRING, JSMN_PRIMITIVE in *.
    destruct (Z.eqb_spec c 125); [left|right; left]; (split; [done|]);
      (split; [intuition congruence|]); right; (split; [lia|]); rewrite Ec; f_equal; lia. }
  destruct (put_token_run (p + 1) n s1 (Z.to_nat i) l t tc (proj1 Hat1)) as (Hp & Hinv2); [lia|done..|].
  rewrite Z2Nat.id in Hp by lia. rewrite (bind_run _ _ _ _ _ Hp).
  set (s2 := mkState (parser s1) _) in *.
  destruct (find_down_run (p + 1) n s2 is_open (Z.to_nat (i + 1)) Hinv2) as (k & Hf2 & Hk & _); [lia|].
  rewrite (bind_run _ _ _ _ _ Hf2).
  destruct (Z.eqb_spec k (-1)); cbn [when negb].
  - eexists None, _. split; [done|]. done.
  - eexists None, _. split; [done|]. split; [|done]. apply (at_super (p + 1) _ _ s2); [done|lia..].
Qed.

Lemma comma_run p n s :
  at_ p n s → ∃ s', comma s = Some (tt, s') ∧ at_ p n s' ∧ pos (parser s') = pos (parser s).
Proof.
  intros Hat. pose proof Hat as (Hinv & Hnext). unfold comma.
  rewrite (bind_run _ _ _ _ _ (INV_counting _ _ _ Hinv)).
  rewrite (bind_run (get parser) _ s (parser s) s) by done.
  pose proof Hinv as (l0 & _ & _ & _ & _ & Hsup).
  destruct (Z.eqb_spec (toksuper (parser s)) (-1)); cbn [orb]; [by exists s|].
  destruct (get_token_run p n s (Z.to_nat (toksuper (parser s))) Hinv) as (l & t & E & Et & Hg & Ht); [lia|].
  rewrite Z2Nat.id in Hg by lia. rewrite (bind_run _ _ _ _ _ Hg).
  destruct (is_container t); [by exists s|]. rewrite Hnext, Nat2Z.id.
  destruct (find_down_run p n s (λ t, is_container t && is_open t) n Hinv) as (i & Hf & Hi & _); [done|].
  rewrite (bind_run _ _ _ _ _ Hf). destruct (Z.eqb_spec i (-1)); cbn [when negb]; [by exists s|].
  eexists. split; [done|]. split; [|done]. apply (at_super p); [done|lia..].
Qed.

Lemma string_run p n s :
  at_ p n s → pos (parser s) = p → rd js p = Some 34 →
  ∃ r s', jsmn_parse_string js len num_tokens s = Some (r, s') ∧
    (r < 0 ∧ error r ∨
     r = 0 ∧ ∃ q, lex js len 34 p = Some (Some q) ∧ p <= q < len ∧
       at_ (q + 1) (S n) s' ∧ pos (parser s') = q).
Proof.
  intros Hat Hpos Ec. pose proof Hat as (Hinv & Hnext). unfold jsmn_parse_string.
  rewrite (bind_run (get parser) _ s (parser s) s) by done. rewrite Hpos.
  apply rd_Some_range in Ec as Hr.
  destruct (string_loop_run js len Hjs Hlen (fuel_from len p) (p + 1)) as (r & Hs & Hq);
    [lia|unfold fuel_from; lia|].
  rewrite (bind_run _ _ _ _ _ (lift_run _ _ _ Hs)).
  destruct r as [q| |]; [|eexists _, _; split; [done|]; left; split; [done|unfold error; auto]..].
  destruct Hq as [Hq Eq]. set (s1 := mkState (mkParser q (toknext (parser s)) (toksuper (parser s))) (tokens s)).
  rewrite (bind_run (set_pos q) _ s tt s1) by done.
  assert (Hat1 : at_ p n s1) by (by apply at_pos).
  rewrite (bind_run _ _ _ _ _ (INV_counting _ _ _ (proj1 Hat1))).
  destruct (Z.le_gt_cases num_tokens (Z.of_nat n)) as [Hfull|Hroom].
  { rewrite (bind_run _ _ _ _ _ (alloc_full _ _ _ Hat1 Hfull)).
    eexists _, _. split; [done|]. left. split; [done|unfold error; auto]. }
  destruct (alloc_run p n s1 (proj1 Hat1)) as (l1 & u & Ha & _ & _ & _ & Hinv1); [lia|done|].
  rewrite (bind_run _ _ _ _ _ Ha). unfold jsmn_fill_token.
  set (t := mkTok _ _ _ _). assert (Ht : tok_ok (q + 1) t).
  { unfold tok_ok, t. cbn [start type end_]. split; [lia|]. right; right; left.
    replace (p + 1 - 1) with p by lia. split; [done|]. split; [done|]. split; [done|lia]. }
  set (s2 := mkState _ (Some l1)) in *.
  destruct (append_token_run p (q + 1) n s2 l1 t Hinv1) as (Happ & Hinv3); [done|lia|lia|unfold t; simpl; lia|done|].
  rewrite (bind_run _ _ _ _ _ Happ). eexists _, _. split; [done|]. right. split; [done|]. exists q.
  split. { unfold lex. change (structural 34) with false. cbv iota. change (34 =? 34) with true.
    cbv iota. by rewrite Hs. }
  split; [lia|]. split; [|done]. split; [done|]. cbn [parser toknext s2]. lia.
Qed.

Lemma primitive_run p n s c :
  at_ p n s → pos (parser s) = p → rd js p = Some c → c ≠ 0 → structural c = false → c ≠ 34 →
  ∃ r s', jsmn_parse_primitive js len num_tokens s = Some (r, s') ∧
    (r < 0 ∧ error r ∨
     r = 0 ∧ ∃ q, lex js len c p = Some (Some q) ∧ p <= q < len ∧
       at_ (q + 1) (S n) s' ∧ pos (parser s') = q).
Proof.
  intros Hat Hpos Ec Hc0 Hst Hc34. pose proof Hat as (Hinv & Hnext). unfold jsmn_parse_primitive.
  rewrite (bind_run (get parser) _ s (parser s) s) by done. rewrite Hpos.
  apply rd_Some_range in Ec as Hr.
  destruct (primitive_loop_first js len Hjs Hlen p c) as (b & q & Hl & Hq & Hb); [done|lia|done..|].
  rewrite (bind_run _ _ _ _ _ (lift_run _ _ _ Hl)).
  destruct b; cbn [negb]; [|eexists _, _; split; [done|]; left; split; [done|unfold error; auto]].
  specialize (Hb eq_refl). set (s1 := mkState (mkParser q (toknext (parser s)) (toksuper (parser s))) (tokens s)).
  rewrite (bind_run (set_pos q) _ s tt s1) by done.
  assert (Hat1 : at_ p n s1) by (by apply at_pos).
  rewrite (bind_run _ _ _ _ _ (INV_counting _ _ _ (proj1 Hat1))).
  destruct (Z.le_gt_cases num_tokens (Z.of_nat n)) as [Hfull|Hroom].
  { rewrite (bind_run _ _ _ _ _ (alloc_full _ _ _ Hat1 Hfull)).
    eexists _, _. split; [done|]. left. split; [done|unfold error; auto]. }
  destruct (alloc_run p n s1 (proj1 Hat1)) as (l1 & u & Ha & _ & _ & _ & Hinv1); [lia|done|].
  rewrite (bind_run _ _ _ _ _ Ha). unfold jsmn_fill_token.
  set (t := mkTok _ _ _ _). assert (Ht : tok_ok q t).
  { unfold tok_ok, t. cbn [start type end_]. split; [lia|]. right; right; right. split; [done|lia]. }
  set (s2 := mkState _ (Some l1)) in *.
  destruct (append_token_run p q n s2 l1 t Hinv1) as (Happ & Hinv3); [done|lia|lia|unfold t; simpl; lia|done|].
  rewrite (bind_run _ _ _ _ _ Happ).
  rewrite u32_id by (unfold in_u32; lia). eexists _, _. split; [done|]. right. split; [done|].
  exists (q - 1). split.
  { unfold lex. rewrite Hst. destruct (Z.eqb_spec c 34); [done|]. by rewrite Hl. }
  split; [lia|]. replace (q - 1 + 1) with q by lia. split; [|done].
  apply (at_pos q (S n) (mkState (parser s2) (Some (<[n:=t]> l1)))).
  split; [done|]. cbn [parser toknext s2]. lia.
Qed.

(** How many tokens a character starts. *)
Definition new_tokens (c : Z) : nat := if starts_token c then 1%nat else 0%nat.

Lemma parse_char_run p n s c count :
  at_ p n s → pos (parser s) = p → rd js p = Some c → c ≠ 0 →
  ∃ r s', parse_char js len num_tokens c count s = Some (r, s') ∧
    match r with
    | inl e => error e
    | inr count' => ∃ q, lex js len c p = Some (Some q) ∧ p <= q < len ∧ pos (parser s') = q ∧
        at_ (q + 1) (n + new_tokens c) s' ∧ count' = count + Z.of_nat (new_tokens c)
    end.
Proof.
  intros Hat Hpos Ec Hc0. pose proof Hat as (Hinv & Hnext). unfold parse_char, new_tokens, starts_token.
  rewrite (bind_run _ _ _ _ _ (INV_counting _ _ _ Hinv)).
  apply rd_Some_range in Ec as Hr.
  assert (Hstr : structural c = true → lex js len c p = Some (Some p)) by (unfold lex; by intros ->).
  change ((c =? 123) || (c =? 91)) with (opens c). change ((c =? 125) || (c =? 93)) with (closes c).
  change ((c =? 9) || (c =? 13) || (c =? 10) || (c =? 32)) with (spaces c).
  unfold structural in *.
  destruct (opens c) eqn:Eo; cbn [orb negb] in *.
  { destruct (open_run p n s c Hat Hpos Ec Eo) as (r & s' & Ho & Hpost).
    rewrite (bind_run _ _ _ _ _ Ho). destruct r as [e|]; eexists _, _; (split; [done|]); cbn.
    - by left.
    - exists p. destruct Hpost as [Hat' Hp']. rewrite Nat.add_1_r. split; [auto|]. split; [lia|]. auto. }
  destruct (closes c) eqn:Ecl; cbn [orb negb] in *.
  { destruct (close_run p n s c Hat Hpos Ec Ecl) as (r & s' & Ho & Hpost).
    rewrite (bind_run _ _ _ _ _ Ho). destruct r as [e|]; eexists _, _; (split; [done|]); cbn.
    - right; by left.
    - exists p. destruct Hpost as [Hat' Hp']. rewrite Nat.add_0_r. split; [auto|]. split; [lia|].
      split; [done|]. split; [done|lia]. }
  assert (Hstay : at_ (p + 1) n s).
  { destruct Hat as [Hi ?]. split; [eapply INV_mono; [|exact Hi]; lia|done]. }
  destruct (Z.eqb_spec c 34) as [->|Hc34].
  { destruct (string_run p n s Hat Hpos Ec) as (r & s' & Hs & Hpost). rewrite (bind_run _ _ _ _ _ Hs).
    destruct Hpost as [[Hneg He]|(-> & q & Hl & Hq & Hat' & Hp')].
    - destruct (Z.ltb_spec r 0); [|lia]. by eexists _, _.
    - change (0 <? 0) with false. cbv iota. destruct (count_at _ _ _ Hat') as (s2 & Hc & Hat2 & Hp2).
      rewrite (bind_run _ _ _ _ _ Hc). eexists _, _. split; [done|]. exists q.
      cbn [spaces Z.eqb Pos.eqb orb negb]. rewrite Nat.add_1_r. split; [done|]. split; [done|].
      split; [congruence|]. done. }
  destruct (spaces c) eqn:Es; cbn [orb negb] in *.
  { eexists _, _. split; [done|]. exists p. rewrite Nat.add_0_r. split; [auto|]. split; [lia|].
    split; [done|]. split; [done|lia]. }
  destruct (Z.eqb_spec c 58) as [->|Hc58]; cbn [orb negb] in *.
  { rewrite (bind_run (get parser) _ s (parser s) s) by done. eexists _, _. split; [done|]. exists p.
    rewrite Nat.add_0_r. split; [auto|]. split; [lia|]. split; [done|].
    split; [|lia]. apply (at_super (p + 1) _ _ s); [done|lia..]. }
  destruct (Z.eqb_spec c 44) as [->|Hc44]; cbn [orb negb] in *.
  { destruct (comma_run _ _ _ Hstay) as (s' & Hc & Hat' & Hp'). rewrite (bind_run _ _ _ _ _ Hc).
    eexists _, _. split; [done|]. exists p. rewrite Nat.add_0_r. split; [auto|]. split; [lia|].
    split; [congruence|]. split; [done|lia]. }
  assert (Hst : structural c = false).
  { unfold structural. rewrite Eo, Ecl, Es. destruct (Z.eqb_spec c 58), (Z.eqb_spec c 44); done. }
  destruct (primitive_run p n s c Hat Hpos Ec Hc0 Hst Hc34) as (r & s' & Hs & Hpost).
  rewrite (bind_run _ _ _ _ _ Hs).
  destruct Hpost as [[Hneg He]|(-> & q & Hl & Hq & Hat' & Hp')].
  - destruct (Z.ltb_spec r 0); [|lia]. by eexists _, _.
  - change (0 <? 0) with false. cbv iota. destruct (count_at _ _ _ Hat') as (s2 & Hc & Hat2 & Hp2).
    rewrite (bind_run _ _ _ _ _ Hc). eexists _, _. split; [done|]. exists q. rewrite Nat.add_1_r.
    split; [done|]. split; [done|]. split; [congruence|]. done.
Qed.

(** The main loop. *)
Lemma parse_loop_run fuel p n s count :
  at_ p n s → pos (parser s) = p → 0 <= p <= len → len - p < Z.of_nat fuel → count = Z.of_nat n →
  ∃ r s', parse_loop js len num_tokens fuel count s = Some (r, s') ∧
    match r with
    | inl e => error e
    | inr count' => ∃ n', at_ (pos (parser s')) n' s' ∧ count' = Z.of_nat n' ∧ pos (parser s') <= len
    end.
Proof.
  revert p n s count. induction fuel as [|fuel IH]; intros p n s count Hat Hpos Hp Hf Hc; [lia|].
  cbn [parse_loop]. rewrite (bind_run (get parser) _ s (parser s) s) by done. rewrite Hpos.
  destruct (more_run js len Hjs Hlen p Hp) as (b & Hm & Hb).
  rewrite (bind_run _ _ _ _ _ (lift_run _ _ _ Hm)). destruct b; cbn [negb].
  2: { eexists _, _. split; [done|]. exists n. rewrite Hpos. split; [done|]. split; [done|lia]. }
  destruct (Hb eq_refl) as (Hlt & c & Ec & Hc0 & _). rewrite (bind_run _ _ _ _ _ (lift_run _ _ _ Ec)).
  destruct (parse_char_run p n s c count Hat Hpos Ec Hc0) as (r & s1 & Hr & Hpost).
  rewrite (bind_run _ _ _ _ _ Hr). destruct r as [e|count']; [by eexists _, _|].
  destruct Hpost as (q & _ & Hq & Hp1 & Hat1 & ->).
  rewrite (bind_run (get parser) _ s1 (parser s1) s1) by done. rewrite Hp1, u32_id by (unfold in_u32; lia).
  erewrite bind_run by done. eapply (IH (q + 1)); [by apply at_pos|done|lia..].
Qed.

(** *** Counting only *)

Lemma count_null s : tokens s = None → count_in_super s = Some (tt, s).
Proof.
  intros E. unfold count_in_super. rewrite (bind_run counting _ s true s) by (unfold counting, get; by rewrite E).
  rewrite (bind_run (get parser) _ s (parser s) s) by done. by rewrite andb_false_r.
Qed.

Lemma parse_char_null p s c count :
  tokens s = None → pos (parser s) = p → toknext (parser s) = 0 → rd js p = Some c → c ≠ 0 →
  ∃ r s', parse_char js len num_tokens c count s = Some (r, s') ∧ tokens s' = None ∧
    toknext (parser s') = 0 ∧ 
    match r with
    | inl e => error e ∧ lex js len c p = Some None
    | inr count' => ∃ q, lex js len c p = Some (Some q) ∧ p <= q < len ∧ pos (parser s') = q ∧
        count' = count + Z.of_nat (new_tokens c)
    end.
Proof.
  intros E Hpos Hn Ec Hc0. unfold parse_char, new_tokens, starts_token.
  assert (Hcnt : ∀ s, tokens s = None → counting s = Some (true, s)).
  { intros s0 E0. unfold counting, get. by rewrite E0. }
  rewrite (bind_run _ _ _ _ _ (Hcnt s E)). apply rd_Some_range in Ec as Hr.
  assert (Hstr : structural c = true → lex js len c p = Some (Some p)) by (unfold lex; by intros ->).
  change ((c =? 123) || (c =? 91)) with (opens c). change ((c =? 125) || (c =? 93)) with (closes c).
  change ((c =? 9) || (c =? 13) || (c =? 10) || (c =? 32)) with (spaces c).
  unfold structural in *.
  destruct (opens c) eqn:Eo; cbn [orb negb] in *.
  { eexists _, _. repeat (split; [done|]). exists p. split; [auto|]. split; [lia|]. done. }
  destruct (closes c) eqn:Ecl; cbn [orb negb] in *.
  { eexists _, _. repeat (split; [done|]). exists p. split; [auto|]. split; [lia|]. split; [done|lia]. }
  destruct (Z.eqb_spec c 34) as [->|Hc34].
  { unfold jsmn_parse_string, bind at 1. rewrite (bind_run (get parser) _ s (parser s) s) by done.
    rewrite Hpos. unfold lex. change (structural 34) with false. cbv iota. change (34 =? 34) with true. cbv iota.
    destruct (string_loop_run js len Hjs Hlen (fuel_from len p) (p + 1)) as (r & Hs & Hq);
      [lia|unfold fuel_from; lia|].
    rewrite (bind_run _ _ _ _ _ (lift_run _ _ _ Hs)), Hs. cbn [mbind option_bind].
    destruct r as [q| |]; cbn.
    - rewrite E. cbn. rewrite (bind_run _ _ _ _ _ (count_null (mkState _ None) eq_refl)).
      eexists _, _. split; [done|]. cbn. repeat (split; [done|]). exists q. split; [done|].
      split; [lia|]. done.
    - eexists _, _. split; [done|]. cbn. repeat (split; [done|]). split; [unfold error; auto|done].
    - eexists _, _. split; [done|]. cbn. repeat (split; [done|]). split; [unfold error; auto|done]. }
  destruct (spaces c) eqn:Es; cbn [orb negb] in *.
  { eexists _, _. repeat (split; [done|]). exists p. split; [auto|]. split; [lia|]. split; [done|lia]. }
  destruct (Z.eqb_spec c 58) as [->|Hc58]; cbn [orb negb] in *.
  { eexists _, _. split; [done|]. repeat (split; [done|]). exists p. split; [auto|]. split; [lia|].
    split; [done|lia]. }
  destruct (Z.eqb_spec c 44) as [->|Hc44]; cbn [orb negb] in *.
  { unfold comma, bind at 1. rewrite (bind_run _ _ _ _ _ (Hcnt s E)).
    rewrite (bind_run (get parser) _ s (parser s) s) by done. cbn [orb].
    eexists _, _. split; [done|]. repeat (split; [done|]). exists p. split; [auto|]. split; [lia|].
    split; [done|lia]. }
  assert (Hst : structural c = false).
  { unfold structural. rewrite Eo, Ecl, Es. destruct (Z.eqb_spec c 58), (Z.eqb_spec c 44); done. }
  unfold jsmn_parse_primitive, bind at 1. rewrite (bind_run (get parser) _ s (parser s) s) by done.
  rewrite Hpos. unfold lex. rewrite Hst. destruct (Z.eqb_spec c 34); [done|].
  destruct (primitive_loop_first js len Hjs Hlen p c) as (b & q & Hl & Hq & Hb); [done|lia|done..|].
  rewrite (bind_run _ _ _ _ _ (lift_run _ _ _ Hl)), Hl. cbn [mbind option_bind].
  destruct b; cbn.
  - specialize (Hb eq_refl). rewrite E. cbn. rewrite u32_id by (unfold in_u32; lia).
    rewrite (bind_run _ _ _ _ _ (count_null (mkState _ None) eq_refl)).
    eexists _, _. split; [done|]. cbn. repeat (split; [done|]). exists (q - 1). split; [done|].
    split; [lia|]. done.
  - eexists _, _. split; [done|]. cbn. repeat (split; [done|]). split; [unfold error; auto|done].
Qed.

Lemma parse_loop_null fuel p s count :
  tokens s = None → pos (parser s) = p → toknext (parser s) = 0 → 0 <= p <= len → len - p < Z.of_nat fuel →
  0 <= count →
  ∃ r s', parse_loop js len num_tokens fuel count s = Some (r, s') ∧ tokens s' = None ∧
    match r with inl e => error e | inr count' => 0 <= count' end.
Proof.
  revert p s count. induction fuel as [|fuel IH]; intros p s count E Hpos Hn Hp Hf Hc; [lia|].
  cbn [parse_loop]. rewrite (bind_run (get parser) _ s (parser s) s) by done. rewrite Hpos.
  destruct (more_run js len Hjs Hlen p Hp) as (b & Hm & Hb).
  rewrite (bind_run _ _ _ _ _ (lift_run _ _ _ Hm)). destruct b; cbn [negb]; [|by eexists _, _].
  destruct (Hb eq_refl) as (Hlt & c & Ec & Hc0 & _). rewrite (bind_run _ _ _ _ _ (lift_run _ _ _ Ec)).
  destruct (parse_char_null p s c count E Hpos Hn Ec Hc0) as (r & s1 & Hr & E1 & Hn1 & Hpost).
  rewrite (bind_run _ _ _ _ _ Hr). destruct r as [e|count']; [destruct Hpost; by eexists _, _|].
  destruct Hpost as (q & _ & Hq & Hp1 & ->).
  rewrite (bind_run (get parser) _ s1 (parser s1) s1) by done. rewrite Hp1, u32_id by (unfold in_u32; lia).
  erewrite bind_run by done. eapply (IH (q + 1)); [done..|lia|lia|lia].
Qed.

End Tokens.

(** When the run with tokens gets through, so does the counting run, with the
    same count. *)
Lemma parse_loops_agree js len num_tokens num_tokens' fuel p n s s0 count r s' :
  Forall in_u8 js → Z.of_nat (length js) = len → len < 2 ^ 31 →
  at_ js num_tokens p n s → pos (parser s) = p → tokens s0 = None → pos (parser s0) = p → toknext (parser s0) = 0 →
  0 <= p <= len → len - p < Z.of_nat fuel →
  parse_loop js len num_tokens fuel count s = Some (inr r, s') →
  ∃ s0', parse_loop js len num_tokens' fuel count s0 = Some (inr r, s0') ∧ tokens s0' = None.
Proof.
  intros Hjs Hlen Hlen31. revert p n s s0 count. induction fuel as [|fuel IH]; intros p n s s0 count Hat Hpos E0 Hpos0 Hn0 Hp Hf; [lia|].
  cbn [parse_loop]. rewrite (bind_run (get parser) _ s (parser s) s) by done.
  rewrite (bind_run (get parser) _ s0 (parser s0) s0) by done. rewrite Hpos, Hpos0.
  destruct (more_run js len Hjs Hlen p Hp) as (b & Hm & Hb).
  rewrite !(bind_run _ _ _ _ _ (lift_run _ _ _ Hm)). destruct b; cbn [negb].
  2: { intros [= <- <-]. by exists s0. }
  destruct (Hb eq_refl) as (Hlt & c & Ec & Hc0 & _). rewrite !(bind_run _ _ _ _ _ (lift_run _ _ _ Ec)).
  destruct (parse_char_run js len num_tokens Hjs Hlen Hlen31 p n s c count Hat Hpos Ec Hc0) as (r1 & s1 & Hr1 & Hpost1).
  destruct (parse_char_null js len num_tokens' Hjs Hlen Hlen31 p s0 c count E0 Hpos0 Hn0 Ec Hc0) as (r2 & s2 & Hr2 & E2 & Hn2 & Hpost2).
  rewrite (bind_run _ _ _ _ _ Hr1), (bind_run _ _ _ _ _ Hr2).
  destruct r1 as [e|c1]; [done|]. destruct Hpost1 as (q & Hl & Hq & Hp1 & Hat1 & ->).
  destruct r2 as [e|c2]; [destruct Hpost2 as [_ Hl2]; congruence|].
  destruct Hpost2 as (q2 & Hl2 & _ & Hp2 & ->). rewrite Hl in Hl2. injection Hl2 as <-.
  rewrite (bind_run (get parser) _ s1 (parser s1) s1) by done.
  rewrite (bind_run (get parser) _ s2 (parser s2) s2) by done.
  rewrite Hp1, Hp2, u32_id by (unfold in_u32; lia).
  unfold bind at 1, set_pos at 1, modify at 1. unfold bind at 1, set_pos at 1, modify at 1.
  intros Hloop. eapply (IH (q + 1)) in Hloop; [exact Hloop|by apply at_pos|done..|lia|lia].
Qed.

Definition chars (s : string) : list Z := (λ c, Z.of_N (Ascii.N_of_ascii c)) <$> String.list_ascii_of_string s.
Definition run (s : string) (n : nat) : option (Z * state) :=
  jsmn_parse (chars s) (Z.of_nat (String.length s)) (Z.of_nat n)
    (mkState jsmn_init (Some (replicate n (mkTok 7 7 7 7)))).
Definition run_null (s : string) : option (Z * state) :=
  jsmn_parse (chars s) (Z.of_nat (String.length s)) 0 (mkState jsmn_init None).

Example run_ex : (r ← run "{'a':[1,2],'b':true}" 7; Some r.1) = Some 7.
Proof. vm_compute. reflexivity. Qed.

(** ** What a caller gets *)

(** A finished token: an object or array spans from its bracket to the matching
    one, a string lies between two quotes, a primitive is not empty. *)
Definition finished (js : list Z) (t : jsmntok_t) : Prop :=
  0 <= start t ∧ end_ t <= Z.of_nat (length js) ∧
  ((type t = JSMN_OBJECT ∧ start t < end_ t ∧ rd js (start t) = Some 123 ∧ rd js (end_ t - 1) = Some 125) ∨
   (type t = JSMN_ARRAY ∧ start t < end_ t ∧ rd js (start t) = Some 91 ∧ rd js (end_ t - 1) = Some 93) ∨
   (type t = JSMN_STRING ∧ start t <= end_ t ∧ rd js (start t - 1) = Some 34 ∧ rd js (end_ t) = Some 34) ∨
   (type t = JSMN_PRIMITIVE ∧ start t < end_ t)).

Lemma finished_of_ok js len p t :
  Z.of_nat (length js) = len → p <= len → tok_ok js p t → is_open t = false → finished js t.
Proof.
  unfold tok_ok, finished, is_open. intros <- Hp [Hs Hc] Ho.
  destruct (Z.eqb_spec (start t) (-1)); [lia|]. destruct (Z.eqb_spec (end_ t) (-1)); [done|].
  split; [lia|]. split; [intuition lia|]. intuition.
Qed.

(** A fresh parser over any token array. *)
Definition fresh (ts : option (list jsmntok_t)) : state := mkState jsmn_init ts.

Lemma fresh_at js l num_tokens :
  Z.of_nat (length l) = num_tokens → at_ js num_tokens 0 0 (fresh (Some l)).
Proof.
  intros Hl. split; [|done]. exists l. split; [done|]. split; [done|]. split; [lia|].
  split; [intros i Hi; lia|]. cbn. lia.
Qed.

(** C29: On every input of fewer than 2^31 bytes and every token array, whatever
    it holds, [jsmn_parse] ends, reads only the input and writes only the array,
    and returns one of its three errors or the number of tokens stored; then
    every stored token is finished (closed by the bracket or quote of its kind,
    inside the input) and the tokens come in the order of their start. *)
Theorem jsmn_parse_safe (js : list Z) (len num_tokens : Z) (l : list jsmntok_t) :
  Forall in_u8 js → Z.of_nat (length js) = len → len < 2 ^ 31 → Z.of_nat (length l) = num_tokens →
  ∃ r s', jsmn_parse js len num_tokens (fresh (Some l)) = Some (r, s') ∧
    (error r ∨ ∃ l', 0 <= r <= num_tokens ∧ tokens s' = Some l' ∧ length l' = length l ∧
      toknext (parser s') = r ∧
      ∀ i, (i < Z.to_nat r)%nat → ∃ t, l' !! i = Some t ∧ finished js t ∧
        ∀ j t', (j < i)%nat → l' !! j = Some t' → start t' < start t).
Proof.
  intros Hjs Hlen H31 Hl. pose proof (fresh_at js l num_tokens Hl) as Hat.
  unfold jsmn_parse. rewrite (bind_run (get parser) _ (fresh (Some l)) jsmn_init (fresh (Some l))) by done.
  destruct (parse_loop_run js len num_tokens Hjs Hlen H31 (fuel_from len 0) 0 0 (fresh (Some l)) 0 Hat)
    as (r & s1 & Hr & Hpost); [done|lia|unfold fuel_from; lia|done|].
  cbn [jsmn_init pos toknext]. rewrite (bind_run _ _ _ _ _ Hr).
  destruct r as [e|count]; [eexists _, _; split; [done|]; by left|].
  destruct Hpost as (n & [Hinv Hn] & -> & Hp).
  rewrite (bind_run _ _ _ _ _ (INV_counting _ _ _ _ _ Hinv)).
  rewrite (bind_run (get parser) _ s1 (parser s1) s1) by done. rewrite Hn, Nat2Z.id.
  destruct (find_down_run js num_tokens _ n s1 is_open n Hinv) as (i & Hf & Hi & _ & Hnone); [done|].
  rewrite (bind_run _ _ _ _ _ Hf). eexists _, _. split; [done|].
  destruct (Z.eqb_spec i (-1)) as [->|]; [right|left; unfold error; auto].
  destruct Hinv as (l' & E & Hl' & Hnl & Hw & _). exists l'. split; [lia|]. split; [done|].
  split; [lia|]. split; [done|]. rewrite Nat2Z.id. intros k Hk.
  destruct (Hw k Hk) as (t & Et & Ht & Hmin). exists t. split; [done|]. split; [|done].
  eapply finished_of_ok; [exact Hlen|exact Hp|exact Ht|]. by apply (Hnone eq_refl k l' t).
Qed.

(** Counting first is sound: with a null token array [jsmn_parse] ends
    without a fault, and whenever the run that stores the tokens succeeds the
    counting run has returned the same number. *)
Theorem counting_agrees (js : list Z) (len num_tokens num_tokens' : Z) (l : list jsmntok_t) :
  Forall in_u8 js → Z.of_nat (length js) = len → len < 2 ^ 31 → Z.of_nat (length l) = num_tokens →
  ∃ r s', jsmn_parse js len num_tokens' (fresh None) = Some (r, s') ∧ (error r ∨ 0 <= r) ∧
    ∀ r1 s1, jsmn_parse js len num_tokens (fresh (Some l)) = Some (r1, s1) → 0 <= r1 → r1 = r.
Proof.
  intros Hjs Hlen H31 Hl. pose proof (fresh_at js l num_tokens Hl) as Hat.
  assert (Hnull : ∀ s : state, tokens s = None → counting s = Some (true, s)).
  { intros s E. unfold counting, get. by rewrite E. }
  destruct (parse_loop_null js len num_tokens' Hjs Hlen H31 (fuel_from len 0) 0 (fresh None) 0)
    as (r & s0 & Hr & E0 & Hpost); [done..|lia|unfold fuel_from; lia|lia|].
  destruct (parse_loop_run js len num_tokens Hjs Hlen H31 (fuel_from len 0) 0 0 (fresh (Some l)) 0 Hat)
    as (r2 & s2 & Hr2 & Hpost2); [done|lia|unfold fuel_from; lia|done|].
  exists (match r with inl e => e | inr c => c end), s0. split.
  { unfold jsmn_parse. rewrite (bind_run (get parser) _ (fresh None) jsmn_init (fresh None)) by done.
    cbn [jsmn_init pos toknext]. rewrite (bind_run _ _ _ _ _ Hr).
    destruct r; [done|]. by rewrite (bind_run _ _ _ _ _ (Hnull _ E0)). }
  split; [destruct r; auto|].
  intros r1 s1. unfold jsmn_parse.
  rewrite (bind_run (get parser) _ (fresh (Some l)) jsmn_init (fresh (Some l))) by done.
  cbn [jsmn_init pos toknext]. rewrite (bind_run _ _ _ _ _ Hr2).
  destruct r2 as [e|count].
  { intros [= <- <-] Hpos. unfold error, JSMN_ERROR_NOMEM, JSMN_ERROR_INVAL, JSMN_ERROR_PART in Hpost2. lia. }
  destruct (parse_loops_agree js len num_tokens num_tokens' (fuel_from len 0) 0 0 (fresh (Some l)) (fresh None)
    0 count s2 Hjs Hlen H31 Hat) as (s0' & Hr0 & _); [done..|lia|unfold fuel_from; lia|done|].
  destruct Hpost2 as (n & [Hinv Hn] & -> & Hp).
  rewrite (bind_run _ _ _ _ _ (INV_counting _ _ _ _ _ Hinv)).
  rewrite (bind_run (get parser) _ s2 (parser s2) s2) by done. rewrite Hn, Nat2Z.id.
  destruct (find_down_run js num_tokens _ n s2 is_open n Hinv) as (i & Hf & _); [done|].
  rewrite (bind_run _ _ _ _ _ Hf). intros [= <- <-].
  rewrite Hr in Hr0. injection Hr0 as -> _. by destruct (i =? -1).
Qed.

Definition demo : list Z := chars "[1, {k:2}]".

Lemma jsmn_parse_safe_witness : ∃ r s',
  jsmn_parse demo 10 5 (fresh (Some (replicate 5 (mkTok 7 7 7 7)))) = Some (r, s') ∧
  (error r ∨ ∃ l', 0 <= r <= 5 ∧ tokens s' = Some l' ∧ length l' = 5%nat ∧ toknext (parser s') = r ∧
    ∀ i, (i < Z.to_nat r)%nat → ∃ t, l' !! i = Some t ∧ finished demo t ∧
      ∀ j t', (j < i)%nat → l' !! j = Some t' → start t' < start t).
Proof.
  apply (jsmn_parse_safe demo 10 5 (replicate 5 (mkTok 7 7 7 7))); [|done|done|done].
  apply (bool_decide_unpack _). vm_compute. done.
Defined.

Lemma counting_agrees_witness : ∃ r s',
  jsmn_parse demo 10 0 (fresh None) = Some (r, s') ∧ (error r ∨ 0 <= r) ∧
  ∀ r1 s1, jsmn_parse demo 10 5 (fresh (Some (replicate 5 (mkTok 7 7 7 7)))) = Some (r1, s1) → 0 <= r1 → r1 = r.
Proof.
  apply (counting_agrees demo 10 5 0 (replicate 5 (mkTok 7 7 7 7))); [|done|done|done].
  apply (bool_decide_unpack _). vm_compute. done.
Defined.
End Jsmn.
