(* ===== verification/Heap.v ===== *)
(** The heap: [components/heap] ([src/esp_heap_caps.c], [src/esp_heap_trace.c]
    and the inline functions of [port/.../priv/esp_heap_caps_priv.h]).

    The memory is a map from aligned addresses to 32-bit words, with the block
    headers in it as the code keeps them: the top bit of the word [prev] marks a
    used block, the top bit of [next] a traced one. A load or store outside the
    map is a fault. The critical section each region is handled in makes one
    call one step, so the model is sequential. *)
From S2P Require Import Prelude.

Module Heap.

Definition HEAP_ALIGN_SIZE : Z := 4.
Definition MEM_BLK_MIN : Z := 1.
Definition MEM_HEAD_SIZE : Z := 8.
Definition MEM2_HEAD_SIZE : Z := 16.
Definition MEM_BLK_TAG : Z := 0x80000000.
Definition MEM_BLK_TRACE : Z := 0x80000000.
Definition HEAP_TRACE_NONE : Z := 0.
Definition HEAP_TRACE_LEAKS : Z := 1.

(** [HEAP_ALIGN]. *)
Definition HEAP_ALIGN (ptr : Z) : Z := Z.land (u32 (ptr + (HEAP_ALIGN_SIZE - 1))) (0xFFFFFFFF - (HEAP_ALIGN_SIZE - 1)).

Record heap_region_t := mkRegion {
  start_addr : Z; total_size : Z; caps : Z; free_blk : Z; free_bytes : Z; min_free_bytes : Z }.

Record heap := mkHeap {
  mem : gmap Z Z; g_heap_region : list heap_region_t; s_heap_trace_mode : Z }.

Definition ld (a : Z) : M heap Z := let! m := get mem in lift (m !! a).
Definition st (a v : Z) : M heap unit :=
  let! m := get mem in
  let! _ := lift (m !! a) in
  modify (λ h, mkHeap (<[a := v]> m) (g_heap_region h) (s_heap_trace_mode h)).

Definition get_region (num : Z) : M heap heap_region_t :=
  let! l := get g_heap_region in lift (rd l num).
Definition put_region (num : Z) (r : heap_region_t) : M heap unit :=
  let! l := get g_heap_region in
  let! l := lift (wr l num r) in
  modify (λ h, mkHeap (mem h) l (s_heap_trace_mode h)).

(** ** [esp_heap_trace.c] *)
Definition heap_trace_is_on : M heap bool := get (λ h, s_heap_trace_mode h =? HEAP_TRACE_LEAKS).
Definition set_trace_mode (mode : Z) : M heap unit :=
  modify (λ h, mkHeap (mem h) (g_heap_region h) mode).
Definition heap_trace_start (mode : Z) : M heap unit := set_trace_mode mode.
Definition heap_trace_stop : M heap unit := set_trace_mode HEAP_TRACE_NONE.
Definition heap_trace_resume : M heap unit := set_trace_mode HEAP_TRACE_LEAKS.

(** ** [esp_heap_caps_priv.h] *)

(** [_mem_blk_get_ptr] and [_mem_blk_set_ptr]: both masks are the top bit. *)
Definition mem_blk_get_ptr (mem_blk offset mask : Z) : M heap Z :=
  let! w := ld (mem_blk + 4 * offset) in ret (Z.land w (0xFFFFFFFF - mask)).
Definition mem_blk_set_ptr (mem_blk val offset mask : Z) : M heap unit :=
  let! w := ld (mem_blk + 4 * offset) in
  st (mem_blk + 4 * offset) (Z.lor (u32 val) (Z.land w mask)).

Definition mem_blk_prev (b : Z) : M heap Z := mem_blk_get_ptr b 0 MEM_BLK_TAG.
Definition mem_blk_next (b : Z) : M heap Z := mem_blk_get_ptr b 1 MEM_BLK_TRACE.
Definition mem_blk_set_prev (b prev : Z) : M heap unit := mem_blk_set_ptr b prev 0 MEM_BLK_TAG.
Definition mem_blk_set_next (b next : Z) : M heap unit := mem_blk_set_ptr b next 1 MEM_BLK_TRACE.

Definition mem_blk_head_size (trace : bool) : Z := if trace then MEM2_HEAD_SIZE else MEM_HEAD_SIZE.

Definition mem_blk_set_traced (b file line : Z) : M heap unit :=
  let! w := ld (b + 4) in
  st (b + 4) (Z.lor w MEM_BLK_TRACE) ;;;
  st (b + 8) file ;;;
  st (b + 12) (Z.lor line MEM_BLK_TRACE).
Definition mem_blk_set_untraced (b : Z) : M heap unit :=
  let! w := ld (b + 4) in st (b + 4) (Z.land w (0xFFFFFFFF - MEM_BLK_TRACE)).
Definition mem_blk_set_used (b : Z) : M heap unit :=
  let! w := ld b in st b (Z.lor w MEM_BLK_TAG).
Definition mem_blk_set_unused (b : Z) : M heap unit :=
  let! w := ld b in st b (Z.land w (0xFFFFFFFF - MEM_BLK_TAG)).
Definition mem_blk_is_traced (b : Z) : M heap bool :=
  let! w := ld (b + 4) in ret (negb (Z.land w MEM_BLK_TRACE =? 0)).
Definition mem_blk_is_used (b : Z) : M heap bool :=
  let! w := ld b in ret (negb (Z.land w MEM_BLK_TAG =? 0)).
Definition mem_blk_is_end (b : Z) : M heap bool :=
  let! n := mem_blk_next b in ret (n =? 0).
Definition blk_link_size (b : Z) : M heap Z :=
  let! n := mem_blk_next b in ret (u32 (n - b)).

(** [get_blk_region]: the number of regions when no region holds [ptr]. *)
Fixpoint region_of (ptr : Z) (l : list heap_region_t) (num : Z) : Z :=
  match l with
  | [] => num
  | r :: l =>
      if (start_addr r <? ptr) && (ptr <? start_addr r + total_size r) then num
      else region_of ptr l (num + 1)
  end.
Definition get_blk_region (ptr : Z) : M heap Z :=
  let! l := get g_heap_region in ret (region_of ptr l 0).

Definition ptr2memblk_size (size : Z) (trace : bool) : Z :=
  HEAP_ALIGN (u32 (size + mem_blk_head_size trace)).
Definition ptr_is_traced (ptr : Z) : M heap bool :=
  let! w := ld (ptr - 4) in ret (negb (Z.land w MEM_BLK_TRACE =? 0)).
Definition ptr2blk (ptr : Z) (trace : bool) : Z := ptr - mem_blk_head_size trace.
Definition blk2ptr (b : Z) (trace : bool) : Z := b + mem_blk_head_size trace.
Definition ptr_size (ptr : Z) : M heap Z :=
  let! traced := ptr_is_traced ptr in
  let! size := blk_link_size (ptr2blk ptr traced) in
  ret (u32 (size - mem_blk_head_size traced)).

(** ** [esp_heap_caps.c] *)

(** One round of [esp_heap_caps_init_region]. *)
Definition init_region (num : Z) : M heap unit :=
  let! r := get_region num in
  let mem_start := HEAP_ALIGN (start_addr r) in
  let mem_end := HEAP_ALIGN (u32 (start_addr r + total_size r)) in
  let mem_end := if mem_end =? start_addr r + total_size r then mem_end else mem_end - 4 in
  let mem_end := mem_end - MEM_HEAD_SIZE in
  st mem_start 0 ;;;
  st (mem_start + 4) mem_end ;;;
  st mem_end mem_start ;;;
  st (mem_end + 4) 0 ;;;
  let! size := blk_link_size mem_start in
  put_region num (mkRegion (start_addr r) (total_size r) (caps r) mem_start size size).

Definition esp_heap_caps_init_region : M heap unit :=
  let! l := get g_heap_region in
  for_proc 0 (length l) init_region.

(** [heap_caps_init]: the linker gives the two start addresses. *)
Definition MALLOC_CAP_32BIT : Z := 2.
Definition MALLOC_CAP_8BIT : Z := 4.
Definition MALLOC_CAP_DMA : Z := 8.
Definition heap_caps_init (lit4_end heap_start : Z) : M heap unit :=
  let! r := get_region 0 in
  put_region 0 (mkRegion lit4_end (u32 (0x4010C000 - lit4_end)) MALLOC_CAP_32BIT
    (free_blk r) (free_bytes r) (min_free_bytes r)) ;;;
  let! r := get_region 1 in
  put_region 1 (mkRegion heap_start (u32 (0x40000000 - heap_start))
    (Z.lor MALLOC_CAP_8BIT (Z.lor MALLOC_CAP_32BIT MALLOC_CAP_DMA))
    (free_blk r) (free_bytes r) (min_free_bytes r)) ;;;
  esp_heap_caps_init_region.

Fixpoint sum_regions (f : heap_region_t → Z) (wanted : Z) (l : list heap_region_t) (bytes : Z) : Z :=
  match l with
  | [] => bytes
  | r :: l => sum_regions f wanted l
      (if wanted =? Z.land wanted (caps r) then u32 (bytes + f r) else bytes)
  end.
Definition heap_caps_get_free_size (wanted : Z) : M heap Z :=
  let! l := get g_heap_region in ret (sum_regions free_bytes wanted l 0).
Definition heap_caps_get_minimum_free_size (wanted : Z) : M heap Z :=
  let! l := get g_heap_region in ret (sum_regions min_free_bytes wanted l 0).

(** [while (blk && !mem_blk_is_end(blk) && skip(blk)) blk = mem_blk_next(blk)].
    A region has at most one block per eight bytes; running out of rounds is a
    fault. *)
Fixpoint walk (fuel : nat) (skip : Z → M heap bool) (b : Z) : M heap Z :=
  match fuel with
  | O => fault
  | Datatypes.S fuel =>
      if b =? 0 then ret b else
      let! e := mem_blk_is_end b in
      if e then ret b else
      let! s := skip b in
      if s then let! n := mem_blk_next b in walk fuel skip n else ret b
  end.
Definition rounds (r : heap_region_t) : nat := Z.to_nat (total_size r / 8 + 1).

(** [if (!mem_blk || mem_blk_is_end(mem_blk))]. *)
Definition null_or_end (b : Z) : M heap bool := if b =? 0 then ret true else mem_blk_is_end b.

(** The body of the loop of [_heap_caps_malloc] for a region with the wanted
    capabilities: the pointer, or 0. *)
Definition malloc_in_region (num size file line : Z) : M heap Z :=
  let! trace := heap_trace_is_on in
  let mem_blk_size := ptr2memblk_size size trace in
  let! r := get_region num in
  if free_bytes r <? mem_blk_size then ret 0 else
  let! mem_blk := walk (rounds r) (λ b,
    let! used := mem_blk_is_used b in
    if used then ret true else let! sz := blk_link_size b in ret (sz <? mem_blk_size)) (free_blk r) in
  let! none := null_or_end mem_blk in
  if none then ret 0 else
  let ret_mem := blk2ptr mem_blk trace in
  let head_size := mem_blk_head_size trace in
  let! sz := blk_link_size mem_blk in
  let! next := mem_blk_next mem_blk in
  let next_mem_blk := if u32 (mem_blk_size + head_size + MEM_BLK_MIN) <=? sz then mem_blk + mem_blk_size else next in
  when (negb (next =? next_mem_blk)) (
    st next_mem_blk 0 ;;;
    st (next_mem_blk + 4) 0 ;;;
    mem_blk_set_prev next_mem_blk mem_blk ;;;
    let! n := mem_blk_next mem_blk in
    mem_blk_set_next next_mem_blk n ;;;
    let! n := mem_blk_next mem_blk in
    mem_blk_set_prev n next_mem_blk ;;;
    mem_blk_set_next mem_blk next_mem_blk) ;;;
  mem_blk_set_used mem_blk ;;;
  when trace (mem_blk_set_traced mem_blk file line) ;;;
  let! free := (if free_blk r =? mem_blk then walk (rounds r) mem_blk_is_used mem_blk else ret (free_blk r)) in
  let! mem_blk_size := blk_link_size mem_blk in
  let fb := u32 (free_bytes r - mem_blk_size) in
  put_region num (mkRegion (start_addr r) (total_size r) (caps r) free fb
    (if fb <? min_free_bytes r then fb else min_free_bytes r)) ;;;
  ret ret_mem.

(** [_heap_caps_malloc]: the first region with the capabilities that has room. *)
Fixpoint malloc_loop (n : nat) (num size wanted file line : Z) : M heap Z :=
  match n with
  | O => ret 0
  | Datatypes.S n =>
      let! r := get_region num in
      if negb (Z.land (caps r) wanted =? wanted) then malloc_loop n (num + 1) size wanted file line else
      let! p := malloc_in_region num size file line in
      if p =? 0 then malloc_loop n (num + 1) size wanted file line else ret p
  end.
Definition heap_caps_malloc (size wanted file line : Z) : M heap Z :=
  let! l := get g_heap_region in
  malloc_loop (length l) 0 size wanted file line.

(** [_heap_caps_free]. *)
Definition heap_caps_free (ptr : Z) : M heap unit :=
  if ptr =? 0 then ret tt else
  let! num := get_blk_region ptr in
  let! l := get g_heap_region in
  if Z.of_nat (length l) <=? num then ret tt else
  let! traced := ptr_is_traced ptr in
  let mem_blk := ptr2blk ptr traced in
  let! used := mem_blk_is_used mem_blk in
  if negb used then ret tt else
  let! r := get_region num in
  let! size := blk_link_size mem_blk in
  put_region num (mkRegion (start_addr r) (total_size r) (caps r) (free_blk r)
    (u32 (free_bytes r + size)) (min_free_bytes r)) ;;;
  mem_blk_set_unused mem_blk ;;;
  mem_blk_set_untraced mem_blk ;;;
  let! prev := mem_blk_prev mem_blk in
  let! next := mem_blk_next mem_blk in
  let! last := mem_blk_next next in
  let! merge_prev := (if prev =? 0 then ret false else let! u := mem_blk_is_used prev in ret (negb u)) in
  let! tmp := (if merge_prev then
      mem_blk_set_next prev next ;;; mem_blk_set_prev next prev ;;; ret prev
    else ret mem_blk) in
  let! merge_next := (if last =? 0 then ret false else let! u := mem_blk_is_used next in ret (negb u)) in
  when merge_next (mem_blk_set_next tmp last ;;; mem_blk_set_prev last tmp) ;;;
  let! r := get_region num in
  when (mem_blk <? free_blk r) (
    put_region num (mkRegion (start_addr r) (total_size r) (caps r) mem_blk (free_bytes r) (min_free_bytes r))).

(** ** Bytes of the word memory, for the functions that fill and copy *)
Definition load_byte (a : Z) : M heap Z :=
  let! w := ld (a - a mod 4) in ret (w / 2 ^ (8 * (a mod 4)) mod 2 ^ 8).
Definition store_byte (a v : Z) : M heap unit :=
  let! w := ld (a - a mod 4) in
  let shift := 8 * (a mod 4) in
  st (a - a mod 4) (w + (u8 v - w / 2 ^ shift mod 2 ^ 8) * 2 ^ shift).
Definition memset (p v n : Z) : M heap unit := for_proc 0 (Z.to_nat n) (λ i, store_byte (p + i) v).
Definition memcpy (dst src n : Z) : M heap unit :=
  for_proc 0 (Z.to_nat n) (λ i, let! b := load_byte (src + i) in store_byte (dst + i) b).

(** [_heap_caps_calloc], [_heap_caps_realloc], [_heap_caps_zalloc]. *)
Definition heap_caps_calloc (count size wanted file line : Z) : M heap Z :=
  let! p := heap_caps_malloc (u32 (count * size)) wanted file line in
  when (negb (p =? 0)) (memset p 0 (u32 (count * size))) ;;;
  ret p.
Definition heap_caps_realloc (mem newsize wanted file line : Z) : M heap Z :=
  let! p := heap_caps_malloc newsize wanted file line in
  when (negb (p =? 0) && negb (mem =? 0)) (
    let! mem_size := ptr_size mem in
    memcpy p mem (Z.min newsize mem_size) ;;;
    heap_caps_free mem) ;;;
  ret p.
Definition heap_caps_zalloc (size wanted file line : Z) : M heap Z :=
  let! p := heap_caps_malloc size wanted file line in
  when (negb (p =? 0)) (memset p 0 size) ;;;
  ret p.

(** ** Words with a tag bit *)

Definition tag (b : bool) : Z := if b then 2 ^ 31 else 0.
Definition addr (p : Z) : Prop := 0 <= p < 2 ^ 31.

Lemma land_low p b : addr p → Z.land (p + tag b) 0x7FFFFFFF = p.
Proof.
  intros Hp. change 0x7FFFFFFF with (Z.ones 31). rewrite Z.land_ones by lia.
  unfold tag, addr in *. destruct b; dlia.
Qed.

Lemma lor_tag p b : addr p → Z.lor p (tag b) = p + tag b.
Proof.
  intros Hp. unfold tag. destruct b; [|by rewrite Z.lor_0_r, Z.add_0_r].
  change (2 ^ 31) with (1 * 2 ^ 31). by rewrite lor_fields.
Qed.

Lemma land_tag p b : addr p → Z.land (p + tag b) 0x80000000 = tag b.
Proof.
  intros Hp. rewrite <- lor_tag by done. rewrite Z.land_lor_distr_l.
  assert (Z.land p 0x80000000 = 0) as ->.
  { apply Z.bits_inj'. intros i Hi. rewrite Z.land_spec, Z.bits_0.
    destruct (Z.ltb_spec i 31) as [Hlt|Hge].
    - change 0x80000000 with (2 ^ 31). rewrite Z.pow2_bits_false by lia. btauto.
    - rewrite (testbit_range_high 31 i p) by (done || lia). btauto. }
  rewrite Z.lor_0_l. by destruct b.
Qed.

Lemma tag_zero b : (tag b =? 0) = negb b.
Proof. by destruct b. Qed.

(** ** Loads and stores *)

Definition with_mem (m : gmap Z Z) (h : heap) : heap := mkHeap m (g_heap_region h) (s_heap_trace_mode h).

Lemma ld_run h a w : mem h !! a = Some w → ld a h = Some (w, h).
Proof. intros E. unfold ld. rewrite (bind_run (get mem) _ h (mem h) h) by done. by apply lift_run. Qed.

Lemma st_run h a v w : mem h !! a = Some w → st a v h = Some (tt, with_mem (<[a := v]> (mem h)) h).
Proof.
  intros E. unfold st. rewrite (bind_run (get mem) _ h (mem h) h) by done.
  by rewrite (bind_run _ _ _ _ _ (lift_run _ _ _ E)).
Qed.

Lemma get_ptr_run h b off mask p t :
  mem h !! (b + 4 * off) = Some (p + tag t) → addr p → mask = 0x80000000 →
  mem_blk_get_ptr b off mask h = Some (p, h).
Proof.
  intros E Hp ->. unfold mem_blk_get_ptr. rewrite (bind_run _ _ _ _ _ (ld_run _ _ _ E)).
  change (0xFFFFFFFF - 0x80000000) with 0x7FFFFFFF. by rewrite land_low.
Qed.

Lemma set_ptr_run h b off mask p v t :
  mem h !! (b + 4 * off) = Some (p + tag t) → addr p → addr v → mask = 0x80000000 →
  mem_blk_set_ptr b v off mask h = Some (tt, with_mem (<[b + 4 * off := v + tag t]> (mem h)) h).
Proof.
  intros E Hp Hv ->. unfold mem_blk_set_ptr. rewrite (bind_run _ _ _ _ _ (ld_run _ _ _ E)).
  rewrite land_tag, u32_id, lor_tag by (done || (unfold addr, in_u32 in *; lia)). by eapply st_run.
Qed.

Section Words.
Context (h : heap) (b p : Z) (t : bool) (Hp : addr p).

Lemma prev_run : mem h !! b = Some (p + tag t) → mem_blk_prev b h = Some (p, h).
Proof. intros E. eapply get_ptr_run; [rewrite Z.mul_0_r, Z.add_0_r; exact E|done|done]. Qed.
Lemma next_run : mem h !! (b + 4) = Some (p + tag t) → mem_blk_next b h = Some (p, h).
Proof. intros E. by eapply get_ptr_run. Qed.
Lemma set_prev_run v : mem h !! b = Some (p + tag t) → addr v →
  mem_blk_set_prev b v h = Some (tt, with_mem (<[b := v + tag t]> (mem h)) h).
Proof.
  intros E Hv. pose proof (set_ptr_run h b 0 MEM_BLK_TAG p v t) as Hr.
  rewrite Z.mul_0_r, Z.add_0_r in Hr. by apply Hr.
Qed.
Lemma set_next_run v : mem h !! (b + 4) = Some (p + tag t) → addr v →
  mem_blk_set_next b v h = Some (tt, with_mem (<[b + 4 := v + tag t]> (mem h)) h).
Proof. intros E Hv. by apply (set_ptr_run h b 1 MEM_BLK_TRACE p v t). Qed.
Lemma is_used_run : mem h !! b = Some (p + tag t) → mem_blk_is_used b h = Some (t, h).
Proof.
  intros E. unfold mem_blk_is_used. rewrite (bind_run _ _ _ _ _ (ld_run _ _ _ E)).
  unfold MEM_BLK_TAG. rewrite land_tag, tag_zero, negb_involutive by done. done.
Qed.
Lemma set_used_run : mem h !! b = Some (p + tag t) →
  mem_blk_set_used b h = Some (tt, with_mem (<[b := p + tag true]> (mem h)) h).
Proof.
  intros E. unfold mem_blk_set_used. rewrite (bind_run _ _ _ _ _ (ld_run _ _ _ E)).
  unfold MEM_BLK_TAG. change 0x80000000 with (tag true).
  rewrite <- (lor_tag p t), <- Z.lor_assoc by done.
  assert (Z.lor (tag t) (tag true) = tag true) as -> by (by destruct t).
  rewrite lor_tag by done. by eapply st_run.
Qed.
Lemma set_unused_run : mem h !! b = Some (p + tag t) →
  mem_blk_set_unused b h = Some (tt, with_mem (<[b := p + tag false]> (mem h)) h).
Proof.
  intros E. unfold mem_blk_set_unused. rewrite (bind_run _ _ _ _ _ (ld_run _ _ _ E)).
  change (0xFFFFFFFF - MEM_BLK_TAG) with 0x7FFFFFFF. rewrite land_low by done.
  rewrite Z.add_0_r. by eapply st_run.
Qed.
Lemma set_untraced_run : mem h !! (b + 4) = Some (p + tag t) →
  mem_blk_set_untraced b h = Some (tt, with_mem (<[b + 4 := p + tag false]> (mem h)) h).
Proof.
  intros E. unfold mem_blk_set_untraced. rewrite (bind_run _ _ _ _ _ (ld_run _ _ _ E)).
  change (0xFFFFFFFF - MEM_BLK_TRACE) with 0x7FFFFFFF. rewrite land_low by done.
  rewrite Z.add_0_r. by eapply st_run.
Qed.
Lemma is_end_run : mem h !! (b + 4) = Some (p + tag t) → mem_blk_is_end b h = Some (p =? 0, h).
Proof. intros E. unfold mem_blk_is_end. by rewrite (bind_run _ _ _ _ _ (next_run E)). Qed.
Lemma link_size_run : mem h !! (b + 4) = Some (p + tag t) → 0 <= b <= p →
  blk_link_size b h = Some (p - b, h).
Proof.
  intros E Hb. unfold blk_link_size. rewrite (bind_run _ _ _ _ _ (next_run E)).
  by rewrite u32_id by (unfold addr, in_u32 in *; lia).
Qed.
End Words.

(** ** The chain of blocks *)

Record blk := mkBlk { bsize : Z; bused : bool; btraced : bool }.
#[global] Instance blk_eq_dec : EqDecision blk.
Proof. solve_decision. Defined.

Definition total (bs : list blk) : Z := foldr (λ b n, bsize b + n) 0 bs.

(** A block at [a] after the block at [p]. *)
Definition cells (m : gmap Z Z) (p a : Z) (b : blk) : Prop :=
  m !! a = Some (p + tag (bused b)) ∧ m !! (a + 4) = Some (a + bsize b + tag (btraced b)) ∧
  8 <= bsize b ∧ bsize b mod 4 = 0 ∧
  (btraced b = true → bused b = true ∧ 16 <= bsize b ∧ ∃ w, m !! (a + 12) = Some (w + tag true) ∧ addr w).

Fixpoint seg (m : gmap Z Z) (p a : Z) (bs : list blk) : Prop :=
  match bs with
  | [] => True
  | b :: bs => cells m p a b ∧ seg m a (a + bsize b) bs
  end.

(** The address of the last block of a segment, [p] when it is empty. *)
Fixpoint lastp (p a : Z) (bs : list blk) : Z :=
  match bs with [] => p | b :: bs => lastp a (a + bsize b) bs end.

(** A whole region: the blocks from [s] on and the end marker. *)
Definition chain (m : gmap Z Z) (p s : Z) (bs : list blk) : Prop :=
  seg m p s bs ∧ m !! (s + total bs) = Some (lastp p s bs) ∧ m !! (s + total bs + 4) = Some 0.

Lemma total_app l1 l2 : total (l1 ++ l2) = total l1 + total l2.
Proof. induction l1 as [|b l1 IH]; simpl; [lia|]. fold (total (l1 ++ l2)) (total l1). lia. Qed.

Lemma seg_app m p a l1 l2 :
  seg m p a (l1 ++ l2) ↔ seg m p a l1 ∧ seg m (lastp p a l1) (a + total l1) l2.
Proof.
  revert p a. induction l1 as [|b l1 IH]; intros p a; simpl.
  - rewrite Z.add_0_r. tauto.
  - rewrite IH. fold (total l1). rewrite Z.add_assoc. tauto.
Qed.

Lemma lastp_app p a l1 l2 : lastp p a (l1 ++ l2) = lastp (lastp p a l1) (a + total l1) l2.
Proof.
  revert p a. induction l1 as [|b l1 IH]; intros p a; simpl; [by rewrite Z.add_0_r|].
  fold (total l1). by rewrite IH, Z.add_assoc.
Qed.

Lemma chain_app m p s l1 l2 :
  chain m p s (l1 ++ l2) ↔ seg m p s l1 ∧ chain m (lastp p s l1) (s + total l1) l2.
Proof. unfold chain. rewrite seg_app, lastp_app, total_app, !Z.add_assoc. tauto. Qed.

Lemma seg_total m p a bs : seg m p a bs → 0 <= 8 * Z.of_nat (length bs) <= total bs.
Proof.
  revert p a. induction bs as [|b bs IH]; intros p a; simpl; [lia|].
  intros ((_ & _ & H8 & _) & Hs). apply IH in Hs. fold (total bs). lia.
Qed.

Lemma seg_align m p a bs : seg m p a bs → total bs mod 4 = 0.
Proof.
  revert p a. induction bs as [|b bs IH]; intros p a; simpl; [done|].
  intros ((_ & _ & _ & H4 & _) & Hs). apply IH in Hs. fold (total bs). dlia.
Qed.

(** A segment only depends on the words it covers, a chain also on the end
    marker. *)
Lemma cells_frame m m' p a b :
  (∀ x, a <= x < a + bsize b → m' !! x = m !! x) → cells m p a b → cells m' p a b.
Proof.
  intros Hm (H1 & H2 & H8 & H4 & Ht). unfold cells. rewrite !Hm by lia.
  split; [done|]. split; [done|]. split; [done|]. split; [done|]. intros E.
  destruct (Ht E) as (Hu & H16 & w & Hw & Ha). rewrite Hm by lia. eauto.
Qed.

Lemma seg_frame m m' p a bs :
  (∀ x, a <= x < a + total bs → m' !! x = m !! x) → seg m p a bs → seg m' p a bs.
Proof.
  revert p a. induction bs as [|b bs IH]; intros p a Hm; simpl; [done|]. intros [Hc Hs].
  pose proof (seg_total _ _ _ _ Hs). pose proof Hc as (_ & _ & H8 & _).
  simpl in Hm. fold (total bs) in *. split.
  - eapply cells_frame; [|exact Hc]. intros x Hx. apply Hm. lia.
  - apply IH; [|done]. intros x Hx. apply Hm. lia.
Qed.

Lemma chain_frame m m' p s bs :
  (∀ x, s <= x < s + total bs + 8 → m' !! x = m !! x) → chain m p s bs → chain m' p s bs.
Proof.
  intros Hm (Hs & H1 & H2). pose proof (seg_total _ _ _ _ Hs).
  split; [eapply seg_frame; [|done]; intros; apply Hm; lia|]. by rewrite !Hm by lia.
Qed.

(** Redirecting the first block (or the end marker) to another predecessor. *)
Definition head_used (bs : list blk) : bool := match bs with [] => false | b :: _ => bused b end.

Lemma chain_head m p s bs : chain m p s bs → m !! s = Some (p + tag (head_used bs)).
Proof.
  intros (Hs & H1 & _). destruct bs as [|b bs]; simpl in *.
  - rewrite Z.add_0_r in H1. rewrite H1. f_equal. lia.
  - by destruct Hs as ((? & _) & _).
Qed.

Lemma chain_set_head m p q s bs :
  chain m p s bs → chain (<[s := q + tag (head_used bs)]> m) q s bs.
Proof.
  intros (Hs & H1 & H2). destruct bs as [|b bs]; simpl in *.
  - rewrite Z.add_0_r in *. split; [done|]. simpl. rewrite Z.add_0_r.
    rewrite lookup_insert_eq, lookup_insert_ne by lia. split; [f_equal; lia|done].
  - destruct Hs as [Hc Hs]. pose proof (seg_total _ _ _ _ Hs) as Ht.
    destruct Hc as (Hc1 & Hc2 & H8 & H4 & Htr). fold (total bs) in *. split; simpl.
    + split.
      * unfold cells. rewrite lookup_insert_eq, !lookup_insert_ne by lia. done.
      * eapply seg_frame; [|exact Hs]. intros x Hx. apply lookup_insert_ne. lia.
    + fold (total bs). by rewrite !lookup_insert_ne by lia.
Qed.

(** The next pointer of the node at [s] (a block or the end marker). *)
Lemma chain_next m p s bs : chain m p s bs →
  m !! (s + 4) = Some (match bs with [] => 0 | b :: _ => s + bsize b + tag (btraced b) end).
Proof.
  intros (Hs & _ & H2). destruct bs as [|b bs]; simpl in *.
  - by rewrite Z.add_0_r in H2.
  - by destruct Hs as ((_ & ? & _) & _).
Qed.

(** ** Walking the chain *)

(** The first block that is not skipped, or the end marker. *)
Fixpoint find_addr (skip : blk → bool) (a : Z) (bs : list blk) : Z :=
  match bs with
  | [] => a
  | b :: bs => if skip b then find_addr skip (a + bsize b) bs else a
  end.

Lemma find_addr_range skip m p a bs : seg m p a bs → a <= find_addr skip a bs <= a + total bs.
Proof.
  revert p a. induction bs as [|b bs IH]; intros p a; simpl; [lia|].
  intros [(_ & _ & H8 & _) Hs]. pose proof (seg_total _ _ _ _ Hs). apply IH in Hs.
  fold (total bs) in *. destruct (skip b); lia.
Qed.

Lemma walk_run h p a bs skip (skipb : blk → bool) fuel :
  chain (mem h) p a bs → 0 < a → a + total bs + 8 <= 2 ^ 31 → (length bs < fuel)%nat →
  (∀ q x b, cells (mem h) q x b → addr q → 0 < x → x + bsize b < 2 ^ 31 → skip x h = Some (skipb b, h)) →
  addr p →
  walk fuel skip a h = Some (find_addr skipb a bs, h).
Proof.
  revert p a fuel. induction bs as [|b bs IH]; intros p a fuel Hch Ha Hend Hfuel Hskip Hp;
    destruct fuel as [|fuel]; simpl in Hfuel; try lia; cbn [walk find_addr].
  - destruct (Z.eqb_spec a 0); [lia|]. pose proof (chain_next _ _ _ _ Hch) as Hn.
    rewrite (bind_run _ _ _ _ _ (is_end_run h a 0 false ltac:(unfold addr; lia) Hn)). done.
  - destruct (Z.eqb_spec a 0); [lia|]. pose proof Hch as (Hs & He1 & He2).
    simpl in Hs, Hend. destruct Hs as [Hc Hs]. fold (total bs) in Hend.
    pose proof (seg_total _ _ _ _ Hs) as Ht. pose proof Hc as (_ & Hn & H8 & _).
    assert (Hna : addr (a + bsize b)) by (unfold addr; lia).
    rewrite (bind_run _ _ _ _ _ (is_end_run h a _ _ Hna Hn)).
    destruct (Z.eqb_spec (a + bsize b) 0); [lia|].
    rewrite (bind_run _ _ _ _ _ (Hskip p a b Hc Hp Ha ltac:(lia))).
    destruct (skipb b); [|done]. rewrite (bind_run _ _ _ _ _ (next_run h a _ _ Hna Hn)).
    apply (IH a); [|lia|simpl in *; lia|lia|done|unfold addr; lia].
    split; [done|]. simpl in He1, He2. fold (total bs) in *. by rewrite Z.add_assoc in He1, He2.
Qed.

Lemma find_addr_app skip a l1 l2 :
  Forall (λ b, skip b = true) l1 → find_addr skip a (l1 ++ l2) = find_addr skip (a + total l1) l2.
Proof.
  intros Hl. revert a. induction Hl as [|b l1 Hb Hl IH]; intros a; simpl; [by rewrite Z.add_0_r|].
  rewrite Hb, IH. fold (total l1). by rewrite Z.add_assoc.
Qed.

(** A list is skipped entirely or splits at the first block that is not. *)
Lemma skip_split (skip : blk → bool) bs :
  Forall (λ b, skip b = true) bs ∨
  ∃ l1 b l2, bs = l1 ++ b :: l2 ∧ Forall (λ b, skip b = true) l1 ∧ skip b = false.
Proof.
  induction bs as [|b bs IH]; [left; by apply Forall_nil_2|]. destruct (skip b) eqn:E.
  - destruct IH as [IH|(l1 & b' & l2 & -> & Hl & Hb)]; [left; by apply Forall_cons|right].
    exists (b :: l1), b', l2. split; [done|]. split; [by apply Forall_cons|done].
  - right. exists [], b, bs. split; [done|]. split; [by apply Forall_nil_2|done].
Qed.

Lemma find_addr_all skip a bs : Forall (λ b, skip b = true) bs → find_addr skip a bs = a + total bs.
Proof. intros Hs. pose proof (find_addr_app skip a bs [] Hs) as E. by rewrite app_nil_r in E. Qed.

Lemma find_addr_at skip a l1 b l2 :
  Forall (λ b, skip b = true) l1 → skip b = false → find_addr skip a (l1 ++ b :: l2) = a + total l1.
Proof. intros Hl Hb. rewrite find_addr_app by done. simpl. by rewrite Hb. Qed.

(** ** Merging two neighbours and splitting a block *)

(** [mem_blk_set_next(x, n); mem_blk_set_prev(n, x)] where [n] follows the
    successor of [x]: the two blocks become one. *)
Lemma merge_run h p a x y bs :
  chain (mem h) p a (x :: y :: bs) → 0 < a → a + total (x :: y :: bs) + 8 <= 2 ^ 31 → btraced x = false →
  ∃ m', bind (mem_blk_set_next a (a + bsize x + bsize y)) (λ _, mem_blk_set_prev (a + bsize x + bsize y) a) h
      = Some (tt, with_mem m' h) ∧
    chain m' p a (mkBlk (bsize x + bsize y) (bused x) false :: bs) ∧
    ∀ z, z ≠ a + 4 → z ≠ a + bsize x + bsize y → m' !! z = mem h !! z.
Proof.
  intros Hch Ha Hend Htr. pose proof (chain_app (mem h) p a [x; y] bs) as Happ.
  simpl app in Happ. rewrite Happ in Hch. clear Happ. destruct Hch as [Hs Hch].
  simpl in Hs, Hch, Hend. fold (total bs) in Hend. destruct Hs as ([Hx1 (Hx2 & Hx8 & Hx4 & _)] & Hy & _).
  pose proof Hy as (_ & _ & Hy8 & Hy4 & _).
  replace (a + (bsize x + (bsize y + 0))) with (a + bsize x + bsize y) in Hch by lia.
  assert (Htot : 0 <= total bs). { destruct Hch as (Hss & _). pose proof (seg_total _ _ _ _ Hss). lia. }
  set (n := a + bsize x + bsize y) in *.
  assert (Hn : addr n) by (unfold addr; lia). assert (Hxa : addr (a + bsize x)) by (unfold addr; lia).
  set (m1 := <[a + 4 := n + tag (btraced x)]> (mem h)).
  pose proof (set_next_run h a (a + bsize x) (btraced x) Hxa n Hx2 Hn) as H1. fold m1 in H1.
  assert (Hch1 : chain m1 (a + bsize x) n bs).
  { eapply chain_frame; [|exact Hch]. intros z Hz. unfold m1. apply lookup_insert_ne. lia. }
  pose proof (chain_head _ _ _ _ Hch1) as Hh1.
  pose proof (set_prev_run (with_mem m1 h) n (a + bsize x) _ Hxa a Hh1 ltac:(unfold addr; lia)) as H2.
  exists (<[n := a + tag (head_used bs)]> m1). rewrite (bind_run _ _ _ _ _ H1), H2.
  split; [done|]. split.
  - pose proof (chain_set_head m1 (a + bsize x) a n bs Hch1) as Hch2.
    apply (chain_app _ p a [mkBlk (bsize x + bsize y) (bused x) false] bs). simpl.
    replace (a + (bsize x + bsize y + 0)) with n by lia. split; [|done]. split; [|done].
    unfold cells. cbn [bsize bused btraced].
    rewrite lookup_insert_ne by lia. unfold m1. rewrite lookup_insert_ne by lia.
    split; [done|]. rewrite lookup_insert_ne, lookup_insert_eq, Htr by lia.
    split; [f_equal; lia|]. split; [lia|]. split; [dlia|]. done.
  - intros z Hz1 Hz2. unfold m1. by rewrite !lookup_insert_ne by lia.
Qed.

(** Cutting [need] bytes off a free block. *)
Lemma split_run h p a b bs need w1 w2 :
  chain (mem h) p a (b :: bs) → 0 < a → a + total (b :: bs) + 8 <= 2 ^ 31 → btraced b = false →
  8 <= need → need + 8 <= bsize b → need mod 4 = 0 →
  mem h !! (a + need) = Some w1 → mem h !! (a + need + 4) = Some w2 →
  let x := a + need in
  ∃ m', (st x 0 ;;; st (x + 4) 0 ;;; mem_blk_set_prev x a ;;;
         let! n := mem_blk_next a in mem_blk_set_next x n ;;;
         let! n := mem_blk_next a in mem_blk_set_prev n x ;;;
         mem_blk_set_next a x) h = Some (tt, with_mem m' h) ∧
    chain m' p a (mkBlk need (bused b) false :: mkBlk (bsize b - need) false false :: bs) ∧
    ∀ z, z ≠ a + 4 → z ≠ x → z ≠ x + 4 → z ≠ a + bsize b → m' !! z = mem h !! z.
Proof.
  intros Hch Ha Hend Htr Hneed Hfit Hal Hw1 Hw2 x. pose proof (chain_app (mem h) p a [b] bs) as Happ.
  simpl app in Happ. rewrite Happ in Hch. clear Happ. destruct Hch as [Hs Hch].
  simpl in Hs, Hch, Hend. fold (total bs) in Hend. destruct Hs as ((Hb1 & Hb2 & Hb8 & Hb4 & _) & _).
  rewrite Z.add_0_r in Hch. set (n := a + bsize b) in *.
  assert (Htot : 0 <= total bs). { destruct Hch as (Hss & _). pose proof (seg_total _ _ _ _ Hss). lia. }
  assert (Hn : addr n) by (unfold addr; lia). assert (Hx : addr x) by (unfold addr, x; lia).
  assert (Haa : addr a) by (unfold addr; lia). assert (H0 : addr 0) by (unfold addr; lia).
  assert (Hxn : a + 8 <= x /\ x + 8 <= n) by (unfold x, n; lia).
  fold x in Hw1, Hw2.
  set (m1 := <[x := 0]> (mem h)). rewrite (bind_run _ _ _ _ _ (st_run h x 0 w1 Hw1)). fold m1.
  assert (E2 : mem (with_mem m1 h) !! (x + 4) = Some w2).
  { cbn. unfold m1. by rewrite lookup_insert_ne by lia. }
  set (m2 := <[x + 4 := 0]> m1). rewrite (bind_run _ _ _ _ _ (st_run _ (x + 4) 0 w2 E2)).
  change (with_mem (<[x + 4 := 0]> (mem (with_mem m1 h))) (with_mem m1 h)) with (with_mem m2 h).
  assert (E3 : mem (with_mem m2 h) !! x = Some (0 + tag false)).
  { cbn. unfold m2, m1. rewrite lookup_insert_ne, lookup_insert_eq by lia. done. }
  rewrite (bind_run _ _ _ _ _ (set_prev_run _ x 0 false H0 a E3 Haa)).
  set (m3 := <[x := a + tag false]> m2).
  change (with_mem (<[x := a + tag false]> (mem (with_mem m2 h))) (with_mem m2 h)) with (with_mem m3 h).
  assert (E4 : mem (with_mem m3 h) !! (a + 4) = Some (n + tag (btraced b))).
  { cbn. unfold m3, m2, m1. by rewrite !lookup_insert_ne by lia. }
  rewrite (bind_run _ _ _ _ _ (next_run _ a n _ Hn E4)).
  assert (E5 : mem (with_mem m3 h) !! (x + 4) = Some (0 + tag false)).
  { cbn. unfold m3, m2. rewrite lookup_insert_ne, lookup_insert_eq by lia. done. }
  rewrite (bind_run _ _ _ _ _ (set_next_run _ x 0 false H0 n E5 Hn)).
  set (m4 := <[x + 4 := n + tag false]> m3).
  change (with_mem (<[x + 4 := n + tag false]> (mem (with_mem m3 h))) (with_mem m3 h)) with (with_mem m4 h).
  assert (E6 : mem (with_mem m4 h) !! (a + 4) = Some (n + tag (btraced b))).
  { cbn. unfold m4. rewrite lookup_insert_ne by lia. exact E4. }
  rewrite (bind_run _ _ _ _ _ (next_run _ a n _ Hn E6)).
  assert (Hch4 : chain m4 a n bs).
  { eapply chain_frame; [|exact Hch]. intros z Hz. unfold m4, m3, m2, m1. by rewrite !lookup_insert_ne by lia. }
  pose proof (chain_head _ _ _ _ Hch4) as E7.
  rewrite (bind_run _ _ _ _ _ (set_prev_run (with_mem m4 h) n a _ Haa x E7 Hx)).
  set (m5 := <[n := x + tag (head_used bs)]> m4).
  change (with_mem (<[n := x + tag (head_used bs)]> (mem (with_mem m4 h))) (with_mem m4 h)) with (with_mem m5 h).
  assert (E8 : mem (with_mem m5 h) !! (a + 4) = Some (n + tag (btraced b))).
  { cbn. unfold m5. rewrite lookup_insert_ne by lia. exact E6. }
  rewrite (set_next_run _ a n _ Hn x E8 Hx). rewrite Htr.
  exists (<[a + 4 := x + tag false]> m5). split; [done|].
  pose proof (chain_set_head m4 a x n bs Hch4) as Hch5. fold m5 in Hch5.
  split.
  - apply (chain_app _ p a [mkBlk need (bused b) false; mkBlk (bsize b - need) false false] bs). simpl.
    replace (a + need + (bsize b - need)) with n by lia.
    replace (a + (need + (bsize b - need + 0))) with n by lia. fold x. split.
    + split; [|split; [|done]]; unfold cells; cbn [bsize bused btraced].
      * rewrite lookup_insert_ne by lia. unfold m5. rewrite lookup_insert_ne by lia.
        unfold m4, m3, m2, m1. rewrite !lookup_insert_ne by lia. split; [done|].
        rewrite lookup_insert_eq. split; [done|]. split; [lia|]. split; [done|]. done.
      * rewrite lookup_insert_ne by lia. unfold m5. rewrite lookup_insert_ne by lia.
        unfold m4. rewrite lookup_insert_ne by lia. unfold m3. rewrite lookup_insert_eq.
        split; [done|]. rewrite !lookup_insert_ne, lookup_insert_eq by lia.
        split; [f_equal; unfold x, n; lia|]. split; [lia|]. split; [dlia|]. done.
    + eapply chain_frame; [|exact Hch5]. intros z Hz. apply lookup_insert_ne. lia.
  - intros z Hz1 Hz2 Hz3 Hz4. unfold m5, m4, m3, m2, m1. by rewrite !lookup_insert_ne by (unfold n; lia).
Qed.

(** ** Changing one block *)

Lemma lift_prefix m m' p s l1 l2 l2' :
  chain m p s (l1 ++ l2) → chain m' (lastp p s l1) (s + total l1) l2' →
  (∀ z, s <= z < s + total l1 → m' !! z = m !! z) → chain m' p s (l1 ++ l2').
Proof.
  intros [Hs _]%chain_app Hch Hm. apply chain_app. split; [|done]. by eapply seg_frame.
Qed.

Lemma chain_update m m' p a b b' bs :
  chain m p a (b :: bs) → cells m' p a b' → bsize b' = bsize b →
  (∀ z, a + bsize b <= z → m' !! z = m !! z) → chain m' p a (b' :: bs).
Proof.
  intros Hch Hc Hsz Hm. apply (chain_app m p a [b] bs) in Hch as [_ Hch].
  apply (chain_app m' p a [b'] bs). simpl in *. rewrite !Z.add_0_r in *. rewrite Hsz.
  split; [done|]. eapply chain_frame; [|exact Hch]. intros z Hz. apply Hm. lia.
Qed.

Lemma lastp_range m p a bs :
  seg m p a bs → addr p → 0 <= a → a + total bs < 2 ^ 31 → addr (lastp p a bs).
Proof.
  revert p a. induction bs as [|b bs IH]; intros p a; simpl; [done|].
  intros [(_ & _ & H8 & _) Hs] Hp Ha Ht. pose proof (seg_total _ _ _ _ Hs). fold (total bs) in *.
  apply IH; [done|unfold addr; lia|lia|lia].
Qed.

(** ** A region *)

Definition reg_start (r : heap_region_t) : Z := HEAP_ALIGN (start_addr r).
Definition reg_end (r : heap_region_t) : Z :=
  let e := HEAP_ALIGN (u32 (start_addr r + total_size r)) in
  (if e =? start_addr r + total_size r then e else e - 4) - MEM_HEAD_SIZE.

Definition free_total (bs : list blk) : Z := foldr (λ b n, (if bused b then 0 else bsize b) + n) 0 bs.

(** The words of a region are there. *)
Definition mapped (m : gmap Z Z) (lo hi : Z) : Prop := ∀ x, lo <= x < hi → x mod 4 = 0 → is_Some (m !! x).

(** Geometry: a positive start, room for one block, the end below 2^31. *)
Definition geometry (r : heap_region_t) : Prop :=
  0 < start_addr r ∧ 24 <= total_size r ∧ start_addr r + total_size r < 2 ^ 31.
#[global] Instance geometry_dec r : Decision (geometry r).
Proof. unfold geometry. apply _. Defined.

Definition region_ok (m : gmap Z Z) (r : heap_region_t) (bs : list blk) : Prop :=
  geometry r ∧ chain m 0 (reg_start r) bs ∧ reg_start r + total bs = reg_end r ∧
  mapped m (reg_start r) (reg_end r + 8) ∧
  free_blk r = find_addr bused (reg_start r) bs ∧ free_bytes r = free_total bs ∧
  0 <= min_free_bytes r <= free_bytes r.

Lemma HEAP_ALIGN_eq p : 0 <= p < 2 ^ 32 - 3 → HEAP_ALIGN p = (p + 3) / 4 * 4.
Proof.
  intros Hp. unfold HEAP_ALIGN, HEAP_ALIGN_SIZE. change (4 - 1) with 3.
  rewrite u32_id by (unfold in_u32; lia). set (x := p + 3).
  change (0xFFFFFFFF - 3) with (Z.shiftl (Z.ones 30) 2).
  assert (Z.land x (Z.shiftl (Z.ones 30) 2) = Z.shiftl (Z.land (Z.shiftr x 2) (Z.ones 30)) 2) as ->.
  { bits. destruct (Z.ltb_spec i 2).
    - rewrite !(Z.testbit_neg_r _ (i - 2)) by lia. btauto.
    - rewrite ?Z.land_spec, ?Z.shiftr_spec by lia. by replace (i - 2 + 2) with i by lia. }
  rewrite Z.land_ones, Z.shiftl_mul_pow2, Z.shiftr_div_pow2 by lia. change (2 ^ 2) with 4.
  rewrite Z.mod_small; [done|]. subst x. dlia.
Qed.

Lemma reg_start_eq r : geometry r → reg_start r = (start_addr r + 3) / 4 * 4.
Proof. intros (? & ? & ?). unfold reg_start. apply HEAP_ALIGN_eq. lia. Qed.

Lemma reg_bounds r : geometry r →
  reg_start r mod 4 = 0 ∧ start_addr r <= reg_start r ∧ reg_start r + 8 <= reg_end r ∧
  reg_end r + 8 <= start_addr r + total_size r ∧ reg_end r mod 4 = 0.
Proof.
  intros Hg. rewrite (reg_start_eq r Hg). destruct Hg as (H1 & H2 & H3).
  unfold reg_end, MEM_HEAD_SIZE. rewrite u32_id, HEAP_ALIGN_eq by (unfold in_u32; lia).
  destruct (Z.eqb_spec ((start_addr r + total_size r + 3) / 4 * 4) (start_addr r + total_size r));
    repeat split; dlia.
Qed.

Lemma need_bounds size tr : 0 <= size < 2 ^ 31 →
  let need := ptr2memblk_size size tr in
  need mod 4 = 0 ∧ size + mem_blk_head_size tr <= need < size + mem_blk_head_size tr + 4.
Proof.
  intros Hs. cbv zeta. unfold ptr2memblk_size, mem_blk_head_size, MEM2_HEAD_SIZE, MEM_HEAD_SIZE.
  destruct tr; rewrite u32_id, HEAP_ALIGN_eq by (unfold in_u32; lia); dlia.
Qed.

Lemma rounds_enough m r bs : region_ok m r bs → (length bs < rounds r)%nat.
Proof.
  intros (Hg & (Hs & _) & Ht & _). pose proof (seg_total _ _ _ _ Hs).
  pose proof (reg_bounds r Hg) as (_ & Hst & _ & He & _). unfold rounds.
  assert (8 * Z.of_nat (length bs) <= total_size r) by lia. dlia.
Qed.

Lemma free_total_app l1 l2 : free_total (l1 ++ l2) = free_total l1 + free_total l2.
Proof. induction l1 as [|b l1 IH]; simpl; [lia|]. fold (free_total (l1 ++ l2)) (free_total l1). lia. Qed.

Lemma free_total_nonneg m p a bs : seg m p a bs → 0 <= free_total bs <= total bs.
Proof.
  revert p a. induction bs as [|b bs IH]; intros p a; simpl; [lia|].
  intros [(_ & _ & H8 & _) Hs]. apply IH in Hs. fold (total bs) (free_total bs).
  destruct (bused b); lia.
Qed.

(** [free_blk] stands at a suffix whose first block, if any, is free. *)
Lemma free_blk_split r s bs : free_blk r = find_addr bused s bs →
  ∃ u v, bs = u ++ v ∧ Forall (λ b, bused b = true) u ∧ free_blk r = s + total u ∧
    match v with [] => True | b :: _ => bused b = false end.
Proof.
  intros ->. destruct (skip_split bused bs) as [Hall|(l1 & b & l2 & -> & Hl & Hb)].
  - exists bs, []. rewrite app_nil_r. split; [done|]. split; [done|]. split; [by apply find_addr_all|done].
  - exists l1, (b :: l2). split; [done|]. split; [done|]. split; [by apply find_addr_at|done].
Qed.

(** The first free block depends only on the blocks up to it. *)
Lemma find_free_cases s l1 b l2 : 
  (Forall (λ b, bused b = true) l1 ∧ (bused b = false → find_addr bused s (l1 ++ b :: l2) = s + total l1) ∧
    ∀ l', find_addr bused s (l1 ++ l') = find_addr bused (s + total l1) l') ∨
  (∃ a, (∀ l', find_addr bused s (l1 ++ l') = a) ∧
    ∀ m p, seg m p s l1 → a < s + total l1).
Proof.
  destruct (skip_split bused l1) as [Hall|(k1 & c & k2 & -> & Hk & Hc)].
  - left. split; [done|]. split; [intros Hb; by apply find_addr_at|]. intros l'. by apply find_addr_app.
  - right. exists (s + total k1). split.
    + intros l'. rewrite <- app_assoc. by apply find_addr_at.
    + intros m p [_ Hs]%seg_app. simpl in Hs. destruct Hs as [(_ & _ & H8 & _) Hs].
      pose proof (seg_total _ _ _ _ Hs). rewrite total_app. simpl. fold (total k2). lia.
Qed.

(** ** Allocation in a region *)

(** What the search passes over: used blocks and blocks that are too small. *)
Definition skip (need : Z) (b : blk) : bool := bused b || (bsize b <? need).

(** What becomes of the block found. *)
Definition carve (need head : Z) (used tr : bool) (b : blk) : list blk :=
  if need + head + MEM_BLK_MIN <=? bsize b
  then [mkBlk need used tr; mkBlk (bsize b - need) false false]
  else [mkBlk (bsize b) used tr].

Lemma cells_size_run h q x b :
  cells (mem h) q x b → 0 < x → x + bsize b < 2 ^ 31 → blk_link_size x h = Some (bsize b, h).
Proof.
  intros (_ & Hn & H8 & _) Hx Hb.
  rewrite (link_size_run h x (x + bsize b) (btraced b)) by (done || (unfold addr; lia)).
  do 2 f_equal. lia.
Qed.

Lemma find_block_run h r bs need :
  region_ok (mem h) r bs →
  walk (rounds r) (λ b, let! used := mem_blk_is_used b in
    if used then ret true else let! sz := blk_link_size b in ret (sz <? need)) (free_blk r) h
  = Some (find_addr (skip need) (reg_start r) bs, h).
Proof.
  intros Hok. pose proof (rounds_enough _ _ _ Hok) as Hfuel.
  destruct Hok as (Hg & Hch & Ht & _ & Hfree & _).
  pose proof (reg_bounds r Hg) as (_ & Hst & _ & He & _). pose proof Hg as (Hpos & _ & H31).
  destruct (free_blk_split r _ bs Hfree) as (u & v & -> & Hu & -> & _).
  pose proof Hch as [Hsu Hcv]%chain_app. pose proof (seg_total _ _ _ _ Hsu).
  rewrite total_app in Ht. rewrite length_app in Hfuel.
  assert (0 <= total v) by (destruct Hcv as (Hsv & _); pose proof (seg_total _ _ _ _ Hsv); lia).
  rewrite (find_addr_app (skip need) (reg_start r) u v).
  2: { eapply Forall_impl; [exact Hu|]. intros b Hb. unfold skip. by rewrite Hb. }
  assert (Hl : addr (lastp 0 (reg_start r) u)) by (eapply lastp_range; [exact Hsu|unfold addr; lia|lia|lia]).
  apply (walk_run h _ _ _ _ (skip need) _ Hcv); [lia|lia|lia| |done].
  intros q x b Hc Hq Hx Hb. pose proof Hc as (H1 & _). unfold skip.
  rewrite (bind_run _ _ _ _ _ (is_used_run h x q _ Hq H1)). destruct (bused b); [done|].
  by rewrite (bind_run _ _ _ _ _ (cells_size_run h q x b Hc Hx Hb)).
Qed.

(** The block found, cut to size when that leaves room for another one. *)
Lemma carve_run h p a b bs need tr :
  chain (mem h) p a (b :: bs) → 0 < a → a + total (b :: bs) + 8 <= 2 ^ 31 →
  bused b = false → a mod 4 = 0 → mapped (mem h) a (a + bsize b) →
  mem_blk_head_size tr <= need <= bsize b → need mod 4 = 0 →
  let nx := if u32 (need + mem_blk_head_size tr + MEM_BLK_MIN) <=? bsize b then a + need else a + bsize b in
  ∃ m', when (negb (a + bsize b =? nx)) (
      st nx 0 ;;; st (nx + 4) 0 ;;; mem_blk_set_prev nx a ;;;
      let! n := mem_blk_next a in mem_blk_set_next nx n ;;;
      let! n := mem_blk_next a in mem_blk_set_prev n nx ;;;
      mem_blk_set_next a nx) h = Some (tt, with_mem m' h) ∧
    chain m' p a (carve need (mem_blk_head_size tr) false false b ++ bs) ∧
    (∀ z, z < a ∨ a + bsize b + 4 <= z → m' !! z = mem h !! z) ∧
    (∀ z, is_Some (m' !! z) ↔ is_Some (mem h !! z)).
Proof.
  intros Hch Ha Hend Hfree Hal Hmap Hneed Hn4. pose proof Hch as (Hs & _). simpl in Hs, Hend.
  destruct Hs as [Hc Hs]. pose proof (seg_total _ _ _ _ Hs). fold (total bs) in Hend.
  pose proof Hc as (_ & Hnext & H8 & H4 & Htr).
  assert (Htf : btraced b = false) by (destruct (btraced b); [destruct (Htr eq_refl); congruence|done]).
  assert (Hh : mem_blk_head_size tr = 8 ∨ mem_blk_head_size tr = 16) by (destruct tr; auto).
  unfold carve, MEM_BLK_MIN. rewrite u32_id by (unfold in_u32; lia). cbv zeta.
  destruct (Z.leb_spec (need + mem_blk_head_size tr + 1) (bsize b)) as [Hfit|Hwhole].
  - destruct (Z.eqb_spec (a + bsize b) (a + need)); [lia|]. cbn [negb when].
    destruct (Hmap (a + need)) as [w1 Hw1]; [lia|dlia|].
    destruct (Hmap (a + need + 4)) as [w2 Hw2]; [dlia|dlia|].
    destruct (split_run h p a b bs need w1 w2 Hch Ha) as (m' & Hr & Hch' & Hfr);
      [simpl; fold (total bs); lia|done|lia|dlia|done|done|done|].
    exists m'. rewrite Hr. split; [done|]. rewrite Hfree in Hch'. split; [exact Hch'|].
    split; [intros z Hz; apply Hfr; lia|]. intros z.
    destruct (decide (z = a + 4 ∨ z = a + need ∨ z = a + need + 4 ∨ z = a + bsize b)) as [Hz|Hz].
    + apply (chain_app m' p a [mkBlk need false false; mkBlk (bsize b - need) false false] bs) in Hch' as [Hs' Hc'].
      simpl in Hs'. destruct Hs' as [(_ & E1 & _) [(E2 & E3 & _) _]]. apply chain_head in Hc'.
      simpl in Hc'. replace (a + (need + (bsize b - need + 0))) with (a + bsize b) in Hc' by lia.
      apply (chain_app (mem h) p a [b] bs) in Hch as [_ Hc0]. apply chain_head in Hc0. simpl in Hc0.
      rewrite Z.add_0_r in Hc0. cbn [bsize] in *.
      destruct Hz as [->|[->|[->| ->]]]; split; intros _; eexists; eassumption.
    + by rewrite Hfr by tauto.
  - rewrite Z.eqb_refl. cbn [negb when]. exists (mem h). destruct h as [mm gg tt']. split; [done|].
    split; [|done]. simpl in *. by destruct b as [bs1 [] []].
Qed.

(** Marking a block used, and traced when tracing is on. *)
Lemma mark_run h p a sz bs tr file line :
  chain (mem h) p a (mkBlk sz false false :: bs) → 0 < a → addr p →
  a + sz + total bs + 8 <= 2 ^ 31 → a mod 4 = 0 → mapped (mem h) a (a + sz) →
  mem_blk_head_size tr <= sz → addr line →
  ∃ m', bind (mem_blk_set_used a) (λ _, when tr (mem_blk_set_traced a file line)) h
      = Some (tt, with_mem m' h) ∧
    chain m' p a (mkBlk sz true tr :: bs) ∧
    (∀ z, z < a ∨ a + sz <= z → m' !! z = mem h !! z) ∧
    (∀ z, is_Some (mem h !! z) → is_Some (m' !! z)).
Proof.
  intros Hch Ha Hp Hend Hal Hmap Hh Hline. pose proof Hch as (Hs & _). simpl in Hs.
  destruct Hs as [(H1 & H2 & H8 & H4 & _) Hs]. cbn [bsize bused btraced] in *.
  pose proof (seg_total _ _ _ _ Hs).
  rewrite (bind_run _ _ _ _ _ (set_used_run h a p false Hp H1)).
  set (m1 := <[a := p + tag true]> (mem h)). change (<[a:=p + tag true]> (mem h)) with m1.
  destruct tr; cbn [when].
  - unfold mem_blk_head_size, MEM2_HEAD_SIZE in Hh.
    destruct (Hmap (a + 8)) as [w8 Hw8]; [lia|dlia|]. destruct (Hmap (a + 12)) as [w12 Hw12]; [lia|dlia|].
    unfold mem_blk_set_traced.
    assert (E2 : mem (with_mem m1 h) !! (a + 4) = Some (a + sz + tag false)).
    { cbn. unfold m1. by rewrite lookup_insert_ne by lia. }
    rewrite (bind_run _ _ _ _ _ (ld_run _ _ _ E2)), (bind_run _ _ _ _ _ (st_run _ _ _ _ E2)).
    assert (Ew : Z.lor (a + sz + tag false) MEM_BLK_TRACE = a + sz + tag true).
    { unfold MEM_BLK_TRACE. change 0x80000000 with (tag true). rewrite Z.add_0_r.
      apply lor_tag. unfold addr. lia. }
    rewrite Ew. set (m2 := <[a + 4 := a + sz + tag true]> m1).
    change (with_mem (<[a + 4:=a + sz + tag true]> (mem (with_mem m1 h))) (with_mem m1 h)) with (with_mem m2 h).
    assert (E3 : mem (with_mem m2 h) !! (a + 8) = Some w8).
    { cbn. unfold m2, m1. by rewrite !lookup_insert_ne by lia. }
    rewrite (bind_run _ _ _ _ _ (st_run _ _ file _ E3)).
    set (m3 := <[a + 8 := file]> m2).
    change (with_mem (<[a + 8:=file]> (mem (with_mem m2 h))) (with_mem m2 h)) with (with_mem m3 h).
    assert (E4 : mem (with_mem m3 h) !! (a + 12) = Some w12).
    { cbn. unfold m3, m2, m1. by rewrite !lookup_insert_ne by lia. }
    rewrite (st_run _ _ _ _ E4). unfold MEM_BLK_TRACE. change 0x80000000 with (tag true).
    rewrite lor_tag by done. exists (<[a + 12 := line + tag true]> m3). split; [done|]. split; [|split].
    + eapply chain_update; [exact Hch| |done|].
      * unfold cells. cbn [bsize bused btraced]. rewrite !lookup_insert_ne by lia.
        unfold m3, m2, m1. rewrite !lookup_insert_ne, !lookup_insert_eq by lia. split; [done|].
        rewrite !lookup_insert_ne, !lookup_insert_eq by lia. split; [done|]. split; [lia|].
        split; [done|]. intros _. split; [done|]. split; [lia|]. by exists line.
      * intros z Hz. cbn [bsize] in Hz. unfold m3, m2, m1. by rewrite !lookup_insert_ne by lia.
    + intros z Hz. unfold m3, m2, m1. by rewrite !lookup_insert_ne by lia.
    + intros z Hz. unfold m3, m2, m1. rewrite !lookup_insert_is_Some'. tauto.
  - exists m1. split; [done|]. split; [|split].
    + eapply chain_update; [exact Hch| |done|].
      * unfold cells. cbn [bsize bused btraced]. unfold m1. rewrite lookup_insert_eq, lookup_insert_ne by lia.
        done.
      * intros z Hz. cbn [bsize] in Hz. unfold m1. by rewrite lookup_insert_ne by lia.
    + intros z Hz. unfold m1. by rewrite lookup_insert_ne by lia.
    + intros z Hz. unfold m1. rewrite lookup_insert_is_Some'. tauto.
Qed.

Lemma put_region_run h num r : 0 <= num < Z.of_nat (length (g_heap_region h)) →
  put_region num r h = Some (tt, mkHeap (mem h) (<[Z.to_nat num := r]> (g_heap_region h)) (s_heap_trace_mode h)).
Proof.
  intros Hn. unfold put_region. rewrite (bind_run (get g_heap_region) _ h (g_heap_region h) h) by done.
  by rewrite (bind_run _ _ _ _ _ (lift_run _ _ _ (wr_Some _ _ _ Hn))).
Qed.

Lemma null_or_end_run h p a bs :
  chain (mem h) p a bs → 0 < a → a + total bs + 8 <= 2 ^ 31 →
  null_or_end a h = Some (match bs with [] => true | _ => false end, h).
Proof.
  intros Hch Ha He. unfold null_or_end. destruct (Z.eqb_spec a 0); [lia|].
  pose proof (chain_next _ _ _ _ Hch) as Hn. pose proof Hch as (Hs & _). destruct bs as [|b bs].
  - by rewrite (is_end_run h a 0 false ltac:(unfold addr; lia) Hn).
  - simpl in Hs, He. destruct Hs as [(_ & _ & H8 & _) Hs]. pose proof (seg_total _ _ _ _ Hs).
    fold (total bs) in He.
    rewrite (is_end_run h a (a + bsize b) _ ltac:(unfold addr; lia) Hn).
    by destruct (Z.eqb_spec (a + bsize b) 0); [lia|].
Qed.

(** Only the counters and [free_blk] of a region change. *)
Definition same_region (r r' : heap_region_t) : Prop :=
  start_addr r' = start_addr r ∧ total_size r' = total_size r ∧ caps r' = caps r.

Lemma same_geometry r r' : same_region r r' →
  (geometry r → geometry r') ∧ reg_start r' = reg_start r ∧ reg_end r' = reg_end r.
Proof. unfold same_region, geometry, reg_start, reg_end. by intros (-> & -> & _). Qed.

Lemma malloc_none h num r bs size file line :
  rd (g_heap_region h) num = Some r → region_ok (mem h) r bs →
  Forall (λ b, skip (ptr2memblk_size size (s_heap_trace_mode h =? HEAP_TRACE_LEAKS)) b = true) bs →
  malloc_in_region num size file line h = Some (0, h).
Proof.
  intros Hr Hok Hsk. unfold malloc_in_region, heap_trace_is_on.
  rewrite (bind_run (get _) _ h (s_heap_trace_mode h =? HEAP_TRACE_LEAKS) h) by done.
  rewrite (bind_run (get_region num) _ h r h).
  2: { unfold get_region. rewrite (bind_run (get g_heap_region) _ h (g_heap_region h) h) by done. by apply lift_run. }
  destruct (_ <? _); [done|]. rewrite (bind_run _ _ _ _ _ (find_block_run h r bs _ Hok)).
  rewrite find_addr_all by done. destruct Hok as (Hg & Hch & Ht & _).
  pose proof (reg_bounds r Hg) as (_ & Hst & Hse & He & _). pose proof Hg as (Hpos & _ & H31).
  pose proof (chain_app (mem h) 0 (reg_start r) bs []) as Happ. rewrite app_nil_r in Happ.
  apply Happ in Hch as [_ Hend].
  rewrite (bind_run _ _ _ _ _ (null_or_end_run _ _ _ _ Hend ltac:(lia) ltac:(simpl; lia))). done.
Qed.

Lemma carve_total need head used tr b : total (carve need head used tr b) = bsize b.
Proof. unfold carve. destruct (_ <=? _); simpl; lia. Qed.

(** The block a region hands out, and what that does to the region. *)
Lemma malloc_some h num r l1 b l2 size file line tr :
  rd (g_heap_region h) num = Some r → region_ok (mem h) r (l1 ++ b :: l2) →
  tr = (s_heap_trace_mode h =? HEAP_TRACE_LEAKS) → 0 <= size < 2 ^ 31 → addr line →
  let need := ptr2memblk_size size tr in let head := mem_blk_head_size tr in
  Forall (λ b, skip need b = true) l1 → skip need b = false →
  let a := reg_start r + total l1 in
  ∃ m' r', malloc_in_region num size file line h = Some (a + head,
      mkHeap m' (<[Z.to_nat num := r']> (g_heap_region h)) (s_heap_trace_mode h)) ∧
    same_region r r' ∧ region_ok m' r' (l1 ++ carve need head true tr b ++ l2) ∧
    (∀ z, z < a ∨ a + bsize b + 4 <= z → m' !! z = mem h !! z).
Proof.
  intros Hr Hok Htr Hsize Hline need head Hl1 Hb a.
  pose proof (rounds_enough _ _ _ Hok) as Hfuel. pose proof (find_block_run h r _ need Hok) as Hsearch.
  pose proof Hok as (Hg & Hch & Ht & Hmap & Hfree & Hbytes & Hmin).
  pose proof (reg_bounds r Hg) as (Hal & Hst & _ & He & _). pose proof Hg as (Hpos & _ & H31).
  pose proof (need_bounds size tr Hsize) as (Hn4 & Hneed). fold need in Hn4, Hneed.
  assert (Hskip : bused b = false ∧ need <= bsize b).
  { unfold skip in Hb. apply orb_false_iff in Hb as [? Hlt]. split; [done|lia]. }
  destruct Hskip as [Hbf Hfit]. apply rd_Some_range in Hr as Hrange.
  assert (Hh : 8 <= mem_blk_head_size tr <= 16) by (unfold mem_blk_head_size, MEM2_HEAD_SIZE, MEM_HEAD_SIZE; clear; destruct tr; lia).
  pose proof Hch as [Hs1 Hchb]%chain_app. pose proof (seg_total _ _ _ _ Hs1) as Ht1.
  pose proof (seg_align _ _ _ _ Hs1) as Ha4. fold a in Hchb.
  pose proof Hchb as (Hsb & _). simpl in Hsb. destruct Hsb as [Hcb Hs2]. pose proof (seg_total _ _ _ _ Hs2) as Ht2.
  pose proof Hcb as (_ & Hnext & H8 & H4 & _).
  rewrite total_app in Ht. simpl in Ht. fold (total l2) in Ht.
  assert (Hla : addr (lastp 0 (reg_start r) l1)) by (eapply lastp_range; [exact Hs1|unfold addr; lia|lia|lia]).
  assert (Hfb : bsize b <= free_bytes r).
  { rewrite Hbytes, free_total_app. simpl. rewrite Hbf. fold (free_total l2).
    pose proof (free_total_nonneg _ _ _ _ Hs1). pose proof (free_total_nonneg _ _ _ _ Hs2). lia. }
  unfold malloc_in_region, heap_trace_is_on.
  rewrite (bind_run (get _) _ h tr h) by (unfold get; by rewrite Htr). fold need head.
  rewrite (bind_run (get_region num) _ h r h).
  2: { unfold get_region. rewrite (bind_run (get g_heap_region) _ h (g_heap_region h) h) by done. by apply lift_run. }
  destruct (Z.ltb_spec (free_bytes r) need); [lia|].
  rewrite (bind_run _ _ _ _ _ Hsearch). rewrite find_addr_at by done. fold a.
  rewrite (bind_run _ _ _ _ _ (null_or_end_run _ _ _ _ Hchb ltac:(lia) ltac:(simpl; fold (total l2); lia))).
  rewrite (bind_run _ _ _ _ _ (cells_size_run h _ a b Hcb ltac:(lia) ltac:(lia))).
  assert (Hna : addr (a + bsize b)) by (unfold addr; lia).
  rewrite (bind_run _ _ _ _ _ (next_run h a _ _ Hna Hnext)).
  destruct (carve_run h _ a b l2 need tr Hchb) as (m1 & Hcarve & Hch1 & Hfr1 & Hdom1);
    [lia|simpl; fold (total l2); lia|done|dlia| |fold head; lia|done|].
  { intros x Hx Hx4. apply Hmap; [lia|done]. }
  fold head in Hcarve, Hch1. cbv zeta. rewrite (bind_run _ _ _ _ _ Hcarve).
  assert (Hmap1 : mapped m1 (reg_start r) (reg_end r + 8)).
  { intros x Hx Hx4. apply Hdom1. by apply Hmap. }
  (* the first block of what [carve] leaves is marked *)
  set (sz := if need + head + MEM_BLK_MIN <=? bsize b then need else bsize b).
  set (rest := if need + head + MEM_BLK_MIN <=? bsize b then [mkBlk (bsize b - need) false false] else []).
  assert (Hcv : ∀ u t, carve need head u t b = mkBlk sz u t :: rest).
  { intros u t. unfold carve, sz, rest. by destruct (need + head + MEM_BLK_MIN <=? bsize b). }
  assert (Hsz : need <= sz ∧ sz + total rest = bsize b).
  { unfold sz, rest. destruct (Z.leb_spec (need + head + MEM_BLK_MIN) (bsize b)); simpl; lia. }
  rewrite Hcv in Hch1. change ((mkBlk sz false false :: rest) ++ l2) with (mkBlk sz false false :: (rest ++ l2)) in Hch1.
  assert (Htr0 : 0 <= total rest).
  { unfold rest. destruct (Z.leb_spec (need + head + MEM_BLK_MIN) (bsize b)); unfold MEM_BLK_MIN in *; simpl; lia. }
  assert (Hftr : free_total rest = total rest).
  { unfold rest. by destruct (need + head + MEM_BLK_MIN <=? bsize b). }
  assert (Hsz0 : 0 <= sz) by lia. clearbody sz rest.
  destruct (mark_run (with_mem m1 h) _ a sz (rest ++ l2) tr file line Hch1) as (m2 & Hmark & Hch2 & Hfr2 & Hdom2);
    [lia|done|rewrite total_app; lia|dlia| |fold head; lia|done|].
  { intros x Hx Hx4. apply Hmap1; [lia|done]. }
  apply bind_Some_inv in Hmark as ([] & h2 & Hm1 & Hm2).
  rewrite (bind_run _ _ _ _ _ Hm1), (bind_run _ _ _ _ _ Hm2). clear Hm1 Hm2.
  change (with_mem m2 (with_mem m1 h)) with (with_mem m2 h). cbn [mem with_mem] in Hfr2, Hdom2.
  assert (Hfr : ∀ z, z < a ∨ a + bsize b + 4 <= z → m2 !! z = mem h !! z).
  { intros z Hz. rewrite Hfr2, Hfr1 by lia. done. }
  assert (Hnew : chain m2 0 (reg_start r) (l1 ++ carve need head true tr b ++ l2)).
  { rewrite Hcv. eapply lift_prefix; [exact Hch|exact Hch2|]. intros z Hz. apply Hfr. fold a in Hz. lia. }
  assert (Hpost : ∀ f, f = find_addr bused (reg_start r) (l1 ++ carve need head true tr b ++ l2) →
    let fb := free_bytes r - sz in
    let r' := mkRegion (start_addr r) (total_size r) (caps r) f fb (if fb <? min_free_bytes r then fb else min_free_bytes r) in
    same_region r r' ∧ region_ok m2 r' (l1 ++ carve need head true tr b ++ l2)).
  { intros f Hf. cbv zeta. split; [done|]. split; [exact Hg|].
    change (reg_start (mkRegion _ _ _ _ _ _)) with (reg_start r).
    change (reg_end (mkRegion _ _ _ _ _ _)) with (reg_end r). split; [done|].
    split; [rewrite !total_app, carve_total; lia|].
    split; [intros x Hx Hx4; apply Hdom2, Hmap1; done|]. cbn [free_blk free_bytes min_free_bytes].
    split; [done|].
    assert (Hft : free_bytes r - sz = free_total (l1 ++ carve need head true tr b ++ l2)).
    { rewrite Hbytes, !free_total_app, Hcv. simpl. rewrite Hbf. fold (free_total l2) (free_total rest).
      lia. }
    split; [done|]. pose proof (free_total_nonneg _ _ _ _ (proj1 Hnew)).
    destruct (Z.ltb_spec (free_bytes r - sz) (min_free_bytes r)); lia. }
  assert (Hfb2 : free_bytes r < 2 ^ 31).
  { rewrite Hbytes. pose proof (free_total_nonneg _ _ _ _ (proj1 Hch)) as Hft.
    rewrite total_app in Hft. simpl in Hft. fold (total l2) in Hft. lia. }
  assert (Hfinish : ∀ f, f = find_addr bused (reg_start r) (l1 ++ carve need head true tr b ++ l2) →
    ∃ m' r', (let! mem_blk_size := blk_link_size a in
      let fb := u32 (free_bytes r - mem_blk_size) in
      put_region num (mkRegion (start_addr r) (total_size r) (caps r) f fb
        (if fb <? min_free_bytes r then fb else min_free_bytes r)) ;;; ret (blk2ptr a tr)) (with_mem m2 h)
      = Some (a + head, mkHeap m' (<[Z.to_nat num := r']> (g_heap_region h)) (s_heap_trace_mode h)) ∧
      same_region r r' ∧ region_ok m' r' (l1 ++ carve need head true tr b ++ l2) ∧
      (∀ z, z < a ∨ a + bsize b + 4 <= z → m' !! z = mem h !! z)).
  { intros f Hf. pose proof Hch2 as ([Hca _] & _).
    rewrite (bind_run _ _ _ _ _ (cells_size_run (with_mem m2 h) _ a (mkBlk sz true tr) Hca ltac:(lia) ltac:(simpl; lia))).
    cbn [bsize]. rewrite u32_id by (unfold in_u32; lia).
    rewrite (bind_run _ _ _ _ _ (put_region_run (with_mem m2 h) num _ Hrange)).
    destruct (Hpost f Hf) as (Hsame & Hok'). eexists m2, _. split; [done|]. done. }
  (* where the first free block is now *)
  assert (Hlen : (length (carve need head true tr b ++ l2) < rounds r)%nat).
  { destruct (Hpost _ eq_refl) as (Hsame & Hok'). apply rounds_enough in Hok'. rewrite length_app in Hok'.
    unfold rounds in *. cbn [total_size] in Hok'. lia. }
  destruct (find_free_cases (reg_start r) l1 b l2) as [(Hall & Hat & Hany)|(a0 & Hany & Hlt)].
  - rewrite Hfree, Hat by done. fold a. rewrite Z.eqb_refl.
    assert (Hw : walk (rounds r) mem_blk_is_used a (with_mem m2 h) =
      Some (find_addr bused a (carve need head true tr b ++ l2), with_mem m2 h)).
    { rewrite Hcv in Hlen |- *. apply (walk_run (with_mem m2 h) _ _ _ _ bused _ Hch2);
        [lia|simpl; fold (total (rest ++ l2)); rewrite total_app; lia|done| |done].
      intros q x c (Hc1 & _) Hq Hx Hxb. by eapply is_used_run. }
    rewrite (bind_run _ _ _ _ _ Hw). apply Hfinish. by rewrite Hany.
  - specialize (Hlt _ _ Hs1). rewrite Hfree, Hany. destruct (Z.eqb_spec a0 a); [lia|].
    rewrite (bind_run (ret a0) _ (with_mem m2 h) a0 (with_mem m2 h)) by done.
    apply Hfinish. by rewrite Hany.
Qed.

(** ** Freeing *)

(** [z] is not a word of a header of the region. *)
Definition off_headers (s : Z) (bs : list blk) (z : Z) : Prop :=
  ∀ j1 j2, bs = j1 ++ j2 → z ≠ s + total j1 ∧ z ≠ s + total j1 + 4.

Definition merge_left (l1 : list blk) (f : blk) : list blk * blk :=
  match last l1 with
  | Some p => if bused p then (l1, f) else (take (length l1 - 1) l1, mkBlk (bsize p + bsize f) false false)
  | None => (l1, f)
  end.
Definition merge_right (f : blk) (l2 : list blk) : list blk :=
  match l2 with
  | n :: l2' => if bused n then f :: l2 else mkBlk (bsize f + bsize n) false false :: l2'
  | [] => [f]
  end.
(** What freeing [b] leaves. *)
Definition release (l1 : list blk) (b : blk) (l2 : list blk) : list blk :=
  let '(l1', f) := merge_left l1 (mkBlk (bsize b) false false) in l1' ++ merge_right f l2.

Lemma unused_untraced m p a b : cells m p a b → bused b = false → btraced b = false.
Proof.
  intros (_ & _ & _ & _ & Ht) Hu. destruct (btraced b); [|done]. destruct (Ht eq_refl). congruence.
Qed.

(** [mem_blk_set_unused(a); mem_blk_set_untraced(a)]. *)
Lemma unmark_run h p a b bs :
  chain (mem h) p a (b :: bs) → 0 < a → addr p → a + total (b :: bs) + 8 <= 2 ^ 31 →
  ∃ h1 m', mem_blk_set_unused a h = Some (tt, h1) ∧ mem_blk_set_untraced a h1 = Some (tt, with_mem m' h) ∧
    chain m' p a (mkBlk (bsize b) false false :: bs) ∧
    (∀ z, z ≠ a → z ≠ a + 4 → m' !! z = mem h !! z) ∧ ∀ z, is_Some (mem h !! z) → is_Some (m' !! z).
Proof.
  intros Hch Ha Hp Hend. pose proof Hch as (Hs & _). simpl in Hs, Hend.
  destruct Hs as [(H1 & H2 & H8 & H4 & Ht) Hs]. pose proof (seg_total _ _ _ _ Hs). fold (total bs) in Hend.
  assert (Hn : addr (a + bsize b)) by (unfold addr; lia).
  rewrite (set_unused_run h a p _ Hp H1). set (m1 := <[a := p + tag false]> (mem h)).
  change (<[a:=p + tag false]> (mem h)) with m1.
  assert (E2 : mem (with_mem m1 h) !! (a + 4) = Some (a + bsize b + tag (btraced b))).
  { cbn. unfold m1. by rewrite lookup_insert_ne by lia. }
  eexists _, _. split; [done|]. rewrite (set_untraced_run _ _ _ _ Hn E2). split; [done|]. cbn [mem with_mem].
  split; [|split].
  - eapply chain_update; [exact Hch| |done|].
    + unfold cells. cbn [bsize bused btraced]. unfold m1. rewrite !lookup_insert_ne, !lookup_insert_eq by lia.
      done.
    + intros z Hz. unfold m1. by rewrite !lookup_insert_ne by lia.
  - intros z Hz1 Hz2. unfold m1. by rewrite !lookup_insert_ne by done.
  - intros z Hz. unfold m1. rewrite !lookup_insert_is_Some'. tauto.
Qed.

Lemma set_dom (m m' : gmap Z Z) (P : Z → Prop) :
  (∀ z, ¬ P z → m' !! z = m !! z) → (∀ z, P z → is_Some (m' !! z)) → (∀ z, Decision (P z)) →
  ∀ z, is_Some (m !! z) → is_Some (m' !! z).
Proof. intros H1 H2 Hd z Hz. destruct (Hd z); [auto|]. by rewrite H1. Qed.

(** The merge with the next block, if that is free. *)
Lemma merge_right_run h p t x l2 :
  chain (mem h) p t (x :: l2) → 0 < t → addr p → t + total (x :: l2) + 8 <= 2 ^ 31 → bused x = false →
  let next := t + bsize x in
  let last := match l2 with [] => 0 | n :: _ => next + bsize n end in
  ∃ m', (let! merge_next := (if last =? 0 then ret false else let! u := mem_blk_is_used next in ret (negb u)) in
      when merge_next (mem_blk_set_next t last ;;; mem_blk_set_prev last t)) h = Some (tt, with_mem m' h) ∧
    chain m' p t (merge_right x l2) ∧
    (∀ z, off_headers t (x :: l2) z → m' !! z = mem h !! z) ∧
    (∀ z, z < t → m' !! z = mem h !! z) ∧
    (∀ z, is_Some (mem h !! z) → is_Some (m' !! z)).
Proof.
  intros Hch Ht Hp Hend Hx next last. pose proof Hch as ([Hcx Hs] & _). simpl in Hend.
  pose proof (seg_total _ _ _ _ Hs). fold (total l2) in Hend.
  pose proof (unused_untraced _ _ _ _ Hcx Hx) as Hxt. pose proof Hcx as (_ & _ & Hx8 & Hx4 & _).
  assert (Hsame : ∃ m', Some (tt, h) = Some (tt, with_mem m' h) ∧ chain m' p t (x :: l2) ∧
    (∀ z, off_headers t (x :: l2) z → m' !! z = mem h !! z) ∧ (∀ z, z < t → m' !! z = mem h !! z) ∧
    (∀ z, is_Some (mem h !! z) → is_Some (m' !! z))).
  { exists (mem h). destruct h. done. }
  destruct l2 as [|n l2]; [exact Hsame|]. simpl in Hs. destruct Hs as [Hcn Hs].
  pose proof Hcn as (Hn1 & _ & Hn8 & Hn4 & _). simpl in Hend. fold (total l2) in Hend.
  pose proof (seg_total _ _ _ _ Hs). unfold last, next.
  destruct (Z.eqb_spec (t + bsize x + bsize n) 0); [lia|].
  assert (Hta : addr t) by (unfold addr; lia).
  erewrite bind_run by (rewrite (bind_run _ _ _ _ _ (is_used_run h _ t _ Hta Hn1)); reflexivity).
  unfold merge_right. destruct (bused n); cbn [negb when]; [exact Hsame|].
  destruct (merge_run h p t x n l2 Hch Ht) as (m' & Hr & Hch' & Hfr);
    [simpl; fold (total l2); lia|done|].
  exists m'. rewrite Hr, Hx in *. split; [done|]. split; [done|].
  split; [|split].
  - intros z Hz. apply Hfr.
    + pose proof (Hz [] (x :: n :: l2) eq_refl) as [_ Hz1]. simpl in Hz1. lia.
    + pose proof (Hz [x; n] l2 eq_refl) as [Hz1 _]. simpl in Hz1. lia.
  - intros z Hz. apply Hfr; lia.
  - apply (set_dom _ _ (λ z, z = t + 4 ∨ z = t + bsize x + bsize n)); [|intros z [->| ->]|apply _].
    + intros z Hz. apply Hfr; tauto.
    + rewrite (chain_next _ _ _ _ Hch'). done.
    + apply (chain_app m' p t [mkBlk (bsize x + bsize n) false false] l2) in Hch' as [_ Hc].
      apply chain_head in Hc. simpl in Hc. replace (t + (bsize x + bsize n + 0)) with (t + bsize x + bsize n) in Hc by lia.
      rewrite Hc. done.
Qed.

(** The merge with the previous block, if there is one and it is free. *)
Lemma merge_left_run h s l1 f l2 :
  chain (mem h) 0 s (l1 ++ f :: l2) → 0 < s → s + total (l1 ++ f :: l2) + 8 <= 2 ^ 31 → bused f = false →
  let a := s + total l1 in let prev := lastp 0 s l1 in let next := a + bsize f in
  let l1' := (merge_left l1 f).1 in let f' := (merge_left l1 f).2 in
  ∃ m', (let! merge_prev := (if prev =? 0 then ret false else let! u := mem_blk_is_used prev in ret (negb u)) in
      if merge_prev then mem_blk_set_next prev next ;;; mem_blk_set_prev next prev ;;; ret prev
      else ret a) h = Some (s + total l1', with_mem m' h) ∧
    chain m' 0 s (l1' ++ f' :: l2) ∧ bused f' = false ∧ s + total l1' + bsize f' = next ∧
    (∃ k, l1 = l1' ++ k ∧ Forall (λ b, bused b = false) k) ∧
    (∀ z, off_headers s (l1 ++ f :: l2) z → m' !! z = mem h !! z) ∧
    (∀ z, z < s → m' !! z = mem h !! z) ∧
    (∀ z, is_Some (mem h !! z) → is_Some (m' !! z)).
Proof.
  intros Hch Hs Hend Hf a prev next l1' f'. pose proof Hch as [Hs1 Hcf]%chain_app. 
  pose proof (seg_total _ _ _ _ Hs1) as Ht1. pose proof Hcf as ([Hcff Hs2] & _).
  pose proof (seg_total _ _ _ _ Hs2) as Ht2. pose proof (unused_untraced _ _ _ _ Hcff Hf) as Hft.
  pose proof Hcff as (_ & _ & Hf8 & _). rewrite total_app in Hend. simpl in Hend. fold (total l2) in Hend.
  assert (Hsame : merge_left l1 f = (l1, f) → ∃ m', Some (a, h) = Some (s + total l1', with_mem m' h) ∧
    chain m' 0 s (l1' ++ f' :: l2) ∧ bused f' = false ∧ s + total l1' + bsize f' = next ∧
    (∃ k, l1 = l1' ++ k ∧ Forall (λ b, bused b = false) k) ∧
    (∀ z, off_headers s (l1 ++ f :: l2) z → m' !! z = mem h !! z) ∧
    (∀ z, z < s → m' !! z = mem h !! z) ∧ (∀ z, is_Some (mem h !! z) → is_Some (m' !! z))).
  { intros E. unfold l1', f'. rewrite E. exists (mem h). cbn [fst snd]. destruct h. split; [done|].
    split; [done|]. split; [done|]. split; [done|].
    split; [exists []; rewrite app_nil_r; split; [done|by apply Forall_nil_2]|done]. }
  destruct l1 as [|p k _] using rev_ind; [by apply Hsame|].
  assert (Hlast : merge_left (k ++ [p]) f =
    if bused p then (k ++ [p], f) else (k, mkBlk (bsize p + bsize f) false false)).
  { unfold merge_left. rewrite last_snoc. destruct (bused p); [done|].
    rewrite length_app, Nat.add_sub. by rewrite take_app_length. }
  assert (Hprev : prev = s + total k) by (unfold prev; by rewrite lastp_app).
  apply seg_app in Hs1 as [Hsk Hsp]. simpl in Hsp. destruct Hsp as [Hcp _].
  rewrite total_app in Ht1, Hend. simpl in Ht1, Hend.
  pose proof Hcp as (Hp1 & _ & Hp8 & _). pose proof (seg_total _ _ _ _ Hsk) as Htk.
  rewrite Hprev. destruct (Z.eqb_spec (s + total k) 0); [lia|].
  assert (Hla : addr (lastp 0 s k)) by (eapply lastp_range; [exact Hsk|unfold addr; lia|lia|lia]).
  erewrite bind_run by (rewrite (bind_run _ _ _ _ _ (is_used_run h _ _ _ Hla Hp1)); reflexivity).
  destruct (bused p) eqn:Hpu; cbn [negb]; [by apply Hsame|].
  pose proof (unused_untraced _ _ _ _ Hcp Hpu) as Hpt.
  pose proof Hch as Hch2. rewrite <- app_assoc in Hch2. simpl in Hch2. apply chain_app in Hch2 as [_ Hch2].
  destruct (merge_run h _ (s + total k) p f l2 Hch2) as (m' & Hr & Hch' & Hfr);
    [lia|simpl; fold (total l2); lia|done|].
  assert (Hnext : next = s + total k + bsize p + bsize f).
  { unfold next, a. rewrite total_app. simpl. lia. }
  rewrite Hnext. apply bind_Some_inv in Hr as ([] & h1 & Hr1 & Hr2).
  rewrite (bind_run _ _ _ _ _ Hr1), (bind_run _ _ _ _ _ Hr2).
  unfold l1', f'. rewrite Hlast. cbn [fst snd]. exists m'. split; [done|]. rewrite Hpu in Hch'.
  split. { rewrite <- app_assoc in Hch. simpl in Hch. eapply lift_prefix; [exact Hch|exact Hch'|].
    intros z Hz. apply Hfr; lia. }
  split; [done|]. split; [simpl; lia|]. split; [exists [p]; split; [done|by apply Forall_singleton]|].
  split; [|split].
  - intros z Hz. apply Hfr.
    + pose proof (Hz k (p :: f :: l2)) as Hz1. rewrite <- app_assoc in Hz1. by apply Hz1.
    + pose proof (Hz (k ++ [p; f]) l2) as Hz1. rewrite <- !app_assoc in Hz1. simpl in Hz1.
      rewrite total_app in Hz1. simpl in Hz1. destruct (Hz1 eq_refl). lia.
  - intros z Hz. apply Hfr; lia.
  - apply (set_dom _ _ (λ z, z = s + total k + 4 ∨ z = s + total k + bsize p + bsize f)); [|intros z [->| ->]|apply _].
    + intros z Hz. apply Hfr; tauto.
    + rewrite (chain_next _ _ _ _ Hch'). done.
    + apply (chain_app m' _ (s + total k) [mkBlk (bsize p + bsize f) false false] l2) in Hch' as [_ Hc].
      apply chain_head in Hc. simpl in Hc.
      replace (s + total k + (bsize p + bsize f + 0)) with (s + total k + bsize p + bsize f) in Hc by lia.
      rewrite Hc. done.
Qed.

Lemma merge_right_totals f l2 : bused f = false →
  total (merge_right f l2) = bsize f + total l2 ∧ free_total (merge_right f l2) = bsize f + free_total l2.
Proof.
  intros Hf. unfold merge_right. destruct l2 as [|n l2]; simpl; [by rewrite Hf; lia|].
  destruct (bused n) eqn:E; simpl; rewrite ?Hf, ?E; fold (total l2) (free_total l2); lia.
Qed.

Lemma merge_right_head f l2 : bused f = false → ∃ x l', merge_right f l2 = x :: l' ∧ bused x = false.
Proof.
  intros Hf. unfold merge_right. destruct l2 as [|n l2]; [by eexists _, _|].
  by destruct (bused n); eexists _, _.
Qed.

Lemma free_total_unused k : Forall (λ b, bused b = false) k → free_total k = total k.
Proof. induction 1 as [|b k Hb Hk IH]; [done|]. simpl. rewrite Hb. fold (free_total k) (total k). lia. Qed.

(** Absorbing free blocks does not move the first free block. *)
Lemma find_free_absorb s l1 k X Y x l' :
  k ≠ [] → Forall (λ b, bused b = false) k → Y = x :: l' → bused x = false →
  find_addr bused s (l1 ++ Y) = find_addr bused s ((l1 ++ k) ++ X).
Proof.
  intros Hk Hu -> Hx. rewrite <- app_assoc. destruct k as [|c k]; [done|].
  inversion_clear Hu as [|? ? Hc Hu'].
  destruct (skip_split bused l1) as [Hall|(u1 & d & u2 & -> & Hu1 & Hd)].
  - simpl. rewrite !find_addr_at by done. done.
  - rewrite <- !app_assoc. simpl. by rewrite !find_addr_at by done.
Qed.

Lemma off_headers_app s l1 l2 z :
  off_headers s (l1 ++ l2) z ↔ off_headers s l1 z ∧ off_headers (s + total l1) l2 z.
Proof.
  split.
  - intros Hz. split; intros j1 j2 ->.
    + apply (Hz j1 (j2 ++ l2)). by rewrite app_assoc.
    + pose proof (Hz (l1 ++ j1) j2) as H. rewrite <- app_assoc, total_app in H.
      rewrite <- Z.add_assoc. by apply H.
  - intros [H1 H2] j1 j2 [(k & -> & E)|(k & -> & E)]%app_eq_inv.
    + by apply (H1 j1 k).
    + rewrite total_app, Z.add_assoc. by apply (H2 k j2).
Qed.

Lemma off_headers_head s bs z : off_headers s bs z → z ≠ s ∧ z ≠ s + 4.
Proof. intros Hz. destruct (Hz [] bs eq_refl) as [H1 H2]. simpl in *. lia. Qed.

Lemma off_headers_cons s b bs z :
  off_headers s (b :: bs) z ↔ (z ≠ s ∧ z ≠ s + 4) ∧ off_headers (s + bsize b) bs z.
Proof.
  pose proof (off_headers_app s [b] bs z) as E. simpl in E. rewrite Z.add_0_r in E. rewrite E. split.
  - intros [H1 H2]. split; [by apply off_headers_head in H1|done].
  - intros [H1 H2]. split; [|done]. apply off_headers_head in H2. intros j1 j2 Ej.
    destruct j1 as [|c [|d j1]]; simplify_eq/=; lia.
Qed.

Lemma off_headers_outside m p s bs z :
  seg m p s bs → z < s ∨ s + total bs + 8 <= z → off_headers s bs z.
Proof.
  intros Hs Hz j1 j2 ->. apply seg_app in Hs as [H1 H2].
  pose proof (seg_total _ _ _ _ H1). pose proof (seg_total _ _ _ _ H2). rewrite total_app in Hz. lia.
Qed.

(** The words between the headers: what a block holds. *)
Lemma off_headers_payload m p s k1 c k2 z :
  seg m p s (k1 ++ c :: k2) → s + total k1 + 8 <= z < s + total k1 + bsize c →
  off_headers s (k1 ++ c :: k2) z.
Proof.
  intros [H1 [Hc H2]]%seg_app Hz. apply off_headers_app. split.
  - eapply off_headers_outside; [exact H1|]. lia.
  - apply off_headers_cons. split; [lia|]. eapply off_headers_outside; [exact H2|]. lia.
Qed.

(** Where the first free block of the region is after a release. *)
Lemma release_free_blk m s l1 b l2 f' l1' k :
  seg m 0 s (l1 ++ b :: l2) → bused b = true → bused f' = false →
  l1 = l1' ++ k → Forall (λ b, bused b = false) k →
  let a := s + total l1 in let old := find_addr bused s (l1 ++ b :: l2) in
  (if a <? old then a else old) = find_addr bused s (l1' ++ merge_right f' l2).
Proof.
  intros Hs Hb Hf -> Hk a old. apply seg_app in Hs as [H1 H2]. simpl in H2. destruct H2 as [(_ & _ & H8 & _) H2].
  destruct (merge_right_head f' l2 Hf) as (x & l' & E & Hx).
  destruct (decide (k = [])) as [->|Hne].
  - unfold a, old. rewrite app_nil_r in *. destruct (find_free_cases s l1' b l2) as [(Hall & _ & Hany)|(a0 & Hany & Hlt)].
    + rewrite !Hany. simpl. rewrite Hb.
      pose proof (find_addr_range bused _ _ _ _ H2). rewrite E. simpl. rewrite Hx.
      destruct (Z.ltb_spec (s + total l1') (find_addr bused (s + total l1' + bsize b) l2)); lia.
    + specialize (Hlt _ _ H1). rewrite !Hany. destruct (Z.ltb_spec (s + total l1') a0); lia.
  - unfold a, old. rewrite <- (find_free_absorb s l1' k (b :: l2) _ x l' Hne Hk E Hx).
    destruct (Z.ltb_spec (s + total (l1' ++ k)) (find_addr bused s (l1' ++ merge_right f' l2))) as [Hlt|]; [|done].
    exfalso. destruct k as [|c k]; [done|]. inversion_clear Hk as [|? ? Hc Hk'].
    apply seg_app in H1 as [H1 Hck]. simpl in Hck. destruct Hck as [(_ & _ & Hc8 & _) Hck].
    pose proof (seg_total _ _ _ _ Hck). rewrite total_app in Hlt. simpl in Hlt. fold (total k) in Hlt.
    rewrite (find_free_absorb s l1' (c :: k) (b :: l2) _ x l' Hne) in Hlt;
      [|by apply Forall_cons|exact E|exact Hx].
    rewrite <- app_assoc in Hlt. simpl in Hlt.
    destruct (find_free_cases s l1' c (k ++ b :: l2)) as [(_ & Hat & _)|(a0 & Hany & Ha0)].
    + rewrite Hat in Hlt by done. lia.
    + rewrite Hany in Hlt. specialize (Ha0 _ _ H1). lia.
Qed.

(** [ptr_is_traced] tells a traced block from its pointer. *)
Lemma ptr_is_traced_run h p a b :
  cells (mem h) p a b → 0 < a → a + bsize b < 2 ^ 31 →
  ptr_is_traced (a + mem_blk_head_size (btraced b)) h = Some (btraced b, h).
Proof.
  intros (_ & H2 & H8 & _ & Ht) Ha Hb. unfold ptr_is_traced, mem_blk_head_size, MEM2_HEAD_SIZE, MEM_HEAD_SIZE.
  destruct (btraced b) eqn:E.
  - destruct (Ht eq_refl) as (_ & _ & w & Hw & Hwa). replace (a + 16 - 4) with (a + 12) by lia.
    rewrite (bind_run _ _ _ _ _ (ld_run _ _ _ Hw)). unfold MEM_BLK_TRACE. by rewrite land_tag.
  - replace (a + 8 - 4) with (a + 4) by lia.
    rewrite (bind_run _ _ _ _ _ (ld_run _ _ _ H2)). unfold MEM_BLK_TRACE.
    by rewrite land_tag by (unfold addr; lia).
Qed.

Lemma free_some h num r l1 b l2 :
  rd (g_heap_region h) num = Some r → region_ok (mem h) r (l1 ++ b :: l2) → bused b = true →
  let ptr := reg_start r + total l1 + mem_blk_head_size (btraced b) in
  region_of ptr (g_heap_region h) 0 = num →
  ∃ m' r', heap_caps_free ptr h =
      Some (tt, mkHeap m' (<[Z.to_nat num := r']> (g_heap_region h)) (s_heap_trace_mode h)) ∧
    same_region r r' ∧ region_ok m' r' (release l1 b l2) ∧
    (∀ z, off_headers (reg_start r) (l1 ++ b :: l2) z → m' !! z = mem h !! z).
Proof.
  intros Hr Hok Hb ptr Hreg. pose proof Hok as (Hg & Hch & Ht & Hmap & Hfree & Hbytes & Hmin).
  pose proof (reg_bounds r Hg) as (Hal & Hst & _ & He & _). pose proof Hg as (Hpos & _ & H31).
  set (s := reg_start r) in *. set (a := s + total l1). apply rd_Some_range in Hr as Hrange.
  pose proof Hch as [Hs1 Hcb]%chain_app. pose proof Hcb as ([Hc Hs2] & _). fold a in Hcb, Hc, Hs2.
  pose proof (seg_total _ _ _ _ Hs1) as Ht1. pose proof (seg_total _ _ _ _ Hs2) as Ht2.
  pose proof Hc as (Hw1 & Hw2 & H8 & _). rewrite total_app in Ht. simpl in Ht. fold (total l2) in Ht.
  assert (Hla : addr (lastp 0 s l1)) by (eapply lastp_range; [exact Hs1|unfold addr; lia|lia|lia]).
  assert (Hhead : 8 <= mem_blk_head_size (btraced b) <= 16) by
    (unfold mem_blk_head_size, MEM2_HEAD_SIZE, MEM_HEAD_SIZE; destruct (btraced b); lia).
  unfold heap_caps_free. destruct (Z.eqb_spec ptr 0); [unfold ptr in *; lia|].
  unfold get_blk_region. erewrite bind_run by (rewrite (bind_run (get g_heap_region) _ h (g_heap_region h) h) by done; reflexivity).
  rewrite (bind_run (get g_heap_region) _ h (g_heap_region h) h) by done. rewrite Hreg.
  destruct (Z.leb_spec (Z.of_nat (length (g_heap_region h))) num); [lia|].
  rewrite (bind_run _ _ _ _ _ (ptr_is_traced_run h _ a b Hc ltac:(lia) ltac:(lia))).
  unfold ptr2blk. replace (ptr - mem_blk_head_size (btraced b)) with a by (unfold ptr, a; lia).
  rewrite (bind_run _ _ _ _ _ (is_used_run h a _ _ Hla Hw1)), Hb. cbn [negb].
  assert (Hgr : ∀ h', g_heap_region h' = g_heap_region h → get_region num h' = Some (r, h')).
  { intros h' E. unfold get_region. rewrite (bind_run (get g_heap_region) _ h' (g_heap_region h) h') by (unfold get; by rewrite E).
    by apply lift_run. }
  rewrite (bind_run _ _ _ _ _ (Hgr h eq_refl)).
  rewrite (bind_run _ _ _ _ _ (cells_size_run h _ a b Hc ltac:(lia) ltac:(lia))).
  rewrite (bind_run _ _ _ _ _ (put_region_run h num _ Hrange)).
  set (r1 := mkRegion _ _ _ (free_blk r) _ _). set (h1 := mkHeap (mem h) _ _).
  destruct (unmark_run h1 _ a b l2 Hcb) as (h2 & m1 & Hu1 & Hu2 & Hch1 & Hfr1 & Hdom1);
    [lia|done|simpl; fold (total l2); lia|].
  rewrite (bind_run _ _ _ _ _ Hu1), (bind_run _ _ _ _ _ Hu2). clear Hu1 Hu2 h2.
  set (f := mkBlk (bsize b) false false) in *. cbn [mem h1] in Hfr1, Hdom1.
  assert (Hchf : chain m1 0 s (l1 ++ f :: l2)).
  { eapply lift_prefix; [exact Hch|exact Hch1|]. intros z Hz. apply Hfr1; fold a in Hz; lia. }
  pose proof Hch1 as ([Hcf Hs2'] & _). pose proof Hcf as (Hf1 & Hf2 & _). cbn [f bsize bused btraced] in Hf1, Hf2.
  rewrite (bind_run _ _ _ _ _ (prev_run (with_mem m1 h1) a _ _ Hla Hf1)).
  assert (Hna : addr (a + bsize b)) by (unfold addr; lia).
  rewrite (bind_run _ _ _ _ _ (next_run (with_mem m1 h1) a _ _ Hna Hf2)).
  set (last := match l2 with [] => 0 | n :: _ => a + bsize b + bsize n end).
  assert (Hlast : mem_blk_next (a + bsize b) (with_mem m1 h1) = Some (last, with_mem m1 h1)).
  { apply (chain_app m1 _ a [f] l2) in Hch1 as [_ Hcn]. simpl in Hcn. rewrite Z.add_0_r in Hcn.
    pose proof (chain_next _ _ _ _ Hcn) as Hn. destruct l2 as [|d l2d].
    - by apply (next_run (with_mem m1 h1) _ 0 false ltac:(unfold addr; lia)).
    - destruct Hcn as ([(_ & _ & Hn8 & _) Hsn] & _). pose proof (seg_total _ _ _ _ Hsn). simpl in Ht. fold (total l2d) in Ht.
      apply (next_run (with_mem m1 h1) _ _ (btraced d)); [unfold addr; lia|exact Hn]. }
  rewrite (bind_run _ _ _ _ _ Hlast).
  destruct (merge_left_run (with_mem m1 h1) s l1 f l2 Hchf) as
    (m2 & Hml & Hch2 & Hfu & Hfn & (k & Hk & Hku) & Hfr2 & _ & Hdom2);
    [lia|rewrite total_app; simpl; fold (total l2); lia|done|].
  cbv zeta in Hml, Hfn. fold a in Hml. cbn [f bsize] in Hml, Hfn. fold f in Hml, Hch2, Hfu, Hfn, Hk. fold a in Hfn.
  apply bind_Some_inv in Hml as (mp & h3 & Hml1 & Hml2).
  rewrite (bind_run _ _ _ _ _ Hml1), (bind_run _ _ _ _ _ Hml2). clear Hml1 Hml2 h3 mp.
  set (l1' := (merge_left l1 f).1) in *. set (f' := (merge_left l1 f).2) in *. set (t := s + total l1') in *.
  change (with_mem m2 (with_mem m1 h1)) with (with_mem m2 h1).
  apply chain_app in Hch2 as Hcht. destruct Hcht as [Hs1' Hcht]. fold t in Hcht.
  pose proof (seg_total _ _ _ _ Hs1') as Ht1'. pose proof Hcht as ([Hcf' _] & _). pose proof Hcf' as (_ & _ & Hf8 & _).
  assert (Hla' : addr (lastp 0 s l1')) by (eapply lastp_range; [exact Hs1'|unfold addr; lia|lia|unfold t in *; lia]).
  destruct (merge_right_run (with_mem m2 h1) _ t f' l2 Hcht) as (m3 & Hmr & Hch3 & Hfr3 & Hlow3 & Hdom3);
    [unfold t; lia|done|simpl; fold (total l2); lia|done|].
  cbv zeta in Hmr. rewrite Hfn in Hmr. fold last in Hmr.
  apply bind_Some_inv in Hmr as (mn & h3 & Hmr1 & Hmr2).
  rewrite (bind_run _ _ _ _ _ Hmr1), (bind_run _ _ _ _ _ Hmr2). clear Hmr1 Hmr2 h3 mn.
  change (with_mem m3 (with_mem m2 h1)) with (with_mem m3 h1).
  assert (Hnew : chain m3 0 s (l1' ++ merge_right f' l2)).
  { eapply lift_prefix; [exact Hch2|exact Hch3|]. intros z Hz. apply Hlow3. fold t in Hz. lia. }
  assert (Hrel : release l1 b l2 = l1' ++ merge_right f' l2).
  { unfold release, l1', f'. fold f. by destruct (merge_left l1 f). }
  destruct (merge_right_totals f' l2 Hfu) as [Htot Hftot].
  assert (Hkt : total l1 = total l1' + total k ∧ free_total l1 = free_total l1' + total k).
  { rewrite Hk, total_app, free_total_app, (free_total_unused k) by done. done. }
  assert (Hfb : free_bytes r + bsize b < 2 ^ 31 ∧ 0 <= free_bytes r).
  { rewrite Hbytes, free_total_app. simpl. rewrite Hb. fold (free_total l2).
    pose proof (free_total_nonneg _ _ _ _ Hs1). pose proof (free_total_nonneg _ _ _ _ Hs2). lia. }
  pose proof (release_free_blk (mem h) s l1 b l2 f' l1' k (proj1 Hch) Hb Hfu Hk Hku) as Hfblk.
  cbv zeta in Hfblk. rewrite <- Hfree in Hfblk. fold a in Hfblk.
  assert (Hgr1 : get_region num (with_mem m3 h1) = Some (r1, with_mem m3 h1)).
  { unfold get_region. rewrite (bind_run (get g_heap_region) _ _ (<[Z.to_nat num:=r1]> (g_heap_region h)) (with_mem m3 h1)) by done.
    apply lift_run. eapply rd_wr_eq. apply wr_Some. lia. }
  rewrite (bind_run _ _ _ _ _ Hgr1). cbn [free_blk r1].
  exists m3, (mkRegion (start_addr r) (total_size r) (caps r) (if a <? free_blk r then a else free_blk r)
    (u32 (free_bytes r + bsize b)) (min_free_bytes r)).
  split.
  { destruct (a <? free_blk r); cbn [when].
    - rewrite put_region_run by (cbn; rewrite length_insert; lia). cbn. by rewrite list_insert_insert_eq.
    - done. }
  split; [done|]. rewrite Hrel. split.
  - split; [exact Hg|]. split; [done|].
    split; [rewrite total_app, Htot; change (reg_end (mkRegion _ _ _ _ _ _)) with (reg_end r); change (reg_start (mkRegion _ _ _ _ _ _)) with s; unfold t in *; lia|].
    split. { intros x Hx Hx4. apply Hdom3, Hdom2, Hdom1. by apply Hmap. }
    cbn [free_blk free_bytes min_free_bytes]. split; [done|]. rewrite u32_id by (unfold in_u32; lia).
    split; [|lia]. rewrite Hbytes, !free_total_app, Hftot. simpl. rewrite Hb. fold (free_total l2).
    unfold t in *. lia.
  - intros z Hz. apply off_headers_app in Hz as [Hz1 Hz2]. apply off_headers_cons in Hz2 as [Hz2 Hz3].
    fold a in Hz2, Hz3. rewrite Hfr3; [rewrite Hfr2; [apply Hfr1; apply Hz2|]|].
    + apply off_headers_app. split; [done|]. by apply off_headers_cons.
    + apply off_headers_cons. fold t. rewrite Hfn. split; [|done].
      rewrite Hk in Hz1. apply off_headers_app in Hz1 as [_ Hz1]. fold t in Hz1. by apply off_headers_head in Hz1.
Qed.

(** ** No two free neighbours *)

Definition starts_used (bs : list blk) : bool := default true (bused <$> head bs).
Definition ends_used (bs : list blk) : bool := default true (bused <$> last bs).
Fixpoint coalesced (bs : list blk) : bool :=
  match bs with
  | [] => true
  | b :: bs => (bused b || starts_used bs) && coalesced bs
  end.

Lemma coalesced_app l1 l2 :
  coalesced (l1 ++ l2) = coalesced l1 && coalesced l2 && (ends_used l1 || starts_used l2).
Proof.
  induction l1 as [|b l1 IH]; simpl; [btauto|]. rewrite IH. unfold ends_used. simpl.
  destruct l1 as [|c l1]; simpl; [unfold starts_used; simpl; btauto|].
  unfold starts_used at 1 4. simpl. btauto.
Qed.

Lemma starts_used_cons b bs : starts_used (b :: bs) = bused b.
Proof. done. Qed.
Lemma ends_used_snoc l b : ends_used (l ++ [b]) = bused b.
Proof. unfold ends_used. by rewrite last_snoc. Qed.

(** Around a free block the neighbours are used. *)
Lemma coalesced_around l1 b l2 :
  coalesced (l1 ++ b :: l2) = true → bused b = false →
  ends_used l1 = true ∧ starts_used l2 = true ∧ coalesced l1 = true ∧ coalesced l2 = true.
Proof.
  rewrite coalesced_app. simpl. rewrite starts_used_cons. intros H Hb. rewrite Hb in H.
  destruct (coalesced l1), (coalesced l2), (ends_used l1), (starts_used l2); done.
Qed.

Lemma coalesced_carve need head tr l1 b l2 :
  coalesced (l1 ++ b :: l2) = true → bused b = false →
  coalesced (l1 ++ carve need head true tr b ++ l2) = true.
Proof.
  intros H Hb. destruct (coalesced_around _ _ _ H Hb) as (H1 & H2 & H3 & H4).
  rewrite !coalesced_app, H1, H3, H4. unfold carve.
  destruct (need + head + MEM_BLK_MIN <=? bsize b); simpl; unfold ends_used; simpl; by rewrite ?H2.
Qed.

Lemma coalesced_merge_right l1 f l2 :
  coalesced l1 = true → coalesced l2 = true → ends_used l1 = true → bused f = false →
  coalesced (l1 ++ merge_right f l2) = true.
Proof.
  intros H1 H2 H3 Hf. rewrite coalesced_app, H1, H3. unfold merge_right.
  destruct l2 as [|n l2]; simpl; [unfold starts_used; simpl; by rewrite orb_true_r|].
  simpl in H2. apply andb_true_iff in H2 as [H2 H4].
  destruct (bused n) eqn:E; simpl; rewrite H4, ?starts_used_cons, ?E, ?orb_true_r; [done|].
  simpl in H2. by rewrite H2.
Qed.

Lemma coalesced_release l1 b l2 :
  coalesced (l1 ++ b :: l2) = true → coalesced (release l1 b l2) = true.
Proof.
  rewrite coalesced_app. simpl. intros H.
  assert (H1 : coalesced l1 = true) by (by destruct (coalesced l1)).
  assert (H2 : coalesced l2 = true) by (destruct (coalesced l2); [done|]; by rewrite !andb_false_r in H).
  clear H. unfold release, merge_left. destruct (last l1) as [p|] eqn:E.
  - apply last_Some in E as [l1' ->]. rewrite coalesced_app in H1. destruct (bused p) eqn:Ep.
    + apply coalesced_merge_right; [by rewrite coalesced_app|done|by rewrite ends_used_snoc|done].
    + rewrite length_app. simpl. replace (length l1' + 1 - 1)%nat with (length l1') by lia. rewrite take_app_length.
      simpl in H1. rewrite starts_used_cons, Ep in H1.
      apply coalesced_merge_right; [|done| |done]; destruct (coalesced l1'), (ends_used l1'); done.
  - apply last_None in E as ->. by apply coalesced_merge_right.
Qed.

(** Releasing what was just carved gives the free block back. *)
Lemma release_carve need head tr l1 b l2 :
  coalesced (l1 ++ b :: l2) = true → bused b = false → btraced b = false →
  match carve need head true tr b with
  | c :: rest => bused c = true ∧ btraced c = tr ∧ release l1 c (rest ++ l2) = l1 ++ b :: l2
  | [] => False
  end.
Proof.
  intros H Hb Htr. destruct (coalesced_around _ _ _ H Hb) as (H1 & H2 & _ & _).
  assert (Hml : ∀ f, merge_left l1 f = (l1, f)).
  { intros f. unfold merge_left, ends_used in *. destruct (last l1) as [p|]; [|done]. simpl in H1. by rewrite H1. }
  assert (Hb' : mkBlk (bsize b) false false = b) by (destruct b; simpl in *; by subst).
  assert (Hmr : merge_right b l2 = b :: l2).
  { unfold merge_right, starts_used in *. destruct l2 as [|n l2]; [done|]. simpl in H2. by rewrite H2. }
  unfold carve. destruct (need + head + MEM_BLK_MIN <=? bsize b).
  - split; [done|]. split; [done|]. unfold release. rewrite Hml. simpl.
    replace (need + (bsize b - need)) with (bsize b) by lia. by rewrite Hb'.
  - split; [done|]. split; [done|]. unfold release. rewrite Hml. simpl. by rewrite Hb', Hmr.
Qed.

(** ** All the regions *)

Definition disjoint_regions (l : list heap_region_t) : Prop :=
  ∀ i j r1 r2, l !! i = Some r1 → l !! j = Some r2 → i ≠ j →
    start_addr r1 + total_size r1 <= start_addr r2 ∨ start_addr r2 + total_size r2 <= start_addr r1.

(** The invariant: the blocks of every region, and the regions apart. *)
Definition heap_ok (h : heap) (bss : list (list blk)) : Prop :=
  Forall2 (λ r bs, region_ok (mem h) r bs ∧ coalesced bs = true) (g_heap_region h) bss ∧
  disjoint_regions (g_heap_region h).

(** [z] is in the payload of a block in use, the one after [k] in region [i]. *)
Definition holds (h : heap) (bss : list (list blk)) (i : nat) (k : list blk) (z : Z) : Prop :=
  ∃ r c k2, g_heap_region h !! i = Some r ∧ bss !! i = Some (k ++ c :: k2) ∧ bused c = true ∧
    reg_start r + total k + mem_blk_head_size (btraced c) <= z < reg_start r + total k + bsize c.

(** The first block that fits, in the first region that has the capabilities. *)
Fixpoint cut (need : Z) (bs : list blk) : option (list blk * blk * list blk) :=
  match bs with
  | [] => None
  | b :: bs =>
      if skip need b then
        match cut need bs with Some (l1, c, l2) => Some (b :: l1, c, l2) | None => None end
      else Some ([], b, bs)
  end.
Fixpoint first_fit (need wanted : Z) (rs : list heap_region_t) (bss : list (list blk)) (i : nat)
    : option (nat * list blk * blk * list blk) :=
  match rs, bss with
  | r :: rs, bs :: bss =>
      if Z.land (caps r) wanted =? wanted then
        match cut need bs with
        | Some (l1, b, l2) => Some (i, l1, b, l2)
        | None => first_fit need wanted rs bss (Datatypes.S i)
        end
      else first_fit need wanted rs bss (Datatypes.S i)
  | _, _ => None
  end.

Lemma cut_Some need bs l1 b l2 : cut need bs = Some (l1, b, l2) →
  bs = l1 ++ b :: l2 ∧ Forall (λ b, skip need b = true) l1 ∧ skip need b = false.
Proof.
  revert l1. induction bs as [|c bs IH]; intros l1; simpl; [done|]. destruct (skip need c) eqn:E.
  - destruct (cut need bs) as [[[k1 d] k2]|]; [|done]. intros [= <- <- <-].
    destruct (IH k1 eq_refl) as (-> & Hk & Hd). split; [done|]. split; [by apply Forall_cons|done].
  - intros [= <- <- <-]. split; [done|]. split; [by apply Forall_nil_2|done].
Qed.

Lemma cut_None need bs : cut need bs = None → Forall (λ b, skip need b = true) bs.
Proof.
  induction bs as [|c bs IH]; simpl; [intros; by apply Forall_nil_2|]. destruct (skip need c) eqn:E; [|done].
  destruct (cut need bs) as [[[k1 d] k2]|]; [done|]. intros _. apply Forall_cons. split; [done|]. by apply IH.
Qed.

Lemma region_ok_frame m m' r bs :
  (∀ z, start_addr r <= z < start_addr r + total_size r → m' !! z = m !! z) →
  region_ok m r bs → region_ok m' r bs.
Proof.
  intros Hm (Hg & Hch & Ht & Hmap & Hrest). pose proof (reg_bounds r Hg) as (_ & Hst & Hse & He & _).
  split; [done|]. split; [eapply chain_frame; [|exact Hch]; intros z Hz; apply Hm; lia|].
  split; [done|]. split; [|done]. intros x Hx Hx4. rewrite Hm by lia. by apply Hmap.
Qed.

Lemma heap_ok_lookup h bss i r bs :
  heap_ok h bss → g_heap_region h !! i = Some r → bss !! i = Some bs →
  region_ok (mem h) r bs ∧ coalesced bs = true.
Proof. intros [HF _] Hr Hb. by apply (Forall2_lookup_lr _ _ _ _ _ _ HF Hr Hb). Qed.

Lemma heap_ok_update h bss i r r' bs' m' :
  heap_ok h bss → g_heap_region h !! i = Some r → same_region r r' → region_ok m' r' bs' →
  coalesced bs' = true →
  (∀ z, z < start_addr r ∨ start_addr r + total_size r <= z → m' !! z = mem h !! z) →
  heap_ok (mkHeap m' (<[i := r']> (g_heap_region h)) (s_heap_trace_mode h)) (<[i := bs']> bss).
Proof.
  intros [HF Hd] Hr (E1 & E2 & E3) Hok Hco Hm. pose proof (Forall2_length _ _ _ HF) as Hlen.
  apply lookup_lt_Some in Hr as Hi. split; cbn [mem g_heap_region].
  - apply Forall2_same_length_lookup. rewrite !length_insert. split; [done|]. intros j r1 bs1 H1 H2.
    destruct (decide (i = j)) as [<-|Hne].
    + rewrite list_lookup_insert_eq in H1 by lia. rewrite list_lookup_insert_eq in H2 by lia. by simplify_eq.
    + rewrite list_lookup_insert_ne in H1 by done. rewrite list_lookup_insert_ne in H2 by done.
      destruct (Forall2_lookup_lr _ _ _ _ _ _ HF H1 H2) as [H3 H4]. split; [|done].
      eapply region_ok_frame; [|exact H3]. intros z Hz. apply Hm.
      destruct (Hd i j r r1 Hr H1 Hne); lia.
  - intros j1 j2 r1 r2 H1 H2 Hne.
    assert (Hold : ∀ j q, <[i := r']> (g_heap_region h) !! j = Some q →
      ∃ q0, g_heap_region h !! j = Some q0 ∧ start_addr q = start_addr q0 ∧ total_size q = total_size q0).
    { intros j q Hq. destruct (decide (i = j)) as [<-|Hij].
      - rewrite list_lookup_insert_eq in Hq by lia. simplify_eq. eauto.
      - rewrite list_lookup_insert_ne in Hq by done. eauto. }
    destruct (Hold _ _ H1) as (q1 & Hq1 & -> & ->). destruct (Hold _ _ H2) as (q2 & Hq2 & -> & ->).
    by apply (Hd j1 j2).
Qed.

Lemma region_of_at ptr l i r num :
  disjoint_regions l → l !! i = Some r → start_addr r < ptr < start_addr r + total_size r →
  region_of ptr l num = num + Z.of_nat i.
Proof.
  revert i num. induction l as [|r0 l IH]; intros i num Hd Hi Hp; [done|]. simpl.
  destruct i as [|i]; simpl in Hi.
  - simplify_eq. destruct (Z.ltb_spec (start_addr r) ptr), (Z.ltb_spec ptr (start_addr r + total_size r)); simpl; lia.
  - assert (Hr0 : (start_addr r0 <? ptr) && (ptr <? start_addr r0 + total_size r0) = false).
    { destruct (Hd 0%nat (Datatypes.S i) r0 r eq_refl Hi ltac:(done));
      destruct (Z.ltb_spec (start_addr r0) ptr), (Z.ltb_spec ptr (start_addr r0 + total_size r0)); simpl; lia. }
    rewrite Hr0, (IH i (num + 1)); [lia| |done|done].
    intros j1 j2 r1 r2 H1 H2 Hne. apply (Hd (Datatypes.S j1) (Datatypes.S j2)); [done|done|]. congruence.
Qed.

(** Where a block of the heap lies. *)
Lemma block_range m r l1 b l2 :
  region_ok m r (l1 ++ b :: l2) →
  start_addr r <= reg_start r + total l1 ∧ 8 <= bsize b ∧ bsize b mod 4 = 0 ∧
  (btraced b = true → 16 <= bsize b) ∧ (reg_start r + total l1) mod 4 = 0 ∧
  reg_start r + total l1 + bsize b + 8 <= start_addr r + total_size r ∧ 0 < start_addr r.
Proof.
  intros (Hg & Hch & Ht & _). pose proof (reg_bounds r Hg) as (Hal & Hst & Hse & He & _).
  pose proof Hch as [Hs1 ([Hc Hs2] & _)]%chain_app. pose proof (seg_total _ _ _ _ Hs1).
  pose proof (seg_total _ _ _ _ Hs2). pose proof Hc as (_ & _ & H8 & H4 & Htr).
  pose proof (seg_align _ _ _ _ Hs1). rewrite total_app in Ht. simpl in Ht. fold (total l2) in Ht.
  destruct Hg as (? & _). repeat split; try lia; [|dlia]. intros E. by apply Htr in E as (_ & ? & _).
Qed.

Lemma other_block m p s l1 b l2 k c k2 :
  seg m p s (l1 ++ b :: l2) → l1 ++ b :: l2 = k ++ c :: k2 → k ≠ l1 →
  total k + bsize c <= total l1 ∨ total l1 + bsize b <= total k.
Proof.
  intros Hs E Hne. pose proof Hs as [H1 [_ H2]]%seg_app.
  apply app_eq_inv in E as [(u & -> & E)|(u & -> & E)]; (destruct u as [|d u]; simpl in E;
    [rewrite app_nil_r in Hne; congruence|]); injection E as <- ->; rewrite total_app; simpl; fold (total u).
  - left. apply seg_app in H1 as [_ [_ H1]]. pose proof (seg_total _ _ _ _ H1). lia.
  - right. apply seg_app in H2 as [H2 _]. pose proof (seg_total _ _ _ _ H2). lia.
Qed.

(** A payload is away from the headers, and from every other block. *)
Lemma holds_cases h bss i r l1 b l2 j k z :
  heap_ok h bss → g_heap_region h !! i = Some r → bss !! i = Some (l1 ++ b :: l2) →
  holds h bss j k z →
  off_headers (reg_start r) (l1 ++ b :: l2) z ∧
  ((j, k) ≠ (i, l1) → z < reg_start r + total l1 ∨ reg_start r + total l1 + bsize b + 8 <= z).
Proof.
  intros Hok Hr Hb (r' & c & k2 & Hr' & Hk & Hc & Hz).
  destruct (heap_ok_lookup _ _ _ _ _ Hok Hr Hb) as [Hreg _]. destruct (heap_ok_lookup _ _ _ _ _ Hok Hr' Hk) as [Hreg' _].
  pose proof (block_range _ _ _ _ _ Hreg) as Hb1. pose proof (block_range _ _ _ _ _ Hreg') as Hb2.
  assert (Hhead : 8 <= mem_blk_head_size (btraced c)) by
    (unfold mem_blk_head_size, MEM2_HEAD_SIZE, MEM_HEAD_SIZE; destruct (btraced c); lia).
  destruct Hreg as (Hg & (Hs & _) & Ht & _). pose proof (reg_bounds r Hg) as (_ & Hst & _ & He & _).
  destruct (decide (j = i)) as [->|Hne].
  - assert (r' = r) as -> by congruence. assert (E : l1 ++ b :: l2 = k ++ c :: k2) by congruence. split.
    + rewrite E in Hs |- *. eapply off_headers_payload; [exact Hs|]. lia.
    + intros Hne. destruct (other_block _ _ _ _ _ _ _ _ _ Hs E); [congruence|lia|lia].
  - destruct Hok as [_ Hd]. pose proof (Hd j i r' r Hr' Hr Hne). split; [|lia].
    eapply off_headers_outside; [exact Hs|]. lia.
Qed.

Lemma same_region_insert (l : list heap_region_t) i r r' :
  l !! i = Some r → same_region r r' → Forall2 same_region l (<[i := r']> l).
Proof.
  intros Hr Hs. apply Forall2_same_length_lookup. rewrite length_insert. split; [done|].
  intros j q q' Hq Hq'. destruct (decide (i = j)) as [<-|Hne].
  - apply lookup_lt_Some in Hr as Hlt. rewrite list_lookup_insert_eq in Hq' by done. congruence.
  - rewrite list_lookup_insert_ne in Hq' by done. assert (q' = q) as -> by congruence. done.
Qed.

Lemma same_region_refl (l : list heap_region_t) : Forall2 same_region l l.
Proof. induction l as [|r l IH]; [apply Forall2_nil_2|]. by apply Forall2_cons. Qed.

(** What the whole heap does on an allocation. *)
Definition malloc_result (h : heap) (bss : list (list blk)) (size : Z) (p : Z) (h' : heap)
    (bss' : list (list blk)) (o : option (nat * list blk * blk * list blk)) : Prop :=
  let tr := s_heap_trace_mode h =? HEAP_TRACE_LEAKS in
  let need := ptr2memblk_size size tr in let head := mem_blk_head_size tr in
  match o with
  | None => p = 0 ∧ h' = h ∧ bss' = bss
  | Some (i, l1, b, l2) => ∃ r, g_heap_region h !! i = Some r ∧ bss !! i = Some (l1 ++ b :: l2) ∧
      bused b = false ∧ need <= bsize b ∧ p = reg_start r + total l1 + head ∧ p mod 4 = 0 ∧ 0 < p ∧
      bss' = <[i := l1 ++ carve need head true tr b ++ l2]> bss
  end.

Lemma carve_cons need head used tr b :
  ∃ sz rest, carve need head used tr b = mkBlk sz used tr :: rest ∧ (sz = need ∨ sz = bsize b).
Proof. unfold carve. destruct (need + head + MEM_BLK_MIN <=? bsize b); eauto 6. Qed.

Lemma malloc_loop_run h bss size wanted file line n i :
  heap_ok h bss → 0 <= size < 2 ^ 31 → addr line → (i + n = length (g_heap_region h))%nat →
  let need := ptr2memblk_size size (s_heap_trace_mode h =? HEAP_TRACE_LEAKS) in
  ∃ p h' bss', malloc_loop n (Z.of_nat i) size wanted file line h = Some (p, h') ∧ heap_ok h' bss' ∧
    malloc_result h bss size p h' bss' (first_fit need wanted (drop i (g_heap_region h)) (drop i bss) i) ∧
    s_heap_trace_mode h' = s_heap_trace_mode h ∧ Forall2 same_region (g_heap_region h) (g_heap_region h') ∧
    ∀ j k z, holds h bss j k z → mem h' !! z = mem h !! z.
Proof.
  intros Hok Hsize Hline. revert i. induction n as [|n IH]; intros i Hi need; cbn [malloc_loop].
  - rewrite (drop_ge (g_heap_region h)) by lia. exists 0, h, bss. split; [done|]. split; [done|].
    split; [by destruct (drop i bss)|]. split; [done|]. split; [apply same_region_refl|done].
  - destruct (lookup_lt_is_Some_2 (g_heap_region h) i ltac:(lia)) as [r Hr].
    pose proof (Forall2_length _ _ _ (proj1 Hok)) as Hlen.
    destruct (lookup_lt_is_Some_2 bss i ltac:(lia)) as [bs Hb].
    rewrite (drop_S _ _ _ Hr), (drop_S _ _ _ Hb). cbn [first_fit].
    assert (Hgr : get_region (Z.of_nat i) h = Some (r, h)).
    { unfold get_region. rewrite (bind_run (get g_heap_region) _ h (g_heap_region h) h) by done.
      apply lift_run. by rewrite rd_lookup. }
    rewrite (bind_run _ _ _ _ _ Hgr). specialize (IH (Datatypes.S i) ltac:(lia)).
    replace (Z.of_nat (Datatypes.S i)) with (Z.of_nat i + 1) in IH by lia.
    destruct (Z.land (caps r) wanted =? wanted); cbn [negb]; [|exact IH].
    destruct (heap_ok_lookup _ _ _ _ _ Hok Hr Hb) as [Hreg Hco].
    assert (Hrd : rd (g_heap_region h) (Z.of_nat i) = Some r) by by rewrite rd_lookup.
    destruct (cut need bs) as [[[l1 b] l2]|] eqn:Hcut.
    + apply cut_Some in Hcut as (-> & Hl1 & Hsk).
      destruct (malloc_some h (Z.of_nat i) r l1 b l2 size file line _ Hrd Hreg eq_refl Hsize Hline Hl1 Hsk)
        as (m' & r' & Hrun & Hsame & Hreg' & Hfr).
      rewrite (bind_run _ _ _ _ _ Hrun). rewrite Nat2Z.id in *.
      pose proof (block_range _ _ _ _ _ Hreg) as (Hst & H8 & H4 & _ & Ha4 & Hend & Hpos).
      apply orb_false_iff in Hsk as [Hbf Hlt].
      set (tr := s_heap_trace_mode h =? HEAP_TRACE_LEAKS) in *.
      assert (Hhead : mem_blk_head_size tr = 8 ∨ mem_blk_head_size tr = 16) by
        (unfold mem_blk_head_size; destruct tr; auto).
      destruct (Z.eqb_spec (reg_start r + total l1 + mem_blk_head_size tr) 0); [lia|].
      eexists _, _, _. split; [done|]. split; [|split; [|split; [done|split; [by eapply same_region_insert|]]]].
      * eapply heap_ok_update; [done|done|done|exact Hreg'|by apply coalesced_carve|].
        intros z Hz. apply Hfr. lia.
      * exists r. split; [done|]. split; [done|]. split; [done|]. split; [by apply Z.ltb_ge in Hlt|]. split; [done|].
        split; [dlia|]. split; [lia|done].
      * intros j k z Hz. apply Hfr. pose proof (holds_cases _ _ _ _ _ _ _ _ _ _ Hok Hr Hb Hz) as [_ Hc].
        destruct (decide ((j, k) = (i, l1))) as [[= -> ->]|Hne]; [|specialize (Hc Hne); lia].
        destruct Hz as (r2 & c & k2 & Hr2 & Hk & Hc' & _). rewrite Hb in Hk. simplify_eq. congruence.
    + rewrite (bind_run _ _ _ _ _ (malloc_none h _ r bs size file line Hrd Hreg (cut_None _ _ Hcut))).
      exact IH.
Qed.

Lemma malloc_run h bss size wanted file line :
  heap_ok h bss → 0 <= size < 2 ^ 31 → addr line →
  let need := ptr2memblk_size size (s_heap_trace_mode h =? HEAP_TRACE_LEAKS) in
  ∃ p h' bss', heap_caps_malloc size wanted file line h = Some (p, h') ∧ heap_ok h' bss' ∧
    malloc_result h bss size p h' bss' (first_fit need wanted (g_heap_region h) bss 0) ∧
    s_heap_trace_mode h' = s_heap_trace_mode h ∧ Forall2 same_region (g_heap_region h) (g_heap_region h') ∧
    ∀ j k z, holds h bss j k z → mem h' !! z = mem h !! z.
Proof.
  intros Hok Hsize Hline need. unfold heap_caps_malloc.
  rewrite (bind_run (get g_heap_region) _ h (g_heap_region h) h) by done.
  by apply (malloc_loop_run h bss size wanted file line (length (g_heap_region h)) 0).
Qed.

Lemma free_run h bss i r l1 b l2 :
  heap_ok h bss → g_heap_region h !! i = Some r → bss !! i = Some (l1 ++ b :: l2) → bused b = true →
  ∃ h', heap_caps_free (reg_start r + total l1 + mem_blk_head_size (btraced b)) h = Some (tt, h') ∧
    heap_ok h' (<[i := release l1 b l2]> bss) ∧ s_heap_trace_mode h' = s_heap_trace_mode h ∧
    Forall2 same_region (g_heap_region h) (g_heap_region h') ∧
    ∀ j k z, holds h bss j k z → mem h' !! z = mem h !! z.
Proof.
  intros Hok Hr Hb Hu. destruct (heap_ok_lookup _ _ _ _ _ Hok Hr Hb) as [Hreg Hco].
  pose proof (block_range _ _ _ _ _ Hreg) as (Hst & H8 & H4 & H16 & Ha4 & Hend & Hpos).
  assert (Hrd : rd (g_heap_region h) (Z.of_nat i) = Some r) by by rewrite rd_lookup.
  assert (Hhead : 8 <= mem_blk_head_size (btraced b) <= bsize b).
  { unfold mem_blk_head_size, MEM2_HEAD_SIZE, MEM_HEAD_SIZE. destruct (btraced b); [specialize (H16 eq_refl)|]; lia. }
  destruct (free_some h (Z.of_nat i) r l1 b l2 Hrd Hreg Hu) as (m' & r' & Hrun & Hsame & Hreg' & Hfr).
  { rewrite (region_of_at _ _ i r); [lia|apply Hok|done|lia]. }
  rewrite Nat2Z.id in Hrun. eexists. split; [exact Hrun|].
  pose proof Hreg as (Hg & (Hs & _) & Ht & _). pose proof (reg_bounds r Hg) as (_ & Hst' & _ & He' & _).
  split; [|split; [done|split]].
  - eapply heap_ok_update; [done|done|done|exact Hreg'|by apply coalesced_release|].
    intros z Hz. apply Hfr. eapply off_headers_outside; [exact Hs|]. lia.
  - by eapply same_region_insert.
  - intros j k z Hz. apply Hfr. by apply (holds_cases _ _ _ _ _ _ _ _ _ _ Hok Hr Hb Hz).
Qed.

(** ** Initialisation *)

Definition whole (r : heap_region_t) : list blk := [mkBlk (reg_end r - reg_start r) false false].

Lemma get_region_run h num r : rd (g_heap_region h) num = Some r → get_region num h = Some (r, h).
Proof.
  intros Hr. unfold get_region. rewrite (bind_run (get g_heap_region) _ h (g_heap_region h) h) by done.
  by apply lift_run.
Qed.

Lemma insert_keeps (m : gmap Z Z) a v w z : m !! a = Some w → is_Some (m !! z) → is_Some (<[a := v]> m !! z).
Proof.
  intros Ha Hz. destruct (decide (a = z)) as [->|Hne]; [rewrite lookup_insert_eq; eauto|].
  by rewrite lookup_insert_ne.
Qed.

Lemma init_region_run h num r :
  rd (g_heap_region h) num = Some r → geometry r → mapped (mem h) (reg_start r) (reg_end r + 8) →
  ∃ m' r', init_region num h =
      Some (tt, mkHeap m' (<[Z.to_nat num := r']> (g_heap_region h)) (s_heap_trace_mode h)) ∧
    same_region r r' ∧ region_ok m' r' (whole r) ∧
    (∀ z, z < start_addr r ∨ start_addr r + total_size r <= z → m' !! z = mem h !! z).
Proof.
  intros Hr Hg Hmap. pose proof (reg_bounds r Hg) as (Hal & Hst & Hse & He & He4). pose proof Hg as (Hpos & _ & H31).
  unfold init_region. rewrite (bind_run _ _ _ _ _ (get_region_run h num r Hr)).
  fold (reg_start r). set (e := if _ =? _ then _ else _). assert (Ee : e - MEM_HEAD_SIZE = reg_end r) by done.
  rewrite Ee. clearbody e. set (s := reg_start r) in *. set (t := reg_end r) in *. cbv zeta.
  destruct (Hmap s) as [w1 Hw1]; [lia|done|]. destruct (Hmap (s + 4)) as [w2 Hw2]; [lia|dlia|].
  destruct (Hmap t) as [w3 Hw3]; [lia|done|]. destruct (Hmap (t + 4)) as [w4 Hw4]; [lia|dlia|].
  set (m1 := <[s := 0]> (mem h)). set (m2 := <[s + 4 := t]> m1). set (m3 := <[t := s]> m2).
  set (m4 := <[t + 4 := 0]> m3).
  assert (E2 : m1 !! (s + 4) = Some w2) by (unfold m1; by rewrite lookup_insert_ne by lia).
  assert (E3 : m2 !! t = Some w3) by (unfold m2, m1; by rewrite !lookup_insert_ne by lia).
  assert (E4 : m3 !! (t + 4) = Some w4) by (unfold m3, m2, m1; by rewrite !lookup_insert_ne by lia).
  rewrite (bind_run _ _ _ _ _ (st_run h s 0 w1 Hw1)), (bind_run _ _ _ _ _ (st_run (with_mem m1 h) _ t w2 E2)),
    (bind_run _ _ _ _ _ (st_run (with_mem m2 h) t s w3 E3)), (bind_run _ _ _ _ _ (st_run (with_mem m3 h) _ 0 w4 E4)).
  change (with_mem (<[t + 4:=0]> (mem (with_mem m3 h))) (with_mem m3 h)) with (with_mem m4 h).
  assert (Hc : cells m4 0 s (mkBlk (t - s) false false)).
  { unfold cells, m4, m3, m2, m1. cbn. rewrite !(lookup_insert_ne _ _ s) by lia.
    rewrite (lookup_insert_eq _ s), !(lookup_insert_ne _ _ (s + 4)), (lookup_insert_eq _ (s + 4)) by lia.
    split; [done|]. split; [f_equal; lia|]. split; [lia|]. split; [dlia|done]. }
  rewrite (bind_run _ _ _ _ _ (cells_size_run (with_mem m4 h) 0 s _ Hc ltac:(lia) ltac:(simpl; lia))).
  rewrite (put_region_run (with_mem m4 h) num) by (by apply rd_Some_range in Hr). cbn [bsize].
  eexists m4, _. split; [done|]. split; [done|]. split.
  - split; [exact Hg|]. change (reg_start (mkRegion _ _ _ _ _ _)) with s.
    change (reg_end (mkRegion _ _ _ _ _ _)) with t. cbn. split; [|split; [lia|split; [|lia]]].
    + split; [by split|]. simpl. fold s t. replace (s + (t - s + 0)) with t by lia.
      unfold m4, m3. rewrite (lookup_insert_ne _ (t + 4) t), (lookup_insert_eq _ t), (lookup_insert_eq _ (t + 4)) by lia. done.
    + intros x Hx Hx4. do 4 (eapply insert_keeps; [eassumption|]). by apply Hmap.
  - intros z Hz. unfold m4, m3, m2, m1. by rewrite !lookup_insert_ne by lia.
Qed.

Lemma init_all_run h :
  disjoint_regions (g_heap_region h) →
  (∀ r, r ∈ g_heap_region h → geometry r ∧ mapped (mem h) (reg_start r) (reg_end r + 8)) →
  ∃ h', esp_heap_caps_init_region h = Some (tt, h') ∧
    Forall2 same_region (g_heap_region h) (g_heap_region h') ∧
    s_heap_trace_mode h' = s_heap_trace_mode h ∧
    heap_ok h' (whole <$> g_heap_region h).
Proof.
  intros Hd Hall. unfold esp_heap_caps_init_region.
  rewrite (bind_run (get g_heap_region) _ h (g_heap_region h) h) by done.
  set (P := λ (j : Z) (s : heap),
    length (g_heap_region s) = length (g_heap_region h) ∧ s_heap_trace_mode s = s_heap_trace_mode h ∧
    ∀ i r, g_heap_region h !! i = Some r →
      ∃ r', g_heap_region s !! i = Some r' ∧ same_region r r' ∧
        (Z.of_nat i < j → region_ok (mem s) r' (whole r)) ∧ mapped (mem s) (reg_start r) (reg_end r + 8)).
  destruct (for_proc_inv P init_region 0 (length (g_heap_region h)) h) as (h' & Hrun & Hlen & Hmode & HP).
  - split; [done|]. split; [done|]. intros i r Hr. exists r. split; [done|]. split; [done|]. split; [lia|].
    by apply Hall, (list_elem_of_lookup_2 _ i).
  - intros j s Hj (Hlen & Hmode & HP).
    destruct (lookup_lt_is_Some_2 (g_heap_region h) (Z.to_nat j) ltac:(lia)) as [r Hr].
    destruct (HP _ _ Hr) as (r1 & Hr1 & Hsame & _ & Hmap). destruct (same_geometry _ _ Hsame) as (Hg & Est & Een).
    destruct (init_region_run s j r1) as (m' & r' & Hrun & Hsame' & Hok & Hfr).
    { unfold rd. destruct (Z.ltb_spec j 0); [lia|done]. }
    { by apply Hg, Hall, (list_elem_of_lookup_2 _ (Z.to_nat j)). }
    { by rewrite Est, Een. }
    eexists. split; [exact Hrun|]. split; [by cbn; rewrite length_insert|]. split; [done|].
    intros i q Hq. destruct (HP _ _ Hq) as (q1 & Hq1 & Hsq & Hokq & Hmapq). cbn.
    destruct (decide (Z.to_nat j = i)) as [<-|Hne].
    + assert (q = r) as -> by congruence. exists r'. rewrite list_lookup_insert_eq by lia. split; [done|].
      assert (Hs2 : same_region r r') by (unfold same_region in *; intuition congruence).
      split; [done|]. unfold whole in Hok |- *. rewrite Est, Een in Hok. split; [by intros|].
      destruct (same_geometry _ _ Hs2) as (_ & E1 & E2). destruct Hok as (_ & _ & _ & Hm & _). by rewrite E1, E2 in Hm.
    + exists q1. rewrite list_lookup_insert_ne by done. split; [done|]. split; [done|].
      assert (Hsame_q : ∀ z, start_addr q <= z < start_addr q + total_size q → m' !! z = mem s !! z).
      { intros z Hz. apply Hfr. destruct Hsame as (-> & -> & _). destruct (Hd _ _ _ _ Hq Hr ltac:(done)); lia. }
      split.
      * intros Hij. assert (Hlt : Z.of_nat i < j) by lia. eapply region_ok_frame; [|exact (Hokq Hlt)].
        intros z Hz. apply Hsame_q. by destruct Hsq as (<- & <- & _).
      * intros x Hx Hx4. destruct (Hall q ltac:(by apply (list_elem_of_lookup_2 _ i))) as [Hgq _].
        pose proof (reg_bounds q Hgq). rewrite Hsame_q by lia. by apply Hmapq.
  - exists h'. split; [exact Hrun|]. cbn in HP. split; [|split; [done|split]].
    + apply Forall2_same_length_lookup. split; [done|]. intros i r r' Hr Hr'.
      destruct (HP _ _ Hr) as (r2 & Hr2 & Hs & _). congruence.
    + apply Forall2_same_length_lookup. rewrite length_fmap. split; [done|]. intros i r' bs Hr' Hbs.
      rewrite list_lookup_fmap in Hbs. destruct (g_heap_region h !! i) as [r|] eqn:Hr; [|done].
      injection Hbs as <-. destruct (HP _ _ Hr) as (r2 & Hr2 & Hs & Hok & _). assert (r2 = r') as -> by congruence.
      split; [|done]. apply Hok. apply lookup_lt_Some in Hr. lia.
    + intros i j r1 r2 H1 H2 Hne.
      assert (Hold : ∀ i r', g_heap_region h' !! i = Some r' → ∃ r, g_heap_region h !! i = Some r ∧ same_region r r').
      { intros k r' Hr'. apply lookup_lt_Some in Hr' as Hlt. rewrite Hlen in Hlt.
        apply lookup_lt_is_Some_2 in Hlt as [r Hr]. destruct (HP _ _ Hr) as (r3 & Hr3 & Hs & _).
        exists r. split; [done|]. congruence. }
      destruct (Hold _ _ H1) as (q1 & Hq1 & -> & -> & _). destruct (Hold _ _ H2) as (q2 & Hq2 & -> & -> & _).
      by apply (Hd i j).
Qed.

(** ** Bytes of a payload *)

(** Writing inside the payload of a block in use keeps the heap as it is. *)
Lemma heap_ok_payload h bss i r k c k2 m' :
  heap_ok h bss → g_heap_region h !! i = Some r → bss !! i = Some (k ++ c :: k2) →
  (∀ z, ¬ (reg_start r + total k + mem_blk_head_size (btraced c) <= z < reg_start r + total k + bsize c) →
    m' !! z = mem h !! z) →
  (∀ z, is_Some (mem h !! z) → is_Some (m' !! z)) →
  heap_ok (with_mem m' h) bss.
Proof.
  intros Hok Hr Hb Hfr Hdom. destruct (heap_ok_lookup _ _ _ _ _ Hok Hr Hb) as [Hreg Hco].
  pose proof (block_range _ _ _ _ _ Hreg) as (Hst & H8 & H4 & H16 & Ha4 & Hend & Hpos).
  destruct Hok as [HF Hd]. split; [|done]. cbn [mem with_mem g_heap_region].
  apply Forall2_same_length_lookup. split; [by eapply Forall2_length|]. intros j q bs Hq Hbs.
  destruct (Forall2_lookup_lr _ _ _ _ _ _ HF Hq Hbs) as [Hokq Hcoq]. split; [|done].
  assert (Hhead : 8 <= mem_blk_head_size (btraced c) ∧ (btraced c = true → mem_blk_head_size (btraced c) = 16)) by
    (unfold mem_blk_head_size, MEM2_HEAD_SIZE, MEM_HEAD_SIZE; destruct (btraced c); (split; [lia|done])).
  destruct (decide (j = i)) as [->|Hne].
  - assert (q = r) as -> by congruence. assert (bs = k ++ c :: k2) as -> by congruence.
    destruct Hokq as (Hg & Hch & Ht & Hmap & Hrest). split; [done|].
    split; [|split; [done|split; [intros x Hx Hx4; by apply Hdom, Hmap|done]]].
    apply chain_app in Hch as [Hs1 Hch]. apply chain_app. split.
    + eapply seg_frame; [|exact Hs1]. intros z Hz. apply Hfr. lia.
    + pose proof Hch as ([(Hc1 & Hc2 & Hc8 & Hc4 & Hct) _] & _).
      eapply chain_update; [exact Hch| |done|intros z Hz; apply Hfr; lia].
      unfold cells. rewrite !Hfr by lia. split; [done|]. split; [done|]. split; [done|]. split; [done|].
      intros E. destruct (Hct E) as (? & ? & w & ? & ?). split; [done|]. split; [done|]. exists w.
      rewrite Hfr by (destruct Hhead as [_ Hh]; rewrite Hh by done; lia). done.
  - eapply region_ok_frame; [|exact Hokq]. intros z Hz. apply Hfr.
    destruct (Hd i j r q Hr Hq ltac:(done)); lia.
Qed.

Definition byte_at (m : gmap Z Z) (a : Z) : option Z :=
  w ← m !! (a - a mod 4); Some (w / 2 ^ (8 * (a mod 4)) mod 2 ^ 8).

Lemma load_byte_run h a v : byte_at (mem h) a = Some v → load_byte a h = Some (v, h).
Proof.
  unfold byte_at, load_byte. destruct (mem h !! _) as [w|] eqn:E; [|done]. intros [= <-].
  by rewrite (bind_run _ _ _ _ _ (ld_run _ _ _ E)).
Qed.

(** Replacing one byte of a word leaves its other bytes. *)
Lemma byte_replace w v i j : 0 <= i < 4 → 0 <= j < 4 → 0 <= v < 256 →
  (w + (v - w / 2 ^ (8 * i) mod 2 ^ 8) * 2 ^ (8 * i)) / 2 ^ (8 * j) mod 2 ^ 8 =
  if decide (i = j) then v else w / 2 ^ (8 * j) mod 2 ^ 8.
Proof.
  intros Hi Hj Hv.
  assert (i = 0 ∨ i = 1 ∨ i = 2 ∨ i = 3) as Ci by lia. assert (j = 0 ∨ j = 1 ∨ j = 2 ∨ j = 3) as Cj by lia.
  destruct Ci as [-> |[-> |[-> | ->]]], Cj as [-> |[-> |[-> | ->]]]; cbn [decide]; simpl; dlia.
Qed.

Lemma store_byte_run h a v : is_Some (mem h !! (a - a mod 4)) →
  ∃ m', store_byte a v h = Some (tt, with_mem m' h) ∧ byte_at m' a = Some (u8 v) ∧
    (∀ b, b ≠ a → byte_at m' b = byte_at (mem h) b) ∧
    (∀ z, z ≠ a - a mod 4 → m' !! z = mem h !! z) ∧
    (∀ z, is_Some (mem h !! z) → is_Some (m' !! z)).
Proof.
  intros [w Hw]. unfold store_byte. rewrite (bind_run _ _ _ _ _ (ld_run _ _ _ Hw)). cbv zeta.
  rewrite (st_run _ _ _ _ Hw). eexists. split; [done|]. pose proof (Z.mod_pos_bound a 4 ltac:(lia)).
  assert (0 <= u8 v < 256) by (unfold u8; dlia). split; [|split; [|split]].
  - unfold byte_at. rewrite lookup_insert_eq. cbn. rewrite byte_replace by lia. by rewrite decide_True.
  - intros b Hb. unfold byte_at. destruct (decide (b - b mod 4 = a - a mod 4)) as [E|Hne].
    + rewrite E, lookup_insert_eq, Hw. cbn. pose proof (Z.mod_pos_bound b 4 ltac:(lia)).
      rewrite byte_replace by lia. rewrite decide_False by lia. done.
    + by rewrite lookup_insert_ne by done.
  - intros z Hz. by apply lookup_insert_ne.
  - intros z. by apply (insert_keeps _ _ _ w).
Qed.

(** A loop that stores the byte [f i] at [p + i], whatever it reads before. *)
Lemma store_loop_run (body : Z → M heap unit) (f : Z → Z) h p n :
  p mod 4 = 0 → 0 <= n →
  (∀ i, 0 <= i < n → is_Some (mem h !! (p + i - (p + i) mod 4))) →
  (∀ i m, 0 <= i < n → (∀ b, ¬ (p <= b < p + n) → byte_at m b = byte_at (mem h) b) →
    body i (with_mem m h) = store_byte (p + i) (f i) (with_mem m h)) →
  ∃ m', for_proc 0 (Z.to_nat n) body h = Some (tt, with_mem m' h) ∧
    (∀ i, 0 <= i < n → byte_at m' (p + i) = Some (u8 (f i))) ∧
    (∀ b, ¬ (p <= b < p + n) → byte_at m' b = byte_at (mem h) b) ∧
    (∀ z, ¬ (p <= z < p + n) → m' !! z = mem h !! z) ∧
    (∀ z, is_Some (mem h !! z) → is_Some (m' !! z)).
Proof.
  intros Hp Hn Hmap Hbody.
  set (P := λ (j : Z) (s : heap), ∃ m, s = with_mem m h ∧
    (∀ i, 0 <= i < j → byte_at m (p + i) = Some (u8 (f i))) ∧
    (∀ b, ¬ (p <= b < p + n) → byte_at m b = byte_at (mem h) b) ∧
    (∀ z, ¬ (p <= z < p + n) → m !! z = mem h !! z) ∧
    (∀ z, is_Some (mem h !! z) → is_Some (m !! z))).
  destruct (for_proc_inv P body 0 (Z.to_nat n) h) as (s' & Hrun & m' & -> & H1 & H2 & H3 & H4).
  - exists (mem h). split; [by destruct h|]. split; [lia|]. done.
  - intros j s Hj (m & -> & H1 & H2 & H3 & H4). rewrite (Hbody j m) by (done || lia).
    destruct (store_byte_run (with_mem m h) (p + j) (f j)) as (m' & Hrun & Hb & Hother & Hw & Hdom).
    { apply H4, Hmap. lia. }
    exists (with_mem m' h). split; [exact Hrun|]. exists m'. split; [done|]. cbn [mem with_mem] in *.
    split; [|split; [|split]].
    + intros i Hi. destruct (decide (i = j)) as [->|Hne]; [done|]. rewrite Hother by lia. apply H1. lia.
    + intros b Hb'. rewrite Hother by lia. by apply H2.
    + intros z Hz. rewrite Hw; [by apply H3|]. dlia.
    + intros z Hz. by apply Hdom, H4.
  - exists m'. split; [exact Hrun|]. split; [intros i Hi; apply H1; lia|]. done.
Qed.

(** ** Whole allocations *)

Lemma same_region_lookup (l l' : list heap_region_t) i r :
  Forall2 same_region l l' → l !! i = Some r → ∃ r', l' !! i = Some r' ∧ same_region r r'.
Proof. intros HF Hr. by eapply Forall2_lookup_l in HF. Qed.

Lemma same_region_start r r' : same_region r r' → reg_start r' = reg_start r.
Proof. intros Hs. by apply same_geometry in Hs as (_ & ? & _). Qed.

(** The block behind a pointer that [malloc] returned. *)
Lemma malloc_block h bss size p h' bss' o :
  malloc_result h bss size p h' bss' o → p ≠ 0 → heap_ok h bss → 0 <= size < 2 ^ 31 →
  Forall2 same_region (g_heap_region h) (g_heap_region h') →
  ∃ i r' k c k2, g_heap_region h' !! i = Some r' ∧ bss' !! i = Some (k ++ c :: k2) ∧
    bused c = true ∧ btraced c = (s_heap_trace_mode h =? HEAP_TRACE_LEAKS) ∧
    p = reg_start r' + total k + mem_blk_head_size (btraced c) ∧ p mod 4 = 0 ∧ 0 < p ∧
    (size + mem_blk_head_size (btraced c) + 3) / 4 * 4 <= bsize c ∧
    bss = <[i := release k c k2]> bss' ∧
    (∀ z, p <= z < reg_start r' + total k + bsize c → ∀ j k, ¬ holds h bss j k z).
Proof.
  intros Hres Hp Hok Hsize Hsame. destruct o as [[[[i l1] b] l2]|]; [|by destruct Hres].
  destruct Hres as (r & Hr & Hb & Hbf & Hneed & Hpe & Hp4 & Hppos & ->).
  destruct (same_region_lookup _ _ _ _ Hsame Hr) as (r' & Hr' & Hs). apply same_region_start in Hs.
  set (tr := s_heap_trace_mode h =? HEAP_TRACE_LEAKS) in *.
  pose proof (need_bounds size tr Hsize) as (Hn4 & Hn). set (need := ptr2memblk_size size tr) in *. cbv zeta in Hn.
  destruct (heap_ok_lookup _ _ _ _ _ Hok Hr Hb) as [Hreg Hco].
  pose proof Hreg as (_ & Hch & _). pose proof Hch as [_ ([Hc _] & _)]%chain_app.
  pose proof (unused_untraced _ _ _ _ Hc Hbf) as Htf.
  pose proof (release_carve need (mem_blk_head_size tr) tr l1 b l2 Hco Hbf Htf) as Hrel.
  assert (Hsz : ∃ sz rest, carve need (mem_blk_head_size tr) true tr b = mkBlk sz true tr :: rest ∧
    need <= sz <= bsize b).
  { unfold carve. destruct (Z.leb_spec (need + mem_blk_head_size tr + MEM_BLK_MIN) (bsize b)); eexists _, _; (split; [done|lia]). }
  destruct Hsz as (sz & rest & E & Hsz). rewrite E in Hrel |- *. destruct Hrel as (_ & _ & Hrel).
  apply lookup_lt_Some in Hb as Hlt.
  exists i, r', l1, (mkBlk sz true tr), (rest ++ l2). cbn [bused btraced bsize].
  split; [done|]. split; [by rewrite list_lookup_insert_eq|]. split; [done|]. split; [done|].
  split; [by rewrite Hs|]. split; [done|]. split; [done|]. split; [dlia|]. split.
  - rewrite list_insert_insert_eq, Hrel. by rewrite list_insert_id.
  - intros z Hz j k Hh. pose proof (holds_cases _ _ _ _ _ _ _ _ _ _ Hok Hr Hb Hh) as [_ Hcase].
    assert (8 <= mem_blk_head_size tr) by (unfold mem_blk_head_size, MEM2_HEAD_SIZE, MEM_HEAD_SIZE; destruct tr; lia).
    destruct (decide ((j, k) = (i, l1))) as [[= -> ->]|Hne]; [|specialize (Hcase Hne); lia].
    destruct Hh as (r2 & c & k2 & Hr2 & Hk & Hc' & _). assert (E2 : l1 ++ b :: l2 = l1 ++ c :: k2) by congruence.
    apply app_inv_head in E2. congruence.
Qed.

Lemma free_total_release l1 b l2 : bused b = true →
  free_total (release l1 b l2) = free_total (l1 ++ b :: l2) + bsize b.
Proof.
  intros Hb. unfold release. assert (Hl : let '(l1', f) := merge_left l1 (mkBlk (bsize b) false false) in
    bused f = false ∧ free_total l1' + bsize f = free_total l1 + bsize b).
  { unfold merge_left. destruct (last l1) as [p|] eqn:E; [|done]. apply last_Some in E as [l1' ->].
    destruct (bused p) eqn:Ep; [done|]. rewrite length_app. simpl.
    replace (length l1' + 1 - 1)%nat with (length l1') by lia. rewrite take_app_length, free_total_app.
    simpl. rewrite Ep. split; [done|lia]. }
  destruct (merge_left l1 _) as [l1' f]. destruct Hl as [Hf Hl]. rewrite !free_total_app. simpl. rewrite Hb.
  pose proof (proj2 (merge_right_totals f l2 Hf)). fold (free_total l2). lia.
Qed.

(** A block in use before an allocation is in use after it, at its place. *)
Lemma used_malloc h bss size p h' bss' o j k c k2 :
  malloc_result h bss size p h' bss' o → bss !! j = Some (k ++ c :: k2) → bused c = true →
  ∃ k' k2', bss' !! j = Some (k' ++ c :: k2') ∧ total k' = total k.
Proof.
  intros Hres Hk Hc. destruct o as [[[[i l1] b] l2]|]; [|destruct Hres as (_ & _ & ->); eauto].
  destruct Hres as (r & _ & Hb & Hbf & _ & _ & _ & _ & ->). apply lookup_lt_Some in Hb as Hlt.
  destruct (decide (j = i)) as [->|Hne]; [|exists k, k2; by rewrite list_lookup_insert_ne by done].
  rewrite list_lookup_insert_eq by done. rewrite Hb in Hk. injection Hk as Hk. set (cv := carve _ _ _ _ _).
  assert (Hcv : total cv = bsize b) by apply carve_total. clearbody cv.
  apply app_eq_inv in Hk as [(u & -> & E)|(u & -> & E)]; destruct u as [|d u]; simpl in E;
    try (injection E as <- <-; congruence); injection E as -> ->.
  - exists k, (u ++ cv ++ l2). by rewrite <- app_assoc.
  - exists (l1 ++ cv ++ u), k2. rewrite <- !app_assoc, !total_app, Hcv. split; [done|]. simpl. fold (total u). lia.
Qed.

Lemma holds_malloc h bss size p h' bss' o j k z :
  malloc_result h bss size p h' bss' o → Forall2 same_region (g_heap_region h) (g_heap_region h') →
  holds h bss j k z → ∃ k', holds h' bss' j k' z.
Proof.
  intros Hres Hsame (r & c & k2 & Hr & Hk & Hc & Hz).
  destruct (used_malloc _ _ _ _ _ _ _ _ _ _ _ Hres Hk Hc) as (k' & k2' & Hk' & Ht).
  destruct (same_region_lookup _ _ _ _ Hsame Hr) as (r' & Hr' & Hs). apply same_region_start in Hs.
  exists k', r', c, k2'. by rewrite Hs, Ht.
Qed.

(** The words of a payload are there. *)
Lemma payload_mapped h bss i r k c k2 z :
  heap_ok h bss → g_heap_region h !! i = Some r → bss !! i = Some (k ++ c :: k2) →
  reg_start r + total k <= z < reg_start r + total k + bsize c → z mod 4 = 0 → is_Some (mem h !! z).
Proof.
  intros Hok Hr Hb Hz Hz4. destruct (heap_ok_lookup _ _ _ _ _ Hok Hr Hb) as [(Hg & (Hs & _) & Ht & Hmap & _) _].
  apply Hmap; [|done]. apply seg_app in Hs as [H1 [_ H2]]. pose proof (seg_total _ _ _ _ H1).
  pose proof (seg_total _ _ _ _ H2). rewrite total_app in Ht. simpl in Ht. fold (total k2) in Ht. lia.
Qed.

Lemma head_size_cases tr : mem_blk_head_size tr = 8 ∨ mem_blk_head_size tr = 16.
Proof. destruct tr; auto. Qed.

(** Filling the start of the payload of a block in use. *)
Lemma fill_run (body : Z → M heap unit) (f : Z → Z) h bss i r k c k2 p n :
  heap_ok h bss → g_heap_region h !! i = Some r → bss !! i = Some (k ++ c :: k2) → bused c = true →
  p = reg_start r + total k + mem_blk_head_size (btraced c) → 0 <= n →
  p + n <= reg_start r + total k + bsize c →
  (∀ x m, 0 <= x < n → (∀ b, ¬ (p <= b < p + n) → byte_at m b = byte_at (mem h) b) →
    body x (with_mem m h) = store_byte (p + x) (f x) (with_mem m h)) →
  ∃ m', for_proc 0 (Z.to_nat n) body h = Some (tt, with_mem m' h) ∧ heap_ok (with_mem m' h) bss ∧
    (∀ x, 0 <= x < n → byte_at m' (p + x) = Some (u8 (f x))) ∧
    (∀ z, ¬ (p <= z < p + n) → m' !! z = mem h !! z).
Proof.
  intros Hok Hr Hb Hu Hp Hn Hfit Hbody. destruct (heap_ok_lookup _ _ _ _ _ Hok Hr Hb) as [Hreg _].
  pose proof (block_range _ _ _ _ _ Hreg) as (Hst & H8 & H4 & _ & Ha4 & Hend & Hpos).
  pose proof (head_size_cases (btraced c)). assert (Hp4 : p mod 4 = 0) by dlia.
  destruct (store_loop_run body f h p n Hp4 Hn) as (m' & Hrun & Hb1 & _ & Hfr & Hdom).
  { intros x Hx. eapply payload_mapped; [exact Hok|exact Hr|exact Hb|dlia|dlia]. }
  { exact Hbody. }
  exists m'. split; [done|]. split; [|done]. eapply heap_ok_payload; [done|exact Hr|exact Hb| |done].
  intros z Hz. apply Hfr. lia.
Qed.

Lemma same_bytes m m' a : m' !! (a - a mod 4) = m !! (a - a mod 4) → byte_at m' a = byte_at m a.
Proof. unfold byte_at. by intros ->. Qed.

(** [ptr_size]: the size of the payload behind a pointer. *)
Lemma ptr_size_run h bss i r k c k2 :
  heap_ok h bss → g_heap_region h !! i = Some r → bss !! i = Some (k ++ c :: k2) → bused c = true →
  ptr_size (reg_start r + total k + mem_blk_head_size (btraced c)) h =
    Some (bsize c - mem_blk_head_size (btraced c), h).
Proof.
  intros Hok Hr Hb Hu. destruct (heap_ok_lookup _ _ _ _ _ Hok Hr Hb) as [Hreg _].
  pose proof (block_range _ _ _ _ _ Hreg) as (Hst & H8 & H4 & H16 & Ha4 & Hend & Hpos).
  destruct Hreg as ((_ & _ & H31) & Hch & _). apply chain_app in Hch as [_ ([Hc _] & _)].
  unfold ptr_size. rewrite (bind_run _ _ _ _ _ (ptr_is_traced_run h _ _ c Hc ltac:(lia) ltac:(lia))).
  unfold ptr2blk. replace (_ + _ - _) with (reg_start r + total k) by lia.
  rewrite (bind_run _ _ _ _ _ (cells_size_run h _ _ c Hc ltac:(lia) ltac:(lia))).
  unfold ret. rewrite u32_id; [done|]. unfold in_u32, mem_blk_head_size, MEM2_HEAD_SIZE, MEM_HEAD_SIZE.
  destruct (btraced c); [specialize (H16 eq_refl)|]; lia.
Qed.

(** ** A small heap *)

(** [n] words from [lo] on. *)
Definition words (lo : Z) (ws : list Z) : gmap Z Z :=
  list_to_map (zip ((λ i, lo + 4 * Z.of_nat i) <$> seq 0 (length ws)) ws).

Lemma mapped_by m lo hi n :
  forallb (λ i, bool_decide (is_Some (m !! (lo + 4 * Z.of_nat i)))) (seq 0 n) = true →
  lo mod 4 = 0 → hi <= lo + 4 * Z.of_nat n → mapped m lo hi.
Proof.
  intros Hall Hlo Hhi x Hx Hx4. rewrite forallb_forall in Hall.
  specialize (Hall (Z.to_nat ((x - lo) / 4))). rewrite in_seq in Hall.
  assert (Hr : 0 <= (x - lo) / 4 < Z.of_nat n) by dlia. specialize (Hall ltac:(lia)).
  apply bool_decide_eq_true in Hall. rewrite Z2Nat.id in Hall by lia.
  by replace x with (lo + 4 * ((x - lo) / 4)) by dlia.
Qed.

(** 64 bytes: a block of 24 bytes in use, then a free one of 32. *)
Definition tiny : heap :=
  mkHeap (words 4096 [2 ^ 31; 4120; 11; 22; 33; 44; 4096; 4152; 0; 0; 0; 0; 0; 0; 4120; 0])
    [mkRegion 4096 64 6 4120 32 32] HEAP_TRACE_NONE.
Definition tiny_blocks : list (list blk) := [[mkBlk 24 true false; mkBlk 32 false false]].

Lemma tiny_ok : heap_ok tiny tiny_blocks.
Proof.
  split.
  - apply Forall2_cons. split; [|apply Forall2_nil_2]. split; [|done].
    split; [apply (bool_decide_unpack _); by vm_compute|].
    split; [|split; [by vm_compute|split; [|split; [by vm_compute|split; [by vm_compute|simpl; lia]]]]].
    2: apply (mapped_by _ _ _ 16); by vm_compute.
    unfold chain, seg, cells. repeat match goal with |- _ ∧ _ => split end;
      match goal with
      | |- _ = Some _ => vm_compute; reflexivity
      | |- _ → _ => discriminate
      | |- True => exact I
      | |- _ => cbn [bsize]; done
      end.
  - intros [|[|i]] [|[|j]] r1 r2 H1 H2 Hne; simplify_eq/=; lia.
Qed.

(** ** Properties *)

(** [heap_caps_init] gives a well-formed heap: each of the two regions is
    one free block, and the free sizes reported are those of the blocks. *)
Theorem heap_init_ok h lit4_end heap_start :
  length (g_heap_region h) = 2%nat →
  0x40100000 <= lit4_end <= 0x4010C000 - 24 → 0x3FFE8000 <= heap_start <= 0x40000000 - 24 →
  mapped (mem h) lit4_end 0x4010C000 → mapped (mem h) heap_start 0x40000000 →
  let n0 := 0x4010C000 - 8 - HEAP_ALIGN lit4_end in let n1 := 0x40000000 - 8 - HEAP_ALIGN heap_start in
  ∃ h', heap_caps_init lit4_end heap_start h = Some (tt, h') ∧
    heap_ok h' [[mkBlk n0 false false]; [mkBlk n1 false false]] ∧
    heap_caps_get_free_size MALLOC_CAP_32BIT h' = Some (n0 + n1, h') ∧
    heap_caps_get_free_size MALLOC_CAP_8BIT h' = Some (n1, h').
Proof.
  intros Hlen Hl Hs Hm0 Hm1 n0 n1. destruct h as [m l md]. cbn in *.
  destruct l as [|r0 [|r1 [|]]]; try done. clear Hlen.
  set (q0 := mkRegion lit4_end (0x4010C000 - lit4_end) 2 (free_blk r0) (free_bytes r0) (min_free_bytes r0)).
  set (q1 := mkRegion heap_start (0x40000000 - heap_start) 14 (free_blk r1) (free_bytes r1) (min_free_bytes r1)).
  assert (Hg0 : geometry q0) by (unfold geometry; cbn; lia).
  assert (Hg1 : geometry q1) by (unfold geometry; cbn; lia).
  assert (E0 : whole q0 = [mkBlk n0 false false]).
  { unfold whole. do 2 f_equal. unfold n0, reg_start, reg_end. cbn.
    replace (lit4_end + (1074839552 - lit4_end)) with 1074839552 by lia. change (HEAP_ALIGN (u32 1074839552)) with 1074839552.
    rewrite Z.eqb_refl. unfold MEM_HEAD_SIZE. lia. }
  assert (E1 : whole q1 = [mkBlk n1 false false]).
  { unfold whole. do 2 f_equal. unfold n1, reg_start, reg_end. cbn.
    replace (heap_start + (1073741824 - heap_start)) with 1073741824 by lia. change (HEAP_ALIGN (u32 1073741824)) with 1073741824.
    rewrite Z.eqb_refl. unfold MEM_HEAD_SIZE. lia. }
  destruct (init_all_run (mkHeap m [q0; q1] md)) as (h' & Hrun & Hsame & _ & Hok).
  - intros [|[|i]] [|[|j]] ra rb Ha Hb Hne; simplify_eq/=; lia.
  - intros r Hr. pose proof (reg_bounds q0 Hg0). pose proof (reg_bounds q1 Hg1).
    assert (r = q0 ∨ r = q1) as [-> | ->] by (apply elem_of_cons in Hr as [->|Hr%list_elem_of_singleton]; auto);
    (split; [done|]); intros x Hx Hx4; [apply Hm0|apply Hm1]; cbn in *; (done || lia).
  - assert (E : heap_caps_init lit4_end heap_start (mkHeap m [r0; r1] md) = Some (tt, h')).
    { unfold heap_caps_init. rewrite <- Hrun. unfold q0, q1. 
      rewrite (u32_id (0x4010C000 - lit4_end)) by (unfold in_u32; lia).
      rewrite (u32_id (0x40000000 - heap_start)) by (unfold in_u32; lia). done. }
    exists h'. split; [exact E|]. simpl in Hok. rewrite E0, E1 in Hok. split; [done|].
    apply Forall2_cons_inv_l in Hsame as (p0 & l' & S0 & Hsame & El). apply Forall2_cons_inv_l in Hsame as (p1 & l'' & S1 & Hsame & ->).
    apply Forall2_nil_inv_l in Hsame as ->. destruct Hok as [HF _]. rewrite El in HF.
    apply Forall2_cons in HF as [[K0 _] HF]. apply Forall2_cons in HF as [[K1 _] _].
    destruct K0 as (_ & _ & T0 & _ & _ & F0 & _), K1 as (_ & _ & T1 & _ & _ & F1 & _).
    cbn in F0, F1. destruct S0 as (A0 & B0 & C0), S1 as (A1 & B1 & C1).
    assert (HA : ∀ x, 0 <= x < 2 ^ 31 → 0 <= HEAP_ALIGN x < x + 4) by (intros x Hx; rewrite HEAP_ALIGN_eq by lia; dlia).
    pose proof (HA lit4_end ltac:(lia)). pose proof (HA heap_start ltac:(lia)).
    unfold heap_caps_get_free_size. rewrite El.
    assert (Hn0 : 0 <= n0 < 2 ^ 31) by (unfold n0; lia). assert (Hn1 : 0 <= n1 < 2 ^ 31) by (unfold n1; lia).
    clearbody n0 n1. cbn [sum_regions]. rewrite C0, C1, F0, F1. cbn [q0 q1 caps].
    change (MALLOC_CAP_32BIT =? Z.land MALLOC_CAP_32BIT 2) with true.
    change (MALLOC_CAP_32BIT =? Z.land MALLOC_CAP_32BIT 14) with true.
    change (MALLOC_CAP_8BIT =? Z.land MALLOC_CAP_8BIT 2) with false.
    change (MALLOC_CAP_8BIT =? Z.land MALLOC_CAP_8BIT 14) with true. cbv iota.
    rewrite !Z.add_0_r, !Z.add_0_l, !(u32_id n0), !(u32_id n1), (u32_id (n0 + n1)) by (unfold in_u32; lia). done.
Qed.

Definition two_regions : heap :=
  mkHeap (words (0x4010C000 - 32) (replicate 8 0) ∪ words (0x40000000 - 32) (replicate 8 0))
    [mkRegion 0 0 0 0 0 0; mkRegion 0 0 0 0 0 0] HEAP_TRACE_NONE.
Lemma heap_init_ok_witness :
  ∃ h', heap_caps_init (0x4010C000 - 32) (0x40000000 - 32) two_regions = Some (tt, h') ∧
    heap_ok h' [[mkBlk 24 false false]; [mkBlk 24 false false]] ∧
    heap_caps_get_free_size MALLOC_CAP_32BIT h' = Some (48, h').
Proof.
  destruct (heap_init_ok two_regions (0x4010C000 - 32) (0x40000000 - 32)) as (h' & Hrun & Hok & Hf & _).
  - done.
  - lia.
  - lia.
  - by apply (mapped_by _ _ _ 8).
  - by apply (mapped_by _ _ _ 8).
  - exists h'. split; [exact Hrun|]. split; [exact Hok|exact Hf].
Defined.

(** C15: [heap_caps_malloc] is first fit. On a well-formed heap a request below
    2 GiB takes the first block that fits in the first region that has the
    capabilities, splits off what is left of it and returns an aligned pointer
    to at least [size] bytes, or returns NULL and changes nothing when no block
    fits. The memory returned is of no block in use before, and what the blocks
    in use hold does not change. *)
Theorem malloc_first_fit h bss size wanted file line :
  heap_ok h bss → 0 <= size < 2 ^ 31 → addr line →
  let need := ptr2memblk_size size (s_heap_trace_mode h =? HEAP_TRACE_LEAKS) in
  ∃ p h' bss', heap_caps_malloc size wanted file line h = Some (p, h') ∧ heap_ok h' bss' ∧
    malloc_result h bss size p h' bss' (first_fit need wanted (g_heap_region h) bss 0) ∧
    (∀ i k z, holds h bss i k z → mem h' !! z = mem h !! z) ∧
    (p ≠ 0 → p mod 4 = 0 ∧ ∃ i k, ∀ z, p <= z < p + size →
      holds h' bss' i k z ∧ ∀ j k, ¬ holds h bss j k z).
Proof.
  intros Hok Hsize Hline need.
  destruct (malloc_run h bss size wanted file line Hok Hsize Hline) as (p & h' & bss' & Hrun & Hok' & Hres & Hmode & Hsame & Hfr).
  exists p, h', bss'. split; [done|]. split; [done|]. split; [done|]. split; [done|]. intros Hp.
  destruct (malloc_block _ _ _ _ _ _ _ Hres Hp Hok Hsize Hsame)
    as (i & r & k & c & k2 & Hr & Hb & Hu & _ & -> & Hp4 & _ & Hsz & _ & Hfresh).
  split; [done|]. exists i, k. intros z Hz.
  assert (size <= (size + mem_blk_head_size (btraced c) + 3) / 4 * 4 - mem_blk_head_size (btraced c)) by dlia.
  split; [exists r, c, k2; repeat split; (done || lia)|]. apply Hfresh. lia.
Qed.

Lemma malloc_first_fit_witness :
  ∃ h' bss', heap_caps_malloc 5 2 0 0 tiny = Some (4128, h') ∧ heap_ok h' bss' ∧
    bss' = [[mkBlk 24 true false; mkBlk 16 true false; mkBlk 16 false false]].
Proof.
  destruct (malloc_first_fit tiny tiny_blocks 5 2 0 0 tiny_ok ltac:(lia) ltac:(by unfold addr))
    as (p & h' & bss' & Hrun & Hok & Hres & _).
  change (first_fit _ _ _ _ _) with (Some (0%nat, [mkBlk 24 true false], mkBlk 32 false false, @nil blk)) in Hres.
  destruct Hres as (r & Hr & _ & _ & _ & Hp & _ & _ & Hb). injection Hr as <-.
  change (reg_start _ + _ + _) with 4128 in Hp. subst p.
  exists h', bss'. split; [exact Hrun|]. split; [exact Hok|exact Hb].
Defined.

(** C21: [heap_caps_free] gives a block back. On a well-formed heap the block
    is merged with the free blocks next to it (no two free blocks ever touch),
    the free bytes of its region grow by its size, and no byte of any block in
    use changes. *)
Theorem free_releases h bss i r l1 b l2 :
  heap_ok h bss → g_heap_region h !! i = Some r → bss !! i = Some (l1 ++ b :: l2) → bused b = true →
  ∃ h' r', heap_caps_free (reg_start r + total l1 + mem_blk_head_size (btraced b)) h = Some (tt, h') ∧
    heap_ok h' (<[i := release l1 b l2]> bss) ∧
    g_heap_region h' !! i = Some r' ∧ free_bytes r' = free_bytes r + bsize b ∧
    total (release l1 b l2) = total (l1 ++ b :: l2) ∧
    ∀ j k z, holds h bss j k z → mem h' !! z = mem h !! z.
Proof.
  intros Hok Hr Hb Hu. destruct (free_run _ _ _ _ _ _ _ Hok Hr Hb Hu) as (h' & Hrun & Hok' & _ & Hsame & Hfr).
  destruct (same_region_lookup _ _ _ _ Hsame Hr) as (r' & Hr' & Hs). exists h', r'.
  split; [done|]. split; [done|]. split; [done|].
  destruct (heap_ok_lookup _ _ _ _ _ Hok Hr Hb) as [(_ & _ & Ht & _ & _ & Hf & _) _].
  apply lookup_lt_Some in Hb as Hlt.
  destruct (heap_ok_lookup _ _ _ _ _ Hok' Hr' ltac:(by apply list_lookup_insert_eq)) as [(_ & _ & Ht' & _ & _ & Hf' & _) _].
  split; [|split; [|done]].
  - rewrite Hf, Hf', free_total_release by done. lia.
  - apply same_geometry in Hs as (_ & Es & Ee). rewrite Es, Ee in Ht'. lia.
Qed.

Lemma free_releases_witness :
  ∃ h', heap_caps_free 4104 tiny = Some (tt, h') ∧ heap_ok h' [[mkBlk 56 false false]].
Proof.
  destruct (free_releases tiny tiny_blocks 0 (mkRegion 4096 64 6 4120 32 32) [] (mkBlk 24 true false)
    [mkBlk 32 false false] tiny_ok eq_refl eq_refl eq_refl) as (h' & r' & Hrun & Hok & _).
  exists h'. split; [exact Hrun|exact Hok].
Defined.

(** A block allocated and freed again leaves the block lists of the heap as
    they were. *)
Theorem malloc_free_roundtrip h bss size wanted file line p h' :
  heap_ok h bss → 0 <= size < 2 ^ 31 → addr line →
  heap_caps_malloc size wanted file line h = Some (p, h') → p ≠ 0 →
  ∃ h'', heap_caps_free p h' = Some (tt, h'') ∧ heap_ok h'' bss ∧
    ∀ i k z, holds h bss i k z → mem h'' !! z = mem h !! z.
Proof.
  intros Hok Hsize Hline Hrun Hp.
  destruct (malloc_run h bss size wanted file line Hok Hsize Hline) as (p1 & h1 & bss' & Hrun' & Hok' & Hres & _ & Hsame & Hfr).
  rewrite Hrun in Hrun'. injection Hrun' as <- <-.
  destruct (malloc_block _ _ _ _ _ _ _ Hres Hp Hok Hsize Hsame)
    as (i & r & k & c & k2 & Hr & Hb & Hu & _ & -> & _ & _ & _ & Hbss & _).
  destruct (free_run _ _ _ _ _ _ _ Hok' Hr Hb Hu) as (h'' & Hfree & Hok'' & _ & _ & Hfr'').
  exists h''. split; [done|]. split; [by rewrite Hbss|]. intros j kk z Hh.
  rewrite <- (Hfr _ _ _ Hh). destruct (holds_malloc _ _ _ _ _ _ _ _ _ _ Hres Hsame Hh) as [k' Hh']. by apply (Hfr'' j k').
Qed.

Lemma malloc_free_roundtrip_witness :
  ∃ p h' h'', heap_caps_malloc 5 2 0 0 tiny = Some (p, h') ∧ heap_caps_free p h' = Some (tt, h'') ∧
    heap_ok h'' tiny_blocks.
Proof.
  destruct (heap_caps_malloc 5 2 0 0 tiny) as [[p h']|] eqn:E; [|by vm_compute in E].
  assert (Hp : p = 4128) by (vm_compute in E; congruence).
  destruct (malloc_free_roundtrip tiny tiny_blocks 5 2 0 0 p h' tiny_ok ltac:(lia) ltac:(by unfold addr) E ltac:(lia))
    as (h'' & Hf & Hok & _).
  exists p, h', h''. split; [reflexivity|]. split; [exact Hf|exact Hok].
Defined.

(** [heap_caps_calloc] returns NULL or zeroed memory of the size computed
    in 32 bits, on a heap that stays well formed, and does not touch what the
    other blocks hold. *)
Theorem calloc_zeroed h bss count size wanted file line :
  heap_ok h bss → u32 (count * size) < 2 ^ 31 → addr line →
  ∃ p h' bss', heap_caps_calloc count size wanted file line h = Some (p, h') ∧ heap_ok h' bss' ∧
    (∀ i k z, holds h bss i k z → mem h' !! z = mem h !! z) ∧
    (p ≠ 0 → ∀ x, 0 <= x < u32 (count * size) → byte_at (mem h') (p + x) = Some 0).
Proof.
  intros Hok Hn Hline. set (n := u32 (count * size)) in *.
  assert (Hn0 : 0 <= n) by (unfold n, u32; dlia).
  destruct (malloc_run h bss n wanted file line Hok ltac:(lia) Hline) as (p & h1 & bss' & Hrun & Hok' & Hres & _ & Hsame & Hfr).
  unfold heap_caps_calloc. fold n. rewrite (bind_run _ _ _ _ _ Hrun). destruct (Z.eqb_spec p 0) as [->|Hp]; cbn [negb when].
  - exists 0, h1, bss'. done.
  - destruct (malloc_block _ _ _ _ _ _ _ Hres Hp Hok ltac:(lia) Hsame)
      as (i & r & k & c & k2 & Hr & Hb & Hu & _ & Hpe & Hp4 & _ & Hsz & _ & Hfresh).
    pose proof (head_size_cases (btraced c)).
    destruct (fill_run (λ x, store_byte (p + x) 0) (λ _, 0) h1 bss' i r k c k2 p n Hok' Hr Hb Hu Hpe Hn0) as
      (m' & Hfill & Hok2 & Hz & Hfr2); [dlia|done|].
    unfold memset. rewrite (bind_run _ _ _ _ _ Hfill). exists p, (with_mem m' h1), bss'.
    split; [done|]. split; [done|]. split; [|by intros _].
    intros j kk z Hh. cbn. rewrite Hfr2; [by apply (Hfr j kk)|]. intros Hzr. apply (Hfresh z ltac:(dlia) j kk Hh).
Qed.

Lemma calloc_zeroed_witness :
  ∃ p h' bss', heap_caps_calloc 5 3 2 0 0 tiny = Some (p, h') ∧ heap_ok h' bss' ∧
    (p ≠ 0 → byte_at (mem h') (p + 14) = Some 0).
Proof.
  destruct (calloc_zeroed tiny tiny_blocks 5 3 2 0 0 tiny_ok ltac:(by vm_compute) ltac:(by unfold addr))
    as (p & h' & bss' & Hrun & Hok & _ & Hz).
  exists p, h', bss'. split; [exact Hrun|]. split; [exact Hok|]. intros Hp. apply (Hz Hp 14). by vm_compute.
Defined.

(** C30: [heap_caps_realloc] of a block in use returns NULL and leaves the heap
    alone, or returns what [heap_caps_malloc] gives for the new size (first fit,
    as in C15), and that starts with what the old block held, as far as both
    reach; the old block is then freed: the blocks are those after the
    allocation with the old one released and merged with its free neighbours,
    as in C21. What the blocks in use held does not change. *)
Theorem realloc_keeps_contents h bss i r l1 b l2 newsize wanted file line :
  heap_ok h bss → g_heap_region h !! i = Some r → bss !! i = Some (l1 ++ b :: l2) → bused b = true →
  0 <= newsize < 2 ^ 31 → addr line →
  let ptr := reg_start r + total l1 + mem_blk_head_size (btraced b) in
  let need := ptr2memblk_size newsize (s_heap_trace_mode h =? HEAP_TRACE_LEAKS) in
  ∃ p h' bss', heap_caps_realloc ptr newsize wanted file line h = Some (p, h') ∧ heap_ok h' bss' ∧
    (p = 0 → h' = h ∧ bss' = bss) ∧
    (p ≠ 0 →
      (∃ h1 bss1 k k2, heap_caps_malloc newsize wanted file line h = Some (p, h1) ∧
        malloc_result h bss newsize p h1 bss1 (first_fit need wanted (g_heap_region h) bss 0) ∧
        bss1 !! i = Some (k ++ b :: k2) ∧ total k = total l1 ∧ bss' = <[i := release k b k2]> bss1) ∧
      (∀ x, 0 <= x < Z.min newsize (bsize b - mem_blk_head_size (btraced b)) →
        byte_at (mem h') (p + x) = byte_at (mem h) (ptr + x)) ∧
      ∀ j k z, holds h bss j k z → mem h' !! z = mem h !! z).
Proof.
  intros Hok Hr Hb Hu Hn Hline ptr need.
  destruct (malloc_run h bss newsize wanted file line Hok Hn Hline) as (p & h1 & bss' & Hrun & Hok' & Hres & _ & Hsame & Hfr).
  unfold heap_caps_realloc. rewrite (bind_run _ _ _ _ _ Hrun). destruct (Z.eqb_spec p 0) as [->|Hp]; cbn [negb andb when].
  { exists 0, h1, bss'. split; [done|]. split; [done|]. split; [|done]. intros _.
    destruct (first_fit _ _ _ _ _) as [[[[? ?] ?] ?]|]; [|by destruct Hres as (_ & ? & ?)]. destruct Hres as (? & _ & _ & _ & _ & _ & _ & ? & _). lia. }
  destruct (heap_ok_lookup _ _ _ _ _ Hok Hr Hb) as [Hreg _].
  pose proof (block_range _ _ _ _ _ Hreg) as (Hst & H8 & _ & H16 & Ha4 & _ & Hpos).
  assert (Hhead : 8 <= mem_blk_head_size (btraced b) <= bsize b ∧ mem_blk_head_size (btraced b) mod 4 = 0).
  { unfold mem_blk_head_size, MEM2_HEAD_SIZE, MEM_HEAD_SIZE. destruct (btraced b); [specialize (H16 eq_refl)|]; (split; [lia|done]). }
  destruct (Z.eqb_spec ptr 0) as [?|Hptr0]; [unfold ptr in *; lia|]. cbn [negb when].
  destruct (used_malloc _ _ _ _ _ _ _ _ _ _ _ Hres Hb Hu) as (k' & k2' & Hk' & Ht).
  destruct (same_region_lookup _ _ _ _ Hsame Hr) as (r' & Hr' & Hs). apply same_region_start in Hs.
  assert (Hptr : ptr = reg_start r' + total k' + mem_blk_head_size (btraced b)) by (unfold ptr; rewrite Hs, Ht; done).
  pose proof (ptr_size_run _ _ _ _ _ _ _ Hok' Hr' Hk' Hu) as Hps. rewrite <- Hptr in Hps.
  set (old := bsize b - mem_blk_head_size (btraced b)) in *. set (n := Z.min newsize old).
  destruct (malloc_block _ _ _ _ _ _ _ Hres Hp Hok Hn Hsame)
    as (j & q & k & c & k2 & Hq & Hc & Hcu & _ & Hpe & Hp4 & _ & Hsz & _ & Hfresh).
  pose proof (head_size_cases (btraced c)). assert (Hold : 0 <= old) by (unfold old; lia).
  (* the old payload is held, and unchanged by the allocation *)
  assert (Hheld : ∀ x, 0 <= x < n → holds h bss i l1 (ptr + x) ∧ holds h bss i l1 (ptr + x - (ptr + x) mod 4)).
  { intros x Hx. split; exists r, b, l2; (split; [done|split; [done|split; [done|]]]); subst ptr old n; dlia. }
  assert (Hsrc : ∀ x, 0 <= x < n → ¬ (p <= ptr + x < p + n) ∧ byte_at (mem h1) (ptr + x) = byte_at (mem h) (ptr + x) ∧
    is_Some (byte_at (mem h) (ptr + x))).
  { intros x Hx. destruct (Hheld x Hx) as [Hx1 Hx2]. split; [|split].
    - intros Hin. apply (Hfresh (ptr + x) ltac:(subst n; dlia) i l1 Hx1).
    - apply same_bytes. by apply (Hfr i l1).
    - unfold byte_at. destruct (payload_mapped h bss i r l1 b l2 (ptr + x - (ptr + x) mod 4) Hok Hr Hb) as [w ->]; [subst ptr old n; dlia|dlia|eauto]. }
  set (f := λ x, default 0 (byte_at (mem h) (ptr + x))).
  destruct (fill_run (λ x, let! v := load_byte (ptr + x) in store_byte (p + x) v) f h1 bss' j q k c k2 p n Hok' Hq Hc Hcu Hpe)
    as (m' & Hfill & Hok2 & Hbytes & Hfr2); [lia|subst n; dlia| |].
  { intros x m Hx Hm. destruct (Hsrc x Hx) as (Hout & Hsame' & v & Hv). apply bind_run. unfold f. rewrite Hv. cbn.
    apply load_byte_run. cbn [mem with_mem]. by rewrite Hm, Hsame'. }
  destruct (free_run (with_mem m' h1) bss' i r' k' b k2' Hok2 Hr' Hk' Hu) as (h' & Hfree & Hok3 & _ & _ & Hfr3).
  rewrite <- Hptr in Hfree.
  rewrite (bind_run _ _ _ _ _ (eq_trans (bind_run _ _ _ _ _ Hps) (eq_trans (bind_run _ _ _ _ _ Hfill) Hfree))).
  eexists p, h', _. split; [done|]. split; [exact Hok3|]. split; [done|]. intros _.
  split; [exists h1, bss', k', k2'; split_and!; done|]. split; [|intros j0 k0 z Hh0; destruct (holds_malloc _ _ _ _ _ _ _ _ _ _ Hres Hsame Hh0) as [k1 Hh1];
    etransitivity; [exact (Hfr3 j0 k1 z Hh1)|]; etransitivity; [apply (Hfr2 z)|exact (Hfr j0 k0 z Hh0)];
    intros Hin; apply (Hfresh z ltac:(subst n; dlia) j0 k0 Hh0)].
  intros x Hx. rewrite (same_bytes m' (mem h')).
  - rewrite Hbytes by done. unfold f. destruct (Hsrc x Hx) as (_ & _ & v & Hv). rewrite Hv. cbn. f_equal.
    apply u8_id. unfold byte_at in Hv. destruct (mem h !! _); [|done]. injection Hv as <-. unfold in_u8. dlia.
  - apply (Hfr3 j k). exists q, c, k2. split; [done|]. split; [done|]. split; [done|]. subst n. dlia.
Qed.

Lemma realloc_keeps_contents_witness :
  ∃ h' bss', heap_caps_realloc 4104 8 2 0 0 tiny = Some (4128, h') ∧ heap_ok h' bss' ∧
    bss' = [[mkBlk 24 false false; mkBlk 16 true false; mkBlk 16 false false]] ∧ byte_at (mem h') (4128 + 4) = Some 22.
Proof.
  destruct (realloc_keeps_contents tiny tiny_blocks 0 (mkRegion 4096 64 6 4120 32 32) [] (mkBlk 24 true false)
    [mkBlk 32 false false] 8 2 0 0 tiny_ok eq_refl eq_refl eq_refl ltac:(lia) ltac:(by unfold addr))
    as (p & h' & bss' & Hrun & Hok & _ & Hb).
  assert (Hp : fst <$> heap_caps_realloc 4104 8 2 0 0 tiny = Some 4128) by (vm_compute; reflexivity).
  change (reg_start _ + _ + _) with 4104 in Hrun. rewrite Hrun in Hp. injection Hp as ->.
  destruct (Hb ltac:(lia)) as ((h1 & bss1 & k & k2 & _ & Hres & Hk & Ht & Hbss) & Hbytes & _).
  change (first_fit _ _ _ _ _) with (Some (0%nat, [mkBlk 24 true false], mkBlk 32 false false, @nil blk)) in Hres.
  destruct Hres as (r & _ & _ & _ & _ & _ & _ & _ & ->). exists h', bss'. split; [exact Hrun|]. split; [exact Hok|].
  split; [|etransitivity; [apply (Hbytes 4); apply (bool_decide_unpack _); by vm_compute|reflexivity]].
  rewrite Hbss. cbn in Hk. injection Hk as Hk. destruct k as [|? [|? [|? k]]]; cbn in Hk; [by injection Hk as <-|discriminate..|].
  injection Hk as _ _ _ Hk. by destruct k.
Defined.

(** The block size is computed in 32 bits, so the largest requests wrap
    round: one of 4 GiB less one to three bytes gets a block of no payload at
    all, as a request for nothing does, and a caller that uses what it asked
    for writes over the rest of the heap. *)
Theorem malloc_wraps h size wanted file line :
  2 ^ 32 - 3 <= size < 2 ^ 32 →
  heap_caps_malloc size wanted file line h = heap_caps_malloc 0 wanted file line h.
Proof.
  intros Hs.
  assert (Hsz : ∀ tr, ptr2memblk_size size tr = ptr2memblk_size 0 tr).
  { intros tr. assert (size = 2 ^ 32 - 3 ∨ size = 2 ^ 32 - 2 ∨ size = 2 ^ 32 - 1) as [-> |[-> | ->]] by lia; by destruct tr. }
  assert (Hreg : ∀ num s, malloc_in_region num size file line s = malloc_in_region num 0 file line s).
  { intros num s. unfold malloc_in_region at 1. unfold malloc_in_region, heap_trace_is_on.
    rewrite !(bind_run (get _) _ s (s_heap_trace_mode s =? HEAP_TRACE_LEAKS) s) by done. by rewrite Hsz. }
  assert (Hloop : ∀ n num s, malloc_loop n num size wanted file line s = malloc_loop n num 0 wanted file line s).
  { intros n. induction n as [|n IH]; intros num s; cbn [malloc_loop]; [done|]. unfold bind.
    destruct (get_region num s) as [[r s1]|]; [|done]. destruct (negb _); [apply IH|]. rewrite Hreg.
    destruct (malloc_in_region num 0 file line s1) as [[p s2]|]; [|done]. destruct (p =? 0); [apply IH|done]. }
  unfold heap_caps_malloc, bind, get. apply Hloop.
Qed.

Lemma malloc_wraps_witness :
  heap_caps_malloc (2 ^ 32 - 1) 2 0 0 tiny = heap_caps_malloc 0 2 0 0 tiny ∧
  fst <$> heap_caps_malloc (2 ^ 32 - 1) 2 0 0 tiny = Some 4128.
Proof. split; [apply malloc_wraps; lia|by vm_compute]. Defined.

End Heap.
