(* ===== verification/Cjson.v ===== *)
(** JSON trees: the parser, the printer and the tree functions of
    [components/cjson/cJSON/cJSON.c] that the application uses, in the
    configuration built here ([CJSON_SPRINTF_FLOAT] 0, no locale).

    A text is a list of bytes. The parser reads it through an offset, and every
    read past the terminating NUL is a fault, as is every write past the string
    it allocated. The floating point operations come from the class [Double];
    memory allocation is taken to succeed, and the growing print buffer is the
    text printed so far. *)
From S2P Require Import Prelude.

Module Cjson.

(** ** Doubles

    What the code does with a [double], and what is relied on for the integers
    that fit an [int]. *)

(** [sprintf(s, "%ld", n)]. *)
Fixpoint digits (fuel : nat) (n : Z) (acc : list Z) : list Z :=
  match fuel with
  | O => acc
  | Datatypes.S fuel =>
      let acc := (48 + n mod 10) :: acc in
      if n <? 10 then acc else digits fuel (n / 10) acc
  end.
Definition sprintf_ld (n : Z) : list Z :=
  if n <? 0 then 45 :: digits 20 (- n) [] else digits 20 n [].

Class Double (D : Type) := {
  d_of_Z : Z → D;
  d_finite : D → bool;
  d_long : D → Z;
  d_eqb : D → D → bool;
  d_ltb : D → D → bool;
  d_leb : D → D → bool;
  d_add : D → D → D;
  d_sub : D → D → D;
  d_mul : D → D → D;
  (** the constant 0.00000000000001 *)
  d_epsilon : D;
  (** [strtod]: the number and how many characters it takes *)
  strtod : list Z → D * Z }.

Definition INT_MAX : Z := 2 ^ 31 - 1.
Definition INT_MIN : Z := - 2 ^ 31.
Definition is_int (n : Z) : Prop := INT_MIN <= n <= INT_MAX.

Class DoubleLaws (D : Type) `{Double D} := {
  d_finite_int n : is_int n → d_finite (d_of_Z n) = true;
  d_long_int n : is_int n → d_long (d_of_Z n) = n;
  d_eqb_int n : is_int n → d_eqb (d_of_Z n) (d_of_Z n) = true;
  d_leb_int m n : is_int m → is_int n → d_leb (d_of_Z m) (d_of_Z n) = (m <=? n);
  d_ltb_int m n : is_int m → is_int n → d_ltb (d_of_Z m) (d_of_Z n) = (m <? n);
  strtod_used l : 0 <= snd (strtod l) <= Z.of_nat (length l);
  strtod_int n : is_int n → strtod (sprintf_ld n) = (d_of_Z n, Z.of_nat (length (sprintf_ld n))) }.

(** ** Trees *)

Definition cJSON_False : Z := 1.
Definition cJSON_True : Z := 2.
Definition cJSON_NULL : Z := 4.
Definition cJSON_Number : Z := 8.
Definition cJSON_String : Z := 16.
Definition cJSON_Array : Z := 32.
Definition cJSON_Object : Z := 64.
Definition cJSON_Raw : Z := 128.
Definition cJSON_StringIsConst : Z := 512.
Definition CJSON_NESTING_LIMIT : Z := 1000.

(** A node; the list of its children is the chain of the [next] pointers. *)
Inductive cJSON (D : Type) : Type :=
  Item (type_ : Z) (valuestring : option (list Z)) (valueint : Z) (valuedouble : D)
    (string_ : option (list Z)) (child : list (cJSON D)).
Arguments Item {D}.

(** What a C string is: the bytes up to the NUL. *)
Fixpoint cstr (l : list Z) : list Z :=
  match l with [] => [] | c :: l => if c =? 0 then [] else c :: cstr l end.
Definition bytes (s : string) : list Z := (λ c, Z.of_nat (Ascii.nat_of_ascii c)) <$> String.list_ascii_of_string s.

Section Cjson.
Context {D : Type} `{Double D}.

Definition type_ (t : cJSON D) : Z := let 'Item ty _ _ _ _ _ := t in ty.
Definition valuestring (t : cJSON D) : option (list Z) := let 'Item _ v _ _ _ _ := t in v.
Definition valueint (t : cJSON D) : Z := let 'Item _ _ v _ _ _ := t in v.
Definition valuedouble (t : cJSON D) : D := let 'Item _ _ _ v _ _ := t in v.
Definition string_ (t : cJSON D) : option (list Z) := let 'Item _ _ _ _ s _ := t in s.
Definition child (t : cJSON D) : list (cJSON D) := let 'Item _ _ _ _ _ c := t in c.

(** [cJSON_New_Item] zeroes the node. *)
Definition cJSON_New_Item : cJSON D := Item 0 None 0 (d_of_Z 0) None [].

(** The saturation of [parse_number] and [cJSON_CreateNumber]. *)
Definition saturate (d : D) : Z :=
  if d_leb (d_of_Z INT_MAX) d then INT_MAX
  else if d_leb d (d_of_Z INT_MIN) then INT_MIN
  else d_long d.

Definition cJSON_CreateObject : cJSON D := Item cJSON_Object None 0 (d_of_Z 0) None [].
Definition cJSON_CreateNumber (num : D) : cJSON D := Item cJSON_Number None (saturate num) num None [].
Definition cJSON_CreateString (s : list Z) : cJSON D := Item cJSON_String (Some s) 0 (d_of_Z 0) None [].

Definition add_item_to_array (array item : cJSON D) : cJSON D :=
  let 'Item ty vs vi vd st ch := array in Item ty vs vi vd st (ch ++ [item]).
Definition cJSON_AddItemToObject (object : cJSON D) (name : list Z) (item : cJSON D) : cJSON D :=
  let 'Item ty vs vi vd _ ch := item in
  add_item_to_array object (Item (Z.land ty (Z.lnot cJSON_StringIsConst)) vs vi vd (Some name) ch).
Definition cJSON_AddNumberToObject (object : cJSON D) (name : list Z) (number : D) : cJSON D :=
  cJSON_AddItemToObject object name (cJSON_CreateNumber number).
Definition cJSON_AddStringToObject (object : cJSON D) (name s : list Z) : cJSON D :=
  cJSON_AddItemToObject object name (cJSON_CreateString s).

Definition tolower (c : Z) : Z := if (65 <=? c) && (c <=? 90) then c + 32 else c.
(** Two C strings without their NUL. *)
Fixpoint case_insensitive_strcmp (string1 string2 : list Z) : Z :=
  match string1, string2 with
  | [], [] => 0
  | [], b :: _ => 0 - tolower b
  | a :: _, [] => tolower a - 0
  | a :: string1, b :: string2 =>
      if tolower a =? tolower b then case_insensitive_strcmp string1 string2 else tolower a - tolower b
  end.
(** [cJSON_GetObjectItem]; a NULL name compares as different. *)
Fixpoint get_object_item (current : list (cJSON D)) (name : list Z) : option (cJSON D) :=
  match current with
  | [] => None
  | c :: current =>
      let different := match string_ c with Some s => case_insensitive_strcmp name s | None => 1 end in
      if negb (different =? 0) then get_object_item current name else Some c
  end.
Definition cJSON_GetObjectItem (object : cJSON D) (name : list Z) : option (cJSON D) :=
  get_object_item (child object) name.

(** ** The parser *)

Record parse_buffer := mkPB { content : list Z; offset : Z; depth : Z }.
Definition length_ (b : parse_buffer) : Z := Z.of_nat (length (content b)).
Definition can_read (b : parse_buffer) (size : Z) : bool := offset b + size <=? length_ b.
Definition can_access_at_index (b : parse_buffer) (index : Z) : bool := offset b + index <? length_ b.
Definition set_offset (o : Z) : M parse_buffer unit := modify (λ b, mkPB (content b) o (depth b)).
Definition set_depth (d : Z) : M parse_buffer unit := modify (λ b, mkPB (content b) (offset b) d).
Definition advance (n : Z) : M parse_buffer unit := let! o := get offset in set_offset (o + n).
(** A read of the text at an absolute position. *)
Definition char (p : Z) : M parse_buffer Z := let! c := get content in lift (rd c p).
Definition char_at_offset (index : Z) : M parse_buffer Z := let! o := get offset in char (o + index).
(** [can_access_at_index(buffer, 0) && (buffer_at_offset(buffer)[0] == c)] *)
Definition looking_at (c : Z) : M parse_buffer bool :=
  let! b := get (λ b, can_access_at_index b 0) in
  if b then let! x := char_at_offset 0 in ret (x =? c) else ret false.
(** [can_read(buffer, n) && strncmp(buffer_at_offset(buffer), lit, n) == 0] *)
Definition looking_at_literal (lit : list Z) : M parse_buffer bool :=
  get (λ b, can_read b (Z.of_nat (length lit)) &&
    bool_decide (take (length lit) (drop (Z.to_nat (offset b)) (content b)) = lit)).

(** [buffer_skip_whitespace]: the characters up to 32 at the offset. *)
Fixpoint blanks (l : list Z) : Z :=
  match l with [] => 0 | c :: l => if c <=? 32 then 1 + blanks l else 0 end.
Definition buffer_skip_whitespace : M parse_buffer unit :=
  modify (λ b, let o := offset b + blanks (drop (Z.to_nat (offset b)) (content b)) in
    mkPB (content b) (if o =? length_ b then o - 1 else o) (depth b)).

Definition skip_utf8_bom : M parse_buffer unit :=
  let! o := get offset in
  if negb (o =? 0) then ret tt else
  let! b := get (λ b, can_access_at_index b 4) in
  let! l := looking_at_literal [0xEF; 0xBB; 0xBF] in
  when (b && l) (advance 3).

(** [parse_number]: the copy of at most 63 characters. *)
Definition number_char (c : Z) : bool :=
  ((48 <=? c) && (c <=? 57)) || (c =? 43) || (c =? 45) || (c =? 101) || (c =? 69) || (c =? 46).
Fixpoint number_prefix (n : nat) (l : list Z) : list Z :=
  match n, l with
  | Datatypes.S n, c :: l => if number_char c then c :: number_prefix n l else []
  | _, _ => []
  end.
Definition parse_number (item : cJSON D) : M parse_buffer (option (cJSON D)) :=
  let! b := get id in
  let number_c_string := number_prefix 63 (drop (Z.to_nat (offset b)) (content b)) in
  let '(number, used) := strtod number_c_string in
  if used =? 0 then ret None else
  advance used ;;;
  let 'Item _ vs _ _ st ch := item in
  ret (Some (Item cJSON_Number vs (saturate number) number st ch)).

(** [parse_hex4]: four digits, or 0. *)
Definition hex_digit (c : Z) : option Z :=
  if (48 <=? c) && (c <=? 57) then Some (c - 48)
  else if (65 <=? c) && (c <=? 70) then Some (10 + c - 65)
  else if (97 <=? c) && (c <=? 102) then Some (10 + c - 97) else None.
Fixpoint parse_hex4_loop (n : nat) (p h : Z) : M parse_buffer Z :=
  match n with
  | O => ret h
  | Datatypes.S n =>
      let! c := char p in
      match hex_digit c with
      | None => ret 0
      | Some d => let h := h + d in parse_hex4_loop n (p + 1) (if 0 <? Z.of_nat n then Z.shiftl h 4 else h)
      end
  end.
Definition parse_hex4 (p : Z) : M parse_buffer Z := parse_hex4_loop 4 p 0.

(** The UTF-8 bytes of a code point, filled in from the last one. *)
Fixpoint utf8_tail (utf8_position : nat) (codepoint : Z) (acc : list Z) : Z * list Z :=
  match utf8_position with
  | O => (codepoint, acc)
  | Datatypes.S k => utf8_tail k (Z.shiftr codepoint 6) (u8 (Z.land (Z.lor codepoint 0x80) 0xBF) :: acc)
  end.
Definition utf8 (codepoint : Z) : option (list Z) :=
  let enc (utf8_length : nat) (first_byte_mark : Z) :=
    let '(cp, tail) := utf8_tail (utf8_length - 1) codepoint [] in
    Some ((if (1 <? utf8_length)%nat then Z.land (Z.lor cp first_byte_mark) 0xFF else Z.land cp 0x7F) :: tail) in
  if codepoint <? 0x80 then enc 1%nat 0
  else if codepoint <? 0x800 then enc 2%nat 0xC0
  else if codepoint <? 0x10000 then enc 3%nat 0xE0
  else if codepoint <=? 0x10FFFF then enc 4%nat 0xF0
  else None.

(** [utf16_literal_to_utf8]: the length of the sequence (0 on failure) and the
    bytes it stands for. *)
Definition utf16_literal_to_utf8 (input_pointer input_end : Z) : M parse_buffer (Z * list Z) :=
  if input_end - input_pointer <? 6 then ret (0, []) else
  let! first_code := parse_hex4 (input_pointer + 2) in
  if (0xDC00 <=? first_code) && (first_code <=? 0xDFFF) then ret (0, []) else
  let finish (sequence_length codepoint : Z) :=
    match utf8 codepoint with
    | Some bs => ret (sequence_length, bs)
    | None => ret (0, [])
    end in
  if (0xD800 <=? first_code) && (first_code <=? 0xDBFF) then
    let second_sequence := input_pointer + 6 in
    if input_end - second_sequence <? 6 then ret (0, []) else
    let! c0 := char second_sequence in
    if negb (c0 =? 92) then ret (0, []) else
    let! c1 := char (second_sequence + 1) in
    if negb (c1 =? 117) then ret (0, []) else
    let! second_code := parse_hex4 (second_sequence + 2) in
    if (second_code <? 0xDC00) || (0xDFFF <? second_code) then ret (0, []) else
    finish 12 (0x10000 + Z.lor (Z.shiftl (Z.land first_code 0x3FF) 10) (Z.land second_code 0x3FF))
  else finish 6 first_code.

(** [parse_string], first pass: the closing quote and the number of escapes. *)
Fixpoint scan_string (fuel : nat) (input_end skipped_bytes : Z) : M parse_buffer (option (Z * Z)) :=
  match fuel with
  | O => fault
  | Datatypes.S fuel =>
      let! len := get length_ in
      if negb (input_end <? len) then ret None else
      let! c := char input_end in
      if c =? 34 then ret (Some (input_end, skipped_bytes))
      else if c =? 92 then
        if len <=? input_end + 1 then ret None else scan_string fuel (input_end + 2) (skipped_bytes + 1)
      else scan_string fuel (input_end + 1) skipped_bytes
  end.

(** A write into the string allocated, of [cap] bytes. *)
Definition put_out (cap : Z) (output bs : list Z) : M parse_buffer (list Z) :=
  if Z.of_nat (length (output ++ bs)) <=? cap then ret (output ++ bs) else fault.

(** One character of the literal: how far it goes and what it stands for. *)
Definition unescape (input_pointer input_end : Z) : M parse_buffer (option (Z * list Z)) :=
  let! c := char input_pointer in
  if negb (c =? 92) then ret (Some (1, [c])) else
  if input_end - input_pointer <? 1 then ret None else
  let! e := char (input_pointer + 1) in
  if e =? 98 then ret (Some (2, [8]))
  else if e =? 102 then ret (Some (2, [12]))
  else if e =? 110 then ret (Some (2, [10]))
  else if e =? 114 then ret (Some (2, [13]))
  else if e =? 116 then ret (Some (2, [9]))
  else if (e =? 34) || (e =? 92) || (e =? 47) then ret (Some (2, [e]))
  else if e =? 117 then
    let! (sequence_length, bs) := utf16_literal_to_utf8 input_pointer input_end in
    if sequence_length =? 0 then ret None else ret (Some (sequence_length, bs))
  else ret None.

Fixpoint copy_string (fuel : nat) (cap input_pointer input_end : Z) (output : list Z)
    : M parse_buffer (Z * option (list Z)) :=
  match fuel with
  | O => fault
  | Datatypes.S fuel =>
      if negb (input_pointer <? input_end) then ret (input_pointer, Some output) else
      let! r := unescape input_pointer input_end in
      match r with
      | None => ret (input_pointer, None)
      | Some (sequence_length, bs) =>
          let! output := put_out cap output bs in
          copy_string fuel cap (input_pointer + sequence_length) input_end output
      end
  end.

Definition parse_string : M parse_buffer (option (list Z)) :=
  let! o := get offset in
  let! n := get length_ in
  let! c := char o in
  let input_pointer := o + 1 in
  if negb (c =? 34) then (set_offset input_pointer ;;; ret None) else
  let! e := scan_string (Z.to_nat n) (o + 1) 0 in
  match e with
  | None => set_offset input_pointer ;;; ret None
  | Some (input_end, skipped_bytes) =>
      let cap := (input_end - o) - skipped_bytes + 1 in
      let! (input_pointer, r) := copy_string (Z.to_nat n) cap input_pointer input_end [] in
      match r with
      | None => set_offset input_pointer ;;; ret None
      | Some output =>
          let! output := put_out cap output [0] in
          set_offset (input_end + 1) ;;; ret (Some (cstr output))
      end
  end.

(** [do { ... } while ( *p == ',')] of [parse_array] and [parse_object]: the
    chain of the elements that [element] reads. *)
Fixpoint elements (element : M parse_buffer (option (cJSON D))) (fuel : nat) (head : list (cJSON D))
    : M parse_buffer (option (list (cJSON D))) :=
  match fuel with
  | O => fault
  | Datatypes.S fuel =>
      advance 1 ;;;
      buffer_skip_whitespace ;;;
      let! r := element in
      match r with
      | None => ret None
      | Some item =>
          buffer_skip_whitespace ;;;
          let! more := looking_at 44 in
          if more then elements element fuel (head ++ [item]) else ret (Some (head ++ [item]))
      end
  end.

(** [success:] of [parse_array] and [parse_object]. *)
Definition container_done (ty : Z) (item : cJSON D) (head : list (cJSON D)) : M parse_buffer (option (cJSON D)) :=
  let! d := get depth in
  set_depth (d - 1) ;;;
  advance 1 ;;;
  let 'Item _ vs vi vd st _ := item in
  ret (Some (Item ty vs vi vd st head)).

(** The common frame of [parse_array] and [parse_object]. *)
Definition parse_container (ty open close : Z) (element : M parse_buffer (option (cJSON D))) (item : cJSON D)
    : M parse_buffer (option (cJSON D)) :=
  let! d := get depth in
  if CJSON_NESTING_LIMIT <=? d then ret None else
  set_depth (d + 1) ;;;
  let! l := looking_at open in
  if negb l then ret None else
  advance 1 ;;;
  buffer_skip_whitespace ;;;
  let! empty := looking_at close in
  if empty then container_done ty item [] else
  let! access := get (λ b, can_access_at_index b 0) in
  if negb access then (advance (-1) ;;; ret None) else
  advance (-1) ;;;
  let! n := get length_ in
  let! r := elements element (Z.to_nat n) [] in
  match r with
  | None => ret None
  | Some head =>
      let! closed := looking_at close in
      if closed then container_done ty item head else ret None
  end.

(** A member of an object: a name, a colon and a value. *)
Definition member (value : cJSON D → M parse_buffer (option (cJSON D))) : M parse_buffer (option (cJSON D)) :=
  let! name := parse_string in
  match name with
  | None => ret None
  | Some name =>
      buffer_skip_whitespace ;;;
      let! colon := looking_at 58 in
      if negb colon then ret None else
      advance 1 ;;;
      buffer_skip_whitespace ;;;
      value (Item cJSON_String None 0 (d_of_Z 0) (Some name) [])
  end.

(** [parse_value], with the recursion through [parse_array] and [parse_object]
    bounded: the nesting limit stops it before the fuel does. *)
Fixpoint parse_value (fuel : nat) (item : cJSON D) : M parse_buffer (option (cJSON D)) :=
  match fuel with
  | O => fault
  | Datatypes.S fuel =>
      let 'Item _ vs vi vd st ch := item in
      let! l := looking_at_literal (bytes "null") in
      if l then (advance 4 ;;; ret (Some (Item cJSON_NULL vs vi vd st ch))) else
      let! l := looking_at_literal (bytes "false") in
      if l then (advance 5 ;;; ret (Some (Item cJSON_False vs vi vd st ch))) else
      let! l := looking_at_literal (bytes "true") in
      if l then (advance 4 ;;; ret (Some (Item cJSON_True vs 1 vd st ch))) else
      let! access := get (λ b, can_access_at_index b 0) in
      if negb access then ret None else
      let! c := char_at_offset 0 in
      if c =? 34 then
        let! s := parse_string in
        match s with
        | None => ret None
        | Some s => ret (Some (Item cJSON_String (Some s) vi vd st ch))
        end
      else if (c =? 45) || ((48 <=? c) && (c <=? 57)) then parse_number item
      else if c =? 91 then parse_container cJSON_Array 91 93 (parse_value fuel cJSON_New_Item) item
      else if c =? 123 then parse_container cJSON_Object 123 125 (member (parse_value fuel)) item
      else ret None
  end.

(** One round more than the nesting limit. *)
Definition nesting_fuel : nat := Z.to_nat (CJSON_NESTING_LIMIT + 1).
Lemma nesting_fuel_enough : CJSON_NESTING_LIMIT < Z.of_nat nesting_fuel.
Proof. by vm_compute. Qed.

(** [cJSON_Parse(value)]: [None] is a fault, [Some None] is NULL. *)
Definition cJSON_Parse (value : list Z) : option (option (cJSON D)) :=
  fst <$> (skip_utf8_bom ;;; buffer_skip_whitespace ;;; parse_value nesting_fuel cJSON_New_Item)
    (mkPB (value ++ [0]) 0 0).

(** ** The printer *)

Record printbuffer := mkOut { buffer : list Z; out_depth : Z; format : bool }.
(** [ensure] gives the room, the bytes go to the end of the text. *)
Definition emit (bs : list Z) : M printbuffer unit :=
  modify (λ p, mkOut (buffer p ++ bs) (out_depth p) (format p)).
Definition add_depth (n : Z) : M printbuffer unit :=
  modify (λ p, mkOut (buffer p) (out_depth p + n) (format p)).

(** The digits after the point: at most 14. *)
Fixpoint fraction (precision : nat) (d : D) : list Z :=
  match precision with
  | O => []
  | Datatypes.S precision =>
      if d_ltb (d_of_Z 0) d then
        let d := d_mul d (d_of_Z 10) in
        let tmp := u8 (d_long d) in
        u8 (tmp + 48) :: fraction precision (d_sub d (d_of_Z tmp))
      else []
  end.
(** [while ( *pbuf == '0') pbuf--], from the last character back. *)
Fixpoint strip_zeros (rev_text : list Z) : list Z :=
  match rev_text with
  | 48 :: rest => strip_zeros rest
  | _ => rev_text
  end.
(** The text in [number_buffer], which has 26 bytes: the NUL is written behind
    the last character. *)
Definition number_text (d : D) : option (list Z) :=
  if negb (d_finite d) then Some (bytes "null") else
  let d32 := d_long d in
  let text := sprintf_ld d32 in
  if d_eqb (d_of_Z d32) d then Some text else
  let d := if d_ltb d (d_of_Z 0) then d_add (d_sub (d_of_Z d32) d) d_epsilon else d_sub d (d_of_Z d32) in
  let text := rev (strip_zeros (rev (text ++ [46] ++ fraction 14 d))) in
  if Z.of_nat (length text) <? 26 then Some text else None.
Definition print_number (d : D) : M printbuffer bool :=
  let! text := lift (number_text d) in
  if 25 <? Z.of_nat (length text) then ret false else
  emit text ;;; ret true.

(** [sprintf(p, "u%04x", c)]. *)
Definition hex_char (d : Z) : Z := if d <? 10 then 48 + d else 87 + d.
Definition escape (c : Z) : list Z :=
  if (31 <? c) && negb (c =? 34) && negb (c =? 92) then [c] else
  92 ::
  (if c =? 92 then [92] else if c =? 34 then [34] else if c =? 8 then [98] else if c =? 12 then [102]
   else if c =? 10 then [110] else if c =? 13 then [114] else if c =? 9 then [116]
   else [117; 48; 48; hex_char (c / 16); hex_char (c mod 16)]).
Definition print_string_ptr (input : option (list Z)) : M printbuffer bool :=
  match input with
  | None => emit [34; 34] ;;; ret true
  | Some s => emit ([34] ++ concat (escape <$> s) ++ [34]) ;;; ret true
  end.

(** [and_then m k]: [if (!m) return false; k]. *)
Definition and_then (m k : M printbuffer bool) : M printbuffer bool :=
  let! b := m in if b then k else ret false.

(** The loop of [print_array] over the elements. *)
Fixpoint print_elements (value : cJSON D → M printbuffer bool) (l : list (cJSON D)) : M printbuffer bool :=
  match l with
  | [] => ret true
  | c :: l =>
      and_then (value c) (
      let! fmt := get format in
      when (match l with [] => false | _ => true end) (emit (if fmt then [44; 32] else [44])) ;;;
      print_elements value l)
  end.
Definition print_array (value : cJSON D → M printbuffer bool) (ch : list (cJSON D)) : M printbuffer bool :=
  emit [91] ;;;
  add_depth 1 ;;;
  and_then (print_elements value ch) (
  emit [93] ;;;
  add_depth (-1) ;;; ret true).

Definition tabs (n : Z) : list Z := replicate (Z.to_nat n) 9.

(** The loop of [print_object] over the members. *)
Fixpoint print_members (value : cJSON D → M printbuffer bool) (l : list (cJSON D)) : M printbuffer bool :=
  match l with
  | [] => ret true
  | c :: l =>
      let! fmt := get format in
      let! d := get out_depth in
      when fmt (emit (tabs d)) ;;;
      and_then (print_string_ptr (string_ c)) (
      emit (if fmt then [58; 9] else [58]) ;;;
      and_then (value c) (
      emit ((match l with [] => [] | _ => [44] end) ++ (if fmt then [10] else [])) ;;;
      print_members value l))
  end.
Definition print_object (value : cJSON D → M printbuffer bool) (ch : list (cJSON D)) : M printbuffer bool :=
  let! fmt := get format in
  emit (if fmt then [123; 10] else [123]) ;;;
  add_depth 1 ;;;
  and_then (print_members value ch) (
  let! d := get out_depth in
  emit ((if fmt then tabs (d - 1) else []) ++ [125]) ;;;
  add_depth (-1) ;;; ret true).

Fixpoint print_value (item : cJSON D) : M printbuffer bool :=
  let 'Item ty vs _ vd _ ch := item in
  let ty := Z.land ty 0xFF in
  if ty =? cJSON_NULL then (emit (bytes "null") ;;; ret true)
  else if ty =? cJSON_False then (emit (bytes "false") ;;; ret true)
  else if ty =? cJSON_True then (emit (bytes "true") ;;; ret true)
  else if ty =? cJSON_Number then print_number vd
  else if ty =? cJSON_Raw then
    match vs with None => ret false | Some raw => emit raw ;;; ret true end
  else if ty =? cJSON_String then print_string_ptr vs
  else if ty =? cJSON_Array then print_array print_value ch
  else if ty =? cJSON_Object then print_object print_value ch
  else ret false.

(** [print]: [None] is a fault, [Some None] is NULL. *)
Definition print (item : cJSON D) (fmt : bool) : option (option (list Z)) :=
  match print_value item (mkOut [] 0 fmt) with
  | Some (true, p) => Some (Some (buffer p))
  | Some (false, _) => Some None
  | None => None
  end.
Definition cJSON_Print (item : cJSON D) : option (option (list Z)) := print item true.
Definition cJSON_PrintUnformatted (item : cJSON D) : option (option (list Z)) := print item false.

(** ** The parser stays inside the text

    [ok c b]: the buffer holds the text [c], which ends with the only NUL, and
    the offset is inside. *)
Definition text_ok (c : list Z) : Prop :=
  ∃ t, c = t ++ [0] ∧ Forall (λ x, 0 < x < 256) t.
Definition nz (c : list Z) (p : Z) : Z := nth (Z.to_nat p) c 0.
Definition len (c : list Z) : Z := Z.of_nat (length c).
Definition ok (c : list Z) (b : parse_buffer) : Prop :=
  content b = c ∧ 0 <= offset b < len c ∧ 0 <= depth b <= CJSON_NESTING_LIMIT.

Section Text.
Variable c : list Z.
Hypothesis Hc : text_ok c.

Lemma nz_range p : 0 <= nz c p < 256.
Proof.
  destruct Hc as (t & -> & Ht). unfold nz. destruct (decide (Z.to_nat p < length t)%nat) as [Hlt|Hge].
  - rewrite app_nth1 by done. destruct (nth_lookup_or_length t (Z.to_nat p) 0) as [E|]; [|lia].
    pose proof (Forall_lookup_1 _ _ _ _ Ht E). simpl in *. lia.
  - rewrite app_nth2 by lia. destruct (Z.to_nat p - length t)%nat as [|[|k]]; simpl; lia.
Qed.

(** A character that is not NUL is not the last one. *)
Lemma nz_inside p : 0 <= p < len c → nz c p ≠ 0 → p + 1 < len c.
Proof.
  destruct Hc as (t & -> & _). unfold nz, len. rewrite length_app. simpl. intros Hp Hnz.
  destruct (decide (p = Z.of_nat (length t))) as [->|]; [|lia].
  rewrite Nat2Z.id, app_nth2, Nat.sub_diag in Hnz by lia. done.
Qed.

Lemma len_pos : 0 < len c.
Proof. destruct Hc as (t & -> & _). unfold len. rewrite length_app. simpl. lia. Qed.

Lemma char_run p b : content b = c → 0 <= p < len c → char p b = Some (nz c p, b).
Proof.
  intros Hb Hp. unfold char. rewrite (bind_run (get content) _ b c b) by (unfold get; by rewrite Hb).
  apply lift_run. unfold rd. destruct (Z.ltb_spec p 0); [lia|]. unfold nz.
  destruct (nth_lookup_or_length c (Z.to_nat p) 0) as [E|]; [done|unfold len in *; lia].
Qed.

Lemma drop_nz p : 0 <= p < len c → drop (Z.to_nat p) c = nz c p :: drop (Z.to_nat (p + 1)) c.
Proof.
  intros Hp. unfold nz. replace (Z.to_nat (p + 1)) with (Datatypes.S (Z.to_nat p)) by lia.
  apply drop_S. destruct (nth_lookup_or_length c (Z.to_nat p) 0) as [E|]; [done|unfold len in *; lia].
Qed.

Lemma char_at_offset_run k b : content b = c → 0 <= offset b + k < len c →
  char_at_offset k b = Some (nz c (offset b + k), b).
Proof.
  intros Hb Hk. unfold char_at_offset. rewrite (bind_run (get offset) _ b (offset b) b) by done.
  by apply char_run.
Qed.

Lemma looking_at_run x b : ok c b → looking_at x b = Some (nz c (offset b) =? x, b).
Proof.
  intros (Hb & Ho & _). unfold looking_at.
  rewrite (bind_run (get _) _ b true b).
  - rewrite (bind_run _ _ _ _ _ (char_at_offset_run 0 b Hb ltac:(lia))). by rewrite Z.add_0_r.
  - unfold get. do 2 f_equal. unfold can_access_at_index, length_. rewrite Hb. fold (len c).
    apply Z.ltb_lt. lia.
Qed.

Lemma advance_run k b : advance k b = Some (tt, mkPB (content b) (offset b + k) (depth b)).
Proof. done. Qed.
Lemma set_offset_run k b : set_offset k b = Some (tt, mkPB (content b) k (depth b)).
Proof. done. Qed.

Lemma blanks_range l : 0 <= blanks l <= Z.of_nat (length l).
Proof. induction l as [|x l IH]; simpl; [lia|]. destruct (x <=? 32); lia. Qed.

(** Skipping never loses the text: at the end it stays on the NUL. *)
Lemma skip_run b : ok c b → ∃ b', buffer_skip_whitespace b = Some (tt, b') ∧ ok c b' ∧
  depth b' = depth b ∧ offset b <= offset b'.
Proof.
  intros (Hb & Ho & Hd). unfold buffer_skip_whitespace, modify. eexists. split; [done|]. cbn [offset depth].
  pose proof (blanks_range (drop (Z.to_nat (offset b)) (content b))) as Hr. rewrite length_drop, Hb in Hr.
  unfold ok, length_. cbn [content offset depth]. rewrite Hb. fold (len c). unfold len in *.
  set (o := offset b + blanks (drop (Z.to_nat (offset b)) c)) in *.
  destruct (Z.eqb_spec o (Z.of_nat (length c))); (split; [split; [done|lia]|split; [done|lia]]).
Qed.

(** A part of the parser: it returns, and where it succeeds it has read at
    least one character. *)
Definition parses {A} (m : M parse_buffer (option A)) (b : parse_buffer) : Prop :=
  match m b with
  | Some (Some _, b') => ok c b' ∧ depth b' = depth b ∧ offset b < offset b'
  | Some (None, _) => True
  | None => False
  end.

Lemma parses_none {A} b b' (m : M parse_buffer (option A)) : m b = Some (None, b') → parses m b.
Proof. unfold parses. by intros ->. Qed.

Lemma number_prefix_length n l : (length (number_prefix n l) <= length l)%nat.
Proof.
  revert l. induction n as [|n IH]; intros [|x l]; simpl; try lia.
  destruct (number_char x); simpl; [specialize (IH l)|]; lia.
Qed.

Lemma number_char_pos x : number_char x = true → x ≠ 0.
Proof. intros E ->. done. Qed.

(** The copy stops before the NUL. *)
Lemma number_prefix_inside n p : 0 <= p < len c →
  p + Z.of_nat (length (number_prefix n (drop (Z.to_nat p) c))) < len c.
Proof.
  revert p. induction n as [|n IH]; intros p Hp; [simpl; lia|]. rewrite drop_nz by done. cbn [number_prefix].
  destruct (number_char (nz c p)) eqn:E; [|simpl; lia]. apply number_char_pos, nz_inside in E; [|done].
  cbn [length]. specialize (IH (p + 1) ltac:(lia)). lia.
Qed.

Lemma hex_digit_range x d : hex_digit x = Some d → 0 <= d < 16.
Proof.
  unfold hex_digit. destruct (Z.leb_spec 48 x), (Z.leb_spec x 57), (Z.leb_spec 65 x), (Z.leb_spec x 70),
    (Z.leb_spec 97 x), (Z.leb_spec x 102); simpl; intros [= <-]; lia.
Qed.

Lemma parse_hex4_run p b : content b = c → 0 <= p → p + 4 <= len c →
  ∃ h, parse_hex4 p b = Some (h, b) ∧ 0 <= h < 65536.
Proof.
  intros Hb Hp0 Hp. unfold parse_hex4.
  assert (Hloop : ∀ n q h, 0 <= q → q + Z.of_nat n <= len c → 0 <= h →
    (0 < Z.of_nat n → h mod 16 = 0) → h < 65536 → (Z.of_nat n <= 4) →
    (Z.of_nat n = 4 → h = 0) → (Z.of_nat n = 3 → h < 2 ^ 8) → (Z.of_nat n = 2 → h < 2 ^ 12) →
    ∃ h', parse_hex4_loop n q h b = Some (h', b) ∧ 0 <= h' < 65536).
  { intros n. induction n as [|n IH]; intros q h Hq Hn Hh Hm Hlt Hn4 H4 H3 H2; cbn [parse_hex4_loop].
    - exists h. done.
    - rewrite (bind_run _ _ _ _ _ (char_run q b Hb ltac:(lia))).
      destruct (hex_digit (nz c q)) as [d|] eqn:E; [|exists 0; split; [done|lia]].
      apply hex_digit_range in E. specialize (Hm ltac:(lia)).
      assert (Hh16 : h + 15 < 65536) by dlia.
      apply IH; try lia; destruct (Z.ltb_spec 0 (Z.of_nat n)); rewrite ?Z.shiftl_mul_pow2 by lia; try lia; try dlia. }
  apply Hloop; lia || (intros; lia) || done.
Qed.

Lemma utf8_length cp bs : 0 <= cp → utf8 cp = Some bs →
  (length bs <= 4)%nat ∧ (cp < 65536 → (length bs <= 3)%nat).
Proof.
  intros Hcp. unfold utf8. destruct (Z.ltb_spec cp 0x80); [intros [= <-]; simpl; lia|].
  destruct (Z.ltb_spec cp 0x800); [intros [= <-]; simpl; lia|].
  destruct (Z.ltb_spec cp 0x10000); [intros [= <-]; simpl; lia|].
  destruct (Z.leb_spec cp 0x10FFFF); [|done]. intros [= <-]; simpl; lia.
Qed.

(** What one character of a literal costs and yields. *)
Lemma utf16_run p e b : content b = c → 0 <= p → e <= len c →
  ∃ k bs, utf16_literal_to_utf8 p e b = Some ((k, bs), b) ∧
    (k = 0 ∨ (k = 6 ∧ p + 6 <= e ∧ (length bs <= 3)%nat) ∨ (k = 12 ∧ p + 12 <= e ∧ (length bs <= 4)%nat)).
Proof.
  intros Hb Hp He. unfold utf16_literal_to_utf8. destruct (Z.ltb_spec (e - p) 6); [by exists 0, []; auto|].
  destruct (parse_hex4_run (p + 2) b Hb ltac:(lia) ltac:(lia)) as (h & Hr & Hh). rewrite (bind_run _ _ _ _ _ Hr).
  destruct ((0xDC00 <=? h) && (h <=? 0xDFFF)); [by exists 0, []; auto|].
  destruct ((0xD800 <=? h) && (h <=? 0xDBFF)).
  - destruct (Z.ltb_spec (e - (p + 6)) 6); [by exists 0, []; auto|].
    rewrite (bind_run _ _ _ _ _ (char_run (p + 6) b Hb ltac:(lia))). destruct (negb _); [by exists 0, []; auto|].
    rewrite (bind_run _ _ _ _ _ (char_run (p + 6 + 1) b Hb ltac:(lia))). destruct (negb _); [by exists 0, []; auto|].
    destruct (parse_hex4_run (p + 6 + 2) b Hb ltac:(lia) ltac:(lia)) as (h2 & Hr2 & Hh2).
    rewrite (bind_run _ _ _ _ _ Hr2). destruct ((h2 <? 0xDC00) || (0xDFFF <? h2)); [by exists 0, []; auto|].
    set (cp := 0x10000 + _). assert (Hcp : 0 <= cp).
    { unfold cp. assert (0 <= Z.lor (Z.shiftl (Z.land h 0x3FF) 10) (Z.land h2 0x3FF)); [|lia].
      apply Z.lor_nonneg. split; [apply Z.shiftl_nonneg|]; apply Z.land_nonneg; lia. }
    destruct (utf8 cp) as [bs|] eqn:E; [|by exists 0, []; auto].
    destruct (utf8_length _ _ Hcp E). exists 12, bs. split; [done|]. right; right. lia.
  - destruct (utf8 h) as [bs|] eqn:E; [|by exists 0, []; auto].
    destruct (utf8_length _ _ (proj1 Hh) E) as [_ Hl]. exists 6, bs. split; [done|]. right; left. split; [done|].
    split; [lia|]. apply Hl. lia.
Qed.

(** *** The string allocated is long enough

    The first pass counts the escapes it sees; [starts] marks where they begin.
    The second pass may be out of step with it (after four hexadecimal digits
    that are none), but no two marks are next to each other, so every step of
    the copy yields no more bytes than it reads, less the marks it passes. *)
Fixpoint starts (l : list Z) (inside : bool) : list bool :=
  match l with
  | [] => []
  | x :: l =>
      if inside then false :: starts l false
      else if x =? 92 then true :: starts l true else false :: starts l false
  end.
Definition trues (l : list bool) : Z := foldr (λ b n, Z.b2z b + n) 0 l.

Lemma trues_range l : 0 <= trues l <= Z.of_nat (length l).
Proof. induction l as [|b l IH]; simpl; [lia|]. fold (trues l). destruct b; simpl; lia. Qed.

Lemma trues_split k l : trues l = trues (take k l) + trues (drop k l).
Proof.
  revert l. induction k as [|k IH]; intros [|b l]; simpl; try lia. fold (trues l) (trues (take k l)). rewrite (IH l). lia.
Qed.

Lemma starts_length l b : length (starts l b) = length l.
Proof.
  revert b. induction l as [|x l IH]; intros b; simpl; [done|].
  destruct b; [|destruct (x =? 92)]; simpl; by rewrite IH.
Qed.

Lemma starts_drop l b k : ∃ b', drop k (starts l b) = starts (drop k l) b'.
Proof.
  revert l b. induction k as [|k IH]; intros l b; [by exists b|]. destruct l as [|x l]; simpl; [by exists b|].
  destruct b; [|destruct (x =? 92)]; simpl; apply IH.
Qed.

Lemma starts_take l b k : take k (starts l b) = starts (take k l) b.
Proof.
  revert l b. induction k as [|k IH]; intros l b; [done|]. destruct l as [|x l]; simpl; [done|].
  destruct b; [|destruct (x =? 92)]; simpl; by rewrite IH.
Qed.

Lemma starts_half l (b : bool) : 2 * trues (starts l b) <= Z.of_nat (length l) + (if b then 0 else 1).
Proof.
  revert b. induction l as [|x l IH]; intros b; [by destruct b|]. cbn [starts length].
  destruct b; [|destruct (x =? 92)]; simpl trues; fold (trues (starts l false)); fold (trues (starts l true)).
  - specialize (IH false). simpl in *. lia.
  - specialize (IH true). simpl in *. lia.
  - specialize (IH false). simpl in *. lia.
Qed.

Definition sub (p e : Z) : list Z := take (Z.to_nat (e - p)) (drop (Z.to_nat p) c).

Lemma sub_cons p e : 0 <= p < e → e <= len c → sub p e = nz c p :: sub (p + 1) e.
Proof.
  intros Hp He. unfold sub. rewrite drop_nz by lia.
  replace (Z.to_nat (e - p)) with (Datatypes.S (Z.to_nat (e - (p + 1)))) by lia. done.
Qed.

Lemma sub_length p e : 0 <= p <= e → e <= len c → Z.of_nat (length (sub p e)) = e - p.
Proof. intros Hp He. unfold sub. rewrite length_take, length_drop. unfold len in *. lia. Qed.

Lemma scan_run fuel q sk b :
  content b = c → 0 <= q <= len c → len c - q < Z.of_nat fuel →
  ∃ r, scan_string fuel q sk b = Some (r, b) ∧
    ∀ e s, r = Some (e, s) → q <= e < len c ∧ nz c e = 34 ∧ s = sk + trues (starts (sub q e) false).
Proof.
  intros Hb. revert q sk. induction fuel as [|fuel IH]; intros q sk Hq Hf; [lia|]. cbn [scan_string].
  rewrite (bind_run (get length_) _ b (len c) b) by (unfold get, length_; by rewrite Hb).
  destruct (Z.ltb_spec q (len c)) as [Hlt|]; cbn [negb]; [|exists None; done].
  rewrite (bind_run _ _ _ _ _ (char_run q b Hb ltac:(lia))). destruct (Z.eqb_spec (nz c q) 34) as [E|Hne].
  { exists (Some (q, sk)). split; [done|]. intros e s [= <- <-]. split; [lia|]. split; [done|].
    unfold sub. rewrite Z.sub_diag. simpl. lia. }
  destruct (Z.eqb_spec (nz c q) 92) as [E|Hne'].
  - destruct (Z.leb_spec (len c) (q + 1)); [exists None; done|].
    destruct (IH (q + 2) (sk + 1)) as (r & Hr & Hpost); [lia|lia|]. exists r. split; [done|].
    intros e s Hes. destruct (Hpost e s Hes) as (He & H34 & ->). split; [lia|]. split; [done|].
    rewrite (sub_cons q e), (sub_cons (q + 1) e) by lia. rewrite E. replace (q + 1 + 1) with (q + 2) by lia.
    simpl. fold (trues (starts (sub (q + 2) e) false)). lia.
  - destruct (IH (q + 1) sk) as (r & Hr & Hpost); [lia|lia|]. exists r. split; [done|].
    intros e s Hes. destruct (Hpost e s Hes) as (He & H34 & ->). split; [lia|]. split; [done|].
    rewrite (sub_cons q e) by lia. cbn [starts]. destruct (Z.eqb_spec (nz c q) 92); [done|]. simpl.
    fold (trues (starts (sub (q + 1) e) false)). lia.
Qed.

Lemma unescape_run p e b : content b = c → 0 <= p < e → e < len c →
  ∃ r, unescape p e b = Some (r, b) ∧ ∀ k bs, r = Some (k, bs) →
    (k = 1 ∧ nz c p ≠ 92 ∧ length bs = 1%nat) ∨ (k = 2 ∧ length bs = 1%nat) ∨
    (k = 6 ∧ p + 6 <= e ∧ (length bs <= 3)%nat) ∨ (k = 12 ∧ p + 12 <= e ∧ (length bs <= 4)%nat).
Proof.
  intros Hb Hp He. unfold unescape. rewrite (bind_run _ _ _ _ _ (char_run p b Hb ltac:(lia))).
  destruct (Z.eqb_spec (nz c p) 92) as [E|Hne]; cbn [negb].
  2: { eexists. split; [done|]. intros k bs [= <- <-]. auto. }
  destruct (Z.ltb_spec (e - p) 1); [lia|]. rewrite (bind_run _ _ _ _ _ (char_run (p + 1) b Hb ltac:(lia))).
  set (x := nz c (p + 1)). 
  assert (Hone : ∀ y, ∃ r, (ret (Some (2, [y])) : M parse_buffer _) b = Some (r, b) ∧ ∀ k (bs : list Z), r = Some (k, bs) →
    (k = 1 ∧ nz c p ≠ 92 ∧ length bs = 1%nat) ∨ (k = 2 ∧ length bs = 1%nat) ∨
    (k = 6 ∧ p + 6 <= e ∧ (length bs <= 3)%nat) ∨ (k = 12 ∧ p + 12 <= e ∧ (length bs <= 4)%nat)).
  { intros y. eexists. split; [done|]. intros k bs [= <- <-]. auto. }
  destruct (x =? 98); [apply Hone|]. destruct (x =? 102); [apply Hone|]. destruct (x =? 110); [apply Hone|].
  destruct (x =? 114); [apply Hone|]. destruct (x =? 116); [apply Hone|].
  destruct ((x =? 34) || (x =? 92) || (x =? 47)); [apply Hone|].
  destruct (x =? 117); [|exists None; done].
  destruct (utf16_run p e b Hb ltac:(lia) ltac:(lia)) as (k & bs & Hr & Hk). rewrite (bind_run _ _ _ _ _ Hr).
  destruct (Z.eqb_spec k 0) as [->|Hk0]; [exists None; done|]. eexists. split; [done|]. intros k' bs' [= <- <-].
  intuition.
Qed.

Lemma copy_run fuel s0 p e out b :
  content b = c → 0 <= s0 <= p → p <= e + 1 → s0 <= e < len c → e + 1 - p < Z.of_nat fuel →
  let st := starts (sub s0 e) false in let S := trues st in
  Z.of_nat (length out) <= (p - s0) - (S - trues (drop (Z.to_nat (p - s0)) st)) →
  ∃ q r, copy_string fuel (e - s0 + 2 - S) p e out b = Some ((q, r), b) ∧
    ∀ out', r = Some out' → Z.of_nat (length out') <= e - s0 + 1 - S.
Proof.
  intros Hb Hs0 Hpe He Hf st S. assert (Hs : 0 <= s0) by lia. revert p out Hs0 Hpe Hf.
  assert (Hst : Z.of_nat (length st) = e - s0) by (unfold st; rewrite starts_length; apply sub_length; lia).
  induction fuel as [|fuel IH]; intros p out Hs0 Hpe Hf Hout.
  { lia. }
  cbn [copy_string]. destruct (Z.ltb_spec p e) as [Hlt|Hge]; cbn [negb].
  2: { exists p, (Some out). split; [done|]. intros out' [= <-].
       rewrite (drop_ge st) in Hout by lia. simpl in Hout. lia. }
  destruct (unescape_run p e b Hb ltac:(lia) ltac:(lia)) as (r & Hr & Hpost). rewrite (bind_run _ _ _ _ _ Hr).
  destruct r as [[k bs]|]; [|by exists p, None]. specialize (Hpost k bs eq_refl).
  set (i := Z.to_nat (p - s0)) in *.
  assert (Hwin : trues (take (Z.to_nat k) (drop i st)) + Z.of_nat (length bs) <= k ∧ 1 <= k ∧ p + k <= e + 1).
  { unfold st. destruct (starts_drop (sub s0 e) false i) as [b' ->]. rewrite starts_take.
    pose proof (starts_half (take (Z.to_nat k) (drop i (sub s0 e))) b') as Hhalf.
    assert (Hl : Z.of_nat (length (take (Z.to_nat k) (drop i (sub s0 e)))) <= k) by
      (rewrite length_take; destruct Hpost as [(-> & _)|[(-> & _)|[(-> & _)|(-> & _)]]]; lia).
    destruct Hpost as [(-> & Hne & Hbs)|[(-> & Hbs)|[(-> & ? & Hbs)|(-> & ? & Hbs)]]]; try (destruct b'; lia).
    assert (E : take (Z.to_nat 1) (drop i (sub s0 e)) = [nz c p]).
    { unfold sub. rewrite skipn_firstn_comm, drop_drop. unfold i.
      replace (Z.to_nat s0 + Z.to_nat (p - s0))%nat with (Z.to_nat p) by lia. rewrite drop_nz by lia.
      replace (Z.to_nat (e - s0) - Z.to_nat (p - s0))%nat with (Datatypes.S (Z.to_nat (e - p - 1))) by lia. done. }
    rewrite E. simpl. rewrite (proj2 (Z.eqb_neq _ _) Hne). destruct b'; simpl; lia. }
  rewrite (trues_split (Z.to_nat k) (drop i st)), drop_drop in Hout.
  assert (Ei : (i + Z.to_nat k)%nat = Z.to_nat (p + k - s0)) by (unfold i; lia). rewrite Ei in Hout.
  assert (Hout' : Z.of_nat (length (out ++ bs)) <= (p + k - s0) - (S - trues (drop (Z.to_nat (p + k - s0)) st))).
  { rewrite length_app. lia. }
  assert (Hcap : Z.of_nat (length (out ++ bs)) <= e - s0 + 2 - S).
  { pose proof (trues_range (drop (Z.to_nat (p + k - s0)) st)) as Ht. rewrite length_drop in Ht. lia. }
  unfold put_out at 1. destruct (Z.leb_spec (Z.of_nat (length (out ++ bs))) (e - s0 + 2 - S)); [|lia].
  rewrite (bind_run (ret (out ++ bs)) _ b (out ++ bs) b) by done. apply IH; [lia|lia|lia|done].
Qed.

Lemma parse_string_run b : ok c b → parses parse_string b.
Proof.
  intros (Hb & Ho & Hd). unfold parses, parse_string. set (o := offset b) in *.
  rewrite (bind_run (get offset) _ b o b) by done.
  rewrite (bind_run (get length_) _ b (len c) b) by (unfold get, length_; by rewrite Hb).
  rewrite (bind_run _ _ _ _ _ (char_run o b Hb ltac:(lia))).
  destruct (Z.eqb_spec (nz c o) 34) as [E|]; cbn [negb]; [|by rewrite (bind_run _ _ _ _ _ (set_offset_run _ b))].
  pose proof (nz_inside o ltac:(lia) ltac:(lia)).
  destruct (scan_run (Z.to_nat (len c)) (o + 1) 0 b Hb ltac:(lia) ltac:(lia)) as (r & Hr & Hpost).
  rewrite (bind_run _ _ _ _ _ Hr). destruct r as [[e sk]|].
  2: { by rewrite (bind_run _ _ _ _ _ (set_offset_run _ b)). }
  destruct (Hpost e sk eq_refl) as (He & H34 & ->). rewrite Z.add_0_l.
  set (S := trues (starts (sub (o + 1) e) false)).
  replace (e - o - S + 1) with (e - (o + 1) + 2 - S) by lia.
  destruct (copy_run (Z.to_nat (len c)) (o + 1) (o + 1) e [] b Hb) as (q & r & Hr2 & Hlen);
    [lia|lia|lia|lia| |].
  { rewrite Z.sub_diag, drop_0. simpl length. lia. }
  fold S in Hr2, Hlen. rewrite (bind_run _ _ _ _ _ Hr2). destruct r as [out|].
  2: { by rewrite (bind_run _ _ _ _ _ (set_offset_run _ b)). }
  specialize (Hlen out eq_refl). unfold put_out. rewrite length_app. simpl length.
  destruct (Z.leb_spec (Z.of_nat (length out + 1)) (e - (o + 1) + 2 - S)); [|lia].
  rewrite (bind_run (ret (out ++ [0])) _ b (out ++ [0]) b) by done.
  rewrite (bind_run _ _ _ _ _ (set_offset_run _ b)). cbn. pose proof (nz_inside e ltac:(lia) ltac:(lia)).
  split; [split; [done|split; [cbn; lia|done]]|]. split; [done|lia].
Qed.

Lemma parse_number_run `{!DoubleLaws D} item b : ok c b → parses (parse_number item) b.
Proof.
  intros (Hb & Ho & Hd). unfold parses, parse_number. rewrite (bind_run (get id) _ b b b) by done. rewrite Hb.
  set (l := number_prefix 63 _). pose proof (number_prefix_inside 63 (offset b) Ho) as Hl. fold l in Hl.
  pose proof (strtod_used l) as Hu. destruct (strtod l) as [d used]. simpl in Hu.
  destruct (Z.eqb_spec used 0); [done|]. rewrite (bind_run _ _ _ _ _ (advance_run _ b)).
  destruct item. cbn. split; [split; [done|split; [cbn; lia|done]]|]. split; [done|lia].
Qed.

Lemma elements_run element (d : Z) fuel head b :
  (∀ b, ok c b → depth b = d → parses element b) →
  ok c b → depth b = d → offset b + 1 < len c → len c - offset b <= Z.of_nat fuel →
  parses (elements element fuel head) b.
Proof.
  intros Hel. revert head b. induction fuel as [|fuel IH]; intros head b Hok Hd Hin Hf; [lia|].
  unfold parses. cbn [elements]. rewrite (bind_run _ _ _ _ _ (advance_run 1 b)). destruct Hok as (Hb & Ho & Hdr).
  set (b1 := mkPB _ _ _). assert (Hok1 : ok c b1) by (split; [done|split; [cbn; lia|done]]).
  destruct (skip_run b1 Hok1) as (b2 & Hs2 & Hok2 & Hd2 & Ho2). rewrite (bind_run _ _ _ _ _ Hs2).
  specialize (Hel b2 Hok2 ltac:(by rewrite Hd2)) as Hp. unfold parses in Hp. unfold bind at 1.
  destruct (element b2) as [[[item|] b3]|]; [|done|done]. destruct Hp as (Hok3 & Hd3 & Ho3).
  destruct (skip_run b3 Hok3) as (b4 & Hs4 & Hok4 & Hd4 & Ho4). rewrite (bind_run _ _ _ _ _ Hs4).
  rewrite (bind_run _ _ _ _ _ (looking_at_run 44 b4 Hok4)). cbn in Ho2, Hd2.
  destruct (Z.eqb_spec (nz c (offset b4)) 44) as [E|_].
  - destruct Hok4 as (Hb4 & Hr4 & Hdr4).
    pose proof (nz_inside (offset b4) Hr4 ltac:(lia)) as Hin4.
    specialize (IH (head ++ [item]) b4 ltac:(by split) ltac:(congruence) Hin4 ltac:(lia)). unfold parses in IH.
    destruct (elements element fuel (head ++ [item]) b4) as [[[r|] b5]|]; [|done|done].
    destruct IH as (H1 & H2 & H3). split; [done|]. split; [congruence|lia].
  - cbn. split; [done|]. split; [congruence|lia].
Qed.

Lemma ok_mk o d : 0 <= o < len c → 0 <= d <= CJSON_NESTING_LIMIT → ok c (mkPB c o d).
Proof. by intros Ho Hd. Qed.

Lemma container_done_run ty item head b :
  ok c b → nz c (offset b) ≠ 0 → 1 <= depth b →
  ∃ r b', container_done ty item head b = Some (Some r, b') ∧ ok c b' ∧ depth b' = depth b - 1 ∧
    offset b' = offset b + 1.
Proof.
  intros (Hb & Ho & Hd) Hnz Hd1. pose proof (nz_inside (offset b) Ho Hnz). unfold container_done.
  rewrite (bind_run (get depth) _ b (depth b) b) by done. destruct item. eexists _, _. split; [done|]. cbn.
  rewrite Hb. split; [apply ok_mk; lia|done].
Qed.

Lemma container_run ty open close element item b :
  (∀ b', ok c b' → depth b' = depth b + 1 → parses element b') →
  open ≠ 0 → close ≠ 0 → ok c b → parses (parse_container ty open close element item) b.
Proof.
  intros Hel Hopen Hclose (Hb & Ho & Hd). unfold parses, parse_container.
  rewrite (bind_run (get depth) _ b (depth b) b) by done. unfold CJSON_NESTING_LIMIT at 1.
  destruct (Z.leb_spec 1000 (depth b)); [done|]. set (b1 := mkPB c (offset b) (depth b + 1)).
  rewrite (bind_run (set_depth _) _ b tt b1) by (unfold set_depth, modify; by rewrite Hb).
  assert (Hd1 : 0 <= depth b + 1 <= CJSON_NESTING_LIMIT) by (unfold CJSON_NESTING_LIMIT; lia).
  rewrite (bind_run _ _ _ _ _ (looking_at_run open b1 (ok_mk _ _ Ho Hd1))). cbn [offset b1].
  destruct (Z.eqb_spec (nz c (offset b)) open) as [E|]; cbn [negb]; [|done].
  pose proof (nz_inside (offset b) Ho ltac:(congruence)) as Hin.
  rewrite (bind_run _ _ _ _ _ (advance_run 1 b1)). cbn [b1 content offset depth]. set (b2 := mkPB c _ _).
  destruct (skip_run b2 (ok_mk (offset b + 1) (depth b + 1) ltac:(lia) Hd1)) as (b3 & Hs3 & Hok3 & Hd3 & Ho3).
  rewrite (bind_run _ _ _ _ _ Hs3). cbn [b2 offset depth] in Ho3, Hd3.
  rewrite (bind_run _ _ _ _ _ (looking_at_run close b3 Hok3)).
  destruct (Z.eqb_spec (nz c (offset b3)) close) as [E3|_].
  { destruct (container_done_run ty item [] b3 Hok3 ltac:(congruence) ltac:(lia)) as (r & b' & -> & Hok' & Hd' & Ho').
    split; [done|]. split; lia. }
  destruct Hok3 as (Hb3 & Hr3 & _).
  rewrite (bind_run (get _) _ b3 true b3); cbn [negb].
  2: { unfold get, can_access_at_index, length_. rewrite Hb3. fold (len c). do 2 f_equal. apply Z.ltb_lt. lia. }
  rewrite (bind_run _ _ _ _ _ (advance_run (-1) b3)), Hb3, Hd3. set (b4 := mkPB c _ _).
  rewrite (bind_run (get length_) _ b4 (len c) b4) by done.
  assert (Hp : parses (elements element (Z.to_nat (len c)) []) b4).
  { apply (elements_run element (depth b + 1)); cbn; try lia; [done|apply ok_mk; lia]. }
  unfold parses in Hp. unfold bind at 1. destruct (elements _ _ _ b4) as [[[head|] b5]|]; [|done|done].
  destruct Hp as (Hok5 & Hd5 & Ho5). cbn in Hd5, Ho5.
  rewrite (bind_run _ _ _ _ _ (looking_at_run close b5 Hok5)).
  destruct (Z.eqb_spec (nz c (offset b5)) close) as [E5|_]; [|done].
  destruct (container_done_run ty item head b5 Hok5 ltac:(congruence) ltac:(lia)) as (r & b' & -> & Hok' & Hd' & Ho').
  split; [done|]. split; lia.
Qed.

(** Two parts one after the other. *)
Lemma parses_bind {A B} (m : M parse_buffer (option A)) (k : A → M parse_buffer (option B)) b :
  parses m b →
  (∀ x b', ok c b' → depth b' = depth b → offset b < offset b' → parses (k x) b') →
  parses (let! r := m in match r with None => ret None | Some x => k x end) b.
Proof.
  unfold parses, bind. intros Hm Hk. destruct (m b) as [[[x|] b1]|]; [|done|done]. destruct Hm as (Hok & Hd & Ho).
  specialize (Hk x b1 Hok Hd Ho). destruct (k x b1) as [[[y|] b2]|]; [|done|done].
  destruct Hk as (H1 & H2 & H3). split; [done|]. split; lia.
Qed.

Lemma parses_map {A B} (m : M parse_buffer (option A)) (f : A → B) b :
  parses m b → parses (let! r := m in match r with None => ret None | Some x => ret (Some (f x)) end) b.
Proof. unfold parses, bind. by destruct (m b) as [[[x|] b1]|]. Qed.

Lemma parses_step {A B} (m : M parse_buffer A) (k : A → M parse_buffer (option B)) b x b' :
  m b = Some (x, b') → depth b' = depth b → offset b <= offset b' → parses (k x) b' → parses (bind m k) b.
Proof.
  unfold parses. intros Hm Hd Ho Hk. rewrite (bind_run _ _ _ _ _ Hm).
  destruct (k x b') as [[[y|] b2]|]; [|done|done]. destruct Hk as (H1 & H2 & H3). split; [done|]. split; lia.
Qed.

Lemma member_run value b :
  (∀ item b', ok c b' → depth b' = depth b → parses (value item) b') →
  ok c b → parses (member value) b.
Proof.
  intros Hv Hok. unfold member. apply parses_bind; [by apply parse_string_run|]. intros name b1 Hok1 Hd1 Ho1.
  destruct (skip_run b1 Hok1) as (b2 & Hs2 & Hok2 & Hd2 & Ho2). eapply parses_step; [exact Hs2|done|done|].
  eapply parses_step; [by apply looking_at_run|done|done|].
  destruct (Z.eqb_spec (nz c (offset b2)) 58) as [E|_]; cbn [negb]; [|done].
  destruct Hok2 as (Hb2 & Hr2 & Hdr2). pose proof (nz_inside (offset b2) Hr2 ltac:(lia)).
  assert (Hok3 : ok c (mkPB c (offset b2 + 1) (depth b2))) by (apply ok_mk; [lia|done]).
  eapply parses_step; [rewrite advance_run, Hb2; done|done|cbn; lia|].
  destruct (skip_run _ Hok3) as (b4 & Hs4 & Hok4 & Hd4 & Ho4). eapply parses_step; [exact Hs4|done|done|].
  apply Hv; [done|]. cbn in Hd4. lia.
Qed.

Lemma literal_run lit b : ok c b → ∃ r, looking_at_literal lit b = Some (r, b) ∧
  (r = true → Forall (λ x, x ≠ 0) lit → offset b + Z.of_nat (length lit) < len c).
Proof.
  intros (Hb & Ho & Hd). unfold looking_at_literal, get. eexists. split; [done|].
  rewrite andb_true_iff, bool_decide_eq_true. unfold can_read, length_. rewrite Hb. fold (len c).
  intros [Hle%Z.leb_le E] Hnz. destruct lit as [|x lit] using rev_ind; [simpl; lia|]. clear IHlit.
  apply Forall_app in Hnz as [_ Hx]. rewrite Forall_singleton in Hx.
  rewrite length_app in *. simpl in *. set (n := length lit) in *.
  assert (En : nz c (offset b + Z.of_nat n) = x).
  { unfold nz. rewrite <- (take_drop (Z.to_nat (offset b)) c) at 1.
    rewrite app_nth2; rewrite length_take; [|unfold len in *; lia].
    replace (_ - _)%nat with n by (unfold len in *; lia). rewrite <- (take_drop (n + 1) (drop _ c)), E.
    rewrite app_nth1; [|rewrite length_app; simpl; lia]. rewrite app_nth2, Nat.sub_diag by lia. done. }
  pose proof (nz_inside (offset b + Z.of_nat n) ltac:(lia) ltac:(by rewrite En)). lia.
Qed.

Lemma parse_value_run `{!DoubleLaws D} fuel item b :
  ok c b → CJSON_NESTING_LIMIT < Z.of_nat fuel + depth b → parses (parse_value fuel item) b.
Proof.
  revert item b. induction fuel as [|fuel IH]; intros item b Hok Hf; [destruct Hok as (_ & _ & ?); lia|].
  cbn [parse_value]. destruct item as [ty vs vi vd st ch]. pose proof Hok as (Hb & Ho & Hd).
  assert (Hlit : ∀ lit k (r : cJSON D) (rest : M parse_buffer (option (cJSON D))),
    Forall (λ x, x ≠ 0) lit → k = Z.of_nat (length lit) → 0 < k → parses rest b →
    parses (let! l := looking_at_literal lit in if l then (advance k ;;; ret (Some r)) else rest) b).
  { intros lit k r rest Hnz -> Hk Hrest. destruct (literal_run lit b Hok) as (l & Hl & Hin).
    eapply parses_step; [exact Hl|done|done|]. destruct l; [|done]. specialize (Hin eq_refl Hnz).
    unfold parses. rewrite (bind_run _ _ _ _ _ (advance_run _ b)), Hb. cbn. split; [apply ok_mk; [lia|done]|]. split; [done|lia]. }
  apply Hlit; [by repeat constructor|done|done|]. apply Hlit; [by repeat constructor|done|done|].
  apply Hlit; [by repeat constructor|done|done|].
  eapply parses_step; [done|done|done|]. destruct (can_access_at_index b 0); cbn [negb]; [|done].
  eapply parses_step; [apply (char_at_offset_run 0 b Hb); lia|done|done|]. rewrite Z.add_0_r.
  destruct (nz c (offset b) =? 34).
  { by apply parses_map, parse_string_run. }
  destruct ((nz c (offset b) =? 45) || ((48 <=? nz c (offset b)) && (nz c (offset b) <=? 57))); [by apply parse_number_run|].
  destruct (nz c (offset b) =? 91).
  { apply container_run; [|done|done|done]. intros b' Hok' Hd'. apply IH; [done|lia]. }
  destruct (nz c (offset b) =? 123); [|done].
  apply container_run; [|done|done|done]. intros b' Hok' Hd'. apply member_run; [|done].
  intros item b1 Hok1 Hd1. apply IH; [done|lia].
Qed.

(** [cJSON_Parse] returns. *)
Lemma cJSON_Parse_total `{!DoubleLaws D} (t : list Z) : c = t ++ [0] → ∃ r, cJSON_Parse t = Some r.
Proof.
  intros E. unfold cJSON_Parse. rewrite <- E. set (b := mkPB c 0 0). pose proof len_pos as Hl.
  assert (Hok : ok c b) by (apply ok_mk; [lia|unfold CJSON_NESTING_LIMIT; lia]).
  assert (Hbom : ∃ b', skip_utf8_bom b = Some (tt, b') ∧ ok c b' ∧ depth b' = 0).
  { unfold skip_utf8_bom. rewrite (bind_run (get offset) _ b 0 b) by done. cbn [Z.eqb negb].
    rewrite (bind_run (get _) _ b (can_access_at_index b 4) b) by done.
    destruct (literal_run [0xEF; 0xBB; 0xBF] b Hok) as (l & Hr & Hin). rewrite (bind_run _ _ _ _ _ Hr).
    destruct (can_access_at_index b 4 && l) eqn:El; [|by exists b].
    apply andb_true_iff in El as [_ ->]. specialize (Hin eq_refl ltac:(by repeat constructor)).
    eexists. split; [done|]. cbn in *. split; [apply ok_mk; [lia|unfold CJSON_NESTING_LIMIT; lia]|done]. }
  destruct Hbom as (b1 & Hr1 & Hok1 & Hd1). rewrite (bind_run _ _ _ _ _ Hr1).
  destruct (skip_run b1 Hok1) as (b2 & Hr2 & Hok2 & Hd2 & _). rewrite (bind_run _ _ _ _ _ Hr2).
  pose proof nesting_fuel_enough as Hf. generalize dependent nesting_fuel. intros fuel Hf.
  pose proof (parse_value_run fuel cJSON_New_Item b2 Hok2 ltac:(lia)) as Hp. unfold parses in Hp.
  by destruct (parse_value fuel cJSON_New_Item b2) as [[r b3]|]; [exists r|].
Qed.

End Text.

(** ** The values a tree stands for, and their text *)

Inductive json :=
  | JNull | JBool (v : bool) | JNumber (n : Z) | JString (s : list Z)
  | JArray (l : list json) | JObject (l : list (list Z * json)).

Section JsonInd.
Variable P : json → Prop.
Hypothesis Hnull : P JNull.
Hypothesis Hbool : ∀ v, P (JBool v).
Hypothesis Hnumber : ∀ n, P (JNumber n).
Hypothesis Hstring : ∀ s, P (JString s).
Hypothesis Harray : ∀ l, Forall P l → P (JArray l).
Hypothesis Hobject : ∀ l, Forall (λ m, P m.2) l → P (JObject l).
Fixpoint json_ind' (j : json) : P j :=
  match j with
  | JNull => Hnull | JBool v => Hbool v | JNumber n => Hnumber n | JString s => Hstring s
  | JArray l => Harray l ((fix go l : Forall P l :=
      match l with [] => Forall_nil_2 _ | j :: l => Forall_cons_2 _ _ _ (json_ind' j) (go l) end) l)
  | JObject l => Hobject l ((fix go l : Forall (λ m, P m.2) l :=
      match l with [] => Forall_nil_2 _ | m :: l => Forall_cons_2 _ _ _ (json_ind' m.2) (go l) end) l)
  end.
End JsonInd.

(** The tree of a value. *)
Fixpoint tree (name : option (list Z)) (j : json) : cJSON D :=
  match j with
  | JNull => Item cJSON_NULL None 0 (d_of_Z 0) name []
  | JBool v => Item (if v then cJSON_True else cJSON_False) None (if v then 1 else 0) (d_of_Z 0) name []
  | JNumber n => Item cJSON_Number None n (d_of_Z n) name []
  | JString s => Item cJSON_String (Some s) 0 (d_of_Z 0) name []
  | JArray l => Item cJSON_Array None 0 (d_of_Z 0) name (tree None <$> l)
  | JObject l => Item cJSON_Object None 0 (d_of_Z 0) name ((λ m, tree (Some m.1) m.2) <$> l)
  end.

(** C strings, the integers of an [int], and how deep arrays and objects nest. *)
Definition is_cstr (s : list Z) : Prop := Forall (λ x, 0 < x < 256) s.
Fixpoint json_ok (j : json) : Prop :=
  match j with
  | JNull | JBool _ => True
  | JNumber n => is_int n
  | JString s => is_cstr s
  | JArray l => foldr (λ j P, json_ok j ∧ P) True l
  | JObject l => foldr (λ m P, (is_cstr m.1 ∧ json_ok m.2) ∧ P) True l
  end.
Fixpoint nesting (j : json) : Z :=
  match j with
  | JArray l => 1 + foldr (λ j n, Z.max (nesting j) n) 0 l
  | JObject l => 1 + foldr (λ m n, Z.max (nesting m.2) n) 0 l
  | _ => 0
  end.

(** Elements, each after its blanks, with commas between them. *)
Fixpoint joined (l : list (list Z * list Z)) (last_blanks : list Z) : list Z :=
  match l with
  | [] => last_blanks
  | [(w, t)] => w ++ t ++ last_blanks
  | (w, t) :: l => w ++ t ++ 44 :: joined l last_blanks
  end.
(** The blanks of an array: none before its first element. *)
Definition spaced (w : list Z) (ts : list (list Z)) : list (list Z * list Z) :=
  match ts with [] => [] | t :: ts => ([], t) :: ((λ t, (w, t)) <$> ts) end.
Definition quoted (s : list Z) : list Z := [34] ++ concat (escape <$> s) ++ [34].
Fixpoint render (fmt : bool) (d : Z) (j : json) : list Z :=
  match j with
  | JNull => bytes "null"
  | JBool v => if v then bytes "true" else bytes "false"
  | JNumber n => sprintf_ld n
  | JString s => quoted s
  | JArray l =>
      [91] ++ joined (spaced (if fmt then [32] else []) (render fmt (d + 1) <$> l)) [] ++ [93]
  | JObject l =>
      let w (n : Z) := if fmt then 10 :: tabs n else [] in
      [123] ++ joined ((λ m, (w (d + 1), quoted m.1 ++ (if fmt then [58; 9] else [58]) ++ render fmt (d + 1) m.2)) <$> l) (w d) ++ [125]
  end.

(** *** Printing *)

Lemma emit_run bs acc d fmt : emit bs (mkOut acc d fmt) = Some (tt, mkOut (acc ++ bs) d fmt).
Proof. done. Qed.
Lemma and_then_run (m k : M printbuffer bool) p p' : m p = Some (true, p') → and_then m k p = k p'.
Proof. intros E. unfold and_then. by rewrite (bind_run _ _ _ _ _ E). Qed.

Lemma print_string_run s acc d fmt :
  print_string_ptr (Some s) (mkOut acc d fmt) = Some (true, mkOut (acc ++ quoted s) d fmt).
Proof. done. Qed.

Lemma digits_length fuel n acc : (length (digits fuel n acc) <= fuel + length acc)%nat.
Proof.
  revert n acc. induction fuel as [|fuel IH]; intros n acc; simpl; [lia|].
  destruct (n <? 10); simpl; [lia|]. etransitivity; [apply IH|]. simpl. lia.
Qed.
Lemma sprintf_ld_length n : (length (sprintf_ld n) <= 21)%nat.
Proof.
  assert (Hd : ∀ m, (length (digits 20 m []) <= 20)%nat) by (intros m; apply (digits_length 20 m [])).
  unfold sprintf_ld. destruct (n <? 0); cbn [length]; [specialize (Hd (- n))|specialize (Hd n)]; lia.
Qed.

Lemma print_number_run `{!DoubleLaws D} n acc d fmt : is_int n →
  print_number (d_of_Z n) (mkOut acc d fmt) = Some (true, mkOut (acc ++ sprintf_ld n) d fmt).
Proof.
  intros Hn. unfold print_number, number_text. rewrite d_finite_int, d_long_int, d_eqb_int by done. cbn [negb].
  rewrite (bind_run _ _ _ _ _ (lift_run _ _ _ eq_refl)). pose proof (sprintf_ld_length n).
  destruct (Z.ltb_spec 25 (Z.of_nat (length (sprintf_ld n)))); [lia|done].
Qed.

(** [prints m text]: [m] appends [text] and keeps the rest of the state. *)
Definition prints (m : M printbuffer bool) (text : list Z) (d : Z) (fmt : bool) : Prop :=
  ∀ acc, m (mkOut acc d fmt) = Some (true, mkOut (acc ++ text) d fmt).

Lemma joined_blanks w t l lw : joined ((w, t) :: l) lw = w ++ joined (([], t) :: l) lw.
Proof. by destruct l. Qed.

Lemma joined_spaced w t t' ts :
  joined (spaced w (t :: t' :: ts)) [] = t ++ 44 :: w ++ joined (spaced w (t' :: ts)) [].
Proof.
  change (joined (spaced w (t :: t' :: ts)) []) with ([] ++ t ++ 44 :: joined ((w, t') :: ((λ t, (w, t)) <$> ts)) []).
  by rewrite joined_blanks.
Qed.

Lemma print_elements_run (value : cJSON D → M printbuffer bool) l ts d fmt :
  Forall2 (λ c t, prints (value c) t d fmt) l ts →
  prints (print_elements value l) (joined (spaced (if fmt then [32] else []) ts) []) d fmt.
Proof.
  induction 1 as [|c t l ts Ht Hl IH]; intros acc; cbn [print_elements].
  { simpl. by rewrite app_nil_r. }
  rewrite (and_then_run _ _ _ _ (Ht acc)).
  rewrite (bind_run (get format) _ _ fmt (mkOut (acc ++ t) d fmt)) by done.
  destruct Hl as [|c' t' l ts Ht' Hl].
  - cbn. by rewrite app_nil_r.
  - cbn [when]. rewrite (bind_run _ _ _ _ _ (emit_run _ _ _ _)), IH, joined_spaced. do 3 f_equal.
    destruct fmt; by rewrite <- !app_assoc.
Qed.

Lemma print_array_run (value : cJSON D → M printbuffer bool) l ts d fmt :
  Forall2 (λ c t, prints (value c) t (d + 1) fmt) l ts →
  prints (print_array value l) ([91] ++ joined (spaced (if fmt then [32] else []) ts) [] ++ [93]) d fmt.
Proof.
  intros Hl acc. unfold print_array. rewrite (bind_run _ _ _ _ _ (emit_run _ _ _ _)).
  rewrite (bind_run (add_depth 1) _ _ tt (mkOut (acc ++ [91]) (d + 1) fmt)) by done.
  rewrite (and_then_run _ _ _ _ (print_elements_run value l ts (d + 1) fmt Hl _)).
  rewrite (bind_run _ _ _ _ _ (emit_run _ _ _ _)). cbn. unfold ret. do 3 f_equal; [|lia]. by rewrite <- !app_assoc.
Qed.

Ltac app_norm := cbn [app]; repeat (first [rewrite <- app_assoc | rewrite app_nil_r]; cbn [app]).

(** What the loop over the members prints at depth [d]. *)
Fixpoint members_text (fmt : bool) (d : Z) (ms : list (list Z * list Z)) : list Z :=
  match ms with
  | [] => []
  | (k, t) :: ms =>
      (if fmt then tabs d else []) ++ quoted k ++ (if fmt then [58; 9] else [58]) ++ t ++
      (match ms with [] => [] | _ => [44] end) ++ (if fmt then [10] else []) ++ members_text fmt d ms
  end.

Lemma print_members_run (value : cJSON D → M printbuffer bool) l ms d fmt :
  Forall2 (λ c m, string_ c = Some m.1 ∧ prints (value c) m.2 d fmt) l ms →
  prints (print_members value l) (members_text fmt d ms) d fmt.
Proof.
  induction 1 as [|c [k t] l ms [Hk Ht] Hl IH]; intros acc; cbn [print_members].
  { simpl. by rewrite app_nil_r. }
  rewrite (bind_run (get format) _ _ fmt (mkOut acc d fmt)) by done.
  rewrite (bind_run (get out_depth) _ _ d (mkOut acc d fmt)) by done.
  rewrite (bind_run (when fmt (emit (tabs d))) _ _ tt (mkOut (acc ++ (if fmt then tabs d else [])) d fmt)).
  2: { destruct fmt; cbn; by rewrite ?app_nil_r. }
  simpl in Hk. rewrite Hk, (and_then_run _ _ _ _ (print_string_run _ _ _ _)).
  rewrite (bind_run _ _ _ _ _ (emit_run _ _ _ _)), (and_then_run _ _ _ _ (Ht _)).
  rewrite (bind_run _ _ _ _ _ (emit_run _ _ _ _)), IH. do 3 f_equal. cbn [members_text].
  rewrite <- !app_assoc. do 5 f_equal. destruct Hl; cbn; done.
Qed.

Lemma members_joined (fmt : bool) d ms X :
  (if fmt then [10] else []) ++ members_text fmt d ms ++ X =
  joined ((λ m : list Z * list Z, (if fmt then 10 :: tabs d else [], quoted m.1 ++ (if fmt then [58; 9] else [58]) ++ m.2)) <$> ms)
    ((if fmt then [10] else []) ++ X).
Proof.
  induction ms as [|[k t] ms IH]; cbn [members_text fmap list_fmap joined fst snd]; [done|].
  destruct ms as [|m ms]; cbn [fmap list_fmap joined fst snd] in *.
  - destruct fmt; by app_norm.
  - rewrite <- IH. destruct fmt; by app_norm.
Qed.

Lemma print_object_run (value : cJSON D → M printbuffer bool) l ms d fmt :
  Forall2 (λ c m, string_ c = Some m.1 ∧ prints (value c) m.2 (d + 1) fmt) l ms →
  let w (n : Z) := if fmt then 10 :: tabs n else [] in
  prints (print_object value l)
    ([123] ++ joined ((λ m : list Z * list Z, (w (d + 1), quoted m.1 ++ (if fmt then [58; 9] else [58]) ++ m.2)) <$> ms) (w d) ++ [125]) d fmt.
Proof.
  intros Hl w acc. unfold print_object.
  rewrite (bind_run (get format) _ _ fmt (mkOut acc d fmt)) by done.
  rewrite (bind_run _ _ _ _ _ (emit_run _ _ _ _)).
  rewrite (bind_run (add_depth 1) _ _ tt (mkOut (acc ++ (if fmt then [123; 10] else [123])) (d + 1) fmt)) by done.
  rewrite (and_then_run _ _ _ _ (print_members_run value l ms (d + 1) fmt Hl _)).
  rewrite (bind_run (get out_depth) _ _ (d + 1) (mkOut _ (d + 1) fmt)) by done.
  rewrite (bind_run _ _ _ _ _ (emit_run _ _ _ _)). cbn -[quoted]. unfold ret. replace (d + 1 - 1) with d by lia. do 3 f_equal; [|lia].
  pose proof (members_joined fmt (d + 1) ms (if fmt then tabs d else [])) as E. unfold w.
  destruct fmt; cbn [app] in E |- *; cbv beta iota; rewrite <- E; by app_norm.
Qed.

Lemma print_value_run `{!DoubleLaws D} j : ∀ name d fmt, json_ok j →
  prints (print_value (tree name j)) (render fmt d j) d fmt.
Proof.
  induction j as [|v|n|s|l IH|l IH] using json_ind'; intros name d fmt Hok; cbn [tree].
  - done.
  - by destruct v.
  - intros acc. by apply print_number_run.
  - done.
  - change (prints (print_array print_value (tree None <$> l)) (render fmt d (JArray l)) d fmt).
    apply print_array_run. simpl in Hok. clear name.
    induction IH as [|j l Hj Hl IHl]; [apply Forall2_nil_2|]. simpl in Hok. destruct Hok as [Hj1 Hl1].
    apply Forall2_cons. split; [by apply Hj|by apply IHl].
  - set (ms := (λ m, (m.1, render fmt (d + 1) m.2)) <$> l).
    assert (E : render fmt d (JObject l) = [123] ++ joined ((λ m : list Z * list Z, (if fmt then 10 :: tabs (d + 1) else [],
      quoted m.1 ++ (if fmt then [58; 9] else [58]) ++ m.2)) <$> ms) (if fmt then 10 :: tabs d else []) ++ [125]).
    { unfold ms. rewrite <- list_fmap_compose. done. }
    rewrite E. change (prints (print_object print_value ((λ m, tree (Some m.1) m.2) <$> l)) ([123] ++ joined ((λ m : list Z * list Z, (if fmt then 10 :: tabs (d + 1) else [],
      quoted m.1 ++ (if fmt then [58; 9] else [58]) ++ m.2)) <$> ms) (if fmt then 10 :: tabs d else []) ++ [125]) d fmt).
    apply print_object_run. unfold ms. clear E ms name. simpl in Hok.
    induction IH as [|[k j] l Hj Hl IHl]; [apply Forall2_nil_2|]. simpl in Hok. destruct Hok as [[Hk Hj1] Hl1].
    apply Forall2_cons. split; [|by apply IHl]. cbn. split; [by destruct j|]. by apply Hj.
Qed.

(** *** Parsing what was printed

    [at_ b s]: the text from the offset on is [s]. *)
Definition at_ (b : parse_buffer) (s : list Z) : Prop :=
  0 <= offset b ∧ drop (Z.to_nat (offset b)) (content b) = s.
Definition moved (b : parse_buffer) (n : Z) : parse_buffer := mkPB (content b) (offset b + n) (depth b).

Lemma moved_moved b m n : moved (moved b m) n = moved b (m + n).
Proof. unfold moved. cbn. by rewrite Z.add_assoc. Qed.
Lemma moved_0 b : moved b 0 = b.
Proof. unfold moved. rewrite Z.add_0_r. by destruct b. Qed.

Lemma at_moved b t s : at_ b (t ++ s) → at_ (moved b (zlen t)) s.
Proof.
  intros [Ho E]. unfold at_, moved, zlen. cbn. split; [lia|].
  rewrite Z2Nat.inj_add, Nat2Z.id, <- drop_drop, E by lia. apply drop_app_length.
Qed.
Lemma at_moved_1 b x s : at_ b (x :: s) → at_ (moved b 1) s.
Proof. intros Ha. by apply (at_moved b [x] s). Qed.

Lemma at_length b s : at_ b s → s ≠ [] → length_ b = offset b + zlen s.
Proof.
  intros [Ho E] Hs. unfold length_, zlen. assert (El : length s = (length (content b) - Z.to_nat (offset b))%nat) by (rewrite <- E; apply length_drop).
  destruct s; [done|]. simpl in *. lia.
Qed.

Lemma char_run_at b s k x : at_ b s → s !! k = Some x → char (offset b + Z.of_nat k) b = Some (x, b).
Proof.
  intros [Ho E] Hk. unfold char. rewrite (bind_run (get content) _ b (content b) b) by done. apply lift_run.
  unfold rd. destruct (Z.ltb_spec (offset b + Z.of_nat k) 0); [lia|].
  rewrite <- E, lookup_drop in Hk. by replace (Z.to_nat (offset b + Z.of_nat k)) with (Z.to_nat (offset b) + k)%nat by lia.
Qed.
Lemma char_here b x s : at_ b (x :: s) → char_at_offset 0 b = Some (x, b).
Proof.
  intros Ha. unfold char_at_offset. rewrite (bind_run (get offset) _ b (offset b) b) by done.
  by apply (char_run_at b (x :: s) 0).
Qed.
Lemma access_here b x s : at_ b (x :: s) → can_access_at_index b 0 = true.
Proof.
  intros Ha. unfold can_access_at_index. rewrite (at_length b (x :: s)), zlen_cons by done.
  pose proof (zlen_nonneg s). apply Z.ltb_lt. lia.
Qed.
Lemma looking_at_here b x s k : at_ b (x :: s) → looking_at k b = Some (x =? k, b).
Proof.
  intros Ha. unfold looking_at.
  rewrite (bind_run (get _) _ b true b) by (unfold get; by rewrite (access_here b x s)).
  by rewrite (bind_run _ _ _ _ _ (char_here b x s Ha)).
Qed.
Lemma literal_here b s lit : at_ b s → s ≠ [] →
  looking_at_literal lit b = Some (bool_decide (take (length lit) s = lit), b).
Proof.
  intros Ha Hs. unfold looking_at_literal, get. do 2 f_equal. unfold can_read. rewrite (at_length b s Ha Hs).
  destruct Ha as [Ho ->]. case_bool_decide as E; [|apply andb_false_r]. rewrite andb_true_r. apply Z.leb_le.
  apply (f_equal length) in E. rewrite length_take in E. unfold zlen. lia.
Qed.

Definition blank (x : Z) : Prop := x <= 32.
Lemma blanks_app w x s : Forall blank w → 32 < x → blanks (w ++ x :: s) = zlen w.
Proof.
  intros Hw Hx. induction Hw as [|y w Hy Hw IH]; cbn [blanks app].
  - destruct (Z.leb_spec x 32); [lia|done].
  - destruct (Z.leb_spec y 32) as [|Hy']; [by rewrite IH, zlen_cons|unfold blank in Hy; lia].
Qed.
Lemma skip_here b w x s : at_ b (w ++ x :: s) → Forall blank w → 32 < x →
  buffer_skip_whitespace b = Some (tt, moved b (zlen w)).
Proof.
  intros Ha Hw Hx. pose proof (at_length b _ Ha ltac:(by destruct w)) as Hl. rewrite zlen_app, zlen_cons in Hl.
  unfold buffer_skip_whitespace, modify. destruct Ha as [Ho ->]. rewrite blanks_app by done.
  pose proof (zlen_nonneg s). destruct (Z.eqb_spec (offset b + zlen w) (length_ b)); [lia|done].
Qed.
Lemma skip_none b x s : at_ b (x :: s) → 32 < x → buffer_skip_whitespace b = Some (tt, b).
Proof. intros Ha Hx. pose proof (skip_here b [] x s Ha ltac:(by apply Forall_nil_2) Hx) as E. by rewrite moved_0 in E. Qed.
Lemma advance_moved n b : advance n b = Some (tt, moved b n).
Proof. done. Qed.

(** **** Strings *)

Lemma hex_char_digit d : 0 <= d < 16 → hex_digit (hex_char d) = Some d ∧ hex_char d ≠ 34 ∧ hex_char d ≠ 92.
Proof.
  intros Hd. assert (Hall : Forall (λ d, hex_digit (hex_char d) = Some d ∧ hex_char d ≠ 34 ∧ hex_char d ≠ 92) (seqZ 0 16)).
  { apply (bool_decide_unpack _). by vm_compute. }
  rewrite Forall_forall in Hall. apply Hall, elem_of_seqZ. lia.
Qed.

(** One character printed: how it reads back. *)
Inductive escaped (x : Z) : list Z → Prop :=
  | esc_plain : x ≠ 34 → x ≠ 92 → escaped x [x]
  | esc_short e : In (e, x) [(98, 8); (102, 12); (110, 10); (114, 13); (116, 9); (34, 34); (92, 92)] → escaped x [92; e]
  | esc_code : 0 < x < 32 → escaped x [92; 117; 48; 48; hex_char (x / 16); hex_char (x mod 16)].

Lemma escape_escaped x : 0 < x < 256 → escaped x (escape x).
Proof.
  intros Hx. destruct (decide (x = 34)) as [->|H34]; [apply esc_short; simpl; by auto 10|].
  destruct (decide (x = 92)) as [->|H92]; [apply esc_short; simpl; by auto 10|]. unfold escape.
  rewrite (proj2 (Z.eqb_neq x 34)), (proj2 (Z.eqb_neq x 92)) by done. cbn [negb andb]. rewrite !andb_true_r.
  destruct (Z.ltb_spec 31 x); [by apply esc_plain|].
  destruct (Z.eqb_spec x 8) as [->|]; [apply esc_short; simpl; by auto 10|].
  destruct (Z.eqb_spec x 12) as [->|]; [apply esc_short; simpl; by auto 10|].
  destruct (Z.eqb_spec x 10) as [->|]; [apply esc_short; simpl; by auto 10|].
  destruct (Z.eqb_spec x 13) as [->|]; [apply esc_short; simpl; by auto 10|].
  destruct (Z.eqb_spec x 9) as [->|]; [apply esc_short; simpl; by auto 10|].
  apply esc_code. lia.
Qed.


(** Where the scan stands after the text [t]. *)
Lemma scan_plain b fuel sk t x rest : at_ b (t ++ x :: rest) → x ≠ 34 → x ≠ 92 →
  scan_string (Datatypes.S fuel) (offset b + zlen t) sk b = scan_string fuel (offset b + zlen (t ++ [x])) sk b.
Proof.
  intros Ha H34 H92. cbn [scan_string]. pose proof (at_length b _ Ha ltac:(by destruct t)) as Hl.
  rewrite zlen_app, zlen_cons in Hl. pose proof (zlen_nonneg rest).
  rewrite (bind_run (get length_) _ b (length_ b) b) by done.
  destruct (Z.ltb_spec (offset b + zlen t) (length_ b)); [|lia]. cbn [negb].
  rewrite (bind_run _ _ _ _ _ (char_run_at b _ (length t) x Ha ltac:(by apply list_lookup_middle))).
  destruct (Z.eqb_spec x 34); [done|]. destruct (Z.eqb_spec x 92); [done|].
  rewrite zlen_app. by rewrite Z.add_assoc.
Qed.

Lemma scan_escape b fuel sk t e rest : at_ b (t ++ 92 :: e :: rest) →
  scan_string (Datatypes.S fuel) (offset b + zlen t) sk b =
    scan_string fuel (offset b + zlen (t ++ [92; e])) (sk + 1) b.
Proof.
  intros Ha. cbn [scan_string]. pose proof (at_length b _ Ha ltac:(by destruct t)) as Hl.
  rewrite zlen_app, !zlen_cons in Hl. pose proof (zlen_nonneg rest).
  rewrite (bind_run (get length_) _ b (length_ b) b) by done.
  destruct (Z.ltb_spec (offset b + zlen t) (length_ b)); [|lia]. cbn [negb].
  rewrite (bind_run _ _ _ _ _ (char_run_at b _ (length t) 92 Ha ltac:(by apply list_lookup_middle))).
  cbn [Z.eqb Pos.eqb]. destruct (Z.leb_spec (length_ b) (offset b + zlen t + 1)); [lia|].
  rewrite zlen_app. by rewrite Z.add_assoc.
Qed.

Lemma scan_close b fuel sk t rest : at_ b (t ++ 34 :: rest) →
  scan_string (Datatypes.S fuel) (offset b + zlen t) sk b = Some (Some (offset b + zlen t, sk), b).
Proof.
  intros Ha. cbn [scan_string]. pose proof (at_length b _ Ha ltac:(by destruct t)) as Hl.
  rewrite zlen_app, zlen_cons in Hl. pose proof (zlen_nonneg rest).
  rewrite (bind_run (get length_) _ b (length_ b) b) by done.
  destruct (Z.ltb_spec (offset b + zlen t) (length_ b)); [|lia]. cbn [negb].
  by rewrite (bind_run _ _ _ _ _ (char_run_at b _ (length t) 34 Ha ltac:(by apply list_lookup_middle))).
Qed.

Definition n_escapes (s : list Z) : Z :=
  foldr (λ x n, (if bool_decide (length (escape x) = 1%nat) then 0 else 1) + n) 0 s.

(** The first pass over a printed string. *)
Lemma scan_quoted b fuel sk s t rest :
  at_ b (t ++ concat (escape <$> s) ++ 34 :: rest) → is_cstr s →
  zlen (concat (escape <$> s)) < Z.of_nat fuel →
  scan_string fuel (offset b + zlen t) sk b =
    Some (Some (offset b + zlen (t ++ concat (escape <$> s)), sk + n_escapes s), b).
Proof.
  intros Ha Hs. revert t fuel sk Ha.
  induction Hs as [|x s Hx Hs IH]; intros t fuel sk Ha Hf; cbn [fmap list_fmap concat n_escapes foldr] in *.
  - destruct fuel as [|fuel]; [done|]. rewrite (scan_close b fuel sk t rest) by done. by rewrite app_nil_r, Z.add_0_r.
  - change (foldr _ 0 s) with (n_escapes s). rewrite app_assoc, Z.add_assoc. rewrite <- app_assoc in Ha.
    rewrite zlen_app in Hf. pose proof (zlen_nonneg (concat (escape <$> s))).
    assert (Hgo : ∀ f, zlen (concat (escape <$> s)) < Z.of_nat f →
      scan_string f (offset b + zlen (t ++ escape x)) (sk + (if bool_decide (length (escape x) = 1%nat) then 0 else 1)) b =
      Some (Some (offset b + zlen ((t ++ escape x) ++ concat (escape <$> s)),
        sk + (if bool_decide (length (escape x) = 1%nat) then 0 else 1) + n_escapes s), b)).
    { intros f Hlt. apply IH; [by rewrite <- app_assoc|done]. }
    destruct (escape_escaped x Hx) as [H34 H92|e He|Hc]; unfold zlen at 1 in Hf; cbn [length] in Hf; cbn [app] in Ha.
    + destruct fuel as [|fuel]; [lia|]. rewrite (scan_plain b fuel sk t x _ Ha H34 H92).
      rewrite <- (Hgo fuel) by lia. cbn. by rewrite Z.add_0_r.
    + destruct fuel as [|fuel]; [lia|]. rewrite (scan_escape b fuel sk t e _ Ha).
      rewrite <- (Hgo fuel) by lia. done.
    + do 5 (destruct fuel as [|fuel]; [lia|]). rewrite (scan_escape b _ sk t 117 _ Ha).
      destruct (hex_char_digit (x / 16) ltac:(dlia)) as (_ & A1 & A2).
      destruct (hex_char_digit (x mod 16) ltac:(dlia)) as (_ & B1 & B2).
      rewrite <- (Hgo fuel) by lia. cbn [bool_decide length].
      erewrite !scan_plain; rewrite <- ?app_assoc; cbn [app]; [|exact Ha|lia|lia|exact Ha|done|done|exact Ha|lia|lia|exact Ha|lia|lia].
      done.
Qed.

(** **** The copy of a printed string *)

Lemma char_at_after b t s k x : at_ b (t ++ s) → s !! k = Some x →
  char (offset b + zlen t + Z.of_nat k) b = Some (x, b).
Proof.
  intros Ha Hk. unfold zlen. rewrite <- Z.add_assoc, <- Nat2Z.inj_add. apply (char_run_at b (t ++ s)); [done|].
  by rewrite lookup_app_r, Nat.add_comm, Nat.add_sub by lia.
Qed.

Lemma hex_step b n p c d h : char p b = Some (c, b) → hex_digit c = Some d →
  parse_hex4_loop (Datatypes.S n) p h b =
    parse_hex4_loop n (p + 1) (if 0 <? Z.of_nat n then Z.shiftl (h + d) 4 else h + d) b.
Proof. intros Hp Hd. cbn [parse_hex4_loop]. by rewrite (bind_run _ _ _ _ _ Hp), Hd. Qed.

Lemma hex_here b t h1 h2 d1 d2 rest : at_ b (t ++ [92; 117; 48; 48; h1; h2] ++ rest) →
  hex_digit h1 = Some d1 → hex_digit h2 = Some d2 →
  parse_hex4 (offset b + zlen t + 2) b = Some (Z.shiftl d1 4 + d2, b).
Proof.
  intros Ha H1 H2. unfold parse_hex4.
  rewrite (hex_step b 3 _ 48 0 _ (char_at_after b t _ 2 48 Ha eq_refl) eq_refl).
  rewrite <- Z.add_assoc, (hex_step b 2 _ 48 0 _ (char_at_after b t _ 3 48 Ha eq_refl) eq_refl).
  rewrite <- Z.add_assoc, (hex_step b 1 _ h1 d1 _ (char_at_after b t _ 4 h1 Ha eq_refl) H1).
  rewrite <- Z.add_assoc, (hex_step b 0 _ h2 d2 _ (char_at_after b t _ 5 h2 Ha eq_refl) H2).
  done.
Qed.

Lemma control_code x : 0 < x < 32 → Z.shiftl (x / 16) 4 + x mod 16 = x ∧ utf8 x = Some [x] ∧
  (0xDC00 <=? x) = false ∧ (0xD800 <=? x) = false.
Proof.
  intros Hx. assert (Hall : Forall (λ x, Z.shiftl (x / 16) 4 + x mod 16 = x ∧ utf8 x = Some [x] ∧
    (0xDC00 <=? x) = false ∧ (0xD800 <=? x) = false) (seqZ 1 31)) by (apply (bool_decide_unpack _); by vm_compute).
  rewrite Forall_forall in Hall. apply Hall, elem_of_seqZ. lia.
Qed.

Lemma unescape_escaped b t x e rest input_end : escaped x e → at_ b (t ++ e ++ rest) →
  offset b + zlen t + zlen e <= input_end →
  unescape (offset b + zlen t) input_end b = Some (Some (zlen e, [x]), b).
Proof.
  intros He Ha Hend. unfold unescape.
  destruct He as [H34 H92|e He|Hx]; unfold zlen at 2 in Hend; cbn [length] in Hend.
  - rewrite <- (Z.add_0_r (offset b + zlen t)), (bind_run _ _ _ _ _ (char_at_after b t _ 0 x Ha eq_refl)).
    by rewrite (proj2 (Z.eqb_neq x 92)).
  - rewrite <- (Z.add_0_r (offset b + zlen t)) at 1.
    rewrite (bind_run _ _ _ _ _ (char_at_after b t _ 0 92 Ha eq_refl)). cbn [Z.eqb Pos.eqb negb].
    destruct (Z.ltb_spec (input_end - (offset b + zlen t)) 1); [lia|].
    rewrite (bind_run _ _ _ _ _ (char_at_after b t _ 1 e Ha eq_refl)).
    simpl in He. by repeat (destruct He as [[= <- <-]|He]; [done|]).
  - rewrite <- (Z.add_0_r (offset b + zlen t)) at 1.
    rewrite (bind_run _ _ _ _ _ (char_at_after b t _ 0 92 Ha eq_refl)). cbn [Z.eqb Pos.eqb negb].
    destruct (Z.ltb_spec (input_end - (offset b + zlen t)) 1); [lia|].
    rewrite (bind_run _ _ _ _ _ (char_at_after b t _ 1 117 Ha eq_refl)). cbn [Z.eqb Pos.eqb orb].
    destruct (control_code x Hx) as (Hcode & Hutf & Hdc & Hd8).
    rewrite (bind_run (utf16_literal_to_utf8 _ _) _ b (6, [x]) b); [done|].
    unfold utf16_literal_to_utf8. destruct (Z.ltb_spec (input_end - (offset b + zlen t)) 6); [lia|].
    rewrite (bind_run _ _ _ _ _ (hex_here b t _ _ _ _ rest Ha
      (proj1 (hex_char_digit (x / 16) ltac:(dlia))) (proj1 (hex_char_digit (x mod 16) ltac:(dlia))))).
    rewrite Hcode, Hdc, Hd8. cbn [andb]. by rewrite Hutf.
Qed.

Lemma copy_quoted b s : ∀ fuel cap t rest output, at_ b (t ++ concat (escape <$> s) ++ rest) → is_cstr s →
  zlen output + zlen s <= cap → zlen s < Z.of_nat fuel →
  let input_end := offset b + zlen (t ++ concat (escape <$> s)) in
  copy_string fuel cap (offset b + zlen t) input_end output b = Some ((input_end, Some (output ++ s)), b).
Proof.
  induction s as [|x s IH]; intros [|fuel] cap t rest output Ha Hs Hcap Hf input_end;
    try (unfold zlen in Hf; cbn [length] in Hf; lia); unfold input_end; clear input_end; cbn [copy_string fmap list_fmap concat].
  - rewrite !app_nil_r. by rewrite (proj2 (Z.ltb_ge _ _) (Z.le_refl _)).
  - apply Forall_cons in Hs as [Hx Hs]. rewrite zlen_cons in Hcap, Hf. cbn [fmap list_fmap concat] in Ha.
    assert (Hlen : 0 < zlen (escape x)).
    { pose proof (escape_escaped x Hx) as He. unfold zlen. clear -He. destruct He; cbn [length]; lia. }
    rewrite !zlen_app, !Z.add_assoc. pose proof (zlen_nonneg (concat (escape <$> s))). rewrite <- app_assoc in Ha.
    assert (Hin : offset b + zlen t + zlen (escape x) <=
      offset b + zlen t + zlen (escape x) + zlen (concat (escape <$> s))) by lia.
    destruct (Z.ltb_spec (offset b + zlen t) (offset b + zlen t + zlen (escape x) + zlen (concat (escape <$> s)))); [|lia].
    cbn [negb]. rewrite (bind_run _ _ _ _ _ (unescape_escaped b t x (escape x) _
      _ (escape_escaped x Hx) Ha Hin)).
    rewrite (bind_run (put_out cap output [x]) _ b (output ++ [x]) b).
    + rewrite app_assoc in Ha. specialize (IH fuel cap (t ++ escape x) rest (output ++ [x]) Ha Hs).
      cbv zeta in IH. rewrite !zlen_app, !Z.add_assoc in IH. rewrite IH by (change (zlen [x]) with 1; lia).
      by rewrite <- app_assoc.
    + unfold put_out. fold (zlen (output ++ [x])). rewrite zlen_app. change (zlen [x]) with 1.
      pose proof (zlen_nonneg s). destruct (Z.leb_spec (zlen output + 1) cap); [done|lia].
Qed.

(** The room the first pass counted is enough. *)
Lemma escapes_room s : is_cstr s → zlen s + n_escapes s <= zlen (concat (escape <$> s)).
Proof.
  induction 1 as [|x s Hx Hs IH]; cbn [n_escapes foldr fmap list_fmap concat]; [done|].
  fold (n_escapes s). rewrite zlen_cons, zlen_app.
  destruct (escape_escaped x Hx) as [H34 H92|e He|Hc']; cbn [length]; case_bool_decide; unfold zlen in *; cbn [length]; lia.
Qed.

Lemma cstr_ended s : is_cstr s → cstr (s ++ [0]) = s.
Proof.
  induction 1 as [|x s Hx Hs IH]; [done|]. cbn [app cstr]. destruct (Z.eqb_spec x 0); [lia|]. by rewrite IH.
Qed.

Lemma parse_string_quoted b s rest : at_ b (quoted s ++ rest) → is_cstr s →
  parse_string b = Some (Some s, moved b (zlen (quoted s))).
Proof.
  intros Ha Hs. unfold quoted in *. set (E := concat (escape <$> s)) in *. rewrite <- !app_assoc in Ha.
  pose proof (at_length b _ Ha ltac:(done)) as Hl. rewrite !zlen_app in Hl. pose proof (zlen_nonneg rest).
  change (zlen [34]) with 1 in Hl. pose proof (zlen_nonneg E). pose proof (proj1 Ha) as Ho.
  pose proof (escapes_room s Hs) as Hroom. fold E in Hroom. pose proof (zlen_nonneg s).
  assert (Hsk : 0 <= n_escapes s).
  { clear. induction s as [|x s IH]; cbn [n_escapes foldr]; [done|]. fold (n_escapes s). case_bool_decide; lia. }
  unfold parse_string.
  rewrite (bind_run (get offset) _ b (offset b) b) by done.
  rewrite (bind_run (get length_) _ b (length_ b) b) by done.
  rewrite <- (Z.add_0_r (offset b)) at 1. rewrite (bind_run _ _ _ _ _ (char_run_at b _ 0 34 Ha eq_refl)).
  cbn [Z.eqb Pos.eqb negb].
  rewrite (bind_run _ _ _ _ _ (scan_quoted b (Z.to_nat (length_ b)) 0 s [34] rest Ha Hs ltac:(fold E; lia))).
  fold E. rewrite zlen_app. change (zlen [34]) with 1. cbv beta iota zeta.
  pose proof (copy_quoted b s (Z.to_nat (length_ b)) (offset b + (1 + zlen E) - offset b - (0 + n_escapes s) + 1)
    [34] ([34] ++ rest) [] Ha Hs ltac:(change (zlen []) with 0; lia) ltac:(lia)) as Hcopy.
  cbv zeta in Hcopy. fold E in Hcopy. rewrite zlen_app in Hcopy. change (zlen [34]) with 1 in Hcopy.
  rewrite (bind_run _ _ _ _ _ Hcopy). cbv beta iota. cbn [app].
  rewrite (bind_run (put_out _ s [0]) _ b (s ++ [0]) b).
  - rewrite (cstr_ended s Hs). rewrite (bind_run _ _ _ _ _ (set_offset_run _ _)). unfold ret, moved.
    rewrite zlen_cons, zlen_app. change (zlen [34]) with 1. do 3 f_equal. lia.
  - unfold put_out. fold (zlen (s ++ [0])). rewrite zlen_app. change (zlen [0]) with 1.
    destruct (Z.leb_spec (zlen s + 1) (offset b + (1 + zlen E) - offset b - (0 + n_escapes s) + 1)); [done|lia].
Qed.

(** **** Numbers *)

Lemma digits_are_digits fuel n acc : 0 <= n → Forall (λ c, 48 <= c <= 57) acc →
  Forall (λ c, 48 <= c <= 57) (digits fuel n acc).
Proof.
  revert n acc. induction fuel as [|fuel IH]; intros n acc Hn Ha; cbn [digits]; [done|].
  assert (Forall (λ c, 48 <= c <= 57) ((48 + n mod 10) :: acc)) by (apply Forall_cons; split; [dlia|done]).
  destruct (n <? 10); [done|]. apply IH; [dlia|done].
Qed.

Lemma digits_nonempty fuel n acc : digits (Datatypes.S fuel) n acc ≠ [].
Proof.
  revert n acc. induction fuel as [|fuel IH]; intros n acc.
  - cbn. by destruct (n <? 10).
  - change (digits (Datatypes.S (Datatypes.S fuel)) n acc) with
      (if n <? 10 then (48 + n mod 10) :: acc else digits (Datatypes.S fuel) (n / 10) ((48 + n mod 10) :: acc)).
    destruct (n <? 10); [done|apply IH].
Qed.

(** A printed integer starts with a digit or with a minus before digits. *)
Lemma sprintf_ld_chars n : Forall (λ c, number_char c = true) (sprintf_ld n) ∧
  ∃ x t, sprintf_ld n = x :: t ∧ (x = 45 ∨ 48 <= x <= 57).
Proof.
  assert (Hd : ∀ m, 0 <= m → Forall (λ c, 48 <= c <= 57) (digits 20 m [])) by (intros; by apply digits_are_digits).
  assert (Hc : ∀ l, Forall (λ c, 48 <= c <= 57) l → Forall (λ c, number_char c = true) l).
  { intros l Hl. eapply Forall_impl; [exact Hl|]. intros c Hc. unfold number_char.
    cbv beta in Hc. by rewrite (proj2 (Z.leb_le 48 c)), (proj2 (Z.leb_le c 57)) by lia. }
  unfold sprintf_ld. destruct (Z.ltb_spec n 0).
  - split; [apply Forall_cons; split; [done|apply Hc, Hd; lia]|]. eexists _, _. split; [done|]. by left.
  - specialize (Hd n ltac:(lia)). split; [by apply Hc|].
    pose proof (digits_nonempty 19 n []) as Hne.
    destruct (digits 20 n []) as [|x t]; [done|]. apply Forall_cons in Hd as [Hx _]. exists x, t. split; [done|]. by right.
Qed.

Lemma number_prefix_here n t x rest : Forall (λ c, number_char c = true) t → number_char x = false →
  (length t < n)%nat → number_prefix n (t ++ x :: rest) = t.
Proof.
  intros Ht Hx. revert n. induction Ht as [|c t Hc Ht IH]; intros [|n] Hn; cbn [length] in Hn; try lia; cbn [number_prefix app].
  - by rewrite Hx.
  - rewrite Hc, IH by lia. done.
Qed.

Lemma saturate_int `{!DoubleLaws D} n : is_int n → saturate (d_of_Z n) = n.
Proof.
  intros Hn. unfold saturate. assert (is_int INT_MAX ∧ is_int INT_MIN) as [? ?].
  { unfold is_int, INT_MAX, INT_MIN. lia. }
  rewrite !d_leb_int, d_long_int by done. unfold is_int in Hn.
  destruct (Z.leb_spec INT_MAX n); [lia|]. destruct (Z.leb_spec n INT_MIN); lia.
Qed.

Lemma parse_number_here `{!DoubleLaws D} n x rest b ty0 vs vi vd st ch :
  at_ b (sprintf_ld n ++ x :: rest) → is_int n → number_char x = false →
  parse_number (Item ty0 vs vi vd st ch) b =
    Some (Some (Item cJSON_Number vs n (d_of_Z n) st ch), moved b (zlen (sprintf_ld n))).
Proof.
  intros [_ Ha] Hn Hx. unfold parse_number. rewrite (bind_run (get id) _ b b b) by done. rewrite Ha.
  destruct (sprintf_ld_chars n) as [Hchars (y & t & E & _)]. pose proof (sprintf_ld_length n).
  rewrite number_prefix_here by (done || lia). rewrite strtod_int by done. cbv beta iota.
  fold (zlen (sprintf_ld n)). destruct (Z.eqb_spec (zlen (sprintf_ld n)) 0) as [E0|_].
  { rewrite E, zlen_cons in E0. pose proof (zlen_nonneg t). lia. }
  rewrite (bind_run _ _ _ _ _ (advance_moved _ _)). by rewrite saturate_int.
Qed.

(** **** Arrays and objects *)

(** [reads m t r d]: at depth [d], in front of [t] and anything that does not
    continue a number, [m] takes [t] and returns [r]. *)
Definition reads {A} (m : M parse_buffer (option A)) (t : list Z) (r : A) (d : Z) : Prop :=
  ∀ b x rest, depth b = d → number_char x = false → at_ b (t ++ x :: rest) →
    m b = Some (Some r, moved b (zlen t)).

Lemma blank_not_number x : blank x → number_char x = false.
Proof.
  unfold blank, number_char. intros Hx.
  rewrite (proj2 (Z.leb_gt 48 x)), (proj2 (Z.eqb_neq x 43)), (proj2 (Z.eqb_neq x 45)), (proj2 (Z.eqb_neq x 101)),
    (proj2 (Z.eqb_neq x 69)), (proj2 (Z.eqb_neq x 46)) by lia. done.
Qed.

(** What follows an element: blanks and then a comma or the closing bracket. *)
Lemma after_element lw y rest : Forall blank lw → number_char y = false →
  ∃ x rest', lw ++ y :: rest = x :: rest' ∧ number_char x = false.
Proof.
  intros Hw Hy. destruct Hw as [|x lw Hx Hw]; [by eexists _, _|]. eexists _, _. split; [done|]. by apply blank_not_number.
Qed.

(** A text that starts as a value or a name does. *)
Definition begins (close : Z) (t : list Z) : Prop := ∃ x t', t = x :: t' ∧ 32 < x ∧ x ≠ close.

Lemma joined_begins w t l lw rest close : Forall blank w → begins close t →
  ∃ x rest', joined ((w, t) :: l) lw ++ rest = w ++ x :: rest' ∧ 32 < x ∧ x ≠ close.
Proof.
  intros Hw (x & t' & -> & Hx & Hc'). rewrite joined_blanks. exists x.
  destruct l as [|[w' t''] l]; cbn [joined]; eexists; (split; [|done]); by rewrite <- !app_assoc.
Qed.

Lemma element_step (element : M parse_buffer (option (cJSON D))) fuel head b w t item lw y rest :
  at_ (moved b 1) (w ++ t ++ lw ++ y :: rest) → Forall blank w → Forall blank lw → begins y t →
  number_char y = false → 32 < y → reads element t item (depth b) →
  elements element (Datatypes.S fuel) head b =
    (if y =? 44 then elements element fuel (head ++ [item]) (moved b (1 + zlen w + zlen t + zlen lw))
     else Some (Some (head ++ [item]), moved b (1 + zlen w + zlen t + zlen lw))).
Proof.
  intros Ha Hw Hlw (x & t' & Et & Hx & _) Hy Hy32 Hr. cbn [elements].
  rewrite (bind_run _ _ _ _ _ (advance_moved 1 b)).
  assert (Hskip : buffer_skip_whitespace (moved b 1) = Some (tt, moved (moved b 1) (zlen w))).
  { rewrite Et in Ha. by apply (skip_here _ w x (t' ++ lw ++ y :: rest)). }
  rewrite (bind_run _ _ _ _ _ Hskip). rewrite moved_moved. apply at_moved in Ha. rewrite moved_moved in Ha.
  destruct (after_element lw y rest Hlw Hy) as (z & rest' & E & Hz). pose proof Ha as Ha'. rewrite E in Ha'.
  rewrite (bind_run _ _ _ _ _ (Hr (moved b (1 + zlen w)) z rest' eq_refl Hz Ha')). cbv iota. rewrite moved_moved.
  apply at_moved in Ha. rewrite moved_moved in Ha. rewrite (bind_run _ _ _ _ _ (skip_here _ lw y rest Ha Hlw Hy32)).
  rewrite moved_moved. apply at_moved in Ha. rewrite moved_moved in Ha.
  rewrite (bind_run _ _ _ _ _ (looking_at_here _ y rest 44 Ha)). by destruct (y =? 44).
Qed.

Lemma elements_here (element : M parse_buffer (option (cJSON D))) close l items lw rest d :
  Forall2 (λ m c, Forall blank m.1 ∧ begins 44 m.2 ∧ begins close m.2 ∧ reads element m.2 c d) l items →
  Forall blank lw → number_char close = false → 32 < close → close ≠ 44 → l ≠ [] →
  ∀ fuel head b, depth b = d → (length l <= fuel)%nat → at_ (moved b 1) (joined l lw ++ close :: rest) →
    elements element fuel head b = Some (Some (head ++ items), moved b (1 + zlen (joined l lw))).
Proof.
  intros Hl Hlw Hclose Hc32 Hc44. induction Hl as [|[w t] item l items (Hw & Ht44 & Htc & Hr) Hl IH]; [done|].
  intros _ fuel head b Hd Hf Ha. destruct fuel as [|fuel]; cbn [length] in Hf; [lia|]. cbn [fst snd] in *. subst d.
  destruct Hl as [|[w' t'] item' l items Hm Hl].
  - cbn [joined] in *. rewrite <- !app_assoc in Ha.
    rewrite (element_step element fuel head b w t item lw close rest) by done.
    rewrite (proj2 (Z.eqb_neq close 44)) by done. rewrite !zlen_app. by rewrite !Z.add_assoc.
  - assert (E : joined ((w, t) :: (w', t') :: l) lw = w ++ t ++ 44 :: joined ((w', t') :: l) lw) by done.
    rewrite E in *. rewrite <- !app_assoc in Ha. cbn [app] in Ha.
    rewrite (element_step element fuel head b w t item [] 44 (joined ((w', t') :: l) lw ++ close :: rest)) by done.
    cbn [Z.eqb Pos.eqb]. change (zlen []) with 0. rewrite Z.add_0_r.
    rewrite IH; [|done|done|cbn [length] in *; lia|].
    + rewrite moved_moved, <- app_assoc. do 3 f_equal. rewrite !zlen_app, zlen_cons. lia.
    + rewrite moved_moved. do 2 (apply at_moved in Ha; rewrite moved_moved in Ha).
      apply at_moved_1 in Ha. by rewrite moved_moved in Ha.
Qed.

Lemma joined_length l lw close : Forall (λ m : list Z * list Z, begins close m.2) l → Z.of_nat (length l) <= zlen (joined l lw).
Proof.
  induction 1 as [|[w t] l (x & t' & E & _) Hl IH]; cbn [length joined]; [apply zlen_nonneg|].
  cbn [snd] in E. subst t. pose proof (zlen_nonneg w). pose proof (zlen_nonneg t'). pose proof (zlen_nonneg lw).
  destruct l as [|m l]; rewrite !zlen_app, !zlen_cons; [cbn [length] in *; lia|]. cbn [length] in *. lia.
Qed.

Definition deeper (b : parse_buffer) : parse_buffer := mkPB (content b) (offset b) (depth b + 1).

Lemma container_closed ty ty0 vs vi vd st ch head b n :
  container_done ty (Item ty0 vs vi vd st ch) head (moved (deeper b) n) =
    Some (Some (Item ty vs vi vd st head), moved b (n + 1)).
Proof. unfold moved, deeper. cbn. unfold ret. by rewrite Z.add_simpl_r, Z.add_assoc. Qed.

Lemma parse_container_here ty open close (element : M parse_buffer (option (cJSON D))) l items lw rest b ty0 vs vi vd st ch :
  Forall2 (λ m c, Forall blank m.1 ∧ begins 44 m.2 ∧ begins close m.2 ∧ reads element m.2 c (depth b + 1)) l items →
  Forall blank lw → number_char close = false → 32 < close → close ≠ 44 →
  depth b < CJSON_NESTING_LIMIT → at_ b ([open] ++ joined l lw ++ [close] ++ rest) →
  parse_container ty open close element (Item ty0 vs vi vd st ch) b =
    Some (Some (Item ty vs vi vd st items), moved b (zlen ([open] ++ joined l lw ++ [close]))).
Proof.
  intros Hl Hlw Hnum Hc32 Hc44 Hd Ha. unfold parse_container.
  rewrite (bind_run (get depth) _ b (depth b) b) by done.
  destruct (Z.leb_spec CJSON_NESTING_LIMIT (depth b)); [lia|].
  rewrite (bind_run (set_depth _) _ b tt (deeper b)) by done.
  assert (Hat : ∀ s n, at_ (moved b n) s → at_ (moved (deeper b) n) s) by done.
  rewrite (bind_run _ _ _ _ _ (looking_at_here (deeper b) _ _ open Ha)). rewrite Z.eqb_refl. cbn [negb].
  rewrite (bind_run _ _ _ _ _ (advance_moved 1 (deeper b))). pose proof (at_moved_1 _ _ _ Ha) as Ha1. cbn [app] in Ha1.
  rewrite !zlen_app. change (zlen [open]) with 1. change (zlen [close]) with 1. rewrite Z.add_assoc.
  destruct l as [|[w t] l].
  - apply Forall2_nil_inv_l in Hl as ->. cbn [joined] in *.
    rewrite (bind_run _ _ _ _ _ (skip_here _ lw close rest (Hat _ _ Ha1) Hlw Hc32)). rewrite moved_moved.
    apply at_moved in Ha1. rewrite moved_moved in Ha1.
    rewrite (bind_run _ _ _ _ _ (looking_at_here _ _ _ close (Hat _ _ Ha1))). rewrite Z.eqb_refl.
    by rewrite container_closed.
  - apply Forall2_cons_inv_l in Hl as (item & items' & (Hw & Ht44 & Htc & Hr) & Hl & ->). cbn [fst snd] in *.
    destruct (joined_begins w t l lw (close :: rest) close Hw Htc) as (x & rest' & E & Hx & Hxc).
    pose proof Ha1 as Ha2. rewrite E in Ha2.
    rewrite (bind_run _ _ _ _ _ (skip_here _ w x rest' (Hat _ _ Ha2) Hw Hx)). rewrite moved_moved.
    apply at_moved in Ha2. rewrite moved_moved in Ha2.
    rewrite (bind_run _ _ _ _ _ (looking_at_here _ _ _ close (Hat _ _ Ha2))).
    rewrite (proj2 (Z.eqb_neq x close)) by done.
    rewrite (bind_run (get _) _ _ true (moved (deeper b) (1 + zlen w)))
      by (unfold get; by rewrite (access_here _ _ _ (Hat _ _ Ha2))).
    cbn [negb]. rewrite (bind_run _ _ _ _ _ (advance_moved (-1) _)), moved_moved.
    replace (1 + zlen w + -1) with (zlen w) by lia.
    rewrite (bind_run (get length_) _ _ (length_ b) (moved (deeper b) (zlen w))) by done.
    rewrite joined_blanks, <- app_assoc in Ha1. apply at_moved in Ha1. rewrite moved_moved in Ha1.
    assert (Hel : elements element (Z.to_nat (length_ b)) [] (moved (deeper b) (zlen w)) =
      Some (Some ([] ++ item :: items'), moved (moved (deeper b) (zlen w)) (1 + zlen (joined (([], t) :: l) lw)))).
    { eapply (elements_here element close (([], t) :: l) (item :: items') lw rest (depth b + 1)); try done.
      - apply Forall2_cons. split; [|done]. by repeat split.
      - assert (Hb : Forall (λ m : list Z * list Z, begins close m.2) (([], t) :: l)).
        { apply Forall_cons. split; [done|]. clear -Hl. induction Hl as [|m c l items (_ & _ & Hm & _) Hl IH]; [apply Forall_nil_2|].
          apply Forall_cons. by split. }
        apply (joined_length _ lw) in Hb. pose proof (at_length _ _ Ha1 ltac:(by destruct (joined (([], t) :: l) lw))) as Hlen.
        change (length_ (moved b (1 + zlen w))) with (length_ b) in Hlen. cbn [moved offset] in Hlen.
        rewrite zlen_app, zlen_cons in Hlen. pose proof (zlen_nonneg rest). pose proof (zlen_nonneg w).
        destruct Ha as [Ho _]. lia.
      - rewrite moved_moved. apply Hat. by replace (zlen w + 1) with (1 + zlen w) by lia. }
    rewrite (bind_run _ _ _ _ _ Hel). cbv iota. cbn [app]. rewrite moved_moved.
    apply at_moved in Ha1. rewrite moved_moved in Ha1.
    replace (zlen w + (1 + zlen (joined (([], t) :: l) lw))) with (1 + zlen w + zlen (joined (([], t) :: l) lw)) by lia.
    rewrite (bind_run _ _ _ _ _ (looking_at_here _ _ _ close (Hat _ _ Ha1))), Z.eqb_refl, container_closed.
    rewrite (joined_blanks w), zlen_app. by rewrite Z.add_assoc.
Qed.

(** **** Values *)

Lemma literal_other b x s y lit : at_ b (x :: s) → x ≠ y → looking_at_literal (y :: lit) b = Some (false, b).
Proof.
  intros Ha Hxy. rewrite (literal_here b (x :: s)) by done. do 2 f_equal. apply bool_decide_eq_false. cbn. congruence.
Qed.

(** A value that is not one of the three words goes by its first character. *)
Lemma parse_value_other fuel ty0 vs vi vd st ch b x s : at_ b (x :: s) → x ≠ 110 → x ≠ 102 → x ≠ 116 →
  parse_value (Datatypes.S fuel) (Item ty0 vs vi vd st ch) b =
    (if x =? 34 then
       let! s := parse_string in
       match s with
       | None => ret None
       | Some s => ret (Some (Item cJSON_String (Some s) vi vd st ch))
       end
     else if (x =? 45) || ((48 <=? x) && (x <=? 57)) then parse_number (Item ty0 vs vi vd st ch)
     else if x =? 91 then parse_container cJSON_Array 91 93 (parse_value fuel cJSON_New_Item) (Item ty0 vs vi vd st ch)
     else if x =? 123 then parse_container cJSON_Object 123 125 (member (parse_value fuel)) (Item ty0 vs vi vd st ch)
     else ret None) b.
Proof.
  intros Ha Hn Hf Ht. cbn [parse_value].
  rewrite (bind_run _ _ _ _ _ (literal_other b x s 110 [117; 108; 108] Ha Hn)).
  rewrite (bind_run _ _ _ _ _ (literal_other b x s 102 [97; 108; 115; 101] Ha Hf)).
  rewrite (bind_run _ _ _ _ _ (literal_other b x s 116 [114; 117; 101] Ha Ht)).
  rewrite (bind_run (get _) _ b true b) by (unfold get; by rewrite (access_here b x s Ha)). cbn [negb].
  by rewrite (bind_run _ _ _ _ _ (char_here b x s Ha)).
Qed.

(** The node of a value that is not yet read. *)
Definition fresh_item (ty0 : Z) (name : option (list Z)) : cJSON D := Item ty0 None 0 (d_of_Z 0) name [].

Lemma member_here (value : cJSON D → M parse_buffer (option (cJSON D))) k colon t item d :
  is_cstr k → Forall blank colon → begins 125 t →
  reads (value (fresh_item cJSON_String (Some k))) t item d →
  reads (member value) (quoted k ++ 58 :: colon ++ t) item d.
Proof.
  intros Hk Hcolon (y & t' & Et & Hy & _) Hr b x rest Hd Hx Ha. unfold member.
  rewrite <- app_assoc in Ha. cbn [app] in Ha. rewrite <- app_assoc in Ha.
  rewrite (bind_run _ _ _ _ _ (parse_string_quoted b k _ Ha Hk)). cbv iota.
  apply at_moved in Ha. rewrite (bind_run _ _ _ _ _ (skip_none _ 58 _ Ha ltac:(done))).
  rewrite (bind_run _ _ _ _ _ (looking_at_here _ 58 _ 58 Ha)). cbn [Z.eqb Pos.eqb negb].
  rewrite (bind_run _ _ _ _ _ (advance_moved 1 _)). apply at_moved_1 in Ha. rewrite moved_moved in *.
  assert (Hskip : buffer_skip_whitespace (moved b (zlen (quoted k) + 1)) =
    Some (tt, moved (moved b (zlen (quoted k) + 1)) (zlen colon))).
  { rewrite Et in Ha. by apply (skip_here _ colon y (t' ++ x :: rest)). }
  rewrite (bind_run _ _ _ _ _ Hskip). apply at_moved in Ha. rewrite moved_moved in *.
  fold (fresh_item cJSON_String (Some k)). rewrite (Hr (moved b _) x rest Hd Hx Ha), moved_moved. rewrite zlen_app, zlen_cons, zlen_app. do 3 f_equal. lia.
Qed.

Lemma render_begins fmt d j close : In close [44; 93; 125; 239] → begins close (render fmt d j).
Proof.
  intros Hclose. assert (Hgo : ∃ x t, render fmt d j = x :: t ∧ 32 < x < 239 ∧ x ≠ 44 ∧ x ≠ 93 ∧ x ≠ 125).
  { destruct j as [|[]|n|s|l|l]; try by eexists _, _.
    destruct (sprintf_ld_chars n) as [_ (x & t & E & Hx)]. exists x, t. split; [done|lia]. }
  destruct Hgo as (x & t & -> & Hx & ? & ? & ?). exists x, t. simpl in Hclose. repeat split; lia.
Qed.

Lemma nesting_nonneg j : 0 <= nesting j.
Proof.
  destruct j as [| | | |l|l]; cbn [nesting]; try done;
    match goal with |- 0 <= 1 + ?n => assert (0 <= n) by (induction l; cbn [foldr]; lia); lia end.
Qed.

Lemma spaced_elements (Q : list Z → cJSON D → Prop) w ts items : Forall blank w → Forall2 Q ts items →
  Forall2 (λ m c, Forall blank m.1 ∧ Q m.2 c) (spaced w ts) items.
Proof.
  intros Hw HQ. destruct HQ as [|t c ts items Ht HQ]; [apply Forall2_nil_2|]. cbn [spaced].
  apply Forall2_cons. split; [split; [apply Forall_nil_2|done]|].
  induction HQ as [|t' c' ts items Ht' HQ IH]; cbn [fmap list_fmap]; [apply Forall2_nil_2|].
  apply Forall2_cons. by repeat split.
Qed.

Lemma blank_if (fmt : bool) w : Forall blank w → Forall blank (if fmt then w else []).
Proof. by destruct fmt. Qed.
Lemma blank_tabs n : Forall blank (10 :: tabs n).
Proof. apply Forall_cons. split; [done|]. by apply Forall_replicate. Qed.

Lemma parse_word fuel ty0 name b t x rest c ty vi : at_ b (t ++ x :: rest) →
  In (t, ty, vi) [(bytes "null", cJSON_NULL, 0); (bytes "false", cJSON_False, 0); (bytes "true", cJSON_True, 1)] →
  c = Item ty None vi (d_of_Z 0) name [] →
  parse_value (Datatypes.S fuel) (fresh_item ty0 name) b = Some (Some c, moved b (zlen t)).
Proof.
  intros Ha Hin ->. unfold fresh_item. cbn [parse_value].
  destruct Hin as [[= <- <- <-]|[[= <- <- <-]|[[= <- <- <-]|[]]]].
  - rewrite (bind_run _ _ _ _ _ (literal_here b _ (bytes "null") Ha ltac:(done))). done.
  - rewrite (bind_run _ _ _ _ _ (literal_here b _ (bytes "null") Ha ltac:(done))).
    rewrite (bool_decide_eq_false_2 _) by done. cbv iota.
    rewrite (bind_run _ _ _ _ _ (literal_here b _ (bytes "false") Ha ltac:(done))). done.
  - rewrite (bind_run _ _ _ _ _ (literal_here b _ (bytes "null") Ha ltac:(done))).
    rewrite (bool_decide_eq_false_2 _) by done. cbv iota.
    rewrite (bind_run _ _ _ _ _ (literal_here b _ (bytes "false") Ha ltac:(done))).
    rewrite (bool_decide_eq_false_2 _) by done. cbv iota.
    rewrite (bind_run _ _ _ _ _ (literal_here b _ (bytes "true") Ha ltac:(done))). done.
Qed.

Lemma parse_value_here `{!DoubleLaws D} fmt j : json_ok j → ∀ fuel ty0 name d pd,
  0 <= pd → pd + nesting j <= CJSON_NESTING_LIMIT → CJSON_NESTING_LIMIT < Z.of_nat fuel + pd →
  reads (parse_value fuel (fresh_item ty0 name)) (render fmt d j) (tree name j) pd.
Proof.
  induction j as [|v|n|s|l IH|l IH] using json_ind'; intros Hok [|fuel] ty0 name d pd Hpd Hn Hf;
    try (pose proof (nesting_nonneg (JArray l)); lia); try (pose proof (nesting_nonneg (JObject l)); lia);
    try (cbn [nesting] in Hn; lia); intros b x rest Hd Hx Ha.
  - apply (parse_word fuel ty0 name b _ x rest _ cJSON_NULL 0 Ha); simpl; auto.
  - destruct v; [apply (parse_word fuel ty0 name b _ x rest _ cJSON_True 1 Ha)|
      apply (parse_word fuel ty0 name b _ x rest _ cJSON_False 0 Ha)]; simpl; auto.
  - cbn [render tree json_ok] in *. destruct (sprintf_ld_chars n) as [_ (y & t & E & Hy)].
    pose proof Ha as Ha'. rewrite E in Ha'. unfold fresh_item.
    rewrite (parse_value_other fuel ty0 None 0 (d_of_Z 0) name [] b y _ Ha') by lia.
    rewrite (proj2 (Z.eqb_neq y 34)) by lia. replace ((y =? 45) || _) with true by (symmetry; lia).
    by apply (parse_number_here n x rest).
  - cbn [render tree json_ok] in *. unfold fresh_item.
    rewrite (parse_value_other fuel ty0 None 0 (d_of_Z 0) name [] b 34 _ Ha) by done. cbn [Z.eqb Pos.eqb].
    by rewrite (bind_run _ _ _ _ _ (parse_string_quoted b s _ Ha Hok)).
  - change (render fmt d (JArray l)) with
      ([91] ++ joined (spaced (if fmt then [32] else []) (render fmt (d + 1) <$> l)) [] ++ [93]) in *.
    rewrite <- !app_assoc in Ha. unfold fresh_item. subst pd. cbn [nesting] in Hn.
    rewrite (parse_value_other fuel ty0 None 0 (d_of_Z 0) name [] b 91 _ Ha) by done.
    apply (parse_container_here _ 91 93 _ _ (tree None <$> l) [] (x :: rest)); try done.
    2: { pose proof (nesting_nonneg (JArray l)). cbn [nesting] in *. destruct l; cbn [foldr] in *; [lia|].
         pose proof (nesting_nonneg j). lia. }
    apply (spaced_elements (λ t c, begins 44 t ∧ begins 93 t ∧ reads _ t c (depth b + 1))); [by apply blank_if, Forall_singleton|].
    apply Forall2_fmap_2. clear Ha. cbn [json_ok] in Hok.
    induction IH as [|j l Hj Hl IHl]; [apply Forall2_nil_2|]. cbn [foldr] in *. destruct Hok as [Hj1 Hl1].
    apply Forall2_cons. split; [|apply IHl; [done|lia]].
    do 2 (split; [apply render_begins; simpl; by auto|]).
    apply (Hj Hj1 fuel 0 None); lia.
  - set (w (n : Z) := if fmt then 10 :: tabs n else []).
    change (render fmt d (JObject l)) with ([123] ++ joined ((λ m, (w (d + 1), quoted m.1 ++ (if fmt then [58; 9] else [58]) ++
      render fmt (d + 1) m.2)) <$> l) (w d) ++ [125]) in *.
    assert (Hw : ∀ n, Forall blank (w n)) by (intros n; apply blank_if, blank_tabs).
    rewrite <- !app_assoc in Ha. unfold fresh_item. subst pd. cbn [nesting] in Hn.
    rewrite (parse_value_other fuel ty0 None 0 (d_of_Z 0) name [] b 123 _ Ha) by done.
    apply (parse_container_here _ 123 125 _ _ ((λ m, tree (Some m.1) m.2) <$> l) (w d) (x :: rest)); try done.
    2: { destruct l; cbn [foldr] in *; [lia|]. pose proof (nesting_nonneg p.2). lia. }
    apply Forall2_fmap_2. clear Ha. cbn [json_ok] in Hok.
    induction IH as [|[k j] l Hj Hl IHl]; [apply Forall2_nil_2|]. cbn [foldr fst snd] in *. destruct Hok as [[Hk Hj1] Hl1].
    apply Forall2_cons. split; [|apply IHl; [done|lia]]. cbn [fst snd].
    split; [done|]. do 2 (split; [by eexists _, _|]).
    pose proof (render_begins fmt (d + 1) j 125 ltac:(simpl; by auto)) as Hb.
    pose proof (Hj Hj1 fuel cJSON_String (Some k) (d + 1) (depth b + 1) ltac:(lia) ltac:(lia) ltac:(lia)) as Hr.
    assert (Hcolon : Forall blank (if fmt then [9] else [])) by (by apply blank_if, Forall_singleton).
    pose proof (member_here (parse_value fuel) k (if fmt then [9] else []) _ _ _ Hk Hcolon Hb Hr) as Hm.
    by destruct fmt.
Qed.

(** *** Printing and parsing back *)

Lemma parse_rendered `{!DoubleLaws D} fmt j : json_ok j → nesting j <= CJSON_NESTING_LIMIT →
  cJSON_Parse (render fmt 0 j) = Some (Some (tree None j)).
Proof.
  intros Hok Hn. unfold cJSON_Parse. set (b := mkPB (render fmt 0 j ++ [0]) 0 0).
  assert (Ha : at_ b (render fmt 0 j ++ [0])) by done.
  destruct (render_begins fmt 0 j 239 ltac:(simpl; by auto)) as (x & t & E & Hx & Hne).
  pose proof Ha as Ha'. rewrite E in Ha'. cbn [app] in Ha'.
  rewrite (bind_run skip_utf8_bom _ b tt b).
  2: { unfold skip_utf8_bom. rewrite (bind_run (get offset) _ b 0 b) by done. cbn [Z.eqb negb].
       rewrite (bind_run (get _) _ b (can_access_at_index b 4) b) by done.
       rewrite (bind_run _ _ _ _ _ (literal_other b x _ 0xEF [0xBB; 0xBF] Ha' Hne)). by rewrite andb_false_r. }
  rewrite (bind_run _ _ _ _ _ (skip_none b x _ Ha' Hx)). pose proof nesting_fuel_enough as Hf.
  generalize dependent nesting_fuel. intros fuel Hf.
  change cJSON_New_Item with (fresh_item 0 None). by rewrite (parse_value_here fmt j Hok fuel 0 None 0 0 ltac:(done) Hn ltac:(lia) b 0 [] eq_refl eq_refl Ha).
Qed.

(** A printed text is a C string. *)
Lemma escape_cstr x : 0 < x < 256 → is_cstr (escape x).
Proof.
  intros Hx. destruct (escape_escaped x Hx) as [_ _|e He|Hx'].
  - by apply Forall_singleton.
  - apply Forall_cons. split; [lia|]. apply Forall_singleton. simpl in He.
    repeat (destruct He as [[= <- <-]|He]; [lia|]). done.
  - assert (Hh : ∀ d, 0 <= d < 16 → 0 < hex_char d < 256) by (intros d Hd; unfold hex_char; destruct (d <? 10); lia).
    repeat (apply Forall_cons; split; [first [lia | apply Hh; dlia]|]). apply Forall_nil_2.
Qed.

Lemma quoted_cstr s : is_cstr s → is_cstr (quoted s).
Proof.
  intros Hs. unfold quoted. apply Forall_app. split; [by apply Forall_singleton|].
  apply Forall_app. split; [|by apply Forall_singleton].
  induction Hs as [|x s Hx Hs IH]; [apply Forall_nil_2|]. cbn. apply Forall_app. split; [by apply escape_cstr|done].
Qed.

Lemma sprintf_ld_cstr n : is_cstr (sprintf_ld n).
Proof.
  destruct (sprintf_ld_chars n) as [Hn _]. eapply Forall_impl; [exact Hn|]. intros c Hc. cbv beta in Hc.
  unfold number_char in Hc. lia.
Qed.

Lemma joined_cstr l lw : Forall (λ m : list Z * list Z, is_cstr m.1 ∧ is_cstr m.2) l → is_cstr lw → is_cstr (joined l lw).
Proof.
  intros Hl Hlw. induction Hl as [|[w t] l [Hw Ht] Hl IH]; [done|]. cbn [fst snd] in *.
  destruct l as [|m l]; cbn [joined]; (apply Forall_app; split; [done|]; apply Forall_app; split; [done|]); [done|].
  apply Forall_cons. split; [lia|done].
Qed.

Lemma render_cstr fmt j : json_ok j → ∀ d, is_cstr (render fmt d j).
Proof.
  assert (Hb : ∀ s, Forall (λ x, 0 < x < 256) (bytes s) ↔ forallb (λ x, (0 <? x) && (x <? 256)) (bytes s) = true).
  { intros s. rewrite forallb_forall, Forall_forall. setoid_rewrite list_elem_of_In. split; intros Hs x Hx; specialize (Hs x Hx); lia. }
  assert (Hw : ∀ n, is_cstr (if fmt then 10 :: tabs n else [])).
  { intros n. destruct fmt; [|apply Forall_nil_2]. apply Forall_cons. split; [lia|]. by apply Forall_replicate. }
  induction j as [|v|n|s|l IH|l IH] using json_ind'; intros Hok d; cbn [json_ok] in Hok.
  - by apply Hb.
  - destruct v; by apply Hb.
  - apply sprintf_ld_cstr.
  - by apply quoted_cstr.
  - cbn [render]. apply Forall_app. split; [by apply Forall_singleton|]. apply Forall_app. split; [|by apply Forall_singleton].
    apply joined_cstr; [|apply Forall_nil_2].
    assert (Hts : Forall is_cstr (render fmt (d + 1) <$> l)).
    { induction IH as [|j l Hj Hl IHl]; cbn; [apply Forall_nil_2|]. destruct Hok. apply Forall_cons. auto. }
    assert (Hs : is_cstr (if fmt then [32] else [])) by (destruct fmt; [by apply Forall_singleton|apply Forall_nil_2]).
    destruct Hts as [|t ts Ht Hts]; [apply Forall_nil_2|]. cbn [spaced]. apply Forall_cons. split; [split; [apply Forall_nil_2|done]|].
    apply Forall_fmap. eapply Forall_impl; [exact Hts|]. intros t' Ht'. by split.
  - cbn [render]. apply Forall_app. split; [by apply Forall_singleton|]. apply Forall_app. split; [|by apply Forall_singleton].
    apply joined_cstr; [|apply Hw]. apply Forall_fmap.
    induction IH as [|m l Hj Hl IHl]; [apply Forall_nil_2|]. destruct Hok as [[Hk Hm] Hok]. apply Forall_cons. split; [|by apply IHl].
    cbn -[quoted]. split; [apply Hw|]. apply Forall_app. split; [by apply quoted_cstr|]. apply Forall_app. split; [|by apply Hj].
    destruct fmt; repeat (apply Forall_cons; split; [lia|]); apply Forall_nil_2.
Qed.

(** C16: whatever value is built from numbers that fit an [int], C strings and
    nested arrays and objects within the nesting limit, [cJSON_Print] and
    [cJSON_PrintUnformatted] print it without leaving the number buffer, and
    [cJSON_Parse] reads the text back to the same tree: types, names,
    [valueint], [valuedouble] and strings, escapes included. *)
Theorem cJSON_print_parse `{!DoubleLaws D} fmt j : json_ok j → nesting j <= CJSON_NESTING_LIMIT →
  ∃ text, print (tree None j) fmt = Some (Some text) ∧ cJSON_Parse text = Some (Some (tree None j)).
Proof.
  intros Hok Hn. exists (render fmt 0 j). split; [|by apply parse_rendered].
  unfold print. by rewrite (print_value_run j None 0 fmt Hok []).
Qed.

(** *** Building trees *)

Lemma add_item_tree name l k j :
  cJSON_AddItemToObject (tree name (JObject l)) k (tree None j) = tree name (JObject (l ++ [(k, j)])).
Proof.
  unfold cJSON_AddItemToObject. destruct j as [|[]| | | |]; cbn; by rewrite fmap_app.
Qed.
Lemma add_string_tree name l k s :
  cJSON_AddStringToObject (tree name (JObject l)) k s = tree name (JObject (l ++ [(k, JString s)])).
Proof. apply (add_item_tree name l k (JString s)). Qed.
Lemma add_number_tree `{!DoubleLaws D} name l k n : is_int n →
  cJSON_AddNumberToObject (tree name (JObject l)) k (d_of_Z n) = tree name (JObject (l ++ [(k, JNumber n)])).
Proof.
  intros Hn. rewrite <- add_item_tree. unfold cJSON_AddNumberToObject, cJSON_CreateNumber.
  by rewrite saturate_int.
Qed.
Lemma create_object_tree : cJSON_CreateObject = tree None (JObject []).
Proof. done. Qed.

Lemma print_tree `{!DoubleLaws D} fmt j : json_ok j → print (tree None j) fmt = Some (Some (render fmt 0 j)).
Proof. intros Hok. unfold print. by rewrite (print_value_run j None 0 fmt Hok []). Qed.

(** The length of a printed object without blanks. *)
Definition text_length (fmt : bool) (j : json) : Z := zlen (render fmt 0 j).

Lemma digits_bound k fuel n acc : 0 <= n < 10 ^ Z.of_nat k → (0 < k)%nat →
  (length (digits fuel n acc) <= k + length acc)%nat.
Proof.
  revert fuel n acc. induction k as [|k IH]; intros fuel n acc Hn Hk; [lia|]. destruct fuel as [|fuel]; cbn [digits]; [lia|].
  destruct (Z.ltb_spec n 10); [cbn; lia|]. rewrite Nat2Z.inj_succ, Z.pow_succ_r in Hn by lia.
  destruct k as [|k]; [change (10 ^ Z.of_nat 0) with 1 in Hn; lia|].
  specialize (IH fuel (n / 10) ((48 + n mod 10) :: acc) ltac:(dlia) ltac:(lia)). cbn [length] in *. lia.
Qed.
Lemma sprintf_ld_bound k n : 0 <= n < 10 ^ Z.of_nat k → (0 < k)%nat → zlen (sprintf_ld n) <= Z.of_nat k.
Proof.
  intros Hn Hk. unfold sprintf_ld, zlen. destruct (Z.ltb_spec n 0); [lia|].
  pose proof (digits_bound k 20 n [] Hn Hk) as Hd. change (length (@nil Z)) with 0%nat in Hd. lia.
Qed.

Fixpoint total {A} (f : A → Z) (l : list A) : Z := match l with [] => 0 | x :: l => f x + total f l end.

Lemma joined_total (l : list (list Z * list Z)) : l ≠ [] →
  1 + zlen (joined l []) = total (λ m, zlen m.1 + zlen m.2 + 1) l.
Proof.
  induction l as [|[w t] l IH]; [done|]. intros _. cbn [total fst snd]. destruct l as [|m l].
  - cbn [joined total]. rewrite app_nil_r, zlen_app. lia.
  - rewrite <- (IH ltac:(done)). cbn [joined]. rewrite !zlen_app, zlen_cons. lia.
Qed.

Lemma object_length d l : l ≠ [] → zlen (render false d (JObject l)) =
  1 + total (λ m, zlen (quoted m.1) + 1 + zlen (render false (d + 1) m.2) + 1) l.
Proof.
  intros Hl. cbn [render]. rewrite !zlen_app. change (zlen [123]) with 1. change (zlen [125]) with 1.
  set (ms := (λ m, _) <$> l). assert (Hms : ms ≠ []) by (unfold ms; by destruct l).
  pose proof (joined_total ms Hms) as Hj.
  assert (E : total (λ m, zlen m.1 + zlen m.2 + 1) ms =
    total (λ m, zlen (quoted m.1) + 1 + zlen (render false (d + 1) m.2) + 1) l); [|lia].
  unfold ms. clear. induction l as [|m l IH]; [done|]. cbn [fmap list_fmap total fst snd]. rewrite IH, !zlen_app.
  change (zlen (@nil Z)) with 0. change (zlen [58]) with 1. lia.
Qed.

(** C17: on any text without a NUL, however malformed, [cJSON_Parse] returns:
    it never reads past the terminating NUL, never writes past a string it
    allocated, and its loops and its recursion end. *)
Theorem cJSON_Parse_safe `{!DoubleLaws D} text :
  Forall (λ x, 0 < x < 256) text → ∃ r : option (cJSON D), cJSON_Parse text = Some r.
Proof. intros Ht. refine (cJSON_Parse_total (text ++ [0]) _ text eq_refl). by exists text. Qed.

End Cjson.

(** ** Exact numbers

    An instance of the interface: rational numbers, and the decimal numbers
    [strtod] reads, without exponents. *)
Module Rational.
Import QArith_base.
#[local] Open Scope Z_scope.

Fixpoint take_digits (l : list Z) : list Z :=
  match l with
  | c :: l => if (48 <=? c) && (c <=? 57) then c :: take_digits l else []
  | [] => []
  end.
Definition decimal (ds : list Z) : Z := foldl (λ a c, 10 * a + (c - 48)) 0 ds.
Definition skip_sign (l : list Z) : Z * list Z :=
  match l with 45 :: l => (-1, l) | 43 :: l => (1, l) | _ => (1, l) end.
Definition q_strtod (l : list Z) : Q * Z :=
  let '(sign, l') := skip_sign l in
  let whole := take_digits l' in
  let fraction := match drop (length whole) l' with 46 :: f => take_digits f | _ => [] end in
  let used := zlen l - zlen l' + zlen whole + (match fraction with [] => 0 | _ => 1 + zlen fraction end) in
  match whole with
  | [] => (Qmake 0 1, 0)
  | _ => (Qmake (sign * decimal (whole ++ fraction)) (Z.to_pos (10 ^ zlen fraction)), used)
  end.

#[export] Instance q_double : Double Q := {
  d_of_Z n := Qmake n 1;
  d_finite _ := true;
  d_long q := Z.quot (Qnum q) (Zpos (Qden q));
  d_eqb := Qeq_bool;
  d_ltb a b := negb (Qle_bool b a);
  d_leb := Qle_bool;
  d_add := Qplus;
  d_sub := Qminus;
  d_mul := Qmult;
  d_epsilon := Qmake 1 100000000000000;
  strtod := q_strtod }.

Lemma take_digits_length l : (length (take_digits l) <= length l)%nat.
Proof. induction l as [|c l IH]; cbn; [lia|]. destruct ((48 <=? c) && (c <=? 57)); cbn; lia. Qed.

Lemma take_digits_all l : Forall (λ c, 48 <= c <= 57) l → take_digits l = l.
Proof.
  induction 1 as [|c l Hc Hl IH]; [done|]. cbn. rewrite IH.
  by rewrite (proj2 (Z.leb_le 48 c)), (proj2 (Z.leb_le c 57)) by lia.
Qed.

Lemma decimal_digits fuel n acc : 0 <= n < 10 ^ Z.of_nat fuel →
  decimal (digits fuel n acc) = foldl (λ a c, 10 * a + (c - 48)) n acc.
Proof.
  unfold decimal. revert n acc. induction fuel as [|fuel IH]; intros n acc Hn; cbn [digits].
  - by replace n with 0 by (change (10 ^ Z.of_nat 0) with 1 in Hn; lia).
  - rewrite Nat2Z.inj_succ, Z.pow_succ_r in Hn by lia. destruct (Z.ltb_spec n 10).
    + cbn [foldl]. f_equal. rewrite Z.mod_small by lia. lia.
    + rewrite IH by dlia. cbn [foldl]. f_equal. dlia.
Qed.

Lemma skip_sign_length l : (length (snd (skip_sign l)) <= length l)%nat.
Proof.
  destruct l as [|c l]; [done|]. unfold skip_sign.
  repeat match goal with |- context[match ?x with _ => _ end] => destruct x end; cbn; lia.
Qed.

Lemma q_strtod_int n : is_int n → q_strtod (sprintf_ld n) = (Qmake n 1, zlen (sprintf_ld n)).
Proof.
  intros Hn. assert (Hb : ∀ m, 0 <= m <= 2 ^ 31 → take_digits (digits 20 m []) = digits 20 m [] ∧
    decimal (digits 20 m []) = m ∧ ∃ c t, digits 20 m [] = c :: t ∧ 48 <= c <= 57).
  { intros m Hm. pose proof (digits_are_digits 20 m [] ltac:(lia) (Forall_nil_2 _)) as Hd.
    split; [by apply take_digits_all|]. split; [by rewrite decimal_digits by lia|].
    pose proof (digits_nonempty 19 m []) as Hne. destruct (digits 20 m []) as [|c t]; [done|].
    apply Forall_cons in Hd as [Hc _]. by exists c, t. }
  unfold sprintf_ld, is_int, INT_MIN, INT_MAX in *.
  assert (Hgo : ∀ sign m l, 0 <= m <= 2 ^ 31 → skip_sign l = (sign, digits 20 m []) →
    q_strtod l = (Qmake (sign * m) 1, zlen l)).
  { intros sign m l Hm E. destruct (Hb m Hm) as (Ht & Hv & c & t & Ed & _). unfold q_strtod. rewrite E, Ht.
    rewrite drop_all, app_nil_r, Hv. rewrite Ed. f_equal. lia. }
  destruct (Z.ltb_spec n 0) as [Hneg|Hpos].
  - rewrite (Hgo (-1) (- n)) by (done || lia). do 2 f_equal. lia.
  - destruct (Hb n ltac:(lia)) as (_ & _ & c & t & Ed & Hc). rewrite (Hgo 1 n); [do 2 f_equal; lia|lia|].
    rewrite Ed. unfold skip_sign. repeat match goal with |- context[match ?x with _ => _ end] => destruct x end; by try lia.
Qed.

#[export] Instance q_double_laws : DoubleLaws Q.
Proof.
  split; cbn.
  - done.
  - intros n _. by rewrite Z.quot_1_r.
  - intros n _. apply Qeq_bool_iff. reflexivity.
  - intros m n _ _. unfold Qle_bool. cbn. by rewrite !Z.mul_1_r.
  - intros m n _ _. unfold Qle_bool. cbn. rewrite !Z.mul_1_r. destruct (Z.ltb_spec m n); destruct (Z.leb_spec n m); done || lia.
  - intros l. pose proof (skip_sign_length l) as Hl. unfold q_strtod. destruct (skip_sign l) as [sign l']. cbn [snd] in Hl.
    pose proof (take_digits_length l') as Hw. set (w := take_digits l') in *.
    assert (Hf : ∀ f, drop (length w) l' = 46 :: f → (length w + 1 + length f = length l')%nat).
    { intros f Ef. apply (f_equal length) in Ef. rewrite length_drop in Ef. cbn in Ef. lia. }
    set (fr := match drop (length w) l' with 46 :: f => take_digits f | _ => [] end).
    assert (Hfr : fr = [] ∨ (length w + 1 + length fr <= length l')%nat).
    { unfold fr. destruct (drop (length w) l') as [|x f] eqn:Ef; [by left|].
      repeat match goal with |- context[match ?x with _ => _ end] => destruct x end; try by left.
      right. specialize (Hf f eq_refl). pose proof (take_digits_length f). lia. }
    destruct w as [|c0 w0] eqn:Ew; [cbn; lia|]. rewrite <- Ew in *. cbn [snd]. unfold zlen.
    destruct Hfr as [->|Hfr]; [lia|]. destruct fr; cbn [length] in *; lia.
  - apply q_strtod_int.
Qed.

(** Witnesses *)

Definition sample : json :=
  JObject [(bytes "index", JArray [JNumber 1; JNumber (-20); JNumber 2147483647]);
           ([9; 34; 1], JObject []); (bytes "on", JBool true); (bytes "name", JString [92; 10; 31; 200])].
Lemma sample_ok : json_ok sample ∧ nesting sample <= CJSON_NESTING_LIMIT.
Proof. split; [|by vm_compute]. cbn -[Z.lt Z.le Z.pow]. unfold is_int, INT_MIN, INT_MAX, is_cstr. cbn. repeat split; repeat constructor; lia. Qed.

Lemma cJSON_print_parse_witness : ∃ text, print (tree (D := Q) None sample) true = Some (Some text) ∧
  cJSON_Parse text = Some (Some (tree (D := Q) None sample)).
Proof. destruct sample_ok as [Hok Hn]. exact (cJSON_print_parse true sample Hok Hn). Defined.

(** A text that ends inside an escape in an object in an array. *)
Lemma cJSON_Parse_safe_witness : ∃ r : option (cJSON Q), cJSON_Parse (bytes "[-3.5,{" ++ [34; 97; 92; 117; 100]) = Some r.
Proof. apply cJSON_Parse_safe. apply (bool_decide_unpack _). by vm_compute. Defined.

(** -0.5 is printed without its sign. *)
Example negative_half_printed : number_text (Qmake (-1) 2) = Some (bytes "0.50000000000001").
Proof. by vm_compute. Qed.
(** So is every number between -1 and 0; below -1 the sign is that of the
    integer part. *)
Example negative_printed : number_text (Qmake (-5) 4) = Some (bytes "-1.25000000000001").
Proof. by vm_compute. Qed.
End Rational.
End Cjson.
