(* ===== verification/Misc.v ===== *)
(** The message accessors of [app/components/common/csro_misc.c].

    Module [Cstring] has what the application uses of [string.h], on arrays of
    bytes with their bounds. Module [Misc] reads numbers, strings and objects
    out of a JSON message and takes the last level of a topic. A message is the
    memory from the payload pointer to the end of the receive buffer; a C
    string in it ends at the first NUL, and reading past the end is a fault. *)
From S2P Require Import Prelude Cjson.

Module Cstring.
Import Cjson.

(** The string at a pointer: [None] where no NUL follows in the memory. *)
Fixpoint c_string (memory : list Z) : option (list Z) :=
  match memory with
  | [] => None
  | c :: memory => if c =? 0 then Some [] else s ← c_string memory; Some (c :: s)
  end.

(** [strcmp(memory, s) == 0] for a string without a NUL inside: it reads up to
    the first difference. *)
Fixpoint strcmp_eq (memory s : list Z) : option bool :=
  match memory with
  | [] => None
  | c :: memory =>
      match s with
      | [] => Some (c =? 0)
      | x :: s => if c =? x then strcmp_eq memory s else Some false
      end
  end.

(** [strcpy(dest, src)] on the array [dest]. *)
Definition strcpy (dest src : list Z) : option (list Z) :=
  if Z.of_nat (length src) <? Z.of_nat (length dest)
  then Some (src ++ 0 :: drop (Datatypes.S (length src)) dest) else None.

(** The bytes [strncpy(_, src, n)] writes. *)
Fixpoint strncpy_bytes (n : nat) (src : list Z) : option (list Z) :=
  match n with
  | O => Some []
  | Datatypes.S n' =>
      match src with
      | [] => None
      | c :: src => if c =? 0 then Some (replicate n 0) else l ← strncpy_bytes n' src; Some (c :: l)
      end
  end.
Definition strncpy (dest src : list Z) (n : Z) : option (list Z) :=
  l ← strncpy_bytes (Z.to_nat n) src;
  if n <=? Z.of_nat (length dest) then Some (l ++ drop (length l) dest) else None.

Definition bzero (dest : list Z) (n : Z) : option (list Z) :=
  if n <=? Z.of_nat (length dest) then Some (replicate (Z.to_nat n) 0 ++ drop (Z.to_nat n) dest) else None.

(** [strtok] with one delimiter: the next token and what is left. *)
Fixpoint skip_delimiters (delim : Z) (s : list Z) : list Z :=
  match s with c :: s' => if c =? delim then skip_delimiters delim s' else s | [] => [] end.
Fixpoint split_token (delim : Z) (s : list Z) : list Z * list Z :=
  match s with
  | [] => ([], [])
  | c :: s => if c =? delim then ([], s) else let '(t, rest) := split_token delim s in (c :: t, rest)
  end.
Definition strtok (delim : Z) (s : list Z) : option (list Z * list Z) :=
  match skip_delimiters delim s with [] => None | s => Some (split_token delim s) end.

Lemma c_string_app s memory : is_cstr s → c_string (s ++ 0 :: memory) = Some s.
Proof. induction 1 as [|c s Hc Hs IH]; [done|]. cbn. destruct (Z.eqb_spec c 0); [lia|]. by rewrite IH. Qed.

(** On a terminated string it is equality. *)
Lemma strcmp_eq_string memory t s : c_string memory = Some t → is_cstr s → strcmp_eq memory s = Some (bool_decide (t = s)).
Proof.
  intros Hm Hs. revert memory t Hm. induction Hs as [|x s Hx Hs IH]; intros memory t Hm; (destruct memory as [|c memory]; [done|]);
    cbn in Hm |- *; (destruct (Z.eqb_spec c 0) as [->|Hc];
      [injection Hm as <-|destruct (c_string memory) as [t'|] eqn:Et; [|done]; injection Hm as <-]).
  - done.
  - done.
  - by destruct (Z.eqb_spec 0 x); [lia|].
  - destruct (Z.eqb_spec c x) as [->|Hne].
    + rewrite (IH _ _ Et). f_equal. apply bool_decide_ext. split; [by intros ->|by intros [= ->]].
    + rewrite bool_decide_eq_false_2; [done|congruence].
Qed.

Lemma split_token_length delim s t rest : split_token delim s = (t, rest) → (length rest <= length s)%nat.
Proof.
  revert t rest. induction s as [|c s IH]; intros t rest; cbn; [intros [= <- <-]; cbn; lia|].
  destruct (c =? delim); [intros [= <- <-]; lia|]. destruct (split_token delim s) as [t' rest'].
  intros [= <- <-]. specialize (IH t' rest' eq_refl). lia.
Qed.
Lemma skip_delimiters_length delim s : (length (skip_delimiters delim s) <= length s)%nat.
Proof. induction s as [|c s IH]; cbn; [lia|]. destruct (c =? delim); cbn; lia. Qed.
End Cstring.

Module Misc.
Import Cjson Cstring.

(** A message of the MQTT client: the topic, and the memory from the payload
    pointer on. *)
Record message := mkMessage { topic : list Z; topic_len : Z; payload : list Z; payloadlen : Z }.

Section Misc.
Context {D : Type} `{Double D}.

(** [cJSON_Parse(msg)]. *)
Definition parse_msg (msg : list Z) : option (option (cJSON D)) := s ← c_string msg; cJSON_Parse s.

Definition csro_system_parse_level1_json_object (msg object_name : list Z) : option bool :=
  json ← parse_msg msg;
  match json with
  | None => Some false
  | Some json =>
      match cJSON_GetObjectItem json object_name with
      | None => Some false
      | Some object => Some (type_ object =? cJSON_Object)
      end
  end.

(** The answer and [dest[0]] afterwards. *)
Definition number_of (object : option (cJSON D)) (dest : Z) : bool * Z :=
  match object with
  | None => (false, dest)
  | Some object => if type_ object =? cJSON_Number then (true, u32 (valueint object)) else (false, dest)
  end.
Definition csro_system_parse_level1_json_number (msg : list Z) (dest : Z) (object_name : list Z) : option (bool * Z) :=
  json ← parse_msg msg;
  match json with
  | None => Some (false, dest)
  | Some json => Some (number_of (cJSON_GetObjectItem json object_name) dest)
  end.
Definition csro_system_parse_level2_json_number (msg : list Z) (dest : Z) (object_name sub_object_name : list Z) : option (bool * Z) :=
  json ← parse_msg msg;
  match json with
  | None => Some (false, dest)
  | Some json =>
      match cJSON_GetObjectItem json object_name with
      | None => Some (false, dest)
      | Some object => Some (number_of (cJSON_GetObjectItem object sub_object_name) dest)
      end
  end.

(** The answer and the array [dest] afterwards. *)
Definition string_of (object : option (cJSON D)) (dest : list Z) : option (bool * list Z) :=
  match object with
  | None => Some (false, dest)
  | Some object =>
      if type_ object =? cJSON_String then
        s ← valuestring object; dest ← strcpy dest s; Some (true, dest)
      else Some (false, dest)
  end.
Definition csro_system_parse_level1_json_string (msg dest object_name : list Z) : option (bool * list Z) :=
  json ← parse_msg msg;
  match json with
  | None => Some (false, dest)
  | Some json => string_of (cJSON_GetObjectItem json object_name) dest
  end.
Definition csro_system_parse_level2_json_string (msg dest object_name sub_object_name : list Z) : option (bool * list Z) :=
  json ← parse_msg msg;
  match json with
  | None => Some (false, dest)
  | Some json =>
      match cJSON_GetObjectItem json object_name with
      | None => Some (false, dest)
      | Some object => string_of (cJSON_GetObjectItem object sub_object_name) dest
      end
  end.

(** [csro_systen_get_hass_message_sub_topic]: the loop over the levels. *)
Fixpoint last_level (fuel : nat) (rest sub_topic : list Z) : option (list Z) :=
  match fuel with
  | O => None
  | Datatypes.S fuel =>
      match strtok 47 rest with
      | None => Some sub_topic
      | Some (segment, rest) =>
          sub_topic ← bzero sub_topic 50; sub_topic ← strcpy sub_topic segment; last_level fuel rest sub_topic
      end
  end.
Definition csro_systen_get_hass_message_sub_topic (data : message) (sub_topic : list Z) : option (list Z) :=
  topic_ ← bzero (replicate 200 0) 200;
  topic_ ← strncpy topic_ (topic data) (topic_len data);
  s ← c_string topic_;
  sub_topic ← last_level (Datatypes.S (length s)) s sub_topic;
  _ ← c_string sub_topic; (* it is printed *)
  Some sub_topic.

(** ** Messages that carry a JSON value

    What the accessors answer on the text of a value. *)
Definition carries (msg : list Z) (j : json) : Prop :=
  json_ok j ∧ nesting j <= CJSON_NESTING_LIMIT ∧ ∃ fmt rest, msg = render fmt 0 j ++ 0 :: rest.

(** The members of an object, and the first one with a name, without case. *)
Definition members (j : json) : list (list Z * json) := match j with JObject l => l | _ => [] end.
Fixpoint find_member (name : list Z) (l : list (list Z * json)) : option json :=
  match l with
  | [] => None
  | (k, j) :: l => if case_insensitive_strcmp name k =? 0 then Some j else find_member name l
  end.
Definition member_of (name : list Z) (j : json) : option json := find_member name (members j).
Definition number_in (j : option json) (dest : Z) : bool * Z :=
  match j with Some (JNumber n) => (true, u32 n) | _ => (false, dest) end.
Definition is_object (j : option json) : bool := match j with Some (JObject _) => true | _ => false end.

(** Finding a member of the tree is finding a member of the value. *)
Definition same_member (t : option (cJSON D)) (j : option json) : Prop :=
  match j with Some j => ∃ k, t = Some (tree k j) | None => t = None end.

Lemma get_member name nm j : same_member (cJSON_GetObjectItem (tree nm j) name) (member_of name j).
Proof.
  unfold cJSON_GetObjectItem, member_of. destruct j as [| | | |l|l]; try done; cbn [tree child members].
  - induction l as [|j l IH]; [done|]. cbn [fmap list_fmap get_object_item].
    assert (string_ (tree None j) = None) as -> by by destruct j. done.
  - induction l as [|[k j] l IH]; [done|]. cbn [fmap list_fmap get_object_item find_member fst snd].
    assert (string_ (tree (Some k) j) = Some k) as -> by by destruct j.
    destruct (case_insensitive_strcmp name k =? 0); [by eexists|done].
Qed.

Lemma number_of_member t j dest : same_member t j → number_of t dest = number_in j dest.
Proof. destruct j as [[| | | | |]|]; [intros [k ->]; try done.. |intros ->; done]. by destruct v. Qed.

Context `{!DoubleLaws D}.

Lemma parse_carried msg j : carries msg j → parse_msg msg = Some (Some (tree None j)).
Proof.
  intros (Hok & Hn & fmt & rest & ->). unfold parse_msg. rewrite c_string_app by by apply render_cstr. cbn.
  by apply parse_rendered.
Qed.

Lemma level1_object msg j name : carries msg j →
  csro_system_parse_level1_json_object msg name = Some (is_object (member_of name j)).
Proof.
  intros Hc. unfold csro_system_parse_level1_json_object. rewrite (parse_carried _ _ Hc). cbn.
  pose proof (get_member name None j) as Hm. unfold same_member in Hm.
  destruct (member_of name j) as [j'|]; [destruct Hm as [k ->]|by rewrite Hm]. destruct j' as [|[]| | | |]; done.
Qed.

Lemma level1_number msg j dest name : carries msg j →
  csro_system_parse_level1_json_number msg dest name = Some (number_in (member_of name j) dest).
Proof.
  intros Hc. unfold csro_system_parse_level1_json_number. rewrite (parse_carried _ _ Hc). cbn.
  by rewrite (number_of_member _ (member_of name j)) by apply get_member.
Qed.

Lemma level2_number msg j dest name sub : carries msg j →
  csro_system_parse_level2_json_number msg dest name sub =
    Some (number_in (o ← member_of name j; member_of sub o) dest).
Proof.
  intros Hc. unfold csro_system_parse_level2_json_number. rewrite (parse_carried _ _ Hc). cbn.
  pose proof (get_member name None j) as Hm. unfold same_member in Hm.
  destruct (member_of name j) as [j'|]; [destruct Hm as [k ->]|by rewrite Hm]. cbn.
  by rewrite (number_of_member _ (member_of sub j')) by apply get_member.
Qed.

(** A string is copied where it fits, with its NUL. *)
Definition string_in (j : option json) (dest : list Z) : option (bool * list Z) :=
  match j with Some (JString s) => dest ← strcpy dest s; Some (true, dest) | _ => Some (false, dest) end.

Lemma level1_string msg j dest name : carries msg j →
  csro_system_parse_level1_json_string msg dest name = string_in (member_of name j) dest.
Proof.
  intros Hc. unfold csro_system_parse_level1_json_string. rewrite (parse_carried _ _ Hc). cbn.
  pose proof (get_member name None j) as Hm. unfold same_member in Hm.
  destruct (member_of name j) as [j'|]; [destruct Hm as [k ->]|by rewrite Hm]. destruct j' as [|[]| | | |]; done.
Qed.

(** ** Topics *)

(** The levels of a topic that are not empty. *)
Fixpoint levels (s : list Z) (level : list Z) : list (list Z) :=
  match s with
  | [] => match level with [] => [] | _ => [level] end
  | c :: s => if c =? 47 then match level with [] => levels s [] | _ => level :: levels s [] end
              else levels s (level ++ [c])
  end.

Lemma levels_split s acc : levels s acc =
  let '(t, rest) := split_token 47 s in
  match acc ++ t with [] => levels rest [] | l => l :: levels rest [] end.
Proof.
  revert acc. induction s as [|c s IH]; intros acc; cbn [split_token levels].
  - rewrite app_nil_r. by destruct acc.
  - destruct (c =? 47); [rewrite app_nil_r; by destruct acc|]. rewrite IH.
    destruct (split_token 47 s) as [t rest]. rewrite <- app_assoc. done.
Qed.

Lemma levels_skip s : levels (skip_delimiters 47 s) [] = levels s [].
Proof. induction s as [|c s IH]; [done|]. cbn. destruct (c =? 47) eqn:E; [done|]. cbn. by rewrite E. Qed.

Lemma skip_delimiters_head delim s c s' : skip_delimiters delim s = c :: s' → (c =? delim) = false.
Proof. induction s as [|x s IH]; cbn; [done|]. destruct (x =? delim) eqn:E; [done|]. by intros [= <- <-]. Qed.

(** [strtok] takes the levels one by one. *)
Lemma strtok_levels s :
  match levels s [] with
  | [] => strtok 47 s = None
  | l :: ls => ∃ rest, strtok 47 s = Some (l, rest) ∧ levels rest [] = ls ∧ (length rest < length s)%nat
  end.
Proof.
  rewrite <- levels_skip. unfold strtok. pose proof (skip_delimiters_length 47 s) as Hl.
  destruct (skip_delimiters 47 s) as [|c s'] eqn:E; [done|]. apply skip_delimiters_head in E.
  rewrite levels_split. cbn [split_token]. rewrite E.
  destruct (split_token 47 s') as [t rest] eqn:Et. apply split_token_length in Et. cbn in *.
  exists rest. repeat split; lia.
Qed.

(** A level in an array of 50 bytes. *)
Definition padded (l : list Z) : list Z := l ++ replicate (50 - length l) 0.
Definition level_fits (l : list Z) : bool := Z.of_nat (length l) <? 50.

Lemma copy_level sub_topic l : length sub_topic = 50%nat →
  (sub_topic ← bzero sub_topic 50; strcpy sub_topic l) = if level_fits l then Some (padded l) else None.
Proof.
  intros Hs. unfold bzero, strcpy, level_fits, padded. rewrite Hs. cbn [mbind option_bind Z.leb Z.compare Z.of_nat].
  rewrite (drop_ge sub_topic), app_nil_r by (rewrite Hs; done). change (Z.to_nat 50) with 50%nat.
  change (50 <=? Z.of_nat 50) with true. cbn [mbind option_bind].
  rewrite length_replicate. change (Z.of_nat 50) with 50. destruct (Z.ltb_spec (Z.of_nat (length l)) 50); [|done].
  rewrite drop_replicate. do 2 f_equal. by replace (50 - length l)%nat with (Datatypes.S (50 - Datatypes.S (length l))) by lia.
Qed.

Lemma padded_length l : level_fits l = true → length (padded l) = 50%nat.
Proof. unfold level_fits, padded. intros Hl%Z.ltb_lt. rewrite length_app, length_replicate. lia. Qed.

Lemma last_level_run fuel s sub_topic : (length s < fuel)%nat → length sub_topic = 50%nat →
  last_level fuel s sub_topic =
    if forallb level_fits (levels s []) then Some (default sub_topic (padded <$> last (levels s []))) else None.
Proof.
  revert s sub_topic. induction fuel as [|fuel IH]; intros s sub_topic Hf Hs; [lia|]. cbn [last_level].
  pose proof (strtok_levels s) as Ht. destruct (levels s []) as [|l ls].
  - by rewrite Ht.
  - destruct Ht as (rest & -> & Hls & Hrest). pose proof (copy_level sub_topic l Hs) as Hc.
    destruct (bzero sub_topic 50) as [z|]; cbn [mbind option_bind] in *; cbn [forallb];
      [|destruct (level_fits l); [done|by rewrite andb_false_l]].
    rewrite Hc. destruct (level_fits l) eqn:El; cbn [mbind option_bind andb]; [|done].
    rewrite IH by (lia || by apply padded_length). rewrite Hls. destruct (forallb level_fits ls); [|done].
    f_equal. destruct ls as [|l' ls]; [done|]. change (last (l :: l' :: ls)) with (last (l' :: ls)).
    destruct (last (l' :: ls)) eqn:Elast; [done|]. by apply last_None in Elast.
Qed.

Lemma strncpy_run t rest n : is_cstr t → n = length t → strncpy_bytes n (t ++ rest) = Some t.
Proof.
  intros Ht ->. induction Ht as [|c t Hc Ht IH]; [done|]. cbn.
  destruct (Z.eqb_spec c 0); [lia|]. by rewrite IH.
Qed.

Lemma c_string_none s : is_cstr s → c_string s = None.
Proof. induction 1 as [|c s Hc Hs IH]; [done|]. cbn. destruct (Z.eqb_spec c 0); [lia|]. by rewrite IH. Qed.

Lemma levels_cstr t acc : is_cstr t → is_cstr acc → Forall is_cstr (levels t acc).
Proof.
  intros Ht. revert acc. induction Ht as [|c t Hc Ht IH]; intros acc Ha; cbn [levels].
  - destruct acc; [done|]. by apply Forall_singleton.
  - destruct (c =? 47); [destruct acc; [by apply IH|apply Forall_cons; split; [done|by apply IH, Forall_nil_2]]|].
    apply IH, Forall_app. split; [done|by apply Forall_singleton].
Qed.

Lemma padded_string l : level_fits l = true → is_cstr l → c_string (padded l) = Some l.
Proof.
  unfold padded, level_fits. intros Hfit%Z.ltb_lt Hc. replace (50 - length l)%nat with (Datatypes.S (49 - length l)) by lia.
  cbn [replicate]. by apply c_string_app.
Qed.

Lemma last_level_cstr t l : is_cstr t → last (levels t []) = Some l →
  is_cstr l ∧ (forallb level_fits (levels t []) = true → level_fits l = true).
Proof.
  intros Ht El. pose proof (levels_cstr t [] Ht (Forall_nil_2 _)) as Hc. apply last_Some_elem_of in El.
  rewrite Forall_forall in Hc. split; [by apply Hc|]. rewrite forallb_forall. intros Hf. by apply Hf, list_elem_of_In.
Qed.

(** For every topic with a level, the sub topic is the last level that is not
    empty, padded with NULs; and the function stays inside its arrays exactly
    when the topic has fewer than 200 characters and every level fewer than
    50. *)
Lemma sub_topic_run (t rest sub_topic l : list Z) pl pll :
  is_cstr t → length sub_topic = 50%nat → last (levels t []) = Some l →
  csro_systen_get_hass_message_sub_topic (mkMessage (t ++ rest) (Z.of_nat (length t)) pl pll) sub_topic =
    if (Z.of_nat (length t) <? 200) && forallb level_fits (levels t []) then Some (padded l) else None.
Proof.
  intros Ht Hs El. destruct (last_level_cstr t l Ht El) as [Hc Hfit].
  unfold csro_systen_get_hass_message_sub_topic. cbn [topic topic_len].
  change (bzero (replicate 200 0) 200) with (Some (replicate 200 0)). cbn [mbind option_bind].
  unfold strncpy. rewrite Nat2Z.id, (strncpy_run t rest _ Ht eq_refl). cbn [mbind option_bind].
  rewrite length_replicate. destruct (Z.leb_spec (Z.of_nat (length t)) (Z.of_nat 200)); cbn [mbind option_bind].
  2: { destruct (Z.ltb_spec (Z.of_nat (length t)) 200); [lia|done]. }
  rewrite drop_replicate. destruct (Z.ltb_spec (Z.of_nat (length t)) 200); cbn [andb].
  - replace (200 - length t)%nat with (Datatypes.S (199 - length t)) by lia. cbn [replicate].
    rewrite (c_string_app t _ Ht). cbn [mbind option_bind]. rewrite last_level_run, El by lia.
    destruct (forallb level_fits (levels t [])); [|done]. cbn -[padded]. by rewrite padded_string by auto.
  - replace (200 - length t)%nat with 0%nat by lia. cbn [replicate]. rewrite app_nil_r, (c_string_none t Ht). done.
Qed.
End Misc.
End Misc.
