(* ===== verification/SpiFlash.v ===== *)
(** The flash memory of the module: [components/spi_flash/src/spi_flash.c]
    with the calls to the ROM of [spi_flash_raw.c].

    The chip and the routines in the ROM are the class [FlashChip]; the class
    [NorFlash] states what the driver relies on: bytes that are read as they
    are, that programming can only clear bits in, one page at a time, and that
    erasing a sector sets to 0xff. The driver reads and writes at any address
    and length ([flash_store_roundtrip]). *)
From S2P Require Import Prelude.

Module SpiFlash.

Definition ESP_OK : Z := 0.
Definition ESP_ERR_FLASH_OP_FAIL : Z := 0x10011.
Definition SPI_FLASH_SEC_SIZE : Z := 4096.
Definition SPI_READ_BUF_MAX : Z := 64.

(** The global [flashchip]; [CONFIG_SPI_FLASH_SIZE] is of [app/sdkconfig]. *)
Definition CONFIG_SPI_FLASH_SIZE : Z := 0x100000.
Definition chip_size : Z := CONFIG_SPI_FLASH_SIZE.
Definition sector_size : Z := 4 * 1024.
Definition page_size : Z := 256.

(** ** The chip

    The routines of the ROM return 0 or a failure; the rest are the commands to
    the identification and the status registers. *)
Class FlashChip (F : Type) := {
  SPI_read_data : Z → Z → F → Z * list Z;
  SPI_page_program : Z → list Z → F → Z * F;
  SPI_write_enable : F → Z * F;
  SPI_sector_erase : Z → F → Z * F;
  spi_flash_get_id : F → Z;
  en25q16x_read_sfdp : F → Z;
  spi_flash_read_status : F → Z * Z;
  special_flash_read_status : Z → F → Z;
  special_flash_write_status : Z → Z → F → F;
  spi_flash_write_status : Z → F → F }.

(** A source array from [off] on; reading outside it is a fault. *)
Definition slice (src : list Z) (off n : Z) : option (list Z) :=
  if (0 <=? off) && (0 <=? n) && (off + n <=? zlen src) then Some (take (Z.to_nat n) (drop (Z.to_nat off) src)) else None.

Definition FLASH_ALIGN_BYTES : Z := 4.
Definition FLASH_ALIGN (addr : Z) : Z := Z.land (u32 (addr + (FLASH_ALIGN_BYTES - 1))) (u32 (Z.lnot (FLASH_ALIGN_BYTES - 1))).
Definition FLASH_ALIGN_BEFORE (addr : Z) : Z := u32 (FLASH_ALIGN addr - 4).
Definition NOT_ALIGN (addr : Z) : bool := negb (Z.land addr (FLASH_ALIGN_BYTES - 1) =? 0).
(** Of [eagle_soc.h]: an address in the cached window on the flash. *)
Definition IS_FLASH (a : Z) : bool := (0x40200000 <=? a) && (a <? 0x40200000 + 16 * 1024 * 1024).

Section Driver.
Context {F : Type} `{!FlashChip F}.

(** A call to the ROM. *)
Definition rom {A} (f : F → A * F) : M F A := λ s, Some (f s).

(** [if (ret) return ret;] *)
Definition or_return (m : M F Z) (k : M F Z) : M F Z :=
  let! ret_ := m in if negb (ret_ =? ESP_OK) then ret ret_ else k.

(** ** Protection *)

(** Clear the protection bits [mask] of the status, if any is set. *)
Definition unprotect (mask : Z) : M F unit :=
  let! (rc, status) := get spi_flash_read_status in
  when ((rc =? 0) && negb (Z.land status mask =? 0)) (modify (special_flash_write_status 0x1 (Z.land status (u32 (Z.lnot mask))))).
Definition SPI_FLASH_PROTECT_STATUS : Z := 0x407c.
Definition spi_flash_check_wr_protect : M F bool :=
  let! flash_id := get spi_flash_get_id in
  (if Z.land flash_id 0xffffff =? 0x15701c then
     let! sfdp := get en25q16x_read_sfdp in
     if sfdp =? 0xE5 then unprotect 0x3c
     else if sfdp =? 0xED then unprotect 0x3c else ret tt
   else if (Z.land flash_id 0xFF =? 0x9D) || (Z.land flash_id 0xFF =? 0xC2) || (Z.land flash_id 0xFF =? 0x1C) then unprotect 0x3c
   else if (flash_id =? 0x1640C8) || (flash_id =? 0x1840C8) then unprotect 0x7c
   else
     let! (rc, status) := get spi_flash_read_status in
     when (rc =? 0) (
       let! status1 := get (special_flash_read_status 0x35) in
       let status := Z.lor (Z.shiftl status1 8) (Z.land status 0xff) in
       when (negb (Z.land status SPI_FLASH_PROTECT_STATUS =? 0))
         (modify (spi_flash_write_status (Z.land (Z.land status (u32 (Z.lnot SPI_FLASH_PROTECT_STATUS))) 0xffff))))) ;;;
  ret true.

(** ** Erasing *)

Definition spi_flash_erase_sector_raw (sec sec_size : Z) : M F Z :=
  let! enabled := rom SPI_write_enable in
  let ret_ := if negb (enabled =? ESP_OK) then ESP_ERR_FLASH_OP_FAIL else ESP_OK in
  let! erased := rom (SPI_sector_erase (u32 (sec * sec_size))) in
  ret (if negb (erased =? ESP_OK) then ESP_ERR_FLASH_OP_FAIL else ret_).

Definition spi_flash_erase_sector (sec : Z) : M F Z :=
  if chip_size / sector_size <=? sec then ret ESP_ERR_FLASH_OP_FAIL else
  let! ok := spi_flash_check_wr_protect in
  if negb ok then ret ESP_ERR_FLASH_OP_FAIL else spi_flash_erase_sector_raw sec sector_size.

(** [do ... while (ret == ESP_OK && --num)]. *)
Fixpoint erase_loop (fuel : nat) (sec num : Z) : M F Z :=
  match fuel with
  | O => fault
  | S fuel =>
      let! ret_ := spi_flash_erase_sector sec in
      if negb (ret_ =? ESP_OK) then ret ret_ else
      if u32 (num - 1) =? 0 then ret ret_ else erase_loop fuel (u32 (sec + 1)) (u32 (num - 1))
  end.
(** Every sector number is below [chip_size / sector_size] but the last. *)
Definition erase_fuel : nat := Z.to_nat (chip_size / sector_size) + 1.
Definition spi_flash_erase_range (start_address size : Z) : M F Z :=
  if negb (start_address mod SPI_FLASH_SEC_SIZE =? 0) || negb (size mod SPI_FLASH_SEC_SIZE =? 0) then ret ESP_ERR_FLASH_OP_FAIL else
  let! ok := spi_flash_check_wr_protect in
  if negb ok then ret ESP_ERR_FLASH_OP_FAIL else
  erase_loop erase_fuel (start_address / SPI_FLASH_SEC_SIZE) (size / SPI_FLASH_SEC_SIZE).
End Driver.

Section ReadWrite.
Context {F : Type} `{!FlashChip F}.
(** The stack frame of the driver: the address of its buffer and what the buffer
    holds at first. *)
Variables (stack : Z) (junk : list Z).

(** ** Reading *)

Definition spi_flash_read_raw (src_addr size : Z) : M F (Z * list Z) := get (SPI_read_data src_addr size).
Definition __spi_flash_read (src_addr size : Z) : M F (Z * list Z) :=
  let! (ret_, bytes) := spi_flash_read_raw src_addr size in
  ret (if ret_ =? 0 then ESP_OK else ESP_ERR_FLASH_OP_FAIL, bytes).

(** [FLASH_READ] into [buf] at [off], and on to the rest if it succeeds; the
    answer is the code and the bytes stored for the caller. *)
Definition FLASH_READ (addr size : Z) (buf : list Z) (k : list Z → M F (Z * list Z)) : M F (Z * list Z) :=
  let! (ret_, bytes) := __spi_flash_read addr size in
  if negb (ret_ =? ESP_OK) then ret (ret_, []) else
  let! buf := lift (copy_to 0 bytes buf) in k buf.
(** [memcpy(tmp, &buf[off], n); tmp += n;] before the rest. *)
Definition memcpy_out (buf : list Z) (off n : Z) (k : M F (Z * list Z)) : M F (Z * list Z) :=
  let! bs := lift (slice buf off n) in
  let! (ret_, rest) := k in ret (ret_, bs ++ rest).

Fixpoint read_loop (fuel : nat) (src_addr size : Z) (buf : list Z) : M F (Z * list Z) :=
  match fuel with
  | O => fault
  | S fuel =>
      if size =? 0 then ret (ESP_OK, []) else
      let len := if SPI_READ_BUF_MAX <=? size then SPI_READ_BUF_MAX else size in
      let wlen := FLASH_ALIGN len in
      FLASH_READ src_addr wlen buf (λ buf,
      memcpy_out buf 0 len (read_loop fuel (u32 (src_addr + len)) (u32 (size - len)) buf))
  end.
(** A round reads 64 bytes or the rest. *)
Definition copy_fuel (size : Z) : nat := Z.to_nat (size / SPI_READ_BUF_MAX) + 2.

(** [dest] is an address; the bytes stored there are the answer's. *)
Definition spi_flash_read (src_addr dest size : Z) : M F (Z * list Z) :=
  if size =? 0 then ret (ESP_OK, []) else
  if dest =? 0 then ret (ESP_ERR_FLASH_OP_FAIL, []) else
  if NOT_ALIGN src_addr || NOT_ALIGN dest || NOT_ALIGN size then
    if NOT_ALIGN src_addr then
      let r_addr := FLASH_ALIGN_BEFORE src_addr in
      let c_off := u32 (src_addr - r_addr) in
      let wbytes := FLASH_ALIGN_BYTES - c_off in
      let wbytes := if size <? wbytes then size else wbytes in
      FLASH_READ r_addr FLASH_ALIGN_BYTES junk (λ buf,
      memcpy_out buf c_off wbytes (read_loop (copy_fuel size) (u32 (src_addr + wbytes)) (u32 (size - wbytes)) buf))
    else read_loop (copy_fuel size) src_addr size junk
  else __spi_flash_read src_addr size.

(** ** Programming *)

Definition spi_flash_write_raw (dest_addr : Z) (bytes : list Z) : M F Z := rom (SPI_page_program dest_addr bytes).

(** The whole pages; the answer is the new [pgm_len], nothing when a page
    fails. The counter [i] is a [uint8_t]. *)
Fixpoint program_loop (fuel : nat) (i pgm_num target : Z) (src : list Z) (pgm_len : Z) : M F (option Z) :=
  match fuel with
  | O => fault
  | S fuel =>
      if i <? pgm_num then
        let! page := lift (slice src (4 * Z.shiftr pgm_len 2) page_size) in
        let! ret_ := spi_flash_write_raw (u32 (target + pgm_len)) page in
        if negb (ret_ =? ESP_OK) then ret None else
        program_loop fuel (u8 (i + 1)) pgm_num target src (u32 (pgm_len + page_size))
      else ret (Some pgm_len)
  end.
(** [pgm_num] rounds and the last test. *)
Definition spi_flash_program (target : Z) (src : list Z) (len : Z) : M F Z :=
  let pgm_len := page_size - target mod page_size in
  if len <? pgm_len then
    let! bs := lift (slice src 0 len) in
    let! ret_ := spi_flash_write_raw target bs in
    ret (if negb (ret_ =? ESP_OK) then ESP_ERR_FLASH_OP_FAIL else ESP_OK)
  else
    let! bs := lift (slice src 0 pgm_len) in
    let! ret_ := spi_flash_write_raw target bs in
    if negb (ret_ =? ESP_OK) then ret ESP_ERR_FLASH_OP_FAIL else
    let pgm_num := (len - pgm_len) / page_size in
    let! done_ := program_loop (Z.to_nat pgm_num + 1) 0 pgm_num target src pgm_len in
    match done_ with
    | None => ret ESP_ERR_FLASH_OP_FAIL
    | Some pgm_len =>
        let! bs := lift (slice src (4 * Z.shiftr pgm_len 2) (u32 (len - pgm_len))) in
        let! ret_ := spi_flash_write_raw (u32 (target + pgm_len)) bs in
        ret (if negb (ret_ =? ESP_OK) then ESP_ERR_FLASH_OP_FAIL else ESP_OK)
    end.

(** ** Writing *)

Definition __spi_flash_write (dest_addr : Z) (src : list Z) (size : Z) : M F Z := spi_flash_program dest_addr src size.
(** [FLASH_READ] of four bytes into [buf] at [off]. *)
Definition READ_WORD (addr off : Z) (buf : list Z) (k : list Z → M F Z) : M F Z :=
  let! (ret_, bytes) := spi_flash_read addr (stack + off) FLASH_ALIGN_BYTES in
  if negb (ret_ =? ESP_OK) then ret ret_ else
  let! buf := lift (copy_to off bytes buf) in k buf.
(** [memcpy(&buf[off], tmp, n)], [tmp] at [pos] of the source. *)
Definition memcpy_in (off : Z) (data : list Z) (pos n : Z) (buf : list Z) (k : list Z → M F Z) : M F Z :=
  let! bs := lift (slice data pos n) in
  let! buf := lift (copy_to off bs buf) in k buf.

Fixpoint write_loop (fuel : nat) (dest_addr : Z) (data : list Z) (tmp size : Z) (buf : list Z) : M F Z :=
  match fuel with
  | O => fault
  | S fuel =>
      if size =? 0 then ret ESP_OK else
      let len := if SPI_READ_BUF_MAX <=? size then SPI_READ_BUF_MAX else size in
      let wlen := FLASH_ALIGN len in
      let l_b := u32 (wlen - FLASH_ALIGN_BYTES) in
      let chunk buf :=
        memcpy_in 0 data tmp len buf (λ buf,
        or_return (__spi_flash_write dest_addr buf wlen)
          (write_loop fuel (u32 (dest_addr + len)) data (tmp + len) (u32 (size - len)) buf)) in
      if negb (wlen =? len) then READ_WORD (u32 (dest_addr + l_b)) l_b buf chunk else chunk buf
  end.

(** [src] is an address, [data] what is there; the variable [ret] is
    [ESP_OK] when the loop is left, as the last write succeeded. *)
Definition spi_flash_write (dest_addr src : Z) (data : list Z) (size : Z) : M F Z :=
  if size =? 0 then ret ESP_OK else
  if src =? 0 then ret ESP_ERR_FLASH_OP_FAIL else
  if chip_size <? u32 (dest_addr + size) then ret ESP_ERR_FLASH_OP_FAIL else
  let! ok := spi_flash_check_wr_protect in
  if negb ok then ret ESP_ERR_FLASH_OP_FAIL else
  if NOT_ALIGN dest_addr || NOT_ALIGN src || NOT_ALIGN size || IS_FLASH src then
    if NOT_ALIGN dest_addr then
      let r_addr := FLASH_ALIGN_BEFORE dest_addr in
      let c_off := u32 (dest_addr - r_addr) in
      let wbytes := FLASH_ALIGN_BYTES - c_off in
      let wbytes := if size <? wbytes then size else wbytes in
      READ_WORD r_addr 0 junk (λ buf,
      memcpy_in c_off data 0 wbytes buf (λ buf,
      or_return (__spi_flash_write r_addr buf FLASH_ALIGN_BYTES)
        (write_loop (copy_fuel size) (u32 (dest_addr + wbytes)) data wbytes (u32 (size - wbytes)) buf)))
    else write_loop (copy_fuel size) dest_addr data 0 size junk
  else or_return (__spi_flash_write dest_addr data size) (ret ESP_OK).
End ReadWrite.

(** ** What the driver relies on

    [byte_at f a]: the byte at address [a]. *)
Section Contents.
Context {F : Type} (byte_at : F → Z → Z).

(** The [n] bytes from [a] on. *)
Definition bytes_of (f : F) (a n : Z) : list Z := (λ i : nat, byte_at f (a + Z.of_nat i)) <$> seq 0 (Z.to_nat n).
Definition same_bytes (f f' : F) : Prop := ∀ a, byte_at f' a = byte_at f a.
(** [bs] have been programmed at [a]: bits are only cleared. *)
Definition programmed (a : Z) (bs : list Z) (f f' : F) : Prop :=
  ∀ x, byte_at f' x = match rd bs (x - a) with Some b => Z.land (byte_at f x) b | None => byte_at f x end.
Definition erased (a n : Z) (f f' : F) : Prop :=
  ∀ x, byte_at f' x = if (a <=? x) && (x <? a + n) then 0xff else byte_at f x.
End Contents.

Class NorFlash (F : Type) `{FlashChip F} := {
  byte_at : F → Z → Z;
  byte_at_u8 f a : in_u8 (byte_at f a);
  SPI_read_data_ok a n f : 0 <= a → 0 <= n → a + n <= chip_size → a mod 4 = 0 → n mod 4 = 0 →
    SPI_read_data a n f = (ESP_OK, bytes_of byte_at f a n);
  (* within a page *)
  SPI_page_program_ok a bs f : 0 <= a → a + zlen bs <= chip_size → a mod 4 = 0 → zlen bs mod 4 = 0 →
    a mod page_size + zlen bs <= page_size → Forall in_u8 bs →
    (SPI_page_program a bs f).1 = ESP_OK ∧ programmed byte_at a bs f (SPI_page_program a bs f).2;
  SPI_write_enable_ok f : (SPI_write_enable f).1 = ESP_OK ∧ same_bytes byte_at f (SPI_write_enable f).2;
  SPI_sector_erase_ok a f : 0 <= a → a + sector_size <= chip_size → a mod sector_size = 0 →
    (SPI_sector_erase a f).1 = ESP_OK ∧ erased byte_at a sector_size f (SPI_sector_erase a f).2;
  status_keeps_bytes f c v w : same_bytes byte_at f (special_flash_write_status c v f) ∧
    same_bytes byte_at f (spi_flash_write_status w f) }.

(** *** Alignment *)

Lemma land_3 a : Z.land a (FLASH_ALIGN_BYTES - 1) = a mod 4.
Proof. exact (Z.land_ones a 2 ltac:(lia)). Qed.
Lemma NOT_ALIGN_spec a : NOT_ALIGN a = negb (a mod 4 =? 0).
Proof. unfold NOT_ALIGN. by rewrite land_3. Qed.
(** A mask clears the low bits. *)
Lemma land_clear k a : in_u32 a → 0 <= k <= 32 → Z.land a (u32 (Z.lnot (Z.ones k))) = a - a mod 2 ^ k.
Proof.
  intros Ha Hk. rewrite <- (Z.land_ones a k) by lia. rewrite Z.sub_nocarry_ldiff.
  2: { apply Z.bits_inj'. intros i Hi. rewrite Z.ldiff_spec, Z.land_spec, Z.bits_0. btauto. }
  apply Z.bits_inj'. intros i Hi. rewrite Z.land_spec, Z.ldiff_spec, Z.land_spec. unfold u32. destruct (Z.ltb_spec i 32).
  - rewrite Z.mod_pow2_bits_low, Z.lnot_spec by lia. btauto.
  - rewrite (testbit_range_high 32 i a) by (unfold in_u32 in Ha; lia). btauto.
Qed.
Lemma land_align a : in_u32 a → Z.land a (u32 (Z.lnot (FLASH_ALIGN_BYTES - 1))) = a - a mod 4.
Proof. intros Ha. exact (land_clear 2 a Ha ltac:(lia)). Qed.
Lemma FLASH_ALIGN_spec a : 0 <= a → a + 3 < 2 ^ 32 → FLASH_ALIGN a = (a + 3) / 4 * 4.
Proof.
  intros. unfold FLASH_ALIGN. change (FLASH_ALIGN_BYTES - 1) with 3 at 1. rewrite u32_id by (unfold in_u32; lia).
  rewrite land_align by (unfold in_u32; lia). dlia.
Qed.
Lemma FLASH_ALIGN_BEFORE_spec a : 0 <= a → a mod 4 ≠ 0 → a + 3 < 2 ^ 32 → FLASH_ALIGN_BEFORE a = a - a mod 4.
Proof.
  intros. unfold FLASH_ALIGN_BEFORE. rewrite FLASH_ALIGN_spec by lia. rewrite u32_id by (unfold in_u32; dlia). dlia.
Qed.

Lemma slice_run (pre bs post : list Z) off n : zlen pre = off → zlen bs = n → slice (pre ++ bs ++ post) off n = Some bs.
Proof.
  intros <- <-. unfold slice. rewrite !zlen_app. pose proof (zlen_nonneg pre). pose proof (zlen_nonneg bs). pose proof (zlen_nonneg post).
  destruct (Z.leb_spec 0 (zlen pre)), (Z.leb_spec 0 (zlen bs)), (Z.leb_spec (zlen pre + zlen bs) (zlen pre + (zlen bs + zlen post))); try lia.
  cbn [andb]. unfold zlen. rewrite !Nat2Z.id. by rewrite drop_app_length, take_app_length.
Qed.
Lemma slice_split (l bs : list Z) off n : slice l off n = Some bs → ∃ pre post, l = pre ++ bs ++ post ∧ zlen pre = off ∧ zlen bs = n.
Proof.
  unfold slice. destruct (Z.leb_spec 0 off), (Z.leb_spec 0 n), (Z.leb_spec (off + n) (zlen l)); cbn [andb]; try done.
  intros [= <-]. exists (take (Z.to_nat off) l), (drop (Z.to_nat n) (drop (Z.to_nat off) l)). unfold zlen in *.
  rewrite take_drop, take_drop, !length_take, length_drop. split; [done|]. lia.
Qed.
Lemma slice_in l off n : 0 <= off → 0 <= n → off + n <= zlen l → ∃ bs, slice l off n = Some bs.
Proof.
  intros. unfold slice. destruct (Z.leb_spec 0 off), (Z.leb_spec 0 n), (Z.leb_spec (off + n) (zlen l)); try lia. by eexists.
Qed.
Lemma slice_all (l : list Z) n : zlen l = n → slice l 0 n = Some l.
Proof. intros <-. rewrite <- (app_nil_r l) at 1. by apply (slice_run [] l []). Qed.

(** *** Contents *)

Section Bytes.
Context {F : Type} (at_ : F → Z → Z).

Lemma bytes_of_length f a n : 0 <= n → zlen (bytes_of at_ f a n) = n.
Proof. intros. unfold zlen, bytes_of. rewrite length_fmap, length_seq. lia. Qed.
Lemma bytes_of_app f a n m : 0 <= n → 0 <= m → bytes_of at_ f a (n + m) = bytes_of at_ f a n ++ bytes_of at_ f (a + n) m.
Proof.
  intros. unfold bytes_of. rewrite Z2Nat.inj_add, seq_app, fmap_app by lia. f_equal.
  replace (seq (0 + Z.to_nat n) (Z.to_nat m)) with (Nat.add (Z.to_nat n) <$> seq 0 (Z.to_nat m)) by (rewrite fmap_add_seq; f_equal; lia).
  rewrite <- list_fmap_compose. apply list_fmap_ext. intros i x _. cbn. f_equal. lia.
Qed.
Lemma bytes_of_0 f a : bytes_of at_ f a 0 = [].
Proof. done. Qed.
Lemma rd_bytes_of f a n i : 0 <= i < n → rd (bytes_of at_ f a n) i = Some (at_ f (a + i)).
Proof.
  intros. unfold rd, bytes_of. destruct (Z.ltb_spec i 0); [lia|].
  rewrite list_lookup_fmap, lookup_seq_lt by lia. cbn. do 2 f_equal. lia.
Qed.
Lemma bytes_of_ext f f' a n : (∀ x, a <= x < a + n → at_ f' x = at_ f x) → bytes_of at_ f' a n = bytes_of at_ f a n.
Proof. intros E. apply list_fmap_ext. intros i x (-> & Hx)%lookup_seq. apply E. lia. Qed.

Lemma rd_app {A} (l k : list A) i : rd (l ++ k) i = if i <? zlen l then rd l i else rd k (i - zlen l).
Proof.
  unfold rd, zlen. destruct (Z.ltb_spec i 0), (Z.ltb_spec i (Z.of_nat (length l))), (Z.ltb_spec (i - Z.of_nat (length l)) 0); try lia; [done| |].
  - apply lookup_app_l. lia.
  - rewrite lookup_app_r by lia. f_equal. lia.
Qed.
Lemma rd_outside {A} (l : list A) i : i < 0 ∨ zlen l <= i → rd l i = None.
Proof. unfold rd, zlen. intros. destruct (Z.ltb_spec i 0); [done|]. apply lookup_ge_None_2. lia. Qed.
Lemma rd_inside {A} (l : list A) i : 0 <= i < zlen l → ∃ x, rd l i = Some x.
Proof. unfold rd, zlen. intros. destruct (Z.ltb_spec i 0); [lia|]. apply lookup_lt_is_Some. lia. Qed.

Lemma programmed_nil a f : programmed at_ a [] f f.
Proof. intros x. unfold rd. by destruct (_ <? 0). Qed.
Lemma programmed_app a b1 b2 f f1 f2 : programmed at_ a b1 f f1 → programmed at_ (a + zlen b1) b2 f1 f2 → programmed at_ a (b1 ++ b2) f f2.
Proof.
  intros H1 H2 x. rewrite rd_app, H2, H1. replace (x - (a + zlen b1)) with (x - a - zlen b1) by lia.
  destruct (Z.ltb_spec (x - a) (zlen b1)).
  - rewrite (rd_outside b2) by lia. done.
  - rewrite (rd_outside b1) by lia. done.
Qed.
Lemma programmed_same_l a bs f f1 f2 : same_bytes at_ f f1 → programmed at_ a bs f1 f2 → programmed at_ a bs f f2.
Proof. intros H1 H2 x. by rewrite H2, H1. Qed.
(** To program what is there already changes nothing. *)
Lemma programmed_pad a n bs m f f' : 0 <= n → 0 <= m →
  programmed at_ a (bytes_of at_ f a n ++ bs ++ bytes_of at_ f (a + n + zlen bs) m) f f' → programmed at_ (a + n) bs f f'.
Proof.
  intros Hn Hm Hp x. rewrite Hp, rd_app, bytes_of_length by done. replace (x - (a + n)) with (x - a - n) by lia.
  destruct (Z.ltb_spec (x - a) n).
  - rewrite (rd_outside bs) by lia. destruct (Z.ltb_spec (x - a) 0); [by rewrite rd_outside by lia|].
    rewrite rd_bytes_of by lia. replace (a + (x - a)) with x by lia. apply Z.land_diag.
  - rewrite rd_app. destruct (Z.ltb_spec (x - a - n) (zlen bs)); [done|]. rewrite (rd_outside bs) by lia.
    destruct (Z.ltb_spec (x - a - n - zlen bs) m); [|by rewrite rd_outside by (rewrite bytes_of_length; lia)].
    rewrite rd_bytes_of by lia. replace (a + n + zlen bs + (x - a - n - zlen bs)) with x by lia. apply Z.land_diag.
Qed.
(** On erased flash the bytes are the ones programmed. *)
Lemma programmed_erased a bs f f' : Forall in_u8 bs → (∀ x, a <= x < a + zlen bs → at_ f x = 0xff) → programmed at_ a bs f f' →
  bytes_of at_ f' a (zlen bs) = bs.
Proof.
  intros Hb He Hp. apply list_eq. intros i. unfold bytes_of. rewrite list_lookup_fmap.
  destruct (decide (i < length bs)%nat) as [Hi|Hi].
  - rewrite lookup_seq_lt by (unfold zlen; lia). cbn. rewrite Hp, Z.add_simpl_l, rd_lookup, He by (unfold zlen; lia).
    destruct (lookup_lt_is_Some_2 bs i Hi) as [b Eb]. rewrite Eb. f_equal.
    pose proof (proj1 (Forall_lookup _ _) Hb _ _ Eb) as Hu. rewrite Z.land_comm, land_255_u8. by apply u8_id.
  - rewrite lookup_seq_ge by (unfold zlen; lia). cbn. symmetry. apply lookup_ge_None_2. lia.
Qed.
Lemma programmed_outside a bs f f' x : programmed at_ a bs f f' → x < a ∨ a + zlen bs <= x → at_ f' x = at_ f x.
Proof. intros Hp Hx. rewrite Hp, rd_outside by lia. done. Qed.
End Bytes.

Lemma slice_app l off n m bs : 0 <= n → 0 <= m → slice l off (n + m) = Some bs →
  ∃ b1 b2, bs = b1 ++ b2 ∧ slice l off n = Some b1 ∧ slice l (off + n) m = Some b2.
Proof.
  intros Hn Hm (pre & post & -> & Hoff & Hlen)%slice_split.
  assert (Hs : (Z.to_nat n <= length bs)%nat) by (unfold zlen in Hlen; lia).
  exists (take (Z.to_nat n) bs), (drop (Z.to_nat n) bs). rewrite take_drop. split; [done|].
  assert (H1 : zlen (take (Z.to_nat n) bs) = n) by (unfold zlen; rewrite length_take; lia).
  assert (H2 : zlen (drop (Z.to_nat n) bs) = m) by (unfold zlen in *; rewrite length_drop; lia).
  rewrite <- (take_drop (Z.to_nat n) bs) at 1 3. rewrite <- app_assoc. split; [by apply slice_run|].
  rewrite (app_assoc pre). apply slice_run; [by rewrite zlen_app, Hoff, H1|done].
Qed.
Lemma copy_to_0 bs buf : zlen bs <= zlen buf → copy_to 0 bs buf = Some (bs ++ drop (length bs) buf).
Proof.
  intros. rewrite <- (take_drop (length bs) buf) at 1. apply (copy_to_run bs [] (take (length bs) buf)).
  rewrite length_take. unfold zlen in *. lia.
Qed.

(** ** Reading gives the bytes *)

Section Runs.
Context {F : Type} `{NorFlash F}.
Implicit Types f : F.
Abbreviation bytes := (bytes_of byte_at).

Lemma bytes_u8 f a n : Forall in_u8 (bytes f a n).
Proof. apply Forall_fmap, Forall_true. intros i. apply byte_at_u8. Qed.

Lemma raw_read_run f a n : 0 <= a → 0 <= n → a + n <= chip_size → a mod 4 = 0 → n mod 4 = 0 →
  __spi_flash_read a n f = Some ((ESP_OK, bytes f a n), f).
Proof.
  intros. unfold __spi_flash_read, spi_flash_read_raw, bind, get. by rewrite SPI_read_data_ok by done.
Qed.
Lemma FLASH_READ_run f a n buf k : 0 <= a → 0 <= n → a + n <= chip_size → a mod 4 = 0 → n mod 4 = 0 → n <= zlen buf →
  FLASH_READ a n buf k f = k (bytes f a n ++ drop (Z.to_nat n) buf) f.
Proof.
  intros. unfold FLASH_READ. erewrite bind_run by by apply raw_read_run. cbv beta iota. rewrite Z.eqb_refl. cbn [negb].
  erewrite bind_run; [|apply lift_run, copy_to_0; by rewrite bytes_of_length].
  pose proof (bytes_of_length byte_at f a n ltac:(done)) as Hl. unfold zlen in Hl. by replace (length (bytes f a n)) with (Z.to_nat n) by lia.
Qed.
Lemma memcpy_out_run buf off n bs k f r : slice buf off n = Some bs → k f = Some ((ESP_OK, r), f) →
  memcpy_out buf off n k f = Some ((ESP_OK, bs ++ r), f).
Proof.
  intros Hs Hk. unfold memcpy_out. erewrite bind_run by by apply lift_run. by erewrite bind_run by done.
Qed.

Lemma read_loop_run fuel : ∀ a size buf f, 0 <= a → (0 < size → a mod 4 = 0) → 0 <= size → a + size <= chip_size →
  size <= 64 * (Z.of_nat fuel - 1) → zlen buf = 64 → read_loop fuel a size buf f = Some ((ESP_OK, bytes f a size), f).
Proof.
  induction fuel as [|fuel IH]; intros a size buf f Ha Hal Hsize Hend Hfuel Hbuf; [lia|]. cbn [read_loop].
  destruct (Z.eqb_spec size 0) as [->|]; [done|]. unfold SPI_READ_BUF_MAX. unfold chip_size, CONFIG_SPI_FLASH_SIZE in *.
  set (len := if 64 <=? size then 64 else size). assert (Hlen : 0 < len <= 64 ∧ len <= size ∧ (64 <= size → len = 64) ∧ (size < 64 → len = size))
    by (subst len; destruct (Z.leb_spec 64 size); lia). clearbody len.
  assert (Ha4 : a mod 4 = 0) by (apply Hal; lia). rewrite FLASH_ALIGN_spec by lia.
  rewrite FLASH_READ_run; [|done|dlia|unfold chip_size, CONFIG_SPI_FLASH_SIZE; dlia|done|apply Z.mod_mul; lia|rewrite Hbuf; dlia].
  replace (bytes f a size) with (bytes f a len ++ bytes f (a + len) (size - len)) by (rewrite <- bytes_of_app by lia; f_equal; lia).
  rewrite !u32_id by (unfold in_u32; lia). apply memcpy_out_run.
  - set (w := (len + 3) / 4 * 4). assert (Hw : len <= w) by (subst w; dlia).
    replace (bytes f a w) with (bytes f a len ++ bytes f (a + len) (w - len)) by (rewrite <- bytes_of_app by lia; f_equal; lia). rewrite <- app_assoc.
    apply (slice_run []); [done|]. apply bytes_of_length. lia.
  - apply IH; try lia; [intros; replace len with 64 by lia; dlia|].
    rewrite zlen_app, bytes_of_length by dlia. unfold zlen in *. rewrite length_drop. dlia.
Qed.
Lemma copy_fuel_enough size n : 0 <= n <= size → n <= 64 * (Z.of_nat (copy_fuel size) - 1).
Proof. intros. unfold copy_fuel, SPI_READ_BUF_MAX. dlia. Qed.

(** [spi_flash_read] at any alignment of the three. *)
Lemma spi_flash_read_run junk a dest n f : 0 <= a → 0 <= n → a + n <= chip_size → dest ≠ 0 → zlen junk = 64 →
  spi_flash_read junk a dest n f = Some ((ESP_OK, bytes f a n), f).
Proof.
  intros Ha Hn Hend Hdest Hjunk. unfold spi_flash_read. destruct (Z.eqb_spec n 0) as [->|]; [done|]. destruct (Z.eqb_spec dest 0); [done|].
  rewrite !NOT_ALIGN_spec. destruct (Z.eqb_spec (a mod 4) 0) as [Ea|Ea]; cbn [negb orb].
  - destruct (Z.eqb_spec (n mod 4) 0) as [En|En]; [|rewrite orb_true_r; apply read_loop_run; auto; apply copy_fuel_enough; lia].
    rewrite orb_false_r. destruct (negb (dest mod 4 =? 0)); [apply read_loop_run; auto; apply copy_fuel_enough; lia|by apply raw_read_run].
  - unfold chip_size, CONFIG_SPI_FLASH_SIZE in *. rewrite FLASH_ALIGN_BEFORE_spec by lia.
    replace (a - (a - a mod 4)) with (a mod 4) by lia. rewrite !(u32_id (a mod 4)) by (unfold in_u32; dlia). unfold FLASH_ALIGN_BYTES.
    set (w := if n <? 4 - a mod 4 then n else 4 - a mod 4).
    assert (Hw : 0 < w <= 4 - a mod 4 ∧ w <= n ∧ (w < n → w = 4 - a mod 4)) by (subst w; destruct (Z.ltb_spec n (4 - a mod 4)); dlia). clearbody w.
    rewrite FLASH_READ_run; [|dlia|lia|unfold chip_size, CONFIG_SPI_FLASH_SIZE; dlia|dlia|done|lia].
    replace (bytes f a n) with (bytes f a w ++ bytes f (a + w) (n - w)) by (rewrite <- bytes_of_app by lia; f_equal; lia). rewrite !u32_id by (unfold in_u32; dlia). apply memcpy_out_run.
    + replace (bytes f (a - a mod 4) 4) with (bytes f (a - a mod 4) (a mod 4) ++ bytes f a w ++ bytes f (a + w) (4 - a mod 4 - w)).
      2: { replace (bytes f a w) with (bytes f (a - a mod 4 + a mod 4) w) by (f_equal; lia).
           replace (bytes f (a + w)) with (bytes f (a - a mod 4 + (a mod 4 + w))) by (f_equal; lia).
           rewrite app_assoc, <- !bytes_of_app by dlia. f_equal; lia. }
      rewrite <- !app_assoc. apply slice_run; rewrite bytes_of_length; dlia.
    + destruct (decide (w = n)) as [->|].
      * rewrite Z.sub_diag. unfold copy_fuel. by rewrite Nat.add_comm.
      * apply read_loop_run; [lia|dlia|lia|unfold chip_size, CONFIG_SPI_FLASH_SIZE; lia|apply copy_fuel_enough; lia|].
        rewrite zlen_app, bytes_of_length by done. unfold zlen in *. rewrite length_drop. lia.
Qed.
End Runs.

(** ** Writing programs the bytes *)

Section WriteRuns.
Context {F : Type} `{NorFlash F}.
Implicit Types f : F.
Abbreviation bytes := (bytes_of byte_at).
Abbreviation same := (same_bytes byte_at).
Abbreviation burnt := (programmed byte_at).

Lemma unprotect_run mask f : ∃ f', unprotect mask f = Some (tt, f') ∧ same f f'.
Proof.
  unfold unprotect, bind, get. destruct (spi_flash_read_status f) as [rc status]. unfold when. destruct (_ && _); [|by exists f].
  eexists. split; [done|]. apply (status_keeps_bytes f _ _ 0).
Qed.
Lemma check_run f : ∃ f', spi_flash_check_wr_protect f = Some (true, f') ∧ same f f'.
Proof.
  unfold spi_flash_check_wr_protect. unfold bind at 2, get.
  assert (Ht : ∀ m : M F unit, (∃ f', m f = Some (tt, f') ∧ same f f') → ∃ f', (m ;;; ret true) f = Some (true, f') ∧ same f f')
    by (intros m (f' & Hm & Hs); exists f'; by rewrite (bind_run _ _ _ _ _ Hm)).
  apply Ht. clear Ht. destruct (_ =? 0x15701c).
  - unfold bind. destruct (_ =? 0xE5); [apply unprotect_run|]. destruct (_ =? 0xED); [apply unprotect_run|by exists f].
  - destruct (_ || _); [apply unprotect_run|]. destruct (_ || _); [apply unprotect_run|].
    unfold bind at 1. destruct (spi_flash_read_status f) as [rc status]. unfold when at 1. destruct (rc =? 0); [|by exists f].
    unfold bind. unfold when. destruct (negb _); [|by exists f]. eexists. split; [done|]. apply (status_keeps_bytes f 0 0).
Qed.

Lemma write_raw_run a bs f : 0 <= a → a + zlen bs <= chip_size → a mod 4 = 0 → zlen bs mod 4 = 0 →
  a mod page_size + zlen bs <= page_size → Forall in_u8 bs → ∃ f', spi_flash_write_raw a bs f = Some (ESP_OK, f') ∧ burnt a bs f f'.
Proof.
  intros. destruct (SPI_page_program_ok a bs f) as [E Hp]; [done..|]. unfold spi_flash_write_raw, rom.
  destruct (SPI_page_program a bs f) as [rc f']. cbn in E, Hp. subst rc. eauto.
Qed.
Lemma words n : n mod 4 = 0 → 4 * Z.shiftr n 2 = n.
Proof. intros. rewrite Z.shiftr_div_pow2 by lia. dlia. Qed.
Lemma slice_zlen l off n (bs : list Z) : slice l off n = Some bs → zlen bs = n.
Proof. by intros (? & ? & _ & _ & ?)%slice_split. Qed.

Lemma program_loop_run fuel : ∀ i num target src n bs f, 0 <= i <= num → num < 256 → num - i < Z.of_nat fuel → 0 <= target → 0 <= n →
  n mod 4 = 0 → (target + n) mod page_size = 0 → target + n + 256 * (num - i) <= chip_size →
  slice src n (256 * (num - i)) = Some bs → Forall in_u8 bs →
  ∃ f', program_loop fuel i num target src n f = Some (Some (n + 256 * (num - i)), f') ∧ burnt (target + n) bs f f'.
Proof.
  induction fuel as [|fuel IH]; intros i num target src n bs f Hi Hnum Hfuel Ht Hn Hn4 Hpage Hend Hs Hbs; [lia|]. cbn [program_loop].
  destruct (Z.ltb_spec i num) as [Hlt|].
  2: { replace (256 * (num - i)) with 0 in * by lia. exists f. rewrite Z.add_0_r. split; [done|].
       apply slice_zlen in Hs. destruct bs; [apply programmed_nil|unfold zlen in Hs; cbn in Hs; lia]. }
  rewrite words by done. unfold chip_size, CONFIG_SPI_FLASH_SIZE, page_size in *.
  replace (256 * (num - i)) with (256 + 256 * (num - (i + 1))) in Hs |- * by lia.
  destruct (slice_app src n 256 (256 * (num - (i + 1))) bs ltac:(lia) ltac:(lia) Hs) as (b1 & b2 & -> & Hb1 & Hb2). apply Forall_app in Hbs as [H1 H2].
  erewrite bind_run by by apply lift_run. rewrite !u32_id by (unfold in_u32; lia). pose proof (slice_zlen _ _ _ _ Hb1) as Hl1.
  destruct (write_raw_run (target + n) b1 f) as (f1 & Hw & Hp1); [unfold chip_size, CONFIG_SPI_FLASH_SIZE, page_size; dlia..|done|].
  erewrite bind_run by done. cbn [Z.eqb negb ESP_OK]. rewrite (u8_id (i + 1)) by (unfold in_u8; lia).
  destruct (IH (i + 1) num target src (n + 256) b2 f1) as (f2 & Hr & Hp2); [lia..|dlia|unfold page_size; dlia|lia|done|done|].
  exists f2. rewrite <- Z.add_assoc in Hr. split; [done|]. apply (programmed_app _ _ _ _ _ f1); [done|]. rewrite Hl1, <- Z.add_assoc. done.
Qed.

Lemma program_run target src len bs f : 0 <= target → target mod 4 = 0 → len mod 4 = 0 → 0 <= len < 2 ^ 16 → target + len <= chip_size →
  slice src 0 len = Some bs → Forall in_u8 bs → ∃ f', spi_flash_program target src len f = Some (ESP_OK, f') ∧ burnt target bs f f'.
Proof.
  intros Ht Ht4 Hl4 Hlen Hend Hs Hbs. unfold spi_flash_program. unfold chip_size, CONFIG_SPI_FLASH_SIZE in *.
  set (p := page_size - target mod page_size). assert (Hp : 0 < p <= 256 ∧ (target + p) mod 256 = 0 ∧ p mod 4 = 0 ∧ target mod 256 + p = 256) by (unfold p, page_size; dlia).
  clearbody p. destruct (Z.ltb_spec len p) as [Hlt|Hge].
  - erewrite bind_run by by apply lift_run. pose proof (slice_zlen _ _ _ _ Hs).
    destruct (write_raw_run target bs f) as (f' & Hw & Hb); [unfold chip_size, CONFIG_SPI_FLASH_SIZE, page_size; dlia..|done|].
    exists f'. by erewrite bind_run by done.
  - set (num := (len - p) / page_size). assert (Hnum : 0 <= num < 256 ∧ 0 <= len - p - 256 * num < 256) by (unfold num, page_size; dlia). clearbody num.
    replace len with (p + (256 * num + (len - p - 256 * num))) in Hs by lia.
    destruct (slice_app src 0 p (256 * num + (len - p - 256 * num)) bs ltac:(lia) ltac:(lia) Hs) as (b1 & b & -> & Hb1 & Hb). rewrite Z.add_0_l in Hb.
    destruct (slice_app src p (256 * num) (len - p - 256 * num) b ltac:(lia) ltac:(lia) Hb) as (b2 & b3 & -> & Hb2 & Hb3). rewrite !Forall_app in Hbs. destruct Hbs as (H1 & H2 & H3).
    pose proof (slice_zlen _ _ _ _ Hb1) as L1. pose proof (slice_zlen _ _ _ _ Hb2) as L2. pose proof (slice_zlen _ _ _ _ Hb3) as L3.
    erewrite bind_run by by apply lift_run.
    destruct (write_raw_run target b1 f) as (f1 & Hw & Hp1); [unfold chip_size, CONFIG_SPI_FLASH_SIZE, page_size; dlia..|done|].
    erewrite bind_run by done. cbn [Z.eqb negb ESP_OK].
    destruct (program_loop_run (Z.to_nat num + 1) 0 num target src p b2 f1) as (f2 & Hr & Hp2);
      [lia..|unfold page_size; lia|unfold chip_size, CONFIG_SPI_FLASH_SIZE; lia|by rewrite Z.sub_0_r|done|].
    rewrite Z.sub_0_r in Hr. erewrite bind_run by done. cbv iota. rewrite words by dlia. rewrite !u32_id by (unfold in_u32; lia).
    replace (len - (p + 256 * num)) with (len - p - 256 * num) by lia. erewrite bind_run by by apply lift_run.
    destruct (write_raw_run (target + (p + 256 * num)) b3 f2) as (f3 & Hw3 & Hp3); [unfold chip_size, CONFIG_SPI_FLASH_SIZE, page_size; dlia..|done|].
    exists f3. erewrite bind_run by done. split; [done|]. apply (programmed_app _ _ _ _ _ f1); [done|]. rewrite L1.
    apply (programmed_app _ _ _ _ _ f2); [done|]. rewrite L2. by replace (target + p + 256 * num) with (target + (p + 256 * num)) by lia.
Qed.
End WriteRuns.

Section BufferedWrite.
Context {F : Type} `{NorFlash F} (stack : Z) (junk : list Z).
Hypothesis Hstack : 0 < stack.
Hypothesis Hjunk : zlen junk = SPI_READ_BUF_MAX.
Implicit Types f : F.
Abbreviation bytes := (bytes_of byte_at).
Abbreviation same := (same_bytes byte_at).
Abbreviation burnt := (programmed byte_at).

Lemma cut l off n : 0 <= off → 0 <= n → off + n <= zlen l → ∃ pre old post : list Z, l = pre ++ old ++ post ∧ zlen pre = off ∧ zlen old = n.
Proof. intros. destruct (slice_in l off n) as [old Hs]; [done..|]. apply slice_split in Hs as (pre & post & ?). by exists pre, old, post. Qed.
Lemma copy_into off bs (pre old post : list Z) f : zlen pre = off → zlen old = zlen bs →
  lift (copy_to off bs (pre ++ old ++ post)) f = Some (pre ++ bs ++ post, f).
Proof. intros <- Hl. apply lift_run, copy_to_run. unfold zlen in Hl. lia. Qed.

Lemma READ_WORD_run a off (pre old post : list Z) k f : 0 <= a → a + 4 <= chip_size → zlen pre = off → zlen old = 4 → zlen junk = 64 →
  READ_WORD stack junk a off (pre ++ old ++ post) k f = k (pre ++ bytes f a 4 ++ post) f.
Proof.
  intros Ha Hend Hpre Hold Hj. unfold READ_WORD. pose proof (zlen_nonneg pre).
  rewrite (bind_run _ _ _ _ _ (spi_flash_read_run junk a (stack + off) FLASH_ALIGN_BYTES f Ha ltac:(done) Hend ltac:(lia) Hj)). cbv beta iota. cbn [Z.eqb negb ESP_OK].
  by rewrite (bind_run _ _ _ _ _ (copy_into off (bytes f a 4) pre old post f Hpre ltac:(by rewrite bytes_of_length))).
Qed.
Lemma memcpy_in_run data pos n bs off (pre old post : list Z) k f : slice data pos n = Some bs → zlen pre = off → zlen old = n →
  memcpy_in off data pos n (pre ++ old ++ post) k f = k (pre ++ bs ++ post) f.
Proof.
  intros Hs Hpre Hold. unfold memcpy_in. erewrite bind_run by by apply lift_run. apply slice_zlen in Hs.
  by rewrite (bind_run _ _ _ _ _ (copy_into off bs pre old post f Hpre ltac:(lia))).
Qed.
Lemma or_return_run (m k : M F Z) f f' : m f = Some (ESP_OK, f') → or_return m k f = k f'.
Proof. intros Hm. unfold or_return. by erewrite bind_run by done. Qed.

(** The buffer holds the bytes of the flash around what is copied into it. *)
Lemma padded_run a c bs m post f k : 0 <= a → a mod 4 = 0 → 0 <= c → 0 <= m → (c + zlen bs + m) mod 4 = 0 → c + zlen bs + m <= 64 →
  a + (c + zlen bs + m) <= chip_size → Forall in_u8 bs →
  ∃ f', burnt (a + c) bs f f' ∧
    or_return (__spi_flash_write a (bytes f a c ++ bs ++ bytes f (a + c + zlen bs) m ++ post) (c + zlen bs + m)) k f = k f'.
Proof.
  intros Ha Ha4 Hc Hm Hn4 Hn Hend Hbs. pose proof (zlen_nonneg bs). set (all := bytes f a c ++ bs ++ bytes f (a + c + zlen bs) m).
  assert (Hall : zlen all = c + zlen bs + m) by (unfold all; rewrite !zlen_app, !bytes_of_length by lia; lia).
  destruct (program_run a (all ++ post) (c + zlen bs + m) all f) as (f' & Hr & Hp); [done..|lia|done|by apply (slice_run [])|unfold all; rewrite !Forall_app; split_and!; [apply bytes_u8|done|apply bytes_u8]|].
  exists f'. split; [by apply programmed_pad with (m := m)|]. rewrite !(app_assoc bs), app_assoc. fold all. by apply or_return_run.
Qed.

Lemma write_loop_run fuel : ∀ a data pos n buf bs f, 0 <= a → (0 < n → a mod 4 = 0) → 0 <= n → a + n <= chip_size → 0 <= pos →
  slice data pos n = Some bs → Forall in_u8 bs → n <= 64 * (Z.of_nat fuel - 1) → zlen buf = 64 →
  ∃ f', write_loop stack junk fuel a data pos n buf f = Some (ESP_OK, f') ∧ burnt a bs f f'.
Proof.
  induction fuel as [|fuel IH]; intros a data pos n buf bs f Ha Hal Hn Hend Hpos Hs Hbs Hfuel Hbuf; [lia|]. cbn [write_loop].
  destruct (Z.eqb_spec n 0) as [->|].
  { exists f. split; [done|]. apply slice_zlen in Hs. destruct bs; [apply programmed_nil|unfold zlen in Hs; cbn in Hs; lia]. }
  assert (Ha4 : a mod 4 = 0) by (apply Hal; lia). unfold SPI_READ_BUF_MAX in *. unfold chip_size, CONFIG_SPI_FLASH_SIZE in *.
  set (len := if 64 <=? n then 64 else n). assert (Hlen : 0 < len <= 64 ∧ len <= n ∧ (64 <= n → len = 64) ∧ (n < 64 → len = n))
    by (subst len; destruct (Z.leb_spec 64 n); lia). clearbody len.
  rewrite FLASH_ALIGN_spec by lia. set (w := (len + 3) / 4 * 4). assert (Hw : 4 <= w ∧ len <= w < len + 4 ∧ w mod 4 = 0 ∧ w <= 64 ∧ (len = 64 → w = 64)) by (unfold w; dlia). clearbody w.
  replace n with (len + (n - len)) in Hs by lia. destruct (slice_app data pos len (n - len) bs ltac:(lia) ltac:(lia) Hs) as (b1 & b2 & -> & Hb1 & Hb2).
  apply Forall_app in Hbs as [H1 H2]. pose proof (slice_zlen _ _ _ _ Hb1) as L1. unfold FLASH_ALIGN_BYTES.
  rewrite (u32_id (w - 4)), (u32_id (a + len)), (u32_id (n - len)), (u32_id (a + (w - 4))) by (unfold in_u32; lia).
  pose (chunk := λ buf, memcpy_in 0 data pos len buf (λ buf, or_return (__spi_flash_write a buf w) (write_loop stack junk fuel (a + len) data (pos + len) (n - len) buf))).
  assert (Hchunk : ∀ old post, zlen old = len → zlen (old ++ bytes f (a + len) (w - len) ++ post) = 64 →
    ∃ f', chunk (old ++ bytes f (a + len) (w - len) ++ post) f = Some (ESP_OK, f') ∧ burnt a (b1 ++ b2) f f').
  { intros old post Hold H64. unfold chunk.
    rewrite (memcpy_in_run data pos len b1 0 [] old _ _ f Hb1 eq_refl Hold : memcpy_in _ _ _ _ (old ++ _) _ _ = _). cbn [app].
    destruct (padded_run a 0 b1 (w - len) post f (write_loop stack junk fuel (a + len) data (pos + len) (n - len) (b1 ++ bytes f (a + len) (w - len) ++ post)))
      as (f1 & Hp1 & Hr1); [lia|done|lia|lia|rewrite L1; replace (0 + len + (w - len)) with w by lia; tauto|lia|unfold chip_size, CONFIG_SPI_FLASH_SIZE; dlia|done|].
    rewrite L1, !Z.add_0_r in Hr1. replace (0 + len + (w - len)) with w in Hr1 by lia. cbn [app bytes_of_0] in Hr1. rewrite Z.add_0_r in Hp1.
    destruct (IH (a + len) data (pos + len) (n - len) (b1 ++ bytes f (a + len) (w - len) ++ post) b2 f1) as (f2 & Hr2 & Hp2);
      [lia|intros; replace len with 64 by lia; dlia|lia..|done|done|lia|revert H64; rewrite !zlen_app; lia|].
    exists f2. split; [by rewrite <- Hr2, <- Hr1|]. apply (programmed_app _ _ _ _ _ f1); [done|]. by rewrite L1. }
  destruct (Z.eqb_spec w len) as [->|Hne]; cbn [negb].
  - destruct (cut buf 0 len) as (pre & old & post & -> & Hpre & Hold); [lia..|]. destruct pre; [|unfold zlen in Hpre; cbn in Hpre; lia].
    rewrite Z.sub_diag in Hchunk. exact (Hchunk old post Hold Hbuf).
  - destruct (cut buf (w - 4) 4) as (pre & old & post & -> & Hpre & Hold); [lia..|].
    rewrite READ_WORD_run; [|lia|unfold chip_size, CONFIG_SPI_FLASH_SIZE; dlia|done..].
    replace (bytes f (a + (w - 4)) 4) with (bytes f (a + (w - 4)) (len - (w - 4)) ++ bytes f (a + len) (w - len)).
    2: { replace (a + len) with (a + (w - 4) + (len - (w - 4))) by lia. rewrite <- bytes_of_app by lia. f_equal; lia. }
    rewrite <- app_assoc, app_assoc. apply (Hchunk (pre ++ bytes f (a + (w - 4)) (len - (w - 4))) post); [rewrite zlen_app, bytes_of_length by lia; lia|].
    revert Hbuf. rewrite !zlen_app, !bytes_of_length by lia. lia.
Qed.
End BufferedWrite.

Section WholeWrite.
Context {F : Type} `{NorFlash F} (stack : Z) (junk : list Z).
Hypothesis Hstack : 0 < stack.
Hypothesis Hjunk : zlen junk = SPI_READ_BUF_MAX.
Implicit Types f : F.
Abbreviation bytes := (bytes_of byte_at).
Abbreviation burnt := (programmed byte_at).

(** The write goes to the chip without the buffer of the driver. *)
Definition direct (a src n : Z) : bool := negb (NOT_ALIGN a || NOT_ALIGN src || NOT_ALIGN n || IS_FLASH src).

Lemma spi_flash_write_run a src data n bs f : 0 <= a → 0 <= n → a + n <= chip_size → src ≠ 0 → slice data 0 n = Some bs → Forall in_u8 bs →
  (direct a src n = true → n < 2 ^ 16) → ∃ f', spi_flash_write stack junk a src data n f = Some (ESP_OK, f') ∧ burnt a bs f f'.
Proof.
  intros Ha Hn Hend Hsrc Hs Hbs Hdirect. unfold spi_flash_write. destruct (Z.eqb_spec n 0) as [->|].
  { exists f. split; [done|]. apply slice_zlen in Hs. destruct bs; [apply programmed_nil|unfold zlen in Hs; cbn in Hs; lia]. }
  unfold chip_size, CONFIG_SPI_FLASH_SIZE in *. destruct (Z.eqb_spec src 0); [done|]. rewrite !u32_id by (unfold in_u32; dlia).
  destruct (Z.ltb_spec 0x100000 (a + n)) as [?|_]; [lia|]. destruct (check_run f) as (f0 & Hc & Hs0). erewrite bind_run by done. cbn [negb].
  unfold direct in Hdirect. unfold SPI_READ_BUF_MAX in Hjunk.
  assert (Hgo : ∀ g, (∃ f', g f0 = Some (ESP_OK, f') ∧ burnt a bs f0 f') → ∃ f', g f0 = Some (ESP_OK, f') ∧ burnt a bs f f')
    by (intros g (f' & ? & ?); exists f'; eauto using programmed_same_l).
  apply Hgo. clear Hgo f Hc Hs0. rename f0 into f. destruct (NOT_ALIGN a) eqn:Ea; cbn [orb negb] in *; rewrite NOT_ALIGN_spec in Ea.
  - destruct (Z.eqb_spec (a mod 4) 0); [done|]. clear Ea. rewrite FLASH_ALIGN_BEFORE_spec by lia. unfold FLASH_ALIGN_BYTES.
    replace (a - (a - a mod 4)) with (a mod 4) by lia. rewrite !(u32_id (a mod 4)) by (unfold in_u32; dlia).
    set (w := if n <? 4 - a mod 4 then n else 4 - a mod 4).
    assert (Hw : 0 < w <= 4 - a mod 4 ∧ w <= n ∧ (w < n → w = 4 - a mod 4)) by (subst w; destruct (Z.ltb_spec n (4 - a mod 4)); dlia). clearbody w.
    replace n with (w + (n - w)) in Hs by lia. destruct (slice_app data 0 w (n - w) bs ltac:(lia) ltac:(lia) Hs) as (b1 & b2 & -> & Hb1 & Hb2).
    rewrite Z.add_0_l in Hb2. apply Forall_app in Hbs as [H1 H2]. pose proof (slice_zlen _ _ _ _ Hb1) as L1. set (r := a - a mod 4) in *. set (c := a mod 4) in *.
    assert (Hr : 0 <= r ∧ r mod 4 = 0 ∧ r + c = a ∧ 0 < c < 4) by (unfold r, c; dlia). clearbody r c. rewrite !u32_id by (unfold in_u32; lia).
    destruct (cut junk 0 4) as (pre & old & post & Ej & Hpre & Hold); [lia..|]. destruct pre; [|unfold zlen in Hpre; cbn in Hpre; lia]. cbn [app] in Ej.
    replace (READ_WORD stack junk r 0 junk) with (READ_WORD stack junk r 0 (old ++ post)) by by rewrite <- Ej.
    rewrite (READ_WORD_run stack junk Hstack r 0 [] old post _ f ltac:(lia) ltac:(unfold chip_size, CONFIG_SPI_FLASH_SIZE; dlia) eq_refl Hold Hjunk : READ_WORD _ _ _ _ (old ++ _) _ _ = _).
    cbn [app]. replace (bytes f r 4) with (bytes f r (c + (w + (4 - c - w)))) by (f_equal; lia).
    rewrite (bytes_of_app _ f r c), (bytes_of_app _ f (r + c) w) by lia.
    rewrite <- !app_assoc, (memcpy_in_run data 0 w b1) by (done || rewrite bytes_of_length; lia).
    set (buf := bytes f r c ++ b1 ++ _). assert (Hbuf : zlen buf = 64).
    { unfold buf. rewrite !zlen_app, !bytes_of_length by lia. rewrite Ej, zlen_app in Hjunk. lia. }
    destruct (padded_run r c b1 (4 - c - w) post f (write_loop stack junk (copy_fuel n) (a + w) data w (n - w) buf)) as (f1 & Hp1 & Hr1);
      [lia..|rewrite L1; replace (c + w + (4 - c - w)) with 4 by lia; done|lia|unfold chip_size, CONFIG_SPI_FLASH_SIZE; dlia|done|].
    rewrite L1 in Hr1. replace (c + w + (4 - c - w)) with 4 in Hr1 by lia. fold buf in Hr1.
    destruct (write_loop_run stack junk Hstack Hjunk (copy_fuel n) (a + w) data w (n - w) buf b2 f1) as (f2 & Hr2 & Hp2);
      [lia|intros; replace (a + w) with (r + 4) by lia; dlia|lia|unfold chip_size, CONFIG_SPI_FLASH_SIZE; lia|lia|done|done|apply copy_fuel_enough; lia|done|].
    exists f2. split; [by rewrite <- Hr2, <- Hr1|]. replace (r + c) with a in Hp1 by lia. apply (programmed_app _ _ _ _ _ f1); [done|by rewrite L1].
  - destruct (Z.eqb_spec (a mod 4) 0) as [Ea4|]; [|done]. destruct (NOT_ALIGN src || NOT_ALIGN n || IS_FLASH src) eqn:Eb; cbn [negb] in Hdirect.
    + apply write_loop_run; first [done|apply copy_fuel_enough; lia].
    + rewrite !orb_false_iff, (NOT_ALIGN_spec n), negb_false_iff, Z.eqb_eq in Eb. destruct Eb as [[_ En] _].
      destruct (program_run a data n bs f) as (f' & Hr & Hp); [done..|split; [done|by apply Hdirect]|unfold chip_size, CONFIG_SPI_FLASH_SIZE; lia|done|done|].
      exists f'. split; [|done]. by rewrite (or_return_run _ _ f f').
Qed.
End WholeWrite.

(** ** Erasing *)

Section EraseRuns.
Context {F : Type} `{NorFlash F}.
Implicit Types f : F.
Abbreviation wiped := (erased byte_at).

Lemma erased_0 a f : wiped a 0 f f.
Proof. intros x. destruct (Z.leb_spec a x), (Z.ltb_spec x (a + 0)); try done; lia. Qed.
Lemma erased_app a n m f f1 f2 : 0 <= n → 0 <= m → wiped a n f f1 → wiped (a + n) m f1 f2 → wiped a (n + m) f f2.
Proof.
  intros Hn Hm H1 H2 x. rewrite H2, H1.
  destruct (Z.leb_spec a x), (Z.ltb_spec x (a + n)), (Z.leb_spec (a + n) x), (Z.ltb_spec x (a + n + m)), (Z.ltb_spec x (a + (n + m))); try done; lia.
Qed.
Lemma erased_same_l a n f f1 f2 : same_bytes byte_at f f1 → wiped a n f1 f2 → wiped a n f f2.
Proof. intros H1 H2 x. by rewrite H2, H1. Qed.

Lemma sectors : chip_size / sector_size = 256.
Proof. done. Qed.
Lemma erase_sector_run sec f : 0 <= sec < 256 → ∃ f', spi_flash_erase_sector sec f = Some (ESP_OK, f') ∧ wiped (sec * sector_size) sector_size f f'.
Proof.
  intros Hsec. unfold spi_flash_erase_sector. rewrite sectors. destruct (Z.leb_spec 256 sec); [lia|].
  destruct (check_run f) as (f1 & Hc & Hs1). erewrite bind_run by done. cbn [negb]. unfold spi_flash_erase_sector_raw, rom, bind, ret.
  destruct (SPI_write_enable_ok f1) as [E Hs2]. destruct (SPI_write_enable f1) as [rc f2]. cbn in E, Hs2. subst rc.
  change sector_size with 4096 in *. rewrite u32_id by (unfold in_u32; lia).
  destruct (SPI_sector_erase_ok (sec * 4096) f2) as [E Hw]; [lia|unfold chip_size, CONFIG_SPI_FLASH_SIZE; change sector_size with 4096; lia|apply Z.mod_mul; done|].
  destruct (SPI_sector_erase (sec * 4096) f2) as [rc f3]. cbn in E, Hw. subst rc. exists f3. split; [done|]. by eapply erased_same_l, erased_same_l.
Qed.
Lemma erase_loop_run fuel : ∀ sec num f, 0 <= sec → 1 <= num <= Z.of_nat fuel → sec + num <= 256 →
  ∃ f', erase_loop fuel sec num f = Some (ESP_OK, f') ∧ wiped (sec * sector_size) (num * sector_size) f f'.
Proof.
  induction fuel as [|fuel IH]; intros sec num f Hsec Hnum Hend; [lia|]. cbn [erase_loop].
  destruct (erase_sector_run sec f) as (f1 & Hr & Hw); [lia|]. erewrite bind_run by done. cbn [Z.eqb negb ESP_OK]. rewrite !u32_id by (unfold in_u32; lia).
  destruct (Z.eqb_spec (num - 1) 0).
  - exists f1. split; [done|]. by replace (num * sector_size) with sector_size by lia.
  - destruct (IH (sec + 1) (num - 1) f1) as (f2 & Hr2 & Hw2); [lia..|]. exists f2. split; [done|].
    replace (num * sector_size) with (sector_size + (num - 1) * sector_size) by lia. change sector_size with 4096 in *.
    apply (erased_app _ _ _ _ f1); [lia..|done|]. by replace (sec * 4096 + 4096) with ((sec + 1) * 4096) by lia.
Qed.
(** Too many sectors: all to the end of the chip, and a failure. *)
Lemma erase_loop_overrun fuel : ∀ sec num f, 0 <= sec <= 256 → 256 - sec < Z.of_nat fuel → 256 - sec <= u32 (num - 1) →
  ∃ f', erase_loop fuel sec num f = Some (ESP_ERR_FLASH_OP_FAIL, f') ∧ wiped (sec * sector_size) ((256 - sec) * sector_size) f f'.
Proof.
  induction fuel as [|fuel IH]; intros sec num f Hsec Hfuel Hnum; [lia|]. cbn [erase_loop]. destruct (decide (sec = 256)) as [->|].
  - exists f. split; [done|apply erased_0].
  - destruct (erase_sector_run sec f) as (f1 & Hr & Hw); [lia|]. erewrite bind_run by done. cbn [Z.eqb negb ESP_OK].
    pose proof (u32_range (num - 1)) as Hu. set (k := u32 (num - 1)) in *. clearbody k. destruct (Z.eqb_spec k 0); [lia|].
    rewrite u32_id by (unfold in_u32; lia). destruct (IH (sec + 1) k f1) as (f2 & Hr2 & Hw2); [lia..|rewrite u32_id by (unfold in_u32 in *; lia); lia|].
    exists f2. split; [done|]. replace ((256 - sec) * sector_size) with (sector_size + (256 - (sec + 1)) * sector_size) by lia.
    change sector_size with 4096 in *. apply (erased_app _ _ _ _ f1); [lia..|done|]. by replace (sec * 4096 + 4096) with ((sec + 1) * 4096) by lia.
Qed.
Lemma erase_range_run a n f : 0 <= a → 0 < n → a + n <= chip_size → a mod SPI_FLASH_SEC_SIZE = 0 → n mod SPI_FLASH_SEC_SIZE = 0 →
  ∃ f', spi_flash_erase_range a n f = Some (ESP_OK, f') ∧ wiped a n f f'.
Proof.
  intros Ha Hn Hend Ea En. unfold spi_flash_erase_range. rewrite Ea, En. cbn [Z.eqb negb orb].
  destruct (check_run f) as (f0 & Hc & Hs0). erewrite bind_run by done. cbn [negb]. unfold chip_size, CONFIG_SPI_FLASH_SIZE, SPI_FLASH_SEC_SIZE in *.
  destruct (erase_loop_run erase_fuel (a / 4096) (n / 4096) f0) as (f1 & Hr & Hw); [dlia|change (Z.of_nat erase_fuel) with 257; dlia|dlia|].
  change sector_size with 4096 in Hw. exists f1. split; [done|]. apply (erased_same_l _ _ _ f0); [done|].
  replace (a / 4096 * 4096) with a in Hw by dlia. by replace (n / 4096 * 4096) with n in Hw by dlia.
Qed.
(** A request to erase no bytes: the counter of sectors starts below zero. *)
Lemma erase_nothing_run a f : 0 <= a <= chip_size → a mod SPI_FLASH_SEC_SIZE = 0 →
  ∃ f', spi_flash_erase_range a 0 f = Some (ESP_ERR_FLASH_OP_FAIL, f') ∧ wiped a (chip_size - a) f f'.
Proof.
  intros Ha Hsec. unfold spi_flash_erase_range. rewrite Hsec. cbn [Z.eqb negb orb]. change (0 mod SPI_FLASH_SEC_SIZE =? 0) with true. cbn [negb].
  destruct (check_run f) as (f0 & Hc & Hs0). erewrite bind_run by done. cbn [negb]. unfold chip_size, CONFIG_SPI_FLASH_SIZE, SPI_FLASH_SEC_SIZE in *.
  destruct (erase_loop_overrun erase_fuel (a / 4096) (0 / 4096) f0) as (f1 & Hr & Hw);
    [dlia|change (Z.of_nat erase_fuel) with 257; dlia|change (u32 (0 / 4096 - 1)) with (2 ^ 32 - 1); dlia|].
  exists f1. split; [done|]. apply (erased_same_l _ _ _ f0); [done|]. change sector_size with 4096 in Hw. replace (a / 4096 * 4096) with a in Hw by dlia.
  by replace (0x100000 - a) with ((256 - a / 4096) * 4096) by dlia.
Qed.
End EraseRuns.

(** ** A chip

    Cells with the behaviour of the data sheet: what the ROM refuses changes
    nothing. *)
Definition cells : Type := Z → Z.
Definition cell (f : cells) (a : Z) : Z := u8 (f a).
Definition page_ok (a n : Z) : bool := (0 <=? a) && (a mod page_size + n <=? page_size) && (a + n <=? chip_size).
#[global] Instance cells_chip : FlashChip cells := {|
  SPI_read_data a n f := (ESP_OK, bytes_of cell f a n);
  SPI_page_program a bs f := if page_ok a (zlen bs) then (ESP_OK, λ x, match rd bs (x - a) with Some b => Z.land (f x) b | None => f x end) else (1, f);
  SPI_write_enable f := (ESP_OK, f);
  SPI_sector_erase a f := (ESP_OK, λ x, if (a <=? x) && (x <? a + sector_size) then 0xff else f x);
  spi_flash_get_id _ := 0x1640ef; en25q16x_read_sfdp _ := 0;
  spi_flash_read_status _ := (ESP_OK, 0); special_flash_read_status _ _ := 0;
  special_flash_write_status _ _ f := f; spi_flash_write_status _ f := f |}.

Lemma land_u8 x b : in_u8 b → u8 (Z.land x b) = Z.land (u8 x) b.
Proof.
  intros Hb. rewrite <- !land_255_u8. rewrite (Z.land_comm x), <- Z.land_assoc. by rewrite Z.land_comm.
Qed.
#[global] Instance cells_nor : NorFlash cells.
Proof.
  refine {| byte_at := cell |}.
  - intros. apply u8_range.
  - done.
  - intros a bs f Ha Hend _ _ Hpage Hbs. cbn. unfold page_ok.
    destruct (Z.leb_spec 0 a), (Z.leb_spec (a mod page_size + zlen bs) page_size), (Z.leb_spec (a + zlen bs) chip_size); try lia. cbn. split; [done|].
    intros x. unfold cell. destruct (rd bs (x - a)) as [b|] eqn:E; [|done]. by apply land_u8, (rd_Forall in_u8 bs _ _ Hbs E).
  - done.
  - intros a f _ _ _. split; [done|]. intros x. unfold cell. cbn. by destruct (_ && _).
  - done.
Defined.

Definition blank_chip : cells := λ _, 0x5a.
Definition demo_junk : list Z := replicate 64 0.

(** ** What the driver does *)

(** C33: What is stored can be read: after a range of sectors is erased, data
    written anywhere in it - at any address, of any length, from any place - are
    read back from there as they are, to any place, and no byte outside the
    range has changed. A write from memory with nothing to align must be
    shorter than 64 KiB. *)
Theorem flash_store_roundtrip {F : Type} `{NorFlash F} (stack : Z) (junk : list Z) (a n dest src dest' : Z) (data : list Z) (f : F)
  (Hstack : 0 < stack) (Hjunk : zlen junk = SPI_READ_BUF_MAX) (Ha : 0 <= a) (Hn : 0 < n) (Hend : a + n <= chip_size)
  (Hsec : a mod SPI_FLASH_SEC_SIZE = 0) (Hsize : n mod SPI_FLASH_SEC_SIZE = 0) (Hdest : a <= dest) (Hfit : dest + zlen data <= a + n)
  (Hsrc : src ≠ 0) (Hdest' : dest' ≠ 0) (Hdata : Forall in_u8 data) (Hdirect : direct dest src (zlen data) = true → zlen data < 2 ^ 16) :
  ∃ f', (let! erase := spi_flash_erase_range a n in
         let! write := spi_flash_write stack junk dest src data (zlen data) in
         let! (read, bytes) := spi_flash_read junk dest dest' (zlen data) in
         ret (erase, write, read, bytes)) f = Some ((ESP_OK, ESP_OK, ESP_OK, data), f') ∧
    ∀ x, x < a ∨ a + n <= x → byte_at f' x = byte_at f x.
Proof.
  pose proof (zlen_nonneg data). destruct (erase_range_run a n f) as (f1 & He & Hw); [done..|]. erewrite bind_run by done.
  destruct (spi_flash_write_run stack junk Hstack Hjunk dest src data (zlen data) data f1) as (f2 & Hr & Hp); [lia|lia|lia|done|by apply slice_all|done|done|].
  erewrite bind_run by done. erewrite bind_run by (apply spi_flash_read_run; [lia|lia|lia|done|done]).
  exists f2. split.
  - unfold ret. do 4 f_equal. apply (programmed_erased _ _ _ f1); [done| |done]. intros x Hx. rewrite Hw.
    destruct (Z.leb_spec a x), (Z.ltb_spec x (a + n)); try lia. done.
  - intros x Hx. rewrite (programmed_outside _ dest data f1 f2 x) by (done || lia). rewrite Hw.
    destruct (Z.leb_spec a x), (Z.ltb_spec x (a + n)); try lia; done.
Qed.

(** C40: The counter of pages has eight bits: a program of 256 whole pages or more
    never comes to its end, however many rounds it runs - if the loop is left
    at all, a page has failed. *)
Theorem many_pages_never_end {F : Type} `{FlashChip F} (fuel : nat) (i num target n : Z) (src : list Z) (f f' : F) (r : option Z)
  (Hi : in_u8 i) (Hnum : 256 <= num) (Hr : program_loop fuel i num target src n f = Some (r, f')) : r = None.
Proof.
  revert i n f Hi Hr. induction fuel as [|fuel IH]; intros i n f Hi; [done|]. cbn [program_loop].
  unfold in_u8 in Hi. destruct (Z.ltb_spec i num); [|lia].
  intros (page & f1 & _ & (rc & f2 & _ & Hk)%bind_Some_inv)%bind_Some_inv.
  destruct (negb (rc =? ESP_OK)); [by injection Hk|]. eapply IH; [|done]. apply u8_range.
Qed.

Lemma flash_store_roundtrip_witness :
  ∃ f', (let! erase := spi_flash_erase_range 4096 8192 in
         let! write := spi_flash_write 1 demo_junk 8190 0x3fff0001 [1; 2; 3; 4; 255] 5 in
         let! (read, bytes) := spi_flash_read demo_junk 8190 0x3fff0103 5 in
         ret (erase, write, read, bytes)) blank_chip = Some ((ESP_OK, ESP_OK, ESP_OK, [1; 2; 3; 4; 255]), f') ∧
    ∀ x, x < 4096 ∨ 4096 + 8192 <= x → byte_at f' x = byte_at blank_chip x.
Proof.
  apply (flash_store_roundtrip 1 demo_junk 4096 8192 8190 0x3fff0001 0x3fff0103 [1; 2; 3; 4; 255] blank_chip);
    [lia|reflexivity|lia|lia|discriminate|reflexivity|reflexivity|lia|discriminate|discriminate|discriminate| |reflexivity].
  repeat constructor; discriminate.
Defined.

(** A program of 300 pages over the end of the chip: nine pages are written, and
    the one behind the end is refused. *)
Definition refused_write : M cells (option Z) := program_loop 300 0 300 (chip_size - 10 * 256) (replicate (Z.to_nat (11 * 256)) 0) 256.
Lemma many_pages_never_end_witness : fst <$> refused_write blank_chip = Some None ∧ (∀ r f'', refused_write blank_chip = Some (r, f'') → r = None).
Proof.
  split; [vm_compute; reflexivity|]. intros r f''. unfold refused_write. intros Hr.
  refine (many_pages_never_end _ _ _ _ _ _ _ _ _ _ _ Hr); [by split|lia].
Defined.

End SpiFlash.
