(* ===== verification/Partition.v ===== *)
(** The partitions of the flash: [components/spi_flash/src/partition.c] over
    the driver of [SpiFlash.v].

    The table is read from the flash at the first search and kept as a list;
    reads, writes and erasures go through the bounds of a partition, and what
    they touch lies in it ([partition_write_contained]). *)
From S2P Require Import Prelude Cjson Misc SpiFlash.

Module Partition.
Import Cstring SpiFlash.

Definition ESP_ERR_NO_MEM : Z := 0x101.
Definition ESP_ERR_INVALID_ARG : Z := 0x102.
Definition ESP_ERR_INVALID_SIZE : Z := 0x104.

Definition ESP_PARTITION_TYPE_APP : Z := 0x00.
Definition ESP_PARTITION_TYPE_DATA : Z := 0x01.
Definition ESP_PARTITION_SUBTYPE_ANY : Z := 0xff.

(** [CONFIG_PARTITION_TABLE_OFFSET] is of [app/sdkconfig]. *)
Definition ESP_PARTITION_TABLE_ADDR : Z := 0x8000.
Definition ESP_PARTITION_MAGIC : Z := 0x50AA.

(** ** The table in the flash *)

Record esp_partition_pos_t := mkPos { pos_offset : Z; pos_size : Z }.
Record esp_partition_info_t := mkInfo { i_magic : Z; i_type : Z; i_subtype : Z; i_pos : esp_partition_pos_t; i_label : list Z; i_flags : Z }.

(** A little-endian integer in memory. *)
Definition le (bs : list Z) : Z := foldr (λ b acc, b + 256 * acc) 0 bs.
Definition field (bs : list Z) (off n : Z) : option Z := w ← slice bs off n; Some (le w).
(** The structure at [off]: 32 bytes. *)
Definition info_at (bs : list Z) (off : Z) : option esp_partition_info_t :=
  magic ← field bs off 2; type ← field bs (off + 2) 1; subtype ← field bs (off + 3) 1;
  offset ← field bs (off + 4) 4; size ← field bs (off + 8) 4; label ← slice bs (off + 12) 16; flags ← field bs (off + 28) 4;
  Some (mkInfo magic type subtype (mkPos offset size) label flags).
Definition info_size : Z := 32.

(** ** The list of partitions *)

Record esp_partition_t := mkPart { p_type : Z; p_subtype : Z; p_address : Z; p_size : Z; p_label : list Z }.

(** The flash and the global list; a pointer to an item of the list is its
    index. *)
Record parts (F : Type) := mkParts { flash : F; s_partition_list : list esp_partition_t }.
Arguments mkParts {F} _ _.
Arguments flash {F} _.
Arguments s_partition_list {F} _.

Section Partitions.
Context {F : Type} `{!FlashChip F}.
Variables (stack : Z) (junk : list Z).

Definition on_flash {A} (m : M F A) : M (parts F) A := zoom flash (λ f s, mkParts f (s_partition_list s)) m.

Definition make_item (it : esp_partition_info_t) : option esp_partition_t :=
  l ← strncpy_bytes 16 (i_label it);
  Some (mkPart (i_type it) (i_subtype it) (pos_offset (i_pos it)) (pos_size (i_pos it)) (l ++ [0])).
(** The entries up to the first without the magic number, [n] at most. *)
Fixpoint read_items (n : nat) (table : list Z) (off : Z) : option (list esp_partition_t) :=
  match n with
  | O => Some []
  | S n =>
      it ← info_at table off;
      if negb (i_magic it =? ESP_PARTITION_MAGIC) then Some [] else
      item ← make_item it; items ← read_items n table (off + info_size); Some (item :: items)
  end.
(** [ptr] is the answer of [malloc]. *)
Definition load_partitions (ptr : Z) : M (parts F) Z :=
  if ptr =? 0 then ret ESP_ERR_NO_MEM else
  let! (ret_, table) := on_flash (spi_flash_read junk ESP_PARTITION_TABLE_ADDR ptr SPI_FLASH_SEC_SIZE) in
  if negb (ret_ =? ESP_OK) then ret ret_ else
  let! items := lift (read_items (Z.to_nat (SPI_FLASH_SEC_SIZE / info_size)) table 0) in
  modify (λ s, mkParts (flash s) (s_partition_list s ++ items)) ;;; ret ESP_OK.

(** ** Searching *)

(** [esp_partition_iterator_opaque_t]; [next_item] is an index, that of the end
    for a null pointer. *)
Record iterator := mkIter { it_type : Z; it_subtype : Z; it_label : option (list Z); it_next_item : nat; it_info : option nat }.

Definition iterator_create (type subtype : Z) (label : option (list Z)) : iterator := mkIter type subtype label 0 None.
Definition it_matches (it : iterator) (p : esp_partition_t) : option bool :=
  if negb (it_type it =? p_type p) then Some false else
  if negb (it_subtype it =? 0xff) && negb (it_subtype it =? p_subtype p) then Some false else
  match it_label it with None => Some true | Some l => strcmp_eq (p_label p) l end.
Fixpoint scan (it : iterator) (i : nat) (ps : list esp_partition_t) : option (option nat) :=
  match ps with
  | [] => Some None
  | p :: ps => m ← it_matches it p; if (m : bool) then Some (Some i) else scan it (S i) ps
  end.
(** A null pointer when there is no more. *)
Definition esp_partition_next (it : iterator) : M (parts F) (option iterator) :=
  let! l := get s_partition_list in
  let! found := lift (scan it (it_next_item it) (drop (it_next_item it) l)) in
  ret (i ← found; Some (mkIter (it_type it) (it_subtype it) (it_label it) (S i) (Some i))).
Definition esp_partition_find (ptr type subtype : Z) (label : option (list Z)) : M (parts F) (option iterator) :=
  let! l := get s_partition_list in
  let! err := match l with [] => load_partitions ptr | _ => ret ESP_OK end in
  if negb (err =? ESP_OK) then ret None else esp_partition_next (iterator_create type subtype label).
Definition esp_partition_get (it : option iterator) : option nat := it ← it; it_info it.
Definition esp_partition_find_first (ptr type subtype : Z) (label : option (list Z)) : M (parts F) (option nat) :=
  let! it := esp_partition_find ptr type subtype label in
  match it with None => ret None | Some it => let! p := lift (it_info it) in ret (Some p) end.

(** The item at a pointer into the list. *)
Definition item (i : nat) : M (parts F) esp_partition_t := let! l := get s_partition_list in lift (l !! i).

Fixpoint verify_loop (fuel : nat) (partition : esp_partition_t) (it : option iterator) : M (parts F) (option nat) :=
  match fuel with
  | O => fault
  | S fuel =>
      match it with
      | None => ret None
      | Some it =>
          let! i := lift (it_info it) in let! p := item i in
          if (p_address p =? p_address partition) && (p_size partition =? p_size p) then ret (Some i) else
          let! it := esp_partition_next it in verify_loop fuel partition it
      end
  end.
(** A round for every item and one more. *)
Definition esp_partition_verify (ptr : Z) (partition : esp_partition_t) : M (parts F) (option nat) :=
  let! text := lift (c_string (p_label partition)) in
  let label := match text with [] => None | _ => Some text end in
  let! it := esp_partition_find ptr (p_type partition) (p_subtype partition) label in
  let! l := get s_partition_list in
  verify_loop (length l + 1) partition it.

(** ** Access *)

Definition esp_partition_read (partition : esp_partition_t) (src_offset dst size : Z) : M (parts F) (Z * list Z) :=
  if p_size partition <? src_offset then ret (ESP_ERR_INVALID_ARG, []) else
  if p_size partition <? u32 (src_offset + size) then ret (ESP_ERR_INVALID_SIZE, []) else
  on_flash (spi_flash_read junk (u32 (p_address partition + src_offset)) dst size).
Definition esp_partition_write (partition : esp_partition_t) (dst_offset src : Z) (data : list Z) (size : Z) : M (parts F) Z :=
  if p_size partition <? dst_offset then ret ESP_ERR_INVALID_ARG else
  if p_size partition <? u32 (dst_offset + size) then ret ESP_ERR_INVALID_SIZE else
  on_flash (spi_flash_write stack junk (u32 (p_address partition + dst_offset)) src data size).
Definition esp_partition_erase_range (partition : esp_partition_t) (start_addr size : Z) : M (parts F) Z :=
  if p_size partition <? start_addr then ret ESP_ERR_INVALID_ARG else
  if p_size partition <? u32 (start_addr + size) then ret ESP_ERR_INVALID_SIZE else
  if negb (size mod SPI_FLASH_SEC_SIZE =? 0) then ret ESP_ERR_INVALID_SIZE else
  if negb (start_addr mod SPI_FLASH_SEC_SIZE =? 0) then ret ESP_ERR_INVALID_ARG else
  on_flash (spi_flash_erase_range (u32 (p_address partition + start_addr)) size).
End Partitions.

(** ** Searching finds the first *)

Section Search.
Context {F : Type} `{!FlashChip F} (junk : list Z).
Implicit Types s : parts F.

(** The partition of a type and subtype, the first in the list. *)
Definition of_kind (type subtype : Z) (p : esp_partition_t) : Prop := p_type p = type ∧ p_subtype p = subtype.
#[global] Instance of_kind_dec type subtype p : Decision (of_kind type subtype p).
Proof. unfold of_kind. apply _. Defined.

Lemma matches_kind type subtype p : subtype ≠ 0xff → it_matches (iterator_create type subtype None) p = Some (bool_decide (of_kind type subtype p)).
Proof.
  intros Hany. unfold it_matches, iterator_create, of_kind. cbn. destruct (Z.eqb_spec subtype 0xff) as [|_]; [done|].
  destruct (Z.eqb_spec type (p_type p)), (Z.eqb_spec subtype (p_subtype p)); cbn; f_equal; symmetry;
    (apply bool_decide_eq_true_2; split; congruence) || (apply bool_decide_eq_false_2; intros [? ?]; congruence).
Qed.
Lemma scan_kind type subtype ps : subtype ≠ 0xff → ∀ i,
  scan (iterator_create type subtype None) i ps = Some ((λ x, (i + x.1)%nat) <$> list_find (of_kind type subtype) ps).
Proof.
  intros Hany. induction ps as [|p ps IH]; intros i; [done|]. cbn [scan list_find]. rewrite matches_kind by done. cbn [mbind option_bind].
  destruct (decide (of_kind type subtype p)) as [Hk|Hk].
  - rewrite bool_decide_eq_true_2 by done. cbn. by rewrite Nat.add_0_r.
  - rewrite bool_decide_eq_false_2, IH by done. destruct (list_find _ ps) as [[j q]|]; [|done]. cbn. do 2 f_equal. lia.
Qed.
Lemma find_first_run ptr type subtype s : subtype ≠ 0xff → s_partition_list s ≠ [] →
  esp_partition_find_first junk ptr type subtype None s = Some (fst <$> list_find (of_kind type subtype) (s_partition_list s), s).
Proof.
  intros Hany Hl. unfold esp_partition_find_first, esp_partition_find, esp_partition_next, bind, get, lift.
  destruct (s_partition_list s) as [|p0 ps] eqn:El; [done|]. cbn [ret negb Z.eqb ESP_OK it_next_item iterator_create drop].
  unfold ret at 1. cbn [negb Z.eqb ESP_OK]. rewrite El. rewrite scan_kind by done. cbn [mbind option_bind].
  destruct (list_find _ _) as [[j q]|]; done.
Qed.

Lemma first_of_kind type subtype l i p : list_find (of_kind type subtype) l = Some (i, p) → l !! i = Some p ∧ of_kind type subtype p.
Proof. intros E. apply list_find_Some in E. tauto. Qed.
End Search.

(** ** Access stays inside *)

Section Access.
Context {F : Type} `{NorFlash F} (stack : Z) (junk : list Z).
Hypothesis Hstack : 0 < stack.
Hypothesis Hjunk : zlen junk = SPI_READ_BUF_MAX.
Implicit Types s : parts F.

(** A partition of whole sectors on the chip. *)
Definition on_chip (p : esp_partition_t) : Prop :=
  0 <= p_address p ∧ 0 <= p_size p ∧ p_address p + p_size p <= chip_size ∧ p_address p mod SPI_FLASH_SEC_SIZE = 0.

Lemma on_flash_run {A} (m : M F A) s a f' : m (flash s) = Some (a, f') → on_flash m s = Some (a, mkParts f' (s_partition_list s)).
Proof. intros Hm. unfold on_flash. by erewrite zoom_run. Qed.

Lemma partition_read_run p off dst n s : on_chip p → 0 <= off → 0 <= n → off + n <= p_size p → dst ≠ 0 →
  esp_partition_read junk p off dst n s = Some ((ESP_OK, bytes_of byte_at (flash s) (p_address p + off) n), s).
Proof.
  unfold on_chip, chip_size, CONFIG_SPI_FLASH_SIZE. intros Hp ? ? Hfit Hdst. unfold esp_partition_read. rewrite !u32_id by (unfold in_u32; lia).
  destruct (Z.ltb_spec (p_size p) off), (Z.ltb_spec (p_size p) (off + n)); try lia.
  erewrite on_flash_run; [|apply spi_flash_read_run; [lia|lia|unfold chip_size, CONFIG_SPI_FLASH_SIZE; lia|done|done]]. by destruct s.
Qed.
Lemma partition_write_run p off src data n bs s : on_chip p → 0 <= off → 0 <= n < 2 ^ 16 → off + n <= p_size p → src ≠ 0 →
  slice data 0 n = Some bs → Forall in_u8 bs →
  ∃ f', esp_partition_write stack junk p off src data n s = Some (ESP_OK, mkParts f' (s_partition_list s)) ∧
    programmed byte_at (p_address p + off) bs (flash s) f'.
Proof.
  unfold on_chip, chip_size, CONFIG_SPI_FLASH_SIZE. intros Hp Hoff Hn Hfit Hsrc Hs Hbs. unfold esp_partition_write. rewrite !u32_id by (unfold in_u32; lia).
  destruct (Z.ltb_spec (p_size p) off), (Z.ltb_spec (p_size p) (off + n)); try lia.
  destruct (spi_flash_write_run stack junk Hstack Hjunk (p_address p + off) src data n bs (flash s)) as (f' & Hr & Hp');
    [lia|lia|unfold chip_size, CONFIG_SPI_FLASH_SIZE; lia|done|done|done|lia|].
  exists f'. split; [|done]. by apply on_flash_run.
Qed.
Lemma partition_erase_run p off n s : on_chip p → 0 <= off → 0 < n → off + n <= p_size p → off mod SPI_FLASH_SEC_SIZE = 0 → n mod SPI_FLASH_SEC_SIZE = 0 →
  ∃ f', esp_partition_erase_range p off n s = Some (ESP_OK, mkParts f' (s_partition_list s)) ∧ erased byte_at (p_address p + off) n (flash s) f'.
Proof.
  unfold on_chip, chip_size, CONFIG_SPI_FLASH_SIZE. intros Hp Hoff Hn Hfit Eo En. unfold esp_partition_erase_range. rewrite !u32_id by (unfold in_u32; lia).
  destruct (Z.ltb_spec (p_size p) off), (Z.ltb_spec (p_size p) (off + n)); try lia. rewrite Eo, En. cbn [Z.eqb negb].
  destruct (erase_range_run (p_address p + off) n (flash s)) as (f' & Hr & Hw);
    [lia|lia|unfold chip_size, CONFIG_SPI_FLASH_SIZE; lia|unfold SPI_FLASH_SEC_SIZE in *; dlia|done|].
  exists f'. split; [|done]. by apply on_flash_run.
Qed.

(** What lies outside the partition is as it was. *)
Definition contained (p : esp_partition_t) (f f' : F) : Prop :=
  ∀ x, x < p_address p ∨ p_address p + p_size p <= x → byte_at f' x = byte_at f x.
End Access.

(** C34: A write of less than 64 KiB through a partition stays in it: at any
    offset that a [size_t] holds - one so far out that the end of the write
    wraps around included, where the flash would be written in front of the
    partition - it returns, it succeeds exactly if it ends within the partition,
    then the bytes there are the old ones with the data programmed, and no byte
    outside the partition changes in any case. *)
Theorem partition_write_contained {F : Type} `{NorFlash F} (stack : Z) (junk : list Z) (p : esp_partition_t) (off src : Z) (data : list Z) (s : parts F)
  (Hstack : 0 < stack) (Hjunk : zlen junk = SPI_READ_BUF_MAX) (Hp : on_chip p) (Hoff : in_u32 off) (Hlen : zlen data < 2 ^ 16)
  (Hsrc : src ≠ 0) (Hdata : Forall in_u8 data) :
  ∃ r s', esp_partition_write stack junk p off src data (zlen data) s = Some (r, s') ∧ s_partition_list s' = s_partition_list s ∧
    contained p (flash s) (flash s') ∧ (r = ESP_OK ↔ off + zlen data <= p_size p) ∧
    (r = ESP_OK → programmed byte_at (p_address p + off) data (flash s) (flash s')).
Proof.
  pose proof (zlen_nonneg data). unfold in_u32 in Hoff. pose proof Hp as (Hbase & _ & Hchip & _). unfold chip_size, CONFIG_SPI_FLASH_SIZE in Hchip.
  destruct (decide (off + zlen data <= p_size p)) as [Hfit|Hfit].
  - destruct (partition_write_run stack junk Hstack Hjunk p off src data (zlen data) data s) as (f' & Hr & Hp'); [done|lia|lia|done|done|by apply slice_all|done|].
    eexists _, _. split; [done|]. cbn. split_and!; [done| |done|done]. intros x Hx. apply (programmed_outside _ _ _ _ _ _ Hp'). lia.
  - unfold esp_partition_write. destruct (Z.ltb_spec (p_size p) off) as [|Hin];
      [|rewrite (u32_id (off + zlen data)) by (unfold in_u32; lia); destruct (Z.ltb_spec (p_size p) (off + zlen data)); [|lia]];
      (eexists _, s; split; [done|]; split_and!; [done|by intros x|by split; [|intros]|done]).
Qed.

(** C36: To erase no bytes of a partition erases everything behind them: the
    request passes the checks, the driver erases to the end of the chip,
    whatever partitions are there, and reports a failure. *)
Theorem partition_erase_nothing {F : Type} `{NorFlash F} (p : esp_partition_t) (off : Z) (s : parts F)
  (Hp : on_chip p) (Hoff : 0 <= off <= p_size p) (Hsec : off mod SPI_FLASH_SEC_SIZE = 0) :
  ∃ f', esp_partition_erase_range p off 0 s = Some (ESP_ERR_FLASH_OP_FAIL, mkParts f' (s_partition_list s)) ∧
    erased byte_at (p_address p + off) (chip_size - (p_address p + off)) (flash s) f'.
Proof.
  unfold on_chip, chip_size, CONFIG_SPI_FLASH_SIZE in *. unfold esp_partition_erase_range. rewrite Z.add_0_r, !u32_id by (unfold in_u32; lia).
  destruct (Z.ltb_spec (p_size p) off); [lia|]. rewrite Hsec. cbn [Z.eqb negb]. change (0 mod SPI_FLASH_SEC_SIZE =? 0) with true. cbn [negb].
  destruct (erase_nothing_run (p_address p + off) (flash s)) as (f' & Hr & Hw);
    [unfold chip_size, CONFIG_SPI_FLASH_SIZE; lia|unfold SPI_FLASH_SEC_SIZE in *; dlia|]. exists f'. split; [by apply on_flash_run|done].
Qed.

Definition demo_partition : esp_partition_t := mkPart 1 2 0x9000 0x6000 [110; 118; 115; 0].
Definition demo_parts : parts cells := mkParts blank_chip [demo_partition].
Lemma demo_on_chip : on_chip demo_partition.
Proof. by split_and!. Qed.

(** At the last byte, and 16 bytes in front of the partition. *)
Lemma partition_write_contained_witness :
  (∃ r s', esp_partition_write 1 demo_junk demo_partition 0x5fff 0x3fff0001 [7] 1 demo_parts = Some (r, s') ∧ s_partition_list s' = [demo_partition] ∧
    contained demo_partition blank_chip (flash s') ∧ (r = ESP_OK ↔ 0x5fff + 1 <= 0x6000) ∧
    (r = ESP_OK → programmed byte_at (0x9000 + 0x5fff) [7] blank_chip (flash s'))) ∧
  (∃ r s', esp_partition_write 1 demo_junk demo_partition 0xfffffff0 0x3fff0001 (replicate 16 7) 16 demo_parts = Some (r, s') ∧ s_partition_list s' = [demo_partition] ∧
    contained demo_partition blank_chip (flash s') ∧ (r = ESP_OK ↔ 0xfffffff0 + 16 <= 0x6000) ∧
    (r = ESP_OK → programmed byte_at (0x9000 + 0xfffffff0) (replicate 16 7) blank_chip (flash s'))).
Proof.
  split.
  - apply (partition_write_contained 1 demo_junk demo_partition 0x5fff 0x3fff0001 [7] demo_parts);
      [lia|reflexivity|exact demo_on_chip|by split|reflexivity|discriminate|]. repeat constructor; discriminate.
  - apply (partition_write_contained 1 demo_junk demo_partition 0xfffffff0 0x3fff0001 (replicate 16 7) demo_parts);
      [lia|reflexivity|exact demo_on_chip|by split|reflexivity|discriminate|]. repeat constructor; discriminate.
Defined.

Lemma partition_erase_nothing_witness :
  ∃ f', esp_partition_erase_range demo_partition 0x1000 0 demo_parts = Some (ESP_ERR_FLASH_OP_FAIL, mkParts f' [demo_partition]) ∧
    erased byte_at 0xa000 (chip_size - 0xa000) blank_chip f'.
Proof. apply (partition_erase_nothing demo_partition 0x1000 demo_parts); [exact demo_on_chip|split; discriminate|reflexivity]. Defined.

End Partition.
