(* ===== verification/Sha256.v ===== *)
(** The SHA-256 of the boot loader: [bootloader_sha.c] of
    [components/bootloader_support], the part for the boot loader's own build.

    Module [Fips] has the hash of the standard (FIPS 180-4); module [Sha256] the
    code, which takes a message in pieces. Whatever the pieces, the digest is
    the hash of the message ([digest_of_pieces]). *)
From S2P Require Import Prelude.

(** * The standard *)
Module Fips.

(** Section 3.2 and 4.1.2, on words of 32 bits. *)
Definition shr (n x : Z) : Z := Z.shiftr x n.
Definition rotr (n x : Z) : Z := Z.lor (Z.shiftr x n) (u32 (Z.shiftl x (32 - n))).
Definition Ch (x y z : Z) : Z := Z.lxor (Z.land x y) (Z.land (Z.lnot x) z).
Definition Maj (x y z : Z) : Z := Z.lxor (Z.lxor (Z.land x y) (Z.land x z)) (Z.land y z).
Definition Sigma0 (x : Z) : Z := Z.lxor (Z.lxor (rotr 2 x) (rotr 13 x)) (rotr 22 x).
Definition Sigma1 (x : Z) : Z := Z.lxor (Z.lxor (rotr 6 x) (rotr 11 x)) (rotr 25 x).
Definition sigma0 (x : Z) : Z := Z.lxor (Z.lxor (rotr 7 x) (rotr 18 x)) (shr 3 x).
Definition sigma1 (x : Z) : Z := Z.lxor (Z.lxor (rotr 17 x) (rotr 19 x)) (shr 10 x).

(** Big-endian words. *)
Definition word (b0 b1 b2 b3 : Z) : Z := ((b0 * 256 + b1) * 256 + b2) * 256 + b3.
Fixpoint words (bs : list Z) : list Z :=
  match bs with b0 :: b1 :: b2 :: b3 :: bs => word b0 b1 b2 b3 :: words bs | _ => [] end.
Definition bytes_of_word (w : Z) : list Z := [u8 (Z.shiftr w 24); u8 (Z.shiftr w 16); u8 (Z.shiftr w 8); u8 w].

(** The message schedule (6.2.2, step 1): each further word from the sixteen
    before it. *)
Definition next_word (ws : list Z) : Z :=
  let t := length ws in
  u32 (sigma1 (nth (t - 2) ws 0) + nth (t - 7) ws 0 + sigma0 (nth (t - 15) ws 0) + nth (t - 16) ws 0).
Definition extend (ws : list Z) : list Z := ws ++ [next_word ws].
Definition schedule (block : list Z) : list Z := Nat.iter 48 extend (words block).

(** Step 3: the eight registers through a round. *)
Definition regs : Type := Z * Z * Z * Z * Z * Z * Z * Z.
Definition round (r : regs) (kw : Z * Z) : regs :=
  let '(a, b, c, d, e, f, g, h) := r in
  let T1 := u32 (h + Sigma1 e + Ch e f g + kw.1 + kw.2) in
  let T2 := u32 (Sigma0 a + Maj a b c) in
  (u32 (T1 + T2), a, b, c, u32 (d + T1), e, f, g).
Definition add (r s : regs) : regs :=
  let '(a, b, c, d, e, f, g, h) := r in
  let '(a', b', c', d', e', f', g', h') := s in
  (u32 (a + a'), u32 (b + b'), u32 (c + c'), u32 (d + d'), u32 (e + e'), u32 (f + f'), u32 (g + g'), u32 (h + h')).

(** Sections 4.2.2 and 5.3.3: the first 32 bits of the fractional parts of the
    cube roots of the first 64 primes, and of the square roots of the first
    eight. *)
Definition primes : list Z :=
  [2; 3; 5; 7; 11; 13; 17; 19; 23; 29; 31; 37; 41; 43; 47; 53;
   59; 61; 67; 71; 73; 79; 83; 89; 97; 101; 103; 107; 109; 113; 127; 131;
   137; 139; 149; 151; 157; 163; 167; 173; 179; 181; 191; 193; 197; 199; 211; 223;
   227; 229; 233; 239; 241; 251; 257; 263; 269; 271; 277; 281; 283; 293; 307; 311].
Definition cube_root (n : Z) : Z := foldr (λ (i : nat) r, let r' := r + 2 ^ Z.of_nat i in if r' ^ 3 <=? n then r' else r) 0 (seq 0 36).
Definition constants : list Z := (λ p, u32 (cube_root (p * 2 ^ 96))) <$> primes.
Definition root (p : Z) : Z := u32 (Z.sqrt (p * 2 ^ 64)).
Definition H0 : regs := (root 2, root 3, root 5, root 7, root 11, root 13, root 17, root 19).

Definition compress (h : regs) (block : list Z) : regs := add h (foldl round h (zip constants (schedule block))).

(** The blocks of 64 bytes of a message, and what is left. *)
Fixpoint absorb (fuel : nat) (h : regs) (m : list Z) : regs * list Z :=
  match fuel with
  | O => (h, m)
  | S fuel => if (length m <? 64)%nat then (h, m) else absorb fuel (compress h (take 64 m)) (drop 64 m)
  end.

(** Section 5.1.1: a one bit, zeros to 56 modulo 64, the length in bits. *)
Definition zeros (n : Z) : nat := Z.to_nat ((55 - n) mod 64).
Definition be64 (n : Z) : list Z := bytes_of_word (u32 (Z.shiftr n 32)) ++ bytes_of_word (u32 n).
Definition pad (m : list Z) : list Z := m ++ 0x80 :: replicate (zeros (zlen m)) 0 ++ be64 (8 * zlen m).

Definition digest (h : regs) : list Z :=
  let '(a, b, c, d, e, f, g, h) := h in concat (bytes_of_word <$> [a; b; c; d; e; f; g; h]).
Definition sha256 (m : list Z) : list Z := digest (absorb (length (pad m)) H0 (pad m)).1.

(** The example of the standard. *)
Example sha256_abc : sha256 [97; 98; 99] =
  [0xba; 0x78; 0x16; 0xbf; 0x8f; 0x01; 0xcf; 0xea; 0x41; 0x41; 0x40; 0xde; 0x5d; 0xae; 0x22; 0x23;
   0xb0; 0x03; 0x61; 0xa3; 0x96; 0x17; 0x7a; 0x9c; 0xb4; 0x10; 0xff; 0x61; 0xf2; 0x00; 0x15; 0xad].
Proof. vm_compute. reflexivity. Qed.
End Fips.

(** * The code *)
Module Sha256.

Definition K : list Z := [
  0x428A2F98; 0x71374491; 0xB5C0FBCF; 0xE9B5DBA5; 0x3956C25B; 0x59F111F1; 0x923F82A4; 0xAB1C5ED5;
  0xD807AA98; 0x12835B01; 0x243185BE; 0x550C7DC3; 0x72BE5D74; 0x80DEB1FE; 0x9BDC06A7; 0xC19BF174;
  0xE49B69C1; 0xEFBE4786; 0x0FC19DC6; 0x240CA1CC; 0x2DE92C6F; 0x4A7484AA; 0x5CB0A9DC; 0x76F988DA;
  0x983E5152; 0xA831C66D; 0xB00327C8; 0xBF597FC7; 0xC6E00BF3; 0xD5A79147; 0x06CA6351; 0x14292967;
  0x27B70A85; 0x2E1B2138; 0x4D2C6DFC; 0x53380D13; 0x650A7354; 0x766A0ABB; 0x81C2C92E; 0x92722C85;
  0xA2BFE8A1; 0xA81A664B; 0xC24B8B70; 0xC76C51A3; 0xD192E819; 0xD6990624; 0xF40E3585; 0x106AA070;
  0x19A4C116; 0x1E376C08; 0x2748774C; 0x34B0BCB5; 0x391C0CB3; 0x4ED8AA4A; 0x5B9CCA4F; 0x682E6FF3;
  0x748F82EE; 0x78A5636F; 0x84C87814; 0x8CC70208; 0x90BEFFFA; 0xA4506CEB; 0xBEF9A3F7; 0xC67178F2].

Definition SHR (x n : Z) : Z := Z.shiftr (Z.land x 0xFFFFFFFF) n.
Definition ROTR (x n : Z) : Z := Z.lor (SHR x n) (u32 (Z.shiftl x (32 - n))).
Definition F0 (x y z : Z) : Z := Z.lor (Z.land x y) (Z.land z (Z.lor x y)).
Definition F1 (x y z : Z) : Z := Z.lxor z (Z.land x (Z.lxor y z)).
Definition S0 (x : Z) : Z := Z.lxor (Z.lxor (ROTR x 7) (ROTR x 18)) (SHR x 3).
Definition S1 (x : Z) : Z := Z.lxor (Z.lxor (ROTR x 17) (ROTR x 19)) (SHR x 10).
Definition S2 (x : Z) : Z := Z.lxor (Z.lxor (ROTR x 2) (ROTR x 13)) (ROTR x 22).
Definition S3 (x : Z) : Z := Z.lxor (Z.lxor (ROTR x 6) (ROTR x 11)) (ROTR x 25).
Definition GET_UINT32_BE (b : list Z) (i : Z) : option Z :=
  b0 ← rd b i; b1 ← rd b (i + 1); b2 ← rd b (i + 2); b3 ← rd b (i + 3);
  Some (Z.lor (Z.lor (Z.lor (u32 (Z.shiftl b0 24)) (u32 (Z.shiftl b1 16))) (u32 (Z.shiftl b2 8))) b3).
Definition PUT_UINT32_BE (n : Z) (b : list Z) (i : Z) : option (list Z) :=
  b ← wr b i (u8 (Z.shiftr n 24)); b ← wr b (i + 1) (u8 (Z.shiftr n 16)); b ← wr b (i + 2) (u8 (Z.shiftr n 8)); wr b (i + 3) (u8 n).

(** The macro [R(t)], without the store into [W]. *)
Definition R (W : list Z) (t : Z) : option Z :=
  w2 ← rd W (t - 2); w7 ← rd W (t - 7); w15 ← rd W (t - 15); w16 ← rd W (t - 16);
  Some (u32 (S1 w2 + w7 + S0 w15 + w16)).
(** The macro [P], on [A[0]] to [A[7]]. *)
Definition P (A : list Z) (x k : Z) : option (list Z) :=
  match A with
  | [a; b; c; d; e; f; g; h] =>
      let temp1 := u32 (h + S3 e + F1 e f g + k + x) in
      let temp2 := u32 (S2 a + F0 a b c) in
      Some [a; b; c; u32 (d + temp1); e; f; g; u32 (temp1 + temp2)]
  | _ => None
  end.
(** The registers move up by one, the last becomes the first. *)
Definition rotate (A : list Z) : option (list Z) :=
  match A with [a; b; c; d; e; f; g; h] => Some [h; a; b; c; d; e; f; g] | _ => None end.

(** [mbedtls_sha256_context]. *)
Record context := mkCtx { total0 : Z; total1 : Z; state : list Z; buffer : list Z }.

Section Hash.
(** The array [W] before anything is stored. *)
Variable junk : list Z.

Definition sha_round (data : list Z) (i : Z) (s : list Z * list Z) : option (list Z * list Z) :=
  let '(A, W) := s in
  w ← (if i <? 16 then GET_UINT32_BE data (4 * i) else R W i);
  W ← wr W i w; k ← rd K i; A ← P A w k; A ← rotate A; Some (A, W).
Definition internal_sha256_process (ctx : context) (data : list Z) : option context :=
  '(A, _) ← for_up 0 64 (sha_round data) (state ctx, junk);
  Some (mkCtx (total0 ctx) (total1 ctx) (zip_with (λ s a, u32 (s + a)) (state ctx) A) (buffer ctx)).

Definition bootloader_sha256_start : context :=
  mkCtx 0 0 [0x6A09E667; 0xBB67AE85; 0x3C6EF372; 0xA54FF53A; 0x510E527F; 0x9B05688C; 0x1F83D9AB; 0x5BE0CD19] (replicate 64 0).

Definition with_buffer (ctx : context) (b : list Z) : context := mkCtx (total0 ctx) (total1 ctx) (state ctx) b.
(** [while( ilen >= 64 )]. *)
Fixpoint block_loop (fuel : nat) (ctx : context) (input : list Z) : option (context * list Z) :=
  match fuel with
  | O => None
  | S fuel => if (length input <? 64)%nat then Some (ctx, input) else ctx ← internal_sha256_process ctx input; block_loop fuel ctx (drop 64 input)
  end.
Definition bootloader_sha256_data (ctx : context) (data : list Z) (data_len : Z) : option context :=
  let input := take (Z.to_nat data_len) data in
  if zlen data <? data_len then None else
  let left := Z.land (total0 ctx) 0x3F in
  let fill := 64 - left in
  let total0' := Z.land (u32 (total0 ctx + data_len)) 0xFFFFFFFF in
  let total1' := if total0' <? data_len then u32 (total1 ctx + 1) else total1 ctx in
  let ctx := mkCtx total0' total1' (state ctx) (buffer ctx) in
  '(ctx, input, left) ←
    (if negb (left =? 0) && (fill <=? data_len) then
       b ← copy_to left (take (Z.to_nat fill) input) (buffer ctx);
       ctx ← internal_sha256_process (with_buffer ctx b) b;
       Some (ctx, drop (Z.to_nat fill) input, 0)
     else Some (ctx, input, left));
  '(ctx, input) ← block_loop (length input + 1) ctx input;
  match input with [] => Some ctx | _ => b ← copy_to left input (buffer ctx); Some (with_buffer ctx b) end.

Definition sha256_padding : list Z := 0x80 :: replicate 63 0.
(** The eight stores of the digest. *)
Fixpoint put_state (words output : list Z) (i : Z) : option (list Z) :=
  match words with [] => Some output | w :: words => output ← PUT_UINT32_BE w output i; put_state words output (i + 4) end.
(** [digest] is an array; [None] is the null pointer, into which the digest is
    written all the same. *)
Definition bootloader_sha256_finish (ctx : context) (digest : option (list Z)) : option (list Z) :=
  let high := Z.lor (Z.shiftr (total0 ctx) 29) (u32 (Z.shiftl (total1 ctx) 3)) in
  let low := u32 (Z.shiftl (total0 ctx) 3) in
  msglen ← PUT_UINT32_BE high (replicate 8 0) 0;
  msglen ← PUT_UINT32_BE low msglen 4;
  let last := Z.land (total0 ctx) 0x3F in
  let padn := if last <? 56 then 56 - last else 120 - last in
  ctx ← bootloader_sha256_data ctx sha256_padding padn;
  ctx ← bootloader_sha256_data ctx msglen 8;
  output ← digest;
  put_state (state ctx) output 0.
End Hash.

(** ** The functions on words *)

Lemma table_ok : K = Fips.constants.
Proof. vm_compute. reflexivity. Qed.
Lemma F0_Maj x y z : F0 x y z = Fips.Maj x y z.
Proof. unfold F0, Fips.Maj. bits_done. Qed.
Lemma F1_Ch x y z : F1 x y z = Fips.Ch x y z.
Proof. unfold F1, Fips.Ch. bits. rewrite Z.lnot_spec by done. btauto. Qed.
Lemma land_u32 x : in_u32 x → Z.land x 0xFFFFFFFF = x.
Proof. intros. change 0xFFFFFFFF with (Z.ones 32). rewrite Z.land_ones by lia. by apply Z.mod_small. Qed.
Lemma SHR_shr x n : in_u32 x → SHR x n = Fips.shr n x.
Proof. intros. unfold SHR. by rewrite land_u32. Qed.
Lemma ROTR_rotr x n : in_u32 x → ROTR x n = Fips.rotr n x.
Proof. intros. unfold ROTR. by rewrite SHR_shr. Qed.
Lemma sums x : in_u32 x → S0 x = Fips.sigma0 x ∧ S1 x = Fips.sigma1 x ∧ S2 x = Fips.Sigma0 x ∧ S3 x = Fips.Sigma1 x.
Proof. intros. unfold S0, S1, S2, S3. by rewrite !ROTR_rotr, !SHR_shr. Qed.

Lemma word_range b0 b1 b2 b3 : in_u8 b0 → in_u8 b1 → in_u8 b2 → in_u8 b3 → in_u32 (Fips.word b0 b1 b2 b3).
Proof. unfold in_u8, in_u32, Fips.word. lia. Qed.
Lemma lor_word b0 b1 b2 b3 : in_u8 b0 → in_u8 b1 → in_u8 b2 → in_u8 b3 →
  Z.lor (Z.lor (Z.lor (u32 (Z.shiftl b0 24)) (u32 (Z.shiftl b1 16))) (u32 (Z.shiftl b2 8))) b3 = Fips.word b0 b1 b2 b3.
Proof.
  unfold in_u8. intros. rewrite !Z.shiftl_mul_pow2 by lia. rewrite !u32_id by (unfold in_u32; lia).
  rewrite Z.lor_comm, (Z.lor_comm _ (b2 * 2 ^ 8)), (Z.lor_comm (b0 * 2 ^ 24)).
  replace (Z.lor (b1 * 2 ^ 16) (b0 * 2 ^ 24)) with ((b0 * 2 ^ 8 + b1) * 2 ^ 16).
  2: { change (b0 * 2 ^ 24) with (b0 * 2 ^ (8 + 16)). rewrite Z.pow_add_r, Z.mul_assoc by lia. rewrite <- !Z.shiftl_mul_pow2, <- Z.shiftl_lor by lia.
       f_equal. rewrite Z.shiftl_mul_pow2 by lia. rewrite lor_fields by lia. lia. }
  replace (Z.lor (b2 * 2 ^ 8) ((b0 * 2 ^ 8 + b1) * 2 ^ 16)) with (((b0 * 2 ^ 8 + b1) * 2 ^ 8 + b2) * 2 ^ 8).
  2: { change (2 ^ 16) with (2 ^ (8 + 8)). rewrite Z.pow_add_r, (Z.mul_assoc (b0 * 2 ^ 8 + b1)) by lia. rewrite <- !(Z.shiftl_mul_pow2 _ 8), <- Z.shiftl_lor by lia.
       f_equal. rewrite !Z.shiftl_mul_pow2 by lia. rewrite lor_fields by lia. lia. }
  rewrite lor_fields by lia. unfold Fips.word. lia.
Qed.

(** ** A block *)

Definition list_of (r : Fips.regs) : list Z := let '(a, b, c, d, e, f, g, h) := r in [a; b; c; d; e; f; g; h].
Definition ok_regs (r : Fips.regs) : Prop := Forall in_u32 (list_of r).

Lemma words_length bs n : length bs = (4 * n)%nat → length (Fips.words bs) = n.
Proof.
  revert bs. induction n as [|n IH]; intros bs Hl; [by destruct bs|].
  destruct bs as [|b0 [|b1 [|b2 [|b3 bs]]]]; try (cbn in Hl; lia). cbn. f_equal. apply IH. cbn in Hl. lia.
Qed.
Lemma words_u32 bs n : length bs = (4 * n)%nat → Forall in_u8 bs → Forall in_u32 (Fips.words bs).
Proof.
  revert bs. induction n as [|n IH]; intros bs Hl Hb; [by destruct bs|].
  destruct bs as [|b0 [|b1 [|b2 [|b3 bs]]]]; try (cbn in Hl; lia). rewrite !Forall_cons in Hb. destruct Hb as (? & ? & ? & ? & ?).
  cbn. constructor; [by apply word_range|]. apply IH; [cbn in Hl; lia|done].
Qed.
Lemma rd_cons_S {A} (x : A) l (i : nat) : rd (x :: l) (Z.of_nat i + 1) = rd l (Z.of_nat i).
Proof. change (Z.of_nat i + 1) with (Z.succ (Z.of_nat i)). by rewrite <- Nat2Z.inj_succ, !rd_lookup. Qed.
Lemma GET_word bs rest n i : length bs = (4 * n)%nat → Forall in_u8 bs → (i < n)%nat →
  GET_UINT32_BE (bs ++ rest) (4 * Z.of_nat i) = Fips.words bs !! i.
Proof.
  revert bs i. induction n as [|n IH]; intros bs i Hl Hb Hi; [lia|].
  destruct bs as [|b0 [|b1 [|b2 [|b3 bs]]]]; try (cbn in Hl; lia). rewrite !Forall_cons in Hb. destruct Hb as (? & ? & ? & ? & ?).
  destruct i as [|i].
  { transitivity (Some (Z.lor (Z.lor (Z.lor (u32 (Z.shiftl b0 24)) (u32 (Z.shiftl b1 16))) (u32 (Z.shiftl b2 8))) b3)); [reflexivity|by rewrite lor_word]. } change (Fips.words (b0 :: b1 :: b2 :: b3 :: bs) !! S i) with (Fips.words bs !! i).
  rewrite <- (IH bs i) by (done || cbn in Hl; lia). unfold GET_UINT32_BE. cbn [app].
  set (k := (4 * i)%nat). replace (4 * Z.of_nat (S i)) with (Z.of_nat k + 1 + 1 + 1 + 1) by lia. replace (4 * Z.of_nat i) with (Z.of_nat k) by lia.
  assert (E : ∀ j, rd (b0 :: b1 :: b2 :: b3 :: bs ++ rest) (Z.of_nat j + 1 + 1 + 1 + 1) = rd (bs ++ rest) (Z.of_nat j)).
  { intros j. replace (Z.of_nat j + 1 + 1 + 1) with (Z.of_nat (S (S (S j)))) by lia. rewrite rd_cons_S.
    replace (Z.of_nat (S (S (S j)))) with (Z.of_nat (S (S j)) + 1) by lia. rewrite rd_cons_S.
    replace (Z.of_nat (S (S j))) with (Z.of_nat (S j) + 1) by lia. rewrite rd_cons_S.
    replace (Z.of_nat (S j)) with (Z.of_nat j + 1) by lia. apply rd_cons_S. }
  rewrite E. replace (Z.of_nat k + 1 + 1 + 1 + 1 + 1) with (Z.of_nat (S k) + 1 + 1 + 1 + 1) by lia. rewrite E.
  replace (Z.of_nat k + 1 + 1 + 1 + 1 + 2) with (Z.of_nat (S (S k)) + 1 + 1 + 1 + 1) by lia. rewrite E.
  replace (Z.of_nat k + 1 + 1 + 1 + 1 + 3) with (Z.of_nat (S (S (S k))) + 1 + 1 + 1 + 1) by lia. rewrite E.
  by replace (Z.of_nat (S k)) with (Z.of_nat k + 1) by lia; replace (Z.of_nat (S (S k))) with (Z.of_nat k + 2) by lia;
    replace (Z.of_nat (S (S (S k)))) with (Z.of_nat k + 3) by lia.
Qed.

Lemma iter_length k ws : length (Nat.iter k Fips.extend ws) = (length ws + k)%nat.
Proof. induction k as [|k IH]; [by rewrite Nat.add_0_r|]. rewrite Nat.iter_succ. unfold Fips.extend at 1. rewrite length_app, IH. cbn. lia. Qed.
Lemma iter_prefix k n ws : take (length ws + k) (Nat.iter (n + k) Fips.extend ws) = Nat.iter k Fips.extend ws.
Proof.
  induction n as [|n IH]; [apply take_ge; rewrite iter_length; lia|]. cbn [Nat.add]. rewrite Nat.iter_succ. unfold Fips.extend at 1.
  rewrite take_app_le by (rewrite iter_length; lia). done.
Qed.

Section Block.
Context (block : list Z).
Hypothesis Hblock : length block = 64%nat.
Hypothesis Hbytes : Forall in_u8 block.
Let sched := Fips.schedule block.

Lemma sched_length : length sched = 64%nat.
Proof. unfold sched, Fips.schedule. rewrite iter_length, (words_length _ 16) by done. done. Qed.
Lemma sched_first i : (i < 16)%nat → take (S i) sched = take i sched ++ [nth i (Fips.words block) 0] ∧ Fips.words block !! i = Some (nth i (Fips.words block) 0).
Proof.
  intros Hi. pose proof (words_length block 16 Hblock) as Hw.
  assert (E : take 16 sched = Fips.words block) by (pose proof (iter_prefix 0 48 (Fips.words block)) as E; by rewrite Hw in E).
  assert (Hn : Fips.words block !! i = Some (nth i (Fips.words block) 0)) by (destruct (nth_lookup_or_length (Fips.words block) i 0); [done|lia]).
  split; [|done]. apply take_S_r. rewrite <- Hn, <- E. symmetry. by apply lookup_take_lt.
Qed.
Lemma sched_next i : (16 <= i < 64)%nat → take (S i) sched = take i sched ++ [Fips.next_word (take i sched)].
Proof.
  intros Hi. pose proof (words_length block 16 Hblock) as Hw. unfold sched, Fips.schedule.
  pose proof (iter_prefix (i - 16) (48 - (i - 16)) (Fips.words block)) as E1. pose proof (iter_prefix (S (i - 16)) (48 - S (i - 16)) (Fips.words block)) as E2.
  rewrite Hw in E1, E2. replace (16 + (i - 16))%nat with i in E1 by lia. replace (16 + S (i - 16))%nat with (S i) in E2 by lia.
  replace (48 - (i - 16) + (i - 16))%nat with 48%nat in E1 by lia. replace (48 - S (i - 16) + S (i - 16))%nat with 48%nat in E2 by lia.
  rewrite E1, E2. done.
Qed.
Lemma sched_u32 i : (i <= 64)%nat → Forall in_u32 (take i sched).
Proof.
  induction i as [|i IH]; intros Hi; [constructor|]. specialize (IH ltac:(lia)). destruct (decide (i < 16)%nat).
  - destruct (sched_first i ltac:(done)) as [-> Hn]. apply Forall_app_2; [done|]. constructor; [|constructor].
    eapply Forall_lookup_1; [|exact Hn]. by apply (words_u32 _ 16).
  - rewrite sched_next by lia. apply Forall_app_2; [done|]. constructor; [apply u32_range|constructor].
Qed.
Lemma R_run (ws rest : list Z) : (16 <= length ws)%nat → Forall in_u32 ws → R (ws ++ rest) (zlen ws) = Some (Fips.next_word ws).
Proof.
  intros Hl Hu. unfold R, Fips.next_word.
  assert (E : ∀ d : nat, (1 <= d <= 16)%nat → ∃ x, rd (ws ++ rest) (zlen ws - Z.of_nat d) = Some x ∧ nth (length ws - d) ws 0 = x ∧ in_u32 x).
  { intros d Hd. exists (nth (length ws - d) ws 0). unfold zlen. rewrite <- Nat2Z.inj_sub by lia. rewrite rd_lookup, lookup_app_l by lia.
    destruct (nth_lookup_or_length ws (length ws - d) 0) as [En|]; [|lia]. split; [done|]. split; [done|]. by eapply Forall_lookup_1. }
  destruct (E 2%nat) as (x2 & R2 & <- & U2); [lia|]. destruct (E 7%nat) as (x7 & R7 & <- & U7); [lia|].
  destruct (E 15%nat) as (x15 & R15 & <- & U15); [lia|]. destruct (E 16%nat) as (x16 & R16 & <- & U16); [lia|].
  change (Z.of_nat 2) with 2 in R2. change (Z.of_nat 7) with 7 in R7. change (Z.of_nat 15) with 15 in R15. change (Z.of_nat 16) with 16 in R16.
  rewrite R2, R7, R15, R16. cbn [mbind option_bind]. destruct (sums _ U2) as (_ & -> & _). destruct (sums _ U15) as (-> & _). done.
Qed.

(** The registers and the words after [i] rounds. *)
Definition after (h : Fips.regs) (i : nat) : Fips.regs := foldl Fips.round h (zip K (take i sched)).
Lemma after_regs h i : ok_regs h → ok_regs (after h i).
Proof.
  unfold after. intros Hh. generalize (zip K (take i sched)). intros l. revert h Hh. induction l as [|[k w] l IH]; intros h Hh; [done|].
  cbn. apply IH. destruct h as [[[[[[[a b] c] d] e] f] g] h]. unfold ok_regs, list_of, Fips.round in *.
  rewrite !Forall_cons in Hh |- *. destruct Hh as (? & ? & ? & ? & ? & ? & ? & _). split_and!; auto using u32_range.
Qed.
Lemma after_S h i w k : take (S i) sched = take i sched ++ [w] → K !! i = Some k → (i < 64)%nat → after h (S i) = Fips.round (after h i) (k, w).
Proof.
  intros E Hk Hi. unfold after. rewrite E, zip_with_app_r, zip_with_take_l, foldl_app.
  replace (length (take i sched)) with i by (rewrite length_take, sched_length; lia). rewrite (drop_S K k i Hk).
  by destruct (drop (S i) K).
Qed.
Lemma P_round h w k : ok_regs h → (A ← P (list_of h) w k; rotate A) = Some (list_of (Fips.round h (k, w))).
Proof.
  destruct h as [[[[[[[a b] c] d] e] f] g] h]. unfold ok_regs. cbn. rewrite !Forall_cons. intros (Ha & _ & _ & _ & He & _).
  rewrite F0_Maj, F1_Ch. destruct (sums a Ha) as (_ & _ & -> & _). destruct (sums e He) as (_ & _ & _ & ->). done.
Qed.

Lemma round_run junk rest h (i : nat) : length junk = 64%nat → ok_regs h → (i < 64)%nat →
  sha_round (block ++ rest) (Z.of_nat i) (list_of (after h i), take i sched ++ drop i junk) =
    Some (list_of (after h (S i)), take (S i) sched ++ drop (S i) junk).
Proof.
  intros Hj Hh Hi. pose proof sched_length as Hs. unfold sha_round.
  assert (Hw : ∃ w, take (S i) sched = take i sched ++ [w] ∧
    (if Z.of_nat i <? 16 then GET_UINT32_BE (block ++ rest) (4 * Z.of_nat i) else R (take i sched ++ drop i junk) (Z.of_nat i)) = Some w).
  { destruct (Z.ltb_spec (Z.of_nat i) 16).
    - destruct (sched_first i) as [E1 E2]; [lia|]. eexists. split; [exact E1|]. rewrite <- E2. apply (GET_word block rest 16); [done|done|lia].
    - eexists. split; [apply sched_next; lia|]. replace (Z.of_nat i) with (zlen (take i sched)) by (unfold zlen; rewrite length_take; lia).
      apply R_run; [rewrite length_take; lia|apply sched_u32; lia]. }
  destruct Hw as (w & E & ->). cbn [mbind option_bind].
  rewrite wr_Some by (rewrite length_app, length_take, length_drop; lia). cbn [mbind option_bind]. rewrite rd_lookup.
  destruct (lookup_lt_is_Some_2 K i ltac:(by cbn)) as [k Ek]. rewrite Ek. cbn [mbind option_bind].
  pose proof (P_round (after h i) w k (after_regs h i Hh)) as HP. destruct (P (list_of (after h i)) w k) as [A|]; [|done]. cbn [mbind option_bind] in HP |- *.
  rewrite HP. cbn [mbind option_bind]. rewrite (after_S h i w k) by done. do 2 f_equal. rewrite E, Nat2Z.id.
  rewrite insert_app_r_alt by (rewrite length_take; lia). rewrite length_take, Hs, Nat.min_l, Nat.sub_diag by lia.
  destruct (lookup_lt_is_Some_2 junk i ltac:(lia)) as [x Ex]. rewrite (drop_S junk x i Ex). cbn [insert list_insert]. by rewrite <- app_assoc.
Qed.

Lemma add_zip h h' : zip_with (λ s a, u32 (s + a)) (list_of h) (list_of h') = list_of (Fips.add h h').
Proof. by destruct h as [[[[[[[? ?] ?] ?] ?] ?] ?] ?], h' as [[[[[[[? ?] ?] ?] ?] ?] ?] ?]. Qed.

Lemma process_run junk rest t0 t1 h b : length junk = 64%nat → ok_regs h →
  internal_sha256_process junk (mkCtx t0 t1 (list_of h) b) (block ++ rest) = Some (mkCtx t0 t1 (list_of (Fips.compress h block)) b).
Proof.
  intros Hj Hh. unfold internal_sha256_process. cbn [state].
  destruct (for_up_inv (λ i s, s = (list_of (after h (Z.to_nat i)), take (Z.to_nat i) sched ++ drop (Z.to_nat i) junk)) (sha_round (block ++ rest)) 0 64
    (list_of h, junk)) as (s & -> & ->); [done| |].
  - intros i s Hi ->. eexists. split; [|done]. rewrite <- (Z2Nat.id i) at 1 by lia. rewrite (round_run junk rest h) by (done || lia).
    by replace (Z.to_nat (i + 1)) with (S (Z.to_nat i)) by lia.
  - cbn [mbind option_bind]. rewrite add_zip. do 3 f_equal. unfold after. rewrite take_ge by (rewrite sched_length; cbn; lia). unfold Fips.compress.
    by rewrite <- table_ok.
Qed.
Lemma compress_ok h : ok_regs h → ok_regs (Fips.compress h block).
Proof.
  intros _. unfold Fips.compress. generalize (foldl Fips.round h (zip Fips.constants (Fips.schedule block))). intros h'.
  destruct h as [[[[[[[? ?] ?] ?] ?] ?] ?] ?], h' as [[[[[[[? ?] ?] ?] ?] ?] ?] ?]. unfold ok_regs, list_of, Fips.add. rewrite !Forall_cons. split_and!; auto using u32_range.
Qed.
End Block.

(** ** Pieces *)

Lemma absorb_fuel f1 f2 h m : (length m <= f1)%nat → (length m <= f2)%nat → Fips.absorb f1 h m = Fips.absorb f2 h m.
Proof.
  revert f2 h m. induction f1 as [|f1 IH]; intros f2 h m H1 H2; [destruct m; [|cbn in H1; lia]; by destruct f2|].
  destruct f2 as [|f2]; [destruct m; [|cbn in H2; lia]; done|]. cbn [Fips.absorb]. destruct (Nat.ltb_spec (length m) 64); [done|].
  apply IH; rewrite length_drop; lia.
Qed.
(** The blocks of a message one after the other. *)
Definition absorbed (h : Fips.regs) (m : list Z) : Fips.regs * list Z := Fips.absorb (length m) h m.
Lemma absorbed_short h m : (length m < 64)%nat → absorbed h m = (h, m).
Proof. intros. unfold absorbed. destruct (length m) as [|k] eqn:E; [done|]. cbn [Fips.absorb]. rewrite E. by destruct (Nat.ltb_spec (S k) 64); [|lia]. Qed.
Lemma absorb_block fuel h b m : length b = 64%nat → Fips.absorb (S fuel) h (b ++ m) = Fips.absorb fuel (Fips.compress h b) m.
Proof.
  intros Hb. cbn [Fips.absorb]. rewrite length_app, Hb. destruct (Nat.ltb_spec (64 + length m) 64); [lia|].
  by rewrite take_app_length', drop_app_length' by done.
Qed.
Lemma absorbed_block h b m : length b = 64%nat → absorbed h (b ++ m) = absorbed (Fips.compress h b) m.
Proof.
  intros Hb. unfold absorbed. rewrite (absorb_fuel _ (S (length m + 63)) _ (b ++ m)) by (rewrite length_app; lia).
  rewrite absorb_block by done. apply absorb_fuel; lia.
Qed.
(** Induction over the blocks. *)
Lemma blocks_ind (Q : list Z → Prop) : (∀ m, (length m < 64)%nat → Q m) → (∀ b m, length b = 64%nat → Q m → Q (b ++ m)) → ∀ m, Q m.
Proof.
  intros Hs Hb m. remember (length m) as n eqn:E. revert m E. induction (lt_wf n) as [n _ IH]. intros m ->.
  destruct (decide (length m < 64)%nat); [by apply Hs|]. rewrite <- (take_drop 64 m). apply Hb; [rewrite length_take; lia|].
  apply (IH (length (drop 64 m))); [rewrite length_drop; lia|done].
Qed.
Lemma absorbed_app m bs : ∀ h, absorbed h (m ++ bs) = absorbed (absorbed h m).1 ((absorbed h m).2 ++ bs).
Proof.
  induction m as [m Hm|b m Hb IH] using blocks_ind; intros h; [by rewrite (absorbed_short h m)|].
  rewrite <- app_assoc, (absorbed_block h b (m ++ bs)), (absorbed_block h b m) by done. apply IH.
Qed.
Lemma absorbed_rest m : ∀ h, zlen (absorbed h m).2 = zlen m mod 64 ∧ ∃ pre, m = pre ++ (absorbed h m).2.
Proof.
  induction m as [m Hm|b m Hb IH] using blocks_ind; intros h.
  - rewrite absorbed_short by done. cbn. split; [unfold zlen; symmetry; apply Z.mod_small; lia|by exists []].
  - rewrite absorbed_block by done. destruct (IH (Fips.compress h b)) as [El (pre & Ep)]. split.
    + rewrite El, zlen_app. unfold zlen at 2. rewrite Hb. rewrite <- (Z.mul_1_l (Z.of_nat 64)), Z.add_comm. symmetry. apply Z_mod_plus_full.
    + exists (b ++ pre). by rewrite <- app_assoc, <- Ep.
Qed.
Lemma absorbed_ok m : Forall in_u8 m → ∀ h, ok_regs h → ok_regs (absorbed h m).1.
Proof.
  induction m as [m Hm|b m Hb IH] using blocks_ind; intros Hu h Hh; [by rewrite absorbed_short|].
  rewrite absorbed_block by done. apply Forall_app in Hu as [? ?]. by apply IH, compress_ok.
Qed.

Section Streaming.
Context (junk : list Z).
Hypothesis Hjunk : length junk = 64%nat.

Lemma block_loop_run m : ∀ fuel t0 t1 h b, (length m < fuel)%nat → Forall in_u8 m → ok_regs h →
  block_loop junk fuel (mkCtx t0 t1 (list_of h) b) m = Some (mkCtx t0 t1 (list_of (absorbed h m).1) b, (absorbed h m).2).
Proof.
  induction m as [m Hm|blk m Hb IH] using blocks_ind; intros fuel t0 t1 h b Hf Hu Hh; (destruct fuel as [|fuel]; [lia|]); cbn [block_loop].
  - rewrite absorbed_short by done. by destruct (Nat.ltb_spec (length m) 64); [|lia].
  - rewrite length_app, Hb in *. destruct (Nat.ltb_spec (64 + length m) 64); [lia|]. apply Forall_app in Hu as [Hub Hum].
    rewrite process_run by done. cbn [mbind option_bind]. rewrite drop_app_length' by done. rewrite absorbed_block by done.
    apply IH; [lia|done|by apply compress_ok].
Qed.

(** What the context holds after the message [m]. *)
Record holds (ctx : context) (m : list Z) : Prop := {
  holds_state : state ctx = list_of (absorbed Fips.H0 m).1;
  holds_buffer : ∃ post, buffer ctx = (absorbed Fips.H0 m).2 ++ post;
  holds_size : length (buffer ctx) = 64%nat;
  holds_total0 : total0 ctx = u32 (zlen m);
  holds_total1 : total1 ctx = u32 (zlen m / 2 ^ 32);
  holds_bytes : Forall in_u8 m }.

Lemma H0_start : state bootloader_sha256_start = list_of Fips.H0.
Proof. vm_compute. reflexivity. Qed.
Lemma H0_regs : ok_regs Fips.H0.
Proof. unfold ok_regs. rewrite <- H0_start. cbn [state bootloader_sha256_start]. repeat (constructor; [unfold in_u32; lia|]). constructor. Qed.
Lemma start_holds : holds bootloader_sha256_start [].
Proof. split; [exact H0_start|by exists (replicate 64 0)|reflexivity|reflexivity|reflexivity|constructor]. Qed.
Lemma land_63 x : Z.land x 0x3F = x mod 64.
Proof. exact (Z.land_ones x 6 ltac:(lia)). Qed.
Lemma totals n len : 0 <= n → 0 <= len < 2 ^ 32 → let t := Z.land (u32 (u32 n + len)) 0xFFFFFFFF in
  t = u32 (n + len) ∧ (if t <? len then u32 (u32 (n / 2 ^ 32) + 1) else u32 (n / 2 ^ 32)) = u32 ((n + len) / 2 ^ 32).
Proof.
  intros Hn Hlen t. assert (Et : t = u32 (n + len)) by (unfold t; rewrite land_u32 by apply u32_range; unfold u32; apply Zplus_mod_idemp_l).
  split; [done|]. rewrite Et. unfold u32. set (q := n / 2 ^ 32). assert (Hq : n = q * 2 ^ 32 + n mod 2 ^ 32 ∧ 0 <= n mod 2 ^ 32 < 2 ^ 32) by (unfold q; dlia).
  set (r := n mod 2 ^ 32) in *. clearbody q r. destruct Hq as [-> Hr]. rewrite Zplus_mod_idemp_l.
  replace (q * 2 ^ 32 + r + len) with (r + len + q * 2 ^ 32) by lia. rewrite Z_mod_plus_full, Z_div_plus_full by lia.
  destruct (decide (r + len < 2 ^ 32)).
  - rewrite (Z.mod_small (r + len)), (Z.div_small (r + len)) by lia. destruct (Z.ltb_spec (r + len) len); [lia|]. by rewrite Z.add_0_l.
  - replace (r + len) with (r + len - 2 ^ 32 + 1 * 2 ^ 32) by lia. rewrite Z_mod_plus_full, Z_div_plus_full by lia.
    rewrite (Z.mod_small (r + len - 2 ^ 32)), (Z.div_small (r + len - 2 ^ 32)) by lia. destruct (Z.ltb_spec (r + len - 2 ^ 32) len); [|lia]. f_equal. lia.
Qed.

(** The last part of a call: what is left goes into the buffer. *)
Lemma copy_rest ctx l (pre rest post : list Z) : buffer ctx = pre ++ post → zlen pre = l → length (buffer ctx) = 64%nat → (length pre + length rest <= 64)%nat →
  ∃ post' b, (match rest with [] => Some ctx | _ => b ← copy_to l rest (buffer ctx); Some (with_buffer ctx b) end) = Some (with_buffer ctx b) ∧
    b = pre ++ rest ++ post' ∧ length b = 64%nat.
Proof.
  intros Hb <- Hl Hfit. rewrite Hb in *. rewrite length_app in Hl.
  assert (Hc : copy_to (zlen pre) rest (pre ++ post) = Some (pre ++ rest ++ drop (length rest) post)).
  { rewrite <- (take_drop (length rest) post) at 1. apply copy_to_run. rewrite length_take. lia. }
  exists (drop (length rest) post), (pre ++ rest ++ drop (length rest) post). split; [|split; [done|rewrite !length_app, length_drop; lia]].
  destruct rest; [|by rewrite Hc]. change (pre ++ [] ++ drop (length (@nil Z)) post) with (pre ++ post). rewrite <- Hb. by destruct ctx.
Qed.

Lemma data_holds ctx m data len : holds ctx m → Forall in_u8 data → 0 <= len <= zlen data → len < 2 ^ 32 →
  ∃ ctx', bootloader_sha256_data junk ctx data len = Some ctx' ∧ holds ctx' (m ++ take (Z.to_nat len) data).
Proof.
  intros [Hst [post Hbuf] Hsize Ht0 Ht1 Hm] Hdata Hlen H32. unfold bootloader_sha256_data. destruct (Z.ltb_spec (zlen data) len); [lia|].
  set (bs := take (Z.to_nat len) data). assert (Hbs : zlen bs = len) by (unfold bs, zlen in *; rewrite length_take; lia).
  assert (Hbu : Forall in_u8 bs) by by apply Forall_take. clearbody bs. rewrite Ht0, Ht1, land_63, Hst.
  replace (u32 (zlen m) mod 64) with (zlen m mod 64) by (unfold u32; symmetry; apply Z.mod_mod_divide; by exists (2 ^ 26)).
  pose proof (zlen_nonneg m). destruct (totals (zlen m) len) as [E0 E1]; [lia..|]. rewrite E0 in *. rewrite E1.
  pose proof (absorbed_app m bs Fips.H0) as Habs. destruct (absorbed_rest m Fips.H0) as [Hr (before & Hbefore)]. pose proof (absorbed_ok m Hm _ H0_regs) as Hok.
  destruct (absorbed Fips.H0 m) as [h r]. cbn [fst snd] in *. rewrite <- Hr.
  assert (Hru : Forall in_u8 r) by (rewrite Hbefore in Hm; by apply Forall_app in Hm as [_ ?]).
  assert (Hr64 : 0 <= zlen r < 64) by (rewrite Hr; apply Z.mod_pos_bound; lia).
  assert (Hdone : ∀ ctx', state ctx' = list_of (absorbed h (r ++ bs)).1 → (∃ post, buffer ctx' = (absorbed h (r ++ bs)).2 ++ post) → length (buffer ctx') = 64%nat →
    total0 ctx' = u32 (zlen m + len) → total1 ctx' = u32 ((zlen m + len) / 2 ^ 32) → holds ctx' (m ++ bs)).
  { intros. split; rewrite ?Habs, ?zlen_app, ?Hbs; auto. by apply Forall_app_2. }
  rewrite Hbuf in *. rewrite length_app in Hsize. unfold zlen in Hr64. destruct (Z.eqb_spec (zlen r) 0) as [Er|Er]; cbn [negb andb].
  - (* an empty buffer *)
    destruct r as [|x r]; [|unfold zlen in Er; cbn in Er; lia]. cbn [app] in *. cbn [mbind option_bind].
    rewrite block_loop_run by (done || lia). cbn [mbind option_bind]. destruct (absorbed_rest bs h) as [Hl _].
    pose proof (Z.mod_pos_bound (zlen bs) 64 ltac:(lia)).
    edestruct (copy_rest (mkCtx (u32 (zlen m + len)) (u32 ((zlen m + len) / 2 ^ 32)) (list_of (absorbed h bs).1) post) 0 [] (absorbed h bs).2 post)
      as (post' & b & Hc' & -> & Hb64); [done..|cbn; unfold zlen in *; lia|]. eexists. split; [exact Hc'|]. apply Hdone; cbn; try done. by exists post'.
  - destruct (Z.leb_spec (64 - zlen r) len) as [Hfill|Hfill].
    + (* the buffer fills up *)
      assert (Hcut : ∃ i1 i2, bs = i1 ++ i2 ∧ zlen i1 = 64 - zlen r).
      { exists (take (Z.to_nat (64 - zlen r)) bs), (drop (Z.to_nat (64 - zlen r)) bs). rewrite take_drop. split; [done|]. unfold zlen in *. rewrite length_take. lia. }
      destruct Hcut as (i1 & i2 & -> & Hi1). apply Forall_app in Hbu as [Hu1 Hu2].
      replace (Z.to_nat (64 - zlen r)) with (length i1) by (unfold zlen in *; lia). rewrite take_app_length, drop_app_length. cbn [buffer].
      assert (Hc : copy_to (zlen r) i1 (r ++ post) = Some (r ++ i1)).
      { pose proof (copy_to_run i1 r post []) as Hc. rewrite !app_nil_r in Hc. apply Hc. unfold zlen in *. lia. }
      rewrite Hc. cbn [mbind option_bind]. unfold with_buffer. cbn [total0 total1 state buffer].
      assert (H64 : length (r ++ i1) = 64%nat) by (rewrite length_app; unfold zlen in *; lia).
      pose proof (process_run (r ++ i1) H64 ltac:(by apply Forall_app_2) junk [] (u32 (zlen m + len)) (u32 ((zlen m + len) / 2 ^ 32)) h (r ++ i1) Hjunk Hok) as Hp.
      rewrite app_nil_r in Hp. rewrite Hp. cbn [mbind option_bind].
      assert (Hok' : ok_regs (Fips.compress h (r ++ i1))) by by apply compress_ok.
      rewrite app_assoc, absorbed_block in Hdone by done. rewrite block_loop_run by (done || lia). cbn [mbind option_bind].
      destruct (absorbed_rest i2 (Fips.compress h (r ++ i1))) as [Hl _]. pose proof (Z.mod_pos_bound (zlen i2) 64 ltac:(lia)).
      edestruct (copy_rest (mkCtx (u32 (zlen m + len)) (u32 ((zlen m + len) / 2 ^ 32)) (list_of (absorbed (Fips.compress h (r ++ i1)) i2).1) (r ++ i1)) 0 []
        (absorbed (Fips.compress h (r ++ i1)) i2).2 (r ++ i1)) as (post' & b & Hc' & -> & Hb64); [done..|cbn; unfold zlen in *; lia|].
      eexists. split; [exact Hc'|]. apply Hdone; cbn; try done. by exists post'.
    + (* not yet *)
      cbn [mbind option_bind]. assert (Hshort : (length bs < 64)%nat) by (unfold zlen in *; lia).
      rewrite block_loop_run by (done || lia). rewrite absorbed_short by done. cbn [mbind option_bind fst snd].
      rewrite absorbed_short in Hdone by (rewrite length_app; unfold zlen in *; lia). cbn [fst snd] in Hdone.
      edestruct (copy_rest (mkCtx (u32 (zlen m + len)) (u32 ((zlen m + len) / 2 ^ 32)) (list_of h) (r ++ post)) (zlen r) r bs post)
        as (post' & b & Hc' & -> & Hb64); [done|done|cbn; by rewrite length_app|unfold zlen in *; lia|].
      eexists. split; [exact Hc'|]. apply Hdone; cbn; try done. exists post'. by rewrite app_assoc.
Qed.

(** ** The end *)

Lemma PUT_copy n b i : PUT_UINT32_BE n b i = copy_to i (Fips.bytes_of_word n) b.
Proof.
  unfold PUT_UINT32_BE, Fips.bytes_of_word. cbn [copy_to]. replace (i + 1 + 1 + 1) with (i + 3) by lia. replace (i + 1 + 1) with (i + 2) by lia.
  destruct (wr b i _) as [b1|]; [|done]. cbn [mbind option_bind]. destruct (wr b1 _ _) as [b2|]; [|done]. cbn [mbind option_bind].
  destruct (wr b2 _ _) as [b3|]; [|done]. cbn [mbind option_bind]. by destruct (wr b3 _ _).
Qed.
Lemma put_state_run ws : ∀ pre old, length old = (4 * length ws)%nat →
  put_state ws (pre ++ old) (zlen pre) = Some (pre ++ concat (Fips.bytes_of_word <$> ws)).
Proof.
  induction ws as [|w ws IH]; intros pre old Hl; [by destruct old|]. cbn [put_state]. rewrite PUT_copy. rewrite <- (take_drop 4 old).
  cbn [length] in Hl. rewrite copy_to_run by (rewrite length_take; change (length (Fips.bytes_of_word w)) with 4%nat; lia). cbn [mbind option_bind]. rewrite app_assoc.
  replace (zlen pre + 4) with (zlen (pre ++ Fips.bytes_of_word w)) by by rewrite zlen_app. rewrite IH by (rewrite length_drop; lia).
  by rewrite <- app_assoc.
Qed.
Lemma bits_of_total n : 0 <= n < 2 ^ 61 →
  Z.lor (Z.shiftr (u32 n) 29) (u32 (Z.shiftl (u32 (n / 2 ^ 32)) 3)) = u32 (Z.shiftr (8 * n) 32) ∧ u32 (Z.shiftl (u32 n) 3) = u32 (8 * n).
Proof.
  intros Hn. rewrite !Z.shiftr_div_pow2, !Z.shiftl_mul_pow2 by lia.
  assert (Hh : 0 <= n / 2 ^ 32 < 2 ^ 29) by dlia. rewrite (u32_id (n / 2 ^ 32)) by (unfold in_u32; lia).
  rewrite (u32_id (n / 2 ^ 32 * 2 ^ 3)) by (unfold in_u32; lia). pose proof (u32_range n) as Hr. unfold in_u32 in Hr.
  rewrite (lor_fields 3) by dlia. split; [|unfold u32; dlia].
  rewrite (u32_id (8 * n / 2 ^ 32)) by (unfold in_u32; dlia). unfold u32. dlia.
Qed.
Lemma padding_run n : 0 <= n → let padn := if n mod 64 <? 56 then 56 - n mod 64 else 120 - n mod 64 in
  1 <= padn <= 64 ∧ take (Z.to_nat padn) sha256_padding = 0x80 :: replicate (Fips.zeros n) 0.
Proof.
  intros Hn padn. assert (Hp : 1 <= padn <= 64 ∧ Fips.zeros n = Z.to_nat (padn - 1)).
  { unfold padn, Fips.zeros. pose proof (Z.mod_pos_bound n 64 ltac:(lia)). destruct (Z.ltb_spec (n mod 64) 56); (split; [lia|]); f_equal; dlia. }
  destruct Hp as [Hp ->]. split; [done|]. unfold sha256_padding. replace (Z.to_nat padn) with (S (Z.to_nat (padn - 1))) by lia. cbn [take].
  f_equal. rewrite take_replicate. f_equal. lia.
Qed.
Lemma word_bytes_u8 w : Forall in_u8 (Fips.bytes_of_word w).
Proof. unfold Fips.bytes_of_word. rewrite !Forall_cons. split_and!; auto using u8_range. Qed.

Lemma finish_run ctx m out : holds ctx m → zlen m < 2 ^ 61 → length out = 32%nat →
  bootloader_sha256_finish junk ctx (Some out) = Some (Fips.sha256 m).
Proof.
  intros Hctx Hlen Hout. pose proof (zlen_nonneg m). unfold bootloader_sha256_finish. rewrite (holds_total0 _ _ Hctx), (holds_total1 _ _ Hctx).
  destruct (bits_of_total (zlen m)) as [-> ->]; [lia|]. rewrite !PUT_copy. cbn [replicate].
  change (copy_to 0 ?w [0; 0; 0; 0; 0; 0; 0; 0]) with (copy_to (zlen (@nil Z)) w ([] ++ [0; 0; 0; 0] ++ [0; 0; 0; 0])). rewrite copy_to_run by done. cbn [mbind option_bind].
  rewrite PUT_copy. set (hi := Fips.bytes_of_word (u32 (Z.shiftr (8 * zlen m) 32))). set (lo := Fips.bytes_of_word (u32 (8 * zlen m))).
  change (copy_to 4 lo ([] ++ hi ++ [0; 0; 0; 0])) with (copy_to (zlen hi) lo (hi ++ [0; 0; 0; 0] ++ [])). rewrite copy_to_run by done. cbn [mbind option_bind]. rewrite app_nil_r.
  rewrite land_63. replace (u32 (zlen m) mod 64) with (zlen m mod 64) by (unfold u32; symmetry; apply Z.mod_mod_divide; by exists (2 ^ 26)).
  destruct (padding_run (zlen m)) as [Hp Ep]; [done|]. set (padn := if zlen m mod 64 <? 56 then _ else _) in *. clearbody padn.
  destruct (data_holds ctx m sha256_padding padn) as (c1 & -> & H1); [done|constructor; [by split|by apply Forall_replicate]|change (zlen sha256_padding) with 64; lia|lia|]. cbn [mbind option_bind]. rewrite Ep in H1.
  destruct (data_holds c1 _ (hi ++ lo) 8 H1) as (c2 & -> & H2); [apply Forall_app_2; apply word_bytes_u8|done|done|]. cbn [mbind option_bind].
  rewrite take_ge in H2 by done. rewrite (holds_state _ _ H2). unfold Fips.sha256, Fips.digest.
  assert (Epad : (m ++ 128 :: replicate (Fips.zeros (zlen m)) 0) ++ hi ++ lo = Fips.pad m) by (by rewrite <- app_assoc). rewrite Epad. unfold absorbed.
  destruct (Fips.absorb (length (Fips.pad m)) Fips.H0 (Fips.pad m)) as [[[[[[[[a b] c] d] e] f] g] h] rest]. cbn [fst list_of].
  by apply (put_state_run _ []).
Qed.

(** A message in pieces. *)
Fixpoint feed (ctx : context) (pieces : list (list Z)) : option context :=
  match pieces with [] => Some ctx | p :: pieces => ctx ← bootloader_sha256_data junk ctx p (zlen p); feed ctx pieces end.
Lemma feed_holds pieces : ∀ ctx m, holds ctx m → Forall (λ p, Forall in_u8 p ∧ zlen p < 2 ^ 32) pieces →
  ∃ ctx', feed ctx pieces = Some ctx' ∧ holds ctx' (m ++ concat pieces).
Proof.
  induction pieces as [|p pieces IH]; intros ctx m Hm Hp; [exists ctx; by rewrite app_nil_r|]. apply Forall_cons in Hp as [[Hb Hl] Hp].
  pose proof (zlen_nonneg p). destruct (data_holds ctx m p (zlen p)) as (c & E & Hc); [done|done|lia|done|]. cbn [feed]. rewrite E. cbn [mbind option_bind].
  rewrite take_ge in Hc by (unfold zlen; lia). destruct (IH c _ Hc Hp) as (c' & Er & Hc'). exists c'. split; [done|]. cbn. by rewrite app_assoc.
Qed.
End Streaming.

(** C32: The digest is the SHA-256 of the message, as the standard defines it, in
    whatever pieces the message is passed: of any length below 4 GiB each, empty
    ones included, and below 2^61 bytes in all. *)
Theorem digest_of_pieces (junk out : list Z) (pieces : list (list Z)) (Hjunk : length junk = 64%nat) (Hout : length out = 32%nat)
  (Hpieces : Forall (λ p, Forall in_u8 p ∧ zlen p < 2 ^ 32) pieces) (Htotal : zlen (concat pieces) < 2 ^ 61) :
  (ctx ← feed junk bootloader_sha256_start pieces; bootloader_sha256_finish junk ctx (Some out)) = Some (Fips.sha256 (concat pieces)).
Proof.
  destruct (feed_holds junk Hjunk pieces _ [] start_holds Hpieces) as (ctx & -> & Hctx). cbn [mbind option_bind].
  by apply finish_run.
Qed.

Lemma digest_of_pieces_witness :
  (ctx ← feed (replicate 64 7) bootloader_sha256_start [replicate 61 1; [2; 3]; []; replicate 130 4];
   bootloader_sha256_finish (replicate 64 7) ctx (Some (replicate 32 0))) = Some (Fips.sha256 (concat [replicate 61 1; [2; 3]; []; replicate 130 4])).
Proof.
  apply (digest_of_pieces (replicate 64 7) (replicate 32 0) [replicate 61 1; [2; 3]; []; replicate 130 4]); [reflexivity|reflexivity| |reflexivity].
  repeat constructor; discriminate.
Defined.

End Sha256.
