(* ===== verification/Image.v ===== *)
(** Application images in the flash: [esp_image_format.c] and
    [bootloader_flash.c] of [components/bootloader_support].

    The boot loader checks an image before it starts it, and the application
    before it installs it. Both are the same code over another way to read the
    flash and another hash: the class [Build], with what it promises in
    [BuildOk], an instance for each. An image of the format is accepted by
    both ([image_verdict]).

    The checksum and the hash are those of [CONFIG_BOOTLOADER_CHECK_APP_SUM] and
    [CONFIG_BOOTLOADER_CHECK_APP_HASH], both on in [app/sdkconfig]; the
    [Makefile.projbuild] that turns them into flags of the compiler holds for
    every source of the project. In the boot loader the hash is that of
    [bootloader_sha.c] itself. In an application it is that of mbedTLS, under
    [CONFIG_SSL_USING_MBEDTLS], which [app/sdkconfig] leaves off: there AxTLS is
    on, [bootloader_sha.c] defines no hash for an application, and one that
    called the updates would not link (that of [src/app] calls none). The build
    of an application here is therefore the one with mbedTLS in place of AxTLS.
    mbedTLS itself, a library vendored with the SDK, is the parameter [Mbedtls],
    of which [MbedtlsOk] asks what it documents: its digest is SHA-256. *)
From S2P Require Import Prelude SpiFlash Partition Sha256.

Module Image.
Import SpiFlash Partition.

Definition ESP_FAIL : Z := -1.
Definition ESP_ERR_IMAGE_INVALID : Z := 0x2002.
Definition ESP_IMAGE_HEADER_MAGIC : Z := 0xE9.
Definition ESP_IMAGE_MAX_SEGMENTS : Z := 16.
Definition ESP_BOOTLOADER_OFFSET : Z := 0x0000.
Definition HASH_LEN : Z := 32.
Definition SHA_CHUNK : Z := 1024.
Definition SIXTEEN_MB : Z := 0x1000000.
Definition ESP_ROM_CHECKSUM_INITIAL : Z := 0xEF.

(** ** What differs between the two builds

    [bootloader_flash_read_no_decrypt] into a buffer with some content, the
    addresses of the buffers (that of the chunks is the answer of [malloc] in
    the application), and the hash; [sha_finish] without an array for the
    digest frees the handle. *)
Class Build (F H : Type) := {
  bootloader_flash_read_no_decrypt : Z → Z → Z → list Z → M F (list Z);
  pbuf : Z; pbuf_content : list Z;
  bootloader_sha256_start : option H;
  bootloader_sha256_data : H → list Z → option H;
  bootloader_sha256_finish : H → option (list Z) → option (list Z) }.

(** [esp_image_header_t]; [h_speed_size] is the byte of two fields. *)
Record esp_image_header_t := mkHeader { h_magic : Z; h_segment_count : Z; h_spi_mode : Z; h_speed_size : Z; h_entry_addr : Z }.
Definition header_of (b : list Z) : option esp_image_header_t :=
  magic ← field b 0 1; count ← field b 1 1; mode ← field b 2 1; ss ← field b 3 1; entry ← field b 4 4;
  Some (mkHeader magic count mode ss entry).
(** [segments] and [segment_data]. *)
Record segment := mkSegment { load_addr : Z; data_len : Z; segment_data : Z }.
Record esp_image_metadata_t := mkMeta { start_addr : Z; image : esp_image_header_t; segments : list segment; image_len : Z }.

Section Load.
Context {F H : Type} `{!Build F H}.
(** The addresses of what is read into: the image header, a segment header, the
    arrays [buf] and [image_hash_flash], and what these arrays hold at first. *)
Variables (image_ptr header_ptr buf_ptr hash_ptr : Z) (buf_content hash_content : list Z).

Definition bootloader_flash_read (src_addr dest size : Z) (old : list Z) : M F (Z * list Z) :=
  if negb (Z.land src_addr 3 =? 0) then ret (ESP_FAIL, old) else
  if negb (Z.land size 3 =? 0) then ret (ESP_FAIL, old) else
  if negb (Z.land dest 3 =? 0) then ret (ESP_FAIL, old) else
  let! b := bootloader_flash_read_no_decrypt src_addr dest size old in ret (ESP_OK, b).

(** [*checksum ^= pbuf[i]] for the words of a chunk. *)
Fixpoint xor_words (n : nat) (i : Z) (buf : list Z) (checksum : Z) : option Z :=
  match n with O => Some checksum | S n => w ← field buf (4 * i) 4; xor_words n (i + 1) buf (Z.lxor checksum w) end.

(** The error of the loop, the checksum and the state of the hash. The counter
    is an [int], its overflow a fault. *)
Fixpoint data_loop (fuel : nat) (i data_addr data_len checksum : Z) (sha : H) (old : list Z) : M F (Z * (Z * H)) :=
  match fuel with
  | O => fault
  | S fuel =>
      if i <? data_len then
        let bytes := if SHA_CHUNK <? u32 (data_len - i) then SHA_CHUNK else u32 (data_len - i) in
        let! (ret_, buf) := bootloader_flash_read (u32 (data_addr + i)) pbuf bytes old in
        if negb (ret_ =? ESP_OK) then ret (ret_, (checksum, sha)) else
        let! checksum := lift (xor_words (Z.to_nat (bytes / 4)) 0 buf checksum) in
        let! bs := lift (slice buf 0 bytes) in
        let! sha := lift (bootloader_sha256_data sha bs) in
        if 2 ^ 31 <=? i + SHA_CHUNK then fault else data_loop fuel (i + SHA_CHUNK) data_addr data_len checksum sha buf
      else ret (ESP_OK, (checksum, sha))
  end.
Definition data_fuel (data_len : Z) : nat := Z.to_nat (data_len / SHA_CHUNK) + 2.
Definition process_segment_data (data_addr data_len checksum : Z) (sha : H) : M F (Z * (Z * H)) :=
  if pbuf =? 0 then ret (ESP_FAIL, (checksum, sha)) else
  data_loop (data_fuel data_len) 0 data_addr data_len checksum sha pbuf_content.

(** The header of the segment that was read, beside the result. *)
Definition process_segment (flash_addr checksum : Z) (sha : H) : M F (Z * (Z * Z) * (Z * H)) :=
  let! (err, b) := bootloader_flash_read flash_addr header_ptr 8 (replicate 8 0) in
  if negb (err =? ESP_OK) then ret (err, (0, 0), (checksum, sha)) else
  let! sha := lift (bootloader_sha256_data sha b) in
  let! load := lift (field b 0 4) in let! len := lift (field b 4 4) in
  let data_addr := u32 (flash_addr + 8) in
  if negb (len mod 4 =? 0) then ret (ESP_ERR_IMAGE_INVALID, (load, len), (checksum, sha)) else
  let! (err, st) := process_segment_data data_addr len checksum sha in
  ret (err, (load, len), st).

(** [for(int i = 0; i < data->image.segment_count; i++)], with the segments so
    far; the answer has the address behind the last. *)
Fixpoint segment_loop (count : nat) (next_addr : Z) (segs : list segment) (checksum : Z) (sha : H) : M F (Z * (Z * list segment) * (Z * H)) :=
  match count with
  | O => ret (ESP_OK, (next_addr, segs), (checksum, sha))
  | S count =>
      let! (err, (load, len), (checksum, sha)) := process_segment next_addr checksum sha in
      if negb (err =? ESP_OK) then ret (err, (next_addr, segs), (checksum, sha)) else
      let next_addr := u32 (next_addr + 8) in
      segment_loop count (u32 (next_addr + len)) (segs ++ [mkSegment load len next_addr]) checksum sha
  end.

(** The error, the length with checksum and hash, the state of the hash. *)
Definition verify_checksum (start unpadded_length checksum_word : Z) (sha : H) : M F (Z * Z * H) :=
  let length := u32 (unpadded_length + 1) in
  let length := Z.land (u32 (length + 15)) (u32 (Z.lnot 15)) in
  let! (err, buf) := bootloader_flash_read (u32 (start + unpadded_length)) buf_ptr (u32 (length - unpadded_length)) buf_content in
  if negb (err =? ESP_OK) then ret (ESP_ERR_IMAGE_INVALID, unpadded_length, sha) else
  let! calc := lift (rd buf (u32 (length - unpadded_length) - 1)) in
  let checksum := u8 (Z.lxor (Z.lxor (Z.lxor (Z.shiftr checksum_word 24) (Z.shiftr checksum_word 16)) (Z.shiftr checksum_word 8)) checksum_word) in
  if negb (checksum =? calc) then ret (ESP_ERR_IMAGE_INVALID, unpadded_length, sha) else
  let! bs := lift (slice buf 0 (u32 (length - unpadded_length))) in
  let! sha := lift (bootloader_sha256_data sha bs) in
  ret (ESP_OK, u32 (length + HASH_LEN), sha).

Definition verify_simple_hash (start image_len : Z) (sha : H) : M F Z :=
  let! (err, image_hash_flash) := bootloader_flash_read (u32 (u32 (start + image_len) - HASH_LEN)) hash_ptr HASH_LEN hash_content in
  if negb (err =? ESP_OK) then ret ESP_ERR_IMAGE_INVALID else
  let! image_hash := lift (bootloader_sha256_finish sha (Some (replicate 32 0))) in
  ret (if bool_decide (image_hash_flash = image_hash) then ESP_OK else ESP_ERR_IMAGE_INVALID).

(** The label [err]. *)
Definition load_err (err : Z) (sha_handle : option H) : M F (Z * option esp_image_metadata_t) :=
  let err := if err =? ESP_OK then ESP_ERR_IMAGE_INVALID else err in
  match sha_handle with
  | None => ret (err, None)
  | Some sha => let! _ := lift (bootloader_sha256_finish sha None) in ret (err, None)
  end.
Definition verify_image_header (image : esp_image_header_t) : Z :=
  if negb (h_magic image =? ESP_IMAGE_HEADER_MAGIC) then ESP_ERR_IMAGE_INVALID else ESP_OK.

(** [esp_image_load], with the checksum and the hash of
    [CONFIG_BOOTLOADER_CHECK_APP_SUM] and [..._HASH] of [app/sdkconfig] (see the
    head of the file for what this means in an application). *)
Definition esp_image_load (part : esp_partition_pos_t) : M F (Z * option esp_image_metadata_t) :=
  if SIXTEEN_MB <? pos_size part then load_err ESP_ERR_INVALID_ARG None else
  let start := pos_offset part in
  let! (err, b) := bootloader_flash_read start image_ptr 8 (replicate 8 0) in
  if negb (err =? ESP_OK) then load_err err None else
  match bootloader_sha256_start with
  | None => ret (ESP_ERR_NO_MEM, None)
  | Some sha =>
      let! sha := lift (bootloader_sha256_data sha b) in
      let! image := lift (header_of b) in
      let err := verify_image_header image in
      if negb (err =? ESP_OK) then load_err err (Some sha) else
      if ESP_IMAGE_MAX_SEGMENTS <? h_segment_count image then load_err ESP_OK (Some sha) else
      let! (err, (end_addr, segs), (checksum_word, sha)) :=
        segment_loop (Z.to_nat (h_segment_count image)) (u32 (start + 8)) [] ESP_ROM_CHECKSUM_INITIAL sha in
      if negb (err =? ESP_OK) then load_err err (Some sha) else
      if end_addr <? start then load_err ESP_OK (Some sha) else
      let! (err, len, sha) := verify_checksum start (u32 (end_addr - start)) checksum_word sha in
      if negb (err =? ESP_OK) then load_err err (Some sha) else
      if pos_size part <? len then load_err ESP_OK (Some sha) else
      let! err :=
        if start =? ESP_BOOTLOADER_OFFSET then (let! _ := lift (bootloader_sha256_finish sha None) in ret ESP_OK)
        else verify_simple_hash start len sha in
      if negb (err =? ESP_OK) then load_err err None else
      ret (ESP_OK, Some (mkMeta start image segs len))
  end.
End Load.

(** ** The two builds *)

(** Of the boot loader: the ROM reads the flash, what it returns is ignored. *)
Class BootRom (F : Type) := SPIRead : Z → Z → F → list Z.
Section BootBuild.
Context {F : Type} `{!BootRom F}.
(** [pbuf] is static; [w_content] is what the array [W] of the hash holds. *)
Variables (pbuf_addr : Z) (content w_content : list Z).
Definition boot_read_no_decrypt (src_addr dest size : Z) (old : list Z) : M F (list Z) :=
  let! bytes := get (SPIRead src_addr size) in lift (copy_to 0 bytes old).
#[local] Instance boot_build : Build F Sha256.context := {|
  bootloader_flash_read_no_decrypt := boot_read_no_decrypt;
  pbuf := pbuf_addr; pbuf_content := content;
  bootloader_sha256_start := Some Sha256.bootloader_sha256_start;
  bootloader_sha256_data ctx bs := Sha256.bootloader_sha256_data w_content ctx bs (zlen bs);
  bootloader_sha256_finish ctx digest := Sha256.bootloader_sha256_finish w_content ctx digest |}.
End BootBuild.

(** Of the application: the driver of [SpiFlash.v], what it returns is ignored
    as well, and the hash is that of mbedTLS: the code under
    [CONFIG_SSL_USING_MBEDTLS], which [app/sdkconfig] does not switch on. *)
Class Mbedtls (C : Type) := { mbedtls_sha256_starts : C; mbedtls_sha256_update : C → list Z → C; mbedtls_sha256_finish : C → list Z }.
Section AppBuild.
Context {F C : Type} `{!FlashChip F} `{!Mbedtls C}.
(** [junk] is the buffer of the driver; the answers of [malloc] for the chunk
    and for the hash. *)
Variables (junk : list Z) (pbuf_addr ctx_addr : Z) (content : list Z).
Definition app_read_no_decrypt (src_addr dest size : Z) (old : list Z) : M F (list Z) :=
  let! (_, bytes) := spi_flash_read junk src_addr dest size in lift (copy_to 0 bytes old).
Definition app_sha256_start : option C := if ctx_addr =? 0 then None else Some mbedtls_sha256_starts.
Definition app_sha256_data (ctx : C) (data : list Z) : option C := Some (mbedtls_sha256_update ctx data).
Definition app_sha256_finish (ctx : C) (digest : option (list Z)) : option (list Z) :=
  match digest with None => Some [] | Some _ => Some (mbedtls_sha256_finish ctx) end.
#[local] Instance app_build : Build F C := {|
  bootloader_flash_read_no_decrypt := app_read_no_decrypt;
  pbuf := pbuf_addr; pbuf_content := content;
  bootloader_sha256_start := app_sha256_start; bootloader_sha256_data := app_sha256_data; bootloader_sha256_finish := app_sha256_finish |}.
End AppBuild.

(** ** What a build promises *)

Class BuildOk (F H : Type) `{NorFlash F} `{!Build F H} := {
  hashed : H → list Z → Prop;
  read_no_decrypt_ok a dest n old f : 0 <= a → 0 <= n <= zlen old → a + n <= chip_size → a mod 4 = 0 → n mod 4 = 0 → dest ≠ 0 →
    bootloader_flash_read_no_decrypt a dest n old f = Some (bytes_of byte_at f a n ++ drop (Z.to_nat n) old, f);
  pbuf_ok : 0 < pbuf ∧ pbuf mod 4 = 0 ∧ zlen pbuf_content = SHA_CHUNK;
  sha_start_ok : ∃ h, bootloader_sha256_start = Some h ∧ hashed h [];
  sha_data_ok h m bs : hashed h m → Forall in_u8 bs → zlen bs < 2 ^ 32 → ∃ h', bootloader_sha256_data h bs = Some h' ∧ hashed h' (m ++ bs);
  sha_finish_ok h m out : hashed h m → zlen m < 2 ^ 61 → length out = 32%nat → bootloader_sha256_finish h (Some out) = Some (Fips.sha256 m) }.

Class BootRomOk (F : Type) `{NorFlash F} `{!BootRom F} :=
  SPIRead_ok a n f : 0 <= a → 0 <= n → a + n <= chip_size → a mod 4 = 0 → n mod 4 = 0 → SPIRead a n f = bytes_of byte_at f a n.
Class MbedtlsOk (C : Type) `{!Mbedtls C} :=
  mbedtls_sha256_ok pieces : mbedtls_sha256_finish (foldl mbedtls_sha256_update mbedtls_sha256_starts pieces) = Fips.sha256 (concat pieces).

Lemma copy_bytes {F} (at_ : F → Z → Z) f a n old : 0 <= n <= zlen old → copy_to 0 (bytes_of at_ f a n) old = Some (bytes_of at_ f a n ++ drop (Z.to_nat n) old).
Proof.
  intros Hn. pose proof (bytes_of_length at_ f a n ltac:(lia)) as Hl. rewrite copy_to_0 by lia. unfold zlen in Hl.
  by replace (length (bytes_of at_ f a n)) with (Z.to_nat n) by lia.
Qed.

Lemma boot_build_ok {F} `{NorFlash F} `{!BootRom F} `{!BootRomOk F} (pbuf_addr : Z) (content w_content : list Z) :
  0 < pbuf_addr → pbuf_addr mod 4 = 0 → zlen content = SHA_CHUNK → length w_content = 64%nat → @BuildOk F Sha256.context _ _ (boot_build pbuf_addr content w_content).
Proof.
  intros. refine {| hashed := Sha256.holds : @Sha256.context → _ |}.
  - intros a dest n old f Ha Hn Hend Ha4 Hn4 _. cbn. unfold boot_read_no_decrypt, bind, get. rewrite SPIRead_ok by (done || lia).
    by apply lift_run, copy_bytes.
  - done.
  - eexists. split; [done|apply Sha256.start_holds].
  - intros h m bs Hh Hb Hl. cbn. pose proof (zlen_nonneg bs). destruct (Sha256.data_holds w_content) with (ctx := h) (m := m) (data := bs) (len := zlen bs)
      as (h' & E & Hh'); [done|done|done|lia|done|]. exists h'. split; [done|]. by rewrite take_ge in Hh' by (unfold zlen; lia).
  - intros h m out Hh Hl Ho. by apply Sha256.finish_run.
Qed.
Lemma app_build_ok {F C} `{NorFlash F} `{!Mbedtls C} `{!MbedtlsOk C} (junk : list Z) (pbuf_addr ctx_addr : Z) (content : list Z) :
  zlen junk = SPI_READ_BUF_MAX → 0 < pbuf_addr → pbuf_addr mod 4 = 0 → ctx_addr ≠ 0 → zlen content = SHA_CHUNK →
  @BuildOk F C _ _ (app_build junk pbuf_addr ctx_addr content).
Proof.
  intros Hj ? ? Hctx ?. refine {| hashed := λ c m, ∃ pieces, c = foldl mbedtls_sha256_update mbedtls_sha256_starts pieces ∧ m = concat pieces |}.
  - intros a dest n old f Ha Hn Hend _ _ Hdest. cbn. unfold app_read_no_decrypt. erewrite bind_run by (apply spi_flash_read_run; [done|lia|done|done|done]).
    by apply lift_run, copy_bytes.
  - done.
  - cbn. unfold app_sha256_start. destruct (Z.eqb_spec ctx_addr 0); [done|]. eexists. split; [done|]. by exists [].
  - intros h m bs (pieces & -> & ->) _ _. eexists. split; [done|]. exists (pieces ++ [bs]). rewrite foldl_app, concat_app. cbn. by rewrite app_nil_r.
  - intros h m out (pieces & -> & ->) _ _. cbn. f_equal. apply mbedtls_sha256_ok.
Qed.

(** ** The format *)

Fixpoint le_bytes (n : nat) (w : Z) : list Z := match n with O => [] | S n => u8 w :: le_bytes n (Z.shiftr w 8) end.
Definition xor_bytes (init : Z) (bs : list Z) : Z := foldl Z.lxor init bs.

(** What goes into an image: the fields of the header, the segments with the
    address they load to, and the bytes that pad it. *)
Record app_image := mkImage { a_mode : Z; a_speed_size : Z; a_entry : Z; a_segments : list (Z * list Z); a_pad : list Z }.
Definition segment_bytes (s : Z * list Z) : list Z := le_bytes 4 s.1 ++ le_bytes 4 (zlen s.2) ++ s.2.
Definition body (img : app_image) : list Z :=
  [ESP_IMAGE_HEADER_MAGIC; zlen (a_segments img); a_mode img; a_speed_size img] ++ le_bytes 4 (a_entry img) ++ concat (segment_bytes <$> a_segments img).
Definition checked (img : app_image) : list Z :=
  body img ++ a_pad img ++ [xor_bytes ESP_ROM_CHECKSUM_INITIAL (concat (snd <$> a_segments img))].
Definition image_bytes (img : app_image) : list Z := checked img ++ Fips.sha256 (checked img).
Record image_ok (img : app_image) : Prop := {
  ok_fields : in_u8 (a_mode img) ∧ in_u8 (a_speed_size img) ∧ in_u32 (a_entry img);
  ok_count : zlen (a_segments img) <= ESP_IMAGE_MAX_SEGMENTS;
  ok_segments : Forall (λ s, in_u32 s.1 ∧ zlen s.2 mod 4 = 0 ∧ Forall in_u8 s.2) (a_segments img);
  ok_pad : zlen (a_pad img) = 15 - zlen (body img) mod 16 ∧ Forall in_u8 (a_pad img) }.

(** The bytes [bs] are in the flash at [a]. *)
Definition placed {F} (at_ : F → Z → Z) (f : F) (a : Z) (bs : list Z) : Prop := bytes_of at_ f a (zlen bs) = bs.
Lemma placed_app {F} (at_ : F → Z → Z) f a b1 b2 : placed at_ f a (b1 ++ b2) ↔ placed at_ f a b1 ∧ placed at_ f (a + zlen b1) b2.
Proof.
  unfold placed. rewrite zlen_app, bytes_of_app by apply zlen_nonneg. split; [|by intros [-> ->]].
  intros E. apply app_inj_1 in E; [done|]. pose proof (bytes_of_length at_ f a (zlen b1) (zlen_nonneg b1)) as Hl. unfold zlen in Hl at 1 3. lia.
Qed.

(** *** Fields and checksums *)

Lemma le_le_bytes n w : le (le_bytes n w) = w mod 2 ^ (8 * Z.of_nat n).
Proof.
  revert w. induction n as [|n IH]; intros w; [cbn; by rewrite Z.mod_1_r|]. cbn [le_bytes le foldr]. change (foldr _ 0 (le_bytes n ?x)) with (le (le_bytes n x)).
  rewrite IH, Z.shiftr_div_pow2 by lia. unfold u8. rewrite (Z.mul_comm 256). change 256 with (2 ^ 8). replace (8 * Z.of_nat (S n)) with (8 + 8 * Z.of_nat n) by lia.
  rewrite Z.pow_add_r by lia. rewrite Z.rem_mul_r by lia. lia.
Qed.
Lemma le_bytes_length n w : length (le_bytes n w) = n.
Proof. revert w. induction n as [|n IH]; intros w; cbn; [done|]. by rewrite IH. Qed.
Lemma le_bytes_u8 n w : Forall in_u8 (le_bytes n w).
Proof. revert w. induction n as [|n IH]; intros w; constructor; auto using u8_range. Qed.
Lemma field_run (pre w post : list Z) off n : zlen pre = off → zlen w = n → field (pre ++ w ++ post) off n = Some (le w).
Proof. intros. unfold field. by rewrite (slice_run pre w post). Qed.
Lemma field_u32 (pre post : list Z) w off : in_u32 w → zlen pre = off → field (pre ++ le_bytes 4 w ++ post) off 4 = Some w.
Proof.
  intros Hw Hoff. rewrite (field_run pre (le_bytes 4 w) post) by (done || unfold zlen; by rewrite le_bytes_length).
  rewrite le_le_bytes. f_equal. by apply Z.mod_small.
Qed.

(** The four bytes of a word folded into one, as [verify_checksum] does. *)
Definition fold8 (w : Z) : Z := u8 (Z.lxor (Z.lxor (Z.lxor (Z.shiftr w 24) (Z.shiftr w 16)) (Z.shiftr w 8)) w).
Lemma fold8_lxor a b : fold8 (Z.lxor a b) = Z.lxor (fold8 a) (fold8 b).
Proof. unfold fold8. rewrite <- !land_255_u8. bits_done. Qed.
Lemma byte_lxor a b : u8 (Z.lxor a b) = Z.lxor (u8 a) (u8 b).
Proof. rewrite <- !land_255_u8. bits_done. Qed.
Lemma fold8_le b0 b1 b2 b3 : in_u8 b0 → in_u8 b1 → in_u8 b2 → in_u8 b3 → fold8 (le [b0; b1; b2; b3]) = Z.lxor (Z.lxor (Z.lxor b3 b2) b1) b0.
Proof.
  unfold in_u8. intros. unfold fold8. rewrite !byte_lxor. rewrite !Z.shiftr_div_pow2 by lia. cbn [le foldr].
  f_equal; [f_equal; [f_equal|]|]; unfold u8; dlia.
Qed.

Lemma xor_words_run n : ∀ i pre bs post ck, zlen pre = 4 * i → length bs = (4 * n)%nat → Forall in_u8 bs →
  ∃ ck', xor_words n i (pre ++ bs ++ post) ck = Some ck' ∧ fold8 ck' = xor_bytes (fold8 ck) bs.
Proof.
  induction n as [|n IH]; intros i pre bs post ck Hpre Hl Hu; [exists ck; by destruct bs|].
  destruct bs as [|b0 [|b1 [|b2 [|b3 bs]]]]; try (cbn in Hl; lia). rewrite !Forall_cons in Hu. destruct Hu as (U0 & U1 & U2 & U3 & Hu).
  cbn [xor_words]. change ((b0 :: b1 :: b2 :: b3 :: bs) ++ post) with ([b0; b1; b2; b3] ++ (bs ++ post)).
  rewrite (field_run pre [b0; b1; b2; b3] (bs ++ post)) by done. cbn [mbind option_bind]. rewrite app_assoc.
  destruct (IH (i + 1) (pre ++ [b0; b1; b2; b3]) bs post (Z.lxor ck (le [b0; b1; b2; b3]))) as (ck' & E & Ef); [rewrite zlen_app; unfold zlen at 2; cbn; lia|cbn in Hl; lia|done|].
  exists ck'. split; [done|]. rewrite Ef, fold8_lxor, fold8_le by done. unfold xor_bytes. cbn [foldl]. f_equal. bits_done.
Qed.
Lemma xor_bytes_app init b1 b2 : xor_bytes init (b1 ++ b2) = xor_bytes (xor_bytes init b1) b2.
Proof. apply foldl_app. Qed.

(** ** Loading *)

Section Runs.
Context {F H : Type} `{BuildOk F H}.
Variables (image_ptr header_ptr buf_ptr hash_ptr : Z) (buf_content hash_content : list Z).
(** A pointer to words. *)
Definition word_ptr (p : Z) : Prop := p ≠ 0 ∧ p mod 4 = 0.
Hypothesis Hptrs : word_ptr image_ptr ∧ word_ptr header_ptr ∧ word_ptr buf_ptr ∧ word_ptr hash_ptr.
Hypothesis Hbuf : zlen buf_content = 16.
Hypothesis Hhash : zlen hash_content = HASH_LEN.
Implicit Types f : F.
Abbreviation at_place := (placed byte_at).

Lemma read_run a dest bs old f n : at_place f a bs → zlen bs = n → 0 <= a → a mod 4 = 0 → n mod 4 = 0 → a + n <= chip_size → word_ptr dest → n <= zlen old →
  bootloader_flash_read a dest n old f = Some ((ESP_OK, bs ++ drop (length bs) old), f).
Proof.
  intros Hp <- Ha Ha4 Hn4 Hend [Hd Hd4] Hold. pose proof (zlen_nonneg bs). unfold bootloader_flash_read. change 3 with (FLASH_ALIGN_BYTES - 1). rewrite !land_3, Ha4, Hn4, Hd4. cbn [Z.eqb negb].
  pose proof (zlen_nonneg bs). erewrite bind_run by (apply read_no_decrypt_ok; done || lia). unfold placed in Hp. rewrite Hp. unfold zlen. by rewrite Nat2Z.id.
Qed.

(** The bytes fed to the hash, and the checksum of the data. *)
Lemma data_loop_run fuel : ∀ d i a total ck sha old m f, at_place f (a + i) d → i + zlen d = total → 0 <= i → i mod 1024 = 0 → 0 <= a → a mod 4 = 0 →
  zlen d mod 4 = 0 → a + total <= chip_size → zlen d <= 1024 * (Z.of_nat fuel - 1) → zlen old = 1024 → Forall in_u8 d → hashed sha m →
  ∃ ck' sha', data_loop fuel i a total ck sha old f = Some ((ESP_OK, (ck', sha')), f) ∧ fold8 ck' = xor_bytes (fold8 ck) d ∧ hashed sha' (m ++ d).
Proof.
  induction fuel as [|fuel IH]; intros d i a total ck sha old m f Hp Htotal Hi Hi4 Ha Ha4 Hd4 Hend Hfuel Hold Hu Hm; [pose proof (zlen_nonneg d); lia|].
  pose proof (zlen_nonneg d). unfold chip_size, CONFIG_SPI_FLASH_SIZE in *. cbn [data_loop]. destruct (Z.ltb_spec i total) as [Hlt|].
  2: { exists ck, sha. assert (d = []) as -> by (apply length_zero_iff_nil; unfold zlen in *; lia). by rewrite app_nil_r. }
  unfold SHA_CHUNK. rewrite (u32_id (total - i)), (u32_id (a + i)) by (unfold in_u32; lia).
  set (n := if 1024 <? total - i then 1024 else total - i).
  assert (Hn : 0 < n <= 1024 ∧ n <= zlen d ∧ n mod 4 = 0 ∧ (n < zlen d → n = 1024)) by (unfold n; destruct (Z.ltb_spec 1024 (total - i)); [|replace (total - i) with (zlen d) by lia]; split_and!; (done || lia)). clearbody n.
  assert (Hcut : ∃ d1 d2, d = d1 ++ d2 ∧ zlen d1 = n) by (exists (take (Z.to_nat n) d), (drop (Z.to_nat n) d); rewrite take_drop; split; [done|]; unfold zlen in *; rewrite length_take; lia).
  destruct Hcut as (d1 & d2 & -> & Hd1). apply placed_app in Hp as [Hp1 Hp2]. apply Forall_app in Hu as [Hu1 Hu2]. rewrite zlen_app in *.
  destruct pbuf_ok as (Hpb & Hpb4 & Hpc). erewrite bind_run by (apply (read_run (a + i) pbuf d1); [done|done|lia|dlia|lia|unfold chip_size, CONFIG_SPI_FLASH_SIZE; lia|split; [lia|done]|lia]).
  cbv beta iota. cbn [Z.eqb negb ESP_OK].
  destruct (xor_words_run (Z.to_nat (n / 4)) 0 [] d1 (drop (length d1) old) ck) as (ck1 & Ex & Ef1); [done|unfold zlen in Hd1; dlia|done|]. cbn [app] in Ex.
  erewrite bind_run by by apply lift_run. erewrite bind_run by (apply lift_run, (slice_run [] d1); done).
  destruct (sha_data_ok sha m d1 Hm Hu1) as (sha1 & Es & Hm1); [lia|]. erewrite bind_run by by apply lift_run.
  destruct (Z.leb_spec (2 ^ 31) (i + 1024)); [lia|]. destruct (decide (zlen d2 = 0)) as [E0|].
  - assert (d2 = []) as -> by (apply length_zero_iff_nil; unfold zlen in *; lia). rewrite !app_nil_r in *. destruct fuel as [|fuel]; [lia|]. cbn [data_loop].
    destruct (Z.ltb_spec (i + 1024) total); [lia|]. exists ck1, sha1. done.
  - assert (Hn1 : n = 1024) by lia. subst n. rewrite Hn1 in *.
    destruct (IH d2 (i + 1024) a total ck1 sha1 (d1 ++ drop (length d1) old) (m ++ d1) f) as (ck2 & sha2 & Er & Ef2 & Hm2); try done; try lia.
    + by replace (a + (i + 1024)) with (a + i + 1024) by lia.
    + dlia.
    + dlia.
    + rewrite zlen_app. unfold zlen in *. rewrite length_drop. lia.
    + exists ck2, sha2. split; [done|]. rewrite Ef2, Ef1, xor_bytes_app, app_assoc. done.
Qed.

Lemma segment_run a l d ck sha m f : at_place f a (segment_bytes (l, d)) → 0 <= a → a mod 4 = 0 → a + 8 + zlen d <= chip_size →
  in_u32 l → zlen d mod 4 = 0 → Forall in_u8 d → hashed sha m →
  ∃ ck' sha', process_segment header_ptr a ck sha f = Some ((ESP_OK, (l, zlen d), (ck', sha')), f) ∧
    fold8 ck' = xor_bytes (fold8 ck) d ∧ hashed sha' (m ++ segment_bytes (l, d)).
Proof.
  intros Hp Ha Ha4 Hend Hl Hd4 Hu Hm. pose proof (zlen_nonneg d). unfold segment_bytes in *. cbn [fst snd] in *. rewrite app_assoc in *.
  apply placed_app in Hp as [Hp1 Hp2]. set (hd := le_bytes 4 l ++ le_bytes 4 (zlen d)) in *. change (zlen hd) with 8 in Hp2. unfold process_segment.
  unfold chip_size, CONFIG_SPI_FLASH_SIZE in *.
  erewrite bind_run by (apply (read_run a header_ptr hd); [done|done|lia|done|done|unfold chip_size, CONFIG_SPI_FLASH_SIZE; lia|tauto|done]).
  cbv beta iota. cbn [Z.eqb negb ESP_OK]. change (drop (length hd) (replicate 8 0)) with (@nil Z). rewrite app_nil_r.
  destruct (sha_data_ok sha m hd Hm) as (sha1 & Es & Hm1); [apply Forall_app_2; apply le_bytes_u8|done|]. erewrite bind_run by by apply lift_run.
  assert (E1 : field hd 0 4 = Some l) by (apply (field_u32 [] (le_bytes 4 (zlen d))); done).
  assert (E2 : field hd 4 4 = Some (zlen d)).
  { unfold hd. rewrite <- (app_nil_r (le_bytes 4 (zlen d))). apply (field_u32 (le_bytes 4 l) []); [unfold in_u32; lia|done]. }
  erewrite bind_run by by apply lift_run. erewrite bind_run by by apply lift_run. rewrite Hd4. cbn [Z.eqb negb]. rewrite u32_id by (unfold in_u32; lia).
  unfold process_segment_data. destruct pbuf_ok as (Hpb & Hpb4 & Hpc). destruct (Z.eqb_spec pbuf 0); [lia|].
  destruct (data_loop_run (data_fuel (zlen d)) d 0 (a + 8) (zlen d) ck sha1 pbuf_content (m ++ hd) f) as (ck2 & sha2 & Er & Ef & Hm2);
    [by rewrite Z.add_0_r|done|done|done|lia|dlia|done|unfold chip_size, CONFIG_SPI_FLASH_SIZE; lia|unfold data_fuel, SHA_CHUNK; dlia|done|done|done|].
  erewrite bind_run by done. exists ck2, sha2. split_and!; [done|done|]. unfold hd in Hm2. by rewrite <- !app_assoc in Hm2 |- *.
Qed.
(** The entries of the segments of an image at [a]. *)
Fixpoint segments_at (a : Z) (segs : list (Z * list Z)) : list segment :=
  match segs with [] => [] | (l, d) :: segs => mkSegment l (zlen d) (a + 8) :: segments_at (a + 8 + zlen d) segs end.
Definition segment_ok (s : Z * list Z) : Prop := in_u32 s.1 ∧ zlen s.2 mod 4 = 0 ∧ Forall in_u8 s.2.

Lemma segment_length l d : zlen (segment_bytes (l, d)) = 8 + zlen d.
Proof. unfold segment_bytes. rewrite !zlen_app. change (4 + (4 + zlen d) = 8 + zlen d). lia. Qed.
Lemma segment_loop_run segs : ∀ a acc ck sha m f, at_place f a (concat (segment_bytes <$> segs)) → 0 <= a → a mod 4 = 0 →
  a + zlen (concat (segment_bytes <$> segs)) <= chip_size → Forall segment_ok segs → hashed sha m →
  ∃ ck' sha', segment_loop header_ptr (length segs) a acc ck sha f =
      Some ((ESP_OK, (a + zlen (concat (segment_bytes <$> segs)), acc ++ segments_at a segs), (ck', sha')), f) ∧
    fold8 ck' = xor_bytes (fold8 ck) (concat (snd <$> segs)) ∧ hashed sha' (m ++ concat (segment_bytes <$> segs)) ∧
    zlen (concat (segment_bytes <$> segs)) mod 4 = 0.
Proof.
  induction segs as [|[l d] segs IH]; intros a acc ck sha m f Hp Ha Ha4 Hend Hok Hm.
  { exists ck, sha. cbn. unfold zlen. cbn. by rewrite Z.add_0_r, !app_nil_r. }
  rewrite fmap_cons in *. cbn [concat] in *. apply placed_app in Hp as [Hp1 Hp2]. rewrite zlen_app, segment_length in *. apply Forall_cons in Hok as [(Hl & Hd4 & Hu) Hok].
  cbn [fst snd] in *. pose proof (zlen_nonneg d). pose proof (zlen_nonneg (concat (segment_bytes <$> segs))). cbn [segment_loop length].
  destruct (segment_run a l d ck sha m f) as (ck1 & sha1 & Er & Ef & Hm1); [done|done|done|lia|done|done|done|done|].
  erewrite bind_run by done. cbv beta iota. cbn [Z.eqb negb ESP_OK]. unfold chip_size, CONFIG_SPI_FLASH_SIZE in *.
  rewrite (u32_id (a + 8)), (u32_id (a + 8 + zlen d)) by (unfold in_u32; lia).
  destruct (IH (a + 8 + zlen d) (acc ++ [mkSegment l (zlen d) (a + 8)]) ck1 sha1 (m ++ segment_bytes (l, d)) f) as (ck2 & sha2 & Er2 & Ef2 & Hm2 & Hz4);
    [by rewrite <- Z.add_assoc|lia|dlia|lia|done|done|].
  exists ck2, sha2. rewrite Er2. cbn [segments_at]. rewrite <- !app_assoc in *. split; [do 4 f_equal; f_equal; lia|]. split; [|split; [done|dlia]].
  rewrite Ef2, Ef, <- xor_bytes_app. done.
Qed.

Lemma xor_bytes_u8 bs : Forall in_u8 bs → ∀ c, in_u8 c → in_u8 (xor_bytes c bs).
Proof. induction 1 as [|b bs Hb Hbs IH]; intros c Hc; [done|]. apply IH. by apply (lxor_range 8). Qed.
Lemma sha256_length m : zlen (Fips.sha256 m) = HASH_LEN.
Proof. unfold Fips.sha256, Fips.digest. by destruct (Fips.absorb _ _ _).1 as [[[[[[[? ?] ?] ?] ?] ?] ?] ?]. Qed.

(** The padding to 16 bytes. *)
Lemma checksum_length n : 0 <= n < 2 ^ 31 → Z.land (u32 (u32 (n + 1) + 15)) (u32 (Z.lnot 15)) = n + (15 - n mod 16) + 1.
Proof.
  intros. rewrite (u32_id (n + 1)) by (unfold in_u32; lia). rewrite u32_id by (unfold in_u32; lia).
  change 15 with (Z.ones 4) at 2. rewrite land_clear by (unfold in_u32; lia). dlia.
Qed.

Lemma verify_checksum_run start n pad ck sha m f : at_place f (start + n) (pad ++ [fold8 ck]) → 0 <= start → start mod 4 = 0 → 0 <= n → n mod 4 = 0 →
  zlen pad = 15 - n mod 16 → Forall in_u8 pad → start + n + 16 <= chip_size → hashed sha m →
  ∃ sha', verify_checksum buf_ptr buf_content start n ck sha f = Some ((ESP_OK, n + zlen pad + 1 + HASH_LEN, sha'), f) ∧ hashed sha' (m ++ pad ++ [fold8 ck]).
Proof.
  intros Hp Hs Hs4 Hn Hn4 Hpad Hu Hend Hm. unfold chip_size, CONFIG_SPI_FLASH_SIZE in *. unfold verify_checksum. rewrite checksum_length by lia. rewrite <- Hpad.
  pose proof (zlen_nonneg pad). replace (n + zlen pad + 1 - n) with (zlen pad + 1) by lia. rewrite (u32_id (zlen pad + 1)), (u32_id (start + n)) by (unfold in_u32; dlia).
  assert (Hl : zlen (pad ++ [fold8 ck]) = zlen pad + 1) by by rewrite zlen_app.
  erewrite bind_run by (apply (read_run (start + n) buf_ptr (pad ++ [fold8 ck])); [done|done|lia|dlia|dlia|unfold chip_size, CONFIG_SPI_FLASH_SIZE; dlia|tauto|dlia]).
  cbv beta iota. cbn [Z.eqb negb ESP_OK]. rewrite <- app_assoc.
  erewrite bind_run; [|apply lift_run; rewrite rd_app; replace (zlen pad + 1 - 1) with (zlen pad) by lia; rewrite Z.ltb_irrefl, Z.sub_diag; done].
  fold (fold8 ck). rewrite Z.eqb_refl. cbn [negb]. rewrite app_assoc.
  erewrite bind_run by (apply lift_run, (slice_run []); done).
  destruct (sha_data_ok sha m (pad ++ [fold8 ck]) Hm) as (sha' & Es & Hm'); [apply Forall_app_2; [done|constructor; [apply u8_range|constructor]]|dlia|].
  erewrite bind_run by by apply lift_run. exists sha'. rewrite u32_id by (unfold in_u32, HASH_LEN; dlia). done.
Qed.
Lemma verify_hash_run start len sha m f : hashed sha m → zlen m = len - HASH_LEN → at_place f (start + len - HASH_LEN) (Fips.sha256 m) → 0 <= start → start mod 4 = 0 →
  HASH_LEN <= len → len mod 4 = 0 → start + len <= chip_size → verify_simple_hash hash_ptr hash_content start len sha f = Some (ESP_OK, f).
Proof.
  intros Hm Hlm Hp Hs Hs4 Hl Hl4 Hend. unfold verify_simple_hash. unfold HASH_LEN, chip_size, CONFIG_SPI_FLASH_SIZE in *.
  rewrite (u32_id (start + len)), u32_id by (unfold in_u32; lia).
  erewrite bind_run by (apply (read_run (start + len - 32) hash_ptr (Fips.sha256 m)); [done|apply sha256_length|lia|dlia|done|unfold chip_size, CONFIG_SPI_FLASH_SIZE; lia|tauto|lia]).
  cbv beta iota. cbn [Z.eqb negb ESP_OK]. erewrite bind_run by (apply lift_run, (sha_finish_ok sha m); [done|lia|done]).
  rewrite drop_ge, app_nil_r by (pose proof (sha256_length m) as Hsl; unfold zlen, HASH_LEN in *; lia). by rewrite bool_decide_eq_true_2.
Qed.

Definition header_bytes (img : app_image) : list Z :=
  [ESP_IMAGE_HEADER_MAGIC; zlen (a_segments img); a_mode img; a_speed_size img] ++ le_bytes 4 (a_entry img).
Definition header_in (img : app_image) : esp_image_header_t :=
  mkHeader ESP_IMAGE_HEADER_MAGIC (zlen (a_segments img)) (a_mode img) (a_speed_size img) (a_entry img).
Lemma header_run img : image_ok img → header_of (header_bytes img) = Some (header_in img).
Proof.
  intros [(_ & _ & He) _ _ _]. unfold header_of, header_in, header_bytes. set (c := zlen (a_segments img)). set (e := le_bytes 4 (a_entry img)).
  set (m := ESP_IMAGE_HEADER_MAGIC). set (b := [m; c; a_mode img; a_speed_size img] ++ e).
  assert (E0 : field b 0 1 = Some (le [m])) by exact (field_run [] [m] ([c; a_mode img; a_speed_size img] ++ e) 0 1 eq_refl eq_refl).
  assert (E1 : field b 1 1 = Some (le [c])) by exact (field_run [m] [c] ([a_mode img; a_speed_size img] ++ e) 1 1 eq_refl eq_refl).
  assert (E2 : field b 2 1 = Some (le [a_mode img])) by exact (field_run [m; c] [a_mode img] ([a_speed_size img] ++ e) 2 1 eq_refl eq_refl).
  assert (E3 : field b 3 1 = Some (le [a_speed_size img])) by exact (field_run [m; c; a_mode img] [a_speed_size img] e 3 1 eq_refl eq_refl).
  assert (E4 : field b 4 4 = Some (a_entry img)) by (unfold b; rewrite <- (app_nil_r e); by apply field_u32).
  rewrite E0, E1, E2, E3, E4.
  cbn [mbind option_bind le foldr]. by rewrite !Z.mul_0_r, !Z.add_0_r.
Qed.
Definition meta_of (a : Z) (img : app_image) : esp_image_metadata_t :=
  mkMeta a (header_in img) (segments_at (a + 8) (a_segments img)) (zlen (image_bytes img)).

Lemma image_load_run img off size f : image_ok img → at_place f off (image_bytes img) → 0 < off → off mod 4 = 0 →
  zlen (image_bytes img) <= size → off + size <= chip_size →
  esp_image_load image_ptr header_ptr buf_ptr hash_ptr buf_content hash_content (mkPos off size) f = Some ((ESP_OK, Some (meta_of off img)), f).
Proof.
  intros Hok Hp Hoff Hoff4 Hsize Hend. pose proof Hok as [(Hmode & Hss & _) Hcount Hsegs [Hpad Hpu]]. pose proof (header_run img Hok) as Hh.
  unfold ESP_IMAGE_MAX_SEGMENTS, chip_size, CONFIG_SPI_FLASH_SIZE in *. pose proof (zlen_nonneg (a_segments img)).
  set (hd := header_bytes img) in *. set (sg := concat (segment_bytes <$> a_segments img)). set (ck := xor_bytes ESP_ROM_CHECKSUM_INITIAL (concat (snd <$> a_segments img))).
  assert (Eb : body img = hd ++ sg) by (unfold body, hd, header_bytes, sg; by rewrite app_assoc).
  assert (Ei : image_bytes img = hd ++ sg ++ (a_pad img ++ [ck]) ++ Fips.sha256 (checked img)) by (unfold image_bytes, checked at 1; rewrite Eb, <- !app_assoc; done).
  assert (Ec : checked img = (hd ++ sg) ++ a_pad img ++ [ck]) by (unfold checked; by rewrite Eb). change (zlen hd) with 8 in *.
  assert (Hlen : zlen (image_bytes img) = 8 + zlen sg + zlen (a_pad img) + 1 + HASH_LEN)
    by (rewrite Ei, !zlen_app, sha256_length; change (zlen hd) with 8; change (zlen [ck]) with 1; lia).
  rewrite Eb, zlen_app in Hpad. change (zlen hd) with 8 in Hpad. pose proof (zlen_nonneg sg). pose proof (zlen_nonneg (a_pad img)).
  rewrite Ei in Hp. apply placed_app in Hp as [Hp1 Hp]. apply placed_app in Hp as [Hp2 Hp]. apply placed_app in Hp as [Hp3 Hp4]. change (zlen hd) with 8 in *.
  assert (Hk : zlen (a_pad img ++ [ck]) = zlen (a_pad img) + 1) by by rewrite zlen_app.
  unfold esp_image_load. cbn [pos_size pos_offset]. unfold HASH_LEN in Hlen. destruct (Z.ltb_spec SIXTEEN_MB size); [unfold SIXTEEN_MB in *; lia|].
  erewrite bind_run by (apply (read_run off image_ptr hd); [done|done|lia|done|done|unfold chip_size, CONFIG_SPI_FLASH_SIZE; lia|tauto|done]).
  cbv beta iota. cbn [Z.eqb negb ESP_OK]. change (drop (length hd) (replicate 8 0)) with (@nil Z). rewrite app_nil_r.
  destruct sha_start_ok as (h0 & -> & Hm0). destruct (sha_data_ok h0 [] hd Hm0) as (h1 & Es & Hm1);
    [unfold hd, header_bytes; rewrite Forall_app, !Forall_cons; split_and!; [by split|unfold in_u8; lia|done|done|constructor|apply le_bytes_u8]|done|].
  erewrite bind_run by by apply lift_run. erewrite bind_run by by apply lift_run. cbn [app] in Hm1.
  unfold verify_image_header. cbn [h_magic header_in h_segment_count]. rewrite Z.eqb_refl. cbn [Z.eqb negb ESP_OK].
  destruct (Z.ltb_spec ESP_IMAGE_MAX_SEGMENTS (zlen (a_segments img))); [unfold ESP_IMAGE_MAX_SEGMENTS in *; lia|].
  replace (Z.to_nat (zlen (a_segments img))) with (length (a_segments img)) by (unfold zlen; lia). rewrite (u32_id (off + 8)) by (unfold in_u32; lia).
  destruct (segment_loop_run (a_segments img) (off + 8) [] ESP_ROM_CHECKSUM_INITIAL h1 hd f) as (ck2 & h2 & Er & Ef & Hm2 & Hz4);
    [done|lia|dlia|unfold chip_size, CONFIG_SPI_FLASH_SIZE; fold sg; lia|done|done|]. fold sg in Er, Hm2, Hz4.
  erewrite bind_run by done. cbv beta iota. cbn [Z.eqb negb ESP_OK]. destruct (Z.ltb_spec (off + 8 + zlen sg) off); [lia|].
  replace (off + 8 + zlen sg - off) with (8 + zlen sg) by lia. rewrite (u32_id (8 + zlen sg)) by (unfold in_u32; lia).
  assert (Eck : fold8 ck2 = ck) by by rewrite Ef.
  destruct (verify_checksum_run off (8 + zlen sg) (a_pad img) ck2 h2 (hd ++ sg) f) as (h3 & Ev & Hm3);
    [rewrite Eck, Z.add_assoc; done|lia|done|lia|dlia|done|done|unfold chip_size, CONFIG_SPI_FLASH_SIZE; dlia|done|]. rewrite Eck in Hm3.
  erewrite bind_run by done. cbv beta iota. cbn [Z.eqb negb ESP_OK]. rewrite <- Ec in Hm3. unfold HASH_LEN.
  destruct (Z.ltb_spec size (8 + zlen sg + zlen (a_pad img) + 1 + 32)); [lia|].
  destruct (Z.eqb_spec off ESP_BOOTLOADER_OFFSET); [unfold ESP_BOOTLOADER_OFFSET in *; lia|].
  erewrite bind_run.
  2: { apply (verify_hash_run off (8 + zlen sg + zlen (a_pad img) + 1 + 32) h3 (checked img)); [done|rewrite Ec, zlen_app, Hk, zlen_app; change (zlen hd) with 8; unfold HASH_LEN; lia| |lia|done|unfold HASH_LEN; lia|dlia|unfold chip_size, CONFIG_SPI_FLASH_SIZE; lia].
       rewrite Hk in Hp4. unfold HASH_LEN. by replace (off + (8 + zlen sg + zlen (a_pad img) + 1 + 32) - 32) with (off + 8 + zlen sg + (zlen (a_pad img) + 1)) by lia. }
  unfold meta_of. rewrite Hlen. done.
Qed.
End Runs.

(** ** Other images *)

Lemma header_of_any b : length b = 8%nat → ∃ h, header_of b = Some h ∧ rd b 0 = Some (h_magic h).
Proof.
  intros Hl. destruct b as [|b0 [|b1 [|b2 [|b3 [|b4 [|b5 [|b6 [|b7 [|]]]]]]]]]; try (cbn in Hl; lia).
  eexists. split; [reflexivity|]. change (Some b0 = Some (b0 + 256 * 0)). by rewrite Z.mul_0_r, Z.add_0_r.
Qed.
(** The boot loader's hash is not ended without an array. *)
Lemma finish_null w_content ctx : Sha256.bootloader_sha256_finish w_content ctx None = None.
Proof.
  unfold Sha256.bootloader_sha256_finish. destruct (Sha256.PUT_UINT32_BE _ _ 0) as [b1|]; [|done]. cbn [mbind option_bind].
  destruct (Sha256.PUT_UINT32_BE _ _ 4) as [b2|]; [|done]. cbn [mbind option_bind]. destruct (Sha256.bootloader_sha256_data _ _ _ _) as [c1|]; [|done]. cbn [mbind option_bind].
  by destruct (Sha256.bootloader_sha256_data _ _ _ _).
Qed.
Section BadMagic.
Context {F H : Type} `{BuildOk F H}.
Variables (image_ptr header_ptr buf_ptr hash_ptr : Z) (buf_content hash_content : list Z).
(** What is not an image leads to the label [err] with the handle of the hash. *)
Lemma bad_magic_run off size (f : F) : word_ptr image_ptr → 0 <= off → off mod 4 = 0 → off + 8 <= chip_size → size <= SIXTEEN_MB → byte_at f off ≠ ESP_IMAGE_HEADER_MAGIC →
  ∃ sha, esp_image_load image_ptr header_ptr buf_ptr hash_ptr buf_content hash_content (mkPos off size) f = load_err ESP_ERR_IMAGE_INVALID (Some sha) f.
Proof.
  intros Hptr Hoff Hoff4 Hend Hsize Hmagic. unfold esp_image_load. cbn [pos_size pos_offset]. destruct (Z.ltb_spec SIXTEEN_MB size); [lia|].
  set (b := bytes_of byte_at f off 8). assert (Hb : zlen b = 8) by by apply bytes_of_length.
  erewrite bind_run by (apply (read_run off image_ptr b); [unfold placed; by rewrite Hb|done|done|done|done|done|done|done]).
  cbv beta iota. cbn [Z.eqb negb ESP_OK]. assert (Hl : length b = 8%nat) by (unfold zlen in Hb; lia).
  rewrite drop_ge, app_nil_r by (rewrite length_replicate; lia).
  destruct sha_start_ok as (h0 & -> & Hm0). destruct (sha_data_ok h0 [] b Hm0) as (h1 & Es & _); [apply bytes_u8|by rewrite Hb|].
  erewrite bind_run by by apply lift_run. destruct (header_of_any b Hl) as (h & Eh & Em). erewrite bind_run by by apply lift_run.
  unfold b in Em. rewrite rd_bytes_of, Z.add_0_r in Em by lia. injection Em as Em. unfold verify_image_header. rewrite <- Em.
  destruct (Z.eqb_spec (byte_at f off) ESP_IMAGE_HEADER_MAGIC); [done|]. cbn [negb]. by exists h1.
Qed.
End BadMagic.

(** C8: What the boot loader and the application say of a partition. An image of
    the format - header, segments of whole words, padding, the exclusive or of
    the data, the SHA-256 of it all - that fits is accepted by both, with its
    fields and its length. If the first byte is not the magic number, the
    application refuses it, but the boot loader does not come back: on the way
    out it ends its hash with a null pointer for the digest, and its hash
    writes there. *)
Theorem image_verdict {F C : Type} `{NorFlash F} `{!BootRom F} `{!BootRomOk F} `{!Mbedtls C} `{!MbedtlsOk C}
  (junk content w_content buf_content hash_content : list Z) (pbuf_addr ctx_addr image_ptr header_ptr buf_ptr hash_ptr off size : Z) (f : F)
  (Hjunk : zlen junk = SPI_READ_BUF_MAX) (Hcontent : zlen content = SHA_CHUNK) (Hw : length w_content = 64%nat) (Hbuf : zlen buf_content = 16)
  (Hhash : zlen hash_content = HASH_LEN) (Hpbuf : 0 < pbuf_addr) (Hpbuf4 : pbuf_addr mod 4 = 0) (Hctx : ctx_addr ≠ 0)
  (Hptrs : word_ptr image_ptr ∧ word_ptr header_ptr ∧ word_ptr buf_ptr ∧ word_ptr hash_ptr)
  (Hoff : 0 < off) (Hoff4 : off mod 4 = 0) (Hsize : 8 <= size) (Hend : off + size <= chip_size) :
  let boot := @esp_image_load F _ (boot_build pbuf_addr content w_content) image_ptr header_ptr buf_ptr hash_ptr buf_content hash_content (mkPos off size) in
  let app := @esp_image_load F C (app_build junk pbuf_addr ctx_addr content) image_ptr header_ptr buf_ptr hash_ptr buf_content hash_content (mkPos off size) in
  (∀ img, image_ok img → placed byte_at f off (image_bytes img) → zlen (image_bytes img) <= size →
    boot f = Some ((ESP_OK, Some (meta_of off img)), f) ∧ app f = Some ((ESP_OK, Some (meta_of off img)), f)) ∧
  (byte_at f off ≠ ESP_IMAGE_HEADER_MAGIC → boot f = None ∧ app f = Some ((ESP_ERR_IMAGE_INVALID, None), f)).
Proof.
  pose proof (boot_build_ok pbuf_addr content w_content Hpbuf Hpbuf4 Hcontent Hw) as Hb.
  pose proof (app_build_ok junk pbuf_addr ctx_addr content Hjunk Hpbuf Hpbuf4 Hctx Hcontent) as Ha. intros boot app. split.
  - intros img Hok Hp Hfit. split; [by apply (image_load_run (H2 := Hb))|by apply (image_load_run (H2 := Ha))].
  - unfold chip_size, CONFIG_SPI_FLASH_SIZE in *. intros Hmagic. split.
    + destruct (bad_magic_run (H2 := Hb) image_ptr header_ptr buf_ptr hash_ptr buf_content hash_content off size f) as (sha & E);
        [tauto|lia|done|unfold chip_size, CONFIG_SPI_FLASH_SIZE; lia|unfold SIXTEEN_MB; lia|done|].
      unfold boot. rewrite E. unfold load_err. cbn. unfold bind, lift. by rewrite finish_null.
    + destruct (bad_magic_run (H2 := Ha) image_ptr header_ptr buf_ptr hash_ptr buf_content hash_content off size f) as (sha & E);
        [tauto|lia|done|unfold chip_size, CONFIG_SPI_FLASH_SIZE; lia|unfold SIXTEEN_MB; lia|done|].
      unfold app. by rewrite E.
Qed.

(** ** An image on a chip *)

#[global] Instance cells_rom : BootRom cells := λ a n f, bytes_of cell f a n.
#[global] Instance cells_rom_ok : BootRomOk cells.
Proof. done. Defined.
#[global] Instance list_hash : Mbedtls (list Z) := {| mbedtls_sha256_starts := []; mbedtls_sha256_update m bs := m ++ bs; mbedtls_sha256_finish := Fips.sha256 |}.
#[global] Instance list_hash_ok : MbedtlsOk (list Z).
Proof.
  intros pieces. change (mbedtls_sha256_finish) with Fips.sha256. f_equal.
  change (@mbedtls_sha256_starts (list Z) _) with (@nil Z). rewrite <- (app_nil_l (concat pieces)). generalize (@nil Z).
  induction pieces as [|p pieces IH]; intros m; cbn; [by rewrite app_nil_r|]. rewrite app_assoc. apply IH.
Defined.

Definition demo_image : app_image := mkImage 2 0x20 0x40210010 [(0x40210010, [1; 2; 3; 4])] (replicate 11 0).
Definition demo_bytes : list Z := Eval vm_compute in image_bytes demo_image.
Definition demo_app : cells := λ x, default 0xff (rd demo_bytes (x - 0x10000)).
Lemma demo_image_ok : image_ok demo_image.
Proof. split; cbn; [by split_and!|done|repeat constructor; done|split; [done|]]. repeat constructor; done. Qed.
Lemma demo_image_bytes : image_bytes demo_image = demo_bytes.
Proof. vm_compute. reflexivity. Qed.
Lemma demo_placed : placed byte_at demo_app 0x10000 (image_bytes demo_image).
Proof. rewrite demo_image_bytes. unfold placed. vm_compute. reflexivity. Qed.
Lemma demo_fits : zlen (image_bytes demo_image) <= 0x8000.
Proof. rewrite demo_image_bytes. vm_compute. discriminate. Qed.
Lemma demo_pointers : word_ptr 4 ∧ word_ptr 8 ∧ word_ptr 12 ∧ word_ptr 16.
Proof. by split_and!. Qed.

Lemma image_verdict_witness :
  let load b := @esp_image_load cells _ b 4 8 12 16 (replicate 16 0) (replicate 32 0) (mkPos 0x10000 0x8000) in
  load (boot_build 20 (replicate 1024 0) (replicate 64 0)) demo_app = Some ((ESP_OK, Some (meta_of 0x10000 demo_image)), demo_app) ∧
  load (boot_build 20 (replicate 1024 0) (replicate 64 0)) blank_chip = None.
Proof.
  intros load. pose proof (λ f, image_verdict (C := list Z) demo_junk (replicate 1024 0) (replicate 64 0) (replicate 16 0) (replicate 32 0) 20 24 4 8 12 16 0x10000 0x8000 f
    eq_refl eq_refl eq_refl eq_refl eq_refl eq_refl eq_refl ltac:(discriminate) demo_pointers eq_refl eq_refl ltac:(discriminate) ltac:(discriminate)) as V.
  split.
  - exact (proj1 (proj1 (V demo_app) demo_image demo_image_ok demo_placed demo_fits)).
  - exact (proj1 (proj2 (V blank_chip) ltac:(discriminate))).
Defined.

End Image.
