(* ===== verification/Boot.v ===== *)
(** The boot loader: [bootloader_start.c] of [components/bootloader], with
    [bootloader_utility.c], [flash_partitions.c] and [bootloader_common.c] of
    [components/bootloader_support].

    It reads the partition table and the two records of the OTA data, chooses
    an application and loads its image, or another one. *)
From S2P Require Import Prelude Crc SpiFlash Partition Sha256 Image.

Module Boot.
Import SpiFlash Partition Image.

Definition ESP_ERR_INVALID_STATE : Z := 0x103.
Definition ESP_PARTITION_MAGIC_MD5 : Z := 0xEBEB.
Definition PART_TYPE_APP : Z := 0x00.
Definition PART_SUBTYPE_FACTORY : Z := 0x00.
Definition PART_SUBTYPE_OTA_FLAG : Z := 0x10.
Definition PART_SUBTYPE_OTA_MASK : Z := 0x0f.
Definition PART_SUBTYPE_TEST : Z := 0x20.
Definition PART_TYPE_DATA : Z := 0x01.
Definition PART_SUBTYPE_DATA_OTA : Z := 0x00.
Definition PART_TYPE_END : Z := 0xff.
Definition PART_SUBTYPE_END : Z := 0xff.
Definition ESP_PARTITION_TABLE_MAX_LEN : Z := 0xC00.
Definition SPI_SEC_SIZE : Z := 0x1000.
Definition MAX_OTA_SLOTS : Z := 16.
Definition FACTORY_INDEX : Z := -1.
Definition TEST_APP_INDEX : Z := -2.
Definition INVALID_INDEX : Z := -99.
Definition UINT32_MAX : Z := 0xFFFFFFFF.

(** ** The records of the OTA data *)

(** [esp_ota_select_entry_t], and the same as [ota_select] in the application. *)
Record ota_select := mkSelect { ota_seq : Z; seq_label : list Z; crc : Z }.
Definition select_size : Z := 32.
Definition select_of (bs : list Z) : option ota_select :=
  seq ← field bs 0 4; label ← slice bs 4 24; c ← field bs 28 4; Some (mkSelect seq label c).
Definition bootloader_common_ota_select_crc (s : ota_select) : option Z := Util.crc32_le UINT32_MAX (le_bytes 4 (ota_seq s)) 4.
Definition bootloader_common_ota_select_valid (s : ota_select) : option bool :=
  if ota_seq s =? UINT32_MAX then Some false else c ← bootloader_common_ota_select_crc s; Some (crc s =? c).

(** ** The state *)

(** [bootloader_state_t]. *)
Record bootloader_state_t := mkBs { ota_info : esp_partition_pos_t; factory : esp_partition_pos_t; test : esp_partition_pos_t;
  ota : list esp_partition_pos_t; app_count : Z }.
Definition no_pos : esp_partition_pos_t := mkPos 0 0.
Definition bs_zero : bootloader_state_t := mkBs no_pos no_pos no_pos (replicate 16 no_pos) 0.

(** The flash through the window of the cache: what a mapped address reads. *)
Class BootCache (F : Type) := mapped_bytes : Z → Z → F → list Z.

(** The flash and the static [mapped]. *)
Record boot (F : Type) := mkBoot { b_flash : F; b_mapped : bool }.
Arguments mkBoot {F} _ _.
Arguments b_flash {F} _.
Arguments b_mapped {F} _.

Section Boot.
Context {F H : Type} `{!BootCache F} `{!Build F H}.
Variables (image_ptr header_ptr buf_ptr hash_ptr : Z) (buf_content hash_content : list Z).

(** A mapping gives the memory there, or a null pointer if there is one already. *)
Definition bootloader_mmap (src_addr size : Z) : M (boot F) (option (list Z)) :=
  let! m := get b_mapped in
  if (m : bool) then ret None else
  modify (λ s, mkBoot (b_flash s) true) ;;;
  let! f := get b_flash in ret (Some (mapped_bytes src_addr size f)).
Definition bootloader_munmap : M (boot F) unit := modify (λ s, mkBoot (b_flash s) false).

(** ** The partition table *)

Fixpoint verify_loop (n : nat) (num_parts : Z) (table : list Z) : option (Z * Z) :=
  match n with
  | O => Some (ESP_ERR_INVALID_STATE, 0)
  | S n =>
      part ← info_at table (info_size * num_parts);
      if i_magic part =? ESP_PARTITION_MAGIC then
        if (chip_size <? pos_offset (i_pos part)) || (chip_size <? u32 (pos_offset (i_pos part) + pos_size (i_pos part)))
        then Some (ESP_ERR_INVALID_SIZE, 0) else verify_loop n (num_parts + 1) table
      else if i_magic part =? ESP_PARTITION_MAGIC_MD5 then verify_loop n (num_parts + 1) table
      else if (i_magic part =? 0xFFFF) && (i_type part =? PART_TYPE_END) && (i_subtype part =? PART_SUBTYPE_END)
      then Some (ESP_OK, num_parts) else Some (ESP_ERR_INVALID_STATE, 0)
  end.
(** The error and [*num_partitions]. *)
Definition esp_partition_table_basic_verify (table : list Z) : option (Z * Z) :=
  verify_loop (Z.to_nat (ESP_PARTITION_TABLE_MAX_LEN / info_size)) 0 table.

Definition set_ota (bs : bootloader_state_t) (i : Z) (p : esp_partition_pos_t) : option bootloader_state_t :=
  o ← wr (ota bs) i p; Some (mkBs (ota_info bs) (factory bs) (test bs) o (u32 (app_count bs + 1))).
(** The switch on an entry. *)
Definition load_entry (bs : bootloader_state_t) (e : esp_partition_info_t) : option bootloader_state_t :=
  if i_type e =? PART_TYPE_APP then
    if i_subtype e =? PART_SUBTYPE_FACTORY then Some (mkBs (ota_info bs) (i_pos e) (test bs) (ota bs) (app_count bs))
    else if i_subtype e =? PART_SUBTYPE_TEST then Some (mkBs (ota_info bs) (factory bs) (i_pos e) (ota bs) (app_count bs))
    else if Z.land (i_subtype e) (Z.lnot PART_SUBTYPE_OTA_MASK) =? PART_SUBTYPE_OTA_FLAG then set_ota bs (Z.land (i_subtype e) PART_SUBTYPE_OTA_MASK) (i_pos e)
    else Some bs
  else if i_type e =? PART_TYPE_DATA then
    if i_subtype e =? PART_SUBTYPE_DATA_OTA then Some (mkBs (i_pos e) (factory bs) (test bs) (ota bs) (app_count bs)) else Some bs
  else Some bs.
Definition load_entries (table : list Z) (num_partitions : Z) (bs : bootloader_state_t) : option bootloader_state_t :=
  for_up 0 (Z.to_nat num_partitions) (λ i bs, e ← info_at table (i * info_size); load_entry bs e) bs.
(** Nothing if the table is refused. *)
Definition bootloader_utility_load_partition_table (bs : bootloader_state_t) : M (boot F) (option bootloader_state_t) :=
  let! partitions := bootloader_mmap ESP_PARTITION_TABLE_ADDR ESP_PARTITION_TABLE_MAX_LEN in
  match partitions with
  | None => ret None
  | Some table =>
      let! (err, num_partitions) := lift (esp_partition_table_basic_verify table) in
      if negb (err =? ESP_OK) then ret None else
      let! bs := lift (load_entries table num_partitions bs) in
      bootloader_munmap ;;; ret (Some bs)
  end.

(** ** The choice *)

(** [ota_seq % bs->app_count]: the [int] is converted back to unsigned; a
    remainder by zero is a fault. *)
Definition slot_of (bs : bootloader_state_t) (seq : Z) : option Z :=
  if app_count bs =? 0 then None else Some (u32 (seq - 1) mod app_count bs).
Definition bootloader_utility_get_selected_boot_partition (bs : bootloader_state_t) : M (boot F) Z :=
  if negb (pos_offset (ota_info bs) =? 0) then
    if pos_size (ota_info bs) <? 2 * SPI_SEC_SIZE then ret INVALID_INDEX else
    let! ota_select_map := bootloader_mmap (pos_offset (ota_info bs)) (pos_size (ota_info bs)) in
    match ota_select_map with
    | None => ret INVALID_INDEX
    | Some m =>
        let! sa := lift (b ← slice m 0 select_size; select_of b) in
        let! sb := lift (b ← slice m SPI_SEC_SIZE select_size; select_of b) in
        bootloader_munmap ;;;
        if (ota_seq sa =? UINT32_MAX) && (ota_seq sb =? UINT32_MAX) then
          if negb (pos_offset (factory bs) =? 0) then ret FACTORY_INDEX else ret 0
        else
          let! va := lift (bootloader_common_ota_select_valid sa) in
          let! vb := lift (bootloader_common_ota_select_valid sb) in
          if va && vb then lift (slot_of bs (Z.max (ota_seq sa) (ota_seq sb)))
          else if (va : bool) then lift (slot_of bs (ota_seq sa))
          else if (vb : bool) then lift (slot_of bs (ota_seq sb))
          else ret FACTORY_INDEX
    end
  else ret FACTORY_INDEX.

Definition index_to_partition (bs : bootloader_state_t) (index : Z) : option esp_partition_pos_t :=
  if index =? FACTORY_INDEX then Some (factory bs) else
  if index =? TEST_APP_INDEX then Some (test bs) else
  if (0 <=? index) && (index <? MAX_OTA_SLOTS) && (u32 index <? app_count bs) then rd (ota bs) index else Some no_pos.

(** ** Loading *)

(** The image, if one was loaded. *)
Definition try_load_partition (partition : esp_partition_pos_t) : M (boot F) (option esp_image_metadata_t) :=
  if pos_size partition =? 0 then ret None else
  let! (err, data) := zoom b_flash (λ f s, mkBoot f (b_mapped s))
    (esp_image_load image_ptr header_ptr buf_ptr hash_ptr buf_content hash_content partition) in
  ret (if err =? ESP_OK then data else None).
Definition try_index (bs : bootloader_state_t) (index : Z) : M (boot F) (option esp_image_metadata_t) :=
  let! part := lift (index_to_partition bs index) in
  if pos_size part =? 0 then ret None else try_load_partition part.

(** Down from [index] to the factory application, [n] indices. *)
Fixpoint backwards (n : nat) (bs : bootloader_state_t) (index : Z) : M (boot F) (option esp_image_metadata_t) :=
  match n with
  | O => ret None
  | S n => let! r := try_index bs index in match r with Some data => ret (Some data) | None => backwards n bs (index - 1) end
  end.
(** Up from [index] while it is below [app_count]. *)
Fixpoint forwards (n : nat) (bs : bootloader_state_t) (index : Z) : M (boot F) (option esp_image_metadata_t) :=
  match n with
  | O => ret None
  | S n => let! r := try_index bs index in match r with Some data => ret (Some data) | None => forwards n bs (index + 1) end
  end.
Definition bootloader_utility_load_boot_image (bs : bootloader_state_t) (start_index : Z) : M (boot F) (option esp_image_metadata_t) :=
  if start_index =? TEST_APP_INDEX then try_load_partition (test bs) else
  let! r := backwards (Z.to_nat (start_index - FACTORY_INDEX + 1)) bs start_index in
  match r with
  | Some data => ret (Some data)
  | None =>
      let! r := forwards (Z.to_nat (app_count bs - (start_index + 1))) bs (start_index + 1) in
      match r with Some data => ret (Some data) | None => try_load_partition (test bs) end
  end.

(** Without the factory reset and the test application, which
    [app/sdkconfig] leaves out. *)
Definition selected_boot_partition (bs : bootloader_state_t) : M (boot F) Z := bootloader_utility_get_selected_boot_partition bs.
(** The image to start, or nothing. *)
Definition select_image : M (boot F) (option esp_image_metadata_t) :=
  let! bs := bootloader_utility_load_partition_table bs_zero in
  match bs with
  | None => ret None
  | Some bs =>
      let! boot_index := selected_boot_partition bs in
      if boot_index =? INVALID_INDEX then ret None else bootloader_utility_load_boot_image bs boot_index
  end.
End Boot.

(** ** What the flash says

    The fields of a table entry and of a record, as they are in the flash. *)

Lemma slice_bytes_of {F} (at_ : F → Z → Z) f a n off k : 0 <= off → 0 <= k → off + k <= n → slice (bytes_of at_ f a n) off k = Some (bytes_of at_ f (a + off) k).
Proof.
  intros. replace n with (off + (k + (n - off - k))) by lia. rewrite !bytes_of_app by lia. apply slice_run; by apply bytes_of_length.
Qed.
Lemma le_range bs : Forall in_u8 bs → 0 <= le bs < 2 ^ (8 * zlen bs).
Proof.
  induction 1 as [|b bs Hb _ IH]; [done|]. rewrite zlen_cons. cbn [le foldr]. change (foldr _ 0 bs) with (le bs). pose proof (zlen_nonneg bs). unfold in_u8 in Hb.
  rewrite Z.mul_add_distr_l, Z.pow_add_r by lia. change (2 ^ (8 * 1)) with 256. nia.
Qed.

(** A record that counts: its checksum is that of its number, and it is not
    erased. *)
Definition valid (s : ota_select) : bool :=
  negb (ota_seq s =? UINT32_MAX) && (crc s =? Util.crc_spec 32 0xEDB88320 UINT32_MAX (le_bytes 4 (ota_seq s))).
Lemma select_crc_run s : Util.crc32_le UINT32_MAX (le_bytes 4 (ota_seq s)) 4 = Some (Util.crc_spec 32 0xEDB88320 UINT32_MAX (le_bytes 4 (ota_seq s))).
Proof. rewrite Util.crc32_le_eq; [|done|apply le_bytes_u8|rewrite le_bytes_length; lia]. by rewrite take_ge by (rewrite le_bytes_length; lia). Qed.
Lemma select_valid_run s : bootloader_common_ota_select_valid s = Some (valid s).
Proof.
  unfold bootloader_common_ota_select_valid, valid. destruct (Z.eqb_spec (ota_seq s) UINT32_MAX); [done|].
  unfold bootloader_common_ota_select_crc. by rewrite select_crc_run.
Qed.

(** The bytes that lead back to a register of zeros are the register. *)
Lemma step_back r b y : in_u32 r → in_u8 b → 0 <= y < 2 ^ 24 → Reflected.byte_step 0xEDB88320 r b = y → r = y * 256 + b.
Proof.
  intros Hr Hb Hy E. unfold Reflected.byte_step in E. rewrite <- (Reflected.bits_step_high 0xEDB88320 8 y) in E.
  assert (Hs : Z.shiftl y (Z.of_nat 8) = y * 256) by (rewrite Z.shiftl_mul_pow2; lia). rewrite Hs in E. unfold in_u32, in_u8 in *.
  apply (Reflected.bits_step_inj 32) in E; [|lia|lia|reflexivity|apply lxor_range; lia|lia].
  apply (f_equal (λ x, Z.lxor x b)) in E. rewrite Z.lxor_assoc, Z.lxor_nilpotent, Z.lxor_0_r in E. rewrite E. symmetry. apply Z.add_nocarry_lxor.
  apply Z.bits_inj'. intros i Hi. rewrite Z.land_spec, Z.bits_0. destruct (Z.ltb_spec i 8).
  - replace (y * 256) with (y * 2 ^ 8) by lia. by rewrite Z.mul_pow2_bits_low.
  - rewrite andb_comm. rewrite <- (Z.mod_small b (2 ^ 8)) by lia. by rewrite Z.mod_pow2_bits_high.
Qed.
Lemma run_cons poly r b msg : Reflected.run poly r (b :: msg) = Reflected.run poly (Reflected.byte_step poly r b) msg.
Proof. done. Qed.
Lemma run_back b0 b1 b2 b3 r : in_u32 r → in_u8 b0 → in_u8 b1 → in_u8 b2 → in_u8 b3 → Reflected.run 0xEDB88320 r [b0; b1; b2; b3] = 0 →
  r = ((b3 * 256 + b2) * 256 + b1) * 256 + b0.
Proof.
  intros R0 H0 H1 H2 H3. rewrite !run_cons. change (Reflected.run 0xEDB88320 ?x []) with x.
  assert (Hr : ∀ r b, in_u32 r → in_u8 b → in_u32 (Reflected.byte_step 0xEDB88320 r b)) by (intros; apply (Reflected.byte_step_range 32); (done || lia)).
  pose proof (Hr _ _ R0 H0) as R1. pose proof (Hr _ _ R1 H1) as R2. pose proof (Hr _ _ R2 H2) as R3. unfold in_u8 in *. intros E.
  do 4 (apply step_back in E; [|done|done|lia]). lia.
Qed.
(** Only the number 0 has erased cells for its checksum. *)
Lemma erased_checksum seq : in_u32 seq → Util.crc_spec 32 0xEDB88320 UINT32_MAX (le_bytes 4 seq) = UINT32_MAX → seq = 0.
Proof.
  intros Hs. pose proof (le_bytes_u8 4 seq) as Hb. pose proof (le_le_bytes 4 seq) as El. rewrite Z.mod_small in El by exact Hs.
  assert (Ebs : ∃ b0 b1 b2 b3, le_bytes 4 seq = [b0; b1; b2; b3]) by (eexists _, _, _, _; reflexivity). destruct Ebs as (b0 & b1 & b2 & b3 & Ebs).
  rewrite Ebs in *. rewrite !Forall_cons in Hb. destruct Hb as (H0 & H1 & H2 & H3 & _). unfold Util.crc_spec.
  assert (E0 : Z.lxor (Z.ones 32) UINT32_MAX = 0) by reflexivity. rewrite E0. intros E. apply (f_equal (Z.lxor (Z.ones 32))) in E.
  rewrite E0, <- Z.lxor_assoc, Z.lxor_nilpotent, Z.lxor_0_l in E. apply run_back in E; [|by split|done..].
  rewrite <- El. cbn [le foldr]. lia.
Qed.

Section Fields.
Context {F : Type} `{NorFlash F}.
Implicit Types f : F.
Abbreviation bytes := (bytes_of byte_at).

Definition word_in (f : F) (a n : Z) : Z := le (bytes f a n).
Definition info_in (f : F) (a : Z) : esp_partition_info_t :=
  mkInfo (word_in f a 2) (word_in f (a + 2) 1) (word_in f (a + 3) 1) (mkPos (word_in f (a + 4) 4) (word_in f (a + 8) 4)) (bytes f (a + 12) 16) (word_in f (a + 28) 4).
Definition record_in (f : F) (a : Z) : ota_select := mkSelect (word_in f a 4) (bytes f (a + 4) 24) (word_in f (a + 28) 4).

Lemma word_in_range f a n : 0 <= n → 0 <= word_in f a n < 2 ^ (8 * n).
Proof. intros. unfold word_in. rewrite <- (bytes_of_length byte_at f a n) at 3 by done. apply le_range, bytes_u8. Qed.
Lemma field_in f a n off k : 0 <= off → 0 <= k → off + k <= n → field (bytes f a n) off k = Some (word_in f (a + off) k).
Proof. intros. unfold field. by rewrite slice_bytes_of. Qed.
Lemma info_at_run f a n off : 0 <= off → off + info_size <= n → info_at (bytes f a n) off = Some (info_in f (a + off)).
Proof.
  unfold info_size. intros. unfold info_at. rewrite !field_in, slice_bytes_of by lia. cbn [mbind option_bind]. unfold info_in. by rewrite !Z.add_assoc.
Qed.
Lemma select_of_run f a : select_of (bytes f a select_size) = Some (record_in f a).
Proof. unfold select_of, select_size. rewrite !field_in, slice_bytes_of by lia. cbn [mbind option_bind]. unfold record_in. by rewrite Z.add_0_r. Qed.
Lemma word_in_ext f f' a n : (∀ x, a <= x < a + n → byte_at f' x = byte_at f x) → word_in f' a n = word_in f a n.
Proof. intros E. unfold word_in. f_equal. by apply bytes_of_ext. Qed.
Lemma info_in_ext f f' a : (∀ x, a <= x < a + info_size → byte_at f' x = byte_at f x) → info_in f' a = info_in f a.
Proof. unfold info_size. intros E. unfold info_in. f_equal; [..|f_equal| |]; (apply word_in_ext || apply bytes_of_ext); intros; apply E; lia. Qed.
Lemma record_in_ext f f' a : (∀ x, a <= x < a + select_size → byte_at f' x = byte_at f x) → record_in f' a = record_in f a.
Proof. unfold select_size. intros E. unfold record_in. f_equal; (apply word_in_ext || apply bytes_of_ext); intros; apply E; lia. Qed.

(** *** The partition table *)

(** The entries [t] of the table, those of its MD5 sum, and the end. *)
Record table_in (f : F) (t md5 : list esp_partition_info_t) : Prop := {
  t_entries i e : (t ++ md5) !! i = Some e → info_in f (ESP_PARTITION_TABLE_ADDR + info_size * Z.of_nat i) = e;
  t_parts : Forall (λ e, i_magic e = ESP_PARTITION_MAGIC ∧ pos_offset (i_pos e) + pos_size (i_pos e) <= chip_size) t;
  t_md5 : Forall (λ e, i_magic e = ESP_PARTITION_MAGIC_MD5 ∧ i_type e = 0xff) md5;
  t_length : zlen (t ++ md5) < 96;
  t_end : ∃ e, info_in f (ESP_PARTITION_TABLE_ADDR + info_size * zlen (t ++ md5)) = e ∧ i_magic e = 0xFFFF ∧ i_type e = PART_TYPE_END ∧ i_subtype e = PART_SUBTYPE_END }.

Lemma table_in_ext f f' t md5 : (∀ x, ESP_PARTITION_TABLE_ADDR <= x < ESP_PARTITION_TABLE_ADDR + ESP_PARTITION_TABLE_MAX_LEN → byte_at f' x = byte_at f x) →
  table_in f t md5 → table_in f' t md5.
Proof.
  unfold ESP_PARTITION_TABLE_MAX_LEN. intros E [He Hp Hm Hl Hend]. pose proof (zlen_nonneg (t ++ md5)).
  assert (Ei : ∀ i, 0 <= i <= zlen (t ++ md5) → info_in f' (ESP_PARTITION_TABLE_ADDR + info_size * i) = info_in f (ESP_PARTITION_TABLE_ADDR + info_size * i))
    by (intros; apply info_in_ext; unfold info_size in *; intros; apply E; lia).
  split; [|done..|]. 2: by rewrite Ei by lia.
  intros i e Hi. pose proof (lookup_lt_Some _ _ _ Hi). rewrite Ei by (unfold zlen; lia). by apply He.
Qed.
Lemma table_entry f t md5 i e : table_in f t md5 → (t ++ md5) !! i = Some e →
  info_at (bytes f ESP_PARTITION_TABLE_ADDR ESP_PARTITION_TABLE_MAX_LEN) (info_size * Z.of_nat i) = Some e.
Proof.
  intros [He _ _ Hl _] Hi. pose proof (lookup_lt_Some _ _ _ Hi) as Hlt. unfold zlen in Hl.
  rewrite info_at_run by (unfold info_size, ESP_PARTITION_TABLE_MAX_LEN; lia). f_equal. by apply He.
Qed.
Lemma entry_fields f t md5 e : table_in f t md5 → e ∈ t ++ md5 → in_u8 (i_type e) ∧ in_u8 (i_subtype e) ∧ in_u32 (pos_offset (i_pos e)) ∧ in_u32 (pos_size (i_pos e)) ∧ length (i_label e) = 16%nat.
Proof.
  intros [He _ _ _ _] (i & Hi)%list_elem_of_lookup. rewrite <- (He i e Hi). cbn.
  split_and!; [exact (word_in_range f _ 1 ltac:(lia))|exact (word_in_range f _ 1 ltac:(lia))|exact (word_in_range f _ 4 ltac:(lia))|exact (word_in_range f _ 4 ltac:(lia))|].
  pose proof (bytes_of_length byte_at f (ESP_PARTITION_TABLE_ADDR + info_size * Z.of_nat i + 12) 16 ltac:(lia)) as Hl. unfold zlen in Hl. lia.
Qed.

Lemma verify_loop_run f t md5 n : table_in f t md5 → ∀ pre rest, t ++ md5 = pre ++ rest → (length rest < n)%nat →
  verify_loop n (zlen pre) (bytes f ESP_PARTITION_TABLE_ADDR ESP_PARTITION_TABLE_MAX_LEN) = Some (ESP_OK, zlen (t ++ md5)).
Proof.
  intros Ht. induction n as [|n IH]; intros pre rest E Hn; [lia|]. cbn [verify_loop]. destruct rest as [|e rest].
  - rewrite app_nil_r in E. destruct Ht as [_ _ _ Hl (e & He & E1 & E2 & E3)]. rewrite <- E.
    rewrite info_at_run by (pose proof (zlen_nonneg (t ++ md5)); unfold info_size, ESP_PARTITION_TABLE_MAX_LEN; lia). rewrite He. cbn [mbind option_bind].
    by rewrite E1, E2, E3.
  - assert (Hi : (t ++ md5) !! length pre = Some e) by (rewrite E; by apply list_lookup_middle).
    unfold zlen at 1 4 5. rewrite (table_entry f t md5 _ e Ht Hi). cbn [mbind option_bind].
    specialize (IH (pre ++ [e]) rest). rewrite <- app_assoc in IH. specialize (IH E ltac:(cbn in Hn; lia)). rewrite zlen_app in IH. change (zlen [e]) with 1 in IH. unfold zlen in IH at 1.
    pose proof (entry_fields f t md5 e Ht (list_elem_of_lookup_2 _ _ _ Hi)) as (_ & _ & Ho & Hs & _). unfold in_u32 in Ho, Hs.
    rewrite lookup_app in Hi. destruct (t !! length pre) eqn:Ht1.
    + injection Hi as ->. pose proof (Forall_lookup_1 _ _ _ _ (t_parts _ _ _ Ht) Ht1) as [-> Hchip]. rewrite Z.eqb_refl. unfold chip_size, CONFIG_SPI_FLASH_SIZE in *.
      rewrite u32_id by (unfold in_u32; lia). destruct (Z.ltb_spec 0x100000 (pos_offset (i_pos e))), (Z.ltb_spec 0x100000 (pos_offset (i_pos e) + pos_size (i_pos e))); try lia. exact IH.
    + pose proof (Forall_lookup_1 _ _ _ _ (t_md5 _ _ _ Ht) Hi) as [-> _]. exact IH.
Qed.
Lemma basic_verify_run f t md5 : table_in f t md5 →
  esp_partition_table_basic_verify (bytes f ESP_PARTITION_TABLE_ADDR ESP_PARTITION_TABLE_MAX_LEN) = Some (ESP_OK, zlen (t ++ md5)).
Proof.
  intros Ht. unfold esp_partition_table_basic_verify. apply (verify_loop_run f t md5 _ Ht [] (t ++ md5)); [done|].
  pose proof (t_length _ _ _ Ht). unfold zlen in *. change (Z.to_nat (ESP_PARTITION_TABLE_MAX_LEN / info_size)) with 96%nat. lia.
Qed.
End Fields.

(** *** What is loaded from the table

    The entries of a kind; the last one counts for the boot loader. *)
Definition kind (type subtype : Z) (e : esp_partition_info_t) : Prop := i_type e = type ∧ i_subtype e = subtype.
#[global] Instance kind_dec type subtype e : Decision (kind type subtype e).
Proof. unfold kind. apply _. Defined.
Definition entries (type subtype : Z) (t : list esp_partition_info_t) : list esp_partition_info_t := filter (kind type subtype) t.
Definition place (type subtype : Z) (t : list esp_partition_info_t) : esp_partition_pos_t := default no_pos (i_pos <$> last (entries type subtype t)).
(** An application of the OTA slots. *)
Definition is_slot (e : esp_partition_info_t) : Prop := i_type e = PART_TYPE_APP ∧ PART_SUBTYPE_OTA_FLAG <= i_subtype e < PART_SUBTYPE_OTA_FLAG + MAX_OTA_SLOTS.
#[global] Instance is_slot_dec e : Decision (is_slot e).
Proof. unfold is_slot. apply _. Defined.
Definition slots (t : list esp_partition_info_t) : list esp_partition_info_t := filter is_slot t.

Record loaded (t : list esp_partition_info_t) (bs : bootloader_state_t) : Prop := {
  l_ota_info : ota_info bs = place PART_TYPE_DATA PART_SUBTYPE_DATA_OTA t;
  l_factory : factory bs = place PART_TYPE_APP PART_SUBTYPE_FACTORY t;
  l_test : test bs = place PART_TYPE_APP PART_SUBTYPE_TEST t;
  l_ota k : 0 <= k < MAX_OTA_SLOTS → rd (ota bs) k = Some (place PART_TYPE_APP (PART_SUBTYPE_OTA_FLAG + k) t);
  l_count : app_count bs = zlen (slots t) }.

Lemma place_snoc type subtype t e : place type subtype (t ++ [e]) = if decide (kind type subtype e) then i_pos e else place type subtype t.
Proof.
  unfold place, entries. rewrite filter_app, filter_cons. change (filter (kind type subtype) []) with (@nil esp_partition_info_t).
  case_decide; [by rewrite last_snoc|by rewrite app_nil_r].
Qed.
Lemma slots_snoc t e : zlen (slots (t ++ [e])) = zlen (slots t) + (if decide (is_slot e) then 1 else 0).
Proof. unfold slots. rewrite filter_app, zlen_app, filter_cons. by case_decide. Qed.
Lemma slot_mask s : in_u8 s → Z.land s PART_SUBTYPE_OTA_MASK = s mod 16 ∧ (Z.land s (Z.lnot PART_SUBTYPE_OTA_MASK) =? PART_SUBTYPE_OTA_FLAG) = bool_decide (PART_SUBTYPE_OTA_FLAG <= s < PART_SUBTYPE_OTA_FLAG + MAX_OTA_SLOTS).
Proof.
  unfold in_u8, PART_SUBTYPE_OTA_FLAG, PART_SUBTYPE_OTA_MASK, MAX_OTA_SLOTS. intros Hs. assert (Hm : Z.land s 15 = s mod 16) by exact (Z.land_ones s 4 ltac:(lia)).
  split; [done|]. assert (E : Z.land s (Z.lnot 15) = s - s mod 16).
  { rewrite <- Hm, Z.sub_nocarry_ldiff. 2: { apply Z.bits_inj'. intros i Hi. rewrite Z.ldiff_spec, Z.land_spec, Z.bits_0. btauto. }
    apply Z.bits_inj'. intros i Hi. rewrite Z.land_spec, Z.ldiff_spec, Z.land_spec, Z.lnot_spec by lia. btauto. }
  rewrite E. destruct (Z.eqb_spec (s - s mod 16) 16), (bool_decide_reflect (16 <= s < 16 + 16)); try done; exfalso; dlia.
Qed.

(** The fields of a state against one more entry. *)
Ltac by_kind := intros; rewrite ?place_snoc, ?slots_snoc;
  repeat match goal with
  | |- context [decide (kind ?a ?b ?e)] => destruct (decide (kind a b e)) as [[? ?]|?]
  | |- context [decide (is_slot ?e)] => destruct (decide (is_slot e)) as [[? ?]|?] end;
  unfold kind, is_slot, PART_TYPE_APP, PART_TYPE_DATA, PART_SUBTYPE_FACTORY, PART_SUBTYPE_TEST, PART_SUBTYPE_OTA_FLAG, PART_SUBTYPE_DATA_OTA, MAX_OTA_SLOTS in *;
  cbn [ota_info factory test ota app_count]; rewrite ?Z.add_0_r; auto; try (exfalso; lia); try congruence.

Lemma load_entry_run t e bs : in_u8 (i_subtype e) → loaded t bs → zlen t < 96 → ∃ bs', load_entry bs e = Some bs' ∧ loaded (t ++ [e]) bs'.
Proof.
  intros Hs [Hi Hf Ht' Ho Hc] Hlen. destruct (slot_mask _ Hs) as [Em Ef]. unfold load_entry. rewrite Ef, Em. clear Em Ef. unfold in_u8 in Hs.
  destruct (Z.eqb_spec (i_type e) PART_TYPE_APP) as [Ea|Ea].
  - destruct (Z.eqb_spec (i_subtype e) PART_SUBTYPE_FACTORY); [eexists; split; [done|]; split; by_kind|].
    destruct (Z.eqb_spec (i_subtype e) PART_SUBTYPE_TEST); [eexists; split; [done|]; split; by_kind|].
    case_bool_decide as Hslot; [|eexists; split; [done|]; split; by_kind].
    assert (Hk : 0 <= i_subtype e mod 16 < MAX_OTA_SLOTS) by (unfold MAX_OTA_SLOTS; dlia). pose proof (Ho _ Hk) as Hr. apply rd_Some_range in Hr.
    unfold set_ota. pose proof (wr_Some (ota bs) _ (i_pos e) Hr) as Hw. rewrite Hw. cbn [mbind option_bind]. eexists. split; [done|].
    assert (Hcount : zlen (slots t) <= zlen t) by (unfold zlen, slots; pose proof (length_filter is_slot t); lia). pose proof (zlen_nonneg (slots t)).
    split; [by_kind..| |by_kind].
    + intros k Hk'. cbn [ota]. rewrite place_snoc. destruct (decide (kind _ _ e)) as [[_ E]|Hn].
      * replace k with (i_subtype e mod 16) by (unfold PART_SUBTYPE_OTA_FLAG, MAX_OTA_SLOTS in *; dlia). exact (rd_wr_eq _ _ _ _ Hw).
      * assert (Hne : i_subtype e mod 16 ≠ k) by (intros <-; apply Hn; split; [done|]; unfold PART_SUBTYPE_OTA_FLAG, MAX_OTA_SLOTS in *; dlia).
        rewrite (rd_wr_ne _ _ _ _ _ Hne Hw). by apply Ho.
    + rewrite Hc. apply u32_id. unfold in_u32. lia.
  - destruct (Z.eqb_spec (i_type e) PART_TYPE_DATA); [|eexists; split; [done|]; split; by_kind].
    destruct (Z.eqb_spec (i_subtype e) PART_SUBTYPE_DATA_OTA); eexists; (split; [done|]); split; by_kind.
Qed.
Lemma loaded_nil : loaded [] bs_zero.
Proof.
  split; try done. intros k Hk. unfold MAX_OTA_SLOTS in Hk. cbn [ota bs_zero]. unfold rd. destruct (Z.ltb_spec k 0); [lia|]. apply lookup_replicate. split; [done|lia].
Qed.

(** ** What the boot loader chooses

    The number of the record that counts: the greater of two valid ones. *)
Definition newest (r0 r1 : ota_select) : option Z :=
  if valid r0 && valid r1 then Some (Z.max (ota_seq r0) (ota_seq r1))
  else if valid r0 then Some (ota_seq r0) else if valid r1 then Some (ota_seq r1) else None.
Definition erased_record (r : ota_select) : bool := ota_seq r =? UINT32_MAX.
(** With [n] slots. *)
Definition choice (factory : esp_partition_pos_t) (n : Z) (r0 r1 : ota_select) : Z :=
  match newest r0 r1 with
  | Some seq => u32 (seq - 1) mod n
  | None => if erased_record r0 && erased_record r1 && (pos_offset factory =? 0) then 0 else FACTORY_INDEX
  end.

(** A table for updates: [n] OTA slots, each once, and the OTA data at [d], of
    whole sectors beside the table. The application counts a test application
    as the seventeenth slot. *)
Record ota_table (t : list esp_partition_info_t) (n : Z) (d : esp_partition_pos_t) : Prop := {
  o_count : 0 < n <= MAX_OTA_SLOTS;
  o_slots : i_subtype <$> slots t ≡ₚ seqZ PART_SUBTYPE_OTA_FLAG n;
  o_test : n = MAX_OTA_SLOTS → entries PART_TYPE_APP PART_SUBTYPE_TEST t = [];
  o_factory : (length (entries PART_TYPE_APP PART_SUBTYPE_FACTORY t) ≤ 1)%nat ∧ Forall (λ e, 0 < pos_offset (i_pos e)) (entries PART_TYPE_APP PART_SUBTYPE_FACTORY t);
  o_data : i_pos <$> entries PART_TYPE_DATA PART_SUBTYPE_DATA_OTA t = [d];
  o_sectors : 0 < pos_offset d ∧ pos_offset d mod SPI_SEC_SIZE = 0 ∧ 2 * SPI_SEC_SIZE <= pos_size d;
  o_beside : pos_offset d + pos_size d <= ESP_PARTITION_TABLE_ADDR ∨ ESP_PARTITION_TABLE_ADDR + SPI_SEC_SIZE <= pos_offset d }.

Lemma filter_none {A} (P : A → Prop) `{!∀ x, Decision (P x)} l : Forall (λ x, ¬ P x) l → filter P l = [].
Proof. induction 1 as [|x l Hx _ IH]; [done|]. by rewrite filter_cons, decide_False. Qed.
Lemma place_unique type subtype t e : entries type subtype t = [e] → place type subtype t = i_pos e.
Proof. unfold place. by intros ->. Qed.
Lemma data_place t n d : ota_table t n d → place PART_TYPE_DATA PART_SUBTYPE_DATA_OTA t = d.
Proof.
  intros Ho. pose proof (o_data _ _ _ Ho) as E. destruct (entries _ _ t) as [|e [|]] eqn:Ee; try done. injection E as <-. by apply place_unique.
Qed.
Lemma slots_count t n d : ota_table t n d → zlen (slots t) = n.
Proof.
  intros Ho. pose proof (Permutation_length (o_slots _ _ _ Ho)) as E. rewrite length_fmap, length_seqZ in E. pose proof (o_count _ _ _ Ho). unfold zlen. lia.
Qed.
(** Each slot has one entry. *)
Lemma slot_entry t n d k : ota_table t n d → 0 <= k < n → ∃ e, entries PART_TYPE_APP (PART_SUBTYPE_OTA_FLAG + k) t = [e].
Proof.
  intros Ho Hk. pose proof (o_count _ _ _ Ho) as Hn. pose proof (o_slots _ _ _ Ho) as Hp. unfold MAX_OTA_SLOTS in Hn.
  set (s := PART_SUBTYPE_OTA_FLAG + k). assert (Hs : s ∈ seqZ PART_SUBTYPE_OTA_FLAG n) by (apply elem_of_seqZ; lia).
  assert (E : entries PART_TYPE_APP s t = filter (λ e, i_subtype e = s) (slots t)).
  { unfold entries, slots. rewrite list_filter_filter. apply list_filter_iff. intros e. unfold kind, is_slot, s, PART_SUBTYPE_OTA_FLAG, MAX_OTA_SLOTS. split; [intros [-> ->]|intros (? & ? & ?)]; split_and!; (done || lia). }
  rewrite E. assert (Hnd : NoDup (i_subtype <$> slots t)) by (rewrite Hp; apply NoDup_seqZ). rewrite <- Hp in Hs. clear E Hp. revert Hs Hnd.
  induction (slots t) as [|e l IH]; cbn [fmap list_fmap]; [by intros ?%not_elem_of_nil|]. rewrite NoDup_cons, elem_of_cons. intros Hs [Hni Hnd]. rewrite filter_cons.
  destruct (decide (i_subtype e = s)) as [Ee|Ne].
  - exists e. f_equal. clear -Hni Ee. induction l as [|e' l IH]; [done|]. cbn [fmap list_fmap] in Hni. rewrite elem_of_cons in Hni. rewrite filter_cons.
    rewrite decide_False by (intros E'; apply Hni; left; congruence). apply IH. tauto.
  - apply IH; [|done]. destruct Hs as [->|]; done.
Qed.
Lemma no_entry t n d k : ota_table t n d → n <= k < MAX_OTA_SLOTS → entries PART_TYPE_APP (PART_SUBTYPE_OTA_FLAG + k) t = [].
Proof.
  intros Ho Hk. pose proof (o_count _ _ _ Ho) as Hn. destruct (entries _ _ t) as [|e l] eqn:E; [done|]. exfalso.
  assert (He : e ∈ entries PART_TYPE_APP (PART_SUBTYPE_OTA_FLAG + k) t) by (rewrite E; left). unfold entries in He. apply list_elem_of_filter in He as [[E1 E2] He].
  assert (Hs : i_subtype e ∈ i_subtype <$> slots t) by (apply list_elem_of_fmap_2, list_elem_of_filter; unfold is_slot; split; [split; [done|lia]|done]).
  rewrite (o_slots _ _ _ Ho) in Hs. apply elem_of_seqZ in Hs. lia.
Qed.

Class BootCacheOk (F : Type) `{NorFlash F} `{!BootCache F} :=
  mapped_bytes_ok a n f : 0 <= a → 0 <= n → a + n <= chip_size → mapped_bytes a n f = bytes_of byte_at f a n.

Section Choice.
Context {F H : Type} `{BuildOk F H} `{!BootCache F} `{!BootCacheOk F}.
Variables (image_ptr header_ptr buf_ptr hash_ptr : Z) (buf_content hash_content : list Z).
Implicit Types f : F.
Abbreviation bytes := (bytes_of byte_at).

(** The records of the OTA data. *)
Definition record_of (f : F) (d : esp_partition_pos_t) (i : Z) : ota_select := record_in f (pos_offset d + SPI_SEC_SIZE * i).

Lemma mmap_run a n f : 0 <= a → 0 <= n → a + n <= chip_size → bootloader_mmap a n (mkBoot f false) = Some (Some (bytes f a n), mkBoot f true).
Proof. intros. unfold bootloader_mmap, bind, get, modify, ret. cbn. by rewrite mapped_bytes_ok. Qed.

Lemma load_entries_loop f t md5 : table_in f t md5 → ∀ rest pre bs, t ++ md5 = pre ++ rest → loaded pre bs →
  ∃ bs', for_up (zlen pre) (length rest) (λ i bs, e ← info_at (bytes f ESP_PARTITION_TABLE_ADDR ESP_PARTITION_TABLE_MAX_LEN) (i * info_size); load_entry bs e) bs = Some bs' ∧ loaded (t ++ md5) bs'.
Proof.
  intros Ht. induction rest as [|e rest IH]; intros pre bs E Hl; [exists bs; rewrite E, app_nil_r; done|]. cbn [length for_up].
  assert (Hi : (t ++ md5) !! length pre = Some e) by (rewrite E; by apply list_lookup_middle).
  cbn beta. replace (zlen pre * info_size) with (info_size * Z.of_nat (length pre)) by (unfold zlen; lia). rewrite (table_entry f t md5 _ e Ht Hi). cbn [mbind option_bind].
  pose proof (entry_fields f t md5 e Ht (list_elem_of_lookup_2 _ _ _ Hi)) as (_ & Hs & _).
  pose proof (t_length _ _ _ Ht) as Hlen. rewrite E, zlen_app in Hlen. pose proof (zlen_nonneg (e :: rest)).
  destruct (load_entry_run pre e bs Hs Hl ltac:(lia)) as (bs1 & -> & Hl1). cbn [mbind option_bind].
  destruct (IH (pre ++ [e]) bs1) as (bs' & Hr & Hl'); [by rewrite <- app_assoc|done|]. rewrite zlen_app in Hr. by exists bs'.
Qed.
(** The entries of the MD5 sum are no partitions. *)
Lemma loaded_parts t md5 bs : Forall (λ e, i_magic e = ESP_PARTITION_MAGIC_MD5 ∧ i_type e = 0xff) md5 → loaded (t ++ md5) bs → loaded t bs.
Proof.
  intros Hm [L1 L2 L3 L4 L5]. assert (He : ∀ type subtype, type ≠ 0xff → place type subtype (t ++ md5) = place type subtype t).
  { intros type subtype Hn. unfold place, entries. rewrite filter_app. replace (filter (kind type subtype) md5) with (@nil esp_partition_info_t); [by rewrite app_nil_r|].
    symmetry. apply filter_none. eapply Forall_impl; [done|]. intros e [_ E] [E' _]. congruence. }
  split; [by rewrite <- He..| |].
  - intros k Hk. rewrite <- He by done. by apply L4.
  - rewrite L5. unfold slots. rewrite filter_app. replace (filter is_slot md5) with (@nil esp_partition_info_t); [by rewrite app_nil_r|].
    symmetry. apply filter_none. eapply Forall_impl; [done|]. intros e [_ E] [E' _]. unfold PART_TYPE_APP in E'. congruence.
Qed.
Lemma load_table_run f t md5 : table_in f t md5 → ∃ bs, bootloader_utility_load_partition_table bs_zero (mkBoot f false) = Some (Some bs, mkBoot f false) ∧ loaded t bs.
Proof.
  intros Ht. unfold bootloader_utility_load_partition_table.
  erewrite bind_run by (apply mmap_run; unfold ESP_PARTITION_TABLE_ADDR, ESP_PARTITION_TABLE_MAX_LEN, chip_size, CONFIG_SPI_FLASH_SIZE; lia). cbv beta iota.
  erewrite bind_run by by apply lift_run, (basic_verify_run f t md5). cbv beta iota. rewrite Z.eqb_refl. cbn [negb].
  destruct (load_entries_loop f t md5 Ht (t ++ md5) [] bs_zero eq_refl loaded_nil) as (bs & Hr & Hl).
  erewrite bind_run. 2: { apply lift_run. unfold load_entries. unfold zlen. rewrite Nat2Z.id. exact Hr. }
  exists bs. split; [done|]. by apply (loaded_parts t md5); [apply (t_md5 _ _ _ Ht)|].
Qed.
Lemma data_on_chip f t md5 n d : table_in f t md5 → ota_table t n d → pos_offset d + pos_size d <= chip_size.
Proof.
  intros Ht Ho. pose proof (o_data _ _ _ Ho) as E. destruct (entries _ _ t) as [|e l] eqn:Ee; [done|]. injection E as <- _.
  assert (He : e ∈ entries PART_TYPE_DATA PART_SUBTYPE_DATA_OTA t) by (rewrite Ee; left). apply list_elem_of_filter in He as [_ He].
  pose proof (t_parts _ _ _ Ht) as Hp. rewrite Forall_forall in Hp. by apply Hp.
Qed.
Lemma erased_invalid r : erased_record r = true → valid r = false.
Proof. unfold erased_record, valid. by intros ->. Qed.
(** The boot loader computes the choice. *)
Lemma selected_run f t md5 n d bs : table_in f t md5 → ota_table t n d → loaded t bs →
  bootloader_utility_get_selected_boot_partition bs (mkBoot f false) = Some (choice (place PART_TYPE_APP PART_SUBTYPE_FACTORY t) n (record_of f d 0) (record_of f d 1), mkBoot f false).
Proof.
  intros Ht Ho [Hd Hf _ _ Hc]. rewrite (data_place t n d Ho) in Hd. rewrite (slots_count t n d Ho) in Hc. pose proof (data_on_chip f t md5 n d Ht Ho) as Hchip.
  pose proof (o_sectors _ _ _ Ho) as (Hpos & _ & Hsize). pose proof (o_count _ _ _ Ho) as Hn. unfold bootloader_utility_get_selected_boot_partition. rewrite Hd, Hf.
  destruct (Z.eqb_spec (pos_offset d) 0); [lia|]. cbn [negb]. destruct (Z.ltb_spec (pos_size d) (2 * SPI_SEC_SIZE)); [lia|]. unfold SPI_SEC_SIZE in *.
  erewrite bind_run by (apply mmap_run; lia). cbv iota.
  erewrite bind_run. 2: { apply lift_run. rewrite slice_bytes_of by (unfold select_size; lia). apply select_of_run. }
  erewrite bind_run. 2: { apply lift_run. rewrite slice_bytes_of by (unfold select_size, SPI_SEC_SIZE; lia). apply select_of_run. }
  change (bootloader_munmap (mkBoot f true)) with (Some (tt, mkBoot f false)). unfold bind at 1. cbn [bootloader_munmap modify b_flash].
  replace (record_in f (pos_offset d + 0)) with (record_of f d 0) by (unfold record_of, SPI_SEC_SIZE; f_equal; lia).
  replace (record_in f (pos_offset d + SPI_SEC_SIZE)) with (record_of f d 1) by (unfold record_of, SPI_SEC_SIZE; f_equal; lia).
  set (r0 := record_of f d 0). set (r1 := record_of f d 1). set (fp := place _ _ t). unfold choice, newest.
  change (ota_seq r0 =? UINT32_MAX) with (erased_record r0). change (ota_seq r1 =? UINT32_MAX) with (erased_record r1).
  destruct (erased_record r0 && erased_record r1) eqn:Er.
  - apply andb_prop in Er as [E0 E1]. rewrite (erased_invalid r0 E0), (erased_invalid r1 E1). cbn. by destruct (pos_offset fp =? 0).
  - erewrite bind_run by apply lift_run, select_valid_run. erewrite bind_run by apply lift_run, select_valid_run.
    assert (Hs : ∀ seq, lift (slot_of bs seq) (mkBoot f false) = Some (u32 (seq - 1) mod n, mkBoot f false))
      by (intros; apply lift_run; unfold slot_of; rewrite Hc; destruct (Z.eqb_spec n 0); [lia|done]).
    destruct (valid r0), (valid r1); cbn [andb]; [apply Hs..|]. done.
Qed.

Lemma image_not_empty img : 0 < zlen (image_bytes img).
Proof. unfold image_bytes. rewrite zlen_app, sha256_length. pose proof (zlen_nonneg (checked img)). unfold HASH_LEN. lia. Qed.
Lemma try_load_run img off size f : word_ptr image_ptr ∧ word_ptr header_ptr ∧ word_ptr buf_ptr ∧ word_ptr hash_ptr → zlen buf_content = 16 → zlen hash_content = HASH_LEN →
  image_ok img → placed byte_at f off (image_bytes img) → 0 < off → off mod 4 = 0 → zlen (image_bytes img) <= size → off + size <= chip_size →
  try_load_partition image_ptr header_ptr buf_ptr hash_ptr buf_content hash_content (mkPos off size) (mkBoot f false) = Some (Some (meta_of off img), mkBoot f false).
Proof.
  intros Hptrs Hb Hh Hok Hp Hoff Hoff4 Hfit Hend. unfold try_load_partition. cbn [pos_size].
  destruct (Z.eqb_spec size 0) as [->|_].
  { pose proof (image_not_empty img). lia. }
  erewrite bind_run. 2: { eapply zoom_run. cbn [b_flash]. by apply image_load_run. }
  done.
Qed.
(** An image in the chosen slot is the one that is started. *)
Lemma select_image_run img f t md5 n d k : word_ptr image_ptr ∧ word_ptr header_ptr ∧ word_ptr buf_ptr ∧ word_ptr hash_ptr → zlen buf_content = 16 → zlen hash_content = HASH_LEN →
  table_in f t md5 → ota_table t n d → 0 <= k < n → choice (place PART_TYPE_APP PART_SUBTYPE_FACTORY t) n (record_of f d 0) (record_of f d 1) = k →
  let p := place PART_TYPE_APP (PART_SUBTYPE_OTA_FLAG + k) t in
  image_ok img → placed byte_at f (pos_offset p) (image_bytes img) → 0 < pos_offset p → pos_offset p mod 4 = 0 → zlen (image_bytes img) <= pos_size p → pos_offset p + pos_size p <= chip_size →
  select_image image_ptr header_ptr buf_ptr hash_ptr buf_content hash_content (mkBoot f false) = Some (Some (meta_of (pos_offset p) img), mkBoot f false).
Proof.
  intros Hptrs Hb Hh Ht Ho Hk Hchoice p Hok Hp Hoff Hoff4 Hfit Hend. unfold select_image. destruct (load_table_run f t md5 Ht) as (bs & Hl & Hbs).
  erewrite bind_run by done. cbv iota. unfold selected_boot_partition. erewrite bind_run by by apply (selected_run f t md5 n d). rewrite Hchoice.
  pose proof (o_count _ _ _ Ho) as Hn. unfold INVALID_INDEX, MAX_OTA_SLOTS in *. destruct (Z.eqb_spec k (-99)); [lia|].
  unfold bootloader_utility_load_boot_image, TEST_APP_INDEX. destruct (Z.eqb_spec k (-2)); [lia|]. unfold FACTORY_INDEX.
  replace (Z.to_nat (k - -1 + 1)) with (S (Z.to_nat (k + 1))) by lia. cbn [backwards].
  assert (Hi : try_index image_ptr header_ptr buf_ptr hash_ptr buf_content hash_content bs k (mkBoot f false) = Some (Some (meta_of (pos_offset p) img), mkBoot f false)).
  2: { unfold bind at 1. erewrite bind_run by done. done. }
  unfold try_index, index_to_partition, FACTORY_INDEX, TEST_APP_INDEX, MAX_OTA_SLOTS.
  destruct (Z.eqb_spec k (-1)), (Z.eqb_spec k (-2)), (Z.leb_spec 0 k), (Z.ltb_spec k 16); try lia. rewrite u32_id by (unfold in_u32; lia).
  rewrite (l_count _ _ Hbs), (slots_count t n d Ho). destruct (Z.ltb_spec k n); [|lia]. cbn [andb].
  erewrite bind_run by (apply lift_run, (l_ota _ _ Hbs); unfold MAX_OTA_SLOTS; lia). fold p.
  destruct (Z.eqb_spec (pos_size p) 0) as [E|_].
  { pose proof (image_not_empty img). lia. }
  destruct p as [off size]. by apply try_load_run.
Qed.

(** The index [select_image] starts from. *)
Definition boot_index : M (boot F) Z :=
  let! bs := bootloader_utility_load_partition_table bs_zero in
  match bs with None => ret INVALID_INDEX | Some bs => selected_boot_partition bs end.
Lemma boot_index_run f t md5 n d : table_in f t md5 → ota_table t n d →
  boot_index (mkBoot f false) = Some (choice (place PART_TYPE_APP PART_SUBTYPE_FACTORY t) n (record_of f d 0) (record_of f d 1), mkBoot f false).
Proof.
  intros Ht Ho. unfold boot_index. destruct (load_table_run f t md5 Ht) as (bs & Hl & Hbs). erewrite bind_run by done. cbv iota. by apply (selected_run f t md5 n d).
Qed.
End Choice.

End Boot.
