(* ===== verification/Ota.v ===== *)
(** Updates over the air: [components/app_update/esp_ota_ops.c] over the
    partitions of [Partition.v] and the check of images of [Image.v].

    An update is written into a free slot, and the slot is chosen by a record
    in the OTA data, which the boot loader ([Boot.v]) reads at the next start.
    The slot that is chosen is the one the boot loader starts
    ([chosen_slot_boots]), and a loss of power while the record is programmed
    leaves the old choice or the new one ([choice_survives_power_loss]). *)
From S2P Require Import Prelude Crc Misc SpiFlash Partition Sha256 Image Boot.

Module Ota.
Import SpiFlash Partition Image.
Import Boot (PART_TYPE_APP, PART_SUBTYPE_FACTORY, PART_SUBTYPE_OTA_FLAG, ota_select, mkSelect, ota_seq, seq_label, crc, select_of, select_size, UINT32_MAX).

Definition ESP_ERR_NOT_FOUND : Z := 0x105.
Definition ESP_ERR_INVALID_STATE : Z := 0x103.
Definition ESP_ERR_OTA_PARTITION_CONFLICT : Z := 0x1501.
Definition ESP_ERR_OTA_VALIDATE_FAILED : Z := 0x1503.
Definition OTA_SIZE_UNKNOWN : Z := 0xffffffff.
Definition ESP_PARTITION_SUBTYPE_APP_FACTORY : Z := 0x00.
Definition ESP_PARTITION_SUBTYPE_APP_OTA_MIN : Z := 0x10.
Definition ESP_PARTITION_SUBTYPE_APP_OTA_MAX : Z := 0x20.
Definition ESP_PARTITION_SUBTYPE_APP_TEST : Z := 0x20.
Definition ESP_PARTITION_SUBTYPE_DATA_OTA : Z := 0x00.
Definition SUB_TYPE_ID (i : Z) : Z := Z.land i 0x0F.

(** [ota_ops_entry_t]; [e_part] points into the list of partitions. *)
Record ota_ops_entry := mkEntry { e_handle : Z; e_part : nat; e_erased_size : Z; e_wrote_size : Z; e_partial_bytes : Z }.

(** The partitions with the flash, and the globals: the list of the updates
    under way, the last handle, the two records. *)
Record ota (F : Type) := mkOta { parts_ : parts F; s_ota_ops_entries : list ota_ops_entry; s_ota_ops_last_handle : Z; s_ota_select : ota_select * ota_select }.
Arguments mkOta {F} _ _ _ _.
Arguments parts_ {F} _.
Arguments s_ota_ops_entries {F} _.
Arguments s_ota_ops_last_handle {F} _.
Arguments s_ota_select {F} _.

Definition select_bytes (s : ota_select) : list Z := le_bytes 4 (ota_seq s) ++ seq_label s ++ le_bytes 4 (crc s).
Definition ota_select_crc (s : ota_select) : option Z := Util.crc32_le UINT32_MAX (le_bytes 4 (ota_seq s)) 4.
Definition ota_select_valid (s : ota_select) : option bool :=
  if ota_seq s =? UINT32_MAX then Some false else c ← ota_select_crc s; Some (crc s =? c).
Definition OTA_MAX (a b : Z) : Z := if b <=? a then a else b.

(** [spi_flash_cache2phys], from the register of the cache. *)
Definition spi_flash_cache2phys (reg addr : Z) : Z :=
  let segment := Z.land (Z.shiftr reg 16) 0x3 in
  let '(map_size, addr_offset) :=
    if Z.testbit reg 24 then (0x200000, 0) else (0x100000, if Z.testbit reg 25 then 0x100000 else 0) in
  if (addr <=? 0x40200000) || (0x40200000 + map_size <=? addr) then UINT32_MAX
  else u32 (segment * 0x200000 + (addr + addr_offset - 0x40200000)).

Section Ota.
Context {F H : Type} `{!FlashChip F} `{!Build F H}.
Variables (stack : Z) (junk : list Z).
(** The answer of [malloc] for the table, the addresses of the globals and of
    the structures of the image check; the address of
    [esp_ota_get_running_partition] and the register of the cache. *)
Variables (table_ptr select_ptr : Z) (image_ptr header_ptr buf_ptr hash_ptr : Z) (buf_content hash_content : list Z) (self_addr cache_reg : Z).

Definition on_parts {A} (m : M (parts F) A) : M (ota F) A :=
  zoom parts_ (λ p s, mkOta p (s_ota_ops_entries s) (s_ota_ops_last_handle s) (s_ota_select s)) m.
Definition find_first (type subtype : Z) : M (ota F) (option nat) := on_parts (esp_partition_find_first junk table_ptr type subtype None).
(** [p->...] for a pointer into the list. *)
Definition deref (i : nat) : M (ota F) esp_partition_t := on_parts (item i).
Definition set_entries (l : list ota_ops_entry) : M (ota F) unit := modify (λ s, mkOta (parts_ s) l (s_ota_ops_last_handle s) (s_ota_select s)).
Definition set_select (sel : ota_select * ota_select) : M (ota F) unit := modify (λ s, mkOta (parts_ s) (s_ota_ops_entries s) (s_ota_ops_last_handle s) sel).

Definition is_ota_partition (p : esp_partition_t) : bool :=
  (p_type p =? ESP_PARTITION_TYPE_APP) && (ESP_PARTITION_SUBTYPE_APP_OTA_MIN <=? p_subtype p) && (p_subtype p <? ESP_PARTITION_SUBTYPE_APP_OTA_MAX).

(** ** The running partition *)

(** [abort] at the end of the list is a fault. *)
Fixpoint running_loop (fuel : nat) (phys_offs : Z) (it : option iterator) : M (ota F) nat :=
  match fuel with
  | O => fault
  | S fuel =>
      let! it := lift it in let! i := lift (it_info it) in let! p := deref i in
      if (p_address p <=? phys_offs) && (phys_offs <? u32 (p_address p + p_size p)) then ret i else
      let! it := on_parts (esp_partition_next it) in running_loop fuel phys_offs it
  end.
Definition esp_ota_get_running_partition : M (ota F) nat :=
  let phys_offs := spi_flash_cache2phys cache_reg self_addr in
  if phys_offs =? UINT32_MAX then fault else
  let! it := on_parts (esp_partition_find junk table_ptr ESP_PARTITION_TYPE_APP ESP_PARTITION_SUBTYPE_ANY None) in
  let! l := get (λ s, s_partition_list (parts_ s)) in
  running_loop (length l + 1) phys_offs it.

(** ** Writing an update *)

(** [calloc_ok]: the answer of [calloc]. The handle, if it succeeds. *)
Definition esp_ota_begin (calloc_ok : bool) (partition : option esp_partition_t) (image_size : Z) : M (ota F) (Z * option Z) :=
  match partition with
  | None => ret (ESP_ERR_INVALID_ARG, None)
  | Some partition =>
      let! v := on_parts (esp_partition_verify junk table_ptr partition) in
      match v with
      | None => ret (ESP_ERR_NOT_FOUND, None)
      | Some i =>
          let! p := deref i in
          if negb (is_ota_partition p) then ret (ESP_ERR_INVALID_ARG, None) else
          let! running := esp_ota_get_running_partition in
          if (i =? running)%nat then ret (ESP_ERR_OTA_PARTITION_CONFLICT, None) else
          let whole := (image_size =? 0) || (image_size =? OTA_SIZE_UNKNOWN) in
          let! ret_ := on_parts (esp_partition_erase_range p 0
            (if whole then p_size p else u32 ((image_size / SPI_FLASH_SEC_SIZE + 1) * SPI_FLASH_SEC_SIZE))) in
          if negb (ret_ =? ESP_OK) then ret (ret_, None) else
          if negb calloc_ok then ret (ESP_ERR_NO_MEM, None) else
          let! s := get (λ s, s) in
          let handle := u32 (s_ota_ops_last_handle s + 1) in
          modify (λ s, mkOta (parts_ s) (mkEntry handle i (if whole then p_size p else image_size) 0 0 :: s_ota_ops_entries s) handle (s_ota_select s)) ;;;
          ret (ESP_OK, Some handle)
      end
  end.

(** The first entry with the handle, with the ones before and after it. *)
Fixpoint find_entry (handle : Z) (l : list ota_ops_entry) : option (list ota_ops_entry * ota_ops_entry * list ota_ops_entry) :=
  match l with
  | [] => None
  | e :: l => if e_handle e =? handle then Some ([], e, l) else
      '(pre, x, post) ← find_entry handle l; Some (e :: pre, x, post)
  end.
(** [data] is what is at the address [src]. *)
Definition esp_ota_write (handle src : Z) (data : list Z) (size : Z) : M (ota F) Z :=
  if src =? 0 then ret ESP_ERR_INVALID_ARG else
  let! l := get s_ota_ops_entries in
  match find_entry handle l with
  | None => ret ESP_ERR_INVALID_ARG
  | Some (pre, it, post) =>
      if negb (0 <? e_erased_size it) then fault else
      let! bad := lift (if (e_wrote_size it =? 0) && (0 <? size) then (b ← rd data 0; Some (negb (b =? 0xE9))) else Some false) in
      if (bad : bool) then ret ESP_ERR_OTA_VALIDATE_FAILED else
      let! p := deref (e_part it) in
      let! ret_ := on_parts (esp_partition_write stack junk p (e_wrote_size it) src data size) in
      when (ret_ =? ESP_OK) (set_entries (pre ++ mkEntry (e_handle it) (e_part it) (e_erased_size it) (u32 (e_wrote_size it + size)) (e_partial_bytes it) :: post)) ;;;
      ret ret_
  end.

Definition load_image (p : esp_partition_t) : M (ota F) (Z * option esp_image_metadata_t) :=
  on_parts (on_flash (esp_image_load image_ptr header_ptr buf_ptr hash_ptr buf_content hash_content (mkPos (p_address p) (p_size p)))).
(** The entry points of the first megabyte; the subtraction wraps and the
    result is signed, the comparisons with [offset] are unsigned. *)
Definition esp_ota_verify_binary (p : esp_partition_t) (entry_addr : Z) : Z :=
  let entry := s32 (entry_addr - 0x40200010) in
  if u32 (p_address p + p_size p) <=? 0x100000 then
    if (entry <=? 0) || (u32 entry <=? p_address p) || (u32 (p_address p + p_size p) <=? u32 entry) then ESP_ERR_INVALID_ARG else ESP_OK
  else ESP_OK.
(** Nothing is cached on this chip: [partial_bytes] stays zero, so that the
    write of the last block is left out. *)
Definition esp_ota_end (handle : Z) : M (ota F) Z :=
  let! l := get s_ota_ops_entries in
  match find_entry handle l with
  | None => ret ESP_ERR_NOT_FOUND
  | Some (pre, it, post) =>
      let! ret_ :=
        if (e_erased_size it =? 0) || (e_wrote_size it =? 0) then ret ESP_ERR_INVALID_ARG else
        if 0 <? e_partial_bytes it then fault else
        let! p := deref (e_part it) in
        let! (err, data) := load_image p in
        match data with
        | None => ret ESP_ERR_OTA_VALIDATE_FAILED
        | Some data =>
            if negb (err =? ESP_OK) then ret ESP_ERR_OTA_VALIDATE_FAILED else
            ret (if esp_ota_verify_binary p (h_entry_addr (image data)) =? ESP_OK then ESP_OK else ESP_ERR_OTA_VALIDATE_FAILED)
        end in
      set_entries (pre ++ post) ;;; ret ret_
  end.

(** ** Choosing what to boot *)

Definition put_record (sec_id : Z) (s : ota_select) (sel : ota_select * ota_select) : ota_select * ota_select :=
  if sec_id =? 0 then (s, sel.2) else (sel.1, s).
Definition rewrite_ota_seq (seq sec_id : Z) (ota_data_partition : esp_partition_t) : M (ota F) Z :=
  if (sec_id =? 0) || (sec_id =? 1) then
    let! sel := get s_ota_select in
    let s := if sec_id =? 0 then sel.1 else sel.2 in
    let! c := lift (ota_select_crc (mkSelect seq (seq_label s) (crc s))) in
    let s := mkSelect seq (seq_label s) c in
    set_select (put_record sec_id s sel) ;;;
    let! ret_ := on_parts (esp_partition_erase_range ota_data_partition (sec_id * SPI_FLASH_SEC_SIZE) SPI_FLASH_SEC_SIZE) in
    if negb (ret_ =? ESP_OK) then ret ret_ else
    on_parts (esp_partition_write stack junk ota_data_partition (SPI_FLASH_SEC_SIZE * sec_id) (select_ptr + select_size * sec_id) (select_bytes s) select_size)
  else ret ESP_ERR_INVALID_ARG.

(** The number is compared with the slots there can be, by [assert]. *)
Fixpoint count_loop (fuel : nat) (n : Z) : M (ota F) Z :=
  match fuel with
  | O => fault
  | S fuel =>
      let! p := find_first ESP_PARTITION_TYPE_APP (ESP_PARTITION_SUBTYPE_APP_OTA_MIN + n) in
      match p with None => ret n | Some _ => if negb (n <? 16) then fault else count_loop fuel (n + 1) end
  end.
Definition get_ota_partition_count : M (ota F) Z := count_loop 17 0.

(** [while (seq > (SUB_TYPE_ID(subtype) + 1) % ota_app_count + i * ota_app_count) i++]:
    the sequence number it ends with. *)
Fixpoint seq_loop (fuel : nat) (seq first count i : Z) : option Z :=
  match fuel with
  | O => None
  | S fuel => let next := u32 (first + u32 (i * count)) in if next <? seq then seq_loop fuel seq first count (u32 (i + 1)) else Some next
  end.
Definition next_seq (seq subtype count : Z) : option Z := seq_loop (Z.to_nat (seq / count) + 2) seq ((SUB_TYPE_ID subtype + 1) mod count) count 0.

(** The two records as they are in the flash; the answer is the error. *)
Definition read_records (p : esp_partition_t) : M (ota F) Z :=
  let! (ret_, b) := on_parts (on_flash (spi_flash_read junk (p_address p) select_ptr select_size)) in
  if negb (ret_ =? ESP_OK) then ret ret_ else
  let! s := lift (select_of b) in let! sel := get s_ota_select in set_select (s, sel.2) ;;;
  let! (ret_, b) := on_parts (on_flash (spi_flash_read junk (u32 (p_address p + 0x1000)) (select_ptr + select_size) select_size)) in
  if negb (ret_ =? ESP_OK) then ret ret_ else
  let! s := lift (select_of b) in let! sel := get s_ota_select in set_select (sel.1, s) ;;; ret ESP_OK.

Definition esp_rewrite_ota_data (subtype : Z) : M (ota F) Z :=
  let! find_partition := find_first ESP_PARTITION_TYPE_DATA ESP_PARTITION_SUBTYPE_DATA_OTA in
  match find_partition with
  | None => ret ESP_ERR_NOT_FOUND
  | Some i =>
      let! count := get_ota_partition_count in
      let! p := deref i in
      if count <=? SUB_TYPE_ID subtype then ret ESP_ERR_INVALID_ARG else
      let! ret_ := read_records p in
      if negb (ret_ =? ESP_OK) then ret ret_ else
      let! (s0, s1) := get s_ota_select in
      let! v0 := lift (ota_select_valid s0) in let! v1 := lift (ota_select_valid s1) in
      if v0 && v1 then
        let! seq := lift (next_seq (OTA_MAX (ota_seq s0) (ota_seq s1)) subtype count) in
        if ota_seq s1 <=? ota_seq s0 then rewrite_ota_seq seq 1 p else rewrite_ota_seq seq 0 p
      else if (v0 : bool) then (let! seq := lift (next_seq (ota_seq s0) subtype count) in rewrite_ota_seq seq 1 p)
      else if (v1 : bool) then (let! seq := lift (next_seq (ota_seq s1) subtype count) in rewrite_ota_seq seq 0 p)
      else rewrite_ota_seq (SUB_TYPE_ID subtype + 1) 0 p
  end.

Definition esp_ota_set_boot_partition (partition : option esp_partition_t) : M (ota F) Z :=
  match partition with
  | None => ret ESP_ERR_INVALID_ARG
  | Some partition =>
      let! (err, _) := load_image partition in
      if negb (err =? ESP_OK) then ret ESP_ERR_OTA_VALIDATE_FAILED else
      if p_type partition =? ESP_PARTITION_TYPE_APP then
        let! find_partition := find_first ESP_PARTITION_TYPE_DATA ESP_PARTITION_SUBTYPE_DATA_OTA in
        match find_partition with
        | None => ret ESP_ERR_NOT_FOUND
        | Some i =>
            if p_subtype partition =? ESP_PARTITION_SUBTYPE_APP_FACTORY then
              let! p := deref i in on_parts (esp_partition_erase_range p 0 (p_size p))
            else esp_rewrite_ota_data (p_subtype partition)
        end
      else ret ESP_ERR_INVALID_ARG
  end.

(** ** What is chosen *)

Fixpoint first_ota (n : nat) (s : Z) : M (ota F) (option nat) :=
  match n with
  | O => ret None
  | S n => let! r := find_first ESP_PARTITION_TYPE_APP s in match r with Some i => ret (Some i) | None => first_ota n (s + 1) end
  end.
Definition find_default_boot_partition : M (ota F) (option nat) :=
  let! r := find_first ESP_PARTITION_TYPE_APP ESP_PARTITION_SUBTYPE_APP_FACTORY in
  match r with Some i => ret (Some i) | None =>
  let! r := first_ota 16 ESP_PARTITION_SUBTYPE_APP_OTA_MIN in
  match r with Some i => ret (Some i) | None => find_first ESP_PARTITION_TYPE_APP ESP_PARTITION_SUBTYPE_APP_TEST end end.
(** The partition of a sequence number; a remainder by zero is a fault. *)
Definition find_slot (seq count : Z) : M (ota F) (option nat) :=
  if count =? 0 then fault else find_first ESP_PARTITION_TYPE_APP (ESP_PARTITION_SUBTYPE_APP_OTA_MIN + u32 (seq - 1) mod count).
Definition esp_ota_get_boot_partition : M (ota F) (option nat) :=
  let! find_partition := find_first ESP_PARTITION_TYPE_DATA ESP_PARTITION_SUBTYPE_DATA_OTA in
  match find_partition with
  | None => ret None
  | Some i =>
      let! p := deref i in
      let! ret_ := read_records p in
      if negb (ret_ =? ESP_OK) then ret None else
      let! count := get_ota_partition_count in
      let! (s0, s1) := get s_ota_select in
      if (ota_seq s0 =? 0xFFFFFFFF) && (ota_seq s1 =? 0xFFFFFFFF) then find_default_boot_partition else
      let! v0 := lift (ota_select_valid s0) in let! v1 := lift (ota_select_valid s1) in
      if v0 && v1 then find_slot (OTA_MAX (ota_seq s0) (ota_seq s1)) count
      else if (v0 : bool) then find_slot (ota_seq s0) count
      else if (v1 : bool) then find_slot (ota_seq s1) count
      else find_default_boot_partition
  end.

(** [default_ota] and [next_is_result] through the slots from [t] on. *)
Fixpoint next_loop (n : nat) (t : Z) (start : nat) (default_ota : option nat) (next_is_result : bool) : M (ota F) (option nat) :=
  match n with
  | O => ret default_ota
  | S n =>
      let! p := find_first ESP_PARTITION_TYPE_APP t in
      match p with
      | None => next_loop n (t + 1) start default_ota next_is_result
      | Some i =>
          let default_ota := match default_ota with None => Some i | d => d end in
          if (i =? start)%nat then next_loop n (t + 1) start default_ota true
          else if next_is_result then ret (Some i) else next_loop n (t + 1) start default_ota next_is_result
      end
  end.
Definition esp_ota_get_next_update_partition (start_from : option esp_partition_t) : M (ota F) (option nat) :=
  let! start := match start_from with None => (let! i := esp_ota_get_running_partition in ret (Some i)) | Some p => on_parts (esp_partition_verify junk table_ptr p) end in
  let! start := lift start in
  next_loop 16 ESP_PARTITION_SUBTYPE_APP_OTA_MIN start None false.
End Ota.

(** ** The application finds the partitions of the table *)

Section Finding.
Context {F H : Type} `{NorFlash F} `{!Build F H}.
Variables (stack : Z) (junk : list Z) (table_ptr : Z).
Hypothesis Hjunk : zlen junk = SPI_READ_BUF_MAX.
Hypothesis Htable : table_ptr ≠ 0.
Implicit Types s : ota F.

(** The list of an entry of the table each. *)
Definition part_of (e : esp_partition_info_t) (p : esp_partition_t) : Prop :=
  p_type p = i_type e ∧ p_subtype p = i_subtype e ∧ p_address p = pos_offset (i_pos e) ∧ p_size p = pos_size (i_pos e).
Lemma make_item_run e : length (i_label e) = 16%nat → ∃ p, make_item e = Some p ∧ part_of e p.
Proof.
  intros Hl. unfold make_item. assert (Hs : ∀ n src, length src = n → is_Some (Cstring.strncpy_bytes n src)).
  { induction n as [|n IH]; intros [|c src] Hn; try done. cbn. destruct (c =? 0); [done|]. destruct (IH src) as [l ->]; [by injection Hn|]. by eexists. }
  destruct (Hs 16%nat (i_label e) Hl) as [l ->]. cbn [mbind option_bind]. eexists. split; [done|]. by split_and!.
Qed.
Lemma read_items_run f t md5 n : Boot.table_in f t md5 → ∀ rest pre, t = pre ++ rest → (length rest < n)%nat →
  ∃ items, read_items n (bytes_of byte_at f ESP_PARTITION_TABLE_ADDR SPI_FLASH_SEC_SIZE) (info_size * zlen pre) = Some items ∧ Forall2 part_of rest items.
Proof.
  intros Ht. pose proof (Boot.t_length _ _ _ Ht) as Hlen. rewrite zlen_app in Hlen. pose proof (zlen_nonneg md5) as Hm0. induction n as [|n IH]; intros rest pre E Hn; [lia|]. cbn [read_items].
  assert (Hpre : zlen t = zlen pre + zlen rest) by (rewrite E; apply zlen_app). pose proof (zlen_nonneg pre). pose proof (zlen_nonneg rest).
  rewrite Boot.info_at_run by (unfold info_size, SPI_FLASH_SEC_SIZE; lia). cbn [mbind option_bind]. destruct rest as [|e rest].
  - exists []. split; [|done]. rewrite app_nil_r in E. subst pre.
    assert (Hm : i_magic (Boot.info_in f (ESP_PARTITION_TABLE_ADDR + info_size * zlen t)) ≠ ESP_PARTITION_MAGIC).
    { destruct md5 as [|e md5].
      - destruct (Boot.t_end _ _ _ Ht) as (e & He & Em & _). rewrite app_nil_r in He. by rewrite He, Em.
      - unfold zlen. rewrite (Boot.t_entries _ _ _ Ht (length t) e) by (by apply list_lookup_middle).
        pose proof (Boot.t_md5 _ _ _ Ht) as Hmd. rewrite Forall_cons in Hmd. destruct Hmd as [[-> _] _]. done. }
    destruct (Z.eqb_spec (i_magic (Boot.info_in f (ESP_PARTITION_TABLE_ADDR + info_size * zlen t))) ESP_PARTITION_MAGIC); done.
  - assert (Hi : (t ++ md5) !! length pre = Some e) by (rewrite E, <- app_assoc; by apply list_lookup_middle).
    rewrite (Boot.t_entries _ _ _ Ht _ e Hi : Boot.info_in f (ESP_PARTITION_TABLE_ADDR + info_size * zlen pre) = e).
    assert (Hmag : i_magic e = ESP_PARTITION_MAGIC).
    { pose proof (Boot.t_parts _ _ _ Ht) as Hp. rewrite E, Forall_app, Forall_cons in Hp. tauto. }
    rewrite Hmag, Z.eqb_refl. cbn [negb].
    pose proof (Boot.entry_fields f t md5 e Ht (list_elem_of_lookup_2 _ _ _ Hi)) as (_ & _ & _ & _ & Hl).
    destruct (make_item_run e Hl) as (p & -> & Hp). cbn [mbind option_bind].
    destruct (IH rest (pre ++ [e])) as (items & Hr & Hf); [by rewrite <- app_assoc|cbn in Hn; lia|].
    rewrite zlen_app in Hr. change (zlen [e]) with 1 in Hr. replace (info_size * zlen pre + info_size) with (info_size * (zlen pre + 1)) by lia. rewrite Hr.
    cbn [mbind option_bind]. eexists. split; [done|]. by constructor.
Qed.

(** The list is that of the table, or not read yet. *)
Definition knows (t : list esp_partition_info_t) (l : list esp_partition_t) : Prop := l = [] ∨ Forall2 part_of t l.

Lemma list_find_part t l type subtype : Forall2 part_of t l →
  match Boot.entries type subtype t with
  | [] => list_find (of_kind type subtype) l = None
  | e :: _ => ∃ i p, list_find (of_kind type subtype) l = Some (i, p) ∧ l !! i = Some p ∧ part_of e p
  end.
Proof.
  induction 1 as [|e p t l Hp _ IH]; [done|]. unfold Boot.entries in *. rewrite filter_cons. cbn [list_find].
  assert (Hk : Boot.kind type subtype e ↔ of_kind type subtype p) by (destruct Hp as (E1 & E2 & _); unfold Boot.kind, of_kind; by rewrite E1, E2).
  destruct (decide (Boot.kind type subtype e)) as [Hy|Hn].
  - rewrite decide_True by tauto. by exists 0%nat, p.
  - rewrite decide_False by tauto. destruct (filter _ t) as [|e' t']; [by rewrite IH|]. destruct IH as (i & q & -> & Hl & Hq). by exists (S i), q.
Qed.

(** After any search the list is there. *)
Definition with_list (s : ota F) (l : list esp_partition_t) : ota F := mkOta (mkParts (flash (parts_ s)) l) (s_ota_ops_entries s) (s_ota_ops_last_handle s) (s_ota_select s).
Lemma find_first_loads t md5 type subtype s : Boot.table_in (flash (parts_ s)) t md5 → t ≠ [] → knows t (s_partition_list (parts_ s)) → subtype ≠ 0xff →
  ∃ l, Forall2 part_of t l ∧ (s_partition_list (parts_ s) ≠ [] → l = s_partition_list (parts_ s)) ∧
    find_first junk table_ptr type subtype s = Some (fst <$> list_find (of_kind type subtype) l, with_list s l).
Proof.
  intros Ht Hne [El|Hl] Hany; unfold find_first, on_parts.
  - destruct (read_items_run _ t md5 128 Ht t [] eq_refl) as (l & Hr & Hf).
    { pose proof (Boot.t_length _ _ _ Ht) as Hlen. unfold zlen in Hlen. rewrite length_app in Hlen. lia. }
    remember 128%nat as rounds eqn:Erounds in Hr. exists l. split; [done|]. split; [done|]. assert (Hl : l ≠ []) by (destruct l; [by inversion Hf; subst|done]).
    erewrite zoom_run; [done|]. etrans; [|exact (find_first_run junk table_ptr type subtype (mkParts (flash (parts_ s)) l) Hany Hl)].
    assert (Hload : load_partitions junk table_ptr (parts_ s) = Some (ESP_OK, mkParts (flash (parts_ s)) l)).
    { unfold load_partitions. destruct (Z.eqb_spec table_ptr 0); [done|].
      erewrite (bind_run (on_flash _)) by (apply on_flash_run, spi_flash_read_run; done). cbv beta iota. cbn [Z.eqb negb ESP_OK].
      subst rounds. erewrite bind_run by (apply lift_run; exact Hr). unfold bind, modify, ret. cbn [s_partition_list flash]. by rewrite El. }
    unfold esp_partition_find_first, esp_partition_find. unfold bind, get. cbn [s_partition_list]. rewrite El, Hload. by destruct l.
  - exists (s_partition_list (parts_ s)). split; [done|]. split; [done|]. assert (Hn : s_partition_list (parts_ s) ≠ []) by (intros E; rewrite E in Hl; by inversion Hl; subst).
    erewrite zoom_run by by apply find_first_run. by destruct s as [[? ?] ? ? ?].
Qed.
End Finding.

(** ** Sequence numbers

    The next number is the least one from [seq] on that stands for the slot. *)
Lemma seq_loop_run first count seq fuel : 0 < count <= 16 → 0 <= first < count → 0 < seq < 2 ^ 31 → ∀ i, 0 <= i → (0 < i → first + (i - 1) * count < seq) → seq - first <= (i + Z.of_nat fuel - 1) * count →
  ∃ next, seq_loop fuel seq first count i = Some next ∧ seq <= next < seq + 16 ∧ next mod count = first.
Proof.
  intros Hc Hf Hs. induction fuel as [|fuel IH]; intros i Hi Hlo Hfuel; cbn [seq_loop].
  - exfalso. destruct (Z.eq_dec i 0) as [->|]; [nia|specialize (Hlo ltac:(lia)); lia].
  - assert (Hb : first + i * count < 2 ^ 32 - 32) by (destruct (Z.eq_dec i 0) as [->|]; [lia|specialize (Hlo ltac:(lia)); nia]).
    rewrite (u32_id (i * count)), (u32_id (first + _)), (u32_id (i + 1)) by (unfold in_u32; nia).
    destruct (Z.ltb_spec (first + i * count) seq) as [Hlt|Hge].
    + apply IH; [lia| |lia]. intros _. by replace (i + 1 - 1) with i by lia.
    + exists (first + i * count). split; [done|]. rewrite Z.mod_add, Z.mod_small by lia. split; [|done]. destruct (Z.eq_dec i 0) as [->|]; [lia|specialize (Hlo ltac:(lia)); lia].
Qed.
Lemma slot_id k : 0 <= k < 16 → SUB_TYPE_ID (ESP_PARTITION_SUBTYPE_APP_OTA_MIN + k) = k.
Proof. unfold SUB_TYPE_ID, ESP_PARTITION_SUBTYPE_APP_OTA_MIN. intros. pose proof (Z.land_ones (16 + k) 4 ltac:(lia)) as E. change (Z.ones 4) with 15 in E. rewrite E. change (2 ^ 4) with 16. dlia. Qed.
Lemma next_seq_run seq k n : 0 < n <= 16 → 0 < seq < 2 ^ 31 → 0 <= k < n →
  ∃ next, next_seq seq (ESP_PARTITION_SUBTYPE_APP_OTA_MIN + k) n = Some next ∧ seq <= next < seq + 16 ∧ (next - 1) mod n = k.
Proof.
  intros Hn Hs Hk. unfold next_seq. rewrite slot_id by lia.
  destruct (seq_loop_run ((k + 1) mod n) n seq (Z.to_nat (seq / n) + 2)) with (i := 0) as (next & Hr & Hb & Hm); [done|apply Z.mod_pos_bound; lia|done|lia|lia| |].
  - pose proof (Z.mod_pos_bound (k + 1) n ltac:(lia)). pose proof (Z.div_pos seq n ltac:(lia) ltac:(lia)). replace (0 + Z.of_nat (Z.to_nat (seq / n) + 2) - 1) with (seq / n + 1) by lia. pose proof (Z.mul_succ_div_gt seq n ltac:(lia)). lia.
  - exists next. split; [done|]. split; [done|]. rewrite <- Zminus_mod_idemp_l, Hm, Zminus_mod_idemp_l. replace (k + 1 - 1) with k by lia. by apply Z.mod_small.
Qed.

(** ** The records

    Which record is written, and what it is. *)
Definition written_sector (r0 r1 : ota_select) : Z := if Boot.valid r0 && (negb (Boot.valid r1) || (ota_seq r1 <=? ota_seq r0)) then 1 else 0.
Definition new_record (label : list Z) (seq : Z) : ota_select := mkSelect seq label (Util.crc_spec 32 0xEDB88320 UINT32_MAX (le_bytes 4 seq)).
Definition record_at (i : Z) (r : ota_select * ota_select) : ota_select := if i =? 0 then r.1 else r.2.
Abbreviation newest_of r := (Boot.newest r.1 r.2).

Lemma new_record_valid label seq : seq ≠ UINT32_MAX → Boot.valid (new_record label seq) = true.
Proof. intros Hs. unfold Boot.valid, new_record. cbn [ota_seq crc]. destruct (Z.eqb_spec seq UINT32_MAX); [done|]. by rewrite Z.eqb_refl. Qed.
(** The new record is the newest. *)
Lemma newest_written r0 r1 label next : next ≠ UINT32_MAX → (∀ seq, Boot.newest r0 r1 = Some seq → seq <= next) →
  newest_of (put_record (written_sector r0 r1) (new_record label next) (r0, r1)) = Some next.
Proof.
  intros Hn Hle. pose proof (new_record_valid label next Hn) as Hv. unfold Boot.newest, written_sector in *.
  destruct (Boot.valid r0) eqn:V0, (Boot.valid r1) eqn:V1; cbn [andb orb negb] in *; unfold put_record; cbn.
  - specialize (Hle _ eq_refl). destruct (Z.leb_spec (ota_seq r1) (ota_seq r0)); cbn; rewrite Hv, ?V0, ?V1; cbn; f_equal; lia.
  - specialize (Hle _ eq_refl). rewrite Hv, V0. cbn. f_equal. lia.
  - specialize (Hle _ eq_refl). rewrite Hv, V1. cbn. f_equal. lia.
  - rewrite Hv, V1. done.
Qed.
(** While it is not valid, the choice is the old one. *)
Lemma newest_torn r0 r1 x seq : Boot.newest r0 r1 = Some seq → Boot.valid x = false → newest_of (put_record (written_sector r0 r1) x (r0, r1)) = Some seq.
Proof.
  intros Hs Hx. unfold Boot.newest, written_sector in *. destruct (Boot.valid r0) eqn:V0, (Boot.valid r1) eqn:V1; cbn [andb orb negb] in *; unfold put_record; cbn; [|by rewrite Hx, V0|by rewrite Hx, V1|done].
  injection Hs as <-. destruct (Z.leb_spec (ota_seq r1) (ota_seq r0)); cbn; rewrite Hx, ?V0, ?V1; cbn; f_equal; lia.
Qed.

(** ** Writing the records *)

Section Records.
Context {F H : Type} `{NorFlash F} `{!Build F H}.
Variables (stack : Z) (junk : list Z) (table_ptr select_ptr : Z).
Hypothesis Hstack : 0 < stack.
Hypothesis Hjunk : zlen junk = SPI_READ_BUF_MAX.
Hypothesis Hselect : 0 < select_ptr.
Implicit Types (f : F) (l : list esp_partition_t) (es : list ota_ops_entry) (h : Z) (sel : ota_select * ota_select).
Abbreviation state f l es h sel := (mkOta (mkParts f l) es h sel).

Lemma on_parts_run {A} (m : M (parts F) A) f l es h sel a f' l' : m (mkParts f l) = Some (a, mkParts f' l') → on_parts m (state f l es h sel) = Some (a, state f' l' es h sel).
Proof. intros Hm. unfold on_parts. by erewrite zoom_run. Qed.
Lemma deref_run i p f l es h sel : l !! i = Some p → deref i (state f l es h sel) = Some (p, state f l es h sel).
Proof. intros Hl. apply on_parts_run. unfold item, bind, get. by apply lift_run. Qed.
Lemma find_first_listed t type subtype f l es h sel : Forall2 part_of t l → t ≠ [] → subtype ≠ 0xff →
  find_first junk table_ptr type subtype (state f l es h sel) = Some (fst <$> list_find (of_kind type subtype) l, state f l es h sel).
Proof. intros Hl Hne Hany. apply on_parts_run, find_first_run; [done|]. intros E. cbn in E. subst l. by inversion Hl; subst. Qed.

(** What [find_first] gives for an entry of the table. *)
Lemma find_entry_run t type subtype e (rest : list esp_partition_info_t) f l es h sel : Forall2 part_of t l → subtype ≠ 0xff → Boot.entries type subtype t = e :: rest →
  ∃ i p, find_first junk table_ptr type subtype (state f l es h sel) = Some (Some i, state f l es h sel) ∧ l !! i = Some p ∧ part_of e p.
Proof.
  intros Hl Hany He. pose proof (list_find_part t l type subtype Hl) as Hf. rewrite He in Hf. destruct Hf as (i & p & Ef & Hi & Hp). exists i, p.
  rewrite (find_first_listed t) by (done || by intros ->). by rewrite Ef.
Qed.
Lemma count_run t n d f l es h sel : Boot.ota_table t n d → Forall2 part_of t l → get_ota_partition_count junk table_ptr (state f l es h sel) = Some (n, state f l es h sel).
Proof.
  intros Ho Hl. pose proof (Boot.o_count _ _ _ Ho) as Hn. unfold Boot.MAX_OTA_SLOTS in Hn. assert (Hne : t ≠ []) by (intros ->; by pose proof (Boot.o_data _ _ _ Ho)).
  assert (Hloop : ∀ fuel k, 0 <= k <= n → n - k < Z.of_nat fuel → count_loop junk table_ptr fuel k (state f l es h sel) = Some (n, state f l es h sel)).
  2: { apply Hloop; lia. }
  assert (Hend : Boot.entries ESP_PARTITION_TYPE_APP (16 + n) t = []).
  { destruct (decide (n = 16)) as [->|]; [by apply (Boot.o_test _ _ _ Ho)|apply (Boot.no_entry t n d n Ho)]. unfold Boot.MAX_OTA_SLOTS. lia. }
  induction fuel as [|fuel IH]; intros k Hk Hfuel; [lia|]. cbn [count_loop]. unfold ESP_PARTITION_SUBTYPE_APP_OTA_MIN. destruct (decide (k = n)) as [->|Hkn].
  - erewrite bind_run by (apply (find_first_listed t); [done|done|lia]). pose proof (list_find_part t l ESP_PARTITION_TYPE_APP (16 + n) Hl) as Hf.
    rewrite Hend in Hf. by rewrite Hf.
  - destruct (Boot.slot_entry t n d k Ho ltac:(lia)) as [e He].
    destruct (find_entry_run t ESP_PARTITION_TYPE_APP (16 + k) e [] f l es h sel Hl ltac:(lia) He) as (i & p & Hr & _ & _).
    erewrite bind_run by done. destruct (Z.ltb_spec k 16); [|lia]. cbn [negb]. apply IH; lia.
Qed.

(** *** Reading and rewriting *)

Lemma read_records_run t md5 n d p f l es h sel : Boot.table_in f t md5 → Boot.ota_table t n d → p_address p = pos_offset d →
  read_records junk select_ptr p (state f l es h sel) = Some (ESP_OK, state f l es h (Boot.record_of f d 0, Boot.record_of f d 1)).
Proof.
  intros Ht Ho Ep. pose proof (Boot.data_on_chip f t md5 n d Ht Ho) as Hchip. pose proof (Boot.o_sectors _ _ _ Ho) as (Hpos & _ & Hsize).
  unfold Boot.SPI_SEC_SIZE, chip_size, CONFIG_SPI_FLASH_SIZE in *. unfold read_records. rewrite Ep.
  erewrite bind_run. 2: { apply on_parts_run, on_flash_run, spi_flash_read_run; unfold select_size, chip_size, CONFIG_SPI_FLASH_SIZE; (done || lia). }
  cbv beta iota. cbn [Z.eqb negb ESP_OK]. erewrite bind_run by apply lift_run, Boot.select_of_run. unfold bind at 1, get at 1. cbv beta iota.
  unfold set_select at 1. unfold modify at 1, bind at 1. cbn [parts_ s_ota_ops_entries s_ota_ops_last_handle flash s_partition_list].
  rewrite u32_id by (unfold in_u32; lia).
  erewrite bind_run. 2: { apply on_parts_run, on_flash_run, spi_flash_read_run; unfold select_size, chip_size, CONFIG_SPI_FLASH_SIZE; (done || lia). }
  cbv beta iota. cbn [Z.eqb negb ESP_OK]. erewrite bind_run by apply lift_run, Boot.select_of_run. unfold Boot.record_of, Boot.SPI_SEC_SIZE. cbn. by rewrite Z.add_0_r.
Qed.

(** The sector of a record, and what is in the flash after it is written. *)
Definition sector_of (d : esp_partition_pos_t) (i : Z) : Z := pos_offset d + Boot.SPI_SEC_SIZE * i.
Definition same_outside (a n : Z) (f f' : F) : Prop := ∀ x, x < a ∨ a + n <= x → byte_at f' x = byte_at f x.
Lemma record_written f' a r : placed byte_at f' a (select_bytes r) → in_u32 (ota_seq r) → in_u32 (crc r) → length (seq_label r) = 24%nat → Boot.record_in f' a = r.
Proof.
  intros Hp Hs Hc Hl. unfold select_bytes in Hp. apply placed_app in Hp as [P1 Hp]. apply placed_app in Hp as [P2 P3].
  unfold placed in *. unfold zlen in *. rewrite !le_bytes_length, Hl in *. change (Z.of_nat 4) with 4 in *. change (Z.of_nat 24) with 24 in *.
  rewrite <- Z.add_assoc in P3. change (4 + 24) with 28 in P3. unfold Boot.record_in, Boot.word_in. rewrite P1, P2, P3, !le_le_bytes.
  unfold in_u32 in *. change (8 * Z.of_nat 4) with 32. rewrite !Z.mod_small by done. by destruct r.
Qed.
Lemma rewrite_run t md5 n d p seq i r f l es h sel : Boot.table_in f t md5 → Boot.ota_table t n d → p_address p = pos_offset d → p_size p = pos_size d →
  i = 0 ∨ i = 1 → r = new_record (seq_label (record_at i sel)) seq → length (seq_label r) = 24%nat → Forall in_u8 (seq_label r) → in_u32 seq →
  ∃ f', rewrite_ota_seq stack junk select_ptr seq i p (state f l es h sel) = Some (ESP_OK, state f' l es h (put_record i r sel)) ∧
    same_outside (sector_of d i) Boot.SPI_SEC_SIZE f f' ∧ Boot.record_of f' d i = r.
Proof.
  intros Ht Ho Ea Es Hi Er Hlen Hu8 Hseq. pose proof (Boot.data_on_chip f t md5 n d Ht Ho) as Hchip. pose proof (Boot.o_sectors _ _ _ Ho) as (Hpos & Hmod & Hsize).
  assert (Hp : on_chip p) by (unfold on_chip; rewrite Ea, Es; unfold Boot.SPI_SEC_SIZE, SPI_FLASH_SEC_SIZE in *; lia).
  set (label := seq_label (record_at i sel)) in *. set (c := Util.crc_spec 32 0xEDB88320 UINT32_MAX (le_bytes 4 seq)) in *.
  assert (Hc : in_u32 c) by (apply Util.crc_spec_range; [lia|done|done|apply le_bytes_u8]).
  assert (Hbytes : zlen (select_bytes r) = 32) by (unfold select_bytes; rewrite !zlen_app; unfold zlen; rewrite !le_bytes_length, Hlen; lia).
  assert (Hb8 : Forall in_u8 (select_bytes r)) by (unfold select_bytes; rewrite !Forall_app; split_and!; (apply le_bytes_u8 || done)).
  unfold Boot.SPI_SEC_SIZE in *. unfold rewrite_ota_seq.
  assert (Hsec : (i =? 0) || (i =? 1) = true) by (destruct Hi as [-> | ->]; done). rewrite Hsec. unfold bind at 1, get at 1. cbn [s_ota_select].
  change (if i =? 0 then sel.1 else sel.2) with (record_at i sel). cbn [ota_seq seq_label crc].
  erewrite bind_run by (apply lift_run; exact (Boot.select_crc_run (mkSelect seq label (crc (record_at i sel))))). cbn [ota_seq]. fold c. fold label.
  change (mkSelect seq label c) with (new_record label seq). rewrite <- Er. unfold set_select at 1. unfold modify at 1, bind at 1. cbn [parts_ s_ota_ops_entries s_ota_ops_last_handle].
  destruct (partition_erase_run p (i * SPI_FLASH_SEC_SIZE) SPI_FLASH_SEC_SIZE (mkParts f l)) as (f1 & He & Hw);
    [done|unfold SPI_FLASH_SEC_SIZE in *; lia|done|unfold SPI_FLASH_SEC_SIZE in *; lia|by apply Z.mod_mul|done|].
  erewrite bind_run by (apply on_parts_run; exact He). cbn [Z.eqb negb ESP_OK].
  destruct (partition_write_run stack junk Hstack Hjunk p (SPI_FLASH_SEC_SIZE * i) (select_ptr + select_size * i) (select_bytes r) select_size (select_bytes r) (mkParts f1 l)) as (f2 & Hr & Hp2);
    [done|unfold SPI_FLASH_SEC_SIZE in *; lia|done|unfold SPI_FLASH_SEC_SIZE, select_size in *; lia|unfold select_size; lia|by apply slice_all|done|].
  exists f2. split; [by apply on_parts_run|]. rewrite Ea in Hp2, Hw. cbn [flash] in Hp2, Hw. unfold SPI_FLASH_SEC_SIZE in Hp2, Hw. unfold sector_of, Boot.SPI_SEC_SIZE. split.
  - intros x Hx. rewrite (programmed_outside _ _ _ _ _ x Hp2) by lia. rewrite Hw. destruct (Z.leb_spec (pos_offset d + i * 4096) x), (Z.ltb_spec x (pos_offset d + i * 4096 + 4096)); try lia; done.
  - unfold Boot.record_of, Boot.SPI_SEC_SIZE. apply record_written; [|by rewrite Er|by rewrite Er|done].
    apply (programmed_erased _ _ _ f1); [done| |done]. intros x Hx. rewrite Hw. destruct (Z.leb_spec (pos_offset d + i * 4096) x), (Z.ltb_spec x (pos_offset d + i * 4096 + 4096)); try lia; done.
Qed.

(** *** Choosing a slot *)

(** The numbers that are used are positive and far from the greatest. *)
Definition in_use (r : ota_select) : Prop := Boot.valid r = true → 0 < ota_seq r < 2 ^ 31.
Lemma newest_in_use r0 r1 seq : in_use r0 → in_use r1 → Boot.newest r0 r1 = Some seq → 0 < seq < 2 ^ 31.
Proof.
  unfold in_use, Boot.newest. intros H0' H1'. destruct (Boot.valid r0), (Boot.valid r1); cbn; [|by intros [= <-]; auto..|done].
  specialize (H0' eq_refl). specialize (H1' eq_refl). intros [= <-]. lia.
Qed.
Lemma label_of f d i r0 r1 : r0 = Boot.record_of f d 0 → r1 = Boot.record_of f d 1 →
  length (seq_label (record_at i (r0, r1))) = 24%nat ∧ Forall in_u8 (seq_label (record_at i (r0, r1))).
Proof.
  intros -> ->. unfold record_at. destruct (i =? 0); cbn; (split; [|apply bytes_u8]).
  all: match goal with |- context [bytes_of byte_at ?g ?a 24] => pose proof (bytes_of_length byte_at g a 24 ltac:(lia)) as Hl end; unfold zlen in Hl; lia.
Qed.

(** What a choice of slot [k] leaves in the flash: one record is new, and its
    number stands for the slot and is the newest. *)
Record chosen (f f' : F) (n k : Z) (d : esp_partition_pos_t) : Prop := {
  c_outside : same_outside (sector_of d (written_sector (Boot.record_of f d 0) (Boot.record_of f d 1))) Boot.SPI_SEC_SIZE f f';
  c_record : ∃ label next, Boot.record_of f' d (written_sector (Boot.record_of f d 0) (Boot.record_of f d 1)) = new_record label next ∧
    (next - 1) mod n = k ∧ 0 < next < 2 ^ 31 + 16 ∧ ∀ seq, Boot.newest (Boot.record_of f d 0) (Boot.record_of f d 1) = Some seq → seq <= next }.
Lemma written_sector_bit r0 r1 : written_sector r0 r1 = 0 ∨ written_sector r0 r1 = 1.
Proof. unfold written_sector. destruct (_ && _); auto. Qed.

Lemma rewrite_data_run t md5 n d k f l es h sel : Boot.table_in f t md5 → Boot.ota_table t n d → Forall2 part_of t l → 0 <= k < n →
  in_use (Boot.record_of f d 0) → in_use (Boot.record_of f d 1) →
  ∃ f' sel', esp_rewrite_ota_data stack junk table_ptr select_ptr (ESP_PARTITION_SUBTYPE_APP_OTA_MIN + k) (state f l es h sel) = Some (ESP_OK, state f' l es h sel') ∧ chosen f f' n k d.
Proof.
  intros Ht Ho Hl Hk U0 U1. pose proof (Boot.o_count _ _ _ Ho) as Hn. unfold Boot.MAX_OTA_SLOTS in Hn. pose proof (Boot.o_data _ _ _ Ho : i_pos <$> Boot.entries ESP_PARTITION_TYPE_DATA ESP_PARTITION_SUBTYPE_DATA_OTA t = [d]) as Hd.
  set (r0 := Boot.record_of f d 0) in *. set (r1 := Boot.record_of f d 1) in *.
  destruct (Boot.entries ESP_PARTITION_TYPE_DATA ESP_PARTITION_SUBTYPE_DATA_OTA t) as [|e rest] eqn:Ee; [done|]. injection Hd as Hd _.
  destruct (find_entry_run t ESP_PARTITION_TYPE_DATA ESP_PARTITION_SUBTYPE_DATA_OTA e rest f l es h sel Hl ltac:(done) Ee) as (j & p & Hr & Hj & (_ & _ & Ea & Es)). rewrite Hd in Ea, Es.
  assert (Hrun : ∃ next, esp_rewrite_ota_data stack junk table_ptr select_ptr (ESP_PARTITION_SUBTYPE_APP_OTA_MIN + k) (state f l es h sel) =
      rewrite_ota_seq stack junk select_ptr next (written_sector r0 r1) p (state f l es h (r0, r1)) ∧
    (next - 1) mod n = k ∧ 0 < next < 2 ^ 31 + 16 ∧ ∀ seq, Boot.newest r0 r1 = Some seq → seq <= next).
  { unfold esp_rewrite_ota_data. erewrite bind_run by done. cbv iota. erewrite bind_run by by apply (count_run t n d). erewrite bind_run by by apply deref_run.
    rewrite slot_id by lia. destruct (Z.leb_spec n k); [lia|]. erewrite bind_run by by apply (read_records_run t md5 n d). cbn [Z.eqb negb ESP_OK].
    unfold bind at 1, get at 1. cbn [s_ota_select]. fold r0 r1. erewrite bind_run by apply lift_run, Boot.select_valid_run. erewrite bind_run by apply lift_run, Boot.select_valid_run.
    pose proof (newest_in_use r0 r1) as Hu. unfold written_sector. unfold Boot.newest in *. destruct (Boot.valid r0) eqn:V0, (Boot.valid r1) eqn:V1; cbn [andb orb negb] in *.
    - specialize (Hu _ U0 U1 eq_refl). unfold OTA_MAX. replace (if ota_seq r1 <=? ota_seq r0 then ota_seq r0 else ota_seq r1) with (Z.max (ota_seq r0) (ota_seq r1)) by (destruct (Z.leb_spec (ota_seq r1) (ota_seq r0)); lia).
      destruct (next_seq_run _ k n Hn Hu Hk) as (next & En & Hb & Hm). exists next. erewrite bind_run by by apply lift_run.
      split; [by destruct (ota_seq r1 <=? ota_seq r0)|]. split; [done|]. split; [lia|]. intros seq E%(inj Some). lia.
    - specialize (Hu _ U0 U1 eq_refl). destruct (next_seq_run _ k n Hn Hu Hk) as (next & En & Hb & Hm). exists next. erewrite bind_run by by apply lift_run.
      split; [done|]. split; [done|]. split; [lia|]. intros seq E%(inj Some). lia.
    - specialize (Hu _ U0 U1 eq_refl). destruct (next_seq_run _ k n Hn Hu Hk) as (next & En & Hb & Hm). exists next. erewrite bind_run by by apply lift_run.
      split; [done|]. split; [done|]. split; [lia|]. intros seq E%(inj Some). lia.
    - exists (k + 1). split; [done|]. replace (k + 1 - 1) with k by lia. rewrite Z.mod_small by lia. split; [done|]. split; [lia|done]. }
  destruct Hrun as (next & Hrun & Hm & Hb & Hle). set (i := written_sector r0 r1) in *.
  destruct (label_of f d i r0 r1 eq_refl eq_refl) as [Hlen Hu8].
  destruct (rewrite_run t md5 n d p next i (new_record (seq_label (record_at i (r0, r1))) next) f l es h (r0, r1)) as (f' & Hw & Hout & Hrec);
    [done|done|done|done|apply written_sector_bit|done|done|done|unfold in_u32; lia|].
  exists f'. eexists. split; [by rewrite Hrun|]. split; [exact Hout|]. by exists (seq_label (record_at i (r0, r1))), next.
Qed.
End Records.

(** ** The choice of the application and that of the boot loader *)

Section Choices.
Context {F H : Type} `{BuildOk F H}.
Variables (stack : Z) (junk : list Z) (table_ptr select_ptr : Z) (image_ptr header_ptr buf_ptr hash_ptr : Z) (buf_content hash_content : list Z).
Hypothesis Hstack : 0 < stack.
Hypothesis Hjunk : zlen junk = SPI_READ_BUF_MAX.
Hypothesis Htable : table_ptr ≠ 0.
Hypothesis Hselect : 0 < select_ptr.
Implicit Types (f : F) (l : list esp_partition_t) (es : list ota_ops_entry) (h : Z) (sel : ota_select * ota_select).
Abbreviation state f l es h sel := (mkOta (mkParts f l) es h sel).

(** A sector of the OTA data lies beside the table and the other sector. *)
Lemma records_put f f' t md5 n d i : Boot.table_in f t md5 → Boot.ota_table t n d → same_outside (sector_of d i) Boot.SPI_SEC_SIZE f f' → i = 0 ∨ i = 1 →
  Boot.table_in f' t md5 ∧ (Boot.record_of f' d 0, Boot.record_of f' d 1) = put_record i (Boot.record_of f' d i) (Boot.record_of f d 0, Boot.record_of f d 1).
Proof.
  intros Ht Ho Hout Hi. pose proof (Boot.o_sectors _ _ _ Ho) as (_ & _ & Hsize). pose proof (Boot.o_beside _ _ _ Ho) as Hb.
  unfold same_outside, sector_of, Boot.SPI_SEC_SIZE in *. split.
  - apply (Boot.table_in_ext f); [|done]. intros x Hx. apply Hout. unfold Boot.ESP_PARTITION_TABLE_MAX_LEN in Hx. lia.
  - assert (Hother : ∀ j, j = 0 ∨ j = 1 → j ≠ i → Boot.record_of f' d j = Boot.record_of f d j).
    { intros j Hj Hne. unfold Boot.record_of. apply Boot.record_in_ext. intros x Hx. apply Hout. unfold select_size, Boot.SPI_SEC_SIZE in *. lia. }
    destruct Hi as [-> | ->]; unfold put_record; cbn; [by rewrite (Hother 1) by lia|by rewrite (Hother 0) by lia].
Qed.
Lemma chosen_newest f f' t md5 n k d : Boot.table_in f t md5 → Boot.ota_table t n d → chosen f f' n k d →
  Boot.table_in f' t md5 ∧ ∃ next, Boot.newest (Boot.record_of f' d 0) (Boot.record_of f' d 1) = Some next ∧ 0 < next < 2 ^ 31 + 16 ∧ (next - 1) mod n = k.
Proof.
  intros Ht Ho [Hout (label & next & Er & Hm & Hb & Hle)]. pose proof (written_sector_bit (Boot.record_of f d 0) (Boot.record_of f d 1)) as Hi.
  destruct (records_put f f' t md5 n d _ Ht Ho Hout Hi) as [Ht' Ep]. split; [done|]. exists next. split; [|done].
  rewrite Er in Ep. pose proof (newest_written _ _ label next ltac:(unfold UINT32_MAX; lia) Hle) as Hn. by rewrite <- Ep in Hn.
Qed.
Lemma chosen_choice f f' t md5 n k d factory : Boot.table_in f t md5 → Boot.ota_table t n d → chosen f f' n k d →
  Boot.choice factory n (Boot.record_of f' d 0) (Boot.record_of f' d 1) = k.
Proof.
  intros Ht Ho Hc. destruct (chosen_newest f f' t md5 n k d Ht Ho Hc) as (_ & next & En & Hb & Hm). unfold Boot.choice. rewrite En.
  by rewrite u32_id by (unfold in_u32; lia).
Qed.

(** The first search reads the table. *)
Lemma first_search t md5 n d f l es h sel : Boot.table_in f t md5 → Boot.ota_table t n d → knows t l →
  ∃ l' i p, find_first junk table_ptr ESP_PARTITION_TYPE_DATA ESP_PARTITION_SUBTYPE_DATA_OTA (state f l es h sel) = Some (Some i, state f l' es h sel) ∧
    Forall2 part_of t l' ∧ l' !! i = Some p ∧ p_address p = pos_offset d ∧ p_size p = pos_size d.
Proof.
  intros Ht Ho Hk. pose proof (Boot.o_data _ _ _ Ho : i_pos <$> Boot.entries ESP_PARTITION_TYPE_DATA ESP_PARTITION_SUBTYPE_DATA_OTA t = [d]) as Hd.
  assert (Hne : t ≠ []) by by intros ->.
  destruct (find_first_loads junk table_ptr Hjunk Htable t md5 ESP_PARTITION_TYPE_DATA ESP_PARTITION_SUBTYPE_DATA_OTA (state f l es h sel) Ht Hne Hk ltac:(done)) as (l' & Hl & _ & Hr).
  pose proof (list_find_part t l' ESP_PARTITION_TYPE_DATA ESP_PARTITION_SUBTYPE_DATA_OTA Hl) as Hf.
  destruct (Boot.entries _ _ t) as [|e rest] eqn:Ee; [done|]. injection Hd as Hd _. destruct Hf as (i & p & Ef & Hi & (_ & _ & Ea & Es)).
  rewrite Ef in Hr. exists l', i, p. rewrite Ea, Es, Hd. done.
Qed.

(** ** [esp_ota_set_boot_partition] *)

Lemma set_boot_run img t md5 n d k e p f l es h sel : word_ptr image_ptr ∧ word_ptr header_ptr ∧ word_ptr buf_ptr ∧ word_ptr hash_ptr → zlen buf_content = 16 → zlen hash_content = HASH_LEN →
  Boot.table_in f t md5 → Boot.ota_table t n d → knows t l → 0 <= k < n → in_use (Boot.record_of f d 0) → in_use (Boot.record_of f d 1) →
  Boot.entries ESP_PARTITION_TYPE_APP (ESP_PARTITION_SUBTYPE_APP_OTA_MIN + k) t = [e] → part_of e p →
  image_ok img → placed byte_at f (p_address p) (image_bytes img) → 0 < p_address p → p_address p mod 4 = 0 → zlen (image_bytes img) <= p_size p → p_address p + p_size p <= chip_size →
  ∃ f' l' sel', esp_ota_set_boot_partition stack junk table_ptr select_ptr image_ptr header_ptr buf_ptr hash_ptr buf_content hash_content (Some p) (state f l es h sel) =
    Some (ESP_OK, state f' l' es h sel') ∧ Forall2 part_of t l' ∧ chosen f f' n k d.
Proof.
  intros Hptrs Hbuf Hhash Ht Ho Hk Hkn U0 U1 He (Et & Es & _) Hok Hp Hpos Hmod Hfit Hend. unfold esp_ota_set_boot_partition.
  erewrite bind_run. 2: { unfold load_image. eapply on_parts_run, on_flash_run. by apply image_load_run. }
  cbv beta iota. cbn [Z.eqb negb ESP_OK flash s_partition_list].
  assert (Hkind : Boot.kind ESP_PARTITION_TYPE_APP (ESP_PARTITION_SUBTYPE_APP_OTA_MIN + k) e).
  { assert (Hin : e ∈ Boot.entries ESP_PARTITION_TYPE_APP (ESP_PARTITION_SUBTYPE_APP_OTA_MIN + k) t) by (rewrite He; left). by apply list_elem_of_filter in Hin as [? _]. }
  destruct Hkind as [E1 E2]. rewrite Et, E1. cbn [Z.eqb]. change (ESP_PARTITION_TYPE_APP =? ESP_PARTITION_TYPE_APP) with true. cbv iota.
  destruct (first_search t md5 n d f l es h sel Ht Ho Hk) as (l' & i & q & Hr & Hl' & _). erewrite bind_run by done. cbv iota.
  rewrite Es, E2. unfold ESP_PARTITION_SUBTYPE_APP_FACTORY. destruct (Z.eqb_spec (ESP_PARTITION_SUBTYPE_APP_OTA_MIN + k) 0); [unfold ESP_PARTITION_SUBTYPE_APP_OTA_MIN in *; lia|].
  destruct (rewrite_data_run stack junk table_ptr select_ptr Hstack Hjunk Hselect t md5 n d k f l' es h sel Ht Ho Hl' Hkn U0 U1) as (f' & sel' & Hw & Hc).
  by exists f', l', sel'.
Qed.

(** ** [esp_ota_get_boot_partition] *)

(** The partition behind an index of the boot loader. *)
Definition stands_for (t : list esp_partition_info_t) (c : Z) (e : esp_partition_info_t) : Prop :=
  if c =? Boot.FACTORY_INDEX then
    match Boot.entries ESP_PARTITION_TYPE_APP ESP_PARTITION_SUBTYPE_APP_FACTORY t with
    | [] => Boot.entries ESP_PARTITION_TYPE_APP ESP_PARTITION_SUBTYPE_APP_OTA_MIN t = [e]
    | e' :: _ => e = e'
    end
  else Boot.entries ESP_PARTITION_TYPE_APP (ESP_PARTITION_SUBTYPE_APP_OTA_MIN + c) t = [e].
Definition finds t c (r : option (option nat * ota F)) f l es h sel : Prop :=
  ∃ i q e, r = Some (Some i, state f l es h sel) ∧ l !! i = Some q ∧ part_of e q ∧ stands_for t c e.

Lemma find_slot_run t n d seq f l es h sel : Boot.ota_table t n d → Forall2 part_of t l →
  finds t (u32 (seq - 1) mod n) (find_slot junk table_ptr seq n (state f l es h sel)) f l es h sel.
Proof.
  intros Ho Hl. pose proof (Boot.o_count _ _ _ Ho) as Hn. unfold Boot.MAX_OTA_SLOTS in Hn. pose proof (Z.mod_pos_bound (u32 (seq - 1)) n ltac:(lia)) as Hb.
  unfold find_slot. destruct (Z.eqb_spec n 0); [lia|]. destruct (Boot.slot_entry t n d _ Ho Hb) as [e He].
  destruct (find_entry_run junk table_ptr t ESP_PARTITION_TYPE_APP (ESP_PARTITION_SUBTYPE_APP_OTA_MIN + u32 (seq - 1) mod n) e [] f l es h sel Hl) as (i & q & Hr & Hi & Hq);
    [unfold ESP_PARTITION_SUBTYPE_APP_OTA_MIN; lia|done|].
  exists i, q, e. split; [done|]. split; [done|]. split; [done|]. unfold stands_for, Boot.FACTORY_INDEX. destruct (Z.eqb_spec (u32 (seq - 1) mod n) (-1)); [lia|done].
Qed.
Lemma default_run t n d f l es h sel c : Boot.ota_table t n d → Forall2 part_of t l →
  c = Boot.FACTORY_INDEX ∨ (c = 0 ∧ Boot.entries ESP_PARTITION_TYPE_APP ESP_PARTITION_SUBTYPE_APP_FACTORY t = []) →
  finds t c (find_default_boot_partition junk table_ptr (state f l es h sel)) f l es h sel.
Proof.
  intros Ho Hl Hc. pose proof (Boot.o_count _ _ _ Ho) as Hn. unfold find_default_boot_partition.
  assert (Hne : t ≠ []) by (intros ->; by pose proof (Boot.o_data _ _ _ Ho)).
  destruct (Boot.entries ESP_PARTITION_TYPE_APP ESP_PARTITION_SUBTYPE_APP_FACTORY t) as [|e rest] eqn:Ef.
  - erewrite bind_run by (apply (find_first_listed junk table_ptr t); done). pose proof (list_find_part t l ESP_PARTITION_TYPE_APP ESP_PARTITION_SUBTYPE_APP_FACTORY Hl) as Hf.
    rewrite Ef in Hf. rewrite Hf. cbn [fmap option_fmap option_map first_ota].
    destruct (Boot.slot_entry t n d 0 Ho ltac:(lia)) as [e He]. change (PART_SUBTYPE_OTA_FLAG + 0) with ESP_PARTITION_SUBTYPE_APP_OTA_MIN in He.
    destruct (find_entry_run junk table_ptr t ESP_PARTITION_TYPE_APP ESP_PARTITION_SUBTYPE_APP_OTA_MIN e [] f l es h sel Hl ltac:(done) He) as (i & q & Hr & Hi & Hq).
    exists i, q, e. split; [|split; [done|]; split; [done|]; unfold stands_for; destruct Hc as [-> | [-> _]]; [cbn; by rewrite Ef|done]].
    erewrite bind_run. 2: { erewrite bind_run by done. done. } done.
  - destruct (find_entry_run junk table_ptr t ESP_PARTITION_TYPE_APP ESP_PARTITION_SUBTYPE_APP_FACTORY e rest f l es h sel Hl ltac:(done) Ef) as (i & q & Hr & Hi & Hq).
    erewrite bind_run by done. exists i, q, e. split; [done|]. split; [done|]. split; [done|]. destruct Hc as [-> | [_ ?]]; [|done]. unfold stands_for. cbn. by rewrite Ef.
Qed.
Lemma get_boot_run t md5 n d f l es h sel : Boot.table_in f t md5 → Boot.ota_table t n d → knows t l →
  ∃ l' sel', Forall2 part_of t l' ∧
    finds t (Boot.choice (Boot.place PART_TYPE_APP PART_SUBTYPE_FACTORY t) n (Boot.record_of f d 0) (Boot.record_of f d 1))
      (esp_ota_get_boot_partition junk table_ptr select_ptr (state f l es h sel)) f l' es h sel'.
Proof.
  intros Ht Ho Hk. unfold esp_ota_get_boot_partition. destruct (first_search t md5 n d f l es h sel Ht Ho Hk) as (l' & j & p & Hr & Hl & Hj & Ea & _).
  exists l', (Boot.record_of f d 0, Boot.record_of f d 1). split; [done|]. set (r0 := Boot.record_of f d 0). set (r1 := Boot.record_of f d 1).
  erewrite bind_run by done. cbv iota. erewrite bind_run by by apply deref_run. erewrite bind_run by by apply (read_records_run junk select_ptr Hjunk Hselect t md5 n d).
  cbn [Z.eqb negb ESP_OK]. erewrite bind_run by by apply (count_run junk table_ptr t n d). unfold bind at 1, get at 1. cbn [s_ota_select]. fold r0 r1.
  change (ota_seq r0 =? 0xFFFFFFFF) with (Boot.erased_record r0). change (ota_seq r1 =? 0xFFFFFFFF) with (Boot.erased_record r1).
  pose proof (Boot.o_factory _ _ _ Ho) as [_ Hfac]. unfold Boot.choice, Boot.newest. set (fp := Boot.place _ _ t).
  assert (Hfp : (pos_offset fp =? 0) = true → Boot.entries ESP_PARTITION_TYPE_APP ESP_PARTITION_SUBTYPE_APP_FACTORY t = []).
  { change ESP_PARTITION_TYPE_APP with PART_TYPE_APP. change ESP_PARTITION_SUBTYPE_APP_FACTORY with PART_SUBTYPE_FACTORY. unfold fp, Boot.place. intros E%Z.eqb_eq.
    destruct (last (Boot.entries PART_TYPE_APP PART_SUBTYPE_FACTORY t)) as [e|] eqn:El; [|by apply last_None in El]. cbn in E.
    apply last_Some_elem_of in El. rewrite Forall_forall in Hfac. specialize (Hfac e El). lia. }
  destruct (Boot.erased_record r0 && Boot.erased_record r1) eqn:Er.
  - apply andb_prop in Er as [E0 E1]. rewrite (Boot.erased_invalid r0 E0), (Boot.erased_invalid r1 E1). cbn [andb].
    apply (default_run t n d); [done|done|]. destruct (pos_offset fp =? 0); [right; by rewrite Hfp|by left].
  - erewrite bind_run by apply lift_run, Boot.select_valid_run. erewrite bind_run by apply lift_run, Boot.select_valid_run.
    destruct (Boot.valid r0), (Boot.valid r1); cbn [andb]; [|by apply find_slot_run with (d := d)..|apply (default_run t n d); [done|done|by left]].
    unfold OTA_MAX. replace (if ota_seq r1 <=? ota_seq r0 then ota_seq r0 else ota_seq r1) with (Z.max (ota_seq r0) (ota_seq r1)) by (destruct (Z.leb_spec (ota_seq r1) (ota_seq r0)); lia).
    by apply find_slot_run with (d := d).
Qed.
End Choices.

(** C6: The slot that is chosen is the one that starts: if there is an image of
    the format in an OTA slot, [esp_ota_set_boot_partition] succeeds, whatever
    the two records of the OTA data were, erased, torn or valid ([in_use]: a
    valid one has a number from 1 to below 2^31, as many choices); then the application names that slot
    as the one to boot, and the boot loader, which reads the table and the
    records anew from the flash, loads that image. *)
Theorem chosen_slot_boots {F Ha Hb : Type} `{NorFlash F} `{!Build F Ha} `{!Build F Hb} `{!BuildOk F Ha} `{!BuildOk F Hb} `{!Boot.BootCache F} `{!Boot.BootCacheOk F}
  (stack : Z) (junk : list Z) (table_ptr select_ptr image_ptr header_ptr buf_ptr hash_ptr : Z) (buf_content hash_content : list Z)
  (t md5 : list esp_partition_info_t) (n k : Z) (d : esp_partition_pos_t) (e : esp_partition_info_t) (p : esp_partition_t) (img : app_image)
  (f : F) (l : list esp_partition_t) (es : list ota_ops_entry) (h : Z) (sel : ota_select * ota_select)
  (Hstack : 0 < stack) (Hjunk : zlen junk = SPI_READ_BUF_MAX) (Htable : table_ptr ≠ 0) (Hselect : 0 < select_ptr)
  (Hptrs : word_ptr image_ptr ∧ word_ptr header_ptr ∧ word_ptr buf_ptr ∧ word_ptr hash_ptr) (Hbuf : zlen buf_content = 16) (Hhash : zlen hash_content = HASH_LEN)
  (Ht : Boot.table_in f t md5) (Ho : Boot.ota_table t n d) (Hl : knows t l) (Hk : 0 <= k < n)
  (Hused : in_use (Boot.record_of f d 0) ∧ in_use (Boot.record_of f d 1))
  (He : Boot.entries ESP_PARTITION_TYPE_APP (ESP_PARTITION_SUBTYPE_APP_OTA_MIN + k) t = [e]) (Hp : part_of e p)
  (Himg : image_ok img) (Hplaced : placed byte_at f (p_address p) (image_bytes img)) (Hpos : 0 < p_address p) (Hword : p_address p mod 4 = 0)
  (Hfit : zlen (image_bytes img) <= p_size p) (Hend : p_address p + p_size p <= chip_size)
  (Hbeside : p_address p + p_size p <= pos_offset d ∨ pos_offset d + pos_size d <= p_address p) :
  ∃ s', esp_ota_set_boot_partition (H := Ha) stack junk table_ptr select_ptr image_ptr header_ptr buf_ptr hash_ptr buf_content hash_content (Some p) (mkOta (mkParts f l) es h sel) = Some (ESP_OK, s') ∧
    (∃ i q s'', esp_ota_get_boot_partition junk table_ptr select_ptr s' = Some (Some i, s'') ∧ s_partition_list (parts_ s'') !! i = Some q ∧ part_of e q) ∧
    let f' := flash (parts_ s') in
    Boot.select_image (H := Hb) image_ptr header_ptr buf_ptr hash_ptr buf_content hash_content (Boot.mkBoot f' false) = Some (Some (meta_of (p_address p) img), Boot.mkBoot f' false).
Proof.
  destruct Hused as [U0 U1]. pose proof Hp as (_ & _ & Ea & Es).
  destruct (set_boot_run (H := Ha) stack junk table_ptr select_ptr image_ptr header_ptr buf_ptr hash_ptr buf_content hash_content Hstack Hjunk Htable Hselect img t md5 n d k e p f l es h sel)
    as (f' & l' & sel' & Hr & Hl' & Hc); [assumption..|].
  eexists. split; [done|]. cbn [parts_ flash]. destruct (chosen_newest f f' t md5 n k d Ht Ho Hc) as (Ht' & _).
  pose proof (chosen_choice f f' t md5 n k d (Boot.place PART_TYPE_APP PART_SUBTYPE_FACTORY t) Ht Ho Hc) as Hch. split.
  - destruct (get_boot_run junk table_ptr select_ptr Hjunk Htable Hselect t md5 n d f' l' es h sel' Ht' Ho (or_intror Hl')) as (l2 & sel2 & _ & i & q & e' & Hg & Hi & Hq & Hs).
    rewrite Hch in Hs. exists i, q. eexists. split; [done|]. split; [done|]. unfold stands_for, Boot.FACTORY_INDEX in Hs. destruct (Z.eqb_spec k (-1)); [lia|].
    rewrite He in Hs. injection Hs as ->. done.
  - assert (Eplace : Boot.place PART_TYPE_APP (PART_SUBTYPE_OTA_FLAG + k) t = i_pos e) by by apply Boot.place_unique.
    rewrite Ea in *. rewrite Es in *. rewrite <- Eplace in *. apply Boot.select_image_run with (t := t) (md5 := md5) (n := n) (d := d) (k := k); try done.
    unfold placed. rewrite <- Hplaced at 2. apply bytes_of_ext. intros x Hx. apply (c_outside _ _ _ _ _ Hc).
    pose proof (Boot.o_sectors _ _ _ Ho) as (_ & _ & Hsize). pose proof (written_sector_bit (Boot.record_of f d 0) (Boot.record_of f d 1)). unfold sector_of, Boot.SPI_SEC_SIZE in *. lia.
Qed.

(** ** A loss of power

    The record counts by its number and its checksum; the label between them
    does not matter. *)
Definition same_number (r r' : ota_select) : Prop := ota_seq r = ota_seq r' ∧ crc r = crc r'.
(** A record that is being programmed into erased cells, the number before the
    checksum: programming only clears bits, so the number has those of the new
    one at least, and the cells of the checksum are erased until it is done. *)
Definition torn (new r : ota_select) : Prop :=
  ota_seq r = ota_seq new ∨ Z.land (ota_seq r) (ota_seq new) = ota_seq new ∧ crc r = UINT32_MAX.
Lemma same_number_valid r r' : same_number r r' → Boot.valid r = Boot.valid r'.
Proof. intros [E1 E2]. unfold Boot.valid. by rewrite E1, E2. Qed.
Lemma choice_same factory n r0 r1 r0' r1' : same_number r0 r0' → same_number r1 r1' →
  Boot.choice factory n r0 r1 = Boot.choice factory n r0' r1'.
Proof.
  intros H0 H1. unfold Boot.choice, Boot.newest, Boot.erased_record. rewrite (same_number_valid _ _ H0), (same_number_valid _ _ H1).
  destruct H0 as [-> _], H1 as [-> _]. done.
Qed.
Lemma put_same factory n i x y r0 r1 : i = 0 ∨ i = 1 → same_number x y →
  Boot.choice factory n (put_record i x (r0, r1)).1 (put_record i x (r0, r1)).2 = Boot.choice factory n (put_record i y (r0, r1)).1 (put_record i y (r0, r1)).2.
Proof. intros [-> | ->] Hxy; apply choice_same; by try exact Hxy. Qed.
Lemma torn_outcome label next r : 0 < next → torn (new_record label next) r → in_u32 (ota_seq r) →
  Boot.valid r = false ∨ same_number r (new_record label next).
Proof.
  intros Hn Ht Hr. destruct (Boot.valid r) eqn:V; [right|by left]. unfold Boot.valid in V. apply andb_prop in V as [_ Ec]. apply Z.eqb_eq in Ec.
  destruct Ht as [Es|[Hbits Ee]].
  - split; [exact Es|]. rewrite Ec, Es. unfold new_record. cbn [ota_seq crc]. reflexivity.
  - unfold new_record in Hbits. cbn [ota_seq crc] in Hbits. rewrite Ee in Ec. symmetry in Ec. apply Boot.erased_checksum in Ec; [|done]. rewrite Ec in Hbits. rewrite Z.land_0_l in Hbits. lia.
Qed.

Section Loss.
Context {F : Type} `{NorFlash F}.
Implicit Types f : F.
(** An OTA slot of the table that holds an image of the format, whole, on the
    chip and beside the OTA data. *)
Record bootable (f : F) (t : list esp_partition_info_t) (d : esp_partition_pos_t) (k : Z) (e : esp_partition_info_t) (img : app_image) : Prop := {
  b_entry : Boot.entries ESP_PARTITION_TYPE_APP (ESP_PARTITION_SUBTYPE_APP_OTA_MIN + k) t = [e];
  b_image : image_ok img;
  b_placed : placed byte_at f (pos_offset (i_pos e)) (image_bytes img);
  b_place : 0 < pos_offset (i_pos e) ∧ pos_offset (i_pos e) mod 4 = 0 ∧ pos_offset (i_pos e) + pos_size (i_pos e) <= chip_size;
  b_fit : zlen (image_bytes img) <= pos_size (i_pos e);
  b_beside : pos_offset (i_pos e) + pos_size (i_pos e) <= pos_offset d ∨ pos_offset d + pos_size d <= pos_offset (i_pos e) }.
Abbreviation index f t n d := (Boot.choice (Boot.place PART_TYPE_APP PART_SUBTYPE_FACTORY t) n (Boot.record_of f d 0) (Boot.record_of f d 1)).

(** The image of the slot that is chosen starts, also when a sector of the OTA
    data is another. *)
Lemma bootable_starts `{!Build F Hb} `{!BuildOk F Hb} `{!Boot.BootCache F} `{!Boot.BootCacheOk F} (image_ptr header_ptr buf_ptr hash_ptr : Z) (buf_content hash_content : list Z) f f' t md5 n d i k e img :
  word_ptr image_ptr ∧ word_ptr header_ptr ∧ word_ptr buf_ptr ∧ word_ptr hash_ptr → zlen buf_content = 16 → zlen hash_content = HASH_LEN →
  Boot.table_in f' t md5 → Boot.ota_table t n d → same_outside (sector_of d i) Boot.SPI_SEC_SIZE f f' → i = 0 ∨ i = 1 → 0 <= k < n → index f' t n d = k → bootable f t d k e img →
  Boot.select_image (H := Hb) image_ptr header_ptr buf_ptr hash_ptr buf_content hash_content (Boot.mkBoot f' false) =
    Some (Some (meta_of (pos_offset (i_pos e)) img), Boot.mkBoot f' false).
Proof.
  intros Hptrs Hbuf Hhash Ht Ho Hout Hi Hk Hch [He Himg Hpl (Hpos & Hword & Hend) Hfit Hbes].
  assert (Eplace : Boot.place PART_TYPE_APP (PART_SUBTYPE_OTA_FLAG + k) t = i_pos e) by by apply Boot.place_unique.
  rewrite <- Eplace in *. apply Boot.select_image_run with (t := t) (md5 := md5) (n := n) (d := d) (k := k); try done.
  unfold placed. rewrite <- Hpl at 2. apply bytes_of_ext. intros x Hx. apply Hout.
  pose proof (Boot.o_sectors _ _ _ Ho) as (_ & _ & Hsize). unfold sector_of, Boot.SPI_SEC_SIZE in *. destruct Hi as [-> | ->]; lia.
Qed.

(** What the boot loader chooses with any record in the sector that changes. *)
Lemma index_left f f' f'' t md5 n k seq d : let i := written_sector (Boot.record_of f d 0) (Boot.record_of f d 1) in
  Boot.table_in f t md5 → Boot.ota_table t n d → chosen f f' n k d → Boot.newest (Boot.record_of f d 0) (Boot.record_of f d 1) = Some seq →
  same_outside (sector_of d i) Boot.SPI_SEC_SIZE f f'' →
  (Boot.valid (Boot.record_of f'' d i) = false ∨ same_number (Boot.record_of f'' d i) (Boot.record_of f d i) → index f'' t n d = u32 (seq - 1) mod n) ∧
  (same_number (Boot.record_of f'' d i) (Boot.record_of f' d i) → index f'' t n d = k).
Proof.
  intros i Ht Ho Hc Hseq Hout. set (r0 := Boot.record_of f d 0) in *. set (r1 := Boot.record_of f d 1) in *.
  pose proof (written_sector_bit r0 r1 : i = 0 ∨ i = 1) as Hi. destruct (records_put f f'' t md5 n d i Ht Ho Hout Hi) as [_ Ep]. fold r0 r1 in Ep.
  pose proof (f_equal fst Ep) as Ep0. pose proof (f_equal snd Ep) as Ep1. cbn [fst snd] in Ep0, Ep1. rewrite Ep0, Ep1. split.
  - intros [Hx|Hx].
    + pose proof (newest_torn r0 r1 (Boot.record_of f'' d i) seq Hseq Hx) as En. fold i in En. unfold Boot.choice. by rewrite En.
    + rewrite (put_same _ _ _ _ _ _ _ Hi Hx). assert (Es : put_record i (Boot.record_of f d i) (r0, r1) = (r0, r1)) by (destruct Hi as [-> | ->]; done).
      rewrite Es. unfold Boot.choice. cbn [fst snd]. by rewrite Hseq.
  - intros Hx. rewrite (put_same _ _ _ _ _ _ _ Hi Hx). destruct (records_put f f' t md5 n d i Ht Ho (c_outside _ _ _ _ _ Hc) Hi) as [_ Ep']. fold r0 r1 in Ep'.
    rewrite <- Ep'. cbn [fst snd]. by apply (chosen_choice f f' t md5 n k d).
Qed.
Lemma torn_left f f' n k d (f'' : F) : let i := written_sector (Boot.record_of f d 0) (Boot.record_of f d 1) in
  chosen f f' n k d → torn (Boot.record_of f' d i) (Boot.record_of f'' d i) →
  Boot.valid (Boot.record_of f'' d i) = false ∨ same_number (Boot.record_of f'' d i) (Boot.record_of f' d i).
Proof.
  intros i Hc Ht. destruct (c_record _ _ _ _ _ Hc) as (label & next & Er & _ & Hb & _). fold i in Er. rewrite Er in *.
  apply torn_outcome; [lia|done|]. apply (Boot.word_in_range f'' _ 4). lia.
Qed.
End Loss.

(** C7: A loss of power does not lose the choice. While a slot is chosen over
    another, one sector of the flash changes, that of the older record. Whatever
    the sector is left with, the boot loader starts the image of the old slot
    as long as the record in it is not valid or has the number and the checksum
    it had, and that of the new slot as soon as it has those of the new record.
    So it starts one of the two whenever the programming of the record is cut
    short, of which only this is asked, that a number with bits yet to be
    cleared has an erased checksum beside it. (What a cut erasure leaves is any
    record at all: a valid one with a third number, 32 bits of checksum by
    chance, is the one case that is left open.) *)
Theorem choice_survives_power_loss {F Ha Hb : Type} `{NorFlash F} `{!Build F Ha} `{!Build F Hb} `{!BuildOk F Ha} `{!BuildOk F Hb} `{!Boot.BootCache F} `{!Boot.BootCacheOk F}
  (stack : Z) (junk : list Z) (table_ptr select_ptr image_ptr header_ptr buf_ptr hash_ptr : Z) (buf_content hash_content : list Z)
  (t md5 : list esp_partition_info_t) (n k seq : Z) (d : esp_partition_pos_t) (e e0 : esp_partition_info_t) (p : esp_partition_t) (img img0 : app_image)
  (f : F) (l : list esp_partition_t) (es : list ota_ops_entry) (h : Z) (sel : ota_select * ota_select)
  (Hstack : 0 < stack) (Hjunk : zlen junk = SPI_READ_BUF_MAX) (Htable : table_ptr ≠ 0) (Hselect : 0 < select_ptr)
  (Hptrs : word_ptr image_ptr ∧ word_ptr header_ptr ∧ word_ptr buf_ptr ∧ word_ptr hash_ptr) (Hbuf : zlen buf_content = 16) (Hhash : zlen hash_content = HASH_LEN)
  (Ht : Boot.table_in f t md5) (Ho : Boot.ota_table t n d) (Hl : knows t l) (Hk : 0 <= k < n)
  (Hused : in_use (Boot.record_of f d 0) ∧ in_use (Boot.record_of f d 1)) (Hseq : Boot.newest (Boot.record_of f d 0) (Boot.record_of f d 1) = Some seq)
  (Hp : part_of e p) (Hnew : bootable f t d k e img) (Hold : bootable f t d (u32 (seq - 1) mod n) e0 img0) :
  ∃ s' a, esp_ota_set_boot_partition (H := Ha) stack junk table_ptr select_ptr image_ptr header_ptr buf_ptr hash_ptr buf_content hash_content (Some p) (mkOta (mkParts f l) es h sel) = Some (ESP_OK, s') ∧
    let f' := flash (parts_ s') in
    same_outside a SPI_FLASH_SEC_SIZE f f' ∧
    ∀ f'', same_outside a SPI_FLASH_SEC_SIZE f f'' →
      let starts off i := Boot.select_image (H := Hb) image_ptr header_ptr buf_ptr hash_ptr buf_content hash_content (Boot.mkBoot f'' false) = Some (Some (meta_of off i), Boot.mkBoot f'' false) in
      let old := starts (pos_offset (i_pos e0)) img0 in let new := starts (pos_offset (i_pos e)) img in
      let r := Boot.record_in f'' a in
      (Boot.valid r = false ∨ same_number r (Boot.record_in f a) → old) ∧
      (same_number r (Boot.record_in f' a) → new) ∧
      (torn (Boot.record_in f' a) r → old ∨ new).
Proof.
  destruct Hused as [U0 U1]. pose proof Hp as (_ & _ & Ea & Es). pose proof Hnew as [He Himg Hpl (Hpos & Hword & Hend) Hfit _]. rewrite <- Ea, <- Es in *.
  destruct (set_boot_run (H := Ha) stack junk table_ptr select_ptr image_ptr header_ptr buf_ptr hash_ptr buf_content hash_content Hstack Hjunk Htable Hselect img t md5 n d k e p f l es h sel)
    as (f' & l' & sel' & Hr & Hl' & Hc); [assumption..|].
  set (i := written_sector (Boot.record_of f d 0) (Boot.record_of f d 1)). pose proof (written_sector_bit _ _ : i = 0 ∨ i = 1) as Hi.
  eexists _, (sector_of d i). split; [done|]. cbn [parts_ flash]. split; [apply (c_outside _ _ _ _ _ Hc)|]. intros f'' Hout.
  destruct (records_put f f'' t md5 n d i Ht Ho Hout Hi) as [Ht'' _]. destruct (index_left f f' f'' t md5 n k seq d Ht Ho Hc Hseq Hout) as [Hstay Hgo].
  pose proof (Boot.o_count _ _ _ Ho) as Hcount. pose proof (Z.mod_pos_bound (u32 (seq - 1)) n ltac:(lia)) as Hb0.
  pose proof (torn_left f f' n k d f'' Hc) as Htorn. fold i in Hstay, Hgo, Htorn. rewrite Ea. cbv zeta.
  assert (Old : Boot.valid (Boot.record_of f'' d i) = false ∨ same_number (Boot.record_of f'' d i) (Boot.record_of f d i) →
    Boot.select_image (H := Hb) image_ptr header_ptr buf_ptr hash_ptr buf_content hash_content (Boot.mkBoot f'' false) = Some (Some (meta_of (pos_offset (i_pos e0)) img0), Boot.mkBoot f'' false)).
  { intros Hx. by apply (bootable_starts image_ptr header_ptr buf_ptr hash_ptr buf_content hash_content f f'' t md5 n d i (u32 (seq - 1) mod n)); auto. }
  assert (New : same_number (Boot.record_of f'' d i) (Boot.record_of f' d i) →
    Boot.select_image (H := Hb) image_ptr header_ptr buf_ptr hash_ptr buf_content hash_content (Boot.mkBoot f'' false) = Some (Some (meta_of (pos_offset (i_pos e)) img), Boot.mkBoot f'' false)).
  { intros Hx. by apply (bootable_starts image_ptr header_ptr buf_ptr hash_ptr buf_content hash_content f f'' t md5 n d i k); auto. }
  split; [exact Old|]. split; [exact New|]. intros Hx. destruct (Htorn Hx) as [Hv|Hs]; [left; apply Old; by left|right; by apply New].
Qed.

(** C35: The application names the partition the boot loader starts with: for a
    good table and any two records, the index the boot loader computes is that
    of the slot [esp_ota_get_boot_partition] gives, or that of the factory
    application; if there is none, the application gives the first slot, which
    is the first the boot loader tries then. *)
Theorem app_predicts_boot {F : Type} `{NorFlash F} `{!Boot.BootCache F} `{!Boot.BootCacheOk F}
  (junk : list Z) (table_ptr select_ptr : Z) (t md5 : list esp_partition_info_t) (n : Z) (d : esp_partition_pos_t)
  (f : F) (l : list esp_partition_t) (es : list ota_ops_entry) (h : Z) (sel : ota_select * ota_select)
  (Hjunk : zlen junk = SPI_READ_BUF_MAX) (Htable : table_ptr ≠ 0) (Hselect : 0 < select_ptr)
  (Ht : Boot.table_in f t md5) (Ho : Boot.ota_table t n d) (Hl : knows t l) :
  ∃ c i q e s', Boot.boot_index (Boot.mkBoot f false) = Some (c, Boot.mkBoot f false) ∧
    esp_ota_get_boot_partition junk table_ptr select_ptr (mkOta (mkParts f l) es h sel) = Some (Some i, s') ∧
    s_partition_list (parts_ s') !! i = Some q ∧ part_of e q ∧ stands_for t c e.
Proof.
  destruct (get_boot_run junk table_ptr select_ptr Hjunk Htable Hselect t md5 n d f l es h sel Ht Ho Hl) as (l' & sel' & _ & i & q & e & Hg & Hi & Hq & Hs).
  eexists _, i, q, e, _. split; [by apply (Boot.boot_index_run f t md5 n d)|]. by split_and!.
Qed.

(** ** A chip with two slots

    The table, a first record that stands for slot 0, and an image in each
    slot. *)
Definition demo_entry (type subtype off size : Z) (name : Z) : esp_partition_info_t :=
  mkInfo ESP_PARTITION_MAGIC type subtype (mkPos off size) (name :: replicate 15 0) 0.
Definition info_bytes (e : esp_partition_info_t) : list Z :=
  le_bytes 2 (i_magic e) ++ [i_type e; i_subtype e] ++ le_bytes 4 (pos_offset (i_pos e)) ++ le_bytes 4 (pos_size (i_pos e)) ++ i_label e ++ le_bytes 4 (i_flags e).
Definition demo_data : esp_partition_pos_t := mkPos 0xd000 0x2000.
Definition demo_table : list esp_partition_info_t := [demo_entry 1 0 0xd000 0x2000 100; demo_entry 0 0x10 0x20000 0x8000 48; demo_entry 0 0x11 0x10000 0x8000 49].
Definition demo_table_bytes : list Z := Eval vm_compute in concat (info_bytes <$> demo_table).
Definition demo_record : list Z := Eval vm_compute in select_bytes (new_record (replicate 24 0xff) 1).
Definition demo_chip : cells := λ x,
  if x <? 0x9000 then default 0xff (rd demo_table_bytes (x - 0x8000)) else if x <? 0x10000 then default 0xff (rd demo_record (x - 0xd000)) else
  if x <? 0x20000 then demo_app x else demo_app (x - 0x10000).
Definition demo_slot : esp_partition_t := mkPart 0 0x11 0x10000 0x8000 (49 :: replicate 16 0).

#[global] Instance cells_cache : Boot.BootCache cells := λ a n f, bytes_of cell f a n.
#[global] Instance cells_cache_ok : Boot.BootCacheOk cells.
Proof. done. Defined.

Lemma demo_table_in : Boot.table_in demo_chip demo_table [].
Proof.
  split; [|repeat constructor; vm_compute; congruence|constructor|reflexivity|exists (Boot.info_in demo_chip (ESP_PARTITION_TABLE_ADDR + info_size * 3)); split; [reflexivity|]; vm_compute; by split_and!].
  intros [|[|[|i]]] e E; try (injection E as <-; vm_compute; reflexivity). by destruct i.
Qed.
Lemma demo_ota_table : Boot.ota_table demo_table 2 demo_data.
Proof.
  split; [by split|vm_compute; reflexivity|done|split; [vm_compute; lia|by vm_compute]|reflexivity|by split_and!|right; discriminate].
Qed.
Lemma demo_in_use : in_use (Boot.record_of demo_chip demo_data 0) ∧ in_use (Boot.record_of demo_chip demo_data 1).
Proof. split; intros E; vm_compute in E |- *; [by split|discriminate]. Qed.
Lemma demo_slot_entry : Boot.entries 0 (0x10 + 1) demo_table = [demo_entry 0 0x11 0x10000 0x8000 49] ∧ part_of (demo_entry 0 0x11 0x10000 0x8000 49) demo_slot.
Proof. split; [vm_compute; reflexivity|by split_and!]. Qed.
Lemma demo_slot_image : placed byte_at demo_chip 0x10000 (image_bytes demo_image).
Proof. rewrite demo_image_bytes. unfold placed. vm_compute. reflexivity. Qed.

Section Witnesses.
#[local] Instance demo_app_build : Build cells (list Z) := app_build demo_junk 20 24 (replicate 1024 0).
#[local] Instance demo_boot_build : Build cells Sha256.context := boot_build 20 (replicate 1024 0) (replicate 64 0).
Lemma demo_app_ok : BuildOk cells (list Z).
Proof. by apply app_build_ok. Qed.
Lemma demo_boot_ok : BuildOk cells Sha256.context.
Proof. by apply boot_build_ok. Qed.

Definition demo_ota : ota cells := mkOta (mkParts demo_chip []) [] 0 (mkSelect 0 [] 0, mkSelect 0 [] 0).
Definition demo_set : option (Z * ota cells) := esp_ota_set_boot_partition (H := list Z) 1 demo_junk 4 8 4 8 12 16 (replicate 16 0) (replicate 32 0) (Some demo_slot) demo_ota.
Definition demo_get : M (ota cells) (option nat) := esp_ota_get_boot_partition demo_junk 4 8.

Lemma chosen_slot_boots_witness : ∃ s', demo_set = Some (ESP_OK, s') ∧
  (∃ i q s'', demo_get s' = Some (Some i, s'') ∧ s_partition_list (parts_ s'') !! i = Some q ∧ part_of (demo_entry 0 0x11 0x10000 0x8000 49) q) ∧
  let f' := flash (parts_ s') in
  Boot.select_image (H := Sha256.context) 4 8 12 16 (replicate 16 0) (replicate 32 0) (Boot.mkBoot f' false) = Some (Some (meta_of (p_address demo_slot) demo_image), Boot.mkBoot f' false).
Proof.
  pose proof demo_app_ok. pose proof demo_boot_ok. unfold demo_set, demo_get, demo_ota.
  apply (chosen_slot_boots (Ha := list Z) (Hb := Sha256.context) 1 demo_junk 4 8 4 8 12 16 (replicate 16 0) (replicate 32 0) demo_table [] 2 1 demo_data (demo_entry 0 0x11 0x10000 0x8000 49) demo_slot demo_image
    demo_chip [] [] 0 (mkSelect 0 [] 0, mkSelect 0 [] 0));
    [reflexivity|reflexivity|discriminate|reflexivity|exact demo_pointers|reflexivity|reflexivity|exact demo_table_in|exact demo_ota_table|by left|by split|exact demo_in_use|apply demo_slot_entry|apply demo_slot_entry
    |exact demo_image_ok|exact demo_slot_image|reflexivity|reflexivity|exact demo_fits|discriminate|right; discriminate].
Defined.

Lemma demo_bootable : bootable demo_chip demo_table demo_data 1 (demo_entry 0 0x11 0x10000 0x8000 49) demo_image ∧
  bootable demo_chip demo_table demo_data 0 (demo_entry 0 0x10 0x20000 0x8000 48) demo_image.
Proof.
  split; (split; [reflexivity|exact demo_image_ok| |by split_and!|exact demo_fits|right; discriminate]).
  - exact demo_slot_image.
  - rewrite demo_image_bytes. unfold placed. vm_compute. reflexivity.
Qed.
Lemma choice_survives_power_loss_witness : ∃ s' a, demo_set = Some (ESP_OK, s') ∧
  let f' := flash (parts_ s') in
  same_outside a SPI_FLASH_SEC_SIZE demo_chip f' ∧
  ∀ f'', same_outside a SPI_FLASH_SEC_SIZE demo_chip f'' →
    let starts off i := Boot.select_image (H := Sha256.context) 4 8 12 16 (replicate 16 0) (replicate 32 0) (Boot.mkBoot f'' false) = Some (Some (meta_of off i), Boot.mkBoot f'' false) in
    let r := Boot.record_in f'' a in
    (Boot.valid r = false ∨ same_number r (Boot.record_in demo_chip a) → starts 0x20000 demo_image) ∧
    (same_number r (Boot.record_in f' a) → starts 0x10000 demo_image) ∧
    (torn (Boot.record_in f' a) r → starts 0x20000 demo_image ∨ starts 0x10000 demo_image).
Proof.
  pose proof demo_app_ok. pose proof demo_boot_ok. unfold demo_set, demo_ota.
  apply (choice_survives_power_loss (Ha := list Z) (Hb := Sha256.context) 1 demo_junk 4 8 4 8 12 16 (replicate 16 0) (replicate 32 0) demo_table [] 2 1 1 demo_data
    (demo_entry 0 0x11 0x10000 0x8000 49) (demo_entry 0 0x10 0x20000 0x8000 48) demo_slot demo_image demo_image
    demo_chip [] [] 0 (mkSelect 0 [] 0, mkSelect 0 [] 0));
    [reflexivity|reflexivity|discriminate|reflexivity|exact demo_pointers|reflexivity|reflexivity|exact demo_table_in|exact demo_ota_table|by left|by split|exact demo_in_use|vm_compute; reflexivity|apply demo_slot_entry
    |apply demo_bootable|apply demo_bootable].
Defined.

Lemma app_predicts_boot_witness : ∃ c i q e s', Boot.boot_index (Boot.mkBoot demo_chip false) = Some (c, Boot.mkBoot demo_chip false) ∧
  demo_get demo_ota = Some (Some i, s') ∧ s_partition_list (parts_ s') !! i = Some q ∧ part_of e q ∧ stands_for demo_table c e.
Proof.
  unfold demo_get, demo_ota. apply (app_predicts_boot demo_junk 4 8 demo_table [] 2 demo_data demo_chip [] [] 0 (mkSelect 0 [] 0, mkSelect 0 [] 0));
    [reflexivity|discriminate|reflexivity|exact demo_table_in|exact demo_ota_table|by left].
Defined.
End Witnesses.

End Ota.
