(* ===== verification/MqttPacket.v ===== *)
(** The packets of the MQTT client: [components/mqtt/paho/MQTTPacket/src].

    A pointer into a buffer is a position in a [cursor]; any other pointer is
    the memory from it to the end of its array. A serializer is a procedure on
    the array it fills, a deserializer a function of the array it reads and of
    the values its out-parameters have before; reading or writing outside an
    array is a fault. [char] is unsigned on the processor. *)
From S2P Require Import Prelude Cjson Misc.

Module MqttPacket.
Import Cjson Cstring.

(** ** [MQTTPacket.h] and [MQTTConnect.h] *)

Definition MQTTPACKET_BUFFER_TOO_SHORT : Z := -2.
Definition MQTTPACKET_READ_ERROR : Z := -1.

Definition CONNECT : Z := 1.
Definition CONNACK : Z := 2.
Definition PUBLISH : Z := 3.
Definition PUBACK : Z := 4.
Definition PUBREC : Z := 5.
Definition PUBREL : Z := 6.
Definition PUBCOMP : Z := 7.
Definition SUBSCRIBE : Z := 8.
Definition SUBACK : Z := 9.
Definition UNSUBSCRIBE : Z := 10.
Definition UNSUBACK : Z := 11.
Definition PINGREQ : Z := 12.
Definition PINGRESP : Z := 13.
Definition DISCONNECT : Z := 14.

(** The bit fields of [MQTTHeader]: retain, QoS, dup and type from the lowest
    bit on. *)
Definition header_byte (type dup qos retain : Z) : Z :=
  retain mod 2 + 2 * (qos mod 4) + 8 * (dup mod 2) + 16 * (type mod 16).
Definition header_type (h : Z) : Z := h / 16 mod 16.
Definition header_dup (h : Z) : Z := h / 8 mod 2.
Definition header_qos (h : Z) : Z := h / 2 mod 4.
Definition header_retain (h : Z) : Z := h mod 2.

(** The bit fields of [MQTTConnectFlags], from the second lowest bit on. *)
Definition connect_flags (cleansession will willQoS willRetain password username : Z) : Z :=
  2 * (cleansession mod 2) + 4 * (will mod 2) + 8 * (willQoS mod 4) + 32 * (willRetain mod 2) +
  64 * (password mod 2) + 128 * (username mod 2).
Definition flag_cleansession (f : Z) : Z := f / 2 mod 2.
Definition flag_will (f : Z) : Z := f / 4 mod 2.
Definition flag_willQoS (f : Z) : Z := f / 8 mod 4.
Definition flag_willRetain (f : Z) : Z := f / 32 mod 2.
Definition flag_password (f : Z) : Z := f / 64 mod 2.
Definition flag_username (f : Z) : Z := f / 128 mod 2.

Record MQTTLenString := mkLenString { len : Z; data : option (list Z) }.
Record MQTTString := mkString { cstring : option (list Z); lenstring : MQTTLenString }.
Definition MQTTString_initializer : MQTTString := mkString None (mkLenString 0 None).

Record willOptions := mkWill { w_topicName : MQTTString; w_message : MQTTString; w_retained : Z; w_qos : Z }.
Record connectData := mkConnect {
  MQTTVersion : Z;
  clientID : MQTTString;
  keepAliveInterval : Z;
  cleansession : Z;
  willFlag : Z;
  will : willOptions;
  username : MQTTString;
  password : MQTTString }.
Definition MQTTPacket_connectData_initializer : connectData :=
  mkConnect 4 MQTTString_initializer 60 1 0 (mkWill MQTTString_initializer MQTTString_initializer 0 0)
    MQTTString_initializer MQTTString_initializer.

(** ** A pointer into a buffer *)
Record cursor := Cursor { c_buf : list Z; c_ptr : Z }.

(** [ptr[off] = v], [ptr += n], [ptr[off]]. *)
Definition poke (off v : Z) : M cursor unit :=
  let! s := get Datatypes.id in
  let! b := lift (wr (c_buf s) (c_ptr s + off) (u8 v)) in
  modify (λ s, Cursor b (c_ptr s)).
Definition advance (n : Z) : M cursor unit := modify (λ s, Cursor (c_buf s) (c_ptr s + n)).
Definition peek (off : Z) : M cursor Z :=
  let! s := get Datatypes.id in lift (rd (c_buf s) (c_ptr s + off)).

(** A serializer starts at the beginning of its buffer. *)
Definition on_buffer {A} (m : M cursor A) : M (list Z) A := zoom (λ b, Cursor b 0) (λ s _, c_buf s) m.
(** A deserializer does not write. *)
Definition from_buffer {A} (m : M cursor A) (buf : list Z) : option A := fst <$> m (Cursor buf 0).

(** ** [MQTTPacket.c] *)

Fixpoint encode_loop (fuel : nat) (rc length : Z) : M cursor Z :=
  match fuel with
  | O => fault
  | Datatypes.S fuel =>
      let d := Z.rem length 128 in
      let length := Z.quot length 128 in
      let d := if 0 <? length then Z.lor d 0x80 else d in
      poke rc d ;;;
      if 0 <? length then encode_loop fuel (rc + 1) length else ret (rc + 1)
  end.
Definition MQTTPacket_encode (length : Z) : M cursor Z := encode_loop 5 0 length.

Definition MAX_NO_OF_REMAINING_LENGTH_BYTES : Z := 4.

(** [getcharfn] answers what it returns and the character it stores. The
    result is the number of bytes and the value. *)
Fixpoint decode_loop {S} (getcharfn : M S (Z * Z)) (fuel : nat) (len multiplier value : Z) : M S (Z * Z) :=
  match fuel with
  | O => fault
  | Datatypes.S fuel =>
      let len := len + 1 in
      if MAX_NO_OF_REMAINING_LENGTH_BYTES <? len then ret (len, value) else
      let! (rc, c) := getcharfn in
      if negb (rc =? 1) then ret (len, value) else
      let value := value + Z.land c 127 * multiplier in
      let multiplier := multiplier * 128 in
      if negb (Z.land c 128 =? 0) then decode_loop getcharfn fuel len multiplier value else ret (len, value)
  end.
Definition MQTTPacket_decode {S} (getcharfn : M S (Z * Z)) : M S (Z * Z) := decode_loop getcharfn 5 0 1 0.

Definition MQTTPacket_len (rem_len : Z) : Z :=
  let rem_len := s32 (rem_len + 1) in
  if rem_len <? 128 then s32 (rem_len + 1)
  else if rem_len <? 16384 then s32 (rem_len + 2)
  else if rem_len <? 2097151 then s32 (rem_len + 3)
  else s32 (rem_len + 4).

(** [bufptr] is a pointer of its own: the caller's stays. *)
Definition bufchar : M cursor (Z * Z) := let! c := peek 0 in advance 1 ;;; ret (1, c).
Definition MQTTPacket_decodeBuf : M cursor (Z * Z) := zoom Datatypes.id (λ _ s, s) (MQTTPacket_decode bufchar).

Definition readInt : M cursor Z :=
  let! a := peek 0 in let! b := peek 1 in advance 2 ;;; ret (256 * a + b).
Definition readChar : M cursor Z := let! c := peek 0 in advance 1 ;;; ret c.
Definition writeChar (c : Z) : M cursor unit := poke 0 c ;;; advance 1.
Definition writeInt (anInt : Z) : M cursor unit :=
  poke 0 (Z.quot anInt 256) ;;; advance 1 ;;; poke 0 (Z.rem anInt 256) ;;; advance 1.

(** [memcpy] to the pointer and its advance by [n], where [n] becomes a [size_t]. *)
Definition memcpy (src : list Z) (n : Z) : M cursor unit :=
  for_proc 0 (Z.to_nat (u32 n)) (λ i, let! b := lift (rd src i) in poke i b) ;;; advance n.

Definition strlen (string : list Z) : option Z := s ← c_string string; Some (zlen s).
Definition writeCString (string : list Z) : M cursor unit :=
  let! len := lift (strlen string) in writeInt len ;;; memcpy string len.
Definition writeMQTTString (s : MQTTString) : M cursor unit :=
  if 0 <? len (lenstring s) then
    writeInt (len (lenstring s)) ;;;
    let! d := lift (data (lenstring s)) in memcpy d (len (lenstring s))
  else match cstring s with
       | Some c => writeCString c
       | None => writeInt 0
       end.

(** The answer is the return code and the structure it fills. *)
Definition readMQTTLenString (s : MQTTString) (enddata : Z) : M cursor (Z * MQTTString) :=
  let! p := get c_ptr in
  if 1 <? enddata - p then
    let! n := readInt in
    let! s' := get Datatypes.id in
    if c_ptr s' + n <=? enddata then
      advance n ;;; ret (1, mkString None (mkLenString n (Some (drop (Z.to_nat (c_ptr s')) (c_buf s')))))
    else ret (0, mkString None (mkLenString n (data (lenstring s))))
  else ret (0, mkString None (lenstring s)).

Definition MQTTstrlen (s : MQTTString) : option Z :=
  match cstring s with Some c => strlen c | None => Some (len (lenstring s)) end.

(** [strncmp(a, b, n) == 0] *)
Fixpoint strncmp_eq (n : nat) (a b : list Z) : option bool :=
  match n with
  | O => Some true
  | Datatypes.S n =>
      match a, b with
      | x :: a, y :: b => if x =? y then (if x =? 0 then Some true else strncmp_eq n a b) else Some false
      | _, _ => None
      end
  end.
Definition MQTTPacket_equals (a : MQTTString) (bptr : list Z) : option bool :=
  let aptr := match cstring a with Some c => Some c | None => data (lenstring a) end in
  alen ← MQTTstrlen a;
  blen ← strlen bptr;
  if alen =? blen then (aptr ← aptr; strncmp_eq (Z.to_nat alen) aptr bptr) else Some false.

(** ** [MQTTSerializePublish.c] *)

Definition MQTTSerialize_publishLength (qos : Z) (topicName : MQTTString) (payloadlen : Z) : option Z :=
  n ← MQTTstrlen topicName;
  let len := s32 (2 + n + payloadlen) in
  Some (if 0 <? qos then s32 (len + 2) else len).

(** [if (MQTTPacket_len(rem_len = ...) > buflen) ...] around a serializer that
    returns how far it got. *)
Definition serialize_checked (buflen too_short : Z) (needed : Z) (m : M cursor unit) : M cursor Z :=
  if buflen <? needed then ret too_short else m ;;; get c_ptr.
Definition write_encoded (rem_len : Z) : M cursor unit :=
  let! n := MQTTPacket_encode rem_len in advance n.

Definition MQTTSerialize_publish (buflen dup qos retained packetid : Z) (topicName : MQTTString)
    (payload : list Z) (payloadlen : Z) : M (list Z) Z := on_buffer (
  let! rem_len := lift (MQTTSerialize_publishLength qos topicName payloadlen) in
  serialize_checked buflen MQTTPACKET_BUFFER_TOO_SHORT (MQTTPacket_len rem_len) (
    writeChar (header_byte PUBLISH dup qos retained) ;;;
    write_encoded rem_len ;;;
    writeMQTTString topicName ;;;
    when (0 <? qos) (writeInt packetid) ;;;
    memcpy payload payloadlen)).

Definition MQTTSerialize_ack (buflen packettype dup packetid : Z) : M (list Z) Z := on_buffer (
  serialize_checked buflen MQTTPACKET_BUFFER_TOO_SHORT 4 (
    writeChar (header_byte packettype dup (if packettype =? PUBREL then 1 else 0) 0) ;;;
    write_encoded 2 ;;;
    writeInt packetid)).
Definition MQTTSerialize_puback (buflen packetid : Z) : M (list Z) Z := MQTTSerialize_ack buflen PUBACK 0 packetid.
Definition MQTTSerialize_pubrel (buflen dup packetid : Z) : M (list Z) Z := MQTTSerialize_ack buflen PUBREL dup packetid.
Definition MQTTSerialize_pubcomp (buflen packetid : Z) : M (list Z) Z := MQTTSerialize_ack buflen PUBCOMP 0 packetid.

(** ** [MQTTDeserializePublish.c] *)

(** The out-parameters of [MQTTDeserialize_publish]. *)
Record publish_data := mkPublish {
  p_dup : Z; p_qos : Z; p_retained : Z; p_packetid : Z;
  p_topicName : MQTTString; p_payload : list Z; p_payloadlen : Z }.

Definition read_publish (out : publish_data) : M cursor (Z * publish_data) :=
  let! h := readChar in
  if negb (header_type h =? PUBLISH) then ret (0, out) else
  let qos := header_qos h in
  let! (rc, mylen) := MQTTPacket_decodeBuf in
  advance rc ;;;
  let! p := get c_ptr in
  let enddata := p + mylen in
  let! (ok, topicName) := readMQTTLenString (p_topicName out) enddata in
  let! curdata := get c_ptr in
  if (ok =? 0) || (enddata - curdata <? 0) then
    ret (rc, mkPublish (header_dup h) qos (header_retain h) (p_packetid out) topicName (p_payload out) (p_payloadlen out))
  else
    let! packetid := (if 0 <? qos then readInt else ret (p_packetid out)) in
    let! s := get Datatypes.id in
    ret (1, mkPublish (header_dup h) qos (header_retain h) packetid topicName
              (drop (Z.to_nat (c_ptr s)) (c_buf s)) (enddata - c_ptr s)).
Definition MQTTDeserialize_publish (out : publish_data) (buf : list Z) : option (Z * publish_data) :=
  from_buffer (read_publish out) buf.

(** The out-parameters of [MQTTDeserialize_ack]. *)
Record ack_data := mkAck { a_packettype : Z; a_dup : Z; a_packetid : Z }.
Definition read_ack (out : ack_data) : M cursor (Z * ack_data) :=
  let! h := readChar in
  let! (rc, mylen) := MQTTPacket_decodeBuf in
  advance rc ;;;
  if mylen <? 2 then ret (rc, mkAck (header_type h) (header_dup h) (a_packetid out)) else
  let! packetid := readInt in
  ret (1, mkAck (header_type h) (header_dup h) packetid).
Definition MQTTDeserialize_ack (out : ack_data) (buf : list Z) : option (Z * ack_data) :=
  from_buffer (read_ack out) buf.

(** ** [MQTTConnectClient.c] *)

Definition supplied (s : MQTTString) : bool := bool_decide (is_Some (cstring s)) || bool_decide (is_Some (data (lenstring s))).
Definition b2z (b : bool) : Z := if b then 1 else 0.

Definition MQTTSerialize_connectLength (options : connectData) : option Z :=
  let len := if MQTTVersion options =? 3 then 12 else if MQTTVersion options =? 4 then 10 else 0 in
  n ← MQTTstrlen (clientID options);
  let len := s32 (len + n + 2) in
  len ← (if negb (willFlag options =? 0) then
           t ← MQTTstrlen (w_topicName (will options));
           m ← MQTTstrlen (w_message (will options));
           Some (s32 (len + (t + 2 + m + 2)))
         else Some len);
  len ← (if supplied (username options) then n ← MQTTstrlen (username options); Some (s32 (len + n + 2)) else Some len);
  if supplied (password options) then n ← MQTTstrlen (password options); Some (s32 (len + n + 2)) else Some len.

Definition MQTTSerialize_connect (buflen : Z) (options : connectData) : M (list Z) Z := on_buffer (
  let! len := lift (MQTTSerialize_connectLength options) in
  serialize_checked buflen MQTTPACKET_BUFFER_TOO_SHORT (MQTTPacket_len len) (
    writeChar (header_byte CONNECT 0 0 0) ;;;
    write_encoded len ;;;
    (if MQTTVersion options =? 4 then writeCString (bytes "MQTT" ++ [0]) ;;; writeChar 4
     else writeCString (bytes "MQIsdp" ++ [0]) ;;; writeChar 3) ;;;
    let w := negb (willFlag options =? 0) in
    let u := supplied (username options) in
    let p := supplied (password options) in
    writeChar (connect_flags (cleansession options) (b2z w)
      (if w then w_qos (will options) else 0) (if w then w_retained (will options) else 0) (b2z p) (b2z u)) ;;;
    writeInt (keepAliveInterval options) ;;;
    writeMQTTString (clientID options) ;;;
    when w (writeMQTTString (w_topicName (will options)) ;;; writeMQTTString (w_message (will options))) ;;;
    when u (writeMQTTString (username options)) ;;;
    when p (writeMQTTString (password options)))).

(** The out-parameters of [MQTTDeserialize_connack]. *)
Record connack_data := mkConnack { k_rc : Z; k_sessionPresent : Z }.
Definition read_connack (out : connack_data) : M cursor (Z * connack_data) :=
  let! h := readChar in
  if negb (header_type h =? CONNACK) then ret (0, out) else
  let! (rc, mylen) := MQTTPacket_decodeBuf in
  advance rc ;;;
  if mylen <? 2 then ret (rc, out) else
  let! flags := readChar in
  let! connack_rc := readChar in
  ret (1, mkConnack connack_rc (flags mod 2)).
Definition MQTTDeserialize_connack (out : connack_data) (buf : list Z) : option (Z * connack_data) :=
  from_buffer (read_connack out) buf.

Definition MQTTSerialize_zero (buflen packettype : Z) : M (list Z) Z := on_buffer (
  serialize_checked buflen MQTTPACKET_BUFFER_TOO_SHORT 2 (
    writeChar (header_byte packettype 0 0 0) ;;; write_encoded 0)).
Definition MQTTSerialize_disconnect (buflen : Z) : M (list Z) Z := MQTTSerialize_zero buflen DISCONNECT.
Definition MQTTSerialize_pingreq (buflen : Z) : M (list Z) Z := MQTTSerialize_zero buflen PINGREQ.

(** ** [MQTTConnectServer.c] *)

(** [memcmp(a, b, n) == 0] *)
Fixpoint memcmp_eq (n : nat) (a b : list Z) : option bool :=
  match n with
  | O => Some true
  | Datatypes.S n =>
      match a, b with
      | x :: a, y :: b => if x =? y then memcmp_eq n a b else Some false
      | _, _ => None
      end
  end.
(** The length in the comparison is a [size_t]. *)
Definition same_name (protocol : MQTTString) (name : list Z) : option bool :=
  d ← data (lenstring protocol);
  memcmp_eq (Z.to_nat (u32 (Z.min (zlen name) (len (lenstring protocol))))) d name.
Definition MQTTPacket_checkVersion (protocol : MQTTString) (version : Z) : option bool :=
  mqisdp ← (if version =? 3 then same_name protocol (bytes "MQIsdp") else Some false);
  if (mqisdp : bool) then Some true else
  if version =? 4 then same_name protocol (bytes "MQTT") else Some false.

(** [if (!readMQTTLenString(...)) goto exit;] with the structure as it is then. *)
Definition or_exit (out : connectData) (r : Z * MQTTString) (set : MQTTString → connectData)
    (k : connectData → M cursor (Z * connectData)) : M cursor (Z * connectData) :=
  let '(ok, s) := r in if ok =? 0 then ret (0, set s) else k (set s).
Definition set_clientID (o : connectData) (s : MQTTString) : connectData :=
  mkConnect (MQTTVersion o) s (keepAliveInterval o) (cleansession o) (willFlag o) (will o) (username o) (password o).
Definition set_will (o : connectData) (w : willOptions) : connectData :=
  mkConnect (MQTTVersion o) (clientID o) (keepAliveInterval o) (cleansession o) (willFlag o) w (username o) (password o).
Definition set_username (o : connectData) (s : MQTTString) : connectData :=
  mkConnect (MQTTVersion o) (clientID o) (keepAliveInterval o) (cleansession o) (willFlag o) (will o) s (password o).
Definition set_password (o : connectData) (s : MQTTString) : connectData :=
  mkConnect (MQTTVersion o) (clientID o) (keepAliveInterval o) (cleansession o) (willFlag o) (will o) (username o) s.
Definition set_willFlag (o : connectData) (v : Z) : connectData :=
  mkConnect (MQTTVersion o) (clientID o) (keepAliveInterval o) (cleansession o) v (will o) (username o) (password o).
Definition set_session (o : connectData) (clean keep : Z) : connectData :=
  mkConnect (MQTTVersion o) (clientID o) keep clean (willFlag o) (will o) (username o) (password o).

Definition read_credentials (flags enddata : Z) (o : connectData) : M cursor (Z * connectData) :=
  if negb (flag_username flags =? 0) then
    let! p := get c_ptr in
    if enddata - p <? 3 then ret (0, o) else
    let! r := readMQTTLenString (username o) enddata in
    or_exit o r (set_username o) (λ o,
    if negb (flag_password flags =? 0) then
      let! p := get c_ptr in
      if enddata - p <? 3 then ret (0, o) else
      let! r := readMQTTLenString (password o) enddata in
      or_exit o r (set_password o) (λ o, ret (1, o))
    else ret (1, o))
  else if negb (flag_password flags =? 0) then ret (0, o) else ret (1, o).

Definition read_connect (o : connectData) (len : Z) : M cursor (Z * connectData) :=
  let enddata := len in
  let! h := readChar in
  if negb (header_type h =? CONNECT) then ret (0, o) else
  let! (n, mylen) := MQTTPacket_decodeBuf in
  advance n ;;;
  let! (ok, Protocol) := readMQTTLenString MQTTString_initializer enddata in
  let! p := get c_ptr in
  if (ok =? 0) || (enddata - p <? 0) then ret (0, o) else
  let! version := readChar in
  let! known := lift (MQTTPacket_checkVersion Protocol version) in
  if negb known then ret (0, o) else
  let! flags := readChar in
  let! keep := readInt in
  let o := set_session o (flag_cleansession flags) keep in
  let! r := readMQTTLenString (clientID o) enddata in
  or_exit o r (set_clientID o) (λ o,
  let o := set_willFlag o (flag_will flags) in
  if negb (flag_will flags =? 0) then
    let w := will o in
    let w := mkWill (w_topicName w) (w_message w) (flag_willRetain flags) (flag_willQoS flags) in
    let! r := readMQTTLenString (w_topicName w) enddata in
    or_exit o r (λ s, set_will o (mkWill s (w_message w) (w_retained w) (w_qos w))) (λ o,
    let w := will o in
    let! r := readMQTTLenString (w_message w) enddata in
    or_exit o r (λ s, set_will o (mkWill (w_topicName w) s (w_retained w) (w_qos w))) (read_credentials flags enddata))
  else read_credentials flags enddata o).
Definition MQTTDeserialize_connect (o : connectData) (buf : list Z) (len : Z) : option (Z * connectData) :=
  from_buffer (read_connect o len) buf.

Definition MQTTSerialize_connack (buflen connack_rc sessionPresent : Z) : M (list Z) Z := on_buffer (
  serialize_checked buflen MQTTPACKET_BUFFER_TOO_SHORT 2 (
    writeChar (header_byte CONNACK 0 0 0) ;;;
    write_encoded 2 ;;;
    writeChar (sessionPresent mod 2) ;;;
    writeChar connack_rc)).

(** ** [MQTTSubscribeClient.c] *)

(** [for (i = 0; i < count; ++i) len += 2 + MQTTstrlen(topicFilters[i]) + more;] *)
Fixpoint filters_length (more i : Z) (n : nat) (topicFilters : list MQTTString) (len : Z) : option Z :=
  match n with
  | O => Some len
  | Datatypes.S n =>
      s ← rd topicFilters i;
      k ← MQTTstrlen s;
      filters_length more (i + 1) n topicFilters (s32 (len + (2 + k + more)))
  end.
Definition MQTTSerialize_subscribeLength (count : Z) (topicFilters : list MQTTString) : option Z :=
  filters_length 1 0 (Z.to_nat count) topicFilters 2.

Definition MQTTSerialize_subscribe (buflen dup packetid count : Z) (topicFilters : list MQTTString)
    (requestedQoSs : list Z) : M (list Z) Z := on_buffer (
  let! rem_len := lift (MQTTSerialize_subscribeLength count topicFilters) in
  serialize_checked buflen MQTTPACKET_BUFFER_TOO_SHORT (MQTTPacket_len rem_len) (
    writeChar (header_byte SUBSCRIBE dup 1 0) ;;;
    write_encoded rem_len ;;;
    writeInt packetid ;;;
    for_proc 0 (Z.to_nat count) (λ i,
      let! s := lift (rd topicFilters i) in
      writeMQTTString s ;;;
      let! q := lift (rd requestedQoSs i) in
      writeChar q))).

(** The out-parameters of [MQTTDeserialize_suback]; [grantedQoSs] is the array
    the caller has. *)
Record suback_data := mkSuback { s_packetid : Z; s_count : Z; s_grantedQoSs : list Z }.
Fixpoint read_codes (fuel : nat) (maxcount enddata : Z) (out : suback_data) : M cursor (Z * suback_data) :=
  match fuel with
  | O => fault
  | Datatypes.S fuel =>
      let! curdata := get c_ptr in
      if curdata <? enddata then
        if maxcount <? s_count out then ret (-1, out) else
        let! q := readChar in
        let! g := lift (wr (s_grantedQoSs out) (s_count out) q) in
        read_codes fuel maxcount enddata (mkSuback (s_packetid out) (s_count out + 1) g)
      else ret (1, out)
  end.
Definition read_suback (maxcount : Z) (out : suback_data) : M cursor (Z * suback_data) :=
  let! h := readChar in
  if negb (header_type h =? SUBACK) then ret (0, out) else
  let! (rc, mylen) := MQTTPacket_decodeBuf in
  advance rc ;;;
  let! p := get c_ptr in
  let enddata := p + mylen in
  if mylen <? 2 then ret (rc, out) else
  let! packetid := readInt in
  read_codes (Datatypes.S (Z.to_nat mylen)) maxcount enddata (mkSuback packetid 0 (s_grantedQoSs out)).
Definition MQTTDeserialize_suback (maxcount : Z) (out : suback_data) (buf : list Z) : option (Z * suback_data) :=
  from_buffer (read_suback maxcount out) buf.

(** ** [MQTTSubscribeServer.c] *)

(** The out-parameters of [MQTTDeserialize_subscribe] and
    [MQTTDeserialize_unsubscribe], which has no QoS values. [maxcount] is not
    looked at. *)
Record subscribe_data := mkSubscribe {
  b_dup : Z; b_packetid : Z; b_count : Z; b_topicFilters : list MQTTString; b_requestedQoSs : list Z }.

Fixpoint read_filters (fuel : nat) (with_qos : bool) (rc enddata : Z) (out : subscribe_data) : M cursor (Z * subscribe_data) :=
  match fuel with
  | O => fault
  | Datatypes.S fuel =>
      let! curdata := get c_ptr in
      if curdata <? enddata then
        let! s := lift (rd (b_topicFilters out) (b_count out)) in
        let! (ok, s) := readMQTTLenString s enddata in
        let! fs := lift (wr (b_topicFilters out) (b_count out) s) in
        let out := mkSubscribe (b_dup out) (b_packetid out) (b_count out) fs (b_requestedQoSs out) in
        if ok =? 0 then ret (rc, out) else
        if with_qos then
          let! curdata := get c_ptr in
          if enddata <=? curdata then ret (rc, out) else
          let! q := readChar in
          let! qs := lift (wr (b_requestedQoSs out) (b_count out) q) in
          read_filters fuel with_qos rc enddata (mkSubscribe (b_dup out) (b_packetid out) (b_count out + 1) fs qs)
        else read_filters fuel with_qos rc enddata (mkSubscribe (b_dup out) (b_packetid out) (b_count out + 1) fs (b_requestedQoSs out))
      else ret (1, out)
  end.
Definition read_subscription (type wrong_type : Z) (with_qos : bool) (out : subscribe_data) : M cursor (Z * subscribe_data) :=
  let! h := readChar in
  if negb (header_type h =? type) then ret (wrong_type, out) else
  let! (rc, mylen) := MQTTPacket_decodeBuf in
  advance rc ;;;
  let! p := get c_ptr in
  let enddata := p + mylen in
  let! packetid := readInt in
  read_filters (Datatypes.S (Z.to_nat mylen)) with_qos rc enddata
    (mkSubscribe (header_dup h) packetid 0 (b_topicFilters out) (b_requestedQoSs out)).
Definition MQTTDeserialize_subscribe (out : subscribe_data) (buf : list Z) : option (Z * subscribe_data) :=
  from_buffer (read_subscription SUBSCRIBE (-1) true out) buf.

Definition MQTTSerialize_suback (buflen packetid count : Z) (grantedQoSs : list Z) : M (list Z) Z := on_buffer (
  serialize_checked buflen MQTTPACKET_BUFFER_TOO_SHORT (2 + count) (
    writeChar (header_byte SUBACK 0 0 0) ;;;
    write_encoded (2 + count) ;;;
    writeInt packetid ;;;
    for_proc 0 (Z.to_nat count) (λ i, let! q := lift (rd grantedQoSs i) in writeChar q))).

(** ** [MQTTUnsubscribeClient.c] and [MQTTUnsubscribeServer.c] *)

Definition MQTTSerialize_unsubscribeLength (count : Z) (topicFilters : list MQTTString) : option Z :=
  filters_length 0 0 (Z.to_nat count) topicFilters 2.
Definition MQTTSerialize_unsubscribe (buflen dup packetid count : Z) (topicFilters : list MQTTString) : M (list Z) Z := on_buffer (
  let! rem_len := lift (MQTTSerialize_unsubscribeLength count topicFilters) in
  serialize_checked buflen MQTTPACKET_BUFFER_TOO_SHORT (MQTTPacket_len rem_len) (
    writeChar (header_byte UNSUBSCRIBE dup 1 0) ;;;
    write_encoded rem_len ;;;
    writeInt packetid ;;;
    for_proc 0 (Z.to_nat count) (λ i, let! s := lift (rd topicFilters i) in writeMQTTString s))).
Definition MQTTDeserialize_unsuback (packetid : Z) (buf : list Z) : option (Z * Z) :=
  '(rc, a) ← MQTTDeserialize_ack (mkAck 0 0 packetid) buf;
  Some (if a_packettype a =? UNSUBACK then 1 else rc, a_packetid a).
Definition MQTTDeserialize_unsubscribe (out : subscribe_data) (buf : list Z) : option (Z * subscribe_data) :=
  from_buffer (read_subscription UNSUBSCRIBE 0 false out) buf.
Definition MQTTSerialize_unsuback (buflen packetid : Z) : M (list Z) Z := on_buffer (
  serialize_checked buflen MQTTPACKET_BUFFER_TOO_SHORT 2 (
    writeChar (header_byte UNSUBACK 0 0 0) ;;;
    write_encoded 2 ;;;
    writeInt packetid)).

(** ** Bytes of a packet

    What the serializers write, as lists. *)

(** Seven bits a byte, the lowest first; the top bit says that more follow. *)
Fixpoint varint (fuel : nat) (n : Z) : list Z :=
  match fuel with
  | O => []
  | Datatypes.S fuel => if n <? 128 then [n] else (n mod 128 + 128) :: varint fuel (n / 128)
  end.
Definition int2 (n : Z) : list Z := [n / 256; n mod 256].
Definition utf (t : list Z) : list Z := int2 (zlen t) ++ t.
(** A packet: the header byte, the length of what follows, and that. *)
Definition packet (h : Z) (body : list Z) : list Z := h :: varint 5 (zlen body) ++ body.

(** The text an [MQTTString] stands for: a C string, or [len] bytes of memory. *)
Inductive stands_for : MQTTString → list Z → Prop :=
  | stands_cstring c l t : c_string c = Some t → len l <= 0 → Forall in_u8 t → stands_for (mkString (Some c) l) t
  | stands_lenstring n d t : n = zlen t → take (length t) d = t → Forall in_u8 t → stands_for (mkString None (mkLenString n (Some d))) t
  | stands_null d : stands_for (mkString None (mkLenString 0 d)) [].

(** ** Running writers and readers

    The pointer is after [pre] and before [post]. *)
Definition At (pre post : list Z) : cursor := Cursor (pre ++ post) (zlen pre).
(** The procedure answers [a] and writes [bs]. *)
Definition writes {A} (m : M cursor A) (a : A) (bs : list Z) : Prop :=
  ∀ pre old post, length old = length bs → m (At pre (old ++ post)) = Some (a, At (pre ++ bs) post).

Lemma At_eq pre post b p : b = pre ++ post → p = zlen pre → Cursor b p = At pre post.
Proof. by intros -> ->. Qed.

Lemma writes_ret {A} (a : A) : writes (ret a) a [].
Proof. intros pre [|] post; [|done]. intros _. by rewrite app_nil_r. Qed.
Lemma writes_lift {A} (o : option A) a : o = Some a → writes (lift o) a [].
Proof. intros -> pre [|] post; [|done]. intros _. by rewrite app_nil_r. Qed.
Lemma writes_bind {A B} (m : M cursor A) a bs (k : A → M cursor B) b cs :
  writes m a bs → writes (k a) b cs → writes (bind m k) b (bs ++ cs).
Proof.
  intros Hm Hk pre old post Hlen. rewrite length_app in Hlen.
  rewrite <- (take_drop (length bs) old), <- (app_assoc (take _ _)).
  rewrite (bind_run _ _ _ _ _ (Hm pre (take (length bs) old) (drop (length bs) old ++ post) ltac:(rewrite length_take; lia))).
  rewrite (Hk _ (drop (length bs) old) post) by (rewrite length_drop; lia). by rewrite app_assoc.
Qed.
Lemma writes_seq {B} (m : M cursor unit) bs (k : M cursor B) b cs :
  writes m tt bs → writes k b cs → writes (m ;;; k) b (bs ++ cs).
Proof. exact (writes_bind m tt bs (λ _, k) b cs). Qed.
Lemma writes_lift_bind {A B} (o : option A) a (k : A → M cursor B) b cs :
  o = Some a → writes (k a) b cs → writes (bind (lift o) k) b cs.
Proof. intros Ho Hk. exact (writes_bind _ _ [] _ _ _ (writes_lift _ _ Ho) Hk). Qed.
Lemma writes_when c m bs : (c = true → writes m tt bs) → writes (when c m) tt (if c then bs else []).
Proof. destruct c; cbn; [auto|intros _; apply writes_ret]. Qed.

Lemma poke_run pre front x post v i : i = zlen front → poke i v (At pre (front ++ x :: post)) = Some (tt, At pre (front ++ u8 v :: post)).
Proof.
  intros ->. unfold poke, At. cbn. unfold bind, get, lift. cbn. unfold zlen.
  rewrite wr_Some by (rewrite !length_app; cbn; lia). cbn.
  replace (Z.to_nat (Z.of_nat (length pre) + Z.of_nat (length front))) with (length pre + (length front + 0))%nat by lia.
  by rewrite !insert_app_r.
Qed.
Lemma cursor_advance_run pre bs post n : n = zlen bs → advance n (At pre (bs ++ post)) = Some (tt, At (pre ++ bs) post).
Proof. intros ->. unfold advance, modify, At. cbn. by rewrite zlen_app, app_assoc. Qed.
Lemma peek_run pre front x post i : i = zlen front → peek i (At pre (front ++ x :: post)) = Some (x, At pre (front ++ x :: post)).
Proof.
  intros ->. unfold peek, bind, get, lift, At, zlen. cbn.
  rewrite <- Nat2Z.inj_add, rd_lookup, lookup_app_r by lia.
  replace (length pre + length front - length pre)%nat with (length front) by lia.
  by rewrite list_lookup_middle.
Qed.

Lemma writes_char c : writes (writeChar c) tt [u8 c].
Proof.
  intros pre [|x [|]] post Hlen; try done. unfold writeChar. cbn [app].
  rewrite (bind_run _ _ _ _ _ (poke_run pre [] x post c 0 eq_refl)). by apply (cursor_advance_run pre [u8 c]).
Qed.
Lemma writes_int n : in_u16 n → writes (writeInt n) tt (int2 n).
Proof.
  unfold in_u16. intros Hn pre [|x [|y [|]]] post Hlen; try done. unfold int2. cbn [app].
  rewrite <- (u8_id (n / 256)), <- (u8_id (n mod 256)) by (unfold in_u8; dlia).
  unfold writeInt. rewrite Z.quot_div_nonneg, Z.rem_mod_nonneg by lia.
  rewrite (bind_run _ _ _ _ _ (poke_run pre [] x (y :: post) (n / 256) 0 eq_refl)); cbn [app].
  rewrite (bind_run _ _ _ _ _ (cursor_advance_run pre [u8 (n / 256)] (y :: post) 1 eq_refl)).
  rewrite (bind_run _ _ _ _ _ (poke_run _ [] y post (n mod 256) 0 eq_refl)); cbn [app].
  change [u8 (n / 256); u8 (n mod 256)] with ([u8 (n / 256)] ++ [u8 (n mod 256)]). rewrite app_assoc.
  by apply (cursor_advance_run _ [u8 (n mod 256)]).
Qed.

Lemma copy_loop src : ∀ n front old pre post, length old = n → (length front + n <= length src)%nat →
  Forall in_u8 (take n (drop (length front) src)) →
  for_proc (zlen front) n (λ i, let! b := lift (rd src i) in poke i b) (At pre (front ++ old ++ post)) =
  Some (tt, At pre (front ++ take n (drop (length front) src) ++ post)).
Proof.
  induction n as [|n IH]; intros front old pre post Hold Hlen HF; [by destruct old|].
  destruct old as [|x old]; [done|]. cbn [for_proc].
  destruct (lookup_lt_is_Some_2 src (length front) ltac:(lia)) as [b Hb].
  rewrite (drop_S _ _ _ Hb) in HF |- *. cbn [take] in HF |- *. apply Forall_cons in HF as [Hu HF].
  assert (Hrd : rd src (zlen front) = Some b) by (unfold zlen; by rewrite rd_lookup).
  assert (Hbody : (let! b := lift (rd src (zlen front)) in poke (zlen front) b) (At pre (front ++ (x :: old) ++ post)) =
    Some (tt, At pre ((front ++ [b]) ++ old ++ post))).
  { rewrite (bind_run _ _ _ _ _ (lift_run _ _ _ Hrd)). cbn [app]. rewrite poke_run by done. by rewrite u8_id, <- app_assoc. }
  rewrite (bind_run _ _ _ _ _ Hbody).
  replace (zlen front + 1) with (zlen (front ++ [b])) by (unfold zlen; rewrite length_app; cbn; lia).
  rewrite (IH (front ++ [b]) old pre post) by (rewrite ?length_app; cbn in *; (lia || by rewrite Nat.add_1_r)).
  by rewrite length_app, Nat.add_1_r, <- app_assoc.
Qed.
Lemma writes_memcpy src bs n : n = zlen bs → take (length bs) src = bs → Forall in_u8 bs → zlen bs < 2 ^ 32 →
  writes (memcpy src n) tt bs.
Proof.
  intros -> Htake HF Hn pre old post Hlen. unfold memcpy.
  rewrite u32_id by (unfold in_u32, zlen in *; lia). replace (Z.to_nat (zlen bs)) with (length bs) by (unfold zlen; lia).
  assert (Hsrc : (length bs <= length src)%nat) by (rewrite <- Htake, length_take; lia).
  rewrite (bind_run _ _ _ _ _ (copy_loop src (length bs) [] old pre post Hlen Hsrc ltac:(cbn; by rewrite drop_0, Htake))).
  cbn [length app]. rewrite drop_0, Htake. by apply cursor_advance_run.
Qed.

(** The number of bytes an [int] takes. *)
Lemma varint_step n fuel : 128 <= n → varint (Datatypes.S fuel) n = (n mod 128 + 128) :: varint fuel (n / 128).
Proof. intros Hn. cbn. by destruct (Z.ltb_spec n 128); [lia|]. Qed.
Lemma varint_last n fuel : n < 128 → varint (Datatypes.S fuel) n = [n].
Proof. intros Hn. cbn. by destruct (Z.ltb_spec n 128); [|lia]. Qed.
Lemma varint_nonempty n fuel : 1 <= zlen (varint (Datatypes.S fuel) n).
Proof. cbn. destruct (n <? 128); unfold zlen; cbn; lia. Qed.

Lemma encode_loop_run : ∀ fuel n front old pre post, fuel ≠ O → 0 <= n < 128 ^ Z.of_nat fuel → length old = length (varint fuel n) →
  encode_loop fuel (zlen front) n (At pre (front ++ old ++ post)) =
  Some (zlen front + zlen (varint fuel n), At pre (front ++ varint fuel n ++ post)).
Proof.
  induction fuel as [|fuel IH]; intros n front old pre post Hf Hn Hlen; [done|].
  rewrite Nat2Z.inj_succ, Z.pow_succ_r in Hn by lia. cbn [encode_loop]. cbv zeta.
  rewrite Z.rem_mod_nonneg, Z.quot_div_nonneg by lia.
  assert (Hnext : zlen front + 1 = zlen (front ++ [u8 (n mod 128 + 128)])) by (unfold zlen; rewrite length_app; cbn; lia).
  destruct (Z.ltb_spec 0 (n / 128)) as [Hmore|Hlast].
  - rewrite varint_step in Hlen |- * by dlia. destruct old as [|x old]; [done|].
    change 0x80 with (1 * 2 ^ 7). rewrite lor_fields by dlia. rewrite Z.mul_1_l. change (2 ^ 7) with 128. cbn [app].
    rewrite (bind_run _ _ _ _ _ (poke_run pre front x (old ++ post) _ _ eq_refl)).
    rewrite Hnext. change (front ++ u8 ?x :: old ++ post) with (front ++ [u8 x] ++ old ++ post). rewrite (app_assoc front).
    assert (fuel ≠ O) by (intros ->; cbn in Hn; dlia).
    rewrite IH by (done || (split; dlia) || (cbn in Hlen; lia)). rewrite zlen_app, <- app_assoc.
    rewrite (u8_id (n mod 128 + 128)) by (unfold in_u8; dlia). cbn [app]. f_equal. f_equal. unfold zlen. cbn [length]. lia.
  - rewrite varint_last in Hlen |- * by dlia. destruct old as [|x [|]]; [done| |done].
    rewrite (bind_run _ _ _ _ _ (poke_run pre front x post _ _ eq_refl)).
    rewrite Z.mod_small by dlia. by rewrite u8_id by (unfold in_u8; dlia).
Qed.
Lemma writes_encoded n : 0 <= n < 2 ^ 31 → writes (write_encoded n) tt (varint 5 n).
Proof.
  intros Hn pre old post Hlen. unfold write_encoded, MQTTPacket_encode.
  rewrite (bind_run _ _ _ _ _ (encode_loop_run 5 n [] old pre post ltac:(done) ltac:(cbn; lia) Hlen)).
  exact (cursor_advance_run pre (varint 5 n) post (zlen (varint 5 n)) eq_refl).
Qed.

Lemma writes_cstring c t : c_string c = Some t → Forall in_u8 t → zlen t < 2 ^ 16 → writes (writeCString c) tt (utf t).
Proof.
  intros Hc HF Hn. unfold writeCString, strlen. rewrite Hc.
  apply (writes_lift_bind _ (zlen t)); [done|]. apply writes_seq; [apply writes_int; unfold in_u16, zlen in *; lia|].
  apply writes_memcpy; [done| |done|lia]. clear Hn HF. revert c Hc. induction t as [|x t IH]; intros c Hc; [done|].
  destruct c as [|y c]; [done|]. cbn in Hc |- *. destruct (y =? 0); [done|]. destruct (c_string c) as [s|] eqn:E; [|done].
  cbn in Hc. injection Hc as -> ->. by rewrite (IH c E).
Qed.
Lemma writes_string s t : stands_for s t → zlen t < 2 ^ 16 → writes (writeMQTTString s) tt (utf t).
Proof.
  intros Hs Hn. unfold writeMQTTString. destruct Hs as [c l t Hc Hl HF|n d t -> Htake HF|d]; cbn [lenstring len data cstring].
  - destruct (Z.ltb_spec 0 (len l)); [lia|]. by apply writes_cstring.
  - destruct (Z.ltb_spec 0 (zlen t)).
    + apply writes_seq; [apply writes_int; unfold in_u16, zlen in *; lia|].
      apply (writes_lift_bind _ d); [done|]. apply writes_memcpy; (done || lia).
    + assert (t = []) as -> by (destruct t; [done|unfold zlen in *; cbn in *; lia]). by apply (writes_int 0).
  - by apply (writes_int 0).
Qed.
Lemma strlen_text s t : stands_for s t → MQTTstrlen s = Some (zlen t).
Proof. intros [c l t' Hc Hl HF|n d t' -> Htake HF|d]; unfold MQTTstrlen, strlen; cbn; [by rewrite Hc|done..]. Qed.

(** [MQTTPacket_len] leaves room for the packet. *)
Lemma varint_length n : 0 <= n < 2 ^ 28 →
  zlen (varint 5 n) = if n <? 128 then 1 else if n <? 16384 then 2 else if n <? 2097152 then 3 else 4.
Proof.
  intros Hn. destruct (Z.ltb_spec n 128); [by rewrite varint_last|]. rewrite varint_step, zlen_cons by lia.
  destruct (Z.ltb_spec n 16384); [by rewrite varint_last by dlia|]. rewrite varint_step, zlen_cons by dlia.
  destruct (Z.ltb_spec n 2097152); [by rewrite varint_last by dlia|]. rewrite varint_step, zlen_cons by dlia.
  by rewrite varint_last by dlia.
Qed.
Lemma s32_small z : - 2 ^ 31 <= z < 2 ^ 31 → s32 z = z.
Proof.
  intros Hz. unfold s32, u32. destruct (Z.ltb_spec z 0).
  - assert (E : z mod 2 ^ 32 = z + 2 ^ 32) by (symmetry; apply (Z.mod_unique _ _ (-1)); lia).
    rewrite E. destruct (Z.ltb_spec (z + 2 ^ 32) (2 ^ 31)); lia.
  - rewrite Z.mod_small by lia. destruct (Z.ltb_spec z (2 ^ 31)); lia.
Qed.
(** Sums of [int]s that do not wrap, from the inside. *)
Ltac no_wrap :=
  repeat match goal with |- context [s32 ?z] =>
    lazymatch z with context [s32 _] => fail | _ => rewrite (s32_small z) by lia end end.
Lemma packet_room h body : zlen body < 2 ^ 28 → zlen (packet h body) <= MQTTPacket_len (zlen body).
Proof.
  intros Hn. pose proof (zlen_nonneg body). unfold packet, MQTTPacket_len. rewrite zlen_cons, zlen_app, varint_length by lia. cbv zeta.
  rewrite (s32_small (zlen body + 1)) by lia.
  repeat match goal with |- context [?a <? ?b] => destruct (Z.ltb_spec a b) end; rewrite s32_small by lia; lia.
Qed.

(** ** What a serializer does

    On a buffer of at least [buflen] bytes it writes [bs] at the beginning and
    answers how many they are, or answers that they do not fit. *)
Definition serializes (m : M (list Z) Z) (buflen needed : Z) (bs : list Z) : Prop :=
  ∀ buf, buflen <= zlen buf →
    m buf = Some (if buflen <? needed then (MQTTPACKET_BUFFER_TOO_SHORT, buf) else (zlen bs, bs ++ drop (length bs) buf)).

Lemma on_buffer_lift {A B} (o : option A) a (k : A → M cursor B) : o = Some a → ∀ buf, on_buffer (bind (lift o) k) buf = on_buffer (k a) buf.
Proof. by intros ->. Qed.
Lemma serialize_run buflen needed m bs : writes m tt bs → zlen bs <= needed →
  serializes (on_buffer (serialize_checked buflen MQTTPACKET_BUFFER_TOO_SHORT needed m)) buflen needed bs.
Proof.
  intros Hm Hroom buf Hbuf. unfold serialize_checked. destruct (Z.ltb_spec buflen needed); [done|].
  assert (Hlen : length (take (length bs) buf) = length bs) by (rewrite length_take; unfold zlen in *; lia).
  unfold on_buffer, zoom.
  replace (Cursor buf 0) with (At [] (take (length bs) buf ++ drop (length bs) buf)) by (unfold At; cbn; by rewrite take_drop).
  by rewrite (bind_run _ _ _ _ _ (Hm [] _ _ Hlen)).
Qed.

Lemma writes_header h : in_u8 h → writes (writeChar h) tt [h].
Proof. intros Hh. rewrite <- (u8_id h) at 2 by done. apply writes_char. Qed.
Lemma header_range type dup qos retain : in_u8 (header_byte type dup qos retain).
Proof. unfold in_u8, header_byte. dlia. Qed.
Lemma writes_packet h body (m : M cursor unit) : in_u8 h → zlen body < 2 ^ 31 → writes m tt body →
  writes (writeChar h ;;; write_encoded (zlen body) ;;; m) tt (packet h body).
Proof.
  intros Hh Hn Hm. pose proof (zlen_nonneg body). apply (writes_seq _ [h]); [by apply writes_header|].
  apply writes_seq; [apply writes_encoded; lia|done].
Qed.

Definition publish_body (qos packetid : Z) (t payload : list Z) : list Z :=
  utf t ++ (if 0 <? qos then int2 packetid else []) ++ payload.
Lemma publish_serializes buflen dup qos retained packetid s t src payload :
  stands_for s t → zlen t < 2 ^ 16 → in_u16 packetid → take (length payload) src = payload → Forall in_u8 payload →
  zlen (publish_body qos packetid t payload) < 2 ^ 28 →
  serializes (MQTTSerialize_publish buflen dup qos retained packetid s src (zlen payload)) buflen
    (MQTTPacket_len (zlen (publish_body qos packetid t payload)))
    (packet (header_byte PUBLISH dup qos retained) (publish_body qos packetid t payload)).
Proof.
  intros Hs Ht Hp Hsrc HF Hn. set (body := publish_body qos packetid t payload) in *.
  pose proof (zlen_nonneg t). pose proof (zlen_nonneg payload).
  assert (Hb : zlen body = if 0 <? qos then 2 + zlen t + zlen payload + 2 else 2 + zlen t + zlen payload).
  { unfold body, publish_body, utf. rewrite !zlen_app. destruct (0 <? qos); unfold zlen; cbn; lia. }
  assert (Hrem : MQTTSerialize_publishLength qos s (zlen payload) = Some (zlen body)).
  { unfold MQTTSerialize_publishLength. rewrite (strlen_text _ _ Hs), Hb. rewrite Hb in Hn.
    cbn [mbind option_bind]. cbv zeta. by destruct (0 <? qos); rewrite !s32_small by (rewrite ?s32_small; lia). }
  intros buf Hbuf. unfold MQTTSerialize_publish. rewrite (on_buffer_lift _ _ _ Hrem).
  apply serialize_run; [|by apply packet_room|done].
  apply writes_packet; [apply header_range|lia|]. unfold body, publish_body.
  apply writes_seq; [by apply writes_string|]. apply writes_seq; [apply writes_when; intros _; by apply writes_int|].
  apply writes_memcpy; [done..|]. destruct (0 <? qos); lia.
Qed.

Lemma ack_serializes buflen packettype dup packetid : in_u16 packetid →
  serializes (MQTTSerialize_ack buflen packettype dup packetid) buflen 4
    (packet (header_byte packettype dup (if packettype =? PUBREL then 1 else 0) 0) (int2 packetid)).
Proof.
  intros Hp. apply serialize_run; [|done]. apply (writes_packet _ (int2 packetid)); [apply header_range|done|by apply writes_int].
Qed.
Lemma zero_serializes buflen packettype : serializes (MQTTSerialize_zero buflen packettype) buflen 2 (packet (header_byte packettype 0 0 0) []).
Proof.
  apply serialize_run; [|done]. unfold packet. cbn. apply (writes_seq _ [_]); [apply writes_header, header_range|].
  by apply (writes_encoded 0).
Qed.

(** ** What the readers read back *)

Lemma readChar_run pre c post : readChar (At pre (c :: post)) = Some (c, At (pre ++ [c]) post).
Proof.
  unfold readChar. rewrite (bind_run _ _ _ _ _ (peek_run pre [] c post 0 eq_refl)).
  by rewrite (bind_run _ _ _ _ _ (cursor_advance_run pre [c] post 1 eq_refl)).
Qed.
Lemma readInt_two pre a b post : readInt (At pre (a :: b :: post)) = Some (256 * a + b, At (pre ++ [a; b]) post).
Proof.
  unfold readInt. rewrite (bind_run _ _ _ _ _ (peek_run pre [] a (b :: post) 0 eq_refl)).
  rewrite (bind_run _ _ _ _ _ (peek_run pre [a] b post 1 eq_refl)).
  by rewrite (bind_run _ _ _ _ _ (cursor_advance_run pre [a; b] post 2 eq_refl)).
Qed.
Lemma readInt_run pre n post : readInt (At pre (int2 n ++ post)) = Some (n, At (pre ++ int2 n) post).
Proof. unfold int2. cbn [app]. rewrite readInt_two. do 2 f_equal. dlia. Qed.
Lemma bufchar_run pre c post : bufchar (At pre (c :: post)) = Some ((1, c), At (pre ++ [c]) post).
Proof.
  unfold bufchar. rewrite (bind_run _ _ _ _ _ (peek_run pre [] c post 0 eq_refl)).
  by rewrite (bind_run _ _ _ _ _ (cursor_advance_run pre [c] post 1 eq_refl)).
Qed.

Lemma low_bits c : 0 <= c < 128 → Z.land c 127 = c ∧ Z.land c 128 = 0 ∧ Z.land (c + 128) 127 = c ∧ Z.land (c + 128) 128 ≠ 0.
Proof.
  intros Hc. assert (H : c ∈ seqZ 0 128) by (apply elem_of_seqZ; lia). clear Hc. revert c H.
  apply Forall_forall. vm_compute. repeat (apply Forall_cons; split; [repeat split; done|]). by apply Forall_nil.
Qed.

(** The decoder on the bytes of [n]: at most [g] more of them are allowed. *)
Lemma decode_loop_run : ∀ g fuel fv len mult value n pre post,
  (g < fuel)%nat → (g < fv)%nat → len + Z.of_nat g = 4 → 0 <= n < 128 ^ Z.of_nat fv → (g = O → 0 < n) →
  ∃ s, decode_loop bufchar fuel len mult value (At pre (varint fv n ++ post)) =
    Some (if n <? 128 ^ Z.of_nat g then (len + zlen (varint fv n), value + n * mult) else (5, value + n mod 128 ^ Z.of_nat g * mult), s).
Proof.
  induction g as [|g IH]; intros fuel fv len mult value n pre post Hfuel Hfv Hlen Hn H0;
    (destruct fuel as [|fuel]; [lia|]); (destruct fv as [|fv]; [lia|]); cbn [decode_loop]; unfold MAX_NO_OF_REMAINING_LENGTH_BYTES; cbv zeta.
  - destruct (Z.ltb_spec 4 (len + 1)); [|lia]. specialize (H0 eq_refl). change (128 ^ Z.of_nat 0) with 1.
    destruct (Z.ltb_spec n 1); [lia|].
    rewrite Z.mod_1_r. eexists. unfold ret. do 2 f_equal. f_equal; lia.
  - destruct (Z.ltb_spec 4 (len + 1)); [lia|]. rewrite Nat2Z.inj_succ, Z.pow_succ_r in Hn by lia.
    rewrite (Nat2Z.inj_succ g), Z.pow_succ_r by lia. assert (0 < 128 ^ Z.of_nat g) by (apply Z.pow_pos_nonneg; lia).
    destruct (Z.ltb_spec n 128) as [Hlast|Hmore].
    + rewrite varint_last by done. cbn [app]. rewrite (bind_run _ _ _ _ _ (bufchar_run pre n post)). cbn [negb Z.eqb Pos.eqb].
      destruct (low_bits n ltac:(lia)) as (-> & -> & _). cbn. destruct (Z.ltb_spec n (128 * 128 ^ Z.of_nat g)); [|nia].
      eexists. done.
    + rewrite varint_step by done. cbn [app]. rewrite (bind_run _ _ _ _ _ (bufchar_run pre _ _)). cbn [negb Z.eqb Pos.eqb].
      destruct (low_bits (n mod 128) ltac:(dlia)) as (_ & _ & -> & Hbit%Z.eqb_neq). rewrite Hbit. cbn [negb].
      destruct (IH fuel fv (len + 1) (mult * 128) (value + n mod 128 * mult) (n / 128) (pre ++ [n mod 128 + 128]) post
        ltac:(lia) ltac:(lia) ltac:(lia) ltac:(dlia) ltac:(dlia)) as (s & ->).
      exists s. do 2 f_equal. pose proof (Z.div_mod n 128 ltac:(lia)). pose proof (Z.mod_pos_bound n 128 ltac:(lia)).
      destruct (Z.ltb_spec (n / 128) (128 ^ Z.of_nat g)), (Z.ltb_spec n (128 * 128 ^ Z.of_nat g)); [|exfalso; lia..|].
      * f_equal; [rewrite zlen_cons; lia|nia].
      * f_equal. rewrite Z.rem_mul_r by lia. nia.
Qed.
Lemma decodeBuf_run pre n post : 0 <= n < 2 ^ 31 →
  MQTTPacket_decodeBuf (At pre (varint 5 n ++ post)) =
  Some (if n <? 2 ^ 28 then (zlen (varint 5 n), n) else (5, n mod 2 ^ 28), At pre (varint 5 n ++ post)).
Proof.
  intros Hn. unfold MQTTPacket_decodeBuf, MQTTPacket_decode, zoom. cbv beta.
  destruct (decode_loop_run 4 5 5 0 1 0 n pre post ltac:(lia) ltac:(lia) eq_refl ltac:(cbn; lia) ltac:(done)) as (s & E).
  unfold Datatypes.id. rewrite E. change (128 ^ Z.of_nat 4) with (2 ^ 28). destruct (n <? 2 ^ 28); do 2 f_equal; f_equal; lia.
Qed.

Lemma readString_run pre t post s enddata : zlen pre + 2 + zlen t <= enddata →
  readMQTTLenString s enddata (At pre (utf t ++ post)) =
  Some ((1, mkString None (mkLenString (zlen t) (Some (t ++ post)))), At (pre ++ utf t) post).
Proof.
  intros He. pose proof (zlen_nonneg t). unfold readMQTTLenString, utf. rewrite <- app_assoc.
  unfold bind at 1, get at 1. cbn [c_ptr At]. destruct (Z.ltb_spec 1 (enddata - zlen pre)); [|lia].
  rewrite (bind_run _ _ _ _ _ (readInt_run pre (zlen t) (t ++ post))). unfold bind at 1, get at 1, Datatypes.id. cbn [c_ptr c_buf At].
  rewrite zlen_app. change (zlen (int2 (zlen t))) with 2. destruct (Z.leb_spec (zlen pre + 2 + zlen t) enddata); [|lia].
  rewrite (bind_run _ _ _ _ _ (cursor_advance_run _ t post _ eq_refl)). unfold ret. rewrite <- !(app_assoc pre).
  do 6 f_equal. rewrite (app_assoc pre). unfold zlen. by rewrite <- (Nat2Z.inj_add _ 2), Nat2Z.id, drop_app_length' by (rewrite length_app; done).
Qed.
Lemma read_stands_for t post : Forall in_u8 t → stands_for (mkString None (mkLenString (zlen t) (Some (t ++ post)))) t.
Proof. intros HF. constructor; [done|by rewrite take_app_length|done]. Qed.
Lemma stands_bytes s t : stands_for s t → Forall in_u8 t.
Proof. by destruct 1. Qed.

Lemma header_fields type dup qos retain : 0 <= type < 16 → 0 <= dup < 2 → 0 <= qos < 4 → 0 <= retain < 2 →
  let h := header_byte type dup qos retain in header_type h = type ∧ header_dup h = dup ∧ header_qos h = qos ∧ header_retain h = retain.
Proof. unfold header_byte, header_type, header_dup, header_qos, header_retain. cbv zeta. intros. repeat split; dlia. Qed.

Lemma drop_zlen (pre post : list Z) : drop (Z.to_nat (zlen pre)) (pre ++ post) = post.
Proof. unfold zlen. by rewrite Nat2Z.id, drop_app_length. Qed.
Lemma utf_length t : zlen (utf t) = 2 + zlen t.
Proof. unfold utf. by rewrite zlen_app. Qed.

(** The length of a packet, after its header. *)
Lemma read_length_run pre body rest : zlen body < 2 ^ 28 →
  MQTTPacket_decodeBuf (At pre (varint 5 (zlen body) ++ body ++ rest)) =
  Some ((zlen (varint 5 (zlen body)), zlen body), At pre (varint 5 (zlen body) ++ body ++ rest)).
Proof.
  intros Hn. pose proof (zlen_nonneg body). rewrite decodeBuf_run by lia. by destruct (Z.ltb_spec (zlen body) (2 ^ 28)); [|lia].
Qed.
Ltac read_header := unfold packet; rewrite ?app_comm_cons; cbn [app]; rewrite <- ?(app_assoc (varint _ _));
  match goal with |- context [readChar] => rewrite (bind_run _ _ _ _ _ (readChar_run [] _ _)) end; cbn [app].
Ltac read_length := rewrite (bind_run _ _ _ _ _ (read_length_run _ _ _ ltac:(eassumption)));
  cbv beta iota; rewrite (bind_run _ _ _ _ _ (cursor_advance_run _ _ _ _ eq_refl)).
Ltac read_pointer := unfold bind at 1, get at 1; cbn [c_ptr c_buf At Datatypes.id].

Lemma publish_reads dup qos retained packetid t payload out rest :
  0 <= dup < 2 → 0 <= qos < 4 → 0 <= retained < 2 → zlen (publish_body qos packetid t payload) < 2 ^ 28 →
  MQTTDeserialize_publish out (packet (header_byte PUBLISH dup qos retained) (publish_body qos packetid t payload) ++ rest) =
  Some (1, mkPublish dup qos retained (if 0 <? qos then packetid else p_packetid out)
    (mkString None (mkLenString (zlen t) (Some (t ++ (if 0 <? qos then int2 packetid else []) ++ payload ++ rest))))
    (payload ++ rest) (zlen payload)).
Proof.
  intros Hd Hq Hr Hn. set (h := header_byte PUBLISH dup qos retained).
  destruct (header_fields PUBLISH dup qos retained ltac:(done) Hd Hq Hr) as (Et & Ed & Eq & Er). fold h in Et, Ed, Eq, Er.
  unfold MQTTDeserialize_publish, from_buffer. change (Cursor ?b 0) with (At [] b). unfold read_publish.
  read_header. rewrite Et. cbn [negb Z.eqb PUBLISH Pos.eqb]. read_length. read_pointer.
  set (pre := [h] ++ varint 5 _). unfold publish_body. rewrite <- !(app_assoc (utf t)), <- !app_assoc.
  set (ids := if 0 <? qos then int2 packetid else []) in *.
  pose proof (zlen_nonneg ids). pose proof (zlen_nonneg payload).
  erewrite bind_run by (apply readString_run; rewrite !zlen_app, utf_length; lia). cbv beta iota.
  read_pointer. rewrite !zlen_app, utf_length, Ed, Eq, Er. cbn [Z.eqb orb].
  destruct (Z.ltb_spec (zlen pre + (2 + zlen t + (zlen ids + zlen payload)) - (zlen pre + (2 + zlen t))) 0); [lia|].
  assert (Hid : (if 0 <? qos then readInt else ret (p_packetid out)) (At (pre ++ utf t) (ids ++ payload ++ rest)) =
    Some (if 0 <? qos then packetid else p_packetid out, At ((pre ++ utf t) ++ ids) (payload ++ rest))).
  { unfold ids. destruct (0 <? qos); [apply readInt_run|]. cbn [app]. by rewrite app_nil_r. }
  rewrite (bind_run _ _ _ _ _ Hid). read_pointer. cbn [fst fmap option_fmap option_map ret].
  rewrite drop_zlen, !zlen_app, utf_length. do 3 f_equal. lia.
Qed.

(** *** CONNECT *)

(** The texts of the five strings of [connectData]. *)
Record connect_texts := mkTexts { t_id : list Z; t_topic : list Z; t_message : list Z; t_user : list Z; t_pass : list Z }.
Definition short_text (s : MQTTString) (t : list Z) : Prop := stands_for s t ∧ zlen t < 2 ^ 16.
Record has_texts (o : connectData) (x : connect_texts) : Prop := {
  has_id : short_text (clientID o) (t_id x);
  has_topic : short_text (w_topicName (will o)) (t_topic x);
  has_message : short_text (w_message (will o)) (t_message x);
  has_user : short_text (username o) (t_user x);
  has_pass : short_text (password o) (t_pass x) }.

Definition wants_will (o : connectData) : bool := negb (willFlag o =? 0).
Definition protocol_bytes (o : connectData) : list Z :=
  if MQTTVersion o =? 4 then utf (bytes "MQTT") ++ [4] else utf (bytes "MQIsdp") ++ [3].
Definition flags_of (o : connectData) : Z :=
  connect_flags (cleansession o) (b2z (wants_will o)) (if wants_will o then w_qos (will o) else 0)
    (if wants_will o then w_retained (will o) else 0) (b2z (supplied (password o))) (b2z (supplied (username o))).
Definition credential_bytes (o : connectData) (x : connect_texts) : list Z :=
  (if supplied (username o) then utf (t_user x) else []) ++ (if supplied (password o) then utf (t_pass x) else []).
Definition will_bytes (o : connectData) (x : connect_texts) : list Z :=
  if wants_will o then utf (t_topic x) ++ utf (t_message x) else [].
Definition connect_body (o : connectData) (x : connect_texts) : list Z :=
  protocol_bytes o ++ [flags_of o] ++ int2 (keepAliveInterval o) ++ utf (t_id x) ++ will_bytes o x ++ credential_bytes o x.

Lemma flags_range o : in_u8 (flags_of o).
Proof. unfold in_u8, flags_of, connect_flags. dlia. Qed.

Lemma connect_body_short o x : has_texts o x → zlen (connect_body o x) < 2 ^ 28.
Proof.
  intros [[? ?] [? ?] [? ?] [? ?] [? ?]]. unfold connect_body, will_bytes, credential_bytes, protocol_bytes. rewrite !zlen_app.
  destruct (_ =? 4), (wants_will o), (supplied (username o)), (supplied (password o)); rewrite ?zlen_app, ?utf_length; unfold zlen in *; cbn; lia.
Qed.
Lemma connect_length o x : MQTTVersion o = 3 ∨ MQTTVersion o = 4 → has_texts o x →
  MQTTSerialize_connectLength o = Some (zlen (connect_body o x)).
Proof.
  intros Hv [[Hi Li] [Ht Lt] [Hm Lm] [Hu Lu] [Hp Lp]]. unfold MQTTSerialize_connectLength, connect_body, will_bytes, credential_bytes.
  pose proof (zlen_nonneg (t_id x)). pose proof (zlen_nonneg (t_topic x)). pose proof (zlen_nonneg (t_message x)).
  pose proof (zlen_nonneg (t_user x)). pose proof (zlen_nonneg (t_pass x)).
  assert (Hpr : (if MQTTVersion o =? 3 then 12 else if MQTTVersion o =? 4 then 10 else 0) = zlen (protocol_bytes o) + 3).
  { unfold protocol_bytes. by destruct Hv as [-> | ->]. }
  rewrite Hpr, (strlen_text _ _ Hi), (strlen_text _ _ Ht), (strlen_text _ _ Hm), (strlen_text _ _ Hu), (strlen_text _ _ Hp).
  assert (0 <= zlen (protocol_bytes o) <= 9) by (unfold protocol_bytes; destruct Hv as [-> | ->]; vm_compute; split; congruence).
  rewrite !zlen_app. change (zlen [flags_of o]) with 1. change (zlen (int2 (keepAliveInterval o))) with 2. fold (wants_will o).
  cbn [mbind option_bind]. cbv zeta.
  destruct (wants_will o), (supplied (username o)), (supplied (password o)); cbn [mbind option_bind];
    rewrite ?zlen_app, ?utf_length; change (zlen (@nil Z)) with 0;
    no_wrap; f_equal; lia.
Qed.

Lemma connect_serializes buflen o x : MQTTVersion o = 3 ∨ MQTTVersion o = 4 → has_texts o x → in_u16 (keepAliveInterval o) →
  serializes (MQTTSerialize_connect buflen o) buflen (MQTTPacket_len (zlen (connect_body o x))) (packet (header_byte CONNECT 0 0 0) (connect_body o x)).
Proof.
  intros Hv Hx Hk. intros buf Hbuf. unfold MQTTSerialize_connect. rewrite (on_buffer_lift _ _ _ (connect_length o x Hv Hx)).
  pose proof (connect_body_short o x Hx) as Hn.
  apply serialize_run; [|by apply packet_room|done].
  apply writes_packet; [apply header_range|lia|]. unfold connect_body.
  destruct Hx as [[? ?] [? ?] [? ?] [? ?] [? ?]].
  apply writes_seq.
  { unfold protocol_bytes. destruct (MQTTVersion o =? 4); (apply writes_seq; [apply writes_cstring; [done|forall_u8|done]|by apply (writes_header)]). }
  cbv zeta. fold (wants_will o). apply (writes_seq _ [_]); [apply (writes_header (flags_of o)), flags_range|].
  apply writes_seq; [by apply writes_int|]. apply writes_seq; [by apply writes_string|].
  apply writes_seq; [apply writes_when; intros _; apply writes_seq; by apply writes_string|].
  apply writes_seq; apply writes_when; intros _; by apply writes_string.
Qed.

Lemma flag_fields cs w wq wr pw un : 0 <= cs < 2 → 0 <= w < 2 → 0 <= wq < 4 → 0 <= wr < 2 → 0 <= pw < 2 → 0 <= un < 2 →
  let f := connect_flags cs w wq wr pw un in
  flag_cleansession f = cs ∧ flag_will f = w ∧ flag_willQoS f = wq ∧ flag_willRetain f = wr ∧ flag_password f = pw ∧ flag_username f = un.
Proof.
  unfold connect_flags, flag_cleansession, flag_will, flag_willQoS, flag_willRetain, flag_password, flag_username. cbv zeta.
  intros. rewrite (Z.mod_small cs), (Z.mod_small w), (Z.mod_small wq), (Z.mod_small wr), (Z.mod_small pw), (Z.mod_small un) by lia.
  repeat split; dlia.
Qed.
Lemma b2z_range b : 0 <= b2z b < 2.
Proof. destruct b; cbn; lia. Qed.
Lemma b2z_true b : negb (b2z b =? 0) = b.
Proof. by destruct b. Qed.

Lemma memcmp_prefix name rest : memcmp_eq (length name) (name ++ rest) name = Some true.
Proof. induction name as [|c name IH]; [done|]. cbn. by rewrite Z.eqb_refl. Qed.
Lemma same_name_run name rest : zlen name < 2 ^ 31 → same_name (mkString None (mkLenString (zlen name) (Some (name ++ rest)))) name = Some true.
Proof.
  intros Hn. pose proof (zlen_nonneg name). unfold same_name. cbn. rewrite Z.min_id, u32_id by (unfold in_u32; lia).
  replace (Z.to_nat (zlen name)) with (length name) by (unfold zlen; lia). apply memcmp_prefix.
Qed.

(** What a session is asked for with: what the two sides must agree on. *)
Record same_request (o : connectData) (x : connect_texts) (r : connectData) : Prop := {
  same_keep : keepAliveInterval r = keepAliveInterval o;
  same_clean : cleansession r = cleansession o;
  same_id : stands_for (clientID r) (t_id x);
  same_flag : willFlag r = b2z (wants_will o);
  same_will : wants_will o = true → w_qos (will r) = w_qos (will o) ∧ w_retained (will r) = w_retained (will o) ∧
    stands_for (w_topicName (will r)) (t_topic x) ∧ stands_for (w_message (will r)) (t_message x);
  same_user : supplied (username o) = true → stands_for (username r) (t_user x);
  same_pass : supplied (password o) = true → stands_for (password r) (t_pass x) }.

(** What the reader accepts: flags within their fields, a password only with a
    user name, and neither of them empty. *)
Record acceptable (o : connectData) (x : connect_texts) : Prop := {
  acc_version : MQTTVersion o = 3 ∨ MQTTVersion o = 4;
  acc_texts : has_texts o x;
  acc_keep : in_u16 (keepAliveInterval o);
  acc_clean : 0 <= cleansession o < 2;
  acc_qos : 0 <= w_qos (will o) < 4;
  acc_retained : 0 <= w_retained (will o) < 2;
  acc_pass : supplied (password o) = true → supplied (username o) = true ∧ t_pass x ≠ [];
  acc_user : supplied (username o) = true → t_user x ≠ [] }.

Lemma flags_of_fields o x : acceptable o x →
  flag_cleansession (flags_of o) = cleansession o ∧ flag_will (flags_of o) = b2z (wants_will o) ∧
  (wants_will o = true → flag_willQoS (flags_of o) = w_qos (will o) ∧ flag_willRetain (flags_of o) = w_retained (will o)) ∧
  flag_password (flags_of o) = b2z (supplied (password o)) ∧ flag_username (flags_of o) = b2z (supplied (username o)).
Proof.
  intros []. unfold flags_of.
  destruct (flag_fields (cleansession o) (b2z (wants_will o)) (if wants_will o then w_qos (will o) else 0)
    (if wants_will o then w_retained (will o) else 0) (b2z (supplied (password o))) (b2z (supplied (username o))))
    as (-> & -> & E1 & E2 & -> & ->); try apply b2z_range; try done; try by destruct (wants_will o).
Qed.

Lemma nonempty_length (t : list Z) : t ≠ [] → 1 <= zlen t.
Proof. destruct t; [done|]. unfold zlen. cbn. lia. Qed.
(** Read a string that lies inside the packet. *)
Ltac read_text := erewrite bind_run by (apply readString_run; rewrite ?zlen_app, ?utf_length; lia); cbv beta iota; cbn [or_exit Z.eqb].
Ltac at_end := match goal with |- context [?a <? 3] => destruct (Z.ltb_spec a 3); [exfalso; rewrite ?zlen_app, ?utf_length in *; lia|] end.

Lemma read_credentials_run o x r pre rest : acceptable o x →
  ∃ r' s, read_credentials (flags_of o) (zlen pre + zlen (credential_bytes o x)) r (At pre (credential_bytes o x ++ rest)) = Some ((1, r'), s) ∧
    keepAliveInterval r' = keepAliveInterval r ∧ cleansession r' = cleansession r ∧ clientID r' = clientID r ∧
    willFlag r' = willFlag r ∧ will r' = will r ∧
    (supplied (username o) = true → stands_for (username r') (t_user x)) ∧
    (supplied (password o) = true → stands_for (password r') (t_pass x)).
Proof.
  intros Ha. destruct (flags_of_fields o x Ha) as (_ & _ & _ & Ep & Eu).
  destruct Ha as [_ [_ _ _ [Hu _] [Hp _]] _ _ _ _ Hpass Huser].
  unfold read_credentials, credential_bytes. rewrite Ep, Eu, !b2z_true.
  pose proof (zlen_nonneg (t_user x)). pose proof (zlen_nonneg (t_pass x)).
  destruct (supplied (username o)), (supplied (password o)); cbn [app]; try (by destruct (Hpass eq_refl)).
  - pose proof (nonempty_length _ (Huser eq_refl)). destruct (Hpass eq_refl) as [_ ?%nonempty_length].
    rewrite <- app_assoc. read_pointer. at_end. read_text. read_pointer. at_end. read_text.
    eexists _, _. split; [done|]. repeat split; try done; intros _; by eapply read_stands_for, stands_bytes.
  - pose proof (nonempty_length _ (Huser eq_refl)). rewrite app_nil_r. read_pointer. at_end. read_text.
    eexists _, _. split; [done|]. repeat split; try done; intros _; by eapply read_stands_for, stands_bytes.
  - by eexists _, _.
Qed.

Lemma protocol_known o rest : MQTTVersion o = 3 ∨ MQTTVersion o = 4 → ∃ name, zlen name <= 6 ∧
  protocol_bytes o = utf name ++ [MQTTVersion o] ∧
  MQTTPacket_checkVersion (mkString None (mkLenString (zlen name) (Some (name ++ rest)))) (MQTTVersion o) = Some true.
Proof.
  intros [E|E]; unfold protocol_bytes; rewrite E; cbn [Z.eqb Pos.eqb].
  - exists (bytes "MQIsdp"). split; [done|]. split; [done|]. unfold MQTTPacket_checkVersion. cbn [Z.eqb Pos.eqb].
    by rewrite (same_name_run (bytes "MQIsdp")).
  - exists (bytes "MQTT"). split; [done|]. split; [done|]. unfold MQTTPacket_checkVersion. cbn [Z.eqb Pos.eqb mbind option_bind].
    by rewrite (same_name_run (bytes "MQTT")).
Qed.

Lemma will_and_credentials_run o x r e pre rest : acceptable o x →
  keepAliveInterval r = keepAliveInterval o → cleansession r = cleansession o → stands_for (clientID r) (t_id x) →
  willFlag r = b2z (wants_will o) → e = zlen pre + zlen (will_bytes o x) + zlen (credential_bytes o x) →
  ∃ r' s, (if negb (b2z (wants_will o) =? 0) then
      let w := will r in
      let w := mkWill (w_topicName w) (w_message w) (flag_willRetain (flags_of o)) (flag_willQoS (flags_of o)) in
      let! t := readMQTTLenString (w_topicName w) e in
      or_exit r t (λ s, set_will r (mkWill s (w_message w) (w_retained w) (w_qos w))) (λ o',
      let w := will o' in
      let! t := readMQTTLenString (w_message w) e in
      or_exit o' t (λ s, set_will o' (mkWill (w_topicName w) s (w_retained w) (w_qos w))) (read_credentials (flags_of o) e))
    else read_credentials (flags_of o) e r) (At pre (will_bytes o x ++ credential_bytes o x ++ rest)) = Some ((1, r'), s) ∧ same_request o x r'.
Proof.
  intros Ha Hk Hc Hi Hw He. destruct (flags_of_fields o x Ha) as (_ & _ & Efw & _ & _). rewrite b2z_true.
  pose proof (zlen_nonneg (credential_bytes o x)). pose proof (zlen_nonneg (t_topic x)). pose proof (zlen_nonneg (t_message x)).
  unfold will_bytes in *. destruct (wants_will o) eqn:Ew; cbv zeta.
  - destruct (Efw eq_refl) as [Eq Er]. rewrite zlen_app, !utf_length in He. rewrite <- app_assoc. read_text.
    cbn [will set_will w_topicName w_message w_retained w_qos]. read_text.
    assert (e = zlen ((pre ++ utf (t_topic x)) ++ utf (t_message x)) + zlen (credential_bytes o x)) as ->.
    { rewrite !zlen_app, !utf_length. lia. }
    match goal with |- ∃ _ _, read_credentials _ _ ?r0 _ = _ ∧ _ =>
      destruct (read_credentials_run o x r0 ((pre ++ utf (t_topic x)) ++ utf (t_message x)) rest Ha)
        as (r' & s & -> & E1 & E2 & E3 & E4 & E5 & E6 & E7) end.
    eexists _, _. split; [done|]. destruct Ha as [_ [_ [Ht _] [Hm _] _ _] _ _ _ _ _ _].
    constructor; rewrite ?E1, ?E2, ?E3, ?E4, ?E5, ?Ew; cbn; try done. intros _.
    rewrite Eq, Er. repeat split; try done; by eapply read_stands_for, stands_bytes.
  - cbn [app]. change (zlen (@nil Z)) with 0 in He. assert (e = zlen pre + zlen (credential_bytes o x)) as -> by lia.
    destruct (read_credentials_run o x r pre rest Ha) as (r' & s & -> & E1 & E2 & E3 & E4 & E5 & E6 & E7).
    eexists _, _. split; [done|]. constructor; rewrite ?E1, ?E2, ?E3, ?E4, ?E5, ?Ew; try done.
Qed.

Lemma connect_reads o x out rest : acceptable o x →
  let p := packet (header_byte CONNECT 0 0 0) (connect_body o x) in
  ∃ r, MQTTDeserialize_connect out (p ++ rest) (zlen p) = Some (1, r) ∧ same_request o x r.
Proof.
  intros Ha. cbv zeta. set (h := header_byte CONNECT 0 0 0).
  pose proof (zlen_nonneg (will_bytes o x)). pose proof (zlen_nonneg (credential_bytes o x)). pose proof (zlen_nonneg (t_id x)).
  pose proof (connect_body_short o x (acc_texts _ _ Ha)) as Hn.
  set (e := zlen (packet h (connect_body o x))). set (v := varint 5 (zlen (connect_body o x))).
  assert (He : e = zlen (h :: v) + zlen (connect_body o x)) by (unfold e, packet; rewrite !zlen_cons, zlen_app; fold v; lia).
  unfold MQTTDeserialize_connect, from_buffer. change (Cursor ?b 0) with (At [] b). clearbody e. unfold read_connect. cbv zeta.
  read_header. change (header_type h) with CONNECT. cbn [negb Z.eqb CONNECT Pos.eqb]. read_length. cbn [app]. fold v.
  revert He. generalize (h :: v). intros pre He. clear v h.
  destruct (flags_of_fields o x Ha) as (Efc & Efw & _ & _ & _).
  unfold connect_body in *. rewrite <- !app_assoc. set (tail := will_bytes o x ++ credential_bytes o x ++ rest).
  set (after := [flags_of o] ++ int2 (keepAliveInterval o) ++ utf (t_id x) ++ tail).
  destruct (protocol_known o ([MQTTVersion o] ++ after) (acc_version _ _ Ha)) as (name & Hname & Epr & Hcheck).
  rewrite Epr in He |- *. rewrite <- !app_assoc. rewrite !zlen_app, !utf_length in He. change (zlen (int2 (keepAliveInterval o))) with 2 in He.
  change (zlen [MQTTVersion o]) with 1 in He. change (zlen [flags_of o]) with 1 in He. pose proof (zlen_nonneg name).
  read_text. read_pointer. cbn [Z.eqb orb]. rewrite zlen_app, utf_length.
  match goal with |- context [?a <? 0] => destruct (Z.ltb_spec a 0); [lia|] end.
  cbn [app]. rewrite (bind_run _ _ _ _ _ (readChar_run _ _ _)).
  rewrite (bind_run _ _ _ _ _ (lift_run _ _ _ Hcheck)). cbn [negb]. unfold after. cbn [app].
  rewrite (bind_run _ _ _ _ _ (readChar_run _ _ _)). rewrite (bind_run _ _ _ _ _ (readInt_run _ _ _)).
  rewrite Efc, Efw. erewrite bind_run by (apply readString_run; rewrite !zlen_app, utf_length; unfold zlen in *; cbn in *; lia).
  cbv beta iota. cbn [or_exit Z.eqb]. unfold tail.
  match goal with |- context [At ?q (will_bytes o x ++ _)] => set (pre' := q) end.
  destruct (will_and_credentials_run o x (set_willFlag (set_clientID (set_session out (cleansession o) (keepAliveInterval o))
    (mkString None (mkLenString (zlen (t_id x)) (Some (t_id x ++ will_bytes o x ++ credential_bytes o x ++ rest))))) (b2z (wants_will o)))
    e pre' rest Ha) as (r & s & E & Hr); try done.
  { apply read_stands_for. destruct Ha as [_ [[? _] _ _ _ _] _ _ _ _ _ _]. by eapply stands_bytes. }
  { unfold pre'. rewrite !zlen_app, !utf_length. unfold zlen in *. cbn in *. lia. }
  cbv zeta in E. rewrite E. by exists r.
Qed.

(** *** SUBSCRIBE *)

Definition filter_bytes (f : list Z * Z) : list Z := utf f.1 ++ [f.2].
Definition subscribe_body (packetid : Z) (fs : list (list Z * Z)) : list Z := int2 packetid ++ concat (filter_bytes <$> fs).

Lemma writes_for (body : Z → M cursor unit) : ∀ (bss : list (list Z)) i,
  (∀ k bs, bss !! k = Some bs → writes (body (i + Z.of_nat k)) tt bs) → writes (for_proc i (length bss) body) tt (concat bss).
Proof.
  induction bss as [|bs bss IH]; intros i Hb; cbn [length for_proc concat]; [apply writes_ret|].
  apply writes_seq; [rewrite <- (Z.add_0_r i); by apply (Hb O)|]. apply IH. intros k bs' Hk.
  replace (i + 1 + Z.of_nat k) with (i + Z.of_nat (Datatypes.S k)) by lia. by apply Hb.
Qed.

(** The arguments of [MQTTSerialize_subscribe] stand for filters and their QoS. *)
Definition filters_stand (topicFilters : list MQTTString) (requestedQoSs : list Z) (fs : list (list Z * Z)) : Prop :=
  ∀ k f, fs !! k = Some f → (∃ s, topicFilters !! k = Some s ∧ short_text s f.1) ∧ requestedQoSs !! k = Some f.2 ∧ in_u8 f.2.

Lemma filters_length_run topicFilters requestedQoSs : ∀ fs i len0, filters_stand (drop i topicFilters) (drop i requestedQoSs) fs →
  0 <= len0 → len0 + zlen (concat (filter_bytes <$> fs)) < 2 ^ 31 →
  filters_length 1 (Z.of_nat i) (length fs) topicFilters len0 = Some (len0 + zlen (concat (filter_bytes <$> fs))).
Proof.
  induction fs as [|f fs IH]; intros i len0 Hfs H0 Hn; [cbn; by rewrite Z.add_0_r|].
  destruct (Hfs O f eq_refl) as ((s & Hs & [Hst _]) & _ & _). rewrite lookup_drop, Nat.add_0_r in Hs.
  cbn [length filters_length fmap list_fmap concat] in *. rewrite rd_lookup, Hs. cbn [mbind option_bind]. rewrite (strlen_text _ _ Hst). cbn [mbind option_bind].
  pose proof (zlen_nonneg f.1). pose proof (zlen_nonneg (concat (filter_bytes <$> fs))).
  assert (E : zlen (filter_bytes f) = 2 + zlen f.1 + 1) by (unfold filter_bytes; by rewrite zlen_app, utf_length).
  rewrite zlen_app, E in Hn |- *. rewrite s32_small by lia. replace (Z.of_nat i + 1) with (Z.of_nat (Datatypes.S i)) by lia.
  rewrite IH; [f_equal; lia| |lia|lia]. intros k f' Hk. destruct (Hfs (Datatypes.S k) f' Hk) as ((s' & Hs' & Hst') & Hq & Hu).
  rewrite lookup_drop in Hs'. rewrite lookup_drop in Hq. rewrite !lookup_drop, !Nat.add_succ_l, <- !Nat.add_succ_r. eauto.
Qed.

Lemma subscribe_serializes buflen dup packetid topicFilters requestedQoSs fs :
  filters_stand topicFilters requestedQoSs fs → in_u16 packetid → zlen (subscribe_body packetid fs) < 2 ^ 28 →
  serializes (MQTTSerialize_subscribe buflen dup packetid (zlen fs) topicFilters requestedQoSs) buflen
    (MQTTPacket_len (zlen (subscribe_body packetid fs))) (packet (header_byte SUBSCRIBE dup 1 0) (subscribe_body packetid fs)).
Proof.
  intros Hfs Hp Hn. assert (Hc : Z.to_nat (zlen fs) = length fs) by (unfold zlen; lia).
  assert (Hlen : MQTTSerialize_subscribeLength (zlen fs) topicFilters = Some (zlen (subscribe_body packetid fs))).
  { unfold MQTTSerialize_subscribeLength. rewrite Hc. unfold subscribe_body in *. rewrite zlen_app in *. change (zlen (int2 packetid)) with 2 in *.
    rewrite (filters_length_run _ requestedQoSs fs 0 2); (done || lia). }
  intros buf Hbuf. unfold MQTTSerialize_subscribe. rewrite (on_buffer_lift _ _ _ Hlen), Hc.
  apply serialize_run; [|by apply packet_room|done]. apply writes_packet; [apply header_range|lia|]. unfold subscribe_body.
  apply writes_seq; [by apply writes_int|]. replace (length fs) with (length (filter_bytes <$> fs)) by apply length_fmap.
  apply writes_for. intros k bs Hk. rewrite list_lookup_fmap in Hk. destruct (fs !! k) as [f|] eqn:Ef; [|done]. injection Hk as <-.
  destruct (Hfs k f Ef) as ((s & Hs & [Hst Hlt]) & Hq & Hu). rewrite Z.add_0_l, !rd_lookup, Hs, Hq.
  apply (writes_lift_bind _ s); [done|]. apply writes_seq; [by apply writes_string|]. apply (writes_lift_bind _ f.2); [done|]. by apply writes_header.
Qed.

Lemma filters_room fs : zlen fs <= zlen (concat (filter_bytes <$> fs)).
Proof.
  induction fs as [|f fs IH]; [done|]. cbn [fmap list_fmap concat]. rewrite zlen_cons, zlen_app. unfold filter_bytes at 1.
  rewrite zlen_app, utf_length. pose proof (zlen_nonneg f.1). unfold zlen in *. cbn in *. lia.
Qed.
Lemma read_filters_run e rc : ∀ fs fuel k pre out rest, (length fs < fuel)%nat →
  b_count out = Z.of_nat k → (k + length fs <= length (b_topicFilters out))%nat → (k + length fs <= length (b_requestedQoSs out))%nat →
  Forall (λ f, Forall in_u8 f.1) fs → e = zlen pre + zlen (concat (filter_bytes <$> fs)) →
  ∃ tf qs s, read_filters fuel true rc e out (At pre (concat (filter_bytes <$> fs) ++ rest)) =
      Some ((1, mkSubscribe (b_dup out) (b_packetid out) (b_count out + zlen fs) tf qs), s) ∧
    take k tf = take k (b_topicFilters out) ∧ take k qs = take k (b_requestedQoSs out) ∧
    Forall2 stands_for (take (length fs) (drop k tf)) fs.*1 ∧ take (length fs) (drop k qs) = fs.*2.
Proof.
  induction fs as [|f fs IH]; intros fuel k pre out rest Hfuel Hk Ht Hq HF He; (destruct fuel as [|fuel]; [lia|]); cbn [read_filters]; read_pointer.
  - cbn in He. destruct (Z.ltb_spec (zlen pre) e); [unfold zlen in *; cbn in *; lia|]. destruct out as [d p c tf qs]. cbn in *.
    rewrite Z.add_0_r. exists tf, qs. eexists. repeat split; by rewrite ?take_0.
  - pose proof (zlen_nonneg (concat (filter_bytes <$> fs))). pose proof (zlen_nonneg f.1).
    cbn [fmap list_fmap concat] in He |- *. unfold filter_bytes at 1 in He. rewrite !zlen_app, utf_length in He. change (zlen [f.2]) with 1 in He.
    destruct (Z.ltb_spec (zlen pre) e); [|lia]. cbn [length] in *. apply Forall_cons in HF as [Hf HF].
    destruct (lookup_lt_is_Some_2 (b_topicFilters out) k ltac:(lia)) as [s0 Hs0].
    assert (Hrd : rd (b_topicFilters out) (b_count out) = Some s0) by (by rewrite Hk, rd_lookup).
    rewrite (bind_run _ _ _ _ _ (lift_run _ _ _ Hrd)), Hk. clear Hrd.
    unfold filter_bytes at 1. rewrite <- !app_assoc. read_text.
    rewrite (bind_run _ _ _ _ _ (lift_run _ _ _ (wr_Some (b_topicFilters out) (Z.of_nat k) _ ltac:(lia)))). cbv beta iota. cbn [b_requestedQoSs b_topicFilters b_count b_dup b_packetid].
    read_pointer. rewrite zlen_app, utf_length. destruct (Z.leb_spec e (zlen pre + (2 + zlen f.1))); [lia|]. cbn [app].
    rewrite (bind_run _ _ _ _ _ (readChar_run _ f.2 _)).
    rewrite (bind_run _ _ _ _ _ (lift_run _ _ _ (wr_Some (b_requestedQoSs out) (Z.of_nat k) _ ltac:(lia)))). rewrite Nat2Z.id.
    match goal with |- ∃ _ _ _, read_filters _ _ _ _ ?o (At ?q _) = _ ∧ _ => destruct (IH fuel (Datatypes.S k) q o rest) as (tf & qs & s & -> & E1 & E2 & E3 & E4) end;
      cbn [b_count b_topicFilters b_requestedQoSs b_dup b_packetid]; rewrite ?length_insert; try lia; try done.
    { rewrite !zlen_app, utf_length. change (zlen [f.2]) with 1. lia. }
    cbn [b_topicFilters b_requestedQoSs] in E1, E2. exists tf, qs, s.
    assert (Htf : tf !! k = Some (mkString None (mkLenString (zlen f.1) (Some (f.1 ++ [f.2] ++ concat (filter_bytes <$> fs) ++ rest))))).
    { rewrite <- (lookup_take_lt tf (Datatypes.S k)), E1, lookup_take_lt, list_lookup_insert_eq by lia. done. }
    assert (Hqs : qs !! k = Some f.2) by (rewrite <- (lookup_take_lt qs (Datatypes.S k)), E2, lookup_take_lt, list_lookup_insert_eq by lia; done).
    split; [do 4 f_equal; rewrite zlen_cons; lia|].
    assert (Hpre : ∀ A (l l' : list A) x, take (Datatypes.S k) l = take (Datatypes.S k) (<[k:=x]> l') → take k l = take k l').
    { intros A l l' x E. apply (f_equal (take k)) in E. rewrite !take_take, Nat.min_l in E by lia. by rewrite E, take_insert_ge by lia. }
    split; [by eapply Hpre|]. split; [by eapply Hpre|]. rewrite (drop_S _ _ _ Htf), (drop_S _ _ _ Hqs). cbn [take fmap list_fmap].
    split; [constructor; [by apply read_stands_for|done]|by rewrite E4].
Qed.

(** ** Properties *)

(** A packet in a buffer, and what it leaves. *)
Lemma serializes_fits m buflen needed bs buf : serializes m buflen needed bs → zlen bs <= needed → needed <= buflen → buflen <= zlen buf →
  ∃ buf', m buf = Some (zlen bs, buf') ∧ zlen bs <= buflen ∧ buf' = bs ++ drop (length bs) buf ∧ length buf' = length buf.
Proof.
  intros Hm Hn Hb Hbuf. exists (bs ++ drop (length bs) buf). rewrite Hm by done. destruct (Z.ltb_spec buflen needed); [lia|].
  repeat split; try lia. rewrite length_app, length_drop. unfold zlen in *. lia.
Qed.
Lemma serializes_short m buflen needed bs buf : serializes m buflen needed bs → buflen < needed → buflen <= zlen buf →
  m buf = Some (MQTTPACKET_BUFFER_TOO_SHORT, buf).
Proof. intros Hm Hn Hbuf. rewrite Hm by done. by destruct (Z.ltb_spec buflen needed); [|lia]. Qed.
Lemma packet_length h body : zlen (packet h body) = 1 + zlen (varint 5 (zlen body)) + zlen body.
Proof. unfold packet. rewrite zlen_cons, zlen_app. lia. Qed.

(** C11: Publishing and reading back is the identity. [MQTTSerialize_publish]
    writes at most [buflen] bytes into a buffer of at least that size and leaves
    what is behind them, or refuses and writes nothing; and
    [MQTTDeserialize_publish] reads from what it wrote the flags, the packet
    identifier (with a QoS above 0), the topic and the payload it was given,
    whatever follows in the buffer. *)
Theorem publish_roundtrip buflen dup qos retained packetid s t src payload buf out :
  0 <= dup < 2 → 0 <= qos < 4 → 0 <= retained < 2 → in_u16 packetid → short_text s t →
  take (length payload) src = payload → Forall in_u8 payload → zlen payload < 2 ^ 27 → buflen <= zlen buf →
  let needed := MQTTPacket_len (zlen (publish_body qos packetid t payload)) in
  let run := MQTTSerialize_publish buflen dup qos retained packetid s src (zlen payload) buf in
  (buflen < needed → run = Some (MQTTPACKET_BUFFER_TOO_SHORT, buf)) ∧
  (needed <= buflen → ∃ n buf' topic memory,
    run = Some (n, buf') ∧ 0 < n <= buflen ∧ length buf' = length buf ∧ drop (Z.to_nat n) buf' = drop (Z.to_nat n) buf ∧
    MQTTDeserialize_publish out buf' = Some (1, mkPublish dup qos retained (if 0 <? qos then packetid else p_packetid out) topic memory (zlen payload)) ∧
    stands_for topic t ∧ take (length payload) memory = payload).
Proof.
  intros Hd Hq Hr Hp [Hs Ht] Hsrc HF Hn Hbuf. cbv zeta.
  assert (Hbody : zlen (publish_body qos packetid t payload) < 2 ^ 28).
  { unfold publish_body. rewrite !zlen_app, utf_length. destruct (0 <? qos); unfold zlen in *; cbn in *; lia. }
  pose proof (publish_serializes buflen dup qos retained packetid s t src payload Hs Ht Hp Hsrc HF Hbody) as Hser.
  pose proof (packet_room (header_byte PUBLISH dup qos retained) _ Hbody) as Hroom.
  split; intros Hfit; [by eapply serializes_short|].
  destruct (serializes_fits _ _ _ _ buf Hser Hroom Hfit Hbuf) as (buf' & E & Hle & -> & Hlen).
  set (p := packet _ _) in *. eexists (zlen p), _, _, _. split; [exact E|].
  split; [split; [|done]; unfold p; rewrite packet_length; pose proof (zlen_nonneg (publish_body qos packetid t payload));
    pose proof (zlen_nonneg (varint 5 (zlen (publish_body qos packetid t payload)))); lia|].
  split; [done|]. split; [by rewrite drop_zlen; unfold zlen; rewrite Nat2Z.id|].
  split; [by apply publish_reads|]. split; [by eapply read_stands_for, stands_bytes|by rewrite take_app_length].
Qed.

(** A session is asked for as the options say. For MQTT 3.1 and 3.1.1 the
    packet of [MQTTSerialize_connect] fits or is refused as a whole, and
    [MQTTDeserialize_connect] reads from it the keep-alive interval, the flags,
    the client, the will and the credentials of the options. *)
Theorem connect_roundtrip buflen o x buf out : acceptable o x → buflen <= zlen buf →
  let needed := MQTTPacket_len (zlen (connect_body o x)) in
  let run := MQTTSerialize_connect buflen o buf in
  (buflen < needed → run = Some (MQTTPACKET_BUFFER_TOO_SHORT, buf)) ∧
  (needed <= buflen → ∃ n buf' r,
    run = Some (n, buf') ∧ n <= buflen ∧ length buf' = length buf ∧ drop (Z.to_nat n) buf' = drop (Z.to_nat n) buf ∧
    MQTTDeserialize_connect out buf' n = Some (1, r) ∧ same_request o x r).
Proof.
  intros Ha Hbuf. cbv zeta. pose proof (connect_serializes buflen o x (acc_version _ _ Ha) (acc_texts _ _ Ha) (acc_keep _ _ Ha)) as Hser.
  split; intros Hfit; [by eapply serializes_short|]. assert (Hn : zlen (connect_body o x) < 2 ^ 28) by by apply connect_body_short, Ha.
  destruct (serializes_fits _ _ _ _ buf Hser (packet_room _ _ Hn) Hfit Hbuf) as (buf' & E & Hle & -> & Hlen).
  set (p := packet _ _) in *. destruct (connect_reads o x out (drop (length p) buf) Ha) as (r & Hr & Hsame).
  eexists (zlen p), _, r. split; [exact E|]. split; [done|]. split; [done|].
  split; [by rewrite drop_zlen; unfold zlen; rewrite Nat2Z.id|]. done.
Qed.

(** The filters of a SUBSCRIBE packet and their QoS are read back, in
    order, into arrays that have room for them. *)
Theorem subscribe_roundtrip buflen dup packetid topicFilters requestedQoSs fs buf out :
  0 <= dup < 2 → in_u16 packetid → filters_stand topicFilters requestedQoSs fs → zlen (subscribe_body packetid fs) < 2 ^ 28 →
  MQTTPacket_len (zlen (subscribe_body packetid fs)) <= buflen <= zlen buf →
  zlen fs <= zlen (b_topicFilters out) → zlen fs <= zlen (b_requestedQoSs out) →
  ∃ n buf' tf qs, MQTTSerialize_subscribe buflen dup packetid (zlen fs) topicFilters requestedQoSs buf = Some (n, buf') ∧ n <= buflen ∧
    MQTTDeserialize_subscribe out buf' = Some (1, mkSubscribe dup packetid (zlen fs) tf qs) ∧
    Forall2 stands_for (take (length fs) tf) fs.*1 ∧ take (length fs) qs = fs.*2.
Proof.
  intros Hd Hp Hfs Hn [Hfit Hbuf] Htf Hqs.
  destruct (serializes_fits _ _ _ _ buf (subscribe_serializes buflen dup packetid _ _ fs Hfs Hp Hn) (packet_room _ _ Hn) Hfit Hbuf) as (buf' & E & Hle & -> & Hlen).
  set (h := header_byte SUBSCRIBE dup 1 0) in *. set (body := subscribe_body packetid fs) in *. set (rest := drop (length (packet h body)) buf) in *.
  destruct (header_fields SUBSCRIBE dup 1 0 ltac:(done) Hd ltac:(done) ltac:(done)) as (Et & Ed & _ & _). fold h in Et, Ed.
  assert (HF : Forall (λ f : list Z * Z, Forall in_u8 f.1) fs).
  { apply Forall_lookup_2. intros k f Hk. destruct (Hfs k f Hk) as ((s & _ & [Hst _]) & _). by eapply stands_bytes. }
  pose proof (filters_room fs) as Hroom. assert (Hb : zlen body = 2 + zlen (concat (filter_bytes <$> fs))) by (unfold body, subscribe_body; by rewrite zlen_app).
  set (pre := [h] ++ varint 5 (zlen body)).
  destruct (read_filters_run (zlen pre + zlen body) (zlen (varint 5 (zlen body))) fs (Datatypes.S (Z.to_nat (zlen body))) 0 (pre ++ int2 packetid)
    (mkSubscribe dup packetid 0 (b_topicFilters out) (b_requestedQoSs out)) rest) as (tf & qs & s & Er & _ & _ & Htfs & Hqss);
    try done; try (cbn; unfold zlen in *; lia).
  { clear - Hroom Hb. clearbody body. unfold zlen in *. lia. }
  { rewrite !zlen_app, Hb. change (zlen (int2 packetid)) with 2. lia. }
  eexists _, _, tf, qs. split; [exact E|]. split; [done|]. split; [|by rewrite !drop_0 in *].
  unfold MQTTDeserialize_subscribe, from_buffer. change (Cursor ?b 0) with (At [] b). unfold read_subscription.
  read_header. rewrite Et. cbn [negb Z.eqb SUBSCRIBE Pos.eqb]. read_length. read_pointer. fold pre.
  change (body ++ rest) with ((int2 packetid ++ concat (filter_bytes <$> fs)) ++ rest). rewrite <- (app_assoc (int2 packetid)).
  rewrite (bind_run _ _ _ _ _ (readInt_run _ packetid _)). by rewrite Ed, Er.
Qed.

(** C39: A remaining length below 2^28 is encoded in one to four bytes, and
    decoding reads the same number from the same bytes; what [MQTTPacket_len]
    asks for such a packet is what it takes, or one byte more. From 2^28 on
    nothing refuses a length: five bytes are written, decoding gives up with a
    count of 5 and the number modulo 2^28, and [MQTTPacket_len] asks for one
    byte less than the packet takes. *)
Theorem remaining_length n buf : 0 <= n < 2 ^ 31 → 5 <= zlen buf →
  ∃ k buf', MQTTPacket_encode n (Cursor buf 0) = Some (k, Cursor buf' 0) ∧ 1 <= k <= 5 ∧ length buf' = length buf ∧
    MQTTPacket_decodeBuf (Cursor buf' 0) = Some (if n <? 2 ^ 28 then (k, n) else (5, n mod 2 ^ 28), Cursor buf' 0) ∧
    (n < 2 ^ 28 → k <= 4 ∧ 1 + k + n <= MQTTPacket_len n <= 1 + k + n + 1) ∧
    (2 ^ 28 <= n → k = 5 ∧ (n < 2 ^ 31 - 5 → MQTTPacket_len n = 1 + k + n - 1)).
Proof.
  intros Hn Hbuf. assert (Hk : 1 <= zlen (varint 5 n) <= 5).
  { cbn. repeat (destruct (_ <? 128); [unfold zlen; cbn; lia|]). unfold zlen. cbn. lia. }
  assert (Hlen : length (take (length (varint 5 n)) buf) = length (varint 5 n)) by (rewrite length_take; unfold zlen in *; lia).
  pose proof (encode_loop_run 5 n [] (take (length (varint 5 n)) buf) [] (drop (length (varint 5 n)) buf) ltac:(done) ltac:(cbn; lia) Hlen) as E.
  cbn [app] in E. rewrite take_drop in E. eexists _, _. split; [exact E|].
  split; [done|]. split; [rewrite !length_app, length_drop; unfold zlen in *; cbn [length]; lia|].
  split; [exact (decodeBuf_run [] n (drop (length (varint 5 n)) buf) Hn)|].
  change (zlen [] + zlen (varint 5 n)) with (zlen (varint 5 n)). unfold MQTTPacket_len. cbv zeta. split.
  - intros Hs. rewrite varint_length by lia. rewrite (s32_small (n + 1)) by lia. rewrite !s32_small by lia.
    repeat match goal with |- context [?a <? ?b] => destruct (Z.ltb_spec a b) end; lia.
  - intros Hs. assert (E5 : zlen (varint 5 n) = 5).
    { cbn [varint]. do 4 (match goal with |- context[?a <? ?b] => destruct (Z.ltb_spec a b); [dlia|] end).
      match goal with |- context[?a <? ?b] => destruct (Z.ltb_spec a b); [done|dlia] end. }
    rewrite E5. split; [done|]. intros Hlt. rewrite (s32_small (n + 1)) by lia. rewrite !s32_small by lia.
    repeat match goal with |- context [?a <? ?b] => destruct (Z.ltb_spec a b) end; lia.
Qed.

Lemma readString_fails pre body rest s : zlen body < 2 ∨ (∃ a b more, body = a :: b :: more ∧ zlen more < 256 * a + b) →
  ∃ s' st', readMQTTLenString s (zlen pre + zlen body) (At pre (body ++ rest)) = Some ((0, s'), st').
Proof.
  intros Hbad. unfold readMQTTLenString. read_pointer. destruct (Z.ltb_spec 1 (zlen pre + zlen body - zlen pre)) as [Hl|]; [|by eexists _, _].
  destruct Hbad as [|(a & b & more & -> & Hm)]; [lia|]. cbn [app].
  rewrite (bind_run _ _ _ _ _ (readInt_two pre a b (more ++ rest))).
  read_pointer. rewrite zlen_app. change (zlen [a; b]) with 2. rewrite !zlen_cons.
  destruct (Z.leb_spec (zlen pre + 2 + (256 * a + b)) (zlen pre + (1 + (1 + zlen more)))); [lia|]. by eexists _, _.
Qed.

(** What [MQTTDeserialize_publish] makes of a malformed packet. When the
    topic does not fit, it returns how many bytes the remaining length took -
    which is 1, its code of success, for any packet of less than 128 bytes -
    and leaves the payload and its length as the caller had them. When a QoS
    asks for a packet identifier and there is no room for one, it reads two
    bytes behind the packet and succeeds with a payload of length -2. *)
Theorem malformed_publish dup qos retained body rest out :
  0 <= dup < 2 → 0 <= qos < 4 → 0 <= retained < 2 → zlen body < 2 ^ 28 →
  let buf := packet (header_byte PUBLISH dup qos retained) body ++ rest in
  (zlen body < 2 ∨ (∃ a b more, body = a :: b :: more ∧ zlen more < 256 * a + b) →
    ∃ rc r, MQTTDeserialize_publish out buf = Some (rc, r) ∧ (rc = 1 ↔ zlen body < 128) ∧
      p_payload r = p_payload out ∧ p_payloadlen r = p_payloadlen out ∧ p_packetid r = p_packetid out) ∧
  (∀ t a b more, body = utf t → 0 < qos → rest = a :: b :: more →
    ∃ r, MQTTDeserialize_publish out buf = Some (1, r) ∧ p_packetid r = 256 * a + b ∧ p_payloadlen r = -2).
Proof.
  intros Hd Hq Hr Hn. cbv zeta. set (h := header_byte PUBLISH dup qos retained).
  destruct (header_fields PUBLISH dup qos retained ltac:(done) Hd Hq Hr) as (Et & Ed & Eq & Er). fold h in Et, Ed, Eq, Er.
  pose proof (zlen_nonneg body). unfold MQTTDeserialize_publish, from_buffer. change (Cursor ?b 0) with (At [] b). unfold read_publish.
  read_header. rewrite Et. cbn [negb Z.eqb PUBLISH Pos.eqb]. read_length. read_pointer. set (pre := [h] ++ varint 5 (zlen body)). split.
  - intros Hbad. destruct (readString_fails pre body rest (p_topicName out) Hbad) as (s' & st' & E).
    rewrite (bind_run _ _ _ _ _ E). cbv beta iota. unfold bind at 1, get at 1. cbn [Z.eqb orb].
    eexists _, _. split; [done|]. split; [|done]. rewrite varint_length by lia.
    repeat match goal with |- context [?a <? ?b] => destruct (Z.ltb_spec a b) end; lia.
  - intros t a b more -> Hq0 ->. read_pointer. erewrite bind_run by (apply (readString_run pre t (a :: b :: more)); rewrite utf_length; lia).
    cbv beta iota. read_pointer. rewrite !zlen_app, utf_length. cbn [Z.eqb orb].
    match goal with |- context [?a <? 0] => destruct (Z.ltb_spec a 0); [lia|] end. rewrite Eq. destruct (Z.ltb_spec 0 qos); [|lia].
    rewrite (bind_run _ _ _ _ _ (readInt_two _ a b more)).
    read_pointer. eexists. split; [done|]. split; [done|]. cbn [p_payloadlen]. rewrite !zlen_app, utf_length. change (zlen [a; b]) with 2. lia.
Qed.

(** *** Witnesses *)

Definition c_literal (s : string) : MQTTString := mkString (Some (bytes s ++ [0])) (mkLenString 0 None).
Ltac short_literal := split; [apply stands_cstring; [reflexivity|done|forall_u8]|done].

(** "on" to the topic "a/b", retained, with QoS 1 and identifier 77. *)
Lemma publish_roundtrip_witness : ∃ n buf' topic memory,
  MQTTSerialize_publish 20 0 1 1 77 (c_literal "a/b") (bytes "on") 2 (replicate 30 7) = Some (n, buf') ∧ 0 < n <= 20 ∧
  length buf' = 30%nat ∧ drop (Z.to_nat n) buf' = drop (Z.to_nat n) (replicate 30 7) ∧
  MQTTDeserialize_publish (mkPublish 9 9 9 9 MQTTString_initializer [] 9) buf' = Some (1, mkPublish 0 1 1 77 topic memory 2) ∧
  stands_for topic (bytes "a/b") ∧ take 2 memory = bytes "on".
Proof.
  apply (publish_roundtrip 20 0 1 1 77 (c_literal "a/b") (bytes "a/b") (bytes "on") (bytes "on") (replicate 30 7)
    (mkPublish 9 9 9 9 MQTTString_initializer [] 9)); unfold in_u16; try (by vm_compute); try lia; try done.
  - short_literal.
  - forall_u8.
Defined.

(** The session the application asks for. *)
Definition demo_login : connectData :=
  mkConnect 3 (c_literal "id") 60 1 1 (mkWill (c_literal "t/available") (c_literal "offline") 1 0) (c_literal "name") (c_literal "secret").
Definition demo_texts : connect_texts := mkTexts (bytes "id") (bytes "t/available") (bytes "offline") (bytes "name") (bytes "secret").
Lemma demo_acceptable : acceptable demo_login demo_texts.
Proof.
  constructor; unfold in_u16; cbn [MQTTVersion keepAliveInterval cleansession will w_qos w_retained demo_login]; try lia; try done.
  constructor; short_literal.
Qed.
Lemma connect_roundtrip_witness : ∃ n buf' r, MQTTSerialize_connect 100 demo_login (replicate 100 0) = Some (n, buf') ∧ n <= 100 ∧
  length buf' = 100%nat ∧ drop (Z.to_nat n) buf' = drop (Z.to_nat n) (replicate 100 0) ∧
  MQTTDeserialize_connect MQTTPacket_connectData_initializer buf' n = Some (1, r) ∧ same_request demo_login demo_texts r.
Proof.
  apply (connect_roundtrip 100 demo_login demo_texts (replicate 100 0) MQTTPacket_connectData_initializer demo_acceptable); by vm_compute.
Defined.

Lemma subscribe_roundtrip_witness : ∃ n buf' tf qs,
  MQTTSerialize_subscribe 40 0 5 2 [c_literal "a/#"; c_literal "b"] [1; 0] (replicate 40 0) = Some (n, buf') ∧ n <= 40 ∧
  MQTTDeserialize_subscribe (mkSubscribe 9 9 9 (replicate 3 MQTTString_initializer) [7; 7; 7]) buf' = Some (1, mkSubscribe 0 5 2 tf qs) ∧
  Forall2 stands_for (take 2 tf) [bytes "a/#"; bytes "b"] ∧ take 2 qs = [1; 0].
Proof.
  apply (subscribe_roundtrip 40 0 5 [c_literal "a/#"; c_literal "b"] [1; 0] [(bytes "a/#", 1); (bytes "b", 0)] (replicate 40 0)
    (mkSubscribe 9 9 9 (replicate 3 MQTTString_initializer) [7; 7; 7])); unfold in_u16; try (by vm_compute); try lia.
  - intros [|[|k]] f Hk; cbn in Hk; [injection Hk as <-..|by destruct k].
    + split; [exists (c_literal "a/#"); split; [done|short_literal]|by split].
    + split; [exists (c_literal "b"); split; [done|short_literal]|by split].
Defined.

Lemma remaining_length_witness : ∃ k buf', MQTTPacket_encode 16384 (Cursor (replicate 5 0) 0) = Some (k, Cursor buf' 0) ∧ 1 <= k <= 5 ∧
  length buf' = 5%nat ∧ MQTTPacket_decodeBuf (Cursor buf' 0) = Some (if 16384 <? 2 ^ 28 then (k, 16384) else (5, 16384 mod 2 ^ 28), Cursor buf' 0) ∧
  (16384 < 2 ^ 28 → k <= 4 ∧ 1 + k + 16384 <= MQTTPacket_len 16384 <= 1 + k + 16384 + 1) ∧
  (2 ^ 28 <= 16384 → k = 5 ∧ (16384 < 2 ^ 31 - 5 → MQTTPacket_len 16384 = 1 + k + 16384 - 1)).
Proof. apply (remaining_length 16384 (replicate 5 0)); [lia|done]. Defined.

(** A packet of one byte, and one without its identifier. *)
Lemma malformed_publish_witness :
  (∃ rc r, MQTTDeserialize_publish (mkPublish 9 9 9 9 MQTTString_initializer [42] 9) (packet (header_byte PUBLISH 0 0 0) [5] ++ []) = Some (rc, r) ∧
    (rc = 1 ↔ zlen [5] < 128) ∧ p_payload r = [42] ∧ p_payloadlen r = 9 ∧ p_packetid r = 9) ∧
  (∃ r, MQTTDeserialize_publish (mkPublish 9 9 9 9 MQTTString_initializer [] 9) (packet (header_byte PUBLISH 0 1 0) (utf [97]) ++ [1; 2]) = Some (1, r) ∧
    p_packetid r = 256 * 1 + 2 ∧ p_payloadlen r = -2).
Proof.
  split.
  - apply (malformed_publish 0 0 0 [5] [] (mkPublish 9 9 9 9 MQTTString_initializer [42] 9)); first [lia|by vm_compute|left; by vm_compute].
  - eapply (malformed_publish 0 1 0 (utf [97]) [1; 2] (mkPublish 9 9 9 9 MQTTString_initializer [] 9)); try lia; try done.
Defined.

End MqttPacket.
