(* ===== verification/MqttTransport.v ===== *)
(** Packets from a transport: [MQTTPacket_read], [MQTTPacket_readnb] and
    [MQTTPacket_decodenb] of [MQTTPacket.c]. The function the caller supplies
    is the class [Transport]; what its comment asks of it is the class
    [Stream]. *)
From S2P Require Import Prelude Cjson Misc MqttPacket.

Module MqttTransport.
Import Cjson Cstring MqttPacket.

(** [getfn]: for the number of bytes asked for, what it returns and the bytes it
    stores. *)
Class Transport (T : Type) := getfn : Z → T → Z * list Z * T.

Section Read.
Context {T : Type} `{!Transport T}.

(** The caller's buffer and the transport. [getfn(buf + off, count)]: *)
Definition fetch (off count : Z) : M (list Z * T) Z :=
  let! s := get Datatypes.id in
  let '(rc, bs, t) := getfn count s.2 in
  let! b := lift (copy_to off bs s.1) in
  modify (λ _, (b, t)) ;;; ret rc.
(** [getfn(&c, 1)]: nothing, or the character, is stored. *)
Definition fetch_char : M (list Z * T) (Z * option Z) :=
  let! s := get Datatypes.id in
  let '(rc, bs, t) := getfn 1 s.2 in
  let! c := lift (match bs with [] => Some None | [c] => Some (Some c) | _ => None end) in
  modify (λ s, (s.1, t)) ;;; ret (rc, c).
Definition at_buf {A} (off : Z) (m : M cursor A) : M (list Z * T) A :=
  zoom (λ s, Cursor s.1 off) (λ c s, (c_buf c, s.2)) m.
Definition type_of_packet : M (list Z * T) Z :=
  let! b := get fst in let! h := lift (rd b 0) in ret (header_type h).

(** ** [MQTTPacket_read] *)

(** [c] is read only after a return code of 1. *)
Definition getcharfn : M (list Z * T) (Z * Z) :=
  let! (rc, c) := fetch_char in
  if rc =? 1 then (let! c := lift c in ret (1, c)) else ret (rc, 0).
Definition MQTTPacket_read (buflen : Z) : M (list Z * T) Z :=
  let! rc := fetch 0 1 in
  if negb (rc =? 1) then ret (-1) else
  let! (_, rem_len) := MQTTPacket_decode getcharfn in
  let! k := at_buf 1 (MQTTPacket_encode rem_len) in
  let len := 1 + k in
  if buflen <? rem_len + len then ret (-1) else
  if rem_len =? 0 then type_of_packet else
  let! rc := fetch len rem_len in
  if negb (rc =? rem_len) then ret (-1) else type_of_packet.

(** ** [MQTTPacket_readnb] *)

(** [MQTTTransport], with the buffer the caller passes each time. *)
Record MQTTTransport := mkTransport { io : list Z * T; multiplier : Z; rem_len : Z; t_len : Z; t_state : Z }.
Definition set_io (v : list Z * T) (r : MQTTTransport) := mkTransport v (multiplier r) (rem_len r) (t_len r) (t_state r).
Definition set_multiplier (v : Z) (r : MQTTTransport) := mkTransport (io r) v (rem_len r) (t_len r) (t_state r).
Definition set_rem_len (v : Z) (r : MQTTTransport) := mkTransport (io r) (multiplier r) v (t_len r) (t_state r).
Definition set_t_len (v : Z) (r : MQTTTransport) := mkTransport (io r) (multiplier r) (rem_len r) v (t_state r).
Definition set_state (v : Z) (r : MQTTTransport) := mkTransport (io r) (multiplier r) (rem_len r) (t_len r) v.
Definition on_io {A} (m : M (list Z * T) A) : M MQTTTransport A := zoom io set_io m.

Fixpoint decodenb_loop (fuel : nat) : M MQTTTransport Z :=
  match fuel with
  | O => fault
  | Datatypes.S fuel =>
      let! n := get t_len in
      if MAX_NO_OF_REMAINING_LENGTH_BYTES <=? n then ret MQTTPACKET_READ_ERROR else
      let! (frc, c) := on_io fetch_char in
      if frc =? -1 then ret MQTTPACKET_READ_ERROR else
      if frc =? 0 then ret 0 else
      modify (λ r, set_t_len (t_len r + 1) r) ;;;
      let! c := lift c in
      modify (λ r, set_rem_len (rem_len r + Z.land c 127 * multiplier r) r) ;;;
      modify (λ r, set_multiplier (multiplier r * 128) r) ;;;
      if negb (Z.land c 128 =? 0) then decodenb_loop fuel else get t_len
  end.
Definition MQTTPacket_decodenb : M MQTTTransport Z :=
  let! n := get t_len in
  when (n =? 0) (modify (set_multiplier 1) ;;; modify (set_rem_len 0)) ;;;
  decodenb_loop (Datatypes.S (Z.to_nat (MAX_NO_OF_REMAINING_LENGTH_BYTES - n))).

(** [exit:] *)
Definition leave (rc : Z) : M MQTTTransport Z := modify (set_state 0) ;;; ret rc.
Definition leave_packet : M MQTTTransport Z := let! rc := on_io type_of_packet in leave rc.
Definition next_state : M MQTTTransport unit := modify (λ r, set_state (t_state r + 1) r).

(** The cases of the [switch], each of which falls through into the next. *)
Definition case_2 : M MQTTTransport Z :=
  let! n := get rem_len in
  if n =? 0 then leave_packet else
  let! len := get t_len in
  let! frc := on_io (fetch len n) in
  if frc =? -1 then leave (-1) else
  if frc =? 0 then ret 0 else
  modify (λ r, set_rem_len (rem_len r - frc) r) ;;;
  modify (λ r, set_t_len (t_len r + frc) r) ;;;
  let! n := get rem_len in
  if negb (n =? 0) then ret 0 else leave_packet.
Definition case_1 (buflen : Z) : M MQTTTransport Z :=
  let! frc := MQTTPacket_decodenb in
  if frc =? MQTTPACKET_READ_ERROR then leave (-1) else
  if frc =? 0 then ret 0 else
  let! n := get rem_len in
  let! k := on_io (at_buf 1 (MQTTPacket_encode n)) in
  modify (set_t_len (1 + k)) ;;;
  if buflen <? n + (1 + k) then leave (-1) else
  next_state ;;; case_2.
Definition case_0 (buflen : Z) : M MQTTTransport Z :=
  let! frc := on_io (fetch 0 1) in
  if frc =? -1 then leave (-1) else
  if frc =? 0 then ret 0 else
  modify (set_t_len 0) ;;; next_state ;;; case_1 buflen.
Definition MQTTPacket_readnb (buflen : Z) : M MQTTTransport Z :=
  let! s := get t_state in
  if s =? 1 then case_1 buflen
  else if s =? 2 then case_2
  else modify (set_state 0) ;;; case_0 buflen.
End Read.
Arguments MQTTTransport T : clear implicits.

(** ** Calling again

    A client that calls until the answer is not "call again". *)
Fixpoint poll {T} `{!Transport T} (calls : nat) (buflen : Z) : M (MQTTTransport T) Z :=
  match calls with
  | O => ret 0
  | Datatypes.S calls =>
      let! rc := MQTTPacket_readnb buflen in
      if rc =? 0 then poll calls buflen else ret rc
  end.

(** What the comment on [getfn] says, for a transport on which some bytes are
    [pending] and that does not stall for ever: while there are any it returns
    how many it stores, the next ones and no more than were asked for; zero for
    "call again". Each call takes of the [patience] it has. *)
Class Stream (T : Type) `{!Transport T} := {
  pending : T → list Z;
  patience : T → nat;
  getfn_stream n t : 0 < n → pending t ≠ [] → let '(rc, bs, t') := getfn n t in
    rc = zlen bs ∧ zlen bs <= n ∧ pending t = bs ++ pending t' ∧ (patience t' < patience t)%nat }.

(** A transport that has all bytes at once. *)
#[global] Instance whole : Transport (list Z) := λ n bs, (zlen (take (Z.to_nat n) bs), take (Z.to_nat n) bs, drop (Z.to_nat n) bs).

(** ** Reassembly *)

Section Reassembly.
Context {T : Type} `{!Transport T} `{!Stream T}.
Variables (h : Z) (body rest buf0 : list Z) (buflen : Z).
Let p := packet h body.
Let v := varint 5 (zlen body).
Hypothesis Hn : zlen body < 2 ^ 28.
Hypothesis Hfit : zlen p <= buflen <= zlen buf0.

(** The buffer with the first [m] bytes of the packet in it. *)
Definition filled (m : nat) : list Z := take m p ++ drop m buf0.

Lemma p_length : length p = (1 + length v + length body)%nat.
Proof. unfold p, packet. cbn. by rewrite length_app. Qed.
Lemma filled_length m : (m <= length p)%nat → length (filled m) = length buf0.
Proof. intros Hm. unfold filled. rewrite length_app, length_take, length_drop. unfold zlen in *. lia. Qed.
(** The next bytes of the packet at their place. *)
Lemma filled_split m bs : take (length bs) (drop m p) = bs → (m + length bs <= length p)%nat →
  filled m = take m p ++ take (length bs) (drop m buf0) ++ drop (m + length bs) buf0 ∧
  filled (m + length bs) = take m p ++ bs ++ drop (m + length bs) buf0 ∧ zlen (take m p) = Z.of_nat m ∧
  length (take (length bs) (drop m buf0)) = length bs.
Proof.
  intros Hbs Hm. assert (length p <= length buf0)%nat by (unfold zlen in *; lia). unfold filled. split; [by rewrite <- drop_drop, take_drop|].
  split; [|unfold zlen; rewrite !length_take, ?length_drop; lia].
  rewrite <- (take_take_drop p m), Hbs. by rewrite <- app_assoc.
Qed.
Lemma store_filled m bs : take (length bs) (drop m p) = bs → (m + length bs <= length p)%nat →
  copy_to (Z.of_nat m) bs (filled m) = Some (filled (m + length bs)).
Proof. intros Hbs Hm. destruct (filled_split m bs Hbs Hm) as (-> & -> & <- & Hlen). by apply copy_to_run. Qed.
Lemma fetch_filled m n t : 0 < n → pending t ≠ [] → (m <= length p)%nat →
  (∀ bs, zlen bs <= n → bs `prefix_of` pending t → bs `prefix_of` drop m p) →
  ∃ bs t', fetch (Z.of_nat m) n (filled m, t) = Some (zlen bs, (filled (m + length bs), t')) ∧
    zlen bs <= n ∧ pending t = bs ++ pending t' ∧ (patience t' < patience t)%nat.
Proof.
  intros Hpos Hne Hm Hbs. pose proof (getfn_stream n t Hpos Hne) as Hg. unfold fetch, bind, get, Datatypes.id. cbn [fst snd].
  destruct (getfn n t) as [[rc bs] t']. destruct Hg as (-> & Hle & Hp & Hpat). exists bs, t'.
  destruct (Hbs bs Hle ltac:(rewrite Hp; by apply prefix_app_r)) as [q Hq].
  assert (Hlen : (m + length bs <= length p)%nat).
  { assert (E : length (drop m p) = length (bs ++ q)) by by rewrite Hq. rewrite length_drop, length_app in E. lia. }
  unfold lift. rewrite store_filled; [done| |done]. rewrite Hq. apply take_app_length.
Qed.
Lemma encode_filled : at_buf (T := T) 1 (MQTTPacket_encode (zlen body)) = λ s,
  match MQTTPacket_encode (zlen body) (Cursor s.1 1) with Some (k, c) => Some (k, (c_buf c, s.2)) | None => None end.
Proof. done. Qed.
Lemma put_back_run t : at_buf (T := T) 1 (MQTTPacket_encode (zlen body)) (filled 1, t) = Some (zlen v, (filled (1 + length v), t)).
Proof.
  rewrite encode_filled. cbn [fst snd]. pose proof (zlen_nonneg body). pose proof p_length as Hp.
  assert (Hv : take (length v) (drop 1 p) = v) by by apply (take_app_length v body).
  destruct (filled_split 1 v Hv ltac:(lia)) as (-> & -> & E1 & Hlen).
  pose proof (encode_loop_run 5 (zlen body) [] _ (take 1 p) (drop (1 + length v) buf0) ltac:(done) ltac:(cbn; lia) Hlen) as E.
  cbn [app] in E. rewrite (At_eq (take 1 p) _ _ _ eq_refl (eq_sym E1)). unfold MQTTPacket_encode. change (zlen []) with 0 in E. by rewrite E.
Qed.
Lemma type_run t m : (1 <= m <= length p)%nat → type_of_packet (T := T) (filled m, t) = Some (header_type h, (filled m, t)).
Proof.
  intros Hm. unfold type_of_packet, bind, get, lift. cbn [fst]. unfold filled, p, packet. destruct m; [lia|]. cbn [take app].
  change 0 with (Z.of_nat 0). by rewrite rd_lookup.
Qed.

(** Where a transport can be between two calls: before the packet; with [4 - g]
    bytes of the length read, [m] what the rest of them is worth; or with
    [done] of the body stored and [todo] to come. *)
Definition worth (g : nat) (m mu re : Z) : Prop := (g = 4%nat → m = zlen body) ∧ (g ≠ 4%nat → re + mu * m = zlen body).
Inductive stage : MQTTTransport T → Prop :=
  | stage_0 t mu re le : pending t = p ++ rest → stage (mkTransport (buf0, t) mu re le 0)
  | stage_1 t mu re g m : (1 <= g <= 4)%nat → 0 <= m < 128 ^ Z.of_nat g → worth g m mu re →
      pending t = varint (Datatypes.S g) m ++ body ++ rest → stage (mkTransport (filled 1, t) mu re (4 - Z.of_nat g) 1)
  | stage_2 t mu stored todo : body = stored ++ todo → pending t = todo ++ rest →
      stage (mkTransport (filled (1 + length v + length stored), t) mu (zlen todo) (1 + zlen v + zlen stored) 2).
(** A call from patience [b]: "call again", or the whole packet. *)
Definition finished (r : MQTTTransport T) : Prop := ∃ t, io r = (p ++ drop (length p) buf0, t) ∧ pending t = rest ∧ t_state r = 0.
Definition goes_on (b : nat) (o : option (Z * MQTTTransport T)) : Prop :=
  ∃ rc r, o = Some (rc, r) ∧ ((rc = 0 ∧ stage r ∧ (patience (io r).2 < b)%nat) ∨ (rc = header_type h ∧ finished r)).

Lemma on_io_run {A} (m : M (list Z * T) A) s mu re le st a s' :
  m s = Some (a, s') → on_io m (mkTransport s mu re le st) = Some (a, mkTransport s' mu re le st).
Proof. intros Hm. unfold on_io, zoom. cbn [io]. by rewrite Hm. Qed.

Lemma filled_all m : m = length p → filled m = p ++ drop (length p) buf0.
Proof. intros ->. unfold filled. by rewrite firstn_all. Qed.
Lemma leave_packet_runs b t mu re le st m : m = length p → pending t = rest →
  goes_on b (leave_packet (mkTransport (filled m, t) mu re le st)).
Proof.
  intros -> Hp. unfold leave_packet. rewrite (bind_run _ _ _ _ _ (on_io_run _ _ mu re le st _ _ (type_run t (length p) ltac:(rewrite p_length; lia)))).
  eexists _, _. split; [done|]. right. split; [done|]. exists t. cbn [io t_state set_state]. by rewrite filled_all.
Qed.
Lemma body_next stored todo : body = stored ++ todo → drop (1 + length v + length stored) p = todo.
Proof.
  intros E. unfold p, packet. fold v. cbn [drop Nat.add]. rewrite E, drop_app_ge by lia.
  replace (length v + length stored - length v)%nat with (length stored) by lia. apply drop_app_length.
Qed.

Lemma prefix_fits (bs l k : list Z) : zlen bs <= zlen l → bs `prefix_of` l ++ k → ∃ l', l = bs ++ l'.
Proof.
  intros Hle [q [[x [E _]]|[x [E _]]]%app_eq_inv]; [by exists x|].
  exists []. rewrite E, zlen_app in Hle. destruct x; [by rewrite E, !app_nil_r|]. rewrite zlen_cons in Hle. pose proof (zlen_nonneg x). lia.
Qed.

Lemma case_2_runs b t mu stored todo : body = stored ++ todo → pending t = todo ++ rest → (patience t <= b)%nat →
  goes_on b (case_2 (mkTransport (filled (1 + length v + length stored), t) mu (zlen todo) (1 + zlen v + zlen stored) 2)).
Proof.
  intros Hbody Hp Hb. unfold case_2. unfold bind at 1, get at 1. cbn [rem_len]. pose proof p_length as Hlen.
  assert (Hbl : length body = (length stored + length todo)%nat) by by rewrite Hbody, length_app.
  destruct (Z.eqb_spec (zlen todo) 0) as [E|E].
  { destruct todo; [|done]. apply leave_packet_runs; [rewrite Hlen, Hbl; cbn; lia|done]. }
  unfold bind at 1, get at 1. cbn [t_len].
  destruct (fetch_filled (1 + length v + length stored) (zlen todo) t) as (bs & t' & Hf & Hle & Hp' & Hpat).
  - unfold zlen in *. lia.
  - rewrite Hp. destruct todo; [|done]. done.
  - lia.
  - intros bs Hle Hpre. rewrite (body_next _ _ Hbody). rewrite Hp in Hpre. destruct (prefix_fits _ _ _ Hle Hpre) as [l ->]. by exists l.
  - replace (Z.of_nat (1 + length v + length stored)) with (1 + zlen v + zlen stored) in Hf by (unfold zlen; lia).
    rewrite (bind_run _ _ _ _ _ (on_io_run _ _ mu (zlen todo) _ 2 _ _ Hf)). pose proof (zlen_nonneg bs).
    destruct (Z.eqb_spec (zlen bs) (-1)); [lia|]. destruct (Z.eqb_spec (zlen bs) 0) as [E0|E0].
    { assert (bs = []) as -> by (by destruct bs). cbn [length]. rewrite Nat.add_0_r. eexists 0, _. split; [done|]. left.
      cbn in Hp'. split; [done|]. split; [|cbn; lia]. apply stage_2; [done|by rewrite <- Hp']. }
    destruct (prefix_fits bs todo rest Hle ltac:(rewrite <- Hp, Hp'; by apply prefix_app_r)) as [more ->].
    rewrite <- app_assoc in Hp. rewrite Hp in Hp'. apply (inj (bs ++.)) in Hp'.
    unfold bind at 1, modify at 1. unfold bind at 1, modify at 1. unfold bind at 1, get at 1. cbn [rem_len t_len io multiplier t_state set_rem_len set_t_len].
    rewrite zlen_app. replace (zlen bs + zlen more - zlen bs) with (zlen more) by lia.
    replace (1 + zlen v + zlen stored + zlen bs) with (1 + zlen v + zlen (stored ++ bs)) by (rewrite zlen_app; lia).
    replace (1 + length v + length stored + length bs)%nat with (1 + length v + length (stored ++ bs))%nat by (rewrite length_app; lia).
    destruct (Z.eqb_spec (zlen more) 0) as [Em|Em]; cbn [negb].
    + assert (more = []) as -> by by destruct more. apply leave_packet_runs; [|done].
      rewrite Hlen, Hbl, !length_app. cbn. lia.
    + eexists 0, _. split; [done|]. left. split; [done|]. split; [|cbn; lia]. apply stage_2; [by rewrite Hbody, app_assoc|done].
Qed.

(** The bytes of the length, over as many calls as they take. *)
Lemma fetch_char_run (b : list Z) t c l : pending t = c :: l →
  ∃ rc o t', fetch_char (b, t) = Some ((rc, o), (b, t')) ∧ (patience t' < patience t)%nat ∧
    ((rc = 0 ∧ pending t' = c :: l) ∨ (rc = 1 ∧ o = Some c ∧ pending t' = l)).
Proof.
  intros Hp. pose proof (getfn_stream 1 t ltac:(lia) ltac:(by rewrite Hp)) as Hg. unfold fetch_char, bind, get, Datatypes.id. cbn [fst snd].
  destruct (getfn 1 t) as [[rc bs] t']. destruct Hg as (-> & Hle & Hp' & Hpat). rewrite Hp in Hp'.
  destruct bs as [|x [|y bs]]; [..|rewrite !zlen_cons in Hle; pose proof (zlen_nonneg bs); lia]; eexists _, _, t'; (split; [done|]); (split; [done|]).
  - by left.
  - injection Hp' as -> ->. by right.
Qed.
Lemma loop_runs : ∀ g m mu re b t st, (g <= 4)%nat → (g = O → False) → 0 <= m < 128 ^ Z.of_nat g → re + mu * m = zlen body → (g = 4%nat → m = zlen body) →
  pending t = varint (Datatypes.S g) m ++ body ++ rest →
  ∃ rc r t' mu' re' g', decodenb_loop (Datatypes.S g) (mkTransport (b, t) mu re (4 - Z.of_nat g) st) = Some (rc, r) ∧
    r = mkTransport (b, t') mu' re' (4 - Z.of_nat g') st ∧ (patience t' < patience t)%nat ∧
    ((rc = 0 ∧ ∃ m', (1 <= g' <= 4)%nat ∧ 0 <= m' < 128 ^ Z.of_nat g' ∧ worth g' m' mu' re' ∧ pending t' = varint (Datatypes.S g') m' ++ body ++ rest)
     ∨ (0 < rc ∧ re' = zlen body ∧ pending t' = body ++ rest)).
Proof.
  induction g as [|g IH]; intros m mu re b t st Hg Hg0 Hm Hre H4 Hp; [done|]. clear Hg0.
  set (k := Datatypes.S g) in *. unfold MAX_NO_OF_REMAINING_LENGTH_BYTES in *.
  change (decodenb_loop (Datatypes.S k)) with (let! n := get t_len in
      if 4 <=? n then ret MQTTPACKET_READ_ERROR else
      let! (frc, c) := on_io (T := T) fetch_char in
      if frc =? -1 then ret MQTTPACKET_READ_ERROR else
      if frc =? 0 then ret 0 else
      modify (λ r, set_t_len (t_len r + 1) r) ;;;
      let! c := lift c in
      modify (λ r, set_rem_len (rem_len r + Z.land c 127 * multiplier r) r) ;;;
      modify (λ r, set_multiplier (multiplier r * 128) r) ;;;
      if negb (Z.land c 128 =? 0) then decodenb_loop k else get t_len).
  unfold bind at 1, get at 1. cbn [t_len]. destruct (Z.leb_spec 4 (4 - Z.of_nat k)); [lia|].
  assert (Hc : ∃ c l, varint (Datatypes.S k) m = c :: l) by (cbn; destruct (m <? 128); eauto). destruct Hc as (c & l & Hc).
  rewrite Hc in Hp. cbn [app] in Hp. destruct (fetch_char_run b t c _ Hp) as (rc & o & t' & Hf & Hpat & Hcase).
  rewrite (bind_run _ _ _ _ _ (on_io_run _ _ mu re _ st _ _ Hf)). cbv beta iota.
  destruct Hcase as [[-> Hp']|(-> & -> & Hp')]; cbn [Z.eqb Pos.eqb].
  { eexists 0, _, t', mu, re, k. split; [done|]. split; [done|]. split; [done|]. left. split; [done|]. exists m.
    split; [lia|]. split; [done|]. split; [by split|]. by rewrite Hp', Hc. }
  unfold bind at 1, modify at 1. unfold bind at 1, lift at 1. unfold bind at 1, modify at 1. unfold bind at 1, modify at 1.
  cbn [mbind option_bind]. cbn [rem_len t_len io multiplier t_state set_rem_len set_t_len set_multiplier].
  replace (4 - Z.of_nat k + 1) with (4 - Z.of_nat g) by lia.
  destruct (Z.ltb_spec m 128).
  - rewrite varint_last in Hc by done. injection Hc as <- <-. destruct (low_bits m ltac:(lia)) as (-> & -> & _). cbn [Z.eqb negb].
    eexists _, _, t', _, _, g. split; [done|]. split; [done|]. split; [done|]. right. split; [cbn; lia|]. split; [cbn; lia|done].
  - rewrite varint_step in Hc by done. injection Hc as <- <-.
    destruct (low_bits (m mod 128) ltac:(dlia)) as (_ & _ & -> & Hbit%Z.eqb_neq). rewrite Hbit. cbn [negb].
    unfold k in Hm. rewrite Nat2Z.inj_succ, Z.pow_succ_r in Hm by lia. pose proof (Z.div_mod m 128 ltac:(lia)).
    destruct (IH (m / 128) (mu * 128) (re + m mod 128 * mu) b t' st) as (rc & r & t'' & mu' & re' & g' & Hr & Hr' & Hpat' & Hcase);
      [lia|intros ->; cbn in Hm; lia|split; dlia|nia|lia|done|].
    exists rc, r, t'', mu', re', g'. split; [exact Hr|]. split; [done|]. split; [lia|done].
Qed.

Lemma case_1_runs b t mu re g m : (1 <= g <= 4)%nat → 0 <= m < 128 ^ Z.of_nat g → worth g m mu re →
  pending t = varint (Datatypes.S g) m ++ body ++ rest → (patience t <= b)%nat →
  goes_on b (case_1 buflen (mkTransport (filled 1, t) mu re (4 - Z.of_nat g) 1)).
Proof.
  intros Hg Hm [H4 Hw] Hp Hb. unfold case_1.
  assert (Hd : ∃ mu' re', MQTTPacket_decodenb (mkTransport (filled 1, t) mu re (4 - Z.of_nat g) 1) =
    decodenb_loop (Datatypes.S g) (mkTransport (filled 1, t) mu' re' (4 - Z.of_nat g) 1) ∧ re' + mu' * m = zlen body).
  { unfold MQTTPacket_decodenb. unfold bind at 1, get at 1. cbn [t_len]. unfold MAX_NO_OF_REMAINING_LENGTH_BYTES.
    replace (Z.to_nat (4 - (4 - Z.of_nat g))) with g by lia. destruct (Z.eqb_spec (4 - Z.of_nat g) 0).
    - exists 1, 0. split; [done|]. rewrite H4 by lia. lia.
    - exists mu, re. split; [done|]. apply Hw. lia. }
  destruct Hd as (mu0 & re0 & Hd & Hre). unfold bind at 1. rewrite Hd.
  destruct (loop_runs g m mu0 re0 (filled 1) t 1 ltac:(lia) ltac:(lia) Hm Hre H4 Hp) as (rc & r & t' & mu' & re' & g' & -> & -> & Hpat & Hcase).
  destruct Hcase as [(-> & m' & Hg' & Hm' & Hw' & Hp')|(Hrc & -> & Hp')].
  { cbn. eexists 0, _. split; [done|]. left. split; [done|]. split; [by apply (stage_1 t' mu' re' g' m')|cbn; lia]. }
  unfold MQTTPACKET_READ_ERROR. destruct (Z.eqb_spec rc (-1)); [lia|]. destruct (Z.eqb_spec rc 0); [lia|].
  unfold bind at 1, get at 1. cbn [rem_len]. rewrite (bind_run _ _ _ _ _ (on_io_run _ _ mu' _ _ 1 _ _ (put_back_run t'))).
  unfold bind at 1, modify at 1. destruct (Z.ltb_spec buflen (zlen body + (1 + zlen v))) as [Hbad|_].
  { pose proof p_length. unfold zlen in *. lia. }
  unfold next_state. unfold bind at 1, modify at 1. cbn [rem_len t_len io multiplier t_state set_t_len set_state].
  pose proof (case_2_runs b t' mu' [] body eq_refl Hp' ltac:(lia)) as Hc. cbn [length] in Hc. change (zlen []) with 0 in Hc.
  by rewrite Nat.add_0_r, Z.add_0_r in Hc.
Qed.

Lemma case_0_runs b t mu re le : pending t = p ++ rest → (patience t <= b)%nat → goes_on b (case_0 buflen (mkTransport (buf0, t) mu re le 0)).
Proof.
  intros Hp Hb. unfold case_0. pose proof p_length as Hlen. pose proof (zlen_nonneg body).
  destruct (fetch_filled 0 1 t ltac:(lia)) as (bs & t' & Hf & Hle & Hp' & Hpat); [by rewrite Hp|lia| |].
  { intros bs Hle Hpre. rewrite Hp in Hpre. rewrite drop_0. destruct (prefix_fits bs p rest) as [l ->]; [|done|by exists l]. unfold zlen in *. lia. }
  change (filled 0) with buf0 in Hf. cbn [Nat.add] in Hf.
  rewrite (bind_run _ _ _ _ _ (on_io_run _ _ mu re le 0 _ _ Hf)). rewrite Hp in Hp'.
  destruct bs as [|x [|y bs]]; [..|rewrite !zlen_cons in Hle; pose proof (zlen_nonneg bs); lia].
  { cbn [zlen length Z.of_nat Z.eqb]. eexists 0, _. split; [done|]. left. split; [done|]. split; [by apply stage_0|cbn; lia]. }
  change (zlen [x]) with 1. cbn [Z.eqb Pos.eqb]. unfold next_state. unfold bind at 1, modify at 1. unfold bind at 1, modify at 1.
  cbn [rem_len t_len io multiplier t_state set_t_len set_state length]. injection Hp' as _ Hp'. rewrite <- app_assoc in Hp'.
  apply (case_1_runs b t' mu re 4 (zlen body)); [lia|cbn; lia|by split|done|lia].
Qed.

Lemma readnb_runs r : stage r → goes_on (patience (io r).2) (MQTTPacket_readnb buflen r).
Proof.
  intros [t mu re le Hp|t mu re g m Hg Hm Hw Hp|t mu stored todo Hbody Hp].
  - by apply case_0_runs.
  - exact (case_1_runs _ t mu re g m Hg Hm Hw Hp (le_n _)).
  - by apply case_2_runs.
Qed.
Lemma poll_runs calls : ∀ r, header_type h ≠ 0 → stage r → (patience (io r).2 < calls)%nat →
  ∃ r', poll calls buflen r = Some (header_type h, r') ∧ finished r'.
Proof.
  induction calls as [|calls IH]; intros r Hh Hs Hc; [lia|]. cbn [poll].
  destruct (readnb_runs r Hs) as (rc & r' & E & [(-> & Hs' & Hp)|[-> Hr]]); rewrite (bind_run _ _ _ _ _ E).
  - apply IH; [done|done|lia].
  - destruct (Z.eqb_spec (header_type h) 0); [done|]. by exists r'.
Qed.
End Reassembly.

(** ** A transport that has the packet *)

#[global] Instance whole_stream : Stream (list Z).
Proof.
  refine {| pending bs := bs; patience bs := length bs |}. intros n bs Hn Hbs. unfold getfn, whole. split; [done|].
  assert (length bs ≠ 0%nat) by by destruct bs. split; [unfold zlen; rewrite length_take; lia|]. split; [by rewrite take_drop|].
  rewrite length_drop. lia.
Defined.

Lemma fetch_whole pre old post bs rest : length old = length bs →
  fetch (zlen pre) (zlen bs) (pre ++ old ++ post, bs ++ rest) = Some (zlen bs, (pre ++ bs ++ post, rest)).
Proof.
  intros Hlen. unfold fetch, bind, get, Datatypes.id, getfn, whole. cbn [fst snd].
  replace (Z.to_nat (zlen bs)) with (length bs) by (unfold zlen; lia). rewrite take_app_length, drop_app_length.
  unfold lift. by rewrite copy_to_run.
Qed.
Lemma getcharfn_whole b c bs : getcharfn (b, c :: bs) = Some ((1, c), (b, bs)).
Proof. reflexivity. Qed.
Lemma decode_whole g : ∀ fuel len mult value n (b post : list Z), (g < fuel)%nat → len + Z.of_nat (Datatypes.S g) = 4 → 0 <= n < 128 ^ Z.of_nat (Datatypes.S g) →
  ∃ len', decode_loop getcharfn fuel len mult value (b, varint (Datatypes.S (Datatypes.S g)) n ++ post) = Some ((len', value + n * mult), (b, post)).
Proof.
  induction g as [|g IH]; intros [|fuel] len mult value n b post Hf Hlen Hn; try lia; cbn [decode_loop]; unfold MAX_NO_OF_REMAINING_LENGTH_BYTES; cbv zeta;
    (destruct (Z.ltb_spec 4 (len + 1)); [lia|]); (destruct (Z.ltb_spec n 128);
    [rewrite varint_last by done; cbn [app]; rewrite (bind_run _ _ _ _ _ (getcharfn_whole b n _)); cbv beta iota;
     destruct (low_bits n ltac:(lia)) as (-> & -> & _); by eexists|]); [cbn in Hn; lia|].
  rewrite varint_step by done. cbn [app]. rewrite (bind_run _ _ _ _ _ (getcharfn_whole b _ _)). cbn [negb Z.eqb Pos.eqb].
  destruct (low_bits (n mod 128) ltac:(dlia)) as (_ & _ & -> & Hbit%Z.eqb_neq). rewrite Hbit. cbn [negb].
  rewrite Nat2Z.inj_succ, Z.pow_succ_r in Hn by lia.
  destruct (IH fuel (len + 1) (mult * 128) (value + n mod 128 * mult) (n / 128) b post) as (len' & ->); [lia|lia|split; dlia|].
  exists len'. do 3 f_equal. pose proof (Z.div_mod n 128 ltac:(lia)). nia.
Qed.

Lemma read_whole h body rest buf0 buflen : zlen body < 2 ^ 28 → zlen (packet h body) <= buflen <= zlen buf0 →
  MQTTPacket_read buflen (buf0, packet h body ++ rest) =
  Some (header_type h, (packet h body ++ drop (length (packet h body)) buf0, rest)).
Proof.
  intros Hn Hfit. pose proof (zlen_nonneg body). unfold MQTTPacket_read.
  assert (Hbuf : (length (packet h body) <= length buf0)%nat) by (unfold zlen in *; lia).
  set (v := varint 5 (zlen body)) in *. assert (Hp : packet h body = [h] ++ v ++ body) by done. set (p := packet h body) in *.
  assert (Hlen : length p = (1 + length v + length body)%nat) by (rewrite Hp, !length_app; cbn; lia).
  assert (Hb0 : ∃ x b1 b2 b3, buf0 = [x] ++ b1 ++ b2 ++ b3 ∧ length b1 = length v ∧ length b2 = length body ∧ b3 = drop (length p) buf0).
  { rewrite Hlen in Hbuf. destruct buf0 as [|x b]; [cbn in Hbuf; lia|]. exists x, (take (length v) b), (take (length body) (drop (length v) b)), (drop (length v + length body) b).
    cbn [length] in Hbuf. rewrite Hlen. split; [by rewrite <- drop_drop, !take_drop|]. rewrite !length_take, length_drop. split; [lia|]. split; [lia|done]. }
  destruct Hb0 as (x & b1 & b2 & b3 & -> & H1 & H2 & H3). rewrite <- H3. clear H3. rewrite Hp, <- !app_assoc.
  rewrite (bind_run _ _ _ _ _ (fetch_whole [] [x] (b1 ++ b2 ++ b3) [h] (v ++ body ++ rest) eq_refl)). change (zlen [h]) with 1. change (zlen []) with 0. cbn [negb Z.eqb Pos.eqb].
  destruct (decode_whole 3 5 0 1 0 (zlen body) ([h] ++ b1 ++ b2 ++ b3) (body ++ rest) ltac:(lia) eq_refl ltac:(cbn; lia)) as [len' Hd].
  fold v in Hd. unfold MQTTPacket_decode. cbn [app] in Hd |- *. rewrite (bind_run _ _ _ _ _ Hd). cbv beta iota. rewrite Z.mul_1_r, Z.add_0_l.
  pose proof (encode_loop_run 5 (zlen body) [] b1 [h] (b2 ++ b3) ltac:(done) ltac:(cbn; lia) H1) as He. fold v in He.
  assert (Hat : at_buf 1 (MQTTPacket_encode (zlen body)) (h :: b1 ++ b2 ++ b3, body ++ rest) = Some (zlen v, (h :: v ++ b2 ++ b3, body ++ rest))).
  { unfold at_buf, zoom, MQTTPacket_encode. cbn [fst snd]. cbn [app] in He. change (zlen []) with 0 in He.
    change (Cursor (h :: b1 ++ b2 ++ b3) 1) with (At [h] (b1 ++ b2 ++ b3)). by rewrite He. }
  rewrite (bind_run _ _ _ _ _ Hat). cbv zeta. destruct (Z.ltb_spec buflen (zlen body + (1 + zlen v))) as [Hbad|_]; [exfalso; clear - Hbad Hfit Hlen; unfold zlen in *; lia|].
  assert (Htype : ∀ l : list Z, type_of_packet (T := list Z) (h :: l, rest) = Some (header_type h, (h :: l, rest))) by done.
  destruct (Z.eqb_spec (zlen body) 0) as [E|E].
  { destruct body; [|done]. destruct b2; [|done]. cbn [app]. apply Htype. }
  change (h :: v ++ b2 ++ b3) with (([h] ++ v) ++ b2 ++ b3). replace (1 + zlen v) with (zlen ([h] ++ v)) by by rewrite zlen_app.
  rewrite (bind_run _ _ _ _ _ (fetch_whole _ b2 b3 body rest H2)). rewrite Z.eqb_refl. cbn [negb app]. apply Htype.
Qed.

(** C14: Fragments are put together. However a transport cuts a packet into
    pieces and makes its reader wait, calling [MQTTPacket_readnb] again while it
    answers 0 comes to an end and gives the type of the packet, the packet in
    the buffer and nothing behind it taken - which is what [MQTTPacket_read]
    gives on a transport that has all the bytes - and leaves the transport
    ready for the next packet. *)
Theorem fragments_reassembled {T} `{Stream T} h body rest buflen r :
  zlen body < 2 ^ 28 → header_type h ≠ 0 → zlen (packet h body) <= buflen <= zlen (io r).1 →
  t_state r = 0 → pending (io r).2 = packet h body ++ rest →
  ∃ rc r' b', poll (Datatypes.S (patience (io r).2)) buflen r = Some (rc, r') ∧ rc = header_type h ∧
    MQTTPacket_read buflen ((io r).1, packet h body ++ rest) = Some (rc, (b', rest)) ∧
    b' = packet h body ++ drop (length (packet h body)) (io r).1 ∧
    (io r').1 = b' ∧ pending (io r').2 = rest ∧ t_state r' = 0.
Proof.
  intros Hn Hh Hfit Hs Hp. destruct r as [[b t] mu re le st]. cbn [io t_state fst snd] in *. subst st.
  destruct (poll_runs h body rest b buflen Hn Hfit _ (mkTransport (b, t) mu re le 0) Hh (stage_0 _ _ _ _ _ _ _ _ Hp) (Nat.lt_succ_diag_r _))
    as (r' & Hr & t' & Hio & Hp' & Hs').
  exists (header_type h), r', (packet h body ++ drop (length (packet h body)) b). rewrite read_whole by done. rewrite Hio. by repeat split.
Qed.

(** *** Witness: a transport that gives a chunk of bytes each time, or none *)

#[global] Instance chunks : Transport (list (list Z)) := λ n cs,
  match cs with
  | [] => (0, [], [])
  | c :: cs => let bs := take (Z.to_nat n) c in
      (zlen bs, bs, match drop (Z.to_nat n) c with [] => cs | c => c :: cs end)
  end.
#[global] Instance chunks_stream : Stream (list (list Z)).
Proof.
  refine {| pending cs := concat cs; patience cs := (length cs + length (concat cs))%nat |}. intros n [|c cs] Hn Hp; [done|].
  unfold getfn, chunks. cbv zeta. split; [done|]. split; [unfold zlen; rewrite length_take; lia|].
  pose proof (take_drop (Z.to_nat n) c) as Hc. assert (Hl : length c ≠ 0%nat → length (take (Z.to_nat n) c) ≠ 0%nat) by (rewrite length_take; lia).
  destruct (drop (Z.to_nat n) c) as [|x l]; set (bs := take (Z.to_nat n) c) in *; clearbody bs; subst c; cbn [concat length];
    rewrite <- ?app_assoc, ?length_app in *; cbn [length app] in *; (split; [done|]); rewrite ?length_app in *; lia.
Defined.

Definition demo_chunks : list (list Z) := [[48]; []; [4; 0]; []; [1; 97]; [98; 208; 0]].
Definition demo_reader : MQTTTransport (list (list Z)) := mkTransport (replicate 8 7, demo_chunks) 9 9 9 0.
Lemma fragments_reassembled_witness : ∃ rc r' b', poll (Datatypes.S (patience demo_chunks)) 8 demo_reader = Some (rc, r') ∧ rc = PUBLISH ∧
  MQTTPacket_read 8 (replicate 8 7, [48; 4; 0; 1; 97; 98; 208; 0]) = Some (rc, (b', [208; 0])) ∧ b' = [48; 4; 0; 1; 97; 98; 7; 7] ∧
  (io r').1 = b' ∧ pending (io r').2 = [208; 0] ∧ t_state r' = 0.
Proof. apply (fragments_reassembled 48 [0; 1; 97; 98] [208; 0] 8 demo_reader); by vm_compute. Defined.
End MqttTransport.
