(* ===== verification/MqttClient.v ===== *)
(** The MQTT client: [components/mqtt/paho/MQTTClient-C/src/MQTTClient.c] and
    the timers, reads and writes of [FreeRTOS/MQTTFreeRTOS.c] under it.

    The socket answers by a script, one entry a call: what the call returns, how
    many ticks pass and what the other tasks do meanwhile. When the script is
    over nothing arrives any more and [select] waits for its timeout. The loops
    end with the script; that the timers end them, however long the script is,
    is the section on the time a call takes ([calls_end]). The application is an interface, [App]: its message handlers and the other tasks
    act on a state the client only knows the flag [isconnected] of. *)
From S2P Require Import Prelude Cjson Misc MqttPacket.

Module MqttClient.
Import Cjson Cstring MqttPacket.

(** ** Time: [tasks.c] and [MQTTFreeRTOS.c] *)

(** [xTicksToWait] and the [TimeOut_t]. *)
Record Timer := mkTimeout { xTicksToWait : Z; xOverflowCount : Z; xTimeOnEntering : Z }.
Definition portTICK_PERIOD_MS : Z := 10.
Definition portMAX_DELAY : Z := 0xffffffff.
Definition xTickCount (now : Z) : Z := u32 now.
Definition xNumOfOverflows (now : Z) : Z := now / 2 ^ 32.

Definition vTaskSetTimeOutState (now : Z) (t : Timer) : Timer := mkTimeout (xTicksToWait t) (xNumOfOverflows now) (xTickCount now).
Definition xTaskCheckForTimeOut (now : Z) (t : Timer) : bool * Timer :=
  let xConstTickCount := xTickCount now in
  let xElapsedTime := u32 (xConstTickCount - xTimeOnEntering t) in
  if xTicksToWait t =? portMAX_DELAY then (false, t)
  else if negb (xNumOfOverflows now =? xOverflowCount t) && (xTimeOnEntering t <=? xConstTickCount) then (true, t)
  else if xElapsedTime <? xTicksToWait t then
    (false, vTaskSetTimeOutState now (mkTimeout (xTicksToWait t - xElapsedTime) (xOverflowCount t) (xTimeOnEntering t)))
  else (true, mkTimeout 0 (xOverflowCount t) (xTimeOnEntering t)).

Definition TimerInit : Timer := mkTimeout 0 0 0.
Definition TimerCountdownMS (now timeout_ms : Z) : Timer := vTaskSetTimeOutState now (mkTimeout (timeout_ms / portTICK_PERIOD_MS) 0 0).
Definition TimerCountdown (now timeout : Z) : Timer := TimerCountdownMS now (u32 (timeout * 1000)).
Definition TimerIsExpired (now : Z) (t : Timer) : bool * Timer := xTaskCheckForTimeOut now t.
Definition TimerLeftMS (now : Z) (t : Timer) : Z * Timer :=
  let '(_, t) := xTaskCheckForTimeOut now t in (s32 (xTicksToWait t * portTICK_PERIOD_MS), t).

(** ** The client *)

Definition MAX_PACKET_ID : Z := 65535.
Definition MAX_MESSAGE_HANDLERS : nat := 5.
Definition QOS0 : Z := 0.
Definition QOS1 : Z := 1.
Definition QOS2 : Z := 2.
Definition SUBFAIL : Z := 0x80.
Definition BUFFER_OVERFLOW : Z := -2.
Definition FAILURE : Z := -1.
Definition SUCCESS : Z := 0.
Definition CONFIG_MQTT_SEND_BUFFER : Z := 2048.
Definition CONFIG_MQTT_RECV_BUFFER : Z := 2048.
Definition CONFIG_MQTT_SEND_CYCLE : Z := 30000.
Definition CONFIG_MQTT_PING_TIMEOUT : Z := 3000.

(** [struct MQTTClient], less [isconnected], which the application shares. A
    topic filter is the memory of its C string; [mutexes] counts the mutexes
    that [MQTTClientInit] has created. *)
Record MQTTClient (handler : Type) := mkClient {
  next_packetid : Z;
  command_timeout_ms : Z;
  buf_size : Z;
  readbuf_size : Z;
  buf : list Z;
  readbuf : list Z;
  keep_alive : Z;
  ping_outstanding : Z;
  clean_session : Z;
  messageHandlers : list (option (list Z) * option handler);
  defaultMessageHandler : option handler;
  last_sent : Timer;
  last_received : Timer;
  ping_wait : Timer;
  mutex : bool;
  mutexes : Z }.
#[global] Arguments mkClient {handler}.
#[global] Arguments next_packetid {handler}.
#[global] Arguments command_timeout_ms {handler}.
#[global] Arguments buf_size {handler}.
#[global] Arguments readbuf_size {handler}.
#[global] Arguments buf {handler}.
#[global] Arguments readbuf {handler}.
#[global] Arguments keep_alive {handler}.
#[global] Arguments ping_outstanding {handler}.
#[global] Arguments clean_session {handler}.
#[global] Arguments messageHandlers {handler}.
#[global] Arguments defaultMessageHandler {handler}.
#[global] Arguments last_sent {handler}.
#[global] Arguments last_received {handler}.
#[global] Arguments ping_wait {handler}.
#[global] Arguments mutex {handler}.
#[global] Arguments mutexes {handler}.

Section Setters.
Context {handler : Type}.
Definition set_next_packetid (v : Z) (r : MQTTClient handler) : MQTTClient handler :=
  mkClient v (command_timeout_ms r) (buf_size r) (readbuf_size r) (buf r) (readbuf r) (keep_alive r) (ping_outstanding r) (clean_session r) (messageHandlers r) (defaultMessageHandler r) (last_sent r) (last_received r) (ping_wait r) (mutex r) (mutexes r).
Definition set_command_timeout_ms (v : Z) (r : MQTTClient handler) : MQTTClient handler :=
  mkClient (next_packetid r) v (buf_size r) (readbuf_size r) (buf r) (readbuf r) (keep_alive r) (ping_outstanding r) (clean_session r) (messageHandlers r) (defaultMessageHandler r) (last_sent r) (last_received r) (ping_wait r) (mutex r) (mutexes r).
Definition set_buf_size (v : Z) (r : MQTTClient handler) : MQTTClient handler :=
  mkClient (next_packetid r) (command_timeout_ms r) v (readbuf_size r) (buf r) (readbuf r) (keep_alive r) (ping_outstanding r) (clean_session r) (messageHandlers r) (defaultMessageHandler r) (last_sent r) (last_received r) (ping_wait r) (mutex r) (mutexes r).
Definition set_readbuf_size (v : Z) (r : MQTTClient handler) : MQTTClient handler :=
  mkClient (next_packetid r) (command_timeout_ms r) (buf_size r) v (buf r) (readbuf r) (keep_alive r) (ping_outstanding r) (clean_session r) (messageHandlers r) (defaultMessageHandler r) (last_sent r) (last_received r) (ping_wait r) (mutex r) (mutexes r).
Definition set_buf (v : list Z) (r : MQTTClient handler) : MQTTClient handler :=
  mkClient (next_packetid r) (command_timeout_ms r) (buf_size r) (readbuf_size r) v (readbuf r) (keep_alive r) (ping_outstanding r) (clean_session r) (messageHandlers r) (defaultMessageHandler r) (last_sent r) (last_received r) (ping_wait r) (mutex r) (mutexes r).
Definition set_readbuf (v : list Z) (r : MQTTClient handler) : MQTTClient handler :=
  mkClient (next_packetid r) (command_timeout_ms r) (buf_size r) (readbuf_size r) (buf r) v (keep_alive r) (ping_outstanding r) (clean_session r) (messageHandlers r) (defaultMessageHandler r) (last_sent r) (last_received r) (ping_wait r) (mutex r) (mutexes r).
Definition set_keep_alive (v : Z) (r : MQTTClient handler) : MQTTClient handler :=
  mkClient (next_packetid r) (command_timeout_ms r) (buf_size r) (readbuf_size r) (buf r) (readbuf r) v (ping_outstanding r) (clean_session r) (messageHandlers r) (defaultMessageHandler r) (last_sent r) (last_received r) (ping_wait r) (mutex r) (mutexes r).
Definition set_ping_outstanding (v : Z) (r : MQTTClient handler) : MQTTClient handler :=
  mkClient (next_packetid r) (command_timeout_ms r) (buf_size r) (readbuf_size r) (buf r) (readbuf r) (keep_alive r) v (clean_session r) (messageHandlers r) (defaultMessageHandler r) (last_sent r) (last_received r) (ping_wait r) (mutex r) (mutexes r).
Definition set_clean_session (v : Z) (r : MQTTClient handler) : MQTTClient handler :=
  mkClient (next_packetid r) (command_timeout_ms r) (buf_size r) (readbuf_size r) (buf r) (readbuf r) (keep_alive r) (ping_outstanding r) v (messageHandlers r) (defaultMessageHandler r) (last_sent r) (last_received r) (ping_wait r) (mutex r) (mutexes r).
Definition set_messageHandlers (v : list (option (list Z) * option handler)) (r : MQTTClient handler) : MQTTClient handler :=
  mkClient (next_packetid r) (command_timeout_ms r) (buf_size r) (readbuf_size r) (buf r) (readbuf r) (keep_alive r) (ping_outstanding r) (clean_session r) v (defaultMessageHandler r) (last_sent r) (last_received r) (ping_wait r) (mutex r) (mutexes r).
Definition set_defaultMessageHandler (v : option handler) (r : MQTTClient handler) : MQTTClient handler :=
  mkClient (next_packetid r) (command_timeout_ms r) (buf_size r) (readbuf_size r) (buf r) (readbuf r) (keep_alive r) (ping_outstanding r) (clean_session r) (messageHandlers r) v (last_sent r) (last_received r) (ping_wait r) (mutex r) (mutexes r).
Definition set_last_sent (v : Timer) (r : MQTTClient handler) : MQTTClient handler :=
  mkClient (next_packetid r) (command_timeout_ms r) (buf_size r) (readbuf_size r) (buf r) (readbuf r) (keep_alive r) (ping_outstanding r) (clean_session r) (messageHandlers r) (defaultMessageHandler r) v (last_received r) (ping_wait r) (mutex r) (mutexes r).
Definition set_last_received (v : Timer) (r : MQTTClient handler) : MQTTClient handler :=
  mkClient (next_packetid r) (command_timeout_ms r) (buf_size r) (readbuf_size r) (buf r) (readbuf r) (keep_alive r) (ping_outstanding r) (clean_session r) (messageHandlers r) (defaultMessageHandler r) (last_sent r) v (ping_wait r) (mutex r) (mutexes r).
Definition set_ping_wait (v : Timer) (r : MQTTClient handler) : MQTTClient handler :=
  mkClient (next_packetid r) (command_timeout_ms r) (buf_size r) (readbuf_size r) (buf r) (readbuf r) (keep_alive r) (ping_outstanding r) (clean_session r) (messageHandlers r) (defaultMessageHandler r) (last_sent r) (last_received r) v (mutex r) (mutexes r).
Definition set_mutex (v : bool) (r : MQTTClient handler) : MQTTClient handler :=
  mkClient (next_packetid r) (command_timeout_ms r) (buf_size r) (readbuf_size r) (buf r) (readbuf r) (keep_alive r) (ping_outstanding r) (clean_session r) (messageHandlers r) (defaultMessageHandler r) (last_sent r) (last_received r) (ping_wait r) v (mutexes r).
Definition set_mutexes (v : Z) (r : MQTTClient handler) : MQTTClient handler :=
  mkClient (next_packetid r) (command_timeout_ms r) (buf_size r) (readbuf_size r) (buf r) (readbuf r) (keep_alive r) (ping_outstanding r) (clean_session r) (messageHandlers r) (defaultMessageHandler r) (last_sent r) (last_received r) (ping_wait r) (mutex r) v.
End Setters.

(** An entry of the script of the socket. *)
Record sockcall (E : Type) := mkCall { returns : Z; bytes_ : list Z; ticks : nat; others : list E }.
#[global] Arguments mkCall {E}.
#[global] Arguments returns {E}.
#[global] Arguments bytes_ {E}.
#[global] Arguments ticks {E}.
#[global] Arguments others {E}.

(** What the client asks of the application: to let an event happen, the event
    that a handler is called with a message, and the flag [isconnected]. *)
Class App (W E handler : Type) := {
  happens : E → MR W unit;
  on_message : handler → publish_data → E;
  connected : W → bool;
  set_connected : bool → W → W }.

(** Everything: the client, the ticks since boot, what the socket will do, what
    has been sent, whether a loop ran out of fuel, what the stack holds where
    [cycle] keeps a message, and the application. *)
Record sys (W E handler : Type) := mkSys {
  client : MQTTClient handler;
  now : Z;
  script : list (sockcall E);
  sent : list Z;
  out_of_fuel : bool;
  stack : publish_data;
  appl : W }.
#[global] Arguments mkSys {W E handler}.
#[global] Arguments client {W E handler}.
#[global] Arguments now {W E handler}.
#[global] Arguments script {W E handler}.
#[global] Arguments sent {W E handler}.
#[global] Arguments out_of_fuel {W E handler}.
#[global] Arguments stack {W E handler}.
#[global] Arguments appl {W E handler}.

Section MqttClient.
Context {W E handler : Type} `{App W E handler}.

Definition set_client (v : MQTTClient handler) (s : sys W E handler) : sys W E handler := mkSys v (now s) (script s) (sent s) (out_of_fuel s) (stack s) (appl s).
Definition set_now (v : Z) (s : sys W E handler) : sys W E handler := mkSys (client s) v (script s) (sent s) (out_of_fuel s) (stack s) (appl s).
Definition set_script (v : list (sockcall E)) (s : sys W E handler) : sys W E handler := mkSys (client s) (now s) v (sent s) (out_of_fuel s) (stack s) (appl s).
Definition set_sent (v : list Z) (s : sys W E handler) : sys W E handler := mkSys (client s) (now s) (script s) v (out_of_fuel s) (stack s) (appl s).
Definition set_app (v : W) (s : sys W E handler) : sys W E handler := mkSys (client s) (now s) (script s) (sent s) (out_of_fuel s) (stack s) v.

Definition read_sys {A} (f : sys W E handler → A) : MR (sys W E handler) A := returning (get f).
Definition read_client {A} (f : MQTTClient handler → A) : MR (sys W E handler) A := read_sys (λ s, f (client s)).
Definition put_client (f : MQTTClient handler → MQTTClient handler) : MR (sys W E handler) unit := returning (modify (λ s, set_client (f (client s)) s)).
Definition give {A} (a : A) : MR (sys W E handler) A := returning (ret a).
Definition access {A} (o : option A) : MR (sys W E handler) A := returning (lift o).
(** A loop has no fuel left: the flag tells. *)
Definition no_fuel {A} (a : A) : MR (sys W E handler) A :=
  returning (modify (λ s, mkSys (client s) (now s) (script s) (sent s) true (stack s) (appl s)) ;;; ret a).
Definition rounds_left (s : sys W E handler) : nat := Datatypes.S (Datatypes.S (length (script s))).

Definition event (e : E) : MR (sys W E handler) unit := zoom appl set_app (happens e).
Fixpoint events (es : list E) : MR (sys W E handler) unit :=
  match es with [] => give tt | e :: es => event e ;? events es end.

(** ** The socket *)

(** The next call: [None] when the script is over. *)
Definition syscall : MR (sys W E handler) (option (sockcall E)) :=
  let? cs := read_sys script in
  match cs with
  | [] => give None
  | c :: cs =>
      returning (modify (λ s, set_now (now s + Z.of_nat (ticks c)) (set_script cs s))) ;?
      events (others c) ;?
      give (Some c)
  end.
Definition select (timeout_ms : Z) : MR (sys W E handler) Z :=
  let? c := syscall in
  match c with
  | Some c => give (returns c)
  | None => returning (modify (λ s, set_now (now s + timeout_ms / portTICK_PERIOD_MS) s)) ;? give 0
  end.
(** [recv] with [MSG_DONTWAIT]: a negative answer, or up to [len] bytes. *)
Definition recv (len : Z) : MR (sys W E handler) (Z * list Z) :=
  let? c := syscall in
  match c with
  | Some c => if returns c <? 0 then give (returns c, [])
              else let bs := take (Z.to_nat len) (bytes_ c) in give (zlen bs, bs)
  | None => give (-1, [])
  end.
(** [send]: a negative answer, or how many of the [len] bytes it took. *)
Definition send (buffer : list Z) (len : Z) : MR (sys W E handler) Z :=
  let? c := syscall in
  match c with
  | Some c =>
      if returns c <? 0 then give (returns c) else
      let n := Z.min (returns c) len in
      if zlen buffer <? n then returning fault else
      returning (modify (λ s, set_sent (sent s ++ take (Z.to_nat n) buffer) s)) ;? give n
  | None => give (-1)
  end.

(** The answer of [esp_read] and the bytes it stored, also when it fails. *)
Fixpoint read_loop (fuel : nat) (len : Z) (t : Timer) (stored : list Z) : MR (sys W E handler) (Z * list Z) :=
  match fuel with
  | O => no_fuel (0, stored)
  | Datatypes.S fuel =>
      let? (rc, bs) := recv (len - zlen stored) in
      if rc <? 0 then give (rc, stored) else
      let stored := stored ++ bs in
      if zlen stored <? len then
        let? n := read_sys now in
        let '(expired, t) := xTaskCheckForTimeOut n t in
        if expired then give (zlen stored, stored) else read_loop fuel len t stored
      else give (zlen stored, stored)
  end.
Definition esp_read (len timeout_ms : Z) : MR (sys W E handler) (Z * list Z) :=
  let? n := read_sys now in
  let t := TimerCountdownMS n timeout_ms in
  let? r := select timeout_ms in
  if r <=? 0 then give (r, []) else
  let? fuel := read_sys rounds_left in
  read_loop fuel len t [].

Fixpoint write_loop (fuel : nat) (buffer : list Z) (len sentLen : Z) (t : Timer) : MR (sys W E handler) Z :=
  match fuel with
  | O => no_fuel 0
  | Datatypes.S fuel =>
      let? rc := send (drop (Z.to_nat sentLen) buffer) (len - sentLen) in
      if rc <? 0 then give rc else
      let sentLen := sentLen + rc in
      if sentLen <? len then
        let? n := read_sys now in
        let '(expired, t) := xTaskCheckForTimeOut n t in
        if expired then give sentLen else write_loop fuel buffer len sentLen t
      else give sentLen
  end.
Definition esp_write (buffer : list Z) (len timeout_ms : Z) : MR (sys W E handler) Z :=
  let? n := read_sys now in
  let t := TimerCountdownMS n timeout_ms in
  let? r := select timeout_ms in
  if r <=? 0 then give r else
  let? fuel := read_sys rounds_left in
  write_loop fuel buffer len 0 t.

(** ** [MQTTClient.c] *)

Definition getNextPacketId : MR (sys W E handler) Z :=
  let? n := read_client next_packetid in
  let id := if n =? MAX_PACKET_ID then 1 else n + 1 in
  put_client (set_next_packetid id) ;? give id.

Definition timer_expired (t : Timer) : MR (sys W E handler) (bool * Timer) := read_sys (λ s, TimerIsExpired (now s) t).
Definition timer_left (t : Timer) : MR (sys W E handler) (Z * Timer) := read_sys (λ s, TimerLeftMS (now s) t).

(** The loop of [sendPacket]: how much was sent. *)
Fixpoint send_loop (fuel : nat) (sent_ length : Z) (t : Timer) : MR (sys W E handler) (Z * Timer) :=
  match fuel with
  | O => no_fuel (sent_, t)
  | Datatypes.S fuel =>
      if sent_ <? length then
        let? (expired, t) := timer_expired t in
        if expired then give (sent_, t) else
        let? (left_ms, t) := timer_left t in
        let? b := read_client buf in
        let? rc := esp_write (drop (Z.to_nat sent_) b) length left_ms in
        if rc <? 0 then give (sent_, t) else send_loop fuel (sent_ + rc) length t
      else give (sent_, t)
  end.
Definition sendPacket (length : Z) (t : Timer) : MR (sys W E handler) (Z * Timer) :=
  let? fuel := read_sys rounds_left in
  let? (sent_, t) := send_loop fuel 0 length t in
  if sent_ =? length then
    let? n := read_sys now in
    put_client (λ c, set_last_sent (TimerCountdown n (keep_alive c)) c) ;?
    give (SUCCESS, t)
  else give (FAILURE, t).

(** [MQTTClientInit]: the buffers given, or new ones; a new mutex each time. *)
Definition MQTTClientInit (malloc : Z → option (list Z)) (command_timeout : Z) (sendbuf readbuf_ : option (list Z * Z)) :
    MR (sys W E handler) bool :=
  put_client (λ c, set_messageHandlers ((λ h, (None, h.2)) <$> messageHandlers c) c) ;?
  put_client (set_command_timeout_ms (if command_timeout =? 0 then CONFIG_MQTT_SEND_CYCLE else command_timeout)) ;?
  match match sendbuf with Some b => Some b | None => b ← malloc CONFIG_MQTT_SEND_BUFFER; Some (b, CONFIG_MQTT_SEND_BUFFER) end with
  | None => give false
  | Some (b, size) =>
      put_client (λ c, set_buf_size size (set_buf b c)) ;?
      match match readbuf_ with Some b => Some b | None => b ← malloc CONFIG_MQTT_RECV_BUFFER; Some (b, CONFIG_MQTT_RECV_BUFFER) end with
      | None => give false
      | Some (b, size) =>
          put_client (λ c, set_readbuf_size size (set_readbuf b c)) ;?
          returning (modify (λ s, set_app (set_connected false (appl s)) s)) ;?
          put_client (λ c, set_clean_session 0 (set_ping_outstanding 0 (set_defaultMessageHandler None (set_next_packetid 1 c)))) ;?
          put_client (λ c, set_last_sent TimerInit (set_last_received TimerInit (set_ping_wait TimerInit c))) ;?
          put_client (λ c, set_mutexes (mutexes c + 1) (set_mutex false c)) ;?
          give true
      end
  end.

(** [mqttread] into [readbuf] at an offset. *)
Definition splice (l : list Z) (off : Z) (bs : list Z) : option (list Z) :=
  if (0 <=? off) && (off + zlen bs <=? zlen l)
  then Some (take (Z.to_nat off) l ++ bs ++ drop (Z.to_nat off + length bs) l) else None.
Definition read_into (off len timeout_ms : Z) : MR (sys W E handler) Z :=
  let? (rc, bs) := esp_read len timeout_ms in
  let? b := read_client readbuf in
  let? b := access (splice b off bs) in
  put_client (set_readbuf b) ;?
  give rc.

(** The decoder of [MQTTPacket.v] with the socket as its source; the character
    that is not read is not looked at. *)
Fixpoint decodePacket_loop (fuel : nat) (len multiplier value timeout : Z) : MR (sys W E handler) (Z * Z) :=
  match fuel with
  | O => no_fuel (len, value)
  | Datatypes.S fuel =>
      let len := len + 1 in
      if MAX_NO_OF_REMAINING_LENGTH_BYTES <? len then give (len, value) else
      let? (rc, bs) := esp_read 1 timeout in
      match bs with
      | i :: _ =>
          if negb (rc =? 1) then give (len, value) else
          let value := value + Z.land i 127 * multiplier in
          if negb (Z.land i 128 =? 0) then decodePacket_loop fuel len (multiplier * 128) value timeout else give (len, value)
      | [] => give (len, value)
      end
  end.
Definition decodePacket (timeout : Z) : MR (sys W E handler) (Z * Z) := decodePacket_loop 5 0 1 0 timeout.

Definition readPacket (t : Timer) : MR (sys W E handler) (Z * Timer) :=
  let? (left_ms, t) := timer_left t in
  let? rc := read_into 0 1 left_ms in
  if negb (rc =? 1) then give (rc, t) else
  let? (left_ms, t) := timer_left t in
  let? (_, rem_len) := decodePacket left_ms in
  let? b := read_client readbuf in
  let? (k, c) := access (MQTTPacket_encode rem_len (Cursor b 1)) in
  put_client (set_readbuf (c_buf c)) ;?
  let len := 1 + k in
  let? size := read_client readbuf_size in
  if u32 (size - len) <? u32 rem_len then give (BUFFER_OVERFLOW, t) else
  let? (complete, t) :=
    (if 0 <? rem_len then
       let? (left_ms, t) := timer_left t in
       let? rc := read_into len rem_len left_ms in
       give (rc =? rem_len, t)
     else give (true, t)) in
  if negb complete then give (0, t) else
  let? b := read_client readbuf in
  let? h := access (rd b 0) in
  let? keep := read_client keep_alive in
  let? n := read_sys now in
  (if 0 <? keep then put_client (set_last_received (TimerCountdown n keep)) else give tt) ;?
  give (header_type h, t).

(** [isTopicMatched]: pointers are the memory from them on, [k] is how far the
    end of the name is. *)
Fixpoint skip_level (fuel : nat) (n : list Z) (k : Z) : option (list Z * Z) :=
  match fuel with
  | O => None
  | Datatypes.S fuel =>
      if 1 <? k then
        next ← rd n 1;
        if next =? 47 then Some (n, k) else skip_level fuel (drop 1 n) (k - 1)
      else Some (n, k)
  end.
Fixpoint match_loop (fuel : nat) (f n : list Z) (k : Z) : option bool :=
  match fuel with
  | O => None
  | Datatypes.S fuel =>
      c ← rd f 0;
      if (c =? 0) || (k <=? 0) then Some ((k =? 0) && (c =? 0)) else
      x ← rd n 0;
      if (x =? 47) && negb (c =? 47) then Some ((k =? 0) && (c =? 0)) else
      if negb (c =? 43) && negb (c =? 35) && negb (c =? x) then Some ((k =? 0) && (c =? 0)) else
      '(n, k) ← (if c =? 43 then skip_level fuel n k
                 else if c =? 35 then Some (drop (Z.to_nat (k - 1)) n, 1) else Some (n, k));
      match_loop fuel (drop 1 f) (drop 1 n) (k - 1)
  end.
Definition isTopicMatched (topicFilter : list Z) (topicName : MQTTString) : option bool :=
  n ← data (lenstring topicName);
  match_loop (Datatypes.S (Datatypes.S (Z.to_nat (len (lenstring topicName))))) topicFilter n (len (lenstring topicName)).

Definition is_for (topicFilter : list Z) (topicName : MQTTString) : option bool :=
  equal ← MQTTPacket_equals topicName topicFilter;
  if (equal : bool) then Some true else isTopicMatched topicFilter topicName.
(** The loop over the handlers from number [i] on. *)
Fixpoint deliver_loop (n : nat) (i : Z) (message : publish_data) (rc : Z) : MR (sys W E handler) Z :=
  match n with
  | O => give rc
  | Datatypes.S n =>
      let? hs := read_client messageHandlers in
      let? (topicFilter, fp) := access (rd hs i) in
      let? found := access (match topicFilter with Some f => is_for f (p_topicName message) | None => Some false end) in
      let? rc :=
        (match found, fp with
         | true, Some h => event (on_message h message) ;? give SUCCESS
         | _, _ => give rc
         end) in
      deliver_loop n (i + 1) message rc
  end.
Definition deliverMessage (message : publish_data) : MR (sys W E handler) Z :=
  let? rc := deliver_loop MAX_MESSAGE_HANDLERS 0 message FAILURE in
  let? default := read_client defaultMessageHandler in
  match default with
  | Some h => if rc =? FAILURE then event (on_message h message) ;? give SUCCESS else give rc
  | None => give rc
  end.

(** A packet is written into [c->buf]. *)
Definition into_buf (m : Z → M (list Z) Z) : MR (sys W E handler) Z :=
  let? size := read_client buf_size in
  returning (zoom (λ s, buf (client s)) (λ b s, set_client (set_buf b (client s)) s) (m size)).

Definition keepalive : MR (sys W E handler) Z :=
  let? keep := read_client keep_alive in
  if keep =? 0 then give SUCCESS else
  let? c := read_client Datatypes.id in
  let? (expired_sent, t) := timer_expired (last_sent c) in
  put_client (set_last_sent t) ;?
  let? due :=
    (if expired_sent then give true else
     let? (expired_received, t) := timer_expired (last_received c) in
     put_client (set_last_received t) ;? give expired_received) in
  if negb due then give SUCCESS else
  let? c := read_client Datatypes.id in
  let? lost :=
    (if negb (ping_outstanding c =? 0) then
       let? (expired, t) := timer_expired (ping_wait c) in
       put_client (set_ping_wait t) ;? give expired
     else give false) in
  if lost then give FAILURE else
  let? n := read_sys now in
  let? len := into_buf MQTTSerialize_pingreq in
  if 0 <? len then
    let? (rc, _) := sendPacket len (TimerCountdownMS n 1000) in
    if rc =? SUCCESS then
      let? n := read_sys now in
      put_client (λ c, set_ping_wait (TimerCountdownMS n CONFIG_MQTT_PING_TIMEOUT) (set_ping_outstanding 1 c)) ;? give rc
    else give rc
  else give SUCCESS.

Definition MQTTCleanSession : MR (sys W E handler) unit :=
  put_client (λ c, set_messageHandlers ((λ h, (None, h.2)) <$> messageHandlers c) c).
Definition put_connected (b : bool) : MR (sys W E handler) unit := returning (modify (λ s, set_app (set_connected b (appl s)) s)).
Definition MQTTCloseSession : MR (sys W E handler) unit :=
  put_client (set_ping_outstanding 0) ;?
  put_connected false ;?
  let? clean := read_client clean_session in
  if clean =? 0 then give tt else MQTTCleanSession.

(** The answer to a message that was delivered. *)
Definition acknowledge (qos packetid : Z) (t : Timer) : MR (sys W E handler) (Z * Timer) :=
  if qos =? QOS0 then give (SUCCESS, t) else
  let? len :=
    (if qos =? QOS1 then into_buf (λ size, MQTTSerialize_ack size PUBACK 0 packetid)
     else if qos =? QOS2 then into_buf (λ size, MQTTSerialize_ack size PUBREC 0 packetid) else give 0) in
  if len <=? 0 then give (FAILURE, t) else sendPacket len t.
(** The answer to PUBREC and PUBREL; [stack] has the uninitialised identifier. *)
Definition release (packet_type : Z) (t : Timer) : MR (sys W E handler) (Z * Timer) :=
  let? b := read_client readbuf in
  let? s := read_sys stack in
  let? (rc, a) := access (MQTTDeserialize_ack (mkAck 0 0 (p_packetid s)) b) in
  if negb (rc =? 1) then give (FAILURE, t) else
  let? len := into_buf (λ size, MQTTSerialize_ack size (if packet_type =? PUBREC then PUBREL else PUBCOMP) 0 (a_packetid a)) in
  if len <=? 0 then give (FAILURE, t) else
  let? (rc, t) := sendPacket len t in
  give (if rc =? SUCCESS then SUCCESS else FAILURE, t).

(** What the packet asks for: [rc], and whether [cycle] jumps to its end. *)
Definition dispatch (packet_type : Z) (t : Timer) : MR (sys W E handler) (Z * bool * Timer) :=
  if (packet_type =? 0) || (packet_type =? CONNACK) || (packet_type =? PUBACK) || (packet_type =? SUBACK)
     || (packet_type =? UNSUBACK) || (packet_type =? PUBCOMP)
  then give (SUCCESS, false, t)
  else if packet_type =? PUBLISH then
    let? b := read_client readbuf in
    let? s := read_sys stack in
    let? (rc, msg) := access (MQTTDeserialize_publish (mkPublish (p_dup s) (p_qos s) (p_retained s) (p_packetid s) (p_topicName s) (p_payload s) 0) b) in
    if negb (rc =? 1) then give (SUCCESS, true, t) else
    deliverMessage msg ;?
    let? (rc, t) := acknowledge (p_qos msg) (p_packetid msg) t in
    give (rc, rc =? FAILURE, t)
  else if (packet_type =? PUBREC) || (packet_type =? PUBREL) then
    let? (rc, t) := release packet_type t in
    give (rc, rc =? FAILURE, t)
  else if packet_type =? PINGRESP then
    put_client (set_ping_outstanding 0) ;? give (SUCCESS, false, t)
  else give (packet_type, true, t).

Definition cycle (t : Timer) : MR (sys W E handler) (Z * Timer) :=
  let? (packet_type, t) := readPacket t in
  let? (rc, exit, t) := dispatch packet_type t in
  let? rc :=
    (if (exit : bool) then give rc else
     let? k := keepalive in
     give (if k =? SUCCESS then rc else FAILURE)) in
  if rc =? SUCCESS then give (packet_type, t) else
  let? up := read_sys (λ s, connected (appl s)) in
  (if up then MQTTCloseSession else give tt) ;?
  give (rc, t).

Fixpoint yield_loop (fuel : nat) (t : Timer) : MR (sys W E handler) Z :=
  match fuel with
  | O => no_fuel SUCCESS
  | Datatypes.S fuel =>
      let? (rc, t) := cycle t in
      if rc <? 0 then give FAILURE else
      let? (expired, t) := timer_expired t in
      if expired then give SUCCESS else yield_loop fuel t
  end.
Definition MQTTYield (timeout_ms : Z) : MR (sys W E handler) Z :=
  let? n := read_sys now in
  let? fuel := read_sys rounds_left in
  yield_loop fuel (TimerCountdownMS n timeout_ms).

Fixpoint waitfor_loop (fuel : nat) (packet_type rc : Z) (t : Timer) : MR (sys W E handler) (Z * Timer) :=
  match fuel with
  | O => no_fuel (rc, t)
  | Datatypes.S fuel =>
      let? (expired, t) := timer_expired t in
      if expired then give (rc, t) else
      let? (rc, t) := cycle t in
      if negb (rc =? packet_type) && (0 <=? rc) then waitfor_loop fuel packet_type rc t else give (rc, t)
  end.
Definition waitfor (packet_type : Z) (t : Timer) : MR (sys W E handler) Z :=
  let? fuel := read_sys rounds_left in
  let? (rc, _) := waitfor_loop fuel packet_type FAILURE t in
  give rc.

(** The mutex of the client around a call. Taking it twice blocks for ever. *)
Definition with_mutex {A} (m : MR (sys W E handler) A) : MR (sys W E handler) A :=
  let? taken := read_client mutex in
  if taken then returning fault else
  put_client (set_mutex true) ;?
  let? a := m in
  put_client (set_mutex false) ;?
  give a.

Definition command_timer : MR (sys W E handler) Timer :=
  let? n := read_sys now in
  let? ms := read_client command_timeout_ms in
  give (TimerCountdownMS n ms).
(** Send the packet in [buf] and wait for its answer: [k] looks at it. *)
Definition send_and_wait (len : Z) (t : Timer) (packet_type : Z) (k : MR (sys W E handler) Z) : MR (sys W E handler) Z :=
  if len <=? 0 then give FAILURE else
  let? (rc, t) := sendPacket len t in
  if negb (rc =? SUCCESS) then give rc else
  let? answer := waitfor packet_type t in
  if answer =? packet_type then k else give FAILURE.
Definition close_on_failure (rc : Z) : MR (sys W E handler) Z :=
  (if rc =? FAILURE then MQTTCloseSession else give tt) ;? give rc.

(** A request on the session: with the mutex, refused without a session; a
    failure closes it. *)
Definition command (m : MR (sys W E handler) Z) : MR (sys W E handler) Z := with_mutex (
  let? up := read_sys (λ s, connected (appl s)) in
  let? rc := (if negb up then give FAILURE else m) in
  close_on_failure rc).

(** The login. The answer is the return code and the data of the CONNACK, which
    are the caller's when it does not come. *)
Definition connect_session (options : option connectData) (d : connack_data) : MR (sys W E handler) (Z * connack_data) :=
  let? t := command_timer in
  let options := default MQTTPacket_connectData_initializer options in
  let? n := read_sys now in
  put_client (λ c, set_last_received (TimerCountdown n (keepAliveInterval options))
    (set_clean_session (cleansession options) (set_keep_alive (keepAliveInterval options) c))) ;?
  let? len := into_buf (λ size, MQTTSerialize_connect size options) in
  if len <=? 0 then give (FAILURE, d) else
  let? (rc, t) := sendPacket len t in
  if negb (rc =? SUCCESS) then give (rc, d) else
  let? answer := waitfor CONNACK t in
  if answer =? CONNACK then
    let? b := read_client readbuf in
    let? (rc, d) := access (MQTTDeserialize_connack (mkConnack 0 0) b) in
    give (if rc =? 1 then k_rc d else FAILURE, d)
  else give (FAILURE, d).
Definition MQTTConnectWithResults (options : option connectData) (d : connack_data) : MR (sys W E handler) (Z * connack_data) := with_mutex (
  let? up := read_sys (λ s, connected (appl s)) in
  let? (rc, d) := (if up then give (FAILURE, d) else connect_session options d) in
  (if rc =? SUCCESS then put_connected true ;? put_client (set_ping_outstanding 0) else give tt) ;?
  give (rc, d)).
(** [data] is uninitialised: [d]. *)
Definition MQTTConnect (options : option connectData) (d : connack_data) : MR (sys W E handler) Z :=
  let? (rc, _) := MQTTConnectWithResults options d in give rc.

(** [strcmp] of two C strings, equal or not. *)
Definition same_filter (a b : list Z) : option bool := s ← c_string b; strcmp_eq a s.
Fixpoint find_handler (n : nat) (i : Z) (test : option (list Z) → option bool) (hs : list (option (list Z) * option handler)) : option Z :=
  match n with
  | O => Some i
  | Datatypes.S n =>
      h ← rd hs i;
      found ← test h.1;
      if (found : bool) then Some i else find_handler n (i + 1) test hs
  end.
Definition MQTTSetMessageHandler (topicFilter : list Z) (messageHandler : option handler) : MR (sys W E handler) Z :=
  let? hs := read_client messageHandlers in
  let? i := access (find_handler MAX_MESSAGE_HANDLERS 0
    (λ f, match f with Some f => same_filter f topicFilter | None => Some false end) hs) in
  let put i h := (let? hs := read_client messageHandlers in let? hs := access (wr hs i h) in put_client (set_messageHandlers hs)) in
  let found := i <? Z.of_nat MAX_MESSAGE_HANDLERS in
  match messageHandler with
  | None => (if found then put i (None, None) else give tt) ;? give (if found then SUCCESS else FAILURE)
  | Some h =>
      let? i := (if found then give i
                 else access (find_handler MAX_MESSAGE_HANDLERS 0 (λ f, Some (bool_decide (f = None))) hs)) in
      if i <? Z.of_nat MAX_MESSAGE_HANDLERS then put i (Some topicFilter, Some h) ;? give SUCCESS else give FAILURE
  end.

(** A C string as an [MQTTString]. *)
Definition from_cstring (c : list Z) : MQTTString := mkString (Some c) (lenstring MQTTString_initializer).

(** [stack] has the uninitialised identifier. *)
Definition MQTTSubscribe (topicFilter : list Z) (qos : Z) (messageHandler : option handler) : MR (sys W E handler) Z := command (
  let? t := command_timer in
  let? id := getNextPacketId in
  let? len := into_buf (λ size, MQTTSerialize_subscribe size 0 id 1 [from_cstring topicFilter] [qos]) in
  send_and_wait len t SUBACK (
    let? b := read_client readbuf in
    let? s := read_sys stack in
    let? (rc, d) := access (MQTTDeserialize_suback 1 (mkSuback (p_packetid s) 0 [QOS0]) b) in
    let? granted := access (rd (s_grantedQoSs d) 0) in
    if (rc =? 1) && negb (granted =? SUBFAIL) then MQTTSetMessageHandler topicFilter messageHandler else give SUCCESS)).

Definition MQTTUnsubscribe (topicFilter : list Z) : MR (sys W E handler) Z := command (
  let? t := command_timer in
  let? id := getNextPacketId in
  let? len := into_buf (λ size, MQTTSerialize_unsubscribe size 0 id 1 [from_cstring topicFilter]) in
  send_and_wait len t UNSUBACK (
    let? b := read_client readbuf in
    let? s := read_sys stack in
    let? (rc, _) := access (MQTTDeserialize_unsuback (p_packetid s) b) in
    (if rc =? 1 then MQTTSetMessageHandler topicFilter None ;? give tt else give tt) ;? give SUCCESS)).

(** [MQTTMessage] as the caller fills it. *)
Record MQTTMessage := mkMQTTMessage { m_qos : Z; m_retained : Z; m_id : Z; m_payload : list Z; m_payloadlen : Z }.
Definition check_ack : MR (sys W E handler) Z :=
  let? b := read_client readbuf in
  let? s := read_sys stack in
  let? (rc, _) := access (MQTTDeserialize_ack (mkAck 0 0 (p_packetid s)) b) in
  give (if rc =? 1 then SUCCESS else FAILURE).
Definition MQTTPublish (topicName : list Z) (message : MQTTMessage) : MR (sys W E handler) Z := command (
  let? t := command_timer in
  let? id := (if (m_qos message =? QOS1) || (m_qos message =? QOS2) then getNextPacketId else give (m_id message)) in
  let? len := into_buf (λ size, MQTTSerialize_publish size 0 (m_qos message) (m_retained message) id (from_cstring topicName)
                                  (m_payload message) (s32 (m_payloadlen message))) in
  if m_qos message =? QOS1 then send_and_wait len t PUBACK check_ack
  else if m_qos message =? QOS2 then send_and_wait len t PUBCOMP check_ack
  else if len <=? 0 then give FAILURE else let? (rc, _) := sendPacket len t in give rc).

Definition MQTTDisconnect : MR (sys W E handler) Z := with_mutex (
  let? t := command_timer in
  let? len := into_buf MQTTSerialize_disconnect in
  let? rc := (if 0 <? len then let? (rc, _) := sendPacket len t in give rc else give FAILURE) in
  MQTTCloseSession ;? give rc).




(** ** What happens to the application

    Seen from the application a run of the client is a list of events: those of
    the other tasks, the handlers it calls, and the end of the session. *)
Class AppLaws := {
  closed : E;
  closed_happens w : happens closed w = Some (Some tt, set_connected false w) }.

Fixpoint happen (es : list E) : MR W unit :=
  match es with [] => returning (ret tt) | e :: es => happens e ;? happen es end.
Lemma happen_app es es' w : happen (es ++ es') w = (happen es ;? happen es') w.
Proof.
  revert w. induction es as [|e es IH]; intros w; [done|]. cbn [happen app]. unfold bind_r, bind in *.
  destruct (happens e w) as [[[u|] w1]|]; [apply IH|done|done].
Qed.

Section Traces.
Context `{AppLaws}.

(** [m] does nothing to the application but a list of events. *)
Definition traces {A} (m : MR (sys W E handler) A) : Prop :=
  ∀ s r s', m s = Some (r, s') → ∃ es, happen es (appl s) = Some ((λ _, tt) <$> r, appl s').

Lemma traces_bind {A B} (m : MR (sys W E handler) A) (k : A → MR (sys W E handler) B) : traces m → (∀ a, traces (k a)) → traces (bind_r m k).
Proof.
  intros Hm Hk s r s' ([a|] & s1 & Hr & Hr')%bind_Some_inv; destruct (Hm _ _ _ Hr) as [es Hes].
  - destruct (Hk a _ _ _ Hr') as [es' Hes']. exists (es ++ es'). rewrite happen_app. by rewrite (bind_r_run _ _ _ _ _ Hes).
  - injection Hr' as <- <-. by exists es.
Qed.
(** A step inside the client. *)
Lemma traces_returning {A} (m : M (sys W E handler) A) : (∀ s a s', m s = Some (a, s') → appl s' = appl s) → traces (returning m).
Proof. intros Hm s r s' (a & s1 & Hr & [= <- <-])%bind_Some_inv. exists []. by rewrite (Hm _ _ _ Hr). Qed.
Lemma traces_read_sys {A} (f : sys W E handler → A) : traces (read_sys f).
Proof. apply traces_returning. by intros s a s' [= <- <-]. Qed.
Lemma traces_read_client {A} (f : MQTTClient handler → A) : traces (read_client f).
Proof. apply traces_read_sys. Qed.
Lemma traces_put_client f : traces (put_client f).
Proof. apply traces_returning. by intros s a s' [= <- <-]. Qed.
Lemma traces_give {A} (a : A) : traces (give a).
Proof. apply traces_returning. by intros s a' s' [= <- <-]. Qed.
Lemma traces_access {A} (o : option A) : traces (access o).
Proof. apply traces_returning. intros s a s'. unfold lift. destruct o; cbn; [by intros [= <- <-]|done]. Qed.
Lemma traces_no_fuel {A} (a : A) : traces (no_fuel a).
Proof. apply traces_returning. by intros s a' s' [= <- <-]. Qed.
Lemma traces_modify f : (∀ s, appl (f s) = appl s) → traces (returning (modify f)).
Proof. intros Hf. apply traces_returning. intros s a s' [= <- <-]. apply Hf. Qed.
Lemma traces_fault {A} : traces (returning fault : MR (sys W E handler) A).
Proof. by apply traces_returning. Qed.
Lemma traces_event e : traces (event e).
Proof.
  intros s r s'. unfold event, zoom. destruct (happens e (appl s)) as [[a w]|] eqn:Ee; [|done]. intros [= <- <-].
  exists [e]. cbn [happen]. unfold bind_r. rewrite (bind_run _ _ _ _ _ Ee). by destruct a as [[]|].
Qed.
Lemma traces_closed : traces (put_connected false).
Proof.
  intros s r s' (a & s1 & [= <- <-] & [= <- <-])%bind_Some_inv. exists [closed]. cbn [happen].
  by rewrite (bind_r_run _ _ _ _ _ (closed_happens _)).
Qed.
Lemma traces_into_buf m : traces (into_buf m).
Proof.
  apply traces_bind; [apply traces_read_client|]. intros size. apply traces_returning. intros s a s'. unfold zoom.
  destruct (m size _) as [[? ?]|]; [by intros [= <- <-]|done].
Qed.
End Traces.

Create HintDb traces discriminated.
#[local] Hint Constants Opaque : traces.
#[local] Hint Resolve traces_read_sys traces_read_client traces_put_client traces_give traces_access traces_no_fuel traces_fault
  traces_event traces_closed traces_into_buf : traces.
Ltac trace := repeat first
  [ match goal with
    | |- traces (bind_r _ _) => apply traces_bind; [|intros]
    | |- traces (returning (modify _)) => apply traces_modify; done
    | |- traces (if ?b then _ else _) => destruct b
    | |- traces (match ?x with _ => _ end) => destruct x
    | |- traces (let _ := _ in _) => cbv zeta
    end
  | solve [auto with traces] ].

Section Traces2.
Context `{AppLaws}.

Lemma traces_events es : traces (events es).
Proof. induction es as [|e es IH]; cbn [events]; trace. Qed.
#[local] Hint Resolve traces_events : traces.
Lemma traces_syscall : traces syscall.
Proof. unfold syscall. trace. Qed.
Lemma traces_select n : traces (select n).
Proof. unfold select, syscall. trace. Qed.
Lemma traces_recv n : traces (recv n).
Proof. unfold recv, syscall. trace. Qed.
Lemma traces_send b n : traces (send b n).
Proof. unfold send, syscall. trace. Qed.
#[local] Hint Resolve traces_select traces_recv traces_send : traces.
Lemma traces_esp_read n ms : traces (esp_read n ms).
Proof.
  unfold esp_read. trace. match goal with |- traces (read_loop ?fuel ?len ?t ?stored) => generalize t, stored; induction fuel as [|fuel IH]; intros ? ? end; cbn [read_loop]; trace.
Qed.
Lemma traces_esp_write b n ms : traces (esp_write b n ms).
Proof.
  unfold esp_write. trace. match goal with |- traces (write_loop ?fuel _ _ ?k ?t) => generalize t, k; induction fuel as [|fuel IH]; intros ? ? end; cbn [write_loop]; trace.
Qed.
#[local] Hint Resolve traces_esp_read traces_esp_write : traces.
Lemma traces_sendPacket n t : traces (sendPacket n t).
Proof.
  unfold sendPacket. trace. match goal with |- traces (send_loop ?fuel ?k _ ?t) => generalize t, k; induction fuel as [|fuel IH]; intros ? ? end;
    cbn [send_loop]; unfold timer_expired, timer_left; trace.
Qed.
#[local] Hint Resolve traces_sendPacket : traces.
Lemma traces_decode k ms : ∀ l m v, traces (decodePacket_loop k l m v ms).
Proof. induction k as [|k IH]; intros l m v; cbn [decodePacket_loop]; trace. Qed.
#[local] Hint Resolve traces_decode : traces.
Lemma traces_readPacket t : traces (readPacket t).
Proof. unfold readPacket, read_into, timer_left, decodePacket. trace. Qed.
#[local] Hint Resolve traces_readPacket : traces.
Lemma traces_close : traces MQTTCloseSession.
Proof. unfold MQTTCloseSession, MQTTCleanSession. trace. Qed.
#[local] Hint Resolve traces_close : traces.
Lemma traces_handlers n msg : ∀ i rc, traces (deliver_loop n i msg rc).
Proof. induction n as [|n IH]; intros i rc; cbn [deliver_loop]; trace. Qed.
#[local] Hint Resolve traces_handlers : traces.
Lemma traces_deliver msg : traces (deliverMessage msg).
Proof. unfold deliverMessage. trace. Qed.
#[local] Hint Resolve traces_deliver : traces.
Lemma traces_cycle t : traces (cycle t).
Proof. unfold cycle, dispatch, acknowledge, release, keepalive, timer_expired. trace. Qed.
#[local] Hint Resolve traces_cycle : traces.
Lemma traces_waitfor p t : traces (waitfor p t).
Proof.
  unfold waitfor. trace. match goal with |- traces (waitfor_loop ?fuel _ ?rc ?t) => generalize rc, t; induction fuel as [|fuel IH]; intros ? ? end;
    cbn [waitfor_loop]; unfold timer_expired; trace.
Qed.
#[local] Hint Resolve traces_waitfor : traces.
Lemma traces_yield ms : traces (MQTTYield ms).
Proof.
  unfold MQTTYield. trace. match goal with |- traces (yield_loop ?fuel ?t) => generalize t; induction fuel as [|fuel IH]; intros ? end;
    cbn [yield_loop]; unfold timer_expired; trace.
Qed.
Lemma traces_send_and_wait n t p k : traces k → traces (send_and_wait n t p k).
Proof. intros Hk. unfold send_and_wait. trace. Qed.
Lemma traces_set_handler f h : traces (MQTTSetMessageHandler f h).
Proof. unfold MQTTSetMessageHandler. trace. Qed.
#[local] Hint Resolve traces_set_handler : traces.
Lemma traces_subscribe f q h : traces (MQTTSubscribe f q h).
Proof. unfold MQTTSubscribe, command, with_mutex, close_on_failure, command_timer, getNextPacketId. trace. apply traces_send_and_wait. trace. Qed.
Lemma traces_unsubscribe f : traces (MQTTUnsubscribe f).
Proof. unfold MQTTUnsubscribe, command, with_mutex, close_on_failure, command_timer, getNextPacketId. trace. apply traces_send_and_wait. trace. Qed.
Lemma traces_publish f m : traces (MQTTPublish f m).
Proof. unfold MQTTPublish, command, with_mutex, close_on_failure, command_timer, getNextPacketId, check_ack. trace; apply traces_send_and_wait; trace. Qed.
Lemma traces_disconnect : traces MQTTDisconnect.
Proof. unfold MQTTDisconnect, with_mutex, command_timer. trace. Qed.
Lemma traces_connect_session options d : traces (connect_session options d).
Proof. unfold connect_session, command_timer. trace. Qed.
End Traces2.

(** ** Topics

    A topic is its levels with '/' between them. '+' stands for one level and
    '#' for all that are left; the code wants the level there not to be empty. *)
Fixpoint join (ls : list (list Z)) : list Z :=
  match ls with [] => [] | [l] => l | l :: ls => l ++ 47 :: join ls end.
(** What follows the first level. *)
Definition tail_text (ls : list (list Z)) : list Z := match ls with [] => [] | _ => 47 :: join ls end.
Fixpoint level_match (fs ns : list (list Z)) : bool :=
  match fs, ns with
  | [], [] => true
  | f :: fs, n :: ns =>
      if bool_decide (f = [35]) then bool_decide (n ≠ [])
      else if bool_decide (f = [43]) then bool_decide (n ≠ []) && level_match fs ns
      else bool_decide (f = n) && level_match fs ns
  | _, _ => false
  end.
(** A filter as the protocol asks for it: '+' alone in its level, '#' alone in
    the last one. *)
Definition plain (l : list Z) : Prop := Forall (λ c, c ≠ 0 ∧ c ≠ 47 ∧ c ≠ 43 ∧ c ≠ 35) l.
Fixpoint filter_ok (fs : list (list Z)) : Prop :=
  match fs with
  | [] => True
  | f :: fs => (plain f ∨ f = [43] ∨ (f = [35] ∧ fs = [])) ∧ filter_ok fs
  end.
Definition level (l : list Z) : Prop := Forall (λ c, c ≠ 47) l.

Lemma join_cons l ls : join (l :: ls) = l ++ tail_text ls.
Proof. destruct ls; cbn; [by rewrite app_nil_r|done]. Qed.

Lemma skip_level_run : ∀ l fuel x ns rest, level (x :: l) → (length l < fuel)%nat →
  skip_level fuel ((x :: l) ++ tail_text ns ++ rest) (zlen ((x :: l) ++ tail_text ns)) =
  Some (drop (length l) (x :: l) ++ tail_text ns ++ rest, 1 + zlen (tail_text ns)).
Proof.
  induction l as [|y l IH]; intros fuel x ns rest Hl Hf; (destruct fuel as [|fuel]; [lia|]); cbn [skip_level].
  - rewrite zlen_app. change (zlen [x]) with 1. cbn [app length drop]. destruct ns as [|n ns]; [done|].
    pose proof (zlen_nonneg (join (n :: ns))). change (tail_text (n :: ns)) with (47 :: join (n :: ns)). rewrite zlen_cons. destruct (Z.ltb_spec 1 (1 + (1 + zlen (join (n :: ns))))); [|lia]. done.
  - apply Forall_cons in Hl as [_ Hl]. rewrite zlen_app, !zlen_cons. pose proof (zlen_nonneg l). pose proof (zlen_nonneg (tail_text ns)).
    destruct (Z.ltb_spec 1 (1 + (1 + zlen l) + zlen (tail_text ns))); [|lia].
    cbn [app rd]. change (rd (x :: y :: ?r) 1) with (Some y). cbn [mbind option_bind].
    destruct (Z.eqb_spec y 47) as [->|]; [by apply Forall_cons in Hl as [? _]|].
    change (drop 1 (x :: y :: ?r)) with (y :: r).
    specialize (IH fuel y ns rest Hl ltac:(cbn in Hf; lia)). cbn [app] in IH. rewrite zlen_cons, zlen_app in IH.
    replace (1 + (1 + zlen l) + zlen (tail_text ns) - 1) with (1 + (zlen l + zlen (tail_text ns))) by lia. exact IH.
Qed.

(** The characters of a level without wildcards, against a level of the name. *)
Lemma match_plain : ∀ f n fuel fs ns m rest, plain f → level n → (length n < fuel)%nat →
  match_loop fuel (f ++ tail_text fs ++ 0 :: m) (n ++ tail_text ns ++ rest) (zlen (n ++ tail_text ns)) =
  if bool_decide (f = n) then match_loop (fuel - length f) (tail_text fs ++ 0 :: m) (tail_text ns ++ rest) (zlen (tail_text ns)) else Some false.
Proof.
  induction f as [|c f IH]; intros n fuel fs ns m rest Hf Hn Hfuel.
  - destruct n as [|x n]; [cbn [app length]; by rewrite Nat.sub_0_r|]. rewrite bool_decide_eq_false_2 by done.
    destruct fuel as [|fuel]; [cbn in Hfuel; lia|]. cbn [match_loop app]. rewrite zlen_cons. pose proof (zlen_nonneg (n ++ tail_text ns)).
    apply Forall_cons in Hn as [Hx _]. assert (Hk : (1 + zlen (n ++ tail_text ns) =? 0) = false) by (apply Z.eqb_neq; lia).
    assert (Hk' : (1 + zlen (n ++ tail_text ns) <=? 0) = false) by (apply Z.leb_gt; lia).
    assert (Hx' : (x =? 47) = false) by by apply Z.eqb_neq. destruct fs as [|f0 fs].
    + cbn [tail_text app]. change (rd (0 :: ?r) 0) with (Some 0). cbn [mbind option_bind Z.eqb orb]. by rewrite Hk.
    + change (tail_text (f0 :: fs)) with (47 :: join (f0 :: fs)). cbn [app]. change (rd (47 :: ?r) 0) with (Some 47). cbn [mbind option_bind]. change (47 =? 0) with false. cbn [orb].
      rewrite Hk'. change (rd (x :: ?r) 0) with (Some x). cbn [mbind option_bind]. rewrite Hx'.
      change (47 =? 43) with false. change (47 =? 35) with false. cbn [negb andb]. destruct (Z.eqb_spec 47 x); [by subst|]. cbn [negb]. by rewrite Hk.
  - apply Forall_cons in Hf as [(H0 & H47 & H43 & H35) Hf]. destruct fuel as [|fuel]; [cbn in Hfuel; lia|]. cbn [match_loop app length].
    change (rd (c :: ?r) 0) with (Some c). cbn [mbind option_bind]. destruct (Z.eqb_spec c 0); [done|]. cbn [orb].
    apply Z.eqb_neq in H47, H43, H35. destruct n as [|x n].
    + rewrite bool_decide_eq_false_2 by done. cbn [app]. destruct ns as [|n ns]; [done|]. change (tail_text (n :: ns)) with (47 :: join (n :: ns)). rewrite zlen_cons.
      pose proof (zlen_nonneg (join (n :: ns))). destruct (Z.leb_spec (1 + zlen (join (n :: ns))) 0); [lia|]. cbn [app].
      change (rd (47 :: ?r) 0) with (Some 47). cbn [mbind option_bind Z.eqb Pos.eqb]. rewrite H47. cbn [negb andb].
      destruct (Z.eqb_spec (1 + zlen (join (n :: ns))) 0); [lia|]. done.
    + apply Forall_cons in Hn as [Hx Hn]. cbn [app]. rewrite zlen_cons. pose proof (zlen_nonneg (n ++ tail_text ns)).
      destruct (Z.leb_spec (1 + zlen (n ++ tail_text ns)) 0); [lia|]. change (rd (x :: ?r) 0) with (Some x). cbn [mbind option_bind].
      apply Z.eqb_neq in Hx. rewrite Hx, H43, H35. cbn [negb andb]. destruct (Z.eqb_spec c x) as [->|Hne]; cbn [negb].
      * cbn [mbind option_bind]. change (drop 1 (x :: ?r)) with r. replace (1 + zlen (n ++ tail_text ns) - 1) with (zlen (n ++ tail_text ns)) by lia.
        rewrite IH by (done || (cbn in Hfuel; lia)). by rewrite (bool_decide_ext (x :: f = x :: n) (f = n)) by (split; congruence).
      * rewrite bool_decide_eq_false_2 by congruence. destruct (Z.eqb_spec (1 + zlen (n ++ tail_text ns)) 0); [lia|]. done.
Qed.

(** Between two levels, and at the end of the filter or of the name. *)
Lemma match_ended fs ns fuel m rest : (0 < fuel)%nat → fs = [] ∨ ns = [] →
  match_loop fuel (tail_text fs ++ 0 :: m) (tail_text ns ++ rest) (zlen (tail_text ns)) = Some (level_match fs ns).
Proof.
  intros Hf Hor. destruct fuel as [|fuel]; [lia|]. cbn [match_loop]. destruct Hor as [-> | ->].
  - cbn [tail_text app]. change (rd (0 :: ?r) 0) with (Some 0). cbn [mbind option_bind Z.eqb orb]. destruct ns as [|n ns]; [done|].
    change (tail_text (n :: ns)) with (47 :: join (n :: ns)). rewrite zlen_cons. pose proof (zlen_nonneg (join (n :: ns))).
    destruct (Z.eqb_spec (1 + zlen (join (n :: ns))) 0); [lia|]. done.
  - destruct fs as [|f fs]; [done|]. by change (tail_text (f :: fs)) with (47 :: join (f :: fs)).
Qed.
Lemma match_slash fuel f n k : 0 <= k → match_loop (Datatypes.S fuel) (47 :: f) (47 :: n) (1 + k) = match_loop fuel f n k.
Proof.
  intros Hk. cbn [match_loop]. change (rd (47 :: ?r) 0) with (Some 47). cbn [mbind option_bind].
  change (47 =? 0) with false. cbn [orb]. destruct (Z.leb_spec (1 + k) 0); [lia|].
  change (47 =? 47) with true. change (47 =? 43) with false. change (47 =? 35) with false. cbn [negb andb].
  cbn [mbind option_bind]. change (drop 1 (47 :: ?r)) with r. by replace (1 + k - 1) with k by lia.
Qed.
Lemma match_next fs ns fuel m rest :
  (∀ f fs' n ns' fuel, fs = f :: fs' → ns = n :: ns' → (length (join ns) + 1 < fuel)%nat →
    match_loop fuel (join fs ++ 0 :: m) (join ns ++ rest) (zlen (join ns)) = Some (level_match fs ns)) →
  (length (tail_text ns) + 1 < fuel)%nat →
  match_loop fuel (tail_text fs ++ 0 :: m) (tail_text ns ++ rest) (zlen (tail_text ns)) = Some (level_match fs ns).
Proof.
  intros IH Hf. destruct fs as [|f fs], ns as [|n ns]; try (apply match_ended; [lia|by auto]).
  change (tail_text (?x :: ?l)) with (47 :: join (x :: l)) in *. cbn [app length] in *. destruct fuel as [|fuel]; [lia|].
  rewrite zlen_cons, match_slash by apply zlen_nonneg. eapply IH; [done..|]. lia.
Qed.
(** A wildcard at an empty level, and past the end of the name. *)
Lemma match_wild_empty c fuel f ns rest : c = 43 ∨ c = 35 → match_loop (Datatypes.S fuel) (c :: f) (tail_text ns ++ rest) (zlen (tail_text ns)) = Some false.
Proof.
  intros Hc. cbn [match_loop]. change (rd (c :: ?r) 0) with (Some c). cbn [mbind option_bind].
  assert (H0 : (c =? 0) = false) by (apply Z.eqb_neq; lia). rewrite H0. cbn [orb]. destruct ns as [|n ns]; [done|].
  change (tail_text (n :: ns)) with (47 :: join (n :: ns)). rewrite zlen_cons. pose proof (zlen_nonneg (join (n :: ns))).
  destruct (Z.leb_spec (1 + zlen (join (n :: ns))) 0); [lia|]. cbn [app]. change (rd (47 :: ?r) 0) with (Some 47). cbn [mbind option_bind].
  change (47 =? 47) with true. assert (H47 : (c =? 47) = false) by (apply Z.eqb_neq; lia). rewrite H47. cbn [negb andb].
  by destruct (Z.eqb_spec (1 + zlen (join (n :: ns))) 0); [lia|].
Qed.
Lemma match_wild c fuel f x n k : c = 43 ∨ c = 35 → x ≠ 47 → 0 < k →
  match_loop (Datatypes.S fuel) (c :: f) (x :: n) k =
  ('(n, k) ← (if c =? 43 then skip_level fuel (x :: n) k else Some (drop (Z.to_nat (k - 1)) (x :: n), 1)); match_loop fuel f (drop 1 n) (k - 1)).
Proof.
  intros Hc Hx Hk. cbn [match_loop]. change (rd (?y :: ?r) 0) with (Some y). cbn [mbind option_bind].
  assert (H0 : (c =? 0) = false) by (apply Z.eqb_neq; lia). rewrite H0. cbn [orb]. destruct (Z.leb_spec k 0); [lia|].
  apply Z.eqb_neq in Hx. rewrite Hx. cbn [andb]. by destruct Hc as [-> | ->].
Qed.

Lemma plain_wild f : plain f → f ≠ [35] ∧ f ≠ [43].
Proof. intros Hf. split; intros ->; by apply Forall_cons in Hf as [(? & ? & ? & ?) _]. Qed.

Lemma drop_last_one (x : Z) n : ∃ y, drop (length n) (x :: n) = [y].
Proof. revert x. induction n as [|z n IH]; intros x; [by exists x|]. apply (IH z). Qed.
Lemma match_level f n fs ns fuel m rest : plain f ∨ f = [43] ∨ (f = [35] ∧ fs = []) → level n →
  (∀ k, (length (tail_text ns) + 1 < k)%nat →
    match_loop k (tail_text fs ++ 0 :: m) (tail_text ns ++ rest) (zlen (tail_text ns)) = Some (level_match fs ns)) →
  (length (n ++ tail_text ns) + 1 < fuel)%nat →
  match_loop fuel (f ++ tail_text fs ++ 0 :: m) (n ++ tail_text ns ++ rest) (zlen (n ++ tail_text ns)) = Some (level_match (f :: fs) (n :: ns)).
Proof.
  intros Hf Hn Hnext Hfuel. rewrite length_app in Hfuel. cbn [level_match].
  destruct Hf as [Hf|Hw].
  { destruct (plain_wild f Hf) as [H35 H43]. rewrite (bool_decide_eq_false_2 (f = [35])), (bool_decide_eq_false_2 (f = [43])) by done.
    rewrite match_plain by (done || lia). case_bool_decide as Efn; [|done]. subst n. rewrite Hnext by lia. done. }
  assert (Hc : ∃ c, f = [c] ∧ (c = 43 ∨ c = 35)) by (destruct Hw as [->|[-> _]]; eauto). destruct Hc as (c & -> & Hc). cbn [app].
  destruct fuel as [|fuel]; [lia|]. destruct n as [|x n].
  { cbn [app]. rewrite match_wild_empty by done. by destruct Hc as [-> | ->]. }
  assert (Hx : x ≠ 47) by by apply Forall_cons in Hn as [? _]. pose proof (zlen_nonneg (n ++ tail_text ns)).
  cbn [app]. rewrite match_wild by (done || (rewrite zlen_cons; lia)).
  rewrite (bool_decide_eq_true_2 (x :: n ≠ [])) by done. destruct Hw as [[= ->]|[[= ->] ->]].
  - change (43 =? 43) with true. change (x :: n ++ ?r) with ((x :: n) ++ r). rewrite skip_level_run by (done || (cbn in Hfuel; lia)).
    cbn [mbind option_bind]. destruct (drop_last_one x n) as [y ->]. cbn [app]. change (drop 1 (y :: ?r)) with r.
    replace (1 + zlen (tail_text ns) - 1) with (zlen (tail_text ns)) by lia. rewrite Hnext by (cbn in Hfuel; lia). done.
  - change (35 =? 43) with false. cbn [mbind option_bind tail_text app]. destruct fuel as [|fuel]; [cbn in Hfuel; lia|]. cbn [match_loop].
    change (rd (0 :: m) 0) with (Some 0). done.
Qed.
Lemma match_levels_run : ∀ fs ns f n fuel m rest, filter_ok (f :: fs) → Forall level (n :: ns) →
  (length (join (n :: ns)) + 1 < fuel)%nat →
  match_loop fuel (join (f :: fs) ++ 0 :: m) (join (n :: ns) ++ rest) (zlen (join (n :: ns))) = Some (level_match (f :: fs) (n :: ns)).
Proof.
  induction fs as [|f' fs IH]; intros ns f n fuel m rest [Hf Hfs] [Hn Hns]%Forall_cons Hfuel;
    rewrite (join_cons n) in *; rewrite (join_cons f), <- !app_assoc; apply match_level; try done; intros k Hk; apply match_next; try done.
  intros f0 fs' n' ns' fuel' [= <- <-] -> Hl. by apply IH.
Qed.

(** C13: [isTopicMatched] decides the match of levels: on a filter of the form
    the protocol asks for, '+' matches one level that is not empty, '#' all
    that is left when its first level is not empty, and any other level itself.
    The name is given by a pointer and a length; what follows it and the filter
    in memory does not matter. *)
Theorem topic_matches f fs n ns after_filter after_name : filter_ok (f :: fs) → Forall level (n :: ns) →
  isTopicMatched (join (f :: fs) ++ 0 :: after_filter) (mkString None (mkLenString (zlen (join (n :: ns))) (Some (join (n :: ns) ++ after_name)))) =
  Some (level_match (f :: fs) (n :: ns)).
Proof.
  intros Hf Hn. unfold isTopicMatched. cbn [data lenstring len mbind option_bind]. apply match_levels_run; [done..|]. unfold zlen. lia.
Qed.

(** ** Timers *)

(** A timer that was set or checked at [n] and has [d] ticks left. *)
Definition armed (n d : Z) : Timer := mkTimeout d (xNumOfOverflows n) (xTickCount n).
Definition small (t : Timer) : Prop := 0 <= 10 * xTicksToWait t < 2 ^ 31.

Lemma countdown_armed n ms : TimerCountdownMS n ms = armed n (ms / 10).
Proof. done. Qed.
Lemma countdown_small n ms : 0 <= ms < 2 ^ 31 → small (TimerCountdownMS n ms).
Proof. intros Hms. unfold small, TimerCountdownMS, portTICK_PERIOD_MS. cbn. dlia. Qed.
Lemma check_small n t : small t → small (xTaskCheckForTimeOut n t).2.
Proof.
  unfold small. intros Ht. unfold xTaskCheckForTimeOut. pose proof (u32_range (xTickCount n - xTimeOnEntering t)) as Hr. unfold in_u32 in Hr.
  destruct (_ =? portMAX_DELAY); [done|]. destruct (negb _ && _); [done|]. destruct (Z.ltb_spec (u32 (xTickCount n - xTimeOnEntering t)) (xTicksToWait t)); cbn; lia.
Qed.
(** A timer that has not expired is armed again. *)
Lemma check_running n t t' : small t → xTaskCheckForTimeOut n t = (false, t') → ∃ d, t' = armed n d ∧ 0 < d ∧ 10 * d < 2 ^ 31.
Proof.
  unfold small. intros Ht. unfold xTaskCheckForTimeOut. pose proof (u32_range (xTickCount n - xTimeOnEntering t)) as Hr. unfold in_u32 in Hr.
  destruct (Z.eqb_spec (xTicksToWait t) portMAX_DELAY) as [Em|]; [unfold portMAX_DELAY in Em; lia|].
  destruct (negb _ && _); [done|]. destruct (Z.ltb_spec (u32 (xTickCount n - xTimeOnEntering t)) (xTicksToWait t)); [|done].
  intros [= <-]. eexists. split; [done|]. cbn [xTicksToWait]. lia.
Qed.
Lemma ticks_elapsed n n' : n <= n' < n + 2 ^ 32 → u32 (xTickCount n' - xTickCount n) = n' - n ∧
  (xNumOfOverflows n' = xNumOfOverflows n ∨ xTickCount n' < xTickCount n).
Proof.
  intros Hn. unfold xTickCount, xNumOfOverflows, u32. rewrite Zminus_mod_idemp_l, Zminus_mod_idemp_r, Z.mod_small by lia. split; [done|].
  pose proof (Z.div_mod n (2 ^ 32) ltac:(lia)). pose proof (Z.div_mod n' (2 ^ 32) ltac:(lia)).
  pose proof (Z.mod_pos_bound n (2 ^ 32) ltac:(lia)). pose proof (Z.mod_pos_bound n' (2 ^ 32) ltac:(lia)).
  destruct (Z.eq_dec (n' / 2 ^ 32) (n / 2 ^ 32)); [by left|right]. assert (n' / 2 ^ 32 = n / 2 ^ 32 + 1) by nia. nia.
Qed.
(** The check of an armed timer within 2^32 ticks. *)
Lemma check_armed n d n' : 0 <= 10 * d < 2 ^ 31 → n <= n' < n + 2 ^ 32 →
  xTaskCheckForTimeOut n' (armed n d) = if n' - n <? d then (false, armed n' (d - (n' - n))) else (true, mkTimeout 0 (xNumOfOverflows n) (xTickCount n)).
Proof.
  intros Hd Hn. unfold xTaskCheckForTimeOut, armed. cbn [xTicksToWait xOverflowCount xTimeOnEntering].
  destruct (Z.eqb_spec d portMAX_DELAY) as [Em|]; [unfold portMAX_DELAY in Em; lia|].
  destruct (ticks_elapsed n n' Hn) as [-> Hor].
  assert (Hno : negb (xNumOfOverflows n' =? xNumOfOverflows n) && (xTickCount n <=? xTickCount n') = false).
  { destruct Hor as [-> | ?]; [by rewrite Z.eqb_refl|]. destruct (Z.leb_spec (xTickCount n) (xTickCount n')); [lia|]. apply andb_false_r. }
  rewrite Hno. done.
Qed.
Lemma left_armed n d : 0 <= 10 * d < 2 ^ 31 → TimerLeftMS n (armed n d) = (d * 10, armed n d).
Proof.
  intros Hd. unfold TimerLeftMS. rewrite check_armed by lia. rewrite Z.sub_diag, Z.sub_0_r. unfold portTICK_PERIOD_MS.
  destruct (Z.ltb_spec 0 d); cbn [xTicksToWait armed].
  - rewrite s32_small by lia. done.
  - assert (d = 0) as -> by lia. done.
Qed.

(** ** No loop runs out of fuel

    [hoare P m Q]: a run of [m] from a state of [P] ends in one of [Q], or in a
    restart, with all its loops complete. *)
Definition hoare {A} (P : sys W E handler → Prop) (m : MR (sys W E handler) A) (Q : A → sys W E handler → Prop) : Prop :=
  ∀ s r s', P s → m s = Some (r, s') → match r with Some a => Q a s' | None => out_of_fuel s' = false end.
(** At most [n] entries of the script are left. *)
Definition frugal (n : nat) (s : sys W E handler) : Prop := out_of_fuel s = false ∧ (length (script s) <= n)%nat.
Definition ensures {A} (n : nat) (m : MR (sys W E handler) A) (Q : A → Prop) : Prop := hoare (frugal n) m (λ a s, frugal n s ∧ Q a).
Definition any {A} : A → Prop := λ _, True.

Lemma hoare_bind {A B} P (m : MR (sys W E handler) A) (k : A → MR (sys W E handler) B) Q R :
  hoare P m Q → (∀ a, hoare (Q a) (k a) R) → hoare P (bind_r m k) R.
Proof.
  intros Hm Hk s r s' HP ([a|] & s1 & Hr & Hr')%bind_Some_inv; specialize (Hm _ _ _ HP Hr); cbn in Hm.
  - by eapply Hk.
  - by injection Hr' as <- <-.
Qed.
Lemma hoare_weaken {A} (P P' : sys W E handler → Prop) (m : MR (sys W E handler) A) (Q Q' : A → sys W E handler → Prop) :
  hoare P' m Q' → (∀ s, P s → P' s) → (∀ a s, Q' a s → Q a s) → hoare P m Q.
Proof. intros Hm HP HQ s r s' Hs Hr. specialize (Hm _ _ _ (HP s Hs) Hr). destruct r; auto. Qed.
Lemma hoare_returning {A} P (m : M (sys W E handler) A) Q : (∀ s a s', P s → m s = Some (a, s') → Q a s') → hoare P (returning m) Q.
Proof. intros Hm s r s' HP (a & s1 & Hr & [= <- <-])%bind_Some_inv. by eapply Hm. Qed.
Lemma hoare_point {A} P (m : MR (sys W E handler) A) Q : (∀ s, P s → hoare (eq s) m Q) → hoare P m Q.
Proof. intros Hm s r s' HP Hr. by eapply (Hm s HP). Qed.

Lemma frugal_le n n' s : frugal n s → (n <= n')%nat → frugal n' s.
Proof. intros [? ?]. split; [done|lia]. Qed.
Lemma ensures_bind {A B} n (m : MR (sys W E handler) A) (k : A → MR (sys W E handler) B) Q R :
  ensures n m Q → (∀ a, Q a → ensures n (k a) R) → ensures n (bind_r m k) R.
Proof. intros Hm Hk. eapply hoare_bind; [exact Hm|]. intros a s r s' [Hf Hq]. by apply Hk. Qed.
Lemma ensures_any {A} n (m : MR (sys W E handler) A) Q : ensures n m Q → ensures n m any.
Proof. intros Hm. eapply hoare_weaken; [exact Hm|done|]. intros a s [? _]. by split. Qed.
Lemma ensures_le {A} n n' (m : MR (sys W E handler) A) Q : (n <= n')%nat → ensures n m Q → hoare (frugal n) m (λ a s, frugal n' s ∧ Q a).
Proof. intros Hn Hm. eapply hoare_weaken; [exact Hm|done|]. intros a s [? ?]. split; [by eapply frugal_le|done]. Qed.

(** A step that does not touch the script nor the flag. *)
Lemma ensures_returning {A} n (m : M (sys W E handler) A) (Q : A → Prop) :
  (∀ s a s', m s = Some (a, s') → script s' = script s ∧ out_of_fuel s' = out_of_fuel s ∧ Q a) → ensures n (returning m) Q.
Proof. intros Hm. apply hoare_returning. intros s a s' [Hf Hl] Hr. destruct (Hm _ _ _ Hr) as (Es & Ef & Hq). unfold frugal. by rewrite Es, Ef. Qed.
Lemma ensures_read_sys {A} n (f : sys W E handler → A) Q : (∀ s, Q (f s)) → ensures n (read_sys f) Q.
Proof. intros Hf. apply ensures_returning. by intros s a s' [= <- <-]. Qed.
Lemma ensures_read {A} n (f : sys W E handler → A) : ensures n (read_sys f) any.
Proof. by apply ensures_read_sys. Qed.
Lemma ensures_read_client {A} n (f : MQTTClient handler → A) : ensures n (read_client f) any.
Proof. apply ensures_read. Qed.
Lemma ensures_put_client n f : ensures n (put_client f) any.
Proof. apply ensures_returning. by intros s a s' [= <- <-]. Qed.
Lemma ensures_give {A} n (a : A) Q : Q a → ensures n (give a) Q.
Proof. intros Ha. apply ensures_returning. by intros s a' s' [= <- <-]. Qed.
Lemma ensures_access {A} n (o : option A) : ensures n (access o) any.
Proof. apply ensures_returning. intros s a s'. unfold lift. destruct o; cbn; [by intros [= <- <-]|done]. Qed.
Lemma ensures_fault {A} n Q : ensures n (returning fault : MR (sys W E handler) A) Q.
Proof. by apply ensures_returning. Qed.
Lemma ensures_event n e : ensures n (event e) any.
Proof.
  intros s r s' [Hf Hl]. unfold event, zoom. destruct (happens e (appl s)) as [[a w]|]; [|done]. intros [= <- <-]. by destruct a.
Qed.
Lemma ensures_put_connected n b : ensures n (put_connected b) any.
Proof. apply ensures_returning. by intros s a s' [= <- <-]. Qed.
Lemma ensures_into_buf n m : ensures n (into_buf m) any.
Proof.
  eapply ensures_bind; [apply ensures_read_client|]. intros size _. apply ensures_returning. intros s a s'. unfold zoom.
  destruct (m size _) as [[? ?]|]; [by intros [= <- <-]|done].
Qed.
Lemma ensures_timer_expired n t : small t → ensures n (timer_expired t) (λ r, small r.2).
Proof. intros Ht. apply ensures_read_sys. intros s. by apply check_small. Qed.
Lemma ensures_timer_left n t : small t → ensures n (timer_left t) (λ r, small r.2).
Proof.
  intros Ht. apply ensures_read_sys. intros s. pose proof (check_small (now s) t Ht) as Hc. unfold TimerLeftMS.
  by destruct (xTaskCheckForTimeOut (now s) t).
Qed.
Lemma ensures_events n es : ensures n (events es) any.
Proof.
  induction es as [|e es IH]; cbn [events]; [by apply ensures_give|]. eapply ensures_bind; [apply ensures_event|]. intros _ _. apply IH.
Qed.

Create HintDb ensures discriminated.
#[local] Hint Constants Opaque : ensures.
#[local] Hint Resolve ensures_read ensures_read_client ensures_put_client ensures_access ensures_fault ensures_event ensures_events
  ensures_put_connected ensures_into_buf ensures_timer_expired ensures_timer_left : ensures.
(** Take a procedure apart; a call that returns a timer returns a small one. *)
Ltac ens_step := first
  [ match goal with
    | |- ensures _ (bind_r (timer_expired _) _) _ => eapply ensures_bind; [apply ensures_timer_expired; assumption|intros [? ?] ?; cbn [snd] in *]
    | |- ensures _ (bind_r (timer_left _) _) _ => eapply ensures_bind; [apply ensures_timer_left; assumption|intros [? ?] ?; cbn [snd] in *]
    | |- ensures _ (bind_r _ _) _ => eapply (ensures_bind _ _ _ any); [|intros ? _]
    | |- ensures _ (give _) _ => apply ensures_give; first [exact I|assumption]
    | |- ensures _ (if ?b then _ else _) _ => destruct b
    | |- ensures _ (match ?x with _ => _ end) _ => destruct x
    | |- ensures _ (let _ := _ in _) _ => cbv zeta
    end
  | solve [auto with ensures] ].
Ltac ens := repeat ens_step.

(** A call of the socket uses up an entry, unless the script is over. *)
Lemma syscall_hoare n : hoare (frugal n) syscall (λ c s, frugal n s ∧ (is_Some c → frugal (pred n) s ∧ (0 < n)%nat)).
Proof.
  intros s r s' Hf. unfold syscall. rewrite (bind_r_run _ _ s (script s) s eq_refl). destruct (script s) as [|c cs] eqn:Es.
  - intros [= <- <-]. split; [done|]. by intros [? ?].
  - intros Hr. assert (Hlen : (0 < n)%nat) by (destruct Hf as [_ Hl]; rewrite Es in Hl; cbn in Hl; lia).
    set (s1 := set_now (now s + Z.of_nat (ticks c)) (set_script cs s)). rewrite (bind_r_run (returning (modify (λ s0, set_now (now s0 + Z.of_nat (ticks c)) (set_script cs s0)))) _ s tt s1 eq_refl) in Hr.
    assert (H1 : frugal (pred n) s1) by (destruct Hf as [Hfu Hl]; split; [done|]; rewrite Es in Hl; cbn in *; lia).
    assert (Hk : ensures (pred n) (events (others c) ;? give (Some c)) any) by ens. specialize (Hk _ _ _ H1 Hr). destruct r as [c'|]; [|done].
    destruct Hk as [Hk _]. split; [eapply (frugal_le (pred n)); [done|lia]|done].
Qed.
Lemma select_hoare n ms : hoare (frugal n) (select ms) (λ r s, frugal n s ∧ (frugal (pred n) s ∧ (0 < n)%nat ∨ r = 0)).
Proof.
  eapply hoare_bind; [apply syscall_hoare|]. intros [c|] s r s' [Hf Hp].
  - intros [= <- <-]. split; [done|]. left. by apply Hp.
  - intros [= <- <-]. split; [done|by right].
Qed.
Lemma recv_hoare n len : hoare (frugal n) (recv len) (λ r s, frugal n s ∧ (0 <= r.1 → frugal (pred n) s ∧ (0 < n)%nat)).
Proof.
  eapply hoare_bind; [apply syscall_hoare|]. intros [c|] s r s' [Hf Hp].
  - destruct (_ <? 0); intros [= <- <-]; (split; [done|]); intros _; by apply Hp.
  - intros [= <- <-]. split; [done|]. cbn. lia.
Qed.
Lemma send_hoare n b len : hoare (frugal n) (send b len) (λ r s, frugal n s ∧ (0 <= r → frugal (pred n) s ∧ (0 < n)%nat)).
Proof.
  eapply hoare_bind; [apply syscall_hoare|]. intros [c|] s r s' [Hf Hp].
  - destruct (_ <? 0); [intros [= <- <-]; split; [done|]; intros _; by apply Hp|]. cbv zeta; destruct (zlen b <? Z.min (returns c) len); [done|].
    intros [= <- <-]. split; [done|]. intros _. by apply Hp.
  - intros [= <- <-]. split; [done|]. cbn. lia.
Qed.

Lemma ensures_rounds {A} n (m : nat → MR (sys W E handler) A) Q :
  (∀ k, (k <= n)%nat → ensures k (m (Datatypes.S (Datatypes.S k))) Q) → ensures n (let? fuel := read_sys rounds_left in m fuel) Q.
Proof.
  intros Hm s r s' [Hf Hl] Hr. rewrite (bind_r_run _ _ s (rounds_left s) s eq_refl) in Hr.
  refine (ensures_le _ _ _ _ Hl (Hm (length (script s)) Hl) s r s' _ Hr). by split.
Qed.

Lemma ensures_read_loop len : ∀ fuel n t stored, (n < fuel)%nat → ensures n (read_loop fuel len t stored) any.
Proof.
  induction fuel as [|fuel IH]; intros n t stored Hn; [lia|]. cbn [read_loop]. eapply hoare_bind; [apply recv_hoare|].
  intros [rc bs] s r s' [Hf Hp]. destruct (Z.ltb_spec rc 0) as [|Hrc]; [revert s r s' Hf Hp; intros s r s' Hf _ [= <- <-]; by split|].
  destruct (Hp Hrc) as [Hf' Hn']. intros Hr. refine (ensures_le (pred n) n _ any ltac:(lia) _ s r s' Hf' Hr).
  cbv zeta. match goal with |- ensures _ (if ?b then _ else _) _ => destruct b end; [|by apply ensures_give]. eapply (ensures_bind _ _ _ any); [apply ensures_read|intros k _].
  destruct (xTaskCheckForTimeOut k t) as [[] t']; [by apply ensures_give|]. apply IH. lia.
Qed.
Lemma ensures_write_loop b len : ∀ fuel n sentLen t, (n < fuel)%nat → ensures n (write_loop fuel b len sentLen t) any.
Proof.
  induction fuel as [|fuel IH]; intros n sentLen t Hn; [lia|]. cbn [write_loop]. eapply hoare_bind; [apply send_hoare|].
  intros rc s r s' [Hf Hp]. destruct (Z.ltb_spec rc 0) as [|Hrc]; [revert s r s' Hf Hp; intros s r s' Hf _ [= <- <-]; by split|].
  destruct (Hp Hrc) as [Hf' Hn']. intros Hr. refine (ensures_le (pred n) n _ any ltac:(lia) _ s r s' Hf' Hr).
  cbv zeta. match goal with |- ensures _ (if ?b then _ else _) _ => destruct b end; [|by apply ensures_give]. eapply (ensures_bind _ _ _ any); [apply ensures_read|intros k _].
  destruct (xTaskCheckForTimeOut k t) as [[] t']; [by apply ensures_give|]. apply IH. lia.
Qed.

(** Reading and writing use up an entry, unless the script is over: then they
    return 0. *)
Lemma esp_read_hoare n len ms : hoare (frugal n) (esp_read len ms) (λ r s, frugal n s ∧ (frugal (pred n) s ∧ (0 < n)%nat ∨ r = (0, []))).
Proof.
  eapply hoare_bind; [apply (ensures_read n now)|]. intros k. cbv zeta. eapply hoare_bind; [eapply hoare_weaken; [apply (select_hoare n)|by intros s [? _]|done]|].
  intros r0 s r s' [Hf Hor]. destruct (Z.leb_spec r0 0) as [|Hpos].
  - intros [= <- <-]. split; [done|]. destruct Hor as [?| ->]; [by left|by right].
  - destruct Hor as [[Hf' Hn']|]; [|lia]. intros Hr.
    assert (Hk : ensures (pred n) (let? fuel := read_sys rounds_left in read_loop fuel len (TimerCountdownMS k ms) []) any).
    { apply ensures_rounds. intros j _. apply ensures_read_loop. lia. }
    specialize (Hk _ _ _ Hf' Hr). destruct r as [r|]; [|done]. destruct Hk as [Hk _]. split; [eapply (frugal_le (pred n)); [done|lia]|by left].
Qed.
Lemma esp_write_hoare n b len ms : hoare (frugal n) (esp_write b len ms) (λ r s, frugal n s ∧ (frugal (pred n) s ∧ (0 < n)%nat ∨ r = 0)).
Proof.
  eapply hoare_bind; [apply (ensures_read n now)|]. intros k. cbv zeta. eapply hoare_bind; [eapply hoare_weaken; [apply (select_hoare n)|by intros s [? _]|done]|].
  intros r0 s r s' [Hf Hor]. destruct (Z.leb_spec r0 0) as [|Hpos].
  - intros [= <- <-]. split; [done|]. destruct Hor as [?| ->]; [by left|by right].
  - destruct Hor as [[Hf' Hn']|]; [|lia]. intros Hr.
    assert (Hk : ensures (pred n) (let? fuel := read_sys rounds_left in write_loop fuel b len 0 (TimerCountdownMS k ms)) any).
    { apply ensures_rounds. intros j _. apply ensures_write_loop. lia. }
    specialize (Hk _ _ _ Hf' Hr). destruct r as [r|]; [|done]. destruct Hk as [Hk _]. split; [eapply (frugal_le (pred n)); [done|lia]|by left].
Qed.
Lemma ensures_esp_read n len ms : ensures n (esp_read len ms) any.
Proof. eapply hoare_weaken; [apply esp_read_hoare|done|]. intros a s [? _]. by split. Qed.
Lemma ensures_esp_write n b len ms : ensures n (esp_write b len ms) any.
Proof. eapply hoare_weaken; [apply esp_write_hoare|done|]. intros a s [? _]. by split. Qed.
#[local] Hint Resolve ensures_esp_read ensures_esp_write : ensures.

(** *** When the script is over

    Time passes by what the calls wait for, and nothing else happens. *)
Definition idled (k : Z) (s s' : sys W E handler) : Prop :=
  script s' = [] ∧ out_of_fuel s' = out_of_fuel s ∧ now s <= now s' <= now s + k.
Definition rests {A} (k : Z) (m : MR (sys W E handler) A) (Q : A → Prop) : Prop :=
  ∀ s r s', script s = [] → m s = Some (r, s') → idled k s s' ∧ ∃ a, r = Some a ∧ Q a.

Lemma idled_trans k j s s1 s2 : idled k s s1 → idled j s1 s2 → idled (k + j) s s2.
Proof. intros (? & E1 & ?) (? & E2 & ?). unfold idled. rewrite E2, E1. repeat split; (done || lia). Qed.
Lemma rests_bind {A B} k j (m : MR (sys W E handler) A) (f : A → MR (sys W E handler) B) Q R :
  rests k m Q → (∀ a, Q a → rests j (f a) R) → rests (k + j) (bind_r m f) R.
Proof.
  intros Hm Hf s r s' Hs (o & s1 & Hr & Hr')%bind_Some_inv. destruct (Hm _ _ _ Hs Hr) as [Hi (a & -> & Ha)].
  destruct (Hf a Ha s1 r s') as [Hi' Hr'']; [by destruct Hi|done|]. split; [by eapply idled_trans|done].
Qed.
Lemma rests_free {A B} k (m : MR (sys W E handler) A) (f : A → MR (sys W E handler) B) Q R :
  rests 0 m Q → (∀ a, Q a → rests k (f a) R) → rests k (bind_r m f) R.
Proof. intros Hm Hf. rewrite <- (Z.add_0_l k). by eapply rests_bind. Qed.
Lemma rests_le {A} k k' (m : MR (sys W E handler) A) Q : rests k m Q → k <= k' → rests k' m Q.
Proof. intros Hm Hk s r s' Hs Hr. destruct (Hm _ _ _ Hs Hr) as [(? & ? & ?) ?]. split; [repeat split; (done || lia)|done]. Qed.
Lemma rests_returning {A} k (m : M (sys W E handler) A) (Q : A → Prop) : 0 <= k →
  (∀ s a s', m s = Some (a, s') → script s' = script s ∧ out_of_fuel s' = out_of_fuel s ∧ now s' = now s ∧ Q a) → rests k (returning m) Q.
Proof.
  intros Hk Hm s r s' Hs (a & s1 & Hr & [= <- <-])%bind_Some_inv. destruct (Hm _ _ _ Hr) as (E1 & E2 & E3 & Ha).
  unfold idled. rewrite E1, E2, E3. repeat split; (done || lia || eauto).
Qed.
Lemma rests_read_sys {A} k (f : sys W E handler → A) Q : 0 <= k → (∀ s, Q (f s)) → rests k (read_sys f) Q.
Proof. intros Hk Hf. apply rests_returning; [done|]. by intros s a s' [= <- <-]. Qed.
Lemma rests_give {A} k (a : A) Q : 0 <= k → Q a → rests k (give a) Q.
Proof. intros Hk Ha. apply rests_returning; [done|]. by intros s a' s' [= <- <-]. Qed.
Lemma rests_put_client k f : 0 <= k → rests k (put_client f) any.
Proof. intros Hk. apply rests_returning; [done|]. by intros s a s' [= <- <-]. Qed.
Lemma rests_put_connected k b : 0 <= k → rests k (put_connected b) any.
Proof. intros Hk. apply rests_returning; [done|]. by intros s a s' [= <- <-]. Qed.
Lemma rests_into_buf m : rests 0 (into_buf m) any.
Proof.
  eapply rests_free; [by apply (rests_read_sys 0 _ any)|]. intros size _. apply rests_returning; [done|]. intros s a s'. unfold zoom.
  destruct (m size _) as [[? ?]|]; [by intros [= <- <-]|done].
Qed.
Lemma rests_close k : 0 <= k → rests k MQTTCloseSession any.
Proof.
  intros Hk. unfold MQTTCloseSession, MQTTCleanSession. eapply rests_free; [by apply rests_put_client|intros _ _].
  eapply rests_free; [by apply rests_put_connected|intros _ _]. eapply rests_free; [by apply (rests_read_sys 0 _ any)|intros c _].
  destruct (c =? 0); [by apply rests_give|by apply rests_put_client].
Qed.

Lemma bind_r_none {A B} (m : MR (sys W E handler) A) (k : A → MR (sys W E handler) B) s : m s = None → bind_r m k s = None.
Proof. intros Hm. unfold bind_r, bind. by rewrite Hm. Qed.
Lemma bind_r_read {A B} (f : sys W E handler → A) (k : A → MR (sys W E handler) B) s : bind_r (read_sys f) k s = k (f s) s.
Proof. done. Qed.

Lemma bind_timer_left {B} t (k : Z * Timer → MR (sys W E handler) B) s : bind_r (timer_left t) k s = k (TimerLeftMS (now s) t) s.
Proof. done. Qed.
Lemma bind_timer_expired {B} t (k : bool * Timer → MR (sys W E handler) B) s : bind_r (timer_expired t) k s = k (TimerIsExpired (now s) t) s.
Proof. done. Qed.

(** The socket waits for the timeout of [select] and gives nothing. *)
Lemma select_idle ms s : script s = [] → select ms s = Some (Some 0, set_now (now s + ms / portTICK_PERIOD_MS) s).
Proof.
  intros Hs. assert (Hsys : syscall s = Some (Some None, s)) by (unfold syscall; by rewrite bind_r_read, Hs).
  unfold select. by rewrite (bind_r_run _ _ _ _ _ Hsys).
Qed.
Lemma esp_read_idle len ms s : script s = [] → esp_read len ms s = Some (Some (0, []), set_now (now s + ms / portTICK_PERIOD_MS) s).
Proof. intros Hs. unfold esp_read. rewrite bind_r_read. cbv zeta. by rewrite (bind_r_run _ _ _ _ _ (select_idle ms s Hs)). Qed.
Lemma esp_write_idle b len ms s : script s = [] → esp_write b len ms s = Some (Some 0, set_now (now s + ms / portTICK_PERIOD_MS) s).
Proof. intros Hs. unfold esp_write. rewrite bind_r_read. cbv zeta. by rewrite (bind_r_run _ _ _ _ _ (select_idle ms s Hs)). Qed.

Lemma send_loop_idle fuel k len t s : script s = [] → small t →
  ∃ t' n, send_loop (Datatypes.S (Datatypes.S fuel)) k len t s = Some (Some (k, t'), set_now n s) ∧ small t' ∧ now s <= n <= now s + 2 ^ 28.
Proof.
  intros Hs Ht. assert (Hself : set_now (now s) s = s) by by destruct s. cbn [send_loop]. destruct (Z.ltb_spec k len) as [Hk|].
  2: { exists t, (now s). rewrite Hself. repeat split; (done || apply Ht || lia). }
  unfold timer_expired at 1, timer_left at 1. rewrite bind_r_read. unfold TimerIsExpired at 1.
  pose proof (check_small (now s) t Ht) as Hsm. destruct (xTaskCheckForTimeOut (now s) t) as [expired t1] eqn:Ec. cbn [snd] in Hsm. destruct expired.
  { exists t1, (now s). rewrite Hself. repeat split; (done || apply Hsm || lia). }
  destruct (check_running _ _ _ Ht Ec) as (d & -> & Hd0 & Hd). rewrite bind_r_read, left_armed by lia.
  unfold read_client at 1. rewrite bind_r_read. rewrite (bind_r_run _ _ _ _ _ (esp_write_idle _ len (d * 10) s Hs)).
  change (0 <? 0) with false. cbv iota. rewrite Z.add_0_r, (proj2 (Z.ltb_lt k len) Hk).
  unfold portTICK_PERIOD_MS. rewrite Z.div_mul by lia. unfold timer_expired at 1. rewrite bind_r_read. unfold TimerIsExpired. cbn [now set_now].
  rewrite check_armed by lia. replace (now s + d - now s) with d by lia. rewrite Z.ltb_irrefl.
  eexists _, _. split; [done|]. split; [unfold small; cbn; lia|]. lia.
Qed.
Lemma rests_sendPacket len t : small t → rests (2 ^ 28) (sendPacket len t) (λ r, small r.2).
Proof.
  intros Ht s r s' Hs Hr. unfold sendPacket in Hr. rewrite bind_r_read in Hr. unfold rounds_left in Hr.
  destruct (send_loop_idle (length (script s)) 0 len t s Hs Ht) as (t' & n & Es & Ht' & Hn1 & Hn2). rewrite (bind_r_run _ _ _ _ _ Es) in Hr.
  destruct (0 =? len).
  - rewrite bind_r_read in Hr. injection Hr as <- <-. split; [by repeat split|]. by eexists.
  - injection Hr as <- <-. split; [by repeat split|]. by eexists.
Qed.

Lemma rests_timer_expired t : small t → rests 0 (timer_expired t) (λ r, small r.2).
Proof. intros Ht. apply rests_read_sys; [done|]. intros s. by apply check_small. Qed.
Lemma rests_timer_any t : rests 0 (timer_expired t) any.
Proof. by apply rests_read_sys. Qed.
Lemma rests_keepalive : rests (2 ^ 28) keepalive any.
Proof.
  assert (Hr : ∀ A k (f : MQTTClient handler → A), 0 <= k → rests k (read_client f) any) by (intros; by apply rests_read_sys).
  unfold keepalive. eapply rests_free; [by apply Hr|intros keep _]. destruct (keep =? 0); [by apply rests_give|].
  eapply rests_free; [by apply Hr|intros c _]. eapply rests_free; [apply rests_timer_any|intros [es t] _].
  eapply rests_free; [by apply rests_put_client|intros _ _].
  eapply (rests_free _ _ _ any).
  { destruct es; [by apply rests_give|]. eapply rests_free; [apply rests_timer_any|intros [er t'] _].
    eapply rests_free; [by apply rests_put_client|intros _ _]. by apply rests_give. }
  intros due _. destruct (negb due); [by apply rests_give|]. eapply rests_free; [by apply Hr|intros c' _].
  eapply (rests_free _ _ _ any).
  { destruct (negb _); [|by apply rests_give]. eapply rests_free; [apply rests_timer_any|intros [er t'] _].
    eapply rests_free; [by apply rests_put_client|intros _ _]. by apply rests_give. }
  intros lost _. destruct lost; [by apply rests_give|]. eapply rests_free; [by apply (rests_read_sys 0 _ any)|intros n _].
  eapply rests_free; [apply rests_into_buf|intros len _]. destruct (0 <? len); [|by apply rests_give].
  rewrite <- (Z.add_0_r (2 ^ 28)). eapply rests_bind; [apply rests_sendPacket, countdown_small; lia|intros [rc t'] _].
  destruct (rc =? SUCCESS); [|by apply rests_give]. eapply rests_free; [by apply (rests_read_sys 0 _ any)|intros n' _].
  eapply rests_free; [by apply rests_put_client|intros _ _]. by apply rests_give.
Qed.

(** A round of [cycle] then waits until its timer is over. *)
Lemma cycle_idle t s d r s' : script s = [] → t = armed (now s) d → 0 <= 10 * d < 2 ^ 31 → cycle t s = Some (r, s') →
  script s' = [] ∧ out_of_fuel s' = out_of_fuel s ∧ now s + d <= now s' <= now s + d + 2 ^ 28 ∧ ∃ rc, r = Some (rc, t).
Proof.
  intros Hs -> Hd Hr. unfold cycle in Hr.
  assert (Hread : ∀ k, readPacket (armed (now s) d) s = k → k = None ∨ ∃ b, k = Some (Some (0, armed (now s) d), set_client (set_readbuf b (client s)) (set_now (now s + d) s))).
  { intros k <-. unfold readPacket. rewrite bind_timer_left, left_armed by done. cbv beta iota.
    assert (Hesp := esp_read_idle 1 (d * 10) s Hs). unfold portTICK_PERIOD_MS in Hesp. rewrite Z.div_mul in Hesp by lia.
    destruct (splice (readbuf (client s)) 0 []) as [b|] eqn:Esp; [right; exists b|left].
    - assert (Hinto : read_into 0 1 (d * 10) s = Some (Some 0, set_client (set_readbuf b (client s)) (set_now (now s + d) s))).
      { unfold read_into. rewrite (bind_r_run _ _ _ _ _ Hesp). unfold read_client. rewrite bind_r_read. cbn [client set_now]. by rewrite Esp. }
      by rewrite (bind_r_run _ _ _ _ _ Hinto).
    - apply bind_r_none. unfold read_into. rewrite (bind_r_run _ _ _ _ _ Hesp). unfold read_client. rewrite bind_r_read. cbn [client set_now]. by rewrite Esp. }
  destruct (Hread _ eq_refl) as [Hn|[b Hb]]; [by rewrite (bind_r_none _ _ _ Hn) in Hr|].
  rewrite (bind_r_run _ _ _ _ _ Hb) in Hr. set (s1 := set_client _ _) in Hr.
  assert (Hrest : rests (2 ^ 28) (let? rc := (let? k := keepalive in give (if k =? SUCCESS then SUCCESS else FAILURE)) in
      if rc =? SUCCESS then give (0, armed (now s) d) else
      let? up := read_sys (λ s, connected (appl s)) in (if up then MQTTCloseSession else give tt) ;? give (rc, armed (now s) d))
    (λ r, r.2 = armed (now s) d)).
  { rewrite <- (Z.add_0_r (2 ^ 28)). eapply (rests_bind _ _ _ _ any).
    - rewrite <- (Z.add_0_r (2 ^ 28)). eapply rests_bind; [apply rests_keepalive|intros k _]. by apply rests_give.
    - intros rc _. destruct (rc =? SUCCESS); [by apply rests_give|]. eapply rests_free; [by apply (rests_read_sys 0 _ any)|intros up _].
      eapply (rests_free _ _ _ any); [destruct up; [by apply rests_close|by apply rests_give]|]. intros _ _. by apply rests_give. }
  destruct (Hrest s1 r s' Hs Hr) as [(H1 & H2 & H3) ([rc t'] & -> & Ht')]. cbn in Ht', H3. subst t'.
  repeat split; try done; try lia. by exists rc.
Qed.

(** *** The loops of the client *)
Definition small_timer {A} (r : A * Timer) : Prop := small r.2.

(** With a script that is not over, a read or a write uses up an entry. *)
Lemma select_nonempty n ms s r s' : frugal n s → script s ≠ [] → select ms s = Some (Some r, s') → frugal (pred n) s' ∧ (0 < n)%nat.
Proof.
  intros Hf Hne (o & s1 & Hr & Hr')%bind_Some_inv. pose proof (syscall_hoare n _ _ _ Hf Hr) as Hc.
  destruct o as [[c|]|]; [|exfalso|by injection Hr' as ?].
  - destruct Hc as [_ Hc]. injection Hr' as <- <-. by apply Hc.
  - unfold syscall in Hr. rewrite bind_r_read in Hr. destruct (script s) as [|c cs]; [done|].
    apply bind_Some_inv in Hr as (o & s2 & [= <- <-] & Hr). apply bind_Some_inv in Hr as ([u|] & s3 & _ & Hr); by injection Hr.
Qed.
Lemma esp_read_nonempty n len ms s r s' : frugal n s → script s ≠ [] → esp_read len ms s = Some (Some r, s') → frugal (pred n) s' ∧ (0 < n)%nat.
Proof.
  intros Hf Hne Hr. unfold esp_read in Hr. rewrite bind_r_read in Hr. cbv zeta in Hr. apply bind_Some_inv in Hr as ([k|] & s1 & Hsel & Hr); [|done].
  destruct (select_nonempty n _ _ _ _ Hf Hne Hsel) as [Hf1 Hn]. split; [|done]. destruct (k <=? 0); [by injection Hr as <- <-|].
  assert (Hk : ensures (pred n) (let? fuel := read_sys rounds_left in read_loop fuel len (TimerCountdownMS (now s) ms) []) any).
  { apply ensures_rounds. intros j _. apply ensures_read_loop. lia. }
  by destruct (Hk _ _ _ Hf1 Hr).
Qed.
Lemma esp_write_nonempty n b len ms s r s' : frugal n s → script s ≠ [] → esp_write b len ms s = Some (Some r, s') → frugal (pred n) s' ∧ (0 < n)%nat.
Proof.
  intros Hf Hne Hr. unfold esp_write in Hr. rewrite bind_r_read in Hr. cbv zeta in Hr. apply bind_Some_inv in Hr as ([k|] & s1 & Hsel & Hr); [|done].
  destruct (select_nonempty n _ _ _ _ Hf Hne Hsel) as [Hf1 Hn]. split; [|done]. destruct (k <=? 0); [by injection Hr as <- <-|].
  assert (Hk : ensures (pred n) (let? fuel := read_sys rounds_left in write_loop fuel b len 0 (TimerCountdownMS (now s) ms)) any).
  { apply ensures_rounds. intros j _. apply ensures_write_loop. lia. }
  by destruct (Hk _ _ _ Hf1 Hr).
Qed.
Lemma ensures_send_loop len : ∀ fuel n k t, (n + 1 < fuel)%nat → small t → ensures n (send_loop fuel k len t) small_timer.
Proof.
  induction fuel as [|fuel IH]; intros n k t Hn Ht; [lia|]. apply hoare_point. intros s [Hf Hl].
  destruct (script s) as [|c cs] eqn:Es.
  - destruct fuel as [|fuel]; [lia|]. intros s0 r s' <- Hr. destruct (send_loop_idle fuel k len t s Es Ht) as (t' & m & E1 & Ht' & _).
    rewrite E1 in Hr. injection Hr as <- <-. split; [|exact Ht']. split; [exact Hf|]. cbn [script set_now]. rewrite Es. cbn. lia.
  - intros s0 r s' <-. cbn [send_loop]. destruct (k <? len); [|intros [= <- <-]; split; [split; [done|by rewrite Es]|done]].
    rewrite bind_timer_expired. unfold TimerIsExpired. pose proof (check_small (now s) t Ht) as Hsm.
    destruct (xTaskCheckForTimeOut (now s) t) as [[] t1]; cbn [snd] in Hsm; [intros [= <- <-]; split; [split; [done|by rewrite Es]|done]|].
    rewrite bind_timer_left. pose proof (check_small (now s) t1 Hsm) as Hsm'. unfold TimerLeftMS.
    destruct (xTaskCheckForTimeOut (now s) t1) as [b t2]; cbn [snd] in Hsm'. cbv beta iota. unfold read_client. rewrite bind_r_read.
    intros Hr. cbn in Hl.
    apply bind_Some_inv in Hr as ([rc|] & s1 & Hw & Hr).
    + destruct (esp_write_nonempty n _ _ _ _ _ _ ltac:(split; [exact Hf|rewrite Es; cbn; lia]) ltac:(by rewrite Es) Hw) as [Hf1 Hn1].
      destruct (rc <? 0); [injection Hr as <- <-; split; [|done]; eapply (frugal_le (pred n)); [done|lia]|].
      exact (ensures_le (pred n) n _ _ ltac:(lia) (IH (pred n) (k + rc) t2 ltac:(lia) Hsm') s1 r s' Hf1 Hr).
    + injection Hr as <- <-. exact (ensures_esp_write n _ _ _ s None s1 ltac:(split; [done|rewrite Es; cbn; lia]) Hw).
Qed.
Lemma ensures_sendPacket n len t : small t → ensures n (sendPacket len t) small_timer.
Proof.
  intros Ht. unfold sendPacket. apply ensures_rounds. intros k _.
  eapply ensures_bind; [apply ensures_send_loop; [lia|done]|intros [sent_ t'] Ht']. unfold small_timer in *. cbn [snd] in *. ens.
Qed.
Ltac ens_timers := repeat first
  [ match goal with |- ensures _ (bind_r (sendPacket _ _) _) _ => eapply ensures_bind; [apply ensures_sendPacket; assumption|intros [? ?] ?; unfold small_timer in *; cbn [snd] in *] end
  | ens_step ].

Lemma ensures_decode n ms : ∀ k l m v, Z.of_nat k + l = 5 → 0 <= l <= 4 → ensures n (decodePacket_loop k l m v ms) any.
Proof.
  induction k as [|k IH]; intros l m v Hk Hl; [lia|]. cbn [decodePacket_loop]. unfold MAX_NO_OF_REMAINING_LENGTH_BYTES. cbv zeta.
  destruct (Z.ltb_spec 4 (l + 1)); [by apply ensures_give|]. eapply (ensures_bind _ _ _ any); [apply ensures_esp_read|intros [rc [|i bs]] _]; [by apply ensures_give|].
  destruct (negb (rc =? 1)); [by apply ensures_give|]. destruct (negb _); [apply IH; lia|by apply ensures_give].
Qed.
Lemma ensures_read_into n off len ms : ensures n (read_into off len ms) any.
Proof. unfold read_into. ens. Qed.
Lemma ensures_decodePacket n ms : ensures n (decodePacket ms) any.
Proof. by apply ensures_decode. Qed.
#[local] Hint Resolve ensures_read_into ensures_decodePacket : ensures.
Lemma ensures_body n rem_len len t : small t → ensures n
  (if 0 <? rem_len then let? (left_ms, t) := timer_left t in let? rc := read_into len rem_len left_ms in give (rc =? rem_len, t) else give (true, t)) small_timer.
Proof. intros Ht. ens. Qed.
(** [readPacket] after its first read. *)
Lemma readPacket_rest n t : small t → ∀ rc, ensures n
  (if negb (rc =? 1) then give (rc, t) else
  let? (left_ms, t) := timer_left t in
  let? (_, rem_len) := decodePacket left_ms in
  let? b := read_client readbuf in
  let? (k, c) := access (MQTTPacket_encode rem_len (Cursor b 1)) in
  put_client (set_readbuf (c_buf c)) ;?
  let len := 1 + k in
  let? size := read_client readbuf_size in
  if u32 (size - len) <? u32 rem_len then give (BUFFER_OVERFLOW, t) else
  let? (complete, t) :=
    (if 0 <? rem_len then
       let? (left_ms, t) := timer_left t in
       let? rc := read_into len rem_len left_ms in
       give (rc =? rem_len, t)
     else give (true, t)) in
  if negb complete then give (0, t) else
  let? b := read_client readbuf in
  let? h := access (rd b 0) in
  let? keep := read_client keep_alive in
  let? n := read_sys now in
  (if 0 <? keep then put_client (set_last_received (TimerCountdown n keep)) else give tt) ;?
  give (header_type h, t)) small_timer.
Proof.
  intros Ht rc. destruct (negb (rc =? 1)); [by apply ensures_give|].
  eapply ensures_bind; [by apply ensures_timer_left|intros [left_ms t1] Ht1]. cbn [snd] in Ht1.
  eapply (ensures_bind _ _ _ any); [apply ensures_decodePacket|intros [l rem_len] _].
  eapply (ensures_bind _ _ _ any); [apply ensures_read_client|intros b _].
  eapply (ensures_bind _ _ _ any); [apply ensures_access|intros [k c] _].
  eapply (ensures_bind _ _ _ any); [apply ensures_put_client|intros _ _]. cbv zeta.
  eapply (ensures_bind _ _ _ any); [apply ensures_read_client|intros size _].
  destruct (_ <? u32 rem_len); [by apply ensures_give|].
  eapply ensures_bind; [by apply ensures_body|intros [complete t2] Ht2]. unfold small_timer in Ht2. cbn [snd] in Ht2.
  unfold small_timer. ens.
Qed.
Lemma ensures_readPacket n t : small t → ensures n (readPacket t) small_timer.
Proof.
  intros Ht. unfold readPacket. eapply ensures_bind; [by apply ensures_timer_left|intros [left_ms t1] Ht1]. cbn [snd] in Ht1.
  eapply (ensures_bind _ _ _ any); [apply ensures_read_into|intros rc _]. by apply readPacket_rest.
Qed.
(** It uses up an entry of a script that is not over. *)
Lemma readPacket_nonempty n t s r s' : small t → frugal n s → script s ≠ [] → readPacket t s = Some (r, s') →
  match r with Some (_, t') => frugal (pred n) s' ∧ (0 < n)%nat ∧ small t' | None => out_of_fuel s' = false end.
Proof.
  intros Ht Hf Hne Hr. unfold readPacket in Hr. rewrite bind_timer_left in Hr. unfold TimerLeftMS in Hr.
  pose proof (check_small (now s) t Ht) as Hsm. destruct (xTaskCheckForTimeOut (now s) t) as [b0 t1]. cbn [snd] in Hsm. cbv beta iota in Hr.
  apply bind_Some_inv in Hr as (o & s1 & Hinto & Hr).
  assert (Ho : match o with Some _ => frugal (pred n) s1 ∧ (0 < n)%nat | None => out_of_fuel s1 = false end).
  { pose proof (ensures_read_into n _ _ _ _ _ _ Hf Hinto) as Hen. destruct o as [rc|]; [|done].
    unfold read_into in Hinto. apply bind_Some_inv in Hinto as ([[rc' bs]|] & s2 & Hread & Hinto); [|by injection Hinto].
    destruct (esp_read_nonempty n _ _ _ _ _ Hf Hne Hread) as [Hf2 Hn]. split; [|done].
    assert (Hk : ensures (pred n) (let? b := read_client readbuf in let? b := access (splice b 0 bs) in put_client (set_readbuf b) ;? give rc') any) by ens.
    by destruct (Hk _ _ _ Hf2 Hinto). }
  destruct o as [rc|]; [|by injection Hr as <- <-]. destruct Ho as [Hf1 Hn].
  pose proof (readPacket_rest (pred n) t1 Hsm rc s1 r s' Hf1 Hr) as Hk. destruct r as [[p t']|]; [|done]. destruct Hk as [? ?]. by split; [|split].
Qed.

Lemma ensures_deliver n msg : ensures n (deliverMessage msg) any.
Proof.
  assert (Hl : ∀ k i rc, ensures n (deliver_loop k i msg rc) any) by (induction k as [|k IH]; intros i rc; cbn [deliver_loop]; ens).
  unfold deliverMessage. ens.
Qed.
Lemma ensures_acknowledge n q id t : small t → ensures n (acknowledge q id t) small_timer.
Proof. intros Ht. unfold acknowledge. ens; apply ensures_sendPacket; assumption. Qed.
Lemma ensures_release n p t : small t → ensures n (release p t) small_timer.
Proof. intros Ht. unfold release. ens_timers. Qed.
Lemma ensures_dispatch n p t : small t → ensures n (dispatch p t) small_timer.
Proof.
  intros Ht. unfold dispatch. destruct (_ || _); [by apply ensures_give|]. destruct (p =? PUBLISH).
  - eapply (ensures_bind _ _ _ any); [apply ensures_read_client|intros b _].
    eapply (ensures_bind _ _ _ any); [apply ensures_read|intros k _].
    eapply (ensures_bind _ _ _ any); [apply ensures_access|intros [rc msg] _]. destruct (negb _); [by apply ensures_give|].
    eapply (ensures_bind _ _ _ any); [apply ensures_deliver|intros _ _].
    eapply ensures_bind; [by apply ensures_acknowledge|intros [rc' t'] Ht']. by apply ensures_give.
  - destruct (_ || _); [eapply ensures_bind; [by apply ensures_release|intros [rc' t'] Ht']; by apply ensures_give|]. ens.
Qed.
Lemma ensures_keepalive n : ensures n keepalive any.
Proof.
  assert (Ht : ∀ t, ensures n (timer_expired t) any) by (intros t; by apply ensures_read_sys). unfold keepalive.
  eapply (ensures_bind _ _ _ any); [apply ensures_read_client|intros keep _]. destruct (keep =? 0); [by apply ensures_give|].
  eapply (ensures_bind _ _ _ any); [apply ensures_read_client|intros c _]. eapply (ensures_bind _ _ _ any); [apply Ht|intros [es t] _].
  eapply (ensures_bind _ _ _ any); [apply ensures_put_client|intros _ _]. eapply (ensures_bind _ _ _ any).
  { destruct es; [by apply ensures_give|]. eapply (ensures_bind _ _ _ any); [apply Ht|intros [er t'] _]. ens. }
  intros due _. destruct (negb due); [by apply ensures_give|]. eapply (ensures_bind _ _ _ any); [apply ensures_read_client|intros c' _].
  eapply (ensures_bind _ _ _ any).
  { destruct (negb _); [|by apply ensures_give]. eapply (ensures_bind _ _ _ any); [apply Ht|intros [er t'] _]. ens. }
  intros lost _. destruct lost; [by apply ensures_give|]. eapply (ensures_bind _ _ _ any); [apply ensures_read|intros k _].
  eapply (ensures_bind _ _ _ any); [apply ensures_into_buf|intros len _]. destruct (0 <? len); [|by apply ensures_give].
  eapply ensures_bind; [apply ensures_sendPacket, countdown_small; lia|intros [rc t'] _]. ens.
Qed.
Lemma ensures_close n : ensures n MQTTCloseSession any.
Proof. unfold MQTTCloseSession, MQTTCleanSession. ens. Qed.
#[local] Hint Resolve ensures_close ensures_keepalive : ensures.

(** [cycle] after [readPacket]. *)
Lemma cycle_rest n p t : small t → ensures n
  (let? (rc, exit, t) := dispatch p t in
   let? rc := (if (exit : bool) then give rc else let? k := keepalive in give (if k =? SUCCESS then rc else FAILURE)) in
   if rc =? SUCCESS then give (p, t) else
   let? up := read_sys (λ s, connected (appl s)) in (if up then MQTTCloseSession else give tt) ;? give (rc, t)) small_timer.
Proof.
  intros Ht. eapply ensures_bind; [by apply ensures_dispatch|intros [[rc exit] t'] Ht']. unfold small_timer in *. cbn [snd] in *. ens.
Qed.
Lemma ensures_cycle n t : small t → ensures n (cycle t) small_timer.
Proof. intros Ht. unfold cycle. eapply ensures_bind; [by apply ensures_readPacket|intros [p t'] Ht']. by apply cycle_rest. Qed.
Lemma cycle_nonempty n t s rc t' s' : small t → frugal n s → script s ≠ [] → cycle t s = Some (Some (rc, t'), s') →
  frugal (pred n) s' ∧ (0 < n)%nat ∧ small t'.
Proof.
  intros Ht Hf Hne (o & s1 & Hread & Hr)%bind_Some_inv. pose proof (readPacket_nonempty n t s o s1 Ht Hf Hne Hread) as Hk.
  destruct o as [[p t1]|]; [|done]. destruct Hk as (Hf1 & Hn & Ht1). pose proof (cycle_rest (pred n) p t1 Ht1 s1 _ s' Hf1 Hr) as [? ?]. done.
Qed.

(** A timer that was just set or checked: it is over after a round without
    traffic. *)
Definition fresh (t : Timer) (s : sys W E handler) : Prop := ∃ d, t = armed (now s) d ∧ 0 <= 10 * d < 2 ^ 31.
Lemma fresh_small t s : fresh t s → small t.
Proof. by intros (d & -> & Hd). Qed.
Lemma expired_later (s s' : sys W E handler) d : 0 <= 10 * d < 2 ^ 31 → now s + d <= now s' <= now s + d + 2 ^ 28 → fst (TimerIsExpired (now s') (armed (now s) d)) = true.
Proof. intros Hd Hn. unfold TimerIsExpired. rewrite check_armed by lia. by destruct (Z.ltb_spec (now s' - now s) d); [lia|]. Qed.

Lemma yield_loop_complete : ∀ fuel n t, (n < fuel)%nat → hoare (λ s, frugal n s ∧ fresh t s) (yield_loop fuel t) (λ _ s, frugal n s).
Proof.
  induction fuel as [|fuel IH]; intros n t Hn s r s' [Hf Hfr] Hr; [lia|]. cbn [yield_loop] in Hr.
  pose proof (ensures_cycle n t (fresh_small _ _ Hfr)) as Hen. apply bind_Some_inv in Hr as (o & s1 & Hc & Hr).
  specialize (Hen s o s1 Hf Hc). destruct o as [[rc t1]|]; [|by injection Hr as <- <-]. destruct Hen as [Hf1 Ht1].
  destruct (rc <? 0); [by injection Hr as <- <-|]. rewrite bind_timer_expired in Hr.
  destruct (script s) as [|c cs] eqn:Es.
  - destruct Hfr as (d & -> & Hd). destruct (cycle_idle _ s d _ s1 Es eq_refl Hd Hc) as (_ & _ & Hnow & rc' & [= <- ->]).
    pose proof (expired_later s s1 d Hd Hnow) as Hx. destruct (TimerIsExpired (now s1) (armed (now s) d)) as [[] t2]; [|done].
    by injection Hr as <- <-.
  - destruct (cycle_nonempty n t s rc t1 s1 (fresh_small _ _ Hfr) Hf ltac:(by rewrite Es) Hc) as (Hf1' & Hn' & _).
    destruct (TimerIsExpired (now s1) t1) as [[] t2] eqn:Ex; [by injection Hr as <- <-|].
    destruct (check_running _ _ _ Ht1 Ex) as (d & -> & Hd).
    refine (hoare_weaken _ _ _ (λ _ s, frugal n s) _ (IH (pred n) (armed (now s1) d) ltac:(lia)) (λ _ H, H) _ s1 r s' _ Hr).
    + intros _ s2 H2. by eapply frugal_le; [exact H2|lia].
    + split; [done|]. exists d. split; [done|lia].
Qed.
Lemma waitfor_loop_complete p : ∀ fuel n rc t, (n + 1 < fuel)%nat → small t → ensures n (waitfor_loop fuel p rc t) any.
Proof.
  induction fuel as [|fuel IH]; intros n rc t Hn Ht s r s' Hf Hr; [lia|]. cbn [waitfor_loop] in Hr. rewrite bind_timer_expired in Hr.
  destruct (TimerIsExpired (now s) t) as [[] t0] eqn:Ex; [injection Hr as <- <-; by split|].
  destruct (check_running _ _ _ Ht Ex) as (d & -> & Hd). assert (Hsm : small (armed (now s) d)) by (unfold small; cbn; lia).
  pose proof (ensures_cycle n _ Hsm) as Hen. apply bind_Some_inv in Hr as (o & s1 & Hc & Hr).
  specialize (Hen s o s1 Hf Hc). destruct o as [[rc1 t1]|]; [|by injection Hr as <- <-]. destruct Hen as [Hf1 Ht1].
  destruct (negb (rc1 =? p) && (0 <=? rc1)); [|injection Hr as <- <-; by split].
  destruct (script s) as [|c cs] eqn:Es.
  - destruct (cycle_idle _ s d _ s1 Es eq_refl ltac:(lia) Hc) as (_ & _ & Hnow & rc' & [= <- ->]).
    destruct fuel as [|fuel]; [lia|]. cbn [waitfor_loop] in Hr. rewrite bind_timer_expired in Hr.
    pose proof (expired_later s s1 d ltac:(lia) Hnow) as Hx. destruct (TimerIsExpired (now s1) (armed (now s) d)) as [[] t2]; [|done].
    injection Hr as <- <-. by split.
  - destruct (cycle_nonempty n _ s rc1 t1 s1 Hsm Hf ltac:(by rewrite Es) Hc) as (Hf1' & Hn' & _).
    exact (ensures_le (pred n) n _ _ ltac:(lia) (IH (pred n) rc1 t1 ltac:(lia) Ht1) s1 r s' Hf1' Hr).
Qed.

(** *** The calls of the application *)

(** One call of the client with its arguments. *)
Inductive call :=
  | Connect (options : option connectData) (d : connack_data)
  | Subscribe (topicFilter : list Z) (qos : Z) (h : option handler)
  | Unsubscribe (topicFilter : list Z)
  | Publish (topicName : list Z) (message : MQTTMessage)
  | Yield (timeout_ms : Z)
  | Disconnect.
Definition perform (c : call) : MR (sys W E handler) Z :=
  match c with
  | Connect options d => MQTTConnect options d
  | Subscribe f q h => MQTTSubscribe f q h
  | Unsubscribe f => MQTTUnsubscribe f
  | Publish f m => MQTTPublish f m
  | Yield ms => MQTTYield ms
  | Disconnect => MQTTDisconnect
  end.

(** A state whose commands have less than 2^31 milliseconds. *)
Definition timed (n : nat) (s : sys W E handler) : Prop := frugal n s ∧ 0 <= command_timeout_ms (client s) < 2 ^ 31.

Lemma timed_mutex {A} n (m : MR (sys W E handler) A) : hoare (timed n) m (λ _ s, frugal n s) → hoare (timed n) (with_mutex m) (λ _ s, frugal n s).
Proof.
  intros Hm s r s' Hs Hr. unfold with_mutex in Hr. unfold read_client at 1 in Hr. rewrite bind_r_read in Hr. destruct (mutex (client s)); [done|].
  apply bind_Some_inv in Hr as (o & s1 & [= <- <-] & Hr). apply bind_Some_inv in Hr as (o & s2 & Hr1 & Hr).
  specialize (Hm (set_client (set_mutex true (client s)) s) _ _ Hs Hr1). destruct o as [a|]; [|by injection Hr as <- <-].
  assert (Hk : ensures n (put_client (set_mutex false) ;? give a) any) by ens. specialize (Hk _ _ _ Hm Hr).
  destruct r; [by destruct Hk|done].
Qed.
Lemma timed_command {A} n (k : Timer → MR (sys W E handler) A) Q : (∀ t, small t → ensures n (k t) Q) →
  hoare (timed n) (let? t := command_timer in k t) (λ a s, frugal n s ∧ Q a).
Proof.
  intros Hk s r s' [Hf Ht] Hr. unfold command_timer in Hr. apply (Hk (TimerCountdownMS (now s) (command_timeout_ms (client s))) (countdown_small _ _ Ht) s); [done|].
  exact Hr.
Qed.
Lemma ensures_waitfor n p t : small t → ensures n (waitfor p t) any.
Proof.
  intros Ht. unfold waitfor. apply ensures_rounds. intros k _. eapply (ensures_bind _ _ _ any); [apply waitfor_loop_complete; [lia|done]|intros [rc t'] _].
  by apply ensures_give.
Qed.
Lemma ensures_send_and_wait n len t p k : small t → ensures n k any → ensures n (send_and_wait len t p k) any.
Proof.
  intros Ht Hk. unfold send_and_wait. destruct (len <=? 0); [by apply ensures_give|].
  eapply ensures_bind; [by apply ensures_sendPacket|intros [rc t'] Ht']. unfold small_timer in Ht'. cbn [snd] in Ht'.
  destruct (negb _); [by apply ensures_give|]. eapply (ensures_bind _ _ _ any); [by apply ensures_waitfor|intros a _].
  destruct (a =? p); [done|by apply ensures_give].
Qed.
Lemma timed_request n k : (∀ t, small t → ensures n (k t) any) →
  hoare (timed n) (command (let? t := command_timer in k t)) (λ _ s, frugal n s).
Proof.
  intros Hk. apply timed_mutex. intros s r s' Hs Hr. rewrite bind_r_read in Hr.
  assert (Hrc : hoare (timed n) (if negb (connected (appl s)) then give FAILURE else let? t := command_timer in k t) (λ a s, frugal n s ∧ any a)).
  { destruct (negb _); [|by apply timed_command]. eapply hoare_weaken; [by apply (ensures_give n FAILURE any)|by intros ? [? _]|done]. }
  revert Hr. refine (hoare_bind _ _ _ _ (λ _ s, frugal n s) Hrc _ s r s' Hs). intros rc.
  assert (Hclose : ensures n (close_on_failure rc) any) by (unfold close_on_failure; ens).
  eapply hoare_weaken; [exact Hclose|by intros ? [? _]|by intros ? ? [? _]].
Qed.

Lemma ensures_set_handler n f h : ensures n (MQTTSetMessageHandler f h) any.
Proof. unfold MQTTSetMessageHandler. ens. Qed.
Lemma ensures_next_id n : ensures n getNextPacketId any.
Proof. unfold getNextPacketId. ens. Qed.
#[local] Hint Resolve ensures_set_handler ensures_next_id : ensures.

Lemma perform_complete c n : (∀ ms, c = Yield ms → 0 <= ms < 2 ^ 31) → hoare (timed n) (perform c) (λ _ s, frugal n s).
Proof.
  intros Hms. destruct c as [options d|f q h|f|f m|ms|]; cbn [perform].
  - apply (hoare_bind _ _ _ (λ _ s, frugal n s)); [|intros [rc d']; eapply hoare_weaken; [by apply (ensures_give n rc any)|done|by intros ? ? [? _]]].
    apply timed_mutex. intros s r s' Hs Hr. rewrite bind_r_read in Hr.
    assert (Hc : hoare (timed n) (if connected (appl s) then give (FAILURE, d) else connect_session options d) (λ a s, frugal n s ∧ any a)).
    { destruct (connected _); [eapply hoare_weaken; [by apply (ensures_give n _ any)|by intros ? [? _]|done]|].
      unfold connect_session. apply timed_command. intros t Ht. cbv zeta. eapply (ensures_bind _ _ _ any); [apply ensures_read|intros k _].
      eapply (ensures_bind _ _ _ any); [apply ensures_put_client|intros _ _]. eapply (ensures_bind _ _ _ any); [apply ensures_into_buf|intros len _].
      destruct (len <=? 0); [by apply ensures_give|]. eapply ensures_bind; [by apply ensures_sendPacket|intros [rc t'] Ht'].
      unfold small_timer in Ht'. cbn [snd] in Ht'. destruct (negb _); [by apply ensures_give|].
      eapply (ensures_bind _ _ _ any); [by apply ensures_waitfor|intros a _]. ens. }
    revert Hr. refine (hoare_bind _ _ _ _ (λ _ s, frugal n s) Hc _ s r s' Hs). intros [rc d'].
    assert (Hend : ensures n ((if rc =? SUCCESS then put_connected true ;? put_client (set_ping_outstanding 0) else give tt) ;? give (rc, d')) any) by ens.
    eapply hoare_weaken; [exact Hend|by intros ? [? _]|by intros ? ? [? _]].
  - apply timed_request. intros t Ht. eapply (ensures_bind _ _ _ any); [apply ensures_next_id|intros id _].
    eapply (ensures_bind _ _ _ any); [apply ensures_into_buf|intros len _]. apply ensures_send_and_wait; [done|]. ens.
  - apply timed_request. intros t Ht. eapply (ensures_bind _ _ _ any); [apply ensures_next_id|intros id _].
    eapply (ensures_bind _ _ _ any); [apply ensures_into_buf|intros len _]. apply ensures_send_and_wait; [done|]. ens.
  - apply timed_request. intros t Ht. eapply (ensures_bind _ _ _ any); [ens|intros id _].
    eapply (ensures_bind _ _ _ any); [apply ensures_into_buf|intros len _].
    destruct (_ =? QOS1); [apply ensures_send_and_wait; [done|]; unfold check_ack; ens|].
    destruct (_ =? QOS2); [apply ensures_send_and_wait; [done|]; unfold check_ack; ens|]. ens_timers.
  - intros s r s' [[Hf Hl] _] Hr. unfold MQTTYield in Hr. rewrite !bind_r_read in Hr. unfold rounds_left in Hr.
    assert (Hfr : fresh (TimerCountdownMS (now s) ms) s).
    { exists (ms / portTICK_PERIOD_MS). split; [done|]. pose proof (Hms ms eq_refl). unfold portTICK_PERIOD_MS. dlia. }
    assert (Hf' : frugal (length (script s)) s) by (split; [done|lia]).
    pose proof (yield_loop_complete (Datatypes.S (Datatypes.S (length (script s)))) (length (script s)) _ ltac:(lia) s r s' (conj Hf' Hfr) Hr) as Hk.
    destruct r as [a|]; [|done]. by eapply frugal_le.
  - apply timed_mutex. apply (hoare_weaken _ (timed n) _ _ (λ a s, frugal n s ∧ any a)); [|done|by intros ? ? [? _]]. apply (timed_command n _ any). intros t Ht.
    eapply (ensures_bind _ _ _ any); [apply ensures_into_buf|intros len _]. eapply (ensures_bind _ _ _ any); [ens_timers|intros rc _]. ens.
Qed.

(** ** Every call ends in time

    No script, however long, keeps a call: [lasts n u m Q] says that [m], begun
    at tick [n] with a socket whose calls take at most [D] ticks each, ends by
    tick [u], in a result of [Q] or a restart, and before the tick counter has
    gone round since [B]. *)
Section Time.
Variables (B D : Z).
Hypothesis D_nonneg : 0 <= D.

Definition brisk (s : sys W E handler) : Prop := Forall (λ c, Z.of_nat (ticks c) <= D) (script s).
Definition lasts {A} (n u : Z) (m : MR (sys W E handler) A) (Q : Z → A → Prop) : Prop := u < B + 2 ^ 32 →
  ∀ s r s', brisk s → now s = n → m s = Some (r, s') → brisk s' ∧ n <= now s' <= u ∧ match r with Some a => Q (now s') a | None => True end.
Definition whatever {A} : Z → A → Prop := λ _ _, True.

Lemma lasts_bind {A C} n u v (m : MR (sys W E handler) A) (k : A → MR (sys W E handler) C) Q R :
  lasts n u m Q → u <= v → (∀ a n', n <= n' <= u → Q n' a → lasts n' v (k a) R) → lasts n v (bind_r m k) R.
Proof.
  intros Hm Huv Hk Hv s r s' Hs Hn (o & s1 & Hr & Hr')%bind_Some_inv. destruct (Hm ltac:(lia) s o s1 Hs Hn Hr) as (Hs1 & Hn1 & Ho).
  destruct o as [a|]; [|injection Hr' as <- <-; repeat split; (done || lia)].
  destruct (Hk a (now s1) Hn1 Ho Hv s1 r s' Hs1 eq_refl Hr') as (? & ? & ?). repeat split; (done || lia).
Qed.
Lemma lasts_free {A C} n v (m : MR (sys W E handler) A) (k : A → MR (sys W E handler) C) Q R :
  lasts n n m Q → n <= v → (∀ a, Q n a → lasts n v (k a) R) → lasts n v (bind_r m k) R.
Proof. intros Hm Hv Hk. eapply lasts_bind; [exact Hm|done|]. intros a n' Hn' Ha. assert (n' = n) as -> by lia. by apply Hk. Qed.
Lemma lasts_le {A} n u v (m : MR (sys W E handler) A) (Q R : Z → A → Prop) :
  lasts n u m Q → u <= v → (∀ n' a, n <= n' <= u → Q n' a → R n' a) → lasts n v m R.
Proof.
  intros Hm Huv HQ Hv s r s' Hs Hn Hr. destruct (Hm ltac:(lia) s r s' Hs Hn Hr) as (? & ? & Ho). repeat split; try (done || lia).
  destruct r as [a|]; [|done]. by apply HQ.
Qed.
Lemma lasts_returning {A} n u (m : M (sys W E handler) A) (Q : Z → A → Prop) : n <= u →
  (∀ s a s', now s = n → n < B + 2 ^ 32 → m s = Some (a, s') → script s' = script s ∧ now s' = now s ∧ Q n a) → lasts n u (returning m) Q.
Proof.
  intros Hu Hm Hv s r s' Hs Hn (a & s1 & Hr & [= <- <-])%bind_Some_inv. destruct (Hm s a s1 Hn ltac:(lia) Hr) as (E1 & E2 & Ha).
  unfold brisk. rewrite E1, E2, Hn. repeat split; (done || lia).
Qed.
Lemma lasts_read_sys {A} n u (f : sys W E handler → A) (Q : Z → A → Prop) : n <= u →
  (∀ s, now s = n → n < B + 2 ^ 32 → Q n (f s)) → lasts n u (read_sys f) Q.
Proof. intros Hu Hf. apply lasts_returning; [done|]. intros s a s' Hn Hv [= <- <-]. auto. Qed.
Lemma lasts_read {A} n u (f : sys W E handler → A) : n <= u → lasts n u (read_sys f) whatever.
Proof. intros Hu. by apply lasts_read_sys. Qed.
Lemma lasts_now n : lasts n n (read_sys now) (λ n' k, n' = k).
Proof. apply lasts_read_sys; [lia|]. by intros s <-. Qed.
Lemma lasts_read_client {A} n u (f : MQTTClient handler → A) : n <= u → lasts n u (read_client f) whatever.
Proof. apply lasts_read. Qed.
Lemma lasts_give {A} n u (a : A) (Q : Z → A → Prop) : n <= u → Q n a → lasts n u (give a) Q.
Proof. intros Hu Ha. apply lasts_returning; [done|]. by intros s a' s' Hn Hv [= <- <-]. Qed.
Lemma lasts_no_fuel {A} n u (a : A) (Q : Z → A → Prop) : n <= u → Q n a → lasts n u (no_fuel a) Q.
Proof. intros Hu Ha. apply lasts_returning; [done|]. by intros s a' s' Hn Hv [= <- <-]. Qed.
Lemma lasts_put_client n u f : n <= u → lasts n u (put_client f) whatever.
Proof. intros Hu. apply lasts_returning; [done|]. by intros s a s' Hn Hv [= <- <-]. Qed.
Lemma lasts_put_connected n u b : n <= u → lasts n u (put_connected b) whatever.
Proof. intros Hu. apply lasts_returning; [done|]. by intros s a s' Hn Hv [= <- <-]. Qed.
Lemma lasts_access {A} n u (o : option A) : n <= u → lasts n u (access o) whatever.
Proof. intros Hu. apply lasts_returning; [done|]. intros s a s' Hn Hv. unfold lift. destruct o; cbn; [by intros [= <- <-]|done]. Qed.
Lemma lasts_fault {A} n u (Q : Z → A → Prop) : n <= u → lasts n u (returning fault) Q.
Proof. intros Hu. by apply lasts_returning. Qed.
Lemma lasts_event n u e : n <= u → lasts n u (event e) whatever.
Proof.
  intros Hu Hv s r s' Hs Hn. unfold event, zoom. destruct (happens e (appl s)) as [[a w]|]; [|done]. intros [= <- <-].
  split; [exact Hs|]. split; [change (n <= now s <= u); lia|by destruct a].
Qed.
Lemma lasts_into_buf n u m : n <= u → lasts n u (into_buf m) whatever.
Proof.
  intros Hu. eapply lasts_free; [by apply lasts_read_client|done|]. intros size _. apply lasts_returning; [done|]. intros s a s' Hn Hv. unfold zoom.
  destruct (m size _) as [[? ?]|]; [by intros [= <- <-]|done].
Qed.
Lemma lasts_events es : ∀ n u, n <= u → lasts n u (events es) whatever.
Proof.
  induction es as [|e es IH]; intros n u Hu; cbn [events]; [by apply lasts_give|].
  eapply lasts_free; [apply lasts_event; lia|done|]. intros _ _. by apply IH.
Qed.

(** A procedure that asks the socket nothing takes no time. *)
Create HintDb lasts discriminated.
#[local] Hint Constants Opaque : lasts.
#[local] Hint Resolve lasts_read lasts_read_client lasts_put_client lasts_put_connected lasts_access lasts_fault lasts_event lasts_events
  lasts_into_buf : lasts.
#[local] Hint Extern 1 (_ <= _) => lia : lasts.
Ltac at_once_step := first
  [ match goal with
    | |- lasts _ _ (bind_r _ _) _ => eapply (lasts_free _ _ _ _ whatever); [|first [assumption|lia]|intros ? _]
    | |- lasts _ _ (give _) _ => apply lasts_give; [lia|first [exact I|assumption]]
    | |- lasts _ _ (if ?b then _ else _) _ => destruct b
    | |- lasts _ _ (match ?x with _ => _ end) _ => destruct x
    | |- lasts _ _ (let _ := _ in _) _ => cbv zeta
    end
  | solve [auto with lasts] ].
Ltac at_once := repeat at_once_step.

(** *** The socket *)
Lemma lasts_syscall n : lasts n (n + D) syscall whatever.
Proof.
  intros Hv s r s' Hs Hn Hr. unfold syscall in Hr. rewrite bind_r_read in Hr. unfold brisk in Hs. destruct (script s) as [|c cs] eqn:Es.
  - injection Hr as <- <-. split; [unfold brisk; by rewrite Es|]. split; [lia|done].
  - apply Forall_cons in Hs as [Hc Hcs]. apply bind_Some_inv in Hr as (o & s1 & [= <- <-] & Hr).
    assert (Hk : lasts (n + Z.of_nat (ticks c)) (n + D) (events (others c) ;? give (Some c)) whatever).
    { eapply (lasts_free _ _ _ _ whatever); [by apply lasts_events|lia|]. intros _ _. by apply lasts_give; [lia|]. }
    destruct (Hk Hv (set_now (now s + Z.of_nat (ticks c)) (set_script cs s)) r s' Hcs ltac:(cbn; lia) Hr) as (? & ? & Ho).
    split; [done|]. split; [lia|]. by destruct r.
Qed.
Lemma lasts_select n d : 0 <= d → lasts n (n + d + D) (select (d * 10)) whatever.
Proof.
  intros Hd. eapply lasts_bind; [apply lasts_syscall|lia|]. intros [c|] n' Hn' _; [by apply lasts_give; [lia|]|].
  intros Hv s r s' Hs Hn [= <- <-]. split; [exact Hs|]. cbn [now set_now]. unfold portTICK_PERIOD_MS. rewrite Z.div_mul by lia. split; [lia|done].
Qed.

(** A timer set since [B] that is over by [dl]. *)
Definition due (dl n : Z) (t : Timer) : Prop := ∃ n0 d, t = armed n0 d ∧ 0 <= 10 * d < 2 ^ 31 ∧ B <= n0 <= n ∧ n0 + d <= dl.
Lemma due_later dl n n' t : due dl n t → n <= n' → due dl n' t.
Proof. intros (n0 & d & ? & ? & ? & ?) Hn. exists n0, d. repeat split; (done || lia). Qed.
Lemma due_countdown n ms : B <= n → 0 <= ms < 2 ^ 31 → due (n + ms / 10) n (TimerCountdownMS n ms).
Proof. intros Hn Hms. exists n, (ms / 10). rewrite countdown_armed. repeat split; (done || dlia). Qed.
Lemma due_check dl n t : n < B + 2 ^ 32 → due dl n t →
  due dl n (xTaskCheckForTimeOut n t).2 ∧ ((xTaskCheckForTimeOut n t).1 = false → n < dl).
Proof.
  intros Hn (n0 & d & -> & Hd & Hn0 & Hdl). rewrite check_armed by lia. destruct (Z.ltb_spec (n - n0) d); cbn [fst snd].
  - split; [exists n, (d - (n - n0)); repeat split; (done || lia)|lia].
  - split; [exists n0, 0; repeat split; (done || lia)|done].
Qed.
Lemma due_left dl n t : n < B + 2 ^ 32 → due dl n t →
  ∃ d, (TimerLeftMS n t).1 = d * 10 ∧ 0 <= 10 * d < 2 ^ 31 ∧ n + d <= Z.max n dl ∧ due dl n (TimerLeftMS n t).2.
Proof.
  intros Hn Ht. pose proof (due_check dl n t Hn Ht) as [Hdue _]. unfold TimerLeftMS. destruct Ht as (n0 & d & -> & Hd & Hn0 & Hdl).
  rewrite check_armed in * by lia. destruct (Z.ltb_spec (n - n0) d); cbn [fst snd] in *; cbn [xTicksToWait armed]; unfold portTICK_PERIOD_MS.
  - exists (d - (n - n0)). rewrite s32_small by lia. repeat split; (done || lia).
  - exists 0. rewrite s32_small by lia. repeat split; (done || lia).
Qed.
Lemma lasts_expired dl n t : due dl n t → lasts n n (timer_expired t) (λ n r, due dl n r.2 ∧ (r.1 = false → n < dl)).
Proof. intros Ht. apply lasts_read_sys; [lia|]. intros s -> Hv. by apply due_check. Qed.
Lemma lasts_left dl n t : due dl n t →
  lasts n n (timer_left t) (λ n r, (∃ d, r.1 = d * 10 ∧ 0 <= 10 * d < 2 ^ 31 ∧ n + d <= Z.max n dl) ∧ due dl n r.2).
Proof. intros Ht. apply lasts_read_sys; [lia|]. intros s -> Hv. destruct (due_left dl n t Hv Ht) as (d & ? & ? & ? & ?). eauto. Qed.

Lemma lasts_recv n len : lasts n (n + D) (recv len) whatever.
Proof. eapply lasts_bind; [apply lasts_syscall|lia|]. intros [c|] n' Hn' _; at_once. Qed.
Lemma lasts_send n b len : lasts n (n + D) (send b len) whatever.
Proof.
  eapply lasts_bind; [apply lasts_syscall|lia|]. intros [c|] n' Hn' _; [|at_once]. destruct (_ <? 0); [at_once|]. cbv zeta.
  destruct (_ <? _); [at_once|]. eapply (lasts_free _ _ _ _ whatever); [|lia|intros _ _; at_once].
  apply lasts_returning; [lia|]. by intros s a s' Hn Hv [= <- <-].
Qed.

(** The check of the timer is what ends the loops of the socket. *)
Lemma lasts_read_loop len dl : ∀ fuel n t stored, due dl n t → lasts n (Z.max n dl + D) (read_loop fuel len t stored) whatever.
Proof.
  induction fuel as [|fuel IH]; intros n t stored Ht; cbn [read_loop]; [by apply lasts_no_fuel; [lia|]|].
  eapply lasts_bind; [apply lasts_recv|lia|]. intros [rc bs] n1 Hn1 _. destruct (rc <? 0); [at_once|]. cbv zeta.
  destruct (_ <? len); [|at_once]. eapply lasts_free; [apply lasts_now|lia|]. intros k <- Hv.
  destruct (due_check dl n1 t ltac:(lia) ltac:(eapply due_later; [done|lia])) as [Ht' Hex]. revert Hv. change (lasts n1 (Z.max n dl + D)
    (let '(expired, t0) := xTaskCheckForTimeOut n1 t in if expired then give (zlen (stored ++ bs), stored ++ bs) else read_loop fuel len t0 (stored ++ bs)) whatever).
  destruct (xTaskCheckForTimeOut n1 t) as [[] t']; cbn [fst snd] in *; [at_once|]. specialize (Hex eq_refl).
  eapply lasts_le; [by apply IH|lia|done].
Qed.
Lemma lasts_write_loop b len dl : ∀ fuel n t k, due dl n t → lasts n (Z.max n dl + D) (write_loop fuel b len k t) whatever.
Proof.
  induction fuel as [|fuel IH]; intros n t k Ht; cbn [write_loop]; [by apply lasts_no_fuel; [lia|]|].
  eapply lasts_bind; [apply lasts_send|lia|]. intros rc n1 Hn1 _. destruct (rc <? 0); [at_once|]. cbv zeta.
  destruct (_ <? len); [|at_once]. eapply lasts_free; [apply lasts_now|lia|]. intros j <- Hv.
  destruct (due_check dl n1 t ltac:(lia) ltac:(eapply due_later; [done|lia])) as [Ht' Hex]. revert Hv. change (lasts n1 (Z.max n dl + D)
    (let '(expired, t0) := xTaskCheckForTimeOut n1 t in if expired then give (k + rc) else write_loop fuel b len (k + rc) t0) whatever).
  destruct (xTaskCheckForTimeOut n1 t) as [[] t']; cbn [fst snd] in *; [at_once|]. specialize (Hex eq_refl).
  eapply lasts_le; [by apply IH|lia|done].
Qed.
(** [m] after [select] within [d] ticks. *)
Lemma lasts_selected {A} n d (m : nat → Timer → MR (sys W E handler) A) (f : Z → A) :
  B <= n → 0 <= 10 * d < 2 ^ 31 →
  (∀ fuel n' t, due (n + d) n' t → lasts n' (Z.max n' (n + d) + D) (m fuel t) whatever) →
  lasts n (n + d + 2 * D) (let? k := read_sys now in let t := TimerCountdownMS k (d * 10) in
    let? r := select (d * 10) in if r <=? 0 then give (f r) else let? fuel := read_sys rounds_left in m fuel t) whatever.
Proof.
  intros HB Hd Hm. eapply lasts_free; [apply lasts_now|lia|]. intros k <-. cbv zeta.
  eapply lasts_bind; [apply lasts_select; lia|lia|]. intros r n1 Hn1 _. destruct (r <=? 0); [by apply lasts_give; [lia|]|].
  eapply (lasts_free _ _ _ _ whatever); [by apply lasts_read|lia|]. intros fuel _.
  eapply lasts_le; [apply Hm|lia|done]. exists n, d. rewrite countdown_armed, Z.div_mul by lia. repeat split; (done || lia).
Qed.
Lemma lasts_esp_read n len d : B <= n → 0 <= 10 * d < 2 ^ 31 → lasts n (n + d + 2 * D) (esp_read len (d * 10)) whatever.
Proof.
  intros HB Hd. apply (lasts_selected n d (λ fuel t, read_loop fuel len t []) (λ r, (r, []))); [done|done|].
  intros fuel n' t Ht. by apply lasts_read_loop.
Qed.
Lemma lasts_esp_write n b len d : B <= n → 0 <= 10 * d < 2 ^ 31 → lasts n (n + d + 2 * D) (esp_write b len (d * 10)) whatever.
Proof.
  intros HB Hd. apply (lasts_selected n d (λ fuel t, write_loop fuel b len 0 t) (λ r, r)); [done|done|].
  intros fuel n' t Ht. by apply lasts_write_loop.
Qed.

(** *** The client *)
Definition timer_due {A} (dl n : Z) (r : A * Timer) : Prop := due dl n r.2.
Lemma due_since dl n t : due dl n t → B <= n.
Proof. intros (n0 & d & ? & ? & ? & ?). lia. Qed.
Lemma lasts_send_loop len dl : ∀ fuel n k t, due dl n t → lasts n (Z.max n (dl + 2 * D)) (send_loop fuel k len t) (timer_due dl).
Proof.
  induction fuel as [|fuel IH]; intros n k t Ht; cbn [send_loop]; [by apply lasts_no_fuel; [lia|]|].
  destruct (k <? len); [|by apply lasts_give; [lia|]].
  eapply lasts_free; [by apply lasts_expired|lia|]. intros [[] t1] [Ht1 Hex]; cbn [fst snd] in *; [by apply lasts_give; [lia|]|]. specialize (Hex eq_refl).
  eapply lasts_free; [by apply lasts_left|lia|]. intros [ms t2] [(d & Hms & Hd & Hnd) Ht2]; cbn [fst snd] in *. subst ms.
  eapply (lasts_free _ _ _ _ whatever); [by apply lasts_read_client|lia|]. intros b _. pose proof (due_since _ _ _ Ht).
  eapply lasts_bind; [apply lasts_esp_write; [done|]|lia|]; [lia|].
  intros rc n1 Hn1 _. apply (due_later _ _ n1) in Ht2; [|lia].
  destruct (rc <? 0); [by apply lasts_give; [lia|]|]. eapply lasts_le; [by apply IH|lia|done].
Qed.
Lemma lasts_sendPacket n len t dl : due dl n t → lasts n (Z.max n (dl + 2 * D)) (sendPacket len t) (timer_due dl).
Proof.
  intros Ht. unfold sendPacket. eapply (lasts_free _ _ _ _ whatever); [by apply lasts_read|lia|intros fuel _].
  eapply lasts_bind; [by apply lasts_send_loop|lia|intros [k t'] n1 Hn1 Ht']. unfold timer_due in *. cbn [snd] in *. at_once.
Qed.
Lemma lasts_read_into n off len d : B <= n → 0 <= 10 * d < 2 ^ 31 → lasts n (n + d + 2 * D) (read_into off len (d * 10)) whatever.
Proof. intros HB Hd. unfold read_into. eapply lasts_bind; [by apply lasts_esp_read|lia|intros [rc bs] n1 Hn1 _]. at_once. Qed.
(** Each byte of the length is given the same time. *)
Lemma lasts_decode n d : B <= n → 0 <= 10 * d < 2 ^ 31 → lasts n (n + 4 * (d + 2 * D)) (decodePacket (d * 10)) whatever.
Proof.
  assert (Hloop : ∀ fuel n l m v, B <= n → 0 <= 10 * d < 2 ^ 31 → 0 <= l <= 4 →
      lasts n (n + (4 - l) * (d + 2 * D)) (decodePacket_loop fuel l m v (d * 10)) whatever).
  { induction fuel as [|fuel IH]; intros j l m v HB Hd Hl; cbn [decodePacket_loop]; [by apply lasts_no_fuel; [nia|]|].
    unfold MAX_NO_OF_REMAINING_LENGTH_BYTES. cbv zeta. destruct (Z.ltb_spec 4 (l + 1)); [by apply lasts_give; [nia|]|].
    eapply lasts_bind; [by apply lasts_esp_read|nia|intros [rc [|i bs]] n1 Hn1 _]; [by apply lasts_give; [nia|]|].
    destruct (negb (rc =? 1)); [by apply lasts_give; [nia|]|]. destruct (negb _); [|by apply lasts_give; [nia|]].
    eapply lasts_le; [apply IH; lia|nia|done]. }
  intros HB Hd. apply (Hloop 5%nat n 0 1 0); [done|done|lia].
Qed.
Lemma lasts_give_timer {A} dl n n0 u (a : A) t : due dl n0 t → n0 <= n <= u → lasts n u (give (a, t)) (timer_due dl).
Proof. intros Ht Hn. apply lasts_give; [lia|]. eapply due_later; [exact Ht|lia]. Qed.
(** What [readPacket] is given: a timer, and [k] ticks left. *)
Lemma lasts_timed {A} dl n n0 v t (k : Z * Timer → MR (sys W E handler) A) Q : due dl n0 t → n0 <= n → n <= v →
  (∀ d t', 0 <= 10 * d < 2 ^ 31 → n + d <= Z.max n dl → due dl n t' → lasts n v (k (d * 10, t')) Q) →
  lasts n v (bind_r (timer_left t) k) Q.
Proof.
  intros Ht Hn Hv Hk. eapply lasts_free; [apply lasts_left; eapply due_later; [exact Ht|lia]|done|].
  intros [ms t'] [(d & Hms & Hd & Hnd) Ht']. cbn [fst snd] in *. subst ms. by apply Hk.
Qed.
Lemma lasts_readPacket n t dl : due dl n t → lasts n (n + 4 * Z.max 0 (dl - n) + 12 * D) (readPacket t) (timer_due dl).
Proof.
  intros Ht. pose proof (due_since _ _ _ Ht) as HB. unfold readPacket. apply (lasts_timed dl n n); [done|lia|lia|]. intros d t1 Hd Hnd Ht1.
  eapply lasts_bind; [by apply lasts_read_into|lia|intros rc n1 Hn1 _]. destruct (negb (rc =? 1)); [eapply lasts_give_timer; [eassumption|lia]|].
  apply (lasts_timed dl n1 n); [done|lia|lia|]. intros d1 t2 Hd1 Hnd1 Ht2.
  eapply lasts_bind; [by apply lasts_decode; [lia|]|lia|intros [l rem_len] n2 Hn2 _].
  do 2 (eapply (lasts_free _ _ _ _ whatever); [by auto with lasts|lia|intros ? _]). destruct a0 as [k c].
  eapply (lasts_free _ _ _ _ whatever); [by auto with lasts|lia|intros _ _]. cbv zeta.
  eapply (lasts_free _ _ _ _ whatever); [by auto with lasts|lia|intros size _].
  destruct (_ <? u32 rem_len); [eapply lasts_give_timer; [eassumption|lia]|].
  eapply (lasts_bind _ (n + 4 * Z.max 0 (dl - n) + 12 * D) _ _ _ (timer_due dl)).
  { destruct (0 <? rem_len); [|eapply lasts_give_timer; [eassumption|lia]].
    apply (lasts_timed dl n2 n1); [done|lia|lia|]. intros d2 t3 Hd2 Hnd2 Ht3.
    eapply lasts_bind; [by apply lasts_read_into; [lia|]|lia|intros rc2 n3 Hn3 _]. eapply lasts_give_timer; [eassumption|lia]. }
  - lia.
  - intros [complete t4] n4 Hn4 Ht4. unfold timer_due in *. cbn [snd] in *. at_once.
Qed.
Lemma lasts_deliver n msg : lasts n n (deliverMessage msg) whatever.
Proof.
  assert (Hl : ∀ k i rc, lasts n n (deliver_loop k i msg rc) whatever) by (induction k as [|k IH]; intros i rc; cbn [deliver_loop]; at_once).
  unfold deliverMessage. eapply lasts_free; [apply Hl|lia|intros rc _]. at_once.
Qed.
Lemma lasts_acknowledge n q id t dl : due dl n t → lasts n (Z.max n (dl + 2 * D)) (acknowledge q id t) (timer_due dl).
Proof.
  intros Ht. unfold acknowledge. destruct (q =? QOS0); [by apply lasts_give; [lia|]|].
  eapply (lasts_free _ _ _ _ whatever); [at_once|lia|intros len _].
  destruct (len <=? 0); [by apply lasts_give; [lia|]|by apply lasts_sendPacket].
Qed.
Lemma lasts_release n p t dl : due dl n t → lasts n (Z.max n (dl + 2 * D)) (release p t) (timer_due dl).
Proof.
  intros Ht. unfold release. do 3 (eapply (lasts_free _ _ _ _ whatever); [by auto with lasts|lia|intros ? _]). destruct a1 as [rc a1].
  destruct (negb _); [by apply lasts_give; [lia|]|]. eapply (lasts_free _ _ _ _ whatever); [at_once|lia|intros len _].
  destruct (len <=? 0); [by apply lasts_give; [lia|]|]. eapply lasts_bind; [by apply lasts_sendPacket|lia|intros [rc' t'] n1 Hn1 Ht'].
  apply lasts_give; [lia|done].
Qed.
Lemma lasts_dispatch n p t dl : due dl n t → lasts n (Z.max n (dl + 2 * D)) (dispatch p t) (timer_due dl).
Proof.
  intros Ht. unfold dispatch. destruct (_ || _); [by apply lasts_give; [lia|]|]. destruct (p =? PUBLISH).
  - do 3 (eapply (lasts_free _ _ _ _ whatever); [by auto with lasts|lia|intros ? _]). destruct a1 as [rc msg].
    destruct (negb _); [by apply lasts_give; [lia|]|]. eapply lasts_free; [apply lasts_deliver|lia|intros _ _].
    eapply lasts_bind; [by apply lasts_acknowledge|lia|intros [rc' t'] n1 Hn1 Ht']. by apply lasts_give; [lia|].
  - destruct (_ || _); [eapply lasts_bind; [by apply lasts_release|lia|intros [rc' t'] n1 Hn1 Ht']; by apply lasts_give; [lia|]|].
    destruct (_ =? PINGRESP); [|by apply lasts_give; [lia|]]. eapply lasts_free; [by apply lasts_put_client|lia|intros _ _]. by apply lasts_give; [lia|].
Qed.
(** A ping has a second to go out. *)
Lemma lasts_keepalive n : B <= n → lasts n (n + 100 + 2 * D) keepalive whatever.
Proof.
  intros HB. assert (Ht : ∀ t, lasts n n (timer_expired t) whatever) by (intros t; apply lasts_read; lia). unfold keepalive.
  eapply (lasts_free _ _ _ _ whatever); [by auto with lasts|lia|intros keep _]. destruct (keep =? 0); [at_once|].
  eapply (lasts_free _ _ _ _ whatever); [by auto with lasts|lia|intros c _]. eapply lasts_free; [apply Ht|lia|intros [es t] _].
  eapply (lasts_free _ _ _ _ whatever); [by auto with lasts|lia|intros _ _]. eapply (lasts_free _ _ _ _ whatever).
  { destruct es; [at_once|]. eapply lasts_free; [apply Ht|lia|intros [er t'] _]. at_once. } { lia. }
  intros ping_due _. destruct (negb ping_due); [at_once|]. eapply (lasts_free _ _ _ _ whatever); [by auto with lasts|lia|intros c' _].
  eapply (lasts_free _ _ _ _ whatever).
  { destruct (negb _); [|at_once]. eapply lasts_free; [apply Ht|lia|intros [er t'] _]. at_once. } { lia. }
  intros lost _. destruct lost; [at_once|]. eapply lasts_free; [apply lasts_now|lia|intros k <-].
  eapply (lasts_free _ _ _ _ whatever); [by auto with lasts|lia|intros len _]. destruct (0 <? len); [|at_once].
  pose proof (due_countdown n 1000 HB ltac:(lia)) as Hp. eapply lasts_bind; [by apply lasts_sendPacket|dlia|intros [rc t'] n1 Hn1 _].
  assert (n1 <= n + 100 + 2 * D) by (revert Hn1; change (1000 / 10) with 100; lia). destruct (rc =? SUCCESS); at_once.
Qed.
Lemma lasts_close n u : n <= u → lasts n u MQTTCloseSession whatever.
Proof. intros Hu. unfold MQTTCloseSession, MQTTCleanSession. at_once. Qed.
#[local] Hint Resolve lasts_close : lasts.

(** A packet and its answer take four times what the timer has left at most,
    for the bytes of the length are each given all of it. *)
Lemma lasts_cycle n t dl : due dl n t → lasts n (n + 4 * Z.max 0 (dl - n) + 14 * D + 100) (cycle t) (timer_due dl).
Proof.
  intros Ht. pose proof (due_since _ _ _ Ht) as HB. unfold cycle.
  eapply lasts_bind; [by apply lasts_readPacket|lia|intros [p t1] n1 Hn1 Ht1]. unfold timer_due in Ht1. cbn [snd] in Ht1.
  eapply lasts_bind; [by apply lasts_dispatch|lia|intros [[rc exit] t2] n2 Hn2 Ht2]. unfold timer_due in Ht2. cbn [snd] in Ht2.
  eapply (lasts_bind _ (n2 + 100 + 2 * D) _ _ _ whatever).
  { destruct exit; [at_once|]. eapply lasts_bind; [apply lasts_keepalive; lia|lia|intros k n3 Hn3 _]. at_once. }
  - lia.
  - intros rc' n3 Hn3 _. destruct (rc' =? SUCCESS); [eapply lasts_give_timer; [eassumption|lia]|].
    eapply (lasts_free _ _ _ _ whatever); [by auto with lasts|lia|intros up _].
    eapply (lasts_free _ _ _ _ whatever); [at_once|lia|intros _ _]. eapply lasts_give_timer; [eassumption|lia].
Qed.
Lemma lasts_yield_loop dl : ∀ fuel n t, due dl n t → lasts n (n + 4 * Z.max 0 (dl - n) + 14 * D + 100) (yield_loop fuel t) whatever.
Proof.
  induction fuel as [|fuel IH]; intros n t Ht; cbn [yield_loop]; [by apply lasts_no_fuel; [lia|]|].
  eapply lasts_bind; [by apply lasts_cycle|lia|intros [rc t1] n1 Hn1 Ht1]. unfold timer_due in Ht1. cbn [snd] in Ht1.
  destruct (rc <? 0); [at_once|]. eapply lasts_free; [by apply lasts_expired|lia|intros [[] t2] [Ht2 Hex]]; cbn [fst snd] in *; [at_once|].
  specialize (Hex eq_refl). eapply lasts_le; [by apply IH|lia|done].
Qed.
Lemma lasts_waitfor_loop p dl : ∀ fuel n u rc t, due dl n t → n <= u → (n < dl → n + 4 * (dl - n) + 14 * D + 100 <= u) →
  lasts n u (waitfor_loop fuel p rc t) whatever.
Proof.
  induction fuel as [|fuel IH]; intros n u rc t Ht Hu Hdl; cbn [waitfor_loop]; [by apply lasts_no_fuel|].
  eapply lasts_free; [by apply lasts_expired|lia|intros [[] t1] [Ht1 Hex]]; cbn [fst snd] in *; [at_once|].
  specialize (Hex eq_refl). specialize (Hdl Hex).
  eapply lasts_bind; [by apply lasts_cycle|lia|intros [rc1 t2] n1 Hn1 Ht2]. unfold timer_due in Ht2. cbn [snd] in Ht2.
  destruct (_ && _); [|at_once]. apply IH; [done|lia|lia].
Qed.
Lemma lasts_waitfor n p t dl : due dl n t → lasts n (n + 4 * Z.max 0 (dl - n) + 14 * D + 100) (waitfor p t) whatever.
Proof.
  intros Ht. unfold waitfor. eapply (lasts_free _ _ _ _ whatever); [by auto with lasts|lia|intros fuel _].
  eapply lasts_bind; [apply (lasts_waitfor_loop p dl _ n (n + 4 * Z.max 0 (dl - n) + 14 * D + 100)); [done|lia|lia]|lia|intros [rc t'] n1 Hn1 _]. at_once.
Qed.

(** *** The calls of the application *)
Lemma lasts_mutex {A} n u (m : MR (sys W E handler) A) : n <= u → lasts n u m whatever → lasts n u (with_mutex m) whatever.
Proof.
  intros Hu Hm. unfold with_mutex. eapply (lasts_free _ _ _ _ whatever); [by auto with lasts|lia|intros taken _].
  destruct taken; [at_once|]. eapply (lasts_free _ _ _ _ whatever); [by auto with lasts|lia|intros _ _].
  eapply lasts_bind; [exact Hm|lia|intros a n1 Hn1 _]. at_once.
Qed.
Lemma lasts_send_and_wait n len t p k dl : due dl n t → (∀ n', lasts n' n' k whatever) →
  lasts n (n + 4 * Z.max 0 (dl - n) + 16 * D + 100) (send_and_wait len t p k) whatever.
Proof.
  intros Ht Hk. unfold send_and_wait. destruct (len <=? 0); [at_once|].
  eapply lasts_bind; [by apply lasts_sendPacket|lia|intros [rc t'] n1 Hn1 Ht']. unfold timer_due in Ht'. cbn [snd] in Ht'.
  destruct (negb _); [at_once|]. eapply lasts_bind; [by apply lasts_waitfor|lia|intros a n2 Hn2 _].
  destruct (a =? p); [|at_once]. eapply lasts_le; [apply Hk|lia|done].
Qed.

(** The timer of a command is the client's. *)
Section Command.
Variable T : Z.
Hypothesis T_range : 0 <= T < 2 ^ 31.
Definition commanded {A} (n u : Z) (m : MR (sys W E handler) A) : Prop := u < B + 2 ^ 32 →
  ∀ s r s', brisk s → now s = n → command_timeout_ms (client s) = T → m s = Some (r, s') → brisk s' ∧ n <= now s' <= u.

Lemma commanded_lasts {A} n u (m : MR (sys W E handler) A) Q : lasts n u m Q → commanded n u m.
Proof. intros Hm Hu s r s' Hs Hn _ Hr. destruct (Hm Hu s r s' Hs Hn Hr) as (? & ? & _). done. Qed.
Lemma commanded_read {A C} n u (f : sys W E handler → A) (k : A → MR (sys W E handler) C) :
  (∀ a, commanded n u (k a)) → commanded n u (bind_r (read_sys f) k).
Proof. intros Hk Hu s r s' Hs Hn HT Hr. rewrite bind_r_read in Hr. by eapply Hk. Qed.
Lemma commanded_bind {A C} n u v (m : MR (sys W E handler) A) (k : A → MR (sys W E handler) C) :
  commanded n u m → u <= v → (∀ a n', n <= n' <= u → lasts n' v (k a) whatever) → commanded n v (bind_r m k).
Proof.
  intros Hm Huv Hk Hv s r s' Hs Hn HT (o & s1 & Hr & Hr')%bind_Some_inv. destruct (Hm ltac:(lia) s o s1 Hs Hn HT Hr) as (Hs1 & Hn1).
  destruct o as [a|]; [|injection Hr' as <- <-; split; [done|lia]].
  destruct (Hk a (now s1) Hn1 Hv s1 r s' Hs1 eq_refl Hr') as (? & ? & _). split; [done|lia].
Qed.
Lemma commanded_mutex {A} n u (m : MR (sys W E handler) A) : n <= u → commanded n u m → commanded n u (with_mutex m).
Proof.
  intros Hu Hm Hv s r s' Hs Hn HT Hr. unfold with_mutex in Hr. unfold read_client at 1 in Hr. rewrite bind_r_read in Hr.
  destruct (mutex (client s)); [done|]. apply bind_Some_inv in Hr as (o & s1 & [= <- <-] & Hr).
  refine (commanded_bind n u u m _ Hm ltac:(lia) _ Hv (set_client (set_mutex true (client s)) s) r s' Hs Hn HT Hr). intros a n' Hn'. at_once.
Qed.
Lemma commanded_timer {A} n u (k : Timer → MR (sys W E handler) A) Q : B <= n →
  (∀ t, due (n + T / 10) n t → lasts n u (k t) Q) → commanded n u (let? t := command_timer in k t).
Proof.
  intros HB Hk Hu s r s' Hs Hn HT Hr.
  destruct (Hk (TimerCountdownMS (now s) (command_timeout_ms (client s))) ltac:(rewrite Hn, HT; by apply due_countdown) Hu s r s' Hs Hn Hr) as (? & ? & _).
  done.
Qed.
(** A request: [k] is given the timer. *)
Lemma commanded_request n u k : B <= n → n <= u → (∀ t, due (n + T / 10) n t → lasts n u (k t) whatever) →
  commanded n u (command (let? t := command_timer in k t)).
Proof.
  intros HB Hu Hk. apply commanded_mutex; [done|]. apply commanded_read. intros up. eapply (commanded_bind _ u); [|lia|].
  - destruct (negb up); [apply (commanded_lasts _ _ _ whatever); at_once|by eapply commanded_timer].
  - intros rc n' Hn'. unfold close_on_failure. at_once.
Qed.

Lemma lasts_set_handler n u f h : n <= u → lasts n u (MQTTSetMessageHandler f h) whatever.
Proof. intros Hu. unfold MQTTSetMessageHandler. at_once. Qed.
Lemma lasts_next_id n u : n <= u → lasts n u getNextPacketId whatever.
Proof. intros Hu. unfold getNextPacketId. at_once. Qed.
#[local] Hint Resolve lasts_set_handler lasts_next_id : lasts.

(** What a call of the application takes. *)
Definition span : Z := 4 * (T / 10) + 16 * D + 100.
Lemma commanded_perform c n : B <= n → (∀ ms, c ≠ Yield ms) → commanded n (n + span) (perform c).
Proof.
  intros HB Hms. assert (0 <= T / 10) by dlia. unfold span. destruct c as [options d|f q h|f|f m|ms|]; cbn [perform].
  - eapply (commanded_bind _ (n + span)); [|unfold span; lia|intros [rc d'] n' Hn'; unfold span in Hn'; at_once].
    apply commanded_mutex; [unfold span; lia|]. apply commanded_read. intros up.
    eapply (commanded_bind _ (n + span)); [|lia|intros [rc d'] n' Hn'; unfold span in *; at_once].
    destruct up; [apply (commanded_lasts _ _ _ whatever); unfold span; at_once|]. unfold connect_session, span. eapply (commanded_timer _ _ _ whatever); [done|]. intros t Ht. cbv zeta.
    do 3 (eapply (lasts_free _ _ _ _ whatever); [by auto with lasts|lia|intros ? _]). destruct (a1 <=? 0); [at_once|].
    eapply lasts_bind; [by apply lasts_sendPacket|lia|intros [rc t'] n1 Hn1 Ht']. unfold timer_due in Ht'. cbn [snd] in Ht'.
    destruct (negb _); [at_once|]. eapply lasts_bind; [by apply lasts_waitfor|lia|intros a2 n2 Hn2 _]. at_once.
  - apply commanded_request; [done|lia|]. intros t Ht. do 2 (eapply (lasts_free _ _ _ _ whatever); [by auto with lasts|lia|intros ? _]).
    eapply lasts_le; [apply lasts_send_and_wait; [done|intros n'; at_once]|lia|done].
  - apply commanded_request; [done|lia|]. intros t Ht. do 2 (eapply (lasts_free _ _ _ _ whatever); [by auto with lasts|lia|intros ? _]).
    eapply lasts_le; [apply lasts_send_and_wait; [done|intros n'; at_once]|lia|done].
  - apply commanded_request; [done|lia|]. intros t Ht. do 2 (eapply (lasts_free _ _ _ _ whatever); [at_once|lia|intros ? _]).
    assert (Hc : ∀ n', lasts n' n' check_ack whatever) by (intros n'; unfold check_ack; at_once).
    do 2 (destruct (_ =? _); [eapply lasts_le; [by apply lasts_send_and_wait|lia|done]|]). destruct (_ <=? 0); [at_once|].
    eapply lasts_bind; [by apply lasts_sendPacket|lia|intros [rc t'] n1 Hn1 _]. at_once.
  - by destruct (Hms ms).
  - apply commanded_mutex; [lia|]. eapply (commanded_timer _ _ _ whatever); [done|]. intros t Ht.
    eapply (lasts_free _ _ _ _ whatever); [by auto with lasts|lia|intros len _].
    eapply (lasts_bind _ (n + 4 * (T / 10) + 2 * D) _ _ _ whatever); [|lia|intros rc n1 Hn1 _; at_once].
    destruct (0 <? len); [|at_once]. eapply lasts_bind; [by apply lasts_sendPacket|lia|intros [rc t'] n1 Hn1 _]. at_once.
Qed.
End Command.
Lemma lasts_yield n ms : B <= n → 0 <= ms < 2 ^ 31 → lasts n (n + span ms) (MQTTYield ms) whatever.
Proof.
  intros HB Hms. assert (0 <= ms / 10) by dlia. unfold MQTTYield, span. eapply lasts_free; [apply lasts_now|lia|intros k <-].
  eapply (lasts_free _ _ _ _ whatever); [by auto with lasts|lia|intros fuel _].
  eapply lasts_le; [apply lasts_yield_loop; by apply due_countdown|lia|done].
Qed.
End Time.

(** The milliseconds a call is given. *)
Definition patience (c : call) (s : sys W E handler) : Z := match c with Yield ms => ms | _ => command_timeout_ms (client s) end.

(** C12: Every call of the client comes to an end, and in time, whatever the
    socket answers and the handlers do. A socket that never makes progress, with
    a script however long - a server that lets a packet drip in, a send that
    takes nothing - keeps no call longer than four times its timeout, plus
    sixteen times the ticks [D] a single call of the socket may take, plus the
    second of a ping: the checks of the timers in [esp_read], [esp_write],
    [sendPacket], [waitfor] and [MQTTYield] are what ends it. (Four times, since
    [decodePacket] gives each byte of the length the time it was called with.)
    When the socket gives nothing any more the loops end as well: none runs out
    of its fuel, which is two rounds more than the answers the socket has. *)
Theorem calls_end c D s r s' : 0 <= patience c s < 2 ^ 31 → 0 <= command_timeout_ms (client s) < 2 ^ 31 →
  0 <= D <= 2 ^ 26 → Forall (λ a, Z.of_nat (ticks a) <= D) (script s) → out_of_fuel s = false → perform c s = Some (r, s') →
  out_of_fuel s' = false ∧ now s <= now s' <= now s + 4 * (patience c s / 10) + 16 * D + 100.
Proof.
  intros Hp Ht HD Hs Hf Hr. split.
  - pose proof (perform_complete c (length (script s)) ltac:(by intros ms ->) s r s' ltac:(by split) Hr) as Hk. destruct r; [by destruct Hk|done].
  - assert (0 <= patience c s / 10 < 2 ^ 28) by dlia.
    assert (Hk : brisk D s' ∧ now s <= now s' <= now s + span D (patience c s)); [|unfold span in Hk; lia].
    assert (Hu : now s + span D (patience c s) < now s + 2 ^ 32) by (unfold span; lia).
    assert (Hd : (∃ ms, c = Yield ms) ∨ ∀ ms, c ≠ Yield ms) by (destruct c; eauto). destruct Hd as [[ms ->]|Hc].
    + destruct (lasts_yield (now s) D ltac:(lia) (now s) ms ltac:(lia) Hp Hu s r s' Hs eq_refl Hr) as (? & ? & _). done.
    + assert (Ep : patience c s = command_timeout_ms (client s)) by (destruct c; try done; by destruct (Hc timeout_ms)). rewrite Ep in *.
      exact (commanded_perform (now s) D ltac:(lia) _ Ht c (now s) ltac:(lia) Hc Hu s r s' Hs eq_refl eq_refl Hr).
Qed.

(** ** A message on its way

    The socket gives exactly [bs] to a read of that length. *)
Definition arrives (bs : list Z) (cs : list (sockcall E)) : Prop :=
  ∃ a b n m, cs = [mkCall a [] n []; mkCall b bs m []] ∧ 0 < a ∧ 0 <= b.
Fixpoint arrive_each (bs : list Z) (cs : list (sockcall E)) : Prop :=
  match bs with [] => cs = [] | b :: bs => ∃ c cs', cs = c ++ cs' ∧ arrives [b] c ∧ arrive_each bs cs' end.
(** A packet as [readPacket] asks for it. *)
Definition packet_arrives (h : Z) (body : list Z) (cs : list (sockcall E)) : Prop :=
  ∃ c1 c2 c3, cs = c1 ++ c2 ++ c3 ∧ arrives [h] c1 ∧ arrive_each (varint 5 (zlen body)) c2 ∧
    if bool_decide (body = []) then c3 = [] else arrives body c3.

(** The ticks that pass in some calls. *)
Fixpoint elapsed (cs : list (sockcall E)) : Z := match cs with [] => 0 | c :: cs => Z.of_nat (ticks c) + elapsed cs end.
Lemma elapsed_app cs cs' : elapsed (cs ++ cs') = elapsed cs + elapsed cs'.
Proof. induction cs as [|c cs IH]; cbn [elapsed app]; lia. Qed.
Lemma elapsed_nonneg cs : 0 <= elapsed cs.
Proof. induction cs as [|c cs IH]; cbn [elapsed]; lia. Qed.

(** The state after some calls of the socket. *)
Definition later (n : Z) (cs : list (sockcall E)) (s : sys W E handler) : sys W E handler := set_now n (set_script cs s).
Lemma syscall_run c cs s : script s = c :: cs → others c = [] → syscall s = Some (Some (Some c), later (now s + Z.of_nat (ticks c)) cs s).
Proof. intros Hs Ho. unfold syscall. rewrite bind_r_read, Hs. destruct c as [a b n o]. cbn in Ho. by subst o. Qed.

Lemma select_run c cs ms s : script s = c :: cs → others c = [] → select ms s = Some (Some (returns c), later (now s + Z.of_nat (ticks c)) cs s).
Proof. intros Hs Ho. unfold select. by rewrite (bind_r_run _ _ _ _ _ (syscall_run _ _ s Hs Ho)). Qed.

Lemma esp_read_arrives bs cs rest ms s : arrives bs cs → bs ≠ [] → script s = cs ++ rest →
  esp_read (zlen bs) ms s = Some (Some (zlen bs, bs), later (now s + elapsed cs) rest s).
Proof.
  intros (a & b & n & m & -> & Ha & Hb) Hne Hs. cbn [elapsed ticks].
  replace (now s + (Z.of_nat n + (Z.of_nat m + 0))) with (now s + Z.of_nat n + Z.of_nat m) by lia.
  unfold esp_read. rewrite bind_r_read. cbv zeta. cbn [app] in Hs.
  rewrite (bind_r_run _ _ _ _ _ (select_run _ _ ms s Hs eq_refl)). cbn [returns ticks]. destruct (Z.leb_spec a 0); [lia|]. rewrite bind_r_read. unfold rounds_left. cbn [read_loop].
  assert (Hrecv : recv (zlen bs - zlen (@nil Z)) (later (now s + Z.of_nat n) (mkCall b bs m [] :: rest) s) =
    Some (Some (zlen bs, bs), later (now s + Z.of_nat n + Z.of_nat m) rest s)).
  { unfold recv. rewrite (bind_r_run _ _ _ _ _ (syscall_run _ rest (later (now s + Z.of_nat n) (mkCall b bs m [] :: rest) s) eq_refl eq_refl)).
    cbn [returns bytes_]. destruct (Z.ltb_spec b 0); [lia|]. change (zlen (@nil Z)) with 0. rewrite Z.sub_0_r.
    assert (Htake : take (Z.to_nat (zlen bs)) bs = bs) by (unfold zlen; by rewrite Nat2Z.id, take_ge by lia). by rewrite Htake. }
  rewrite (bind_r_run _ _ _ _ _ Hrecv). pose proof (zlen_nonneg bs). destruct (Z.ltb_spec (zlen bs) 0); [lia|]. cbn [app].
  by rewrite Z.ltb_irrefl.
Qed.

(** [decodePacket] on the bytes of [n]. *)
Lemma decode_arrives ms : ∀ g fuel l m v n cs rest s, (Z.to_nat l + g <= 4)%nat → 0 <= l → (g < fuel)%nat → g ≠ O → 0 <= n < 128 ^ Z.of_nat g →
  arrive_each (varint (Datatypes.S g) n) cs → script s = cs ++ rest →
  ∃ k, decodePacket_loop fuel l m v ms s = Some (Some (k, v + n * m), later (now s + elapsed cs) rest s).
Proof.
  induction g as [|g IH]; intros fuel l m v n cs rest s Hl Hl0 Hfuel Hg Hn Hcs Hs; [done|]. destruct fuel as [|fuel]; [lia|].
  cbn [decodePacket_loop]. unfold MAX_NO_OF_REMAINING_LENGTH_BYTES. cbv zeta. destruct (Z.ltb_spec 4 (l + 1)); [lia|].
  rewrite Nat2Z.inj_succ, Z.pow_succ_r in Hn by lia. destruct (Z.ltb_spec n 128) as [Hlast|Hmore].
  - rewrite varint_last in Hcs by done. destruct Hcs as (c & cs' & -> & Hc & Hnil).
    change (cs' = []) in Hnil. subst cs'. rewrite app_nil_r in Hs |- *.
    pose proof (esp_read_arrives [n] c rest ms s Hc ltac:(done) Hs) as Hr. change (zlen [n]) with 1 in Hr.
    rewrite (bind_r_run _ _ _ _ _ Hr). cbn [negb Z.eqb Pos.eqb]. destruct (low_bits n ltac:(lia)) as (-> & -> & _). cbn [negb Z.eqb].
    by exists (l + 1).
  - rewrite varint_step in Hcs by done. destruct Hcs as (c & cs' & -> & Hc & Hcs). rewrite <- app_assoc in Hs.
    pose proof (esp_read_arrives _ c (cs' ++ rest) ms s Hc ltac:(done) Hs) as Hr. change (zlen [_]) with 1 in Hr.
    rewrite (bind_r_run _ _ _ _ _ Hr). cbn [negb Z.eqb Pos.eqb].
    destruct (low_bits (n mod 128) ltac:(dlia)) as (_ & _ & -> & Hbit%Z.eqb_neq). rewrite Hbit. cbn [negb].
    assert (g ≠ O) by (intros ->; cbn in Hn; dlia).
    destruct (IH fuel (l + 1) (m * 128) (v + n mod 128 * m) (n / 128) cs' rest (later (now s + elapsed c) (cs' ++ rest) s)
      ltac:(lia) ltac:(lia) ltac:(lia) ltac:(done) ltac:(dlia) Hcs eq_refl) as (k & ->).
    exists k. cbn [now later set_now set_script]. rewrite elapsed_app, Z.add_assoc.
    replace (v + n mod 128 * m + n / 128 * (m * 128)) with (v + n * m); [done|].
    rewrite (Z.div_mod n 128) at 1 by lia. ring.
Qed.

Lemma splice_at pre old post bs : length old = length bs → splice (pre ++ old ++ post) (zlen pre) bs = Some (pre ++ bs ++ post).
Proof.
  intros Hlen. unfold splice. pose proof (zlen_nonneg pre). rewrite (proj2 (Z.leb_le 0 (zlen pre))) by lia.
  rewrite (proj2 (Z.leb_le (zlen pre + zlen bs) _)) by (rewrite !zlen_app; pose proof (zlen_nonneg post); unfold zlen in *; lia).
  cbn [andb]. unfold zlen. rewrite Nat2Z.id, take_app_length. f_equal. f_equal. f_equal.
  rewrite app_assoc, <- Hlen. by rewrite drop_app_length' by (rewrite length_app; done).
Qed.
Lemma cut_buffer (b : list Z) n : (n <= length b)%nat → ∃ old post, b = old ++ post ∧ length old = n ∧ post = drop n b.
Proof. intros Hn. exists (take n b), (drop n b). by rewrite take_drop, length_take, Nat.min_l. Qed.

Lemma read_into_run off bs cs rest ms s pre old post : arrives bs cs → bs ≠ [] → script s = cs ++ rest →
  readbuf (client s) = pre ++ old ++ post → length old = length bs → off = zlen pre →
  read_into off (zlen bs) ms s =
    Some (Some (zlen bs), set_client (set_readbuf (pre ++ bs ++ post) (client s)) (later (now s + elapsed cs) rest s)).
Proof.
  intros Hcs Hne Hs Hb Hlen ->. pose proof (esp_read_arrives bs cs rest ms s Hcs Hne Hs) as Hr.
  unfold read_into. rewrite (bind_r_run _ _ _ _ _ Hr). unfold read_client at 1. rewrite bind_r_read. cbn [client later set_now set_script].
  by rewrite Hb, splice_at.
Qed.
Lemma bind_put_client {B} f (k : unit → MR (sys W E handler) B) s : bind_r (put_client f) k s = k tt (set_client (f (client s)) s).
Proof. done. Qed.
Lemma bind_give {A B} (a : A) (k : A → MR (sys W E handler) B) s : bind_r (give a) k s = k a s.
Proof. done. Qed.
Lemma bind_access {A B} (o : option A) a (k : A → MR (sys W E handler) B) s : o = Some a → bind_r (access o) k s = k a s.
Proof. by intros ->. Qed.
Lemma bind_read_client {A B} (f : MQTTClient handler → A) (k : A → MR (sys W E handler) B) s : bind_r (read_client f) k s = k (f (client s)) s.
Proof. done. Qed.

(** What [readPacket] leaves in the client. *)
Definition received (b : list Z) (n : Z) (c : MQTTClient handler) : MQTTClient handler :=
  let c := set_readbuf b c in if 0 <? keep_alive c then set_last_received (TimerCountdown n (keep_alive c)) c else c.

Lemma read_header_run h b (t : Timer) s : readbuf (client s) = h :: b →
  (let? b := read_client readbuf in
   let? h := access (rd b 0) in
   let? keep := read_client keep_alive in
   let? n := read_sys now in
   (if 0 <? keep then put_client (set_last_received (TimerCountdown n keep)) else give tt) ;?
   give (header_type h, t)) s = Some (Some (header_type h, t), set_client (received (h :: b) (now s) (client s)) s).
Proof.
  intros Hb. rewrite bind_read_client, Hb. rewrite (bind_access (rd (h :: b) 0) h _ _ eq_refl). rewrite bind_read_client, bind_r_read.
  unfold received. destruct s as [c n sc se f st w]. cbn [client now] in *. destruct c. cbn [readbuf] in Hb. subst.
  cbv zeta. cbn [keep_alive set_readbuf]. by destruct (0 <? keep_alive0).
Qed.

(** A timer that is not over yet is armed again with what is left. *)
Lemma left_running n d n' : n <= n' → n' - n < d → 10 * d < 2 ^ 31 → ∃ ms, TimerLeftMS n' (armed n d) = (ms, armed n' (n + d - n')).
Proof.
  intros Hn Hd Hd'. unfold TimerLeftMS. rewrite check_armed by lia. destruct (Z.ltb_spec (n' - n) d); [|lia].
  replace (d - (n' - n)) with (n + d - n') by lia. by eexists.
Qed.
Lemma readPacket_run d h body cs rest s : packet_arrives h body cs → script s = cs ++ rest →
  zlen (packet h body) <= readbuf_size (client s) <= zlen (readbuf (client s)) → readbuf_size (client s) < 2 ^ 31 → zlen body < 2 ^ 28 →
  elapsed cs < d → 10 * d < 2 ^ 31 →
  ∃ n, now s <= n <= now s + elapsed cs ∧ readPacket (armed (now s) d) s = Some (Some (header_type h, armed n (now s + d - n)),
    set_client (received (packet h body ++ drop (length (packet h body)) (readbuf (client s))) (now s + elapsed cs) (client s))
      (later (now s + elapsed cs) rest s)).
Proof.
  intros (c1 & c2 & c3 & -> & H1 & H2 & H3) Hs [Hfit Hbuf] Hsize Hbody Hd Hd'. rewrite !elapsed_app in *. rewrite <- !app_assoc in Hs.
  pose proof (elapsed_nonneg c1). pose proof (elapsed_nonneg c2). pose proof (elapsed_nonneg c3). rewrite packet_length in Hfit.
  set (v := varint 5 (zlen body)) in *. pose proof (zlen_nonneg body). pose proof (zlen_nonneg v).
  set (b := readbuf (client s)) in *. set (rem := zlen body) in *.
  destruct (cut_buffer b (1 + length v + length body)) as (all & post & Hb & Hall & Hpost); [unfold rem, zlen in *; lia|].
  destruct all as [|x all]; [done|]. destruct (cut_buffer all (length v)) as (oldv & oldbody & -> & Holdv & _); [cbn [length] in Hall; lia|].
  assert (Holdbody : length oldbody = length body) by (cbn [length] in Hall; rewrite length_app in Hall; lia).
  assert (Hfinal : packet h body ++ drop (length (packet h body)) b = [h] ++ v ++ body ++ post).
  { unfold packet. fold rem v. cbn [app]. rewrite <- app_assoc. do 3 f_equal. subst post. f_equal. cbn [length]. rewrite length_app. lia. }
  rewrite Hfinal. clear Hfinal Hpost. unfold readPacket. rewrite bind_timer_left, left_armed by lia.
  set (ms1 := d * 10).
  pose proof (read_into_run 0 [h] c1 (c2 ++ c3 ++ rest) ms1 s [] [x] ((oldv ++ oldbody) ++ post) H1 ltac:(done) Hs Hb eq_refl eq_refl) as E1.
  change (zlen [h]) with 1 in E1. rewrite (bind_r_run _ _ _ _ _ E1). cbn [negb Z.eqb Pos.eqb]. rewrite bind_timer_left.
  set (s1 := set_client _ _). destruct (left_running (now s) d (now s1)) as [ms2 Hms2]; [cbn; lia..|]. rewrite Hms2.
  set (t2 := armed (now s1) _).
  destruct (decode_arrives ms2 4 5 0 1 0 rem c2 (c3 ++ rest) s1 ltac:(cbn; lia) ltac:(lia) ltac:(lia) ltac:(done) ltac:(cbn; lia) H2 eq_refl)
    as (k & E2). unfold decodePacket. rewrite (bind_r_run _ _ _ _ _ E2). rewrite Z.add_0_l, Z.mul_1_r. cbv beta iota.
  rewrite bind_read_client. change (readbuf (client (later (now s1 + elapsed c2) (c3 ++ rest) s1))) with ([] ++ [h] ++ (oldv ++ oldbody) ++ post). cbn [app].
  assert (E3 : MQTTPacket_encode rem (Cursor (h :: (oldv ++ oldbody) ++ post) 1) = Some (zlen v, At [h] (v ++ oldbody ++ post))).
  { rewrite <- app_assoc. exact (encode_loop_run 5 rem [] oldv [h] (oldbody ++ post) ltac:(done) ltac:(cbn; lia) Holdv). }
  rewrite (bind_access _ _ _ _ E3), bind_put_client. cbn [c_buf At]. cbv zeta. rewrite bind_read_client.
  cbn [client set_client readbuf_size set_readbuf later set_now set_script s1].
  rewrite !u32_id by (unfold in_u32; lia). destruct (Z.ltb_spec (readbuf_size (client s) - (1 + zlen v)) rem); [lia|].
  set (s2 := set_client _ _). assert (Hs2 : readbuf (client s2) = (h :: v) ++ oldbody ++ post) by done.
  case_bool_decide as Hempty.
  - subst body c3. assert (oldbody = []) as -> by (by apply nil_length_inv). change rem with 0. cbn [Z.ltb Z.compare]. rewrite bind_give. cbn [negb]. rewrite (read_header_run h (v ++ post)) by done.
    exists (now s1). split; [cbn; lia|]. cbn [elapsed]. by rewrite Z.add_0_r, Z.add_assoc.
  - assert (Hpos : 0 < rem) by (destruct body; [done|unfold rem; unfold zlen; cbn; lia]). rewrite (proj2 (Z.ltb_lt 0 rem) Hpos).
    destruct (left_running (now s1) (now s + d - now s1) (now s2)) as [ms3 E4]; [cbn; lia..|]. fold t2 in E4.
    set (t3 := armed (now s2) _) in E4.
    pose proof (read_into_run (1 + zlen v) body c3 rest ms3 s2 (h :: v) oldbody post H3 Hempty eq_refl Hs2 Holdbody ltac:(by rewrite zlen_cons)) as E5.
    assert (E6 : (let? (left_ms, t0) := timer_left t2 in let? rc := read_into (1 + zlen v) rem left_ms in give (rc =? rem, t0)) s2 =
      Some (Some (true, t3), set_client (set_readbuf ((h :: v) ++ body ++ post) (client s2)) (later (now s2 + elapsed c3) rest s2))).
    { rewrite bind_timer_left, E4. fold rem in E5. rewrite (bind_r_run _ _ _ _ _ E5). by rewrite Z.eqb_refl. }
    rewrite (bind_r_run _ _ _ _ _ E6). cbn [negb]. rewrite (read_header_run h (v ++ body ++ post)) by done.
    exists (now s2). split; [cbn; lia|]. replace (now s + (elapsed c1 + (elapsed c2 + elapsed c3))) with (now s2 + elapsed c3) by (cbn; lia).
    subst t3. replace (now s1 + (now s + d - now s1) - now s2) with (now s + d - now s2) by lia. done.
Qed.

(** ** A packet on its way out *)

(** The socket takes a whole packet of [len] bytes. *)
Definition leaves (len : Z) (cs : list (sockcall E)) : Prop :=
  ∃ a b n k c m, cs = [mkCall a b n []; mkCall k c m []] ∧ 0 < a ∧ len <= k.

(** A timer is not over. *)
Lemma running n d n' : n <= n' → n' - n < d → 10 * d < 2 ^ 31 → TimerIsExpired n' (armed n d) = (false, armed n' (n + d - n')).
Proof.
  intros Hn Hd Hd'. unfold TimerIsExpired. rewrite check_armed by lia. destruct (Z.ltb_spec (n' - n) d); [|lia].
  by replace (d - (n' - n)) with (n + d - n') by lia.
Qed.

Definition sends (bs : list Z) (s : sys W E handler) : sys W E handler := set_sent (sent s ++ bs) s.
Lemma esp_write_leaves b len cs rest ms s : leaves len cs → script s = cs ++ rest → 0 < len <= zlen b →
  esp_write b len ms s = Some (Some len, sends (take (Z.to_nat len) b) (later (now s + elapsed cs) rest s)).
Proof.
  intros (x & y & n & k & z & m & -> & Hx & Hk) Hs [Hpos Hlen]. cbn [elapsed ticks].
  replace (now s + (Z.of_nat n + (Z.of_nat m + 0))) with (now s + Z.of_nat n + Z.of_nat m) by lia.
  unfold esp_write. rewrite bind_r_read. cbv zeta. cbn [app] in Hs.
  rewrite (bind_r_run _ _ _ _ _ (select_run _ _ ms s Hs eq_refl)). cbn [returns ticks]. destruct (Z.leb_spec x 0); [lia|].
  rewrite bind_r_read. unfold rounds_left. cbn [write_loop Z.to_nat]. rewrite drop_0, Z.sub_0_r.
  set (s1 := later (now s + Z.of_nat n) (mkCall k z m [] :: rest) s).
  assert (Hsend : send b len s1 = Some (Some len, sends (take (Z.to_nat len) b) (later (now s + Z.of_nat n + Z.of_nat m) rest s))).
  { unfold send. rewrite (bind_r_run _ _ _ _ _ (syscall_run _ rest s1 eq_refl eq_refl)). cbn [returns]. destruct (Z.ltb_spec k 0); [lia|].
    cbv zeta. rewrite Z.min_r by lia. by destruct (Z.ltb_spec (zlen b) len); [lia|]. }
  rewrite (bind_r_run _ _ _ _ _ Hsend). destruct (Z.ltb_spec len 0); [lia|]. cbv zeta. rewrite Z.add_0_l. by rewrite Z.ltb_irrefl.
Qed.

(** What [sendPacket] leaves in the client. *)
Definition was_sent (n : Z) (c : MQTTClient handler) : MQTTClient handler := set_last_sent (TimerCountdown n (keep_alive c)) c.
Lemma sendPacket_run len n d cs rest s : leaves len cs → script s = cs ++ rest → 0 < len <= zlen (buf (client s)) →
  n <= now s → now s - n < d → 10 * d < 2 ^ 31 →
  sendPacket len (armed n d) s = Some (Some (SUCCESS, armed (now s) (n + d - now s)),
    set_client (was_sent (now s + elapsed cs) (client s)) (sends (take (Z.to_nat len) (buf (client s))) (later (now s + elapsed cs) rest s))).
Proof.
  intros Hcs Hs [Hpos Hlen] Hn Hd Hd'. unfold sendPacket. rewrite bind_r_read. unfold rounds_left.
  set (fuel := length (script s)). cbn [send_loop]. destruct (Z.ltb_spec 0 len); [|lia].
  assert (Hloop : (let? (expired, t) := timer_expired (armed n d) in
     if expired then give (0, t) else
     let? (left_ms, t) := timer_left t in
     let? b := read_client buf in
     let? rc := esp_write (drop (Z.to_nat 0) b) len left_ms in
     if rc <? 0 then give (0, t) else send_loop (Datatypes.S fuel) (0 + rc) len t) s =
     Some (Some (len, armed (now s) (n + d - now s)), sends (take (Z.to_nat len) (buf (client s))) (later (now s + elapsed cs) rest s))).
  { rewrite bind_timer_expired, running by done. rewrite bind_timer_left, left_armed by lia. rewrite bind_read_client. cbn [Z.to_nat]. rewrite drop_0.
    rewrite (bind_r_run _ _ _ _ _ (esp_write_leaves _ len cs rest _ s Hcs Hs (conj Hpos Hlen))).
    destruct (Z.ltb_spec len 0); [lia|]. cbn [send_loop]. rewrite Z.add_0_l. by rewrite Z.ltb_irrefl. }
  rewrite (bind_r_run _ _ _ _ _ Hloop). by rewrite Z.eqb_refl.
Qed.

(** An acknowledgement is written into [buf] and sent. *)
Definition answer_type (qos : Z) : Z := if qos =? QOS1 then PUBACK else PUBREC.
Definition answer (qos packetid : Z) : list Z :=
  if qos =? QOS0 then [] else packet (header_byte (answer_type qos) 0 0 0) (int2 packetid).
Definition answer_leaves (qos : Z) (cs : list (sockcall E)) : Prop := if qos =? QOS0 then cs = [] else leaves 4 cs.
Definition answered (qos packetid n : Z) (c : MQTTClient handler) : MQTTClient handler :=
  if qos =? QOS0 then c else was_sent n (set_buf (answer qos packetid ++ drop 4 (buf c)) c).
Lemma bind_into_buf {B} m (k : Z → MR (sys W E handler) B) s n b : m (buf_size (client s)) (buf (client s)) = Some (n, b) →
  bind_r (into_buf m) k s = k n (set_client (set_buf b (client s)) s).
Proof.
  intros Hm. apply bind_r_run. unfold into_buf. rewrite bind_read_client. unfold returning, bind, zoom. by rewrite Hm.
Qed.
Lemma acknowledge_run qos packetid n d cs rest s : 0 <= qos <= 2 → in_u16 packetid → answer_leaves qos cs → script s = cs ++ rest →
  4 <= buf_size (client s) <= zlen (buf (client s)) → n <= now s → now s - n < d → 10 * d < 2 ^ 31 →
  ∃ t, acknowledge qos packetid (armed n d) s = Some (Some (SUCCESS, t),
    set_client (answered qos packetid (now s + elapsed cs) (client s)) (sends (answer qos packetid) (later (now s + elapsed cs) rest s))).
Proof.
  intros Hq Hp Hcs Hs [Hfit Hbuf] Hn Hd Hd'. unfold acknowledge, answer_leaves, answered, answer, answer_type in *. destruct (Z.eqb_spec qos QOS0) as [|Hne].
  { subst cs. cbn [elapsed app] in *. exists (armed n d). rewrite Z.add_0_r. unfold give, sends, later, set_client, set_sent, set_now, set_script.
    cbn. rewrite app_nil_r, <- Hs. by destruct s. }
  set (type := if qos =? QOS1 then PUBACK else PUBREC). set (bs := packet _ _).
  assert (Htype : type ≠ PUBREL) by (unfold type; by destruct (qos =? QOS1)).
  assert (Hser : MQTTSerialize_ack (buf_size (client s)) type 0 packetid (buf (client s)) = Some (4, bs ++ drop 4 (buf (client s)))).
  { rewrite (ack_serializes _ _ _ _ Hp) by done. destruct (Z.ltb_spec (buf_size (client s)) 4); [lia|].
    by rewrite (proj2 (Z.eqb_neq type PUBREL) Htype). }
  assert (Hwhich : (if qos =? QOS1 then into_buf (λ size, MQTTSerialize_ack size PUBACK 0 packetid)
     else if qos =? QOS2 then into_buf (λ size, MQTTSerialize_ack size PUBREC 0 packetid) else give 0) = into_buf (λ size, MQTTSerialize_ack size type 0 packetid)).
  { unfold type. destruct (Z.eqb_spec qos QOS1); [done|]. destruct (Z.eqb_spec qos QOS2); [done|]. unfold QOS0, QOS1, QOS2 in *. lia. }
  rewrite Hwhich, (bind_into_buf _ _ _ _ _ Hser). cbn [Z.leb Z.compare].
  set (s1 := set_client _ s). assert (Hlen : length bs = 4%nat) by done.
  rewrite (sendPacket_run 4 n d cs rest s1) by (try done; cbn [client buf set_client set_buf s1]; rewrite ?zlen_app; unfold zlen; rewrite ?Hlen; lia).
  eexists. cbn [client buf set_client set_buf s1]. change (Z.to_nat 4) with (length bs). by rewrite take_app_length.
Qed.

(** ** Who gets a message *)

(** What a slot of [messageHandlers] holds: a filter and its handler. *)
Definition slot : Type := option (list (list Z)) * option handler.
Definition holds (x : slot) (m : option (list Z) * option handler) : Prop :=
  x.2 = m.2 ∧ match x.1, m.1 with
              | None, None => True
              | Some fs, Some f => fs ≠ [] ∧ filter_ok fs ∧ ∃ after, f = join fs ++ 0 :: after
              | _, _ => False
              end.
(** The filter is for the name: by its text or by its levels. *)
Definition filter_for (ns fs : list (list Z)) : bool := bool_decide (join ns = join fs) || level_match fs ns.
Definition recipient (ns : list (list Z)) (x : slot) : option handler :=
  match x with (Some fs, Some h) => if filter_for ns fs then Some h else None | _ => None end.
Definition recipients (ns : list (list Z)) (xs : list slot) : list handler := omap (recipient ns) xs.

Lemma filter_nonzero fs : filter_ok fs → Forall (λ c, c ≠ 0) (join fs).
Proof.
  induction fs as [|f fs IH]; [done|]. intros [Hf Hfs]. rewrite join_cons. apply Forall_app. split.
  - destruct Hf as [Hf|[-> |[-> _]]]; [|by repeat constructor..]. eapply Forall_impl; [exact Hf|]. by intros c [? _].
  - destruct fs; [done|]. apply Forall_cons. split; [done|by apply IH].
Qed.
Lemma c_string_text s memory : Forall (λ c, c ≠ 0) s → c_string (s ++ 0 :: memory) = Some s.
Proof. induction 1 as [|c s Hc Hs IH]; [done|]. cbn. destruct (Z.eqb_spec c 0); [done|]. by rewrite IH. Qed.
Lemma strncmp_same : ∀ f a x y, length a = length f → Forall (λ c, c ≠ 0) f → strncmp_eq (length f) (a ++ x) (f ++ y) = Some (bool_decide (a = f)).
Proof.
  induction f as [|c f IH]; intros [|b a] x y Hl Hf; try done. apply Forall_cons in Hf as [Hc Hf]. cbn [length app strncmp_eq].
  destruct (Z.eqb_spec b c) as [->|Hbc].
  - rewrite (proj2 (Z.eqb_neq c 0) Hc), IH by (done || by injection Hl). f_equal. apply bool_decide_ext. split; [by intros ->|by intros [= ->]].
  - f_equal. symmetry. apply bool_decide_eq_false. by intros [= ? _].
Qed.
Lemma is_for_run fs ns after behind : fs ≠ [] → filter_ok fs → ns ≠ [] → Forall level ns →
  is_for (join fs ++ 0 :: after) (mkString None (mkLenString (zlen (join ns)) (Some (join ns ++ behind)))) = Some (filter_for ns fs).
Proof.
  intros Hfs Hok Hns Hlev. destruct fs as [|f fs]; [done|]. destruct ns as [|n ns]; [done|]. pose proof (filter_nonzero _ Hok) as Hnz.
  unfold is_for, filter_for, MQTTPacket_equals, strlen. cbn [cstring lenstring data]. unfold MQTTstrlen. cbn [cstring lenstring len].
  rewrite c_string_text by done. cbn [mbind option_bind].
  assert (Htopic : isTopicMatched (join (f :: fs) ++ 0 :: after) (mkString None (mkLenString (zlen (join (n :: ns))) (Some (join (n :: ns) ++ behind)))) =
    Some (level_match (f :: fs) (n :: ns))).
  { unfold isTopicMatched. cbn [data lenstring len mbind option_bind]. apply match_levels_run; [done..|]. unfold zlen. lia. }
  destruct (Z.eqb_spec (zlen (join (n :: ns))) (zlen (join (f :: fs)))) as [Hlen|Hlen].
  - assert (Hl : length (join (n :: ns)) = length (join (f :: fs))) by (unfold zlen in Hlen; lia).
    replace (Z.to_nat (zlen (join (n :: ns)))) with (length (join (f :: fs))) by (unfold zlen; lia). rewrite strncmp_same by done.
    cbn [mbind option_bind]. case_bool_decide; [done|]. exact Htopic.
  - cbn [mbind option_bind]. rewrite Htopic. rewrite bool_decide_eq_false_2; [done|]. intros Heq. by rewrite Heq in Hlen.
Qed.

(** Filters of plain levels, and those that end in '#'. *)
Lemma join_inj : ∀ ls ls' , ls ≠ [] → ls' ≠ [] → Forall level ls → Forall level ls' → join ls = join ls' → ls = ls'.
Proof.
  assert (Hhead : ∀ l l' t t', level l → level l' → l ++ tail_text t = l' ++ tail_text t' → l = l' ∧ tail_text t = tail_text t').
  { induction l as [|c l IH]; intros [|c' l'] t t' Hl Hl' Heq; [done|..]; cbn [app] in Heq.
    - apply Forall_cons in Hl' as [Hc _]. destruct t; cbn in Heq; [done|by injection Heq as <- _].
    - apply Forall_cons in Hl as [Hc _]. destruct t'; cbn in Heq; [done|by injection Heq as -> _].
    - apply Forall_cons in Hl as [_ Hl], Hl' as [_ Hl']. injection Heq as -> Heq. by destruct (IH l' t t' Hl Hl' Heq) as [-> ->]. }
  induction ls as [|l ls IH]; intros [|l' ls'] Hne Hne' HL HL' Heq; try done.
  apply Forall_cons in HL as [Hl Hls], HL' as [Hl' Hls'].
  rewrite !join_cons in Heq. apply Hhead in Heq as [-> Heq]; [|done..]. f_equal.
  destruct ls as [|m ls], ls' as [|m' ls']; [done| | |apply IH; [done..|by injection Heq]];
    cbn in Heq; done.
Qed.
Lemma plain_level l : plain l → level l.
Proof. intros Hl. eapply Forall_impl; [exact Hl|]. by intros c (_ & ? & _). Qed.
Lemma level_match_plain : ∀ fs ns, Forall plain fs → level_match fs ns = bool_decide (ns = fs).
Proof.
  induction fs as [|f fs IH]; intros [|n ns] Hfs; try done. apply Forall_cons in Hfs as [Hf Hfs]. cbn [level_match].
  destruct (plain_wild f Hf) as [H1 H2]. rewrite !bool_decide_eq_false_2 by done. rewrite IH by done.
  repeat case_bool_decide; cbn; try done; congruence.
Qed.
(** The name goes on below [fs] with a level that is not empty. *)
Definition under (fs ns : list (list Z)) : bool :=
  bool_decide (take (length fs) ns = fs) && match drop (length fs) ns with l :: _ => bool_decide (l ≠ []) | [] => false end.
Lemma level_match_under : ∀ fs ns, Forall plain fs → level_match (fs ++ [[35]]) ns = under fs ns.
Proof.
  induction fs as [|f fs IH]; intros [|n ns] Hfs; try done. apply Forall_cons in Hfs as [Hf Hfs]. cbn [level_match app].
  destruct (plain_wild f Hf) as [H1 H2]. rewrite !bool_decide_eq_false_2 by done. rewrite IH by done. unfold under. cbn [length take drop].
  repeat case_bool_decide; cbn; try done; congruence.
Qed.
Lemma filter_plain ns fs : ns ≠ [] → Forall level ns → fs ≠ [] → Forall plain fs → filter_for ns fs = bool_decide (ns = fs).
Proof.
  intros Hne Hns Hfs Hplain. unfold filter_for. rewrite level_match_plain by done. case_bool_decide as Hj; [|done].
  apply join_inj in Hj; [|done..|by eapply Forall_impl, plain_level]. by rewrite bool_decide_eq_true_2.
Qed.
Lemma filter_under ns fs : ns ≠ [] → Forall level ns → Forall plain fs → filter_for ns (fs ++ [[35]]) = under fs ns.
Proof.
  intros Hne Hns Hplain. unfold filter_for. rewrite level_match_under by done. case_bool_decide as Hj; [|done].
  apply join_inj in Hj as ->; [|done|by destruct fs|done|].
  - unfold under. by rewrite take_app_length, drop_app_length, !bool_decide_eq_true_2.
  - apply Forall_app. split; [by eapply Forall_impl, plain_level|by repeat constructor].
Qed.

(** ** Delivery *)

Lemma bind_event {B} e (k : unit → MR (sys W E handler) B) s w : happens e (appl s) = Some (Some tt, w) → bind_r (event e) k s = k tt (set_app w s).
Proof. intros He. apply bind_r_run. unfold event, zoom. by rewrite He. Qed.
Lemma happen_cons e es w w' : happen (e :: es) w = Some (Some tt, w') → ∃ w1, happens e w = Some (Some tt, w1) ∧ happen es w1 = Some (Some tt, w').
Proof.
  cbn [happen]. intros (o & w1 & Hr & Hr')%bind_Some_inv. destruct o as [[]|]; [|done]. by exists w1.
Qed.
Lemma deliver_loop_run msg ns behind : p_topicName msg = mkString None (mkLenString (zlen (join ns)) (Some (join ns ++ behind))) →
  ns ≠ [] → Forall level ns → ∀ xs i rc s w hs, messageHandlers (client s) = hs → Forall2 holds xs (drop i hs) →
  happen ((λ h, on_message h msg) <$> recipients ns xs) (appl s) = Some (Some tt, w) →
  deliver_loop (length xs) (Z.of_nat i) msg rc s = Some (Some (if bool_decide (recipients ns xs = []) then rc else SUCCESS), set_app w s).
Proof.
  intros Hname Hns Hlev. induction xs as [|x xs IH]; intros i rc s w hs Hhs Hxs Hw.
  - cbn [happen recipients omap list_omap fmap list_fmap] in Hw. injection Hw as <-. by destruct s.
  - destruct (drop i hs) as [|m hs'] eqn:Hdrop; [by inversion Hxs|]. apply Forall2_cons in Hxs as [[Hh Hf] Hxs].
    assert (Hi : hs !! i = Some m) by (rewrite <- (Nat.add_0_r i), <- lookup_drop, Hdrop; done).
    assert (Hrest : drop (Datatypes.S i) hs = hs') by (rewrite <- (Nat.add_1_r i), <- drop_drop, Hdrop; done).
    rewrite <- Hrest in Hxs.
    cbn [length deliver_loop]. rewrite bind_read_client, Hhs. rewrite (bind_access (rd hs (Z.of_nat i)) m) by (rewrite rd_lookup; done).
    destruct m as [mf mh], x as [xf xh]. cbn [fst snd] in Hh, Hf. subst mh.
    assert (Hfound : match mf with Some f => is_for f (p_topicName msg) | None => Some false end =
      Some (match xf with Some fs => filter_for ns fs | None => false end)).
    { destruct xf as [fs|], mf as [f|]; try done. destruct Hf as (Hfs & Hok & after & ->). rewrite Hname. by apply is_for_run. }
    cbv beta iota. rewrite (bind_access _ _ _ _ Hfound). replace (Z.of_nat i + 1) with (Z.of_nat (Datatypes.S i)) by lia.
    unfold recipients in Hw |- *. cbn [omap list_omap] in Hw |- *. fold (recipients ns xs) in Hw |- *. unfold recipient in Hw |- *.
    destruct xh as [h|], xf as [fs|]; try destruct (filter_for ns fs); try by eapply IH.
    cbn [fmap list_fmap] in Hw. fold (fmap (M := list) (λ h, on_message h msg)) in Hw.
    apply happen_cons in Hw as (w1 & He & Hw). unfold bind_r at 1.
    rewrite (bind_run _ _ _ _ _ (bind_event _ (λ _, give SUCCESS) s w1 He)). change (deliver_loop (length xs) (Z.of_nat (Datatypes.S i)) msg SUCCESS (set_app w1 s) = Some (Some SUCCESS, set_app w s)).
    erewrite IH; [|exact Hhs|exact Hxs|exact Hw]. by case_bool_decide.
Qed.
(** All those that get it: the default handler only when there is no other. *)
Definition audience (ns : list (list Z)) (xs : list slot) (default : option handler) : list handler :=
  match recipients ns xs with [] => option_list default | hs => hs end.
Lemma deliverMessage_run msg ns behind xs s w : p_topicName msg = mkString None (mkLenString (zlen (join ns)) (Some (join ns ++ behind))) →
  ns ≠ [] → Forall level ns → Forall2 holds xs (messageHandlers (client s)) → length xs = MAX_MESSAGE_HANDLERS →
  happen ((λ h, on_message h msg) <$> audience ns xs (defaultMessageHandler (client s))) (appl s) = Some (Some tt, w) →
  ∃ rc, deliverMessage msg s = Some (Some rc, set_app w s).
Proof.
  intros Hname Hns Hlev Hxs Hlen Hw. unfold deliverMessage. rewrite <- Hlen. unfold audience in Hw.
  pose proof (λ w, deliver_loop_run msg ns behind Hname Hns Hlev xs 0 FAILURE s w _ eq_refl Hxs) as Hloop. change (Z.of_nat 0) with 0 in Hloop.
  destruct (recipients ns xs) as [|h hs] eqn:Er.
  - rewrite (bind_r_run _ _ _ _ _ (Hloop (appl s) eq_refl)). rewrite bind_read_client. cbn [client set_app].
    replace (set_app (appl s) s) with s by (by destruct s).
    destruct (defaultMessageHandler (client s)) as [h|]; cbn [option_list] in Hw.
    + apply happen_cons in Hw as (w1 & He & [= <-]). rewrite Z.eqb_refl. rewrite (bind_event _ _ _ _ He). by eexists.
    + injection Hw as <-. eexists. by destruct s.
  - rewrite (bind_r_run _ _ _ _ _ (Hloop w Hw)). rewrite bind_read_client. cbn [client set_app].
    cbn [Z.eqb SUCCESS FAILURE]. destruct (defaultMessageHandler (client s)); by eexists.
Qed.

(** ** A message that comes in *)

Record incoming := mkIncoming {
  i_dup : Z; i_qos : Z; i_retained : Z; i_packetid : Z; i_levels : list (list Z); i_payload : list Z }.
Definition i_header (m : incoming) : Z := header_byte PUBLISH (i_dup m) (i_qos m) (i_retained m).
Definition i_body (m : incoming) : list Z := publish_body (i_qos m) (i_packetid m) (join (i_levels m)) (i_payload m).
Definition i_packet (m : incoming) : list Z := packet (i_header m) (i_body m).
(** What a handler gets: the topic and the payload lie in [readbuf], with what
    the buffer had before behind them. *)
Definition i_message (m : incoming) (s : sys W E handler) : publish_data :=
  let behind := drop (length (i_packet m)) (readbuf (client s)) in
  let id := if 0 <? i_qos m then int2 (i_packetid m) else [] in
  mkPublish (i_dup m) (i_qos m) (i_retained m) (if 0 <? i_qos m then i_packetid m else p_packetid (stack s))
    (mkString None (mkLenString (zlen (join (i_levels m))) (Some (join (i_levels m) ++ id ++ i_payload m ++ behind))))
    (i_payload m ++ behind) (zlen (i_payload m)).
Record well_formed (m : incoming) : Prop := {
  wf_dup : 0 <= i_dup m < 2;
  wf_qos : 0 <= i_qos m <= 2;
  wf_retained : 0 <= i_retained m < 2;
  wf_packetid : in_u16 (i_packetid m);
  wf_topic : i_levels m ≠ [];
  wf_levels : Forall level (i_levels m) }.

(** The socket brings the packet before [d] ticks are over and takes its answer;
    the buffers have room; no ping is due by then. *)
Record comes_in (m : incoming) (cs acks rest : list (sockcall E)) (d : Z) (s : sys W E handler) : Prop := {
  ci_arrives : packet_arrives (i_header m) (i_body m) cs;
  ci_answer : answer_leaves (i_qos m) acks;
  ci_script : script s = cs ++ acks ++ rest;
  ci_time : elapsed cs < d ∧ 10 * d < 2 ^ 31;
  ci_readbuf : zlen (i_packet m) <= readbuf_size (client s) <= zlen (readbuf (client s));
  ci_size : readbuf_size (client s) < 2 ^ 28;
  ci_buf : 4 <= buf_size (client s) <= zlen (buf (client s));
  ci_keep : in_u16 (keep_alive (client s));
  ci_received : elapsed acks < 100 * keep_alive (client s) ∨ keep_alive (client s) = 0;
  ci_sent : i_qos m = QOS0 → fst (TimerIsExpired (now s + elapsed cs + elapsed acks) (last_sent (client s))) = false }.

Lemma keepalive_quiet s : keep_alive (client s) = 0 ∨
    fst (TimerIsExpired (now s) (last_sent (client s))) = false ∧ fst (TimerIsExpired (now s) (last_received (client s))) = false →
  ∃ c, keepalive s = Some (Some SUCCESS, set_client c s).
Proof.
  intros Hor. unfold keepalive. rewrite bind_read_client. destruct (Z.eqb_spec (keep_alive (client s)) 0); [exists (client s); by destruct s|].
  destruct Hor as [|[H1 H2]]; [done|]. destruct (TimerIsExpired (now s) (last_sent (client s))) as [e1 t1] eqn:E1. cbn [fst] in H1. subst e1.
  destruct (TimerIsExpired (now s) (last_received (client s))) as [e2 t2] eqn:E2. cbn [fst] in H2. subst e2.
  rewrite bind_read_client, bind_timer_expired. change (Datatypes.id (client s)) with (client s). rewrite E1. cbv beta iota. rewrite bind_put_client.
  set (s1 := set_client _ s).
  assert (Hdue : (let? (expired_received, t) := timer_expired (last_received (client s)) in
     put_client (set_last_received t) ;? give expired_received) s1 = Some (Some false, set_client (set_last_received t2 (client s1)) s1)).
  { rewrite bind_timer_expired. change (now s1) with (now s). by rewrite E2. }
  rewrite (bind_r_run _ _ _ _ _ Hdue). by eexists.
Qed.
Lemma countdown_running n k n' : in_u16 k → n <= n' → n' - n < 100 * k → fst (TimerIsExpired n' (TimerCountdown n k)) = false.
Proof.
  unfold in_u16. intros Hk Hn Hd. unfold TimerCountdown. rewrite u32_id by (unfold in_u32; lia). rewrite countdown_armed.
  replace (k * 1000 / 10) with (100 * k) by dlia. by rewrite running by lia.
Qed.
Lemma dispatch_publish m n d acks rest s xs w b : well_formed m → answer_leaves (i_qos m) acks → script s = acks ++ rest →
  readbuf (client s) = i_packet m ++ b → zlen (i_body m) < 2 ^ 28 → 4 <= buf_size (client s) <= zlen (buf (client s)) →
  n <= now s → now s - n < d → 10 * d < 2 ^ 31 → Forall2 holds xs (messageHandlers (client s)) → length xs = MAX_MESSAGE_HANDLERS →
  let id := if 0 <? i_qos m then int2 (i_packetid m) else [] in
  let msg := mkPublish (i_dup m) (i_qos m) (i_retained m) (if 0 <? i_qos m then i_packetid m else p_packetid (stack s))
    (mkString None (mkLenString (zlen (join (i_levels m))) (Some (join (i_levels m) ++ id ++ i_payload m ++ b)))) (i_payload m ++ b) (zlen (i_payload m)) in
  happen ((λ h, on_message h msg) <$> audience (i_levels m) xs (defaultMessageHandler (client s))) (appl s) = Some (Some tt, w) →
  ∃ t, dispatch PUBLISH (armed n d) s = Some (Some (SUCCESS, false, t),
    set_client (answered (i_qos m) (i_packetid m) (now s + elapsed acks) (client s))
      (sends (answer (i_qos m) (i_packetid m)) (later (now s + elapsed acks) rest (set_app w s)))).
Proof.
  intros [Hd0 Hq Hr Hp Htopic Hlev] Hacks Hs Hb Hbody Hbuf Hn Hd Hd' Hxs Hlen id msg Hw. unfold dispatch. cbn [Z.eqb orb PUBLISH CONNACK PUBACK SUBACK UNSUBACK PUBCOMP Pos.eqb].
  rewrite bind_read_client, bind_r_read. rewrite Hb.
  pose proof (publish_reads (i_dup m) (i_qos m) (i_retained m) (i_packetid m) (join (i_levels m)) (i_payload m)
    (mkPublish (p_dup (stack s)) (p_qos (stack s)) (p_retained (stack s)) (p_packetid (stack s)) (p_topicName (stack s)) (p_payload (stack s)) 0) b
    Hd0 ltac:(lia) Hr Hbody) as Hread. fold (i_body m) (i_header m) in Hread. fold (i_packet m) id in Hread. cbn [p_packetid] in Hread. fold msg in Hread.
  rewrite (bind_access _ _ _ _ Hread). cbv beta iota. cbn [negb Z.eqb Pos.eqb].
  destruct (deliverMessage_run msg (i_levels m) (id ++ i_payload m ++ b) xs s w eq_refl Htopic Hlev Hxs Hlen Hw) as [rc Hdel].
  rewrite (bind_r_run _ _ _ _ _ Hdel). unfold msg at 1 2. cbn [p_qos p_packetid].
  assert (Hid : (if i_qos m =? QOS0 then 0 else if 0 <? i_qos m then i_packetid m else p_packetid (stack s)) = if i_qos m =? QOS0 then 0 else i_packetid m).
  { unfold QOS0. destruct (Z.eqb_spec (i_qos m) 0); [done|]. by rewrite (proj2 (Z.ltb_lt 0 (i_qos m))) by lia. }
  assert (Hack : acknowledge (i_qos m) (if 0 <? i_qos m then i_packetid m else p_packetid (stack s)) (armed n d) = acknowledge (i_qos m) (i_packetid m) (armed n d)).
  { unfold acknowledge. unfold QOS0 in *. destruct (Z.eqb_spec (i_qos m) 0); [done|]. by rewrite Hid. }
  rewrite Hack. destruct (acknowledge_run (i_qos m) (i_packetid m) n d acks rest (set_app w s) Hq Hp Hacks Hs Hbuf Hn Hd Hd') as [t Ht].
  rewrite (bind_r_run _ _ _ _ _ Ht). by exists t.
Qed.

Lemma cycle_delivers m cs acks rest d s xs w : well_formed m → comes_in m cs acks rest d s →
  Forall2 holds xs (messageHandlers (client s)) → length xs = MAX_MESSAGE_HANDLERS →
  happen ((λ h, on_message h (i_message m s)) <$> audience (i_levels m) xs (defaultMessageHandler (client s))) (appl s) = Some (Some tt, w) →
  ∃ t s', cycle (armed (now s) d) s = Some (Some (PUBLISH, t), s') ∧ appl s' = w ∧ sent s' = sent s ++ answer (i_qos m) (i_packetid m) ∧
    script s' = rest ∧ now s' = now s + elapsed cs + elapsed acks ∧ out_of_fuel s' = out_of_fuel s.
Proof.
  intros Hm [Hcs Hacks Hs [Hd Hd'] Hrb Hsize Hbuf Hkeep Hrec Hsent] Hxs Hlen Hw.
  pose proof (elapsed_nonneg cs) as Hcs0. pose proof (elapsed_nonneg acks) as Hacks0.
  assert (Hbody : zlen (i_body m) < 2 ^ 28).
  { unfold i_packet in Hrb. rewrite packet_length in Hrb. pose proof (zlen_nonneg (varint 5 (zlen (i_body m)))). lia. }
  destruct (readPacket_run d _ _ cs (acks ++ rest) s Hcs Hs Hrb ltac:(lia) Hbody Hd Hd') as (n & Hn & Hread).
  fold (i_packet m) in Hread. set (b := drop _ _) in Hread. set (s1 := set_client _ _) in Hread.
  unfold cycle. rewrite (bind_r_run _ _ _ _ _ Hread). cbv beta iota.
  destruct (header_fields PUBLISH (i_dup m) (i_qos m) (i_retained m) ltac:(done) ltac:(apply Hm) ltac:(pose proof (wf_qos _ Hm); lia) ltac:(apply Hm)) as (Etype & _).
  fold (i_header m) in Etype. rewrite Etype.
  assert (Hcl : messageHandlers (client s1) = messageHandlers (client s) ∧ defaultMessageHandler (client s1) = defaultMessageHandler (client s) ∧
    buf_size (client s1) = buf_size (client s) ∧ buf (client s1) = buf (client s) ∧ keep_alive (client s1) = keep_alive (client s) ∧
    last_sent (client s1) = last_sent (client s) ∧ readbuf (client s1) = i_packet m ++ b ∧
    (0 < keep_alive (client s) → last_received (client s1) = TimerCountdown (now s + elapsed cs) (keep_alive (client s)))).
  { subst s1. unfold received. cbn [client set_client]. cbn [keep_alive set_readbuf]. destruct (Z.ltb_spec 0 (keep_alive (client s))); (repeat split; try done; lia). }
  destruct Hcl as (E1 & E2 & E3 & E4 & E5 & E6 & E7 & E8).
  destruct (dispatch_publish m n (now s + d - n) acks rest s1 xs w b) as [t Hdis]; try done; try (rewrite ?E1, ?E3, ?E4; done); try (cbn; lia);
    [by rewrite E2|].
  rewrite (bind_r_run _ _ _ _ _ Hdis). cbv beta iota. set (s2 := set_client _ _) in Hdis |- *.
  assert (E2k : keep_alive (client s2) = keep_alive (client s) ∧ last_received (client s2) = last_received (client s1) ∧
    last_sent (client s2) = if i_qos m =? QOS0 then last_sent (client s) else TimerCountdown (now s2) (keep_alive (client s))).
  { subst s2. unfold answered. cbn [client set_client now sends set_sent later set_now]. rewrite <- E6, <- E5. by destruct (i_qos m =? QOS0). }
  destruct E2k as (Ek & Er & El).
  assert (Hnow : now s2 = now s + elapsed cs + elapsed acks) by done.
  destruct (keepalive_quiet s2) as [c Hka].
  { rewrite Ek, Er, El, Hnow. destruct Hrec as [Hrec|]; [right|by left]. split.
    - destruct (Z.eqb_spec (i_qos m) QOS0) as [Hq|]; [by apply Hsent|]. apply countdown_running; [done|lia..].
    - rewrite E8 by lia. apply countdown_running; [done|lia..]. }
  unfold bind_r at 1. unfold bind at 1.
  assert (Hrc : (let? k := keepalive in give (if k =? SUCCESS then SUCCESS else FAILURE)) s2 = Some (Some SUCCESS, set_client c s2)).
  { by rewrite (bind_r_run _ _ _ _ _ Hka). }
  rewrite Hrc. cbv beta iota. rewrite Z.eqb_refl. by eexists t, _.
Qed.

(** C3: A message that comes in is delivered and answered. When the socket
    brings a PUBLISH packet, in reads of the lengths [readPacket] asks for and
    before the timer is over, one [cycle] calls exactly the handlers whose
    filter is for the topic, in the order of their slots - the default handler
    when there are none - each with the topic, payload and flags that were
    published; then it sends the PUBACK, or PUBREC, with the identifier of the
    packet (nothing for QoS 0), reports PUBLISH, and takes no more from the
    socket than the packet. *)
Theorem publish_delivered m cs acks rest d s xs w : well_formed m → comes_in m cs acks rest d s →
  Forall2 holds xs (messageHandlers (client s)) → length xs = MAX_MESSAGE_HANDLERS →
  happen ((λ h, on_message h (i_message m s)) <$> audience (i_levels m) xs (defaultMessageHandler (client s))) (appl s) = Some (Some tt, w) →
  ∃ t s', cycle (armed (now s) d) s = Some (Some (PUBLISH, t), s') ∧ appl s' = w ∧ sent s' = sent s ++ answer (i_qos m) (i_packetid m) ∧
    script s' = rest ∧ now s' = now s + elapsed cs + elapsed acks ∧ out_of_fuel s' = out_of_fuel s.
Proof. apply cycle_delivers. Qed.

End MqttClient.

(** ** Properties at work

    An application that notes what its handlers, which are numbers, are told. *)
Inductive demo_event := Told (h : nat) (m : publish_data) | Session_lost.
#[global] Instance demo_app : App (list (nat * list Z) * bool) demo_event nat := {|
  happens e := returning (modify (λ w, match e with
    | Told h m => (w.1 ++ [(h, take (Z.to_nat (p_payloadlen m)) (p_payload m))], w.2)
    | Session_lost => (w.1, false)
    end));
  on_message := Told;
  connected w := w.2;
  set_connected b w := (w.1, b) |}.
#[global] Instance demo_laws : AppLaws (W := list (nat * list Z) * bool) := {| closed := Session_lost; closed_happens _ := eq_refl |}.

(** Three filters; the keep-alive is 60 s. *)
Definition demo_slots : list (slot (handler := nat)) :=
  [(Some [bytes "a"; bytes "+"], Some 1%nat); (None, None); (Some [bytes "a"; bytes "b"], Some 2%nat); (Some [bytes "c"], Some 3%nat); (None, None)].
Definition demo_client : MQTTClient nat :=
  mkClient 1 2000 100 100 (replicate 100 0) (replicate 100 0) 60 0 1
    ((λ x : slot, ((λ fs, join fs ++ [0]) <$> x.1, x.2)) <$> demo_slots) None
    (armed 0 0) (armed 0 0) TimerInit false 1.
Definition demo_sys (cs : list (sockcall demo_event)) : sys (list (nat * list Z) * bool) demo_event nat :=
  mkSys demo_client 1000 cs [] false (mkPublish 0 0 0 0 MQTTString_initializer [] 0) ([], true).
Definition demo_incoming : incoming := mkIncoming 0 QOS1 0 7 [bytes "a"; bytes "b"] (bytes "on").
(** The three reads of the packet, and the write of the answer. *)
Definition demo_reads : list (sockcall demo_event) :=
  flat_map (λ bs, [mkCall 1 [] 1 []; mkCall 0 bs 0 []]) [[i_header demo_incoming]; [zlen (i_body demo_incoming)]; i_body demo_incoming].
Definition demo_writes : list (sockcall demo_event) := [mkCall 1 [] 1 []; mkCall 4 [] 0 []].

Ltac demo_filter := repeat first [exact I | left; repeat constructor; done | right; left; done | right; right; done | split].
Lemma publish_delivered_witness : ∃ t s', cycle (armed 1000 50) (demo_sys (demo_reads ++ demo_writes)) = Some (Some (PUBLISH, t), s') ∧
  appl s' = ([(1%nat, bytes "on"); (2%nat, bytes "on")], true) ∧ sent s' = [64; 2; 0; 7] ∧ script s' = [].
Proof.
  destruct (publish_delivered demo_incoming demo_reads demo_writes [] 50 (demo_sys (demo_reads ++ demo_writes)) demo_slots
    ([(1%nat, bytes "on"); (2%nat, bytes "on")], true)) as (t & s' & Hr & Hw & Hsent & Hscript & _ & _).
  - constructor; try done. repeat constructor; done.
  - constructor; try done.
    exists (take 2 demo_reads), (take 2 (drop 2 demo_reads)), (drop 4 demo_reads). split; [done|]. split; [|split].
    + by exists 1, 0, 1%nat, 0%nat.
    + exists (take 2 (drop 2 demo_reads)), []. split; [done|]. split; [by exists 1, 0, 1%nat, 0%nat|done].
    + by exists 1, 0, 1%nat, 0%nat.
    + by exists 1, [], 1%nat, 4, [], 0%nat.
    + by left.
  - repeat (apply Forall2_cons; split; [split; [done|]; first [exact I | split; [done|]; split; [demo_filter|by exists []]]|]). by apply Forall2_nil.
  - done.
  - vm_compute. reflexivity.
  - exists t, s'. auto.
Defined.

Lemma topic_matches_witness : isTopicMatched (bytes "a/+/#" ++ [0]) (mkString None (mkLenString 7 (Some (bytes "a/b/c/d")))) = Some true.
Proof.
  apply (topic_matches (bytes "a") [bytes "+"; bytes "#"] (bytes "a") [bytes "b"; bytes "c"; bytes "d"] [] []); [demo_filter|repeat constructor; done].
Defined.

(** A server that offers data and never gives any: a yield of 200 milliseconds
    leaves most of the answers unread. *)
Definition demo_stall : sys (list (nat * list Z) * bool) demo_event nat := demo_sys (mkCall 1 [] 1 [] :: repeat (mkCall 0 [] 1 []) 300).
Lemma calls_end_witness : ∃ r s', perform (Yield 200) demo_stall = Some (r, s') ∧
  out_of_fuel s' = false ∧ 1000 <= now s' <= 1196 ∧ (100 < length (script s'))%nat.
Proof.
  assert (Hrun : match perform (Yield 200) demo_stall with Some (_, s') => (100 <? length (script s'))%nat | None => false end = true) by (vm_compute; reflexivity).
  destruct (perform (Yield 200) demo_stall) as [[r s']|] eqn:Er; [|discriminate]. exists r, s'. split; [reflexivity|].
  destruct (calls_end (Yield 200) 1 demo_stall r s') as [Hf Hn]; [cbn; lia|cbn; lia|lia| |reflexivity|exact Er|].
  - apply (bool_decide_unpack _). vm_compute. exact I.
  - split; [exact Hf|]. split; [exact Hn|]. apply Nat.ltb_lt, Hrun.
Defined.

End MqttClient.
