(* ===== verification/MqttExchange.v ===== *)
(** What the calls of [MqttClient.v] do on a network that works: the socket
    takes the request and brings its acknowledgement before the timer is over. *)
From S2P Require Import Prelude Cjson Misc MqttPacket MqttClient.

Module MqttExchange.
Import Cjson Cstring MqttPacket MqttClient.

Section Exchange.
Context {W E handler : Type} `{App W E handler}.
Implicit Types (s : sys W E handler) (c : MQTTClient handler) (cs rest : list (sockcall E)).

(** A client with the buffers, the timeout and the keep-alive interval of the
    application: whether its mutex is taken, the last packet identifier and the
    slots of its handlers. *)
Record configured (taken : bool) (id : Z) (hs : list (option (list Z) * option handler)) c : Prop := {
  cf_mutex : mutex c = taken;
  cf_id : next_packetid c = id;
  cf_slots : messageHandlers c = hs;
  cf_default : defaultMessageHandler c = None;
  cf_timeout : command_timeout_ms c = 5000;
  cf_keep : keep_alive c = 60;
  cf_buf_size : buf_size c = 1000;
  cf_readbuf_size : readbuf_size c = 1000;
  cf_buf : zlen (buf c) = 1000;
  cf_readbuf : zlen (readbuf c) = 1000 }.

(** The step from [s] to [s'] sends [bs], uses the answers [cs] of the socket and
    leaves [rest], and does nothing to the application. *)
Record sending (bs : list Z) cs rest s s' : Prop := {
  sg_appl : appl s' = appl s;
  sg_sent : sent s' = sent s ++ bs;
  sg_script : script s' = rest;
  sg_now : now s' = now s + elapsed cs }.

(** The socket takes a request of [len] bytes and brings the packet that answers
    it, within the five seconds of a command. *)
Definition serves (len h : Z) (body : list Z) cs : Prop :=
  ∃ out inn, cs = out ++ inn ∧ leaves len out ∧ packet_arrives h body inn ∧ elapsed cs < 500.
(** The packets that are waited for. *)
Definition reply (type : Z) : Prop := type = CONNACK ∨ type = SUBACK ∨ type = PUBACK.

(** A [keepalive] with nothing due only checks its timers. *)
Lemma keepalive_still s n n' : keep_alive (client s) = 60 → last_sent (client s) = TimerCountdown n 60 → last_received (client s) = TimerCountdown n' 60 →
  n <= now s < n + 6000 → n' <= now s < n' + 6000 →
  ∃ t t', keepalive s = Some (Some SUCCESS, set_client (set_last_received t' (set_last_sent t (client s))) s).
Proof.
  intros Hk Hs Hr Hn Hn'. unfold keepalive. rewrite bind_read_client, Hk. cbn [Z.eqb]. rewrite bind_read_client, bind_timer_expired.
  pose proof (countdown_running n 60 (now s) ltac:(done) ltac:(lia) ltac:(lia)) as E1.
  pose proof (countdown_running n' 60 (now s) ltac:(done) ltac:(lia) ltac:(lia)) as E2.
  change (Datatypes.id (client s)) with (client s). rewrite Hs, Hr. destruct (TimerIsExpired (now s) (TimerCountdown n 60)) as [e1 t1], (TimerIsExpired (now s) (TimerCountdown n' 60)) as [e2 t2] eqn:Et2.
  cbn [fst] in E1, E2. subst e1 e2. cbv beta iota. rewrite bind_put_client. set (s1 := set_client _ s).
  assert (Hdue : (let? (expired_received, t) := timer_expired (TimerCountdown n' 60) in put_client (set_last_received t) ;? give expired_received) s1 =
    Some (Some false, set_client (set_last_received t2 (client s1)) s1)).
  { rewrite bind_timer_expired. change (now s1) with (now s). by rewrite Et2. }
  rewrite (bind_r_run _ _ _ _ _ Hdue). by exists t1, t2.
Qed.

(** One [cycle] that takes the packet waited for. *)
Lemma cycle_reply h body d cs rest s taken id hs n : reply (header_type h) → zlen body < 100 → packet_arrives h body cs → script s = cs ++ rest →
  configured taken id hs (client s) → elapsed cs < d → d <= 500 →
  last_sent (client s) = TimerCountdown n 60 → n <= now s → now s + elapsed cs < n + 6000 →
  ∃ t s' behind, cycle (armed (now s) d) s = Some (Some (header_type h, t), s') ∧ configured taken id hs (client s') ∧
    readbuf (client s') = packet h body ++ behind ∧ sending [] cs rest s s'.
Proof.
  intros Htype Hbody Hcs Hs Hc Hd Hd5 Hsent Hn Hn'. pose proof (elapsed_nonneg cs) as Hcs0. pose proof (zlen_nonneg body) as Hb0.
  assert (Hlen : zlen (packet h body) = 2 + zlen body) by (rewrite packet_length, varint_last by lia; change (zlen [_]) with 1; lia).
  destruct (readPacket_run d h body cs rest s Hcs Hs) as (m & Hm & Hread); [rewrite (cf_readbuf_size _ _ _ _ Hc), (cf_readbuf _ _ _ _ Hc); lia|
    rewrite (cf_readbuf_size _ _ _ _ Hc); lia|lia..|].
  unfold cycle. rewrite (bind_r_run _ _ _ _ _ Hread). cbv beta iota. set (b := packet h body ++ _) in *. set (s1 := set_client _ _) in *.
  assert (Hdis : ∀ t, dispatch (header_type h) t s1 = Some (Some (SUCCESS, false, t), s1)) by (intros t; by destruct Htype as [-> |[-> | ->]]).
  rewrite (bind_r_run _ _ _ _ _ (Hdis _)). cbv beta iota.
  assert (Hkeep : (0 <? keep_alive (client s)) = true) by (by rewrite (cf_keep _ _ _ _ Hc)).
  assert (Es1 : client s1 = set_last_received (TimerCountdown (now s + elapsed cs) (keep_alive (client s))) (set_readbuf b (client s))).
  { unfold s1, received. cbn [client set_client]. cbn [keep_alive set_readbuf]. by rewrite Hkeep. }
  destruct (keepalive_still s1 n (now s + elapsed cs)) as (t1 & t2 & Hka); try (rewrite Es1; cbn [keep_alive last_sent last_received set_last_received set_readbuf]);
    [apply Hc|done|by rewrite (cf_keep _ _ _ _ Hc)|cbn; lia..|].
  assert (Hrc : (let? k := keepalive in give (if k =? SUCCESS then SUCCESS else FAILURE)) s1 = Some (Some SUCCESS, set_client (set_last_received t2 (set_last_sent t1 (client s1))) s1)).
  { by rewrite (bind_r_run _ _ _ _ _ Hka). }
  rewrite (bind_r_run _ _ _ _ _ Hrc). rewrite Z.eqb_refl. rewrite Es1. eexists _, _, _. split; [reflexivity|]. split; [|split; [reflexivity|]].
  - assert (Hb : zlen b = 1000).
    { pose proof (cf_readbuf _ _ _ _ Hc) as Hl. unfold b. rewrite zlen_app. unfold zlen in *. rewrite length_drop. lia. }
    destruct Hc. by constructor.
  - constructor; try done. cbn. by rewrite app_nil_r.
Qed.

(** The request is in [buf]: it goes out and its answer comes. *)
Lemma exchange_run len h body cs rest s taken id hs : reply (header_type h) → zlen body < 100 → 0 < len <= 1000 → serves len h body cs → script s = cs ++ rest →
  configured taken id hs (client s) →
  ∃ t s1 s2 behind, sendPacket len (armed (now s) 500) s = Some (Some (SUCCESS, t), s1) ∧
    waitfor (header_type h) t s1 = Some (Some (header_type h), s2) ∧ configured taken id hs (client s2) ∧
    readbuf (client s2) = packet h body ++ behind ∧ sending (take (Z.to_nat len) (buf (client s))) cs rest s s2.
Proof.
  intros Htype Hbody Hlen (out & inn & -> & Hout & Hinn & Hel) Hs Hc. rewrite <- app_assoc in Hs. rewrite elapsed_app in Hel.
  pose proof (elapsed_nonneg out). pose proof (elapsed_nonneg inn).
  pose proof (sendPacket_run len (now s) 500 out (inn ++ rest) s Hout Hs ltac:(rewrite (cf_buf _ _ _ _ Hc); lia) ltac:(lia) ltac:(lia) ltac:(lia)) as Hsend.
  set (s1 := set_client _ _) in Hsend. replace (now s + 500 - now s) with 500 in Hsend by lia.
  assert (Hc1 : configured taken id hs (client s1)) by (destruct Hc; by constructor).
  assert (Hnow : now s1 = now s + elapsed out) by done.
  destruct (cycle_reply h body (now s + 500 - now s1) inn rest s1 taken id hs (now s1)) as (t & s2 & behind & Hcy & Hc2 & Hb2 & Hs2); try done; try lia.
  { unfold s1, was_sent. cbn [client set_client last_sent set_last_sent now]. by rewrite (cf_keep _ _ _ _ Hc). }
  eexists _, _, s2, behind. split; [exact Hsend|]. split; [|split; [done|split; [done|]]].
  - unfold waitfor. rewrite bind_r_read. unfold rounds_left. set (fuel := Datatypes.S (length (script s1))). cbn [waitfor_loop].
    assert (Hloop : ∀ k, (let? (expired, t) := timer_expired (armed (now s) 500) in
        if expired then give (FAILURE, t) else
        let? (rc, t) := cycle t in
        if negb (rc =? header_type h) && (0 <=? rc) then waitfor_loop k (header_type h) rc t else give (rc, t)) s1 = Some (Some (header_type h, t), s2)).
    { intros k. rewrite bind_timer_expired. rewrite running by (rewrite ?Hnow; lia).
      rewrite (bind_r_run _ _ _ _ _ Hcy). by rewrite Z.eqb_refl. }
    by rewrite (bind_r_run _ _ _ _ _ (Hloop _)).
  - destruct Hs2 as [Ha Hse Hsc Hno]. constructor; [by rewrite Ha|rewrite Hse, app_nil_r; done|done|]. rewrite Hno, Hnow, elapsed_app. lia.
Qed.

(** ** Requests on a session *)

Definition locked (b : bool) s : sys W E handler := set_client (set_mutex b (client s)) s.
Lemma configured_locked b taken id hs s : configured taken id hs (client s) → configured b id hs (client (locked b s)).
Proof. intros []. by constructor. Qed.
Lemma with_mutex_free {A} (m : MR (sys W E handler) A) s a s' : mutex (client s) = false → m (locked true s) = Some (Some a, s') →
  with_mutex m s = Some (Some a, locked false s').
Proof. intros Hm Hr. unfold with_mutex. rewrite bind_read_client, Hm, bind_put_client. by rewrite (bind_r_run _ _ _ _ _ Hr). Qed.
Lemma command_succeeds m s s' : mutex (client s) = false → connected (appl s) = true → m (locked true s) = Some (Some SUCCESS, s') →
  command m s = Some (Some SUCCESS, locked false s').
Proof.
  intros Hm Hc Hr. apply with_mutex_free; [done|]. rewrite bind_r_read. change (appl (locked true s)) with (appl s). rewrite Hc. cbn [negb].
  by rewrite (bind_r_run _ _ _ _ _ Hr).
Qed.

(** The packet [p] is written to [buf]. *)
Lemma into_buf_fits {B} m (k : Z → MR (sys W E handler) B) s p needed taken id hs : configured taken id hs (client s) →
  (∀ buflen, serializes (m buflen) buflen needed p) → zlen p <= needed → needed <= 1000 →
  ∃ b, zlen (p ++ b) = 1000 ∧ bind_r (into_buf m) k s = k (zlen p) (set_client (set_buf (p ++ b) (client s)) s).
Proof.
  intros Hc Hm Hp Hn. pose proof (cf_buf _ _ _ _ Hc) as Hb. rewrite <- (cf_buf_size _ _ _ _ Hc) in Hn.
  destruct (serializes_fits _ _ _ _ (buf (client s)) (Hm (buf_size (client s))) Hp Hn) as (b & Hr & _ & -> & Hl).
  { rewrite (cf_buf_size _ _ _ _ Hc). lia. }
  exists (drop (length p) (buf (client s))). split; [unfold zlen in *; lia|]. by apply bind_into_buf.
Qed.
Lemma configured_buf b taken id hs s : configured taken id hs (client s) → zlen b = 1000 → configured taken id hs (client (set_client (set_buf b (client s)) s)).
Proof. intros [] Hb. by constructor. Qed.

(** A packet is written, sent and answered, and [k] looks at the answer. *)
Lemma request_run m p needed h body cs rest s taken id hs (k : MR (sys W E handler) Z) (P : sys W E handler → Prop) :
  configured taken id hs (client s) → (∀ buflen, serializes (m buflen) buflen needed p) → 0 < zlen p <= needed → needed <= 1000 →
  reply (header_type h) → zlen body < 100 → serves (zlen p) h body cs → script s = cs ++ rest →
  (∀ s' behind, configured taken id hs (client s') → readbuf (client s') = packet h body ++ behind → sending p cs rest s s' →
    ∃ s2, k s' = Some (Some SUCCESS, s2) ∧ P s2) →
  ∃ s2, (let? len := into_buf m in send_and_wait len (armed (now s) 500) (header_type h) k) s = Some (Some SUCCESS, s2) ∧ P s2.
Proof.
  intros Hc Hm [Hp0 Hp] Hn Htype Hbody Hcs Hs Hk.
  destruct (into_buf_fits m (λ len, send_and_wait len (armed (now s) 500) (header_type h) k) s p needed taken id hs Hc Hm Hp Hn) as (b & Hb & ->).
  set (s1 := set_client _ s). assert (Hc1 : configured taken id hs (client s1)) by by apply configured_buf.
  destruct (exchange_run (zlen p) h body cs rest s1 taken id hs Htype Hbody ltac:(lia) Hcs Hs Hc1) as (t & s2 & s3 & behind & Hsend & Hwait & Hc3 & Hb3 & Hs3).
  unfold send_and_wait. destruct (Z.leb_spec (zlen p) 0); [lia|].
  change (now s1) with (now s) in Hsend. rewrite (bind_r_run _ _ _ _ _ Hsend). cbn [negb Z.eqb SUCCESS].
  rewrite (bind_r_run _ _ _ _ _ Hwait). rewrite Z.eqb_refl. apply (Hk s3 behind Hc3 Hb3).
  destruct Hs3 as [Ha Hse Hsc Hno]. constructor; [done| |done|done]. rewrite Hse. cbn [client set_client buf set_buf s1].
  unfold zlen. by rewrite Nat2Z.id, take_app_length.
Qed.

Lemma timer_of_command {B} (k : Timer → MR (sys W E handler) B) s taken id hs : configured taken id hs (client s) →
  bind_r command_timer k s = k (armed (now s) 500) s.
Proof. intros Hc. unfold command_timer. unfold bind_r at 1. unfold bind at 1. rewrite bind_r_read, bind_read_client, (cf_timeout _ _ _ _ Hc). done. Qed.
Lemma next_id_run {B} (k : Z → MR (sys W E handler) B) s taken id hs : configured taken id hs (client s) → 0 <= id < 65535 →
  bind_r getNextPacketId k s = k (id + 1) (set_client (set_next_packetid (id + 1) (client s)) s).
Proof.
  intros Hc Hid. unfold getNextPacketId. unfold bind_r at 1. unfold bind at 1. rewrite bind_read_client, (cf_id _ _ _ _ Hc). unfold MAX_PACKET_ID.
  destruct (Z.eqb_spec id 65535); [lia|]. by rewrite bind_put_client.
Qed.
Lemma configured_id taken id id' hs s : configured taken id hs (client s) → configured taken id' hs (client (set_client (set_next_packetid id' (client s)) s)).
Proof. intros []. by constructor. Qed.

(** *** [MQTTSubscribe] *)

(** A filter that is in memory and its text. *)
Definition has_filter (t : list Z) (x : option (list Z) * option handler) : Prop := ∃ m, x.1 = Some m ∧ c_string m = Some t.
Lemma find_handler_run test : ∀ (hs' hs : list (option (list Z) * option handler)) i, drop i hs = hs' → Forall (λ x, test x.1 = Some false) hs' →
  find_handler (length hs') (Z.of_nat i) test hs = Some (Z.of_nat (i + length hs')).
Proof.
  induction hs' as [|x hs' IH]; intros hs i Hd Ht; cbn [length find_handler]; [by rewrite Nat.add_0_r|].
  apply Forall_cons in Ht as [Hx Ht]. assert (Hi : hs !! i = Some x) by (rewrite <- (Nat.add_0_r i), <- lookup_drop, Hd; done).
  rewrite rd_lookup, Hi. cbn [mbind option_bind]. rewrite Hx. cbn [mbind option_bind].
  replace (Z.of_nat i + 1) with (Z.of_nat (Datatypes.S i)) by lia. rewrite IH; [f_equal; lia| |done].
  rewrite <- (Nat.add_1_r i), <- drop_drop, Hd. done.
Qed.
Lemma find_handler_at test n : ∀ (hs1 : list (option (list Z) * option handler)) i hs x hs2, drop i hs = hs1 ++ x :: hs2 → Forall (λ x, test x.1 = Some false) hs1 → test x.1 = Some true →
  (length hs1 < n)%nat → find_handler n (Z.of_nat i) test hs = Some (Z.of_nat (i + length hs1)).
Proof.
  induction n as [|n IH]; intros hs1 i hs x hs2 Hd Ht Hx Hn; [lia|]. cbn [find_handler].
  destruct hs1 as [|y hs1]; cbn [app length] in *.
  - assert (Hi : hs !! i = Some x) by (rewrite <- (Nat.add_0_r i), <- lookup_drop, Hd; done). rewrite rd_lookup, Hi. cbn [mbind option_bind].
    rewrite Hx. cbn. by rewrite Nat.add_0_r.
  - assert (Hi : hs !! i = Some y) by (rewrite <- (Nat.add_0_r i), <- lookup_drop, Hd; done). rewrite rd_lookup, Hi. cbn [mbind option_bind].
    apply Forall_cons in Ht as [Hy Ht]. rewrite Hy. cbn [mbind option_bind]. replace (Z.of_nat i + 1) with (Z.of_nat (Datatypes.S i)) by lia.
    rewrite (IH hs1 (Datatypes.S i) hs x hs2); [f_equal; lia| |done|done|lia]. rewrite <- (Nat.add_1_r i), <- drop_drop, Hd. done.
Qed.
(** A new filter gets the first free slot. *)
Lemma set_handler_run topic t f used fp more s : c_string topic = Some t → is_cstr t → messageHandlers (client s) = used ++ (None, fp) :: more →
  length (used ++ (None, fp) :: more) = MAX_MESSAGE_HANDLERS → Forall (λ x, ∃ t', t' ≠ t ∧ has_filter t' x) used → Forall (λ x, x.1 = None) more →
  MQTTSetMessageHandler topic (Some f) s =
    Some (Some SUCCESS, set_client (set_messageHandlers (used ++ (Some topic, Some f) :: more) (client s)) s).
Proof.
  intros Ht Hc Hs Hlen Hused Hmore. unfold MQTTSetMessageHandler. rewrite bind_read_client, Hs.
  assert (Hnone : find_handler MAX_MESSAGE_HANDLERS 0 (λ f, match f with Some f => same_filter f topic | None => Some false end) (used ++ (None, fp) :: more) = Some 5).
  { rewrite <- Hlen. change 0 with (Z.of_nat 0). rewrite (find_handler_run _ (used ++ (None, fp) :: more) _ 0 eq_refl); [by rewrite Hlen|].
    apply Forall_app. split; [|apply Forall_cons; split; [done|]].
    - eapply Forall_impl; [exact Hused|]. intros x (t' & Hne & m & -> & Hm). unfold same_filter. rewrite Ht. cbn [mbind option_bind].
      rewrite (strcmp_eq_string m t' t Hm Hc). by rewrite bool_decide_eq_false_2.
    - eapply Forall_impl; [exact Hmore|]. by intros x ->. }
  rewrite (bind_access _ _ _ _ Hnone). cbv zeta. change (5 <? Z.of_nat MAX_MESSAGE_HANDLERS) with false. cbv iota.
  rewrite length_app in Hlen. cbn [length] in Hlen. unfold MAX_MESSAGE_HANDLERS in Hlen.
  pose proof (find_handler_at (λ f, Some (bool_decide (f = None))) MAX_MESSAGE_HANDLERS used 0 (used ++ (None, fp) :: more) (None, fp) more eq_refl) as Hfree.
  rewrite (bind_access _ (Z.of_nat (length used))).
  2: { change 0 with (Z.of_nat 0). rewrite Hfree; [done| |done|unfold MAX_MESSAGE_HANDLERS; lia].
       eapply Forall_impl; [exact Hused|]. intros x (t' & _ & m & -> & _). done. }
  change (Z.of_nat MAX_MESSAGE_HANDLERS) with 5. destruct (Z.ltb_spec (Z.of_nat (length used)) 5); [|lia].
  assert (Hput : (let? hs := read_client messageHandlers in let? hs := access (wr hs (Z.of_nat (length used)) (Some topic, Some f)) in put_client (set_messageHandlers hs)) s =
    Some (Some tt, set_client (set_messageHandlers (used ++ (Some topic, Some f) :: more) (client s)) s)).
  { rewrite bind_read_client, Hs. rewrite (bind_access _ (used ++ (Some topic, Some f) :: more)); [done|].
    rewrite wr_Some by (rewrite length_app; cbn; lia). rewrite Nat2Z.id. f_equal. rewrite <- (Nat.add_0_r (length used)). by rewrite insert_app_r. }
  by rewrite (bind_r_run _ _ _ _ _ Hput).
Qed.

Lemma packet_len_bound n : 0 <= n < 2 ^ 28 → MQTTPacket_len n <= n + 5.
Proof.
  intros Hn. unfold MQTTPacket_len. cbv zeta. rewrite (s32_small (n + 1)) by lia.
  repeat match goal with |- context [?a <? ?b] => destruct (Z.ltb_spec a b) end; rewrite s32_small by lia; lia.
Qed.
Lemma packet_fits h body : zlen body <= 900 → 0 < zlen (packet h body) <= MQTTPacket_len (zlen body) ∧ MQTTPacket_len (zlen body) <= 1000.
Proof.
  intros Hb. pose proof (zlen_nonneg body). pose proof (packet_room h body ltac:(lia)). pose proof (packet_len_bound (zlen body) ltac:(lia)).
  split; [|lia]. split; [|done]. rewrite packet_length. pose proof (zlen_nonneg (varint 5 (zlen body))). lia.
Qed.

(** Text for a packet of the application: characters, not zero, and not many. *)
Definition small_text (n : Z) (t : list Z) : Prop := is_cstr t ∧ zlen t <= n.
Lemma small_stands n t memory : small_text n t → n < 2 ^ 16 → c_string memory = Some t → short_text (from_cstring memory) t.
Proof.
  intros [Ht Hn] Hn' Hm. split; [|lia]. apply stands_cstring; [done|done|]. eapply Forall_impl; [exact Ht|]. unfold in_u8. lia.
Qed.

Definition subscribe_packet (id : Z) (t : list Z) : list Z := packet (header_byte SUBSCRIBE 0 1 0) (subscribe_body id [(t, 1)]).
Lemma suback_read pid a b q behind : MQTTDeserialize_suback 1 (mkSuback pid 0 [QOS0]) (packet (header_byte SUBACK 0 0 0) [a; b; q] ++ behind) =
  Some (1, mkSuback (256 * a + b) 1 [q]).
Proof. reflexivity. Qed.

(** A subscription that is granted, with whatever QoS and packet identifier, is
    in the first free slot. *)
Lemma subscribe_run topic t f a b q used fp more id cs rest s : connected (appl s) = true → c_string topic = Some t → small_text 200 t → 0 <= id < 65535 → q ≠ SUBFAIL →
  configured false id (used ++ (None, fp) :: more) (client s) → length (used ++ (None, fp) :: more) = MAX_MESSAGE_HANDLERS →
  Forall (λ x, ∃ t', t' ≠ t ∧ has_filter t' x) used → Forall (λ x, x.1 = None) more →
  serves (zlen (subscribe_packet (id + 1) t)) (header_byte SUBACK 0 0 0) [a; b; q] cs → script s = cs ++ rest →
  ∃ s', MQTTSubscribe topic QOS1 (Some f) s = Some (Some SUCCESS, s') ∧
    configured false (id + 1) (used ++ (Some topic, Some f) :: more) (client s') ∧ sending (subscribe_packet (id + 1) t) cs rest s s'.
Proof.
  intros Hup Htopic Ht Hid Hq Hc Hlen Hused Hmore Hcs Hs. set (hs := used ++ (None, fp) :: more) in *.
  pose proof (configured_locked true _ _ _ _ Hc) as Hc1.
  set (s2 := set_client (set_next_packetid (id + 1) (client (locked true s))) (locked true s)).
  assert (Hc2 : configured true (id + 1) hs (client s2)) by by eapply configured_id.
  assert (Hbody : zlen (subscribe_body (id + 1) [(t, 1)]) <= 900).
  { unfold subscribe_body, filter_bytes. cbn [fmap list_fmap concat fst snd]. rewrite !zlen_app, utf_length. destruct Ht as [_ Ht].
    change (zlen (int2 (id + 1))) with 2. change (zlen [1]) with 1. change (zlen (@nil Z)) with 0. lia. }
  destruct (packet_fits (header_byte SUBSCRIBE 0 1 0) _ Hbody) as [Hp Hp'].
  destruct (request_run (λ size, MQTTSerialize_subscribe size 0 (id + 1) 1 [from_cstring topic] [QOS1]) (subscribe_packet (id + 1) t)
    (MQTTPacket_len (zlen (subscribe_body (id + 1) [(t, 1)])))
    (header_byte SUBACK 0 0 0) [a; b; q] cs rest s2 true (id + 1) hs
    (let? b := read_client readbuf in
     let? out := read_sys stack in
     let? (rc, d) := access (MQTTDeserialize_suback 1 (mkSuback (p_packetid out) 0 [QOS0]) b) in
     let? granted := access (rd (s_grantedQoSs d) 0) in
     if (rc =? 1) && negb (granted =? SUBFAIL) then MQTTSetMessageHandler topic (Some f) else give SUCCESS)
    (λ s', configured true (id + 1) (used ++ (Some topic, Some f) :: more) (client s') ∧ sending (subscribe_packet (id + 1) t) cs rest s2 s')
    Hc2) as (s3 & Hr & Hc3 & Hs3).
  - intros buflen. apply (subscribe_serializes buflen 0 (id + 1) [from_cstring topic] [QOS1] [(t, 1)]); [|unfold in_u16; lia|lia].
    intros [|k] x Hk; [|done]. injection Hk as <-. split; [|done]. exists (from_cstring topic). split; [done|]. by eapply small_stands.
  - exact Hp.
  - exact Hp'.
  - right. by left.
  - done.
  - exact Hcs.
  - exact Hs.
  - intros s3 behind Hc3 Hb3 Hs3. rewrite bind_read_client, Hb3, bind_r_read. rewrite (bind_access _ _ _ _ (suback_read _ a b q behind)).
    cbv beta iota. cbn [s_grantedQoSs]. rewrite (bind_access _ q) by done. rewrite (proj2 (Z.eqb_neq q SUBFAIL) Hq). cbn [negb andb Z.eqb Pos.eqb].
    rewrite (set_handler_run topic t f used fp more s3 Htopic ltac:(apply Ht) (cf_slots _ _ _ _ Hc3) Hlen Hused Hmore).
    eexists. split; [done|]. split; [destruct Hc3; by constructor|]. destruct Hs3. by constructor.
  - exists (locked false s3). split; [|split; [by eapply configured_locked|destruct Hs3; by constructor]].
    apply command_succeeds; [apply Hc|done|]. rewrite (timer_of_command _ _ _ _ _ Hc1), (next_id_run _ _ _ _ _ Hc1 Hid). fold s2. exact Hr.
Qed.

(** *** [MQTTPublish] *)

Definition publish_packet (retained id : Z) (t payload : list Z) : list Z :=
  packet (header_byte PUBLISH 0 1 retained) (publish_body 1 id t payload).
Lemma puback_read pid a b behind : MQTTDeserialize_ack (mkAck 0 0 pid) (packet (header_byte PUBACK 0 0 0) [a; b] ++ behind) = Some (1, mkAck PUBACK 0 (256 * a + b)).
Proof. reflexivity. Qed.
Lemma publish_run topic t memory payload retained a b id hs cs rest s : connected (appl s) = true → c_string topic = Some t → small_text 200 t → 0 <= id < 65535 →
  0 <= retained < 2 → take (length payload) memory = payload → Forall in_u8 payload → zlen payload <= 600 →
  configured false id hs (client s) →
  serves (zlen (publish_packet retained (id + 1) t payload)) (header_byte PUBACK 0 0 0) [a; b] cs → script s = cs ++ rest →
  ∃ s', MQTTPublish topic (mkMQTTMessage QOS1 retained 0 memory (zlen payload)) s = Some (Some SUCCESS, s') ∧
    configured false (id + 1) hs (client s') ∧ sending (publish_packet retained (id + 1) t payload) cs rest s s'.
Proof.
  intros Hup Htopic Ht Hid Hret Hmem Hpay Hlen Hc Hcs Hs. pose proof (configured_locked true _ _ _ _ Hc) as Hc1.
  set (s2 := set_client (set_next_packetid (id + 1) (client (locked true s))) (locked true s)).
  assert (Hc2 : configured true (id + 1) hs (client s2)) by by eapply configured_id. pose proof (zlen_nonneg payload).
  assert (Hbody : zlen (publish_body 1 (id + 1) t payload) <= 900).
  { unfold publish_body. rewrite !zlen_app, utf_length. destruct Ht as [_ Ht]. change (zlen (if 0 <? 1 then int2 (id + 1) else [])) with 2. lia. }
  destruct (packet_fits (header_byte PUBLISH 0 1 retained) _ Hbody) as [Hp Hp'].
  destruct (request_run (λ size, MQTTSerialize_publish size 0 1 retained (id + 1) (from_cstring topic) memory (zlen payload)) (publish_packet retained (id + 1) t payload)
    (MQTTPacket_len (zlen (publish_body 1 (id + 1) t payload)))
    (header_byte PUBACK 0 0 0) [a; b] cs rest s2 true (id + 1) hs check_ack
    (λ s', configured true (id + 1) hs (client s') ∧ sending (publish_packet retained (id + 1) t payload) cs rest s2 s') Hc2) as (s3 & Hr & Hc3 & Hs3).
  - intros buflen. destruct (small_stands 200 t topic Ht ltac:(lia) Htopic) as [Hst Hst'].
    apply publish_serializes; try done; [unfold in_u16; lia|lia].
  - exact Hp.
  - exact Hp'.
  - right. by right.
  - done.
  - exact Hcs.
  - exact Hs.
  - intros s3 behind Hc3 Hb3 Hs3. unfold check_ack. rewrite bind_read_client, Hb3, bind_r_read. rewrite (bind_access _ _ _ _ (puback_read _ a b behind)).
    by exists s3.
  - exists (locked false s3). split; [|split; [by eapply configured_locked|destruct Hs3; by constructor]].
    apply command_succeeds; [apply Hc|done|]. cbn [m_qos m_retained m_payload m_payloadlen]. change ((QOS1 =? QOS1) || (QOS1 =? QOS2)) with true. cbv iota.
    rewrite (timer_of_command _ _ _ _ _ Hc1), (next_id_run _ _ _ _ _ Hc1 Hid). fold s2. rewrite s32_small by lia. exact Hr.
Qed.

(** *** [MQTTConnect] *)

Definition connect_packet (o : connectData) (x : connect_texts) : list Z := packet (header_byte CONNECT 0 0 0) (connect_body o x).
Lemma connack_read flags behind : MQTTDeserialize_connack (mkConnack 0 0) (packet (header_byte CONNACK 0 0 0) [flags; 0] ++ behind) =
  Some (1, mkConnack 0 (flags mod 2)).
Proof. reflexivity. Qed.
Lemma connect_session_run o x d flags id hs cs rest s : has_texts o x → MQTTVersion o = 3 ∨ MQTTVersion o = 4 → keepAliveInterval o = 60 →
  zlen (connect_body o x) <= 900 → configured true id hs (set_keep_alive 60 (client s)) →
  serves (zlen (connect_packet o x)) (header_byte CONNACK 0 0 0) [flags; 0] cs → script s = cs ++ rest →
  ∃ r s', connect_session (Some o) d s = Some (Some (SUCCESS, r), s') ∧ configured true id hs (client s') ∧ sending (connect_packet o x) cs rest s s'.
Proof.
  intros Hx Hv Hk Hbody Hc Hcs Hs. destruct (packet_fits (header_byte CONNECT 0 0 0) _ Hbody) as [[Hp0 Hp] Hp']. unfold connect_session.
  assert (Ht : ∀ B (k : Timer → MR (sys W E handler) B), bind_r command_timer k s = k (armed (now s) 500) s).
  { intros B k. unfold command_timer. unfold bind_r at 1. unfold bind at 1. rewrite bind_r_read, bind_read_client.
    pose proof (cf_timeout _ _ _ _ Hc) as E1. cbn [command_timeout_ms set_keep_alive] in E1. by rewrite E1. }
  assert (Hk16 : in_u16 (keepAliveInterval o)) by by rewrite Hk.
  rewrite Ht. cbv zeta. change (default MQTTPacket_connectData_initializer (Some o)) with o. rewrite bind_r_read, bind_put_client, Hk.
  set (s1 := set_client (set_last_received _ _) s). assert (Hc1 : configured true id hs (client s1)) by (destruct Hc; by constructor).
  match goal with |- context [bind_r (into_buf ?m) ?k s1] => destruct (into_buf_fits m k s1 (connect_packet o x) _ true id hs Hc1
    (λ buflen, connect_serializes buflen o x Hv Hx Hk16) Hp Hp') as (b & Hb & ->) end.
  set (s2 := set_client _ s1). assert (Hc2 : configured true id hs (client s2)) by by apply configured_buf.
  destruct (exchange_run (zlen (connect_packet o x)) (header_byte CONNACK 0 0 0) [flags; 0] cs rest s2 true id hs) as
    (t & s3 & s4 & behind & Hsend & Hwait & Hc4 & Hb4 & Hs4); [by left|done|unfold connect_packet; lia|done|done|done|].
  destruct (Z.leb_spec (zlen (connect_packet o x)) 0); [unfold connect_packet in *; lia|].
  change (now s2) with (now s) in Hsend. rewrite (bind_r_run _ _ _ _ _ Hsend). cbn [negb Z.eqb SUCCESS].
  change (header_type (header_byte CONNACK 0 0 0)) with CONNACK in Hwait. rewrite (bind_r_run _ _ _ _ _ Hwait). rewrite Z.eqb_refl.
  rewrite bind_read_client, Hb4. rewrite (bind_access _ _ _ _ (connack_read flags behind)). eexists _, s4. split; [reflexivity|]. split; [done|].
  destruct Hs4 as [Ha Hse Hsc Hno]. constructor; [done| |done|done]. rewrite Hse. cbn [client set_client buf set_buf s2].
  unfold zlen. by rewrite Nat2Z.id, take_app_length.
Qed.

(** A login that is accepted opens the session. *)
Lemma connect_run o x d flags id hs cs rest s : connected (appl s) = false → has_texts o x → MQTTVersion o = 3 ∨ MQTTVersion o = 4 →
  keepAliveInterval o = 60 → zlen (connect_body o x) <= 900 → configured false id hs (set_keep_alive 60 (client s)) →
  serves (zlen (connect_packet o x)) (header_byte CONNACK 0 0 0) [flags; 0] cs → script s = cs ++ rest →
  ∃ s', MQTTConnect (Some o) d s = Some (Some SUCCESS, s') ∧ configured false id hs (client s') ∧
    sending (connect_packet o x) cs rest (set_app (set_connected true (appl s)) s) s'.
Proof.
  intros Hup Hx Hv Hk Hbody Hc Hcs Hs.
  destruct (connect_session_run o x d flags id hs cs rest (locked true s)) as (r & s1 & Hr & Hc1 & Hs1); try done; [destruct Hc; by constructor|].
  set (s2 := set_client (set_ping_outstanding 0 (client s1)) (set_app (set_connected true (appl s1)) s1)).
  assert (Hm : MQTTConnectWithResults (Some o) d s = Some (Some (SUCCESS, r), locked false s2)).
  { apply with_mutex_free; [apply Hc|]. rewrite bind_r_read. change (appl (locked true s)) with (appl s). rewrite Hup. by rewrite (bind_r_run _ _ _ _ _ Hr). }
  exists (locked false s2). unfold MQTTConnect. rewrite (bind_r_run _ _ _ _ _ Hm). split; [done|]. split; [destruct Hc1; by constructor|].
  destruct Hs1 as [Ha Hse Hsc Hno]. constructor; try done. cbn [appl locked set_client set_app s2]. by rewrite Ha.
Qed.

(** *** [MQTTClientInit] *)

Lemma client_init_fresh b r s : zlen b = 1000 → zlen r = 1000 →
  ∃ c, MQTTClientInit (λ _, None) 5000 (Some (b, 1000)) (Some (r, 1000)) s = Some (Some true, set_client c (set_app (set_connected false (appl s)) s)) ∧
    configured false 1 ((λ x, (None, x.2)) <$> messageHandlers (client s)) (set_keep_alive 60 c).
Proof. intros Hb Hr. eexists. split; [reflexivity|]. by constructor. Qed.
End Exchange.
End MqttExchange.
