(* ===== verification/World.v ===== *)
(** The state of the application: the globals of [app/components/common/csro_common.h],
    the statics of [csro_mqtt.c], [csro_system.c] and [csro_nlight.c], and what
    the device has done so far.

    A [char] array is the C string it holds; writing a longer one than fits is
    a fault. The record [world] is threaded through the handlers of
    [System.v], [Nlight.v], [Device.v] and [Mqtt.v]. *)
From S2P Require Import Prelude Nvs Datetime Cjson Misc.

Module World.
Import Cjson Misc Datetime.Alarm.

#[global] Arguments bytes _%_string_scope : simpl never.

Inductive system_status :=
  | IDLE | SMARTCONFIG | SMARTCONFIG_TIMEOUT | NORMAL_START_NOWIFI | NORMAL_START_NOSERVER
  | NORMAL_START_OK | RESET_PENDING.
#[global] Instance system_status_eq_dec : EqDecision system_status.
Proof. solve_decision. Defined.

Record system_struct := mkSystem {
  status : system_status;
  router_ssid : list Z;
  router_pass : list Z;
  sc_flag : Z;
  mac : list Z;
  ip : list Z;
  host_name : list Z;
  dev_type : list Z;
  mac_str : list Z;
  ip_str : list Z;
  power_on_count : Z;
  wifi_conn_count : Z;
  serv_conn_count : Z }.
Definition set_status (v : system_status) (r : system_struct) : system_struct :=
  mkSystem v (router_ssid r) (router_pass r) (sc_flag r) (mac r) (ip r) (host_name r) (dev_type r) (mac_str r) (ip_str r) (power_on_count r) (wifi_conn_count r) (serv_conn_count r).
Definition set_router_ssid (v : list Z) (r : system_struct) : system_struct :=
  mkSystem (status r) v (router_pass r) (sc_flag r) (mac r) (ip r) (host_name r) (dev_type r) (mac_str r) (ip_str r) (power_on_count r) (wifi_conn_count r) (serv_conn_count r).
Definition set_router_pass (v : list Z) (r : system_struct) : system_struct :=
  mkSystem (status r) (router_ssid r) v (sc_flag r) (mac r) (ip r) (host_name r) (dev_type r) (mac_str r) (ip_str r) (power_on_count r) (wifi_conn_count r) (serv_conn_count r).
Definition set_sc_flag (v : Z) (r : system_struct) : system_struct :=
  mkSystem (status r) (router_ssid r) (router_pass r) v (mac r) (ip r) (host_name r) (dev_type r) (mac_str r) (ip_str r) (power_on_count r) (wifi_conn_count r) (serv_conn_count r).
Definition set_mac (v : list Z) (r : system_struct) : system_struct :=
  mkSystem (status r) (router_ssid r) (router_pass r) (sc_flag r) v (ip r) (host_name r) (dev_type r) (mac_str r) (ip_str r) (power_on_count r) (wifi_conn_count r) (serv_conn_count r).
Definition set_ip (v : list Z) (r : system_struct) : system_struct :=
  mkSystem (status r) (router_ssid r) (router_pass r) (sc_flag r) (mac r) v (host_name r) (dev_type r) (mac_str r) (ip_str r) (power_on_count r) (wifi_conn_count r) (serv_conn_count r).
Definition set_host_name (v : list Z) (r : system_struct) : system_struct :=
  mkSystem (status r) (router_ssid r) (router_pass r) (sc_flag r) (mac r) (ip r) v (dev_type r) (mac_str r) (ip_str r) (power_on_count r) (wifi_conn_count r) (serv_conn_count r).
Definition set_dev_type (v : list Z) (r : system_struct) : system_struct :=
  mkSystem (status r) (router_ssid r) (router_pass r) (sc_flag r) (mac r) (ip r) (host_name r) v (mac_str r) (ip_str r) (power_on_count r) (wifi_conn_count r) (serv_conn_count r).
Definition set_mac_str (v : list Z) (r : system_struct) : system_struct :=
  mkSystem (status r) (router_ssid r) (router_pass r) (sc_flag r) (mac r) (ip r) (host_name r) (dev_type r) v (ip_str r) (power_on_count r) (wifi_conn_count r) (serv_conn_count r).
Definition set_ip_str (v : list Z) (r : system_struct) : system_struct :=
  mkSystem (status r) (router_ssid r) (router_pass r) (sc_flag r) (mac r) (ip r) (host_name r) (dev_type r) (mac_str r) v (power_on_count r) (wifi_conn_count r) (serv_conn_count r).
Definition set_power_on_count (v : Z) (r : system_struct) : system_struct :=
  mkSystem (status r) (router_ssid r) (router_pass r) (sc_flag r) (mac r) (ip r) (host_name r) (dev_type r) (mac_str r) (ip_str r) v (wifi_conn_count r) (serv_conn_count r).
Definition set_wifi_conn_count (v : Z) (r : system_struct) : system_struct :=
  mkSystem (status r) (router_ssid r) (router_pass r) (sc_flag r) (mac r) (ip r) (host_name r) (dev_type r) (mac_str r) (ip_str r) (power_on_count r) v (serv_conn_count r).
Definition set_serv_conn_count (v : Z) (r : system_struct) : system_struct :=
  mkSystem (status r) (router_ssid r) (router_pass r) (sc_flag r) (mac r) (ip r) (host_name r) (dev_type r) (mac_str r) (ip_str r) (power_on_count r) (wifi_conn_count r) v.

Record mqtt_struct := mkMqtt {
  id_ : list Z;
  name : list Z;
  pass : list Z;
  sub_topic_self : list Z;
  sub_topic_hass : list Z;
  sub_topic_group : list Z;
  pub_topic : list Z;
  content_ : list Z;
  broker : list Z;
  prefix : list Z;
  interval : Z;
  isconnected : bool }.
Definition set_id_ (v : list Z) (r : mqtt_struct) : mqtt_struct :=
  mkMqtt v (name r) (pass r) (sub_topic_self r) (sub_topic_hass r) (sub_topic_group r) (pub_topic r) (content_ r) (broker r) (prefix r) (interval r) (isconnected r).
Definition set_name (v : list Z) (r : mqtt_struct) : mqtt_struct :=
  mkMqtt (id_ r) v (pass r) (sub_topic_self r) (sub_topic_hass r) (sub_topic_group r) (pub_topic r) (content_ r) (broker r) (prefix r) (interval r) (isconnected r).
Definition set_pass (v : list Z) (r : mqtt_struct) : mqtt_struct :=
  mkMqtt (id_ r) (name r) v (sub_topic_self r) (sub_topic_hass r) (sub_topic_group r) (pub_topic r) (content_ r) (broker r) (prefix r) (interval r) (isconnected r).
Definition set_sub_topic_self (v : list Z) (r : mqtt_struct) : mqtt_struct :=
  mkMqtt (id_ r) (name r) (pass r) v (sub_topic_hass r) (sub_topic_group r) (pub_topic r) (content_ r) (broker r) (prefix r) (interval r) (isconnected r).
Definition set_sub_topic_hass (v : list Z) (r : mqtt_struct) : mqtt_struct :=
  mkMqtt (id_ r) (name r) (pass r) (sub_topic_self r) v (sub_topic_group r) (pub_topic r) (content_ r) (broker r) (prefix r) (interval r) (isconnected r).
Definition set_sub_topic_group (v : list Z) (r : mqtt_struct) : mqtt_struct :=
  mkMqtt (id_ r) (name r) (pass r) (sub_topic_self r) (sub_topic_hass r) v (pub_topic r) (content_ r) (broker r) (prefix r) (interval r) (isconnected r).
Definition set_pub_topic (v : list Z) (r : mqtt_struct) : mqtt_struct :=
  mkMqtt (id_ r) (name r) (pass r) (sub_topic_self r) (sub_topic_hass r) (sub_topic_group r) v (content_ r) (broker r) (prefix r) (interval r) (isconnected r).
Definition set_content_ (v : list Z) (r : mqtt_struct) : mqtt_struct :=
  mkMqtt (id_ r) (name r) (pass r) (sub_topic_self r) (sub_topic_hass r) (sub_topic_group r) (pub_topic r) v (broker r) (prefix r) (interval r) (isconnected r).
Definition set_broker (v : list Z) (r : mqtt_struct) : mqtt_struct :=
  mkMqtt (id_ r) (name r) (pass r) (sub_topic_self r) (sub_topic_hass r) (sub_topic_group r) (pub_topic r) (content_ r) v (prefix r) (interval r) (isconnected r).
Definition set_prefix (v : list Z) (r : mqtt_struct) : mqtt_struct :=
  mkMqtt (id_ r) (name r) (pass r) (sub_topic_self r) (sub_topic_hass r) (sub_topic_group r) (pub_topic r) (content_ r) (broker r) v (interval r) (isconnected r).
Definition set_interval (v : Z) (r : mqtt_struct) : mqtt_struct :=
  mkMqtt (id_ r) (name r) (pass r) (sub_topic_self r) (sub_topic_hass r) (sub_topic_group r) (pub_topic r) (content_ r) (broker r) (prefix r) v (isconnected r).
Definition set_isconnected (v : bool) (r : mqtt_struct) : mqtt_struct :=
  mkMqtt (id_ r) (name r) (pass r) (sub_topic_self r) (sub_topic_hass r) (sub_topic_group r) (pub_topic r) (content_ r) (broker r) (prefix r) (interval r) v.

(** A light channel; [pin_num] is never used. *)
Record csro_switch := mkSwitch {
  index : Z;
  state_ : Z;
  on_source : Z;
  on_tim : Z;
  off_source : Z;
  off_tim : Z }.
Definition set_index (v : Z) (r : csro_switch) : csro_switch :=
  mkSwitch v (state_ r) (on_source r) (on_tim r) (off_source r) (off_tim r).
Definition set_state_ (v : Z) (r : csro_switch) : csro_switch :=
  mkSwitch (index r) v (on_source r) (on_tim r) (off_source r) (off_tim r).
Definition set_on_source (v : Z) (r : csro_switch) : csro_switch :=
  mkSwitch (index r) (state_ r) v (on_tim r) (off_source r) (off_tim r).
Definition set_on_tim (v : Z) (r : csro_switch) : csro_switch :=
  mkSwitch (index r) (state_ r) (on_source r) v (off_source r) (off_tim r).
Definition set_off_source (v : Z) (r : csro_switch) : csro_switch :=
  mkSwitch (index r) (state_ r) (on_source r) (on_tim r) v (off_tim r).
Definition set_off_tim (v : Z) (r : csro_switch) : csro_switch :=
  mkSwitch (index r) (state_ r) (on_source r) (on_tim r) (off_source r) v.

(** A software timer: its period and how many ticks are left. *)
Record timer := mkTimer { period : Z; left_ : Z }.

(** What the device does to the outside. *)
Inductive effect :=
  | Connect (host : list Z) (port : Z)
  | Login (id name pass will_topic : list Z)
  | Subscribe (topic_filter : list Z)
  | Publish (topic content : list Z) (retained : bool)
  | I2c_write (reg value : Z)
  | I2c_read (reg : Z).

Record world (st : Type) := mkWorld {
  clock : Clock.state st;
  sysinfo : system_struct;
  mqtt : mqtt_struct;
  channel : list csro_switch;
  status_msg : bool;
  system_msg : bool;
  alarm_msg : bool;
  status_timer : timer;
  is_connect : bool;
  wifi_retry : Z;
  chip_count : Z;
  log : list effect }.
#[global] Arguments mkWorld {st}.
#[global] Arguments clock {st}.
#[global] Arguments sysinfo {st}.
#[global] Arguments mqtt {st}.
#[global] Arguments channel {st}.
#[global] Arguments status_msg {st}.
#[global] Arguments system_msg {st}.
#[global] Arguments alarm_msg {st}.
#[global] Arguments status_timer {st}.
#[global] Arguments is_connect {st}.
#[global] Arguments wifi_retry {st}.
#[global] Arguments chip_count {st}.
#[global] Arguments log {st}.

Section World.
Context {st : Type}.
Definition set_clock (v : Clock.state st) (r : world st) : world st :=
  mkWorld v (sysinfo r) (mqtt r) (channel r) (status_msg r) (system_msg r) (alarm_msg r) (status_timer r) (is_connect r) (wifi_retry r) (chip_count r) (log r).
Definition set_sysinfo (v : system_struct) (r : world st) : world st :=
  mkWorld (clock r) v (mqtt r) (channel r) (status_msg r) (system_msg r) (alarm_msg r) (status_timer r) (is_connect r) (wifi_retry r) (chip_count r) (log r).
Definition set_mqtt (v : mqtt_struct) (r : world st) : world st :=
  mkWorld (clock r) (sysinfo r) v (channel r) (status_msg r) (system_msg r) (alarm_msg r) (status_timer r) (is_connect r) (wifi_retry r) (chip_count r) (log r).
Definition set_channel (v : list csro_switch) (r : world st) : world st :=
  mkWorld (clock r) (sysinfo r) (mqtt r) v (status_msg r) (system_msg r) (alarm_msg r) (status_timer r) (is_connect r) (wifi_retry r) (chip_count r) (log r).
Definition set_status_msg (v : bool) (r : world st) : world st :=
  mkWorld (clock r) (sysinfo r) (mqtt r) (channel r) v (system_msg r) (alarm_msg r) (status_timer r) (is_connect r) (wifi_retry r) (chip_count r) (log r).
Definition set_system_msg (v : bool) (r : world st) : world st :=
  mkWorld (clock r) (sysinfo r) (mqtt r) (channel r) (status_msg r) v (alarm_msg r) (status_timer r) (is_connect r) (wifi_retry r) (chip_count r) (log r).
Definition set_alarm_msg (v : bool) (r : world st) : world st :=
  mkWorld (clock r) (sysinfo r) (mqtt r) (channel r) (status_msg r) (system_msg r) v (status_timer r) (is_connect r) (wifi_retry r) (chip_count r) (log r).
Definition set_status_timer (v : timer) (r : world st) : world st :=
  mkWorld (clock r) (sysinfo r) (mqtt r) (channel r) (status_msg r) (system_msg r) (alarm_msg r) v (is_connect r) (wifi_retry r) (chip_count r) (log r).
Definition set_is_connect (v : bool) (r : world st) : world st :=
  mkWorld (clock r) (sysinfo r) (mqtt r) (channel r) (status_msg r) (system_msg r) (alarm_msg r) (status_timer r) v (wifi_retry r) (chip_count r) (log r).
Definition set_wifi_retry (v : Z) (r : world st) : world st :=
  mkWorld (clock r) (sysinfo r) (mqtt r) (channel r) (status_msg r) (system_msg r) (alarm_msg r) (status_timer r) (is_connect r) v (chip_count r) (log r).
Definition set_chip_count (v : Z) (r : world st) : world st :=
  mkWorld (clock r) (sysinfo r) (mqtt r) (channel r) (status_msg r) (system_msg r) (alarm_msg r) (status_timer r) (is_connect r) (wifi_retry r) v (log r).
Definition set_log (v : list effect) (r : world st) : world st :=
  mkWorld (clock r) (sysinfo r) (mqtt r) (channel r) (status_msg r) (system_msg r) (alarm_msg r) (status_timer r) (is_connect r) (wifi_retry r) (chip_count r) v.

Definition put_sys (f : system_struct → system_struct) : M (world st) unit := modify (λ w, set_sysinfo (f (sysinfo w)) w).
Definition put_mqtt (f : mqtt_struct → mqtt_struct) : M (world st) unit := modify (λ w, set_mqtt (f (mqtt w)) w).
Definition emit_effect (a : effect) : M (world st) unit := modify (λ w, set_log (log w ++ [a]) w).

(** [strcpy]/[sprintf] of [s] into a [char] array of [size] bytes. *)
Definition fits_in (size : Z) (s : list Z) : bool := Z.of_nat (length s) <? size.
Definition copy_to (size : Z) (s : list Z) (put : list Z → M (world st) unit) : M (world st) unit :=
  if fits_in size s then put s else fault.

Definition store_of (w : world st) : st := store (Clock.tbl (clock w)).
Definition alarms_of (w : world st) : list alarm_struct := alarms (Clock.tbl (clock w)).
Definition time_now_of (w : world st) : Z := Clock.time_now (Clock.datetime (clock w)).

(** The clock and the alarm table are components of their own. *)
Definition on_clock {A} (m : M (Clock.state st) A) : M (world st) A := zoom clock set_clock m.
Definition set_table (t : table st) (c : Clock.state st) : Clock.state st :=
  Clock.mkState (Clock.datetime c) (Clock.time_sync c) t (Clock.console c).
Definition on_alarms {A} (m : M (table st) A) : M (world st) A := on_clock (zoom Clock.tbl set_table m).
Definition on_store (f : st → st) : M (world st) unit := on_alarms (modify (λ t, mkTable (alarms t) (f (store t)))).
End World.

(** ** Invariants through the components *)
Section WorldKeeps.
Context {st : Type}.
Implicit Types I : world st → Prop.

Lemma keeps_copy_to I n s put : (fits_in n s = true → keeps I (put s)) → keeps I (copy_to n s put).
Proof. intros Hp. unfold copy_to. destruct (fits_in n s) eqn:E; [by apply Hp|apply keeps_fault]. Qed.

(** A clock procedure that leaves the alarm table alone. *)
Lemma keeps_on_clock {A} I (m : M (Clock.state st) A) :
  (∀ t, keeps (λ c, Clock.tbl c = t) m) →
  (∀ w c, I w → Clock.tbl c = Clock.tbl (clock w) → I (set_clock c w)) → keeps I (on_clock m).
Proof. intros Hm HI. apply (keeps_zoom I _ _ _ (λ w c, Clock.tbl c = Clock.tbl (clock w))); auto. Qed.

(** A procedure on the alarm table that keeps [J]. *)
Lemma keeps_on_alarms {A} I (J : world st → table st → Prop) (m : M (table st) A) :
  (∀ w, I w → J w (Clock.tbl (clock w))) → (∀ w, I w → keeps (J w) m) →
  (∀ w t, I w → J w t → I (set_clock (set_table t (clock w)) w)) → keeps I (on_alarms m).
Proof.
  intros Hg Hm Hp w a w' HI. unfold on_alarms, on_clock, zoom.
  destruct (m (Clock.tbl (clock w))) as [[a' t]|] eqn:E; [|done]. intros [= <- <-].
  apply Hp; [done|]. by eapply Hm; [| |exact E]; [done|apply Hg].
Qed.
Lemma keeps_on_store I (f : st → st) :
  (∀ w t, I w → t = mkTable (alarms (Clock.tbl (clock w))) (f (store_of w)) → I (set_clock (set_table t (clock w)) w)) →
  keeps I (on_store f).
Proof. intros Hf w a w' HI [= <- <-]. by apply Hf. Qed.
End WorldKeeps.

End World.
