(* ===== verification/System.v ===== *)
(** System information and its messages: [app/components/common/csro_system.c],
    and the triggers of [csro_mqtt.c] that other parts call. *)
From stdpp Require Import pretty.
From S2P Require Import Prelude Nvs Datetime Cjson Misc World.

Module System.
Import Cjson Misc World Datetime.Libc.

Definition MIN_INTERVAL : Z := 2.
Definition MAX_INTERVAL : Z := 120.
Definition MQTT_BUFFER_LENGTH : Z := 1000.
Definition MQTT_TOPIC_LENGTH : Z := 100.
Definition MQTT_NAME_ID_LENGTH : Z := 50.
Definition NLIGHT : Z := 3.

(** [CONFIG_FREERTOS_HZ] is 100. *)
Definition portTICK_RATE_MS : Z := 1000 / 100.

(** The namespace "system". *)
Definition sys_key (k : string) (ty : nvs_type) : nvs_key := ("system"%string, k, ty).

(** [sprintf] with "%02x" and "%02d". *)
Definition hex2 (c : Z) : list Z := [hex_char (c / 16); hex_char (c mod 16)].
Definition dec2 (n : Z) : list Z := (if (0 <=? n) && (n <? 10) then [48] else []) ++ sprintf_ld n.
(** [strftime] with "%Y/%m/%d %H:%M:%S". *)
Definition time_text (t : tm) : list Z :=
  sprintf_ld (tm_year t + 1900) ++ [47] ++ dec2 (tm_mon t + 1) ++ [47] ++ dec2 (tm_mday t) ++ [32] ++
  dec2 (tm_hour t) ++ [58] ++ dec2 (tm_min t) ++ [58] ++ dec2 (tm_sec t).
Definition to_string (l : list Z) : string := String.string_of_list_ascii ((λ c, Ascii.ascii_of_nat (Z.to_nat c)) <$> l).

Section System.
Context {st : Type} `{Nvs st} `{!NvsStr st} {D : Type} `{Double D}.

(** ** Triggers of [csro_mqtt.c] *)

Definition status_period (interval : Z) : Z := (interval * 1000) / portTICK_RATE_MS.
Definition reset_status_timer : M (world st) unit :=
  modify (λ w, set_status_timer (mkTimer (period (status_timer w)) (period (status_timer w))) w).
Definition csro_mqtt_change_status_msg_timer : M (world st) unit :=
  modify (λ w, let p := status_period (interval (mqtt w)) in set_status_timer (mkTimer p p) w) ;;;
  reset_status_timer.
Definition csro_mqtt_msg_trigger_status : M (world st) unit :=
  modify (set_status_msg true) ;;;
  reset_status_timer.
Definition csro_mqtt_msg_trigger_system : M (world st) unit := modify (set_system_msg true).
Definition csro_mqtt_msg_trigger_alarm : M (world st) unit := modify (set_alarm_msg true).

(** ** [csro_system.c] *)

Definition system_print_device_type : M (world st) unit :=
  copy_to 20 (bytes "nlight" ++ sprintf_ld NLIGHT) (λ s, put_sys (set_dev_type s)).

(** The first half of [csro_system_get_info]: what the store keeps. *)
Definition load_settings : M (world st) unit :=
  let! store := get store_of in
  put_sys (λ s, set_sc_flag (nvs_read (sys_key "sc_flag" NVS_U8) (sc_flag s) store) s) ;;;
  put_sys (λ s, set_power_on_count (nvs_read (sys_key "power_count" NVS_U32) (power_on_count s) store) s) ;;;
  let! power_on_count := get (λ w, power_on_count (sysinfo w)) in
  on_store (nvs_set (sys_key "power_count" NVS_U32) (u32 (power_on_count + 1))) ;;;
  put_mqtt (λ m, set_interval (nvs_read (sys_key "interval" NVS_U16) (interval m) store) m) ;;;
  let! i := get (λ w, interval (mqtt w)) in
  when ((i <? MIN_INTERVAL) || (MAX_INTERVAL <? i)) (
    put_mqtt (set_interval 5) ;;;
    on_store (nvs_set (sys_key "interval" NVS_U16) 5)).

(** The second half: the names made of the address. [mac_of] is what
    [esp_wifi_get_mac] gives, [sha1] the digest of the crypto library. *)
Definition make_names (mac_of : list Z) (sha1 : list Z → list Z) : M (world st) unit :=
  system_print_device_type ;;;
  put_sys (set_mac mac_of) ;;;
  copy_to 20 (concat (hex2 <$> mac_of)) (λ s, put_sys (set_mac_str s)) ;;;
  let! mac_str := get (λ w, mac_str (sysinfo w)) in
  copy_to 20 (bytes "csro_" ++ mac_str) (λ s, put_sys (set_host_name s)) ;;;
  copy_to MQTT_NAME_ID_LENGTH (bytes "csro/" ++ mac_str) (λ s, put_mqtt (set_id_ s)) ;;;
  let! dev_type := get (λ w, dev_type (sysinfo w)) in
  copy_to MQTT_NAME_ID_LENGTH (bytes "csro/" ++ mac_str ++ bytes "/" ++ dev_type) (λ s, put_mqtt (set_name s)) ;;;
  let! pass_bytes := lift (mapM (rd (sha1 mac_str)) [0; 2; 4; 6; 8; 10; 12; 14]) in
  copy_to MQTT_NAME_ID_LENGTH (concat (hex2 <$> pass_bytes)) (λ s, put_mqtt (set_pass s)).

Definition csro_system_get_info (mac_of : list Z) (sha1 : list Z → list Z) : M (world st) unit :=
  load_settings ;;; make_names mac_of sha1.

Definition csro_system_set_status (status_ : system_status) : M (world st) unit :=
  let! now := get (λ w, status (sysinfo w)) in
  if decide (now = RESET_PENDING) then ret tt else
  when (bool_decide (now ≠ status_)) (put_sys (set_status status_)).

(** [nvs_get_str] into a buffer of the stored length. *)
Definition load_str (k : string) (put : list Z → M (world st) unit) : M (world st) unit :=
  let! store := get store_of in
  match nvs_get_str ("system"%string, k) store with
  | Some s => copy_to 50 s put
  | None => ret tt
  end.
Definition csro_system_get_wifi_info : M (world st) bool :=
  let! store := get store_of in
  let router_flag := nvs_read (sys_key "router" NVS_U8) 0 store in
  if router_flag =? 1 then
    load_str "ssid" (λ s, put_sys (set_router_ssid s)) ;;;
    load_str "pass" (λ s, put_sys (set_router_pass s)) ;;;
    ret true
  else ret false.

(** [addr] is the address the interface has, 0 without one. *)
Definition csro_system_get_wifi_status (addr : Z) : M (world st) bool :=
  if negb (addr =? 0) then
    let! connected := get is_connect in
    when (negb connected) (
      modify (set_is_connect true) ;;;
      csro_system_set_status NORMAL_START_NOSERVER ;;;
      put_sys (λ s, set_wifi_conn_count (u32 (wifi_conn_count s + 1)) s) ;;;
      let ip_ := [Z.land addr 0xFF; Z.shiftr (Z.land addr 0xFF00) 8; Z.shiftr (Z.land addr 0xFF0000) 16;
                  Z.shiftr (Z.land addr 0xFF000000) 24] in
      put_sys (set_ip (u8 <$> ip_)) ;;;
      let! ip_ := get (λ w, ip (sysinfo w)) in
      let text := match ip_ with
        | [a; b; c; d] => sprintf_ld a ++ [46] ++ sprintf_ld b ++ [46] ++ sprintf_ld c ++ [46] ++ sprintf_ld d
        | _ => [] end in
      copy_to 20 text (λ s, put_sys (set_ip_str s))) ;;;
    get is_connect
  else
    csro_system_set_status NORMAL_START_NOWIFI ;;;
    modify (set_is_connect false) ;;;
    get is_connect.

Definition csro_system_set_interval (interval_ : Z) : M (world st) unit :=
  let interval_ := u16 interval_ in
  when ((2 <=? interval_) && (interval_ <=? 120)) (
    on_store (nvs_set (sys_key "interval" NVS_U16) interval_) ;;;
    put_mqtt (set_interval interval_) ;;;
    csro_mqtt_change_status_msg_timer).

(** [char *out = cJSON_PrintUnformatted(json); strcpy(mqtt.content, out)]. *)
Definition print_content (json : cJSON D) : M (world st) unit :=
  let! out := lift (cJSON_PrintUnformatted json) in
  let! out := lift out in
  copy_to MQTT_BUFFER_LENGTH out (λ s, put_mqtt (set_content_ s)).

(** [heap] is what [esp_get_free_heap_size] answers. *)
Definition csro_system_prepare_message (heap : Z) : M (world st) unit :=
  let! on := get (λ w, Clock.time_on (Clock.datetime (clock w))) in
  let text := time_text (localtime_r on) in
  copy_to 100 text (λ s, on_clock (Clock.put_datetime (λ d,
    Clock.mkDatetime (Clock.time_on d) (Clock.time_conn d) (Clock.time_now d) (Clock.time_run d) (Clock.time_info d) (to_string s)))) ;;;
  let! s := get sysinfo in
  let! m := get mqtt in
  let sys_json := cJSON_CreateObject in
  let sys_json := cJSON_AddNumberToObject sys_json (bytes "power") (d_of_Z (power_on_count s)) in
  let sys_json := cJSON_AddNumberToObject sys_json (bytes "router") (d_of_Z (wifi_conn_count s)) in
  let sys_json := cJSON_AddNumberToObject sys_json (bytes "broker") (d_of_Z (serv_conn_count s)) in
  let sys_json := cJSON_AddNumberToObject sys_json (bytes "heap") (d_of_Z heap) in
  let sys_json := cJSON_AddStringToObject sys_json (bytes "on") text in
  let sys_json := cJSON_AddStringToObject sys_json (bytes "ip") (ip_str s) in
  let sys_json := cJSON_AddStringToObject sys_json (bytes "mac") (mac_str s) in
  let sys_json := cJSON_AddStringToObject sys_json (bytes "name") (host_name s) in
  let sys_json := cJSON_AddStringToObject sys_json (bytes "type") (dev_type s) in
  let sys_json := cJSON_AddNumberToObject sys_json (bytes "interval") (d_of_Z (interval m)) in
  print_content sys_json.

(** ** The invariant of the running application

    Its main parts: the interval is in its range and is the one stored, the
    status timer has the period of the interval, the channels are numbered and
    on or off, and every string fits its array. *)
Definition interval_ok (i : Z) : Prop := MIN_INTERVAL <= i <= MAX_INTERVAL.
Definition light_ok (i : nat) (ch : csro_switch) : Prop := index ch = Z.of_nat i ∧ (state_ ch = 0 ∨ state_ ch = 1).
Definition interval_key : nvs_key := sys_key "interval" NVS_U16.

Record app_ok (w : world st) : Prop := {
  ok_table : length (alarms_of w) = 20%nat;
  ok_interval : interval_ok (interval (mqtt w));
  ok_stored : nvs_get interval_key (store_of w) = Some (interval (mqtt w));
  ok_period : period (status_timer w) = status_period (interval (mqtt w));
  ok_left : 1 <= left_ (status_timer w) <= period (status_timer w);
  ok_status : status (sysinfo w) ≠ RESET_PENDING;
  ok_count : length (channel w) = 3%nat;
  ok_lights : ∀ i ch, channel w !! i = Some ch → light_ok i ch;
  ok_type : dev_type (sysinfo w) = bytes "nlight3";
  ok_mac : length (mac_str (sysinfo w)) = 12%nat;
  ok_broker : fits_in 50 (broker (mqtt w)) = true;
  ok_prefix : fits_in 50 (prefix (mqtt w)) = true;
  ok_content : fits_in MQTT_BUFFER_LENGTH (content_ (mqtt w)) = true }.

Lemma status_period_pos i : interval_ok i → 1 <= status_period i.
Proof. unfold interval_ok, status_period, portTICK_RATE_MS, MIN_INTERVAL. intros Hi. change (1000 / 100) with 10. dlia. Qed.

(** A change of parts the invariant does not mention, or that keeps them. *)
Ltac app_ok_done := intros; match goal with Hw : app_ok _ |- app_ok _ => destruct Hw; constructor; cbn in *; try done; try lia end.

Lemma app_ok_update (f : world st → world st) : (∀ w, app_ok w → app_ok (f w)) → keeps app_ok (modify f).
Proof. apply keeps_modify. Qed.

Lemma ok_reset_timer : keeps app_ok reset_status_timer.
Proof. apply keeps_modify. app_ok_done. Qed.
#[local] Hint Resolve ok_reset_timer : keeps.

Lemma ok_trigger_status : keeps app_ok csro_mqtt_msg_trigger_status.
Proof. apply keeps_bind; [apply keeps_modify; app_ok_done|auto with keeps]. Qed.
Lemma ok_trigger_system : keeps app_ok csro_mqtt_msg_trigger_system.
Proof. apply keeps_modify. app_ok_done. Qed.
Lemma ok_trigger_alarm : keeps app_ok csro_mqtt_msg_trigger_alarm.
Proof. apply keeps_modify. app_ok_done. Qed.

Lemma ok_put_sys f :
  (∀ s, (status s ≠ RESET_PENDING → status (f s) ≠ RESET_PENDING) ∧ dev_type (f s) = dev_type s ∧ mac_str (f s) = mac_str s) →
  keeps app_ok (put_sys f).
Proof.
  intros Hf. apply keeps_modify. intros w []. destruct (Hf (sysinfo w)) as (H1 & H2 & H3).
  constructor; cbn; try done; [by apply H1|congruence..].
Qed.
(** The strings of [mqtt] that the invariant does not bound. *)
Lemma ok_put_mqtt f :
  (∀ m, interval (f m) = interval m ∧ broker (f m) = broker m ∧ prefix (f m) = prefix m ∧ content_ (f m) = content_ m) →
  keeps app_ok (put_mqtt f).
Proof.
  intros Hf. apply keeps_modify. intros w []. destruct (Hf (mqtt w)) as (H1 & H2 & H3 & H4).
  constructor; cbn; try congruence; by rewrite ?H1, ?H2, ?H3, ?H4.
Qed.
Lemma ok_put_content s : fits_in MQTT_BUFFER_LENGTH s = true → keeps app_ok (put_mqtt (set_content_ s)).
Proof. intros Hs. apply keeps_modify. app_ok_done. Qed.
Lemma ok_print_content json : keeps app_ok (print_content json).
Proof. unfold print_content. keep. apply keeps_copy_to. apply ok_put_content. Qed.
Lemma ok_emit e : keeps app_ok (emit_effect e).
Proof. apply keeps_modify. app_ok_done. Qed.

Lemma ok_set_status s : s ≠ RESET_PENDING → keeps app_ok (csro_system_set_status s).
Proof. intros Hs. unfold csro_system_set_status. keep. by apply ok_put_sys. Qed.

Lemma ok_set_interval i : keeps app_ok (csro_system_set_interval i).
Proof.
  unfold csro_system_set_interval. set (v := u16 i). intros w r w' Hw.
  destruct (Z.leb_spec 2 v); cbn [andb when]; [|by intros [= <- <-]].
  destruct (Z.leb_spec v 120); cbn [when]; [|by intros [= <- <-]]. intros [= <- <-].
  assert (Hv : interval_ok v) by done. pose proof (status_period_pos v Hv). destruct Hw. constructor; cbn; try done; try lia.
  by rewrite nvs_get_set_eq.
Qed.

Lemma ok_get_wifi_status addr : keeps app_ok (csro_system_get_wifi_status addr).
Proof.
  unfold csro_system_get_wifi_status. keep; try by apply ok_set_status.
  all: try by (apply keeps_modify; app_ok_done). all: try by apply ok_put_sys.
  apply keeps_copy_to. intros _. by apply ok_put_sys.
Qed.

(** Clock procedures do not touch the table. *)
Lemma ok_on_clock {A} (m : M (Clock.state st) A) : (∀ t, keeps (λ c, Clock.tbl c = t) m) → keeps app_ok (on_clock m).
Proof.
  intros Hm. apply keeps_on_clock; [done|]. intros w c [] E.
  constructor; unfold alarms_of, store_of in *; cbn; rewrite ?E; try done.
Qed.

Lemma ok_prepare_message heap : keeps app_ok (csro_system_prepare_message heap).
Proof.
  unfold csro_system_prepare_message. keep; [|apply ok_print_content].
  apply keeps_copy_to. intros _. apply ok_on_clock. intros t. apply keeps_modify. by intros c <-.
Qed.

(** Alarm procedures touch the namespace "alarms" only. *)
Lemma interval_ignores v : Alarm.ignores_alarms (λ s : st, nvs_get interval_key s = Some v).
Proof. intros k x s Hk Hv. rewrite nvs_get_set_ne; [done|]. by intros ->. Qed.

Lemma ok_on_alarms {A} (m : M (Alarm.table st) A) :
  (∀ P, Alarm.ignores_alarms P → keeps (Alarm.frame P) m) → keeps app_ok (on_alarms m).
Proof.
  intros Hm. apply (keeps_on_alarms app_ok (λ w, Alarm.frame (λ s, nvs_get interval_key s = Some (interval (mqtt w))))).
  - intros w []. done.
  - intros w _. apply Hm, interval_ignores.
  - intros w t [] [Hl Hs]. constructor; done.
Qed.

(** The text of a tree goes to [mqtt.content] when it fits. *)
Lemma print_content_run `{!DoubleLaws D} j w : json_ok j →
  print_content (tree None j) w = copy_to MQTT_BUFFER_LENGTH (render false 0 j) (λ s, put_mqtt (set_content_ s)) w.
Proof.
  intros Hok. unfold print_content, cJSON_PrintUnformatted. rewrite print_tree by done.
  by rewrite (bind_run _ _ _ _ _ (lift_run _ _ _ eq_refl)), (bind_run _ _ _ _ _ (lift_run _ _ _ eq_refl)).
Qed.

End System.

(** ** A running device, for the witnesses *)
Definition demo_world : world nvs_map :=
  mkWorld (Clock.mkState (Clock.mkDatetime 0 0 1553900000 0 (Datetime.Libc.mkTm 0 0 0 0 0 0 0) "") true
      (Alarm.mkTable (replicate 20 (Alarm.mkAlarm false 0 0 0)) (nvs_set interval_key 5 (∅, ∅))) [])
    (mkSystem NORMAL_START_OK [] [] 0 [1; 2; 3; 4; 5; 6] [10; 0; 0; 7] (bytes "csro_010203040506") (bytes "nlight3")
      (bytes "010203040506") (bytes "10.0.0.7") 3 1 1)
    (mkMqtt [] [] [] [] [] [] [] (bytes "online") (bytes "10.0.0.1") (bytes "aabbccddeeff") 5 true)
    [mkSwitch 0 1 1 1553890000 2 1553880000; mkSwitch 1 0 0 0 1 1553800000; mkSwitch 2 0 0 0 0 0]
    false false false (mkTimer 500 500) true 0 0 [].

Lemma demo_ok : app_ok demo_world.
Proof.
  constructor; try done; try by vm_compute.
  intros i ch Hi. destruct i as [|[|[|i]]]; [injection Hi as <-..|done]; split; cbn; auto.
Qed.

End System.
