(* ===== verification/Nlight.v ===== *)
(** The light switch: [app/components/device/csro_nlight.c] and the I/O
    expander of [app/components/driver/aw9523b.c], in the configuration built
    ([NLIGHT] is 3). *)
From S2P Require Import Prelude Nvs Datetime Cjson Misc World System.

Module Nlight.
Import Cjson Cstring Misc World System.

Section Nlight.
Context {st : Type} {D : Type} `{Double D}.

Definition get_channel (i : Z) : M (world st) csro_switch := let! l := get channel in lift (rd l i).
Definition put_channel (i : Z) (ch : csro_switch) : M (world st) unit :=
  let! l := get channel in
  let! l := lift (wr l i ch) in
  modify (set_channel l).

(** [nlight_channel_set(&channel[i], value, source)]; both arguments are
    [uint8_t]. *)
Definition nlight_channel_set (i value source : Z) : M (world st) unit :=
  let value := u8 value in
  let source := u8 source in
  let! ch := get_channel i in
  if (NLIGHT <? index ch + 1) || (2 <? value) then ret tt else
  let value := if value =? 2 then (if state_ ch =? 0 then 1 else 0) else value in
  let ch := set_state_ value ch in
  let! now := get time_now_of in
  put_channel i (if state_ ch =? 1 then set_on_tim (u32 now) (set_on_source source ch)
                 else set_off_tim now (set_off_source source ch)) ;;;
  csro_mqtt_msg_trigger_status.

(** The object is filled and then added; the code adds it first and fills it
    through the pointer. *)
Definition nlight_add_channel_json (target : cJSON D) (ch : csro_switch) : option (cJSON D) :=
  let key := bytes "channel" ++ sprintf_ld (index ch + 1) in
  if fits_in 20 key then
    let channel_json := cJSON_CreateObject in
    let channel_json := cJSON_AddStringToObject channel_json (bytes "state") (if state_ ch =? 1 then bytes "on" else bytes "off") in
    let channel_json := cJSON_AddNumberToObject channel_json (bytes "onsource") (d_of_Z (on_source ch)) in
    let channel_json := cJSON_AddNumberToObject channel_json (bytes "ontim") (d_of_Z (on_tim ch)) in
    let channel_json := cJSON_AddNumberToObject channel_json (bytes "offsource") (d_of_Z (off_source ch)) in
    let channel_json := cJSON_AddNumberToObject channel_json (bytes "offtim") (d_of_Z (off_tim ch)) in
    Some (cJSON_AddItemToObject target key channel_json)
  else None.

(** [if (NLIGHT >= k) nlight_add_channel_json(basic_json, .., &channel[k-1])]. *)
Definition add_channel (k : Z) (basic_json : cJSON D) : M (world st) (cJSON D) :=
  if k <=? NLIGHT then
    let! ch := get_channel (k - 1) in lift (nlight_add_channel_json basic_json ch)
  else ret basic_json.
Definition csro_nlight_prepare_status_message : M (world st) unit :=
  let basic_json := cJSON_CreateObject in
  let! basic_json := add_channel 1 basic_json in
  let! basic_json := add_channel 2 basic_json in
  let! basic_json := add_channel 3 basic_json in
  print_content basic_json.

(** One of the blocks of [csro_nlight_handle_self_message]: [value] and
    [valid] afterwards. *)
Definition self_channel (k : Z) (msg : list Z) (value : Z) (valid : bool) : M (world st) (Z * bool) :=
  if k <=? NLIGHT then
    let! (found, value) := lift (csro_system_parse_level1_json_number msg value (bytes "channel" ++ sprintf_ld k)) in
    if found then (nlight_channel_set (k - 1) value 1 ;;; ret (value, true)) else ret (value, valid)
  else ret (value, valid).
Definition csro_nlight_handle_self_message (data : message) : M (world st) unit :=
  let! (value, valid) := self_channel 1 (payload data) 0 false in
  let! (value, valid) := self_channel 2 (payload data) value valid in
  let! (value, valid) := self_channel 3 (payload data) value valid in
  when valid csro_mqtt_msg_trigger_status.

(** One of the branches of [csro_nlight_handle_hass_message]. *)
Definition hass_channel (i : Z) (payload_ : list Z) : M (world st) bool :=
  let! s := lift (c_string payload_) in
  if bool_decide (s = bytes "on") then (nlight_channel_set i 1 2 ;;; ret true)
  else if bool_decide (s = bytes "off") then (nlight_channel_set i 0 2 ;;; ret true)
  else ret false.
(** [sub_topic] and [payload_] start with what the stack holds. The payload is
    read as a string when it is printed. *)
Definition csro_nlight_handle_hass_message (sub_topic payload_ : list Z) (data : message) : M (world st) unit :=
  let! payload_ := lift (strncpy payload_ (payload data) (payloadlen data)) in
  let! sub_topic := lift (csro_systen_get_hass_message_sub_topic data sub_topic) in
  let! is_channel1 := lift (strcmp_eq sub_topic (bytes "channel1")) in
  let! valid :=
    (if is_channel1 then hass_channel 0 payload_ else
     let! is_channel2 := lift (strcmp_eq sub_topic (bytes "channel2")) in
     if is_channel2 then hass_channel 1 payload_ else
     let! is_channel3 := lift (strcmp_eq sub_topic (bytes "channel3")) in
     if is_channel3 then hass_channel 2 payload_ else ret false) in
  when valid csro_mqtt_msg_trigger_status.

(** *** The expander *)

Definition i2c_master_aw9523b_write (reg_address value : Z) : M (world st) unit := emit_effect (I2c_write reg_address value).
Definition i2c_master_aw9523b_read (reg_address : Z) : M (world st) unit := emit_effect (I2c_read reg_address).
Fixpoint write_all (regs : list Z) (value : Z) : M (world st) unit :=
  match regs with [] => ret tt | r :: regs => i2c_master_aw9523b_write r value ;;; write_all regs value end.
Definition csro_aw9523b_init : M (world st) unit := i2c_master_aw9523b_write 0x13 0x00.
Definition csro_aw9523b_test : M (world st) unit :=
  i2c_master_aw9523b_read 0x23 ;;;
  i2c_master_aw9523b_read 0x13 ;;;
  modify (λ w, set_chip_count (Z.rem (chip_count w + 1) 6) w) ;;;
  let! count := get chip_count in
  let regs := [0x20; 0x21; 0x22; 0x23; 0x2C; 0x2D; 0x2E; 0x2F] in
  if count =? 0 then write_all regs 32
  else if count =? 3 then write_all regs 0 else ret tt.
Definition key_timer_callback : M (world st) unit := csro_aw9523b_test.

Definition csro_nlight_init : M (world st) unit :=
  for_proc 0 (Z.to_nat NLIGHT) (λ i, let! ch := get_channel i in put_channel i (set_index i ch)) ;;;
  csro_aw9523b_init.

(** ** The channels in the invariant of the application *)
Section Ok.
Context `{Nvs st}.

Lemma get_channel_run w i ch w' : get_channel i w = Some (ch, w') →
  w' = w ∧ 0 <= i ∧ channel w !! Z.to_nat i = Some ch.
Proof.
  intros (l & w1 & [= <- <-] & Hr)%bind_Some_inv. unfold lift in Hr. destruct (rd (channel w) i) as [c|] eqn:E; [|done].
  injection Hr as <- <-. unfold rd in E. destruct (Z.ltb_spec i 0); [done|]. done.
Qed.

Lemma put_channel_run w i ch u w' : put_channel i ch w = Some (u, w') →
  0 <= i < Z.of_nat (length (channel w)) ∧ w' = set_channel (<[Z.to_nat i := ch]> (channel w)) w.
Proof.
  intros (l & w1 & [= <- <-] & (l' & w2 & Hr & [= <- <-])%bind_Some_inv)%bind_Some_inv. unfold lift in Hr.
  destruct (wr (channel w) i ch) as [l1|] eqn:E; [|done]. injection Hr as <- <-. apply wr_inv in E as (? & -> & _). done.
Qed.

Lemma ok_put_channel w i ch u w' : app_ok w → put_channel i ch w = Some (u, w') → light_ok (Z.to_nat i) ch → app_ok w'.
Proof.
  intros Hw (Hi & ->)%put_channel_run Hch. pose proof (ok_lights w Hw) as Hls. destruct Hw. constructor; cbn; try done.
  - by rewrite length_insert.
  - intros j c [(<- & <- & _)|(Hne & Hl)]%list_lookup_insert_Some; [done|by apply Hls].
Qed.

(** What a channel becomes. *)
Definition switched (value source now : Z) (ch : csro_switch) : csro_switch :=
  let value := if value =? 2 then (if state_ ch =? 0 then 1 else 0) else value in
  let ch := set_state_ value ch in
  if state_ ch =? 1 then set_on_tim (u32 now) (set_on_source source ch) else set_off_tim now (set_off_source source ch).

Lemma switched_ok i value source now ch : 0 <= value <= 2 → light_ok i ch → light_ok i (switched value source now ch).
Proof.
  intros Hv [Hi Hs]. unfold switched, light_ok. destruct (Z.eqb_spec value 2).
  - destruct (state_ ch =? 0); cbn; auto.
  - destruct (state_ (set_state_ value ch) =? 1); cbn; split; (done || lia).
Qed.

Lemma ok_channel_set i value source : keeps app_ok (nlight_channel_set i value source).
Proof.
  unfold nlight_channel_set. cbv zeta. intros w u w' Hw (ch & w1 & (-> & Hi & Hl)%get_channel_run & Hr)%bind_Some_inv.
  destruct ((NLIGHT <? index ch + 1) || (2 <? u8 value)) eqn:Ev; [by injection Hr as <- <-|].
  apply orb_false_iff in Ev as [_ Hv]. apply Z.ltb_ge in Hv. pose proof (u8_range value) as Hu. unfold in_u8 in Hu.
  apply bind_Some_inv in Hr as (now & w2 & [= <- <-] & (u1 & w3 & Hp & Ht)%bind_Some_inv).
  eapply ok_trigger_status, Ht. eapply ok_put_channel; [exact Hw|exact Hp|].
  apply (switched_ok (Z.to_nat i) (u8 value) (u8 source) (time_now_of w) ch); [lia|]. by apply (ok_lights w Hw).
Qed.

Lemma get_channel_at i ch w : channel w !! Z.to_nat i = Some ch → 0 <= i → get_channel i w = Some (ch, w).
Proof.
  intros Hl Hi. unfold get_channel. rewrite (bind_run (get channel) _ w (channel w) w) by done. apply lift_run.
  unfold rd. by destruct (Z.ltb_spec i 0); [lia|].
Qed.

(** The status message is due, and its timer starts again. *)
Definition triggered (w : world st) : world st :=
  set_status_timer (mkTimer (period (status_timer w)) (period (status_timer w))) (set_status_msg true w).

(** A light of the running device is set. *)
Lemma channel_set_run i value source w ch : app_ok w → channel w !! i = Some ch → (i < 3)%nat → in_u8 source → (2 <? u8 value) = false →
  nlight_channel_set (Z.of_nat i) value source w =
    Some (tt, triggered (set_channel (<[i := switched (u8 value) source (time_now_of w) ch]> (channel w)) w)).
Proof.
  intros Hw Hch Hi Hsrc Hv. pose proof (ok_lights w Hw i ch Hch) as [Hidx _]. unfold nlight_channel_set.
  assert (Hch' : channel w !! Z.to_nat (Z.of_nat i) = Some ch) by (by rewrite Nat2Z.id).
  rewrite (bind_run _ _ _ _ _ (get_channel_at _ _ _ Hch' ltac:(lia))), Hv.
  destruct (Z.ltb_spec NLIGHT (index ch + 1)) as [Hlt|_]; [unfold NLIGHT in Hlt; lia|]. cbn [orb].
  rewrite (bind_run (get time_now_of) _ w (time_now_of w) w) by done. rewrite (u8_id source Hsrc).
  fold (switched (u8 value) source (time_now_of w) ch). set (ch' := switched _ _ _ ch).
  assert (Hput : put_channel (Z.of_nat i) ch' w = Some (tt, set_channel (<[i := ch']> (channel w)) w)).
  { unfold put_channel. rewrite (bind_run (get channel) _ w (channel w) w) by done.
    assert (Hwr : wr (channel w) (Z.of_nat i) ch' = Some (<[i := ch']> (channel w))).
    { rewrite wr_Some, Nat2Z.id; [done|]. rewrite (ok_count w Hw). lia. }
    by rewrite (bind_run _ _ _ _ _ (lift_run _ _ _ Hwr)). }
  unfold ch', switched in Hput |- *. cbv zeta in Hput |- *. by rewrite (bind_run _ _ _ _ _ Hput).
Qed.

#[local] Hint Resolve ok_channel_set ok_trigger_status : keeps.

Lemma ok_nlight_status : keeps app_ok csro_nlight_prepare_status_message.
Proof. unfold csro_nlight_prepare_status_message, add_channel, get_channel. keep. apply ok_print_content. Qed.

Lemma ok_nlight_self data : keeps app_ok (csro_nlight_handle_self_message data).
Proof. unfold csro_nlight_handle_self_message, self_channel. keep. Qed.

Lemma ok_nlight_hass sub_topic payload_ data : keeps app_ok (csro_nlight_handle_hass_message sub_topic payload_ data).
Proof. unfold csro_nlight_handle_hass_message, hass_channel. keep. Qed.

Lemma ok_key_timer : keeps app_ok key_timer_callback.
Proof.
  assert (Hw : ∀ regs v, keeps app_ok (write_all regs v)).
  { intros regs v. induction regs as [|r regs IH]; cbn [write_all]; keep; apply ok_emit. }
  unfold key_timer_callback, csro_aw9523b_test. keep; try apply Hw; try apply ok_emit.
  apply keeps_modify. intros w []. by constructor.
Qed.
End Ok.

(** ** The status message *)
Section Status.
Context `{Nvs st} `{!DoubleLaws D}.

Definition light_json (ch : csro_switch) : json :=
  JObject [(bytes "state", JString (if state_ ch =? 1 then bytes "on" else bytes "off"));
           (bytes "onsource", JNumber (on_source ch)); (bytes "ontim", JNumber (on_tim ch));
           (bytes "offsource", JNumber (off_source ch)); (bytes "offtim", JNumber (off_tim ch))].
Definition status_json (l : list csro_switch) : json :=
  JObject ((λ ch, (bytes "channel" ++ sprintf_ld (index ch + 1), light_json ch)) <$> l).

(** The members of a channel are integers of an [int]; the times are, until
    2038. *)
Definition light_ints (ch : csro_switch) : Prop :=
  is_int (on_source ch) ∧ is_int (on_tim ch) ∧ is_int (off_source ch) ∧ is_int (off_tim ch).

Lemma bytes_cstr s : forallb (λ x, (0 <? x) && (x <? 256)) (bytes s) = true → is_cstr (bytes s).
Proof.
  intros Hs. unfold is_cstr. rewrite forallb_forall in Hs. rewrite Forall_forall. setoid_rewrite list_elem_of_In.
  intros x Hx. specialize (Hs x Hx). lia.
Qed.

Lemma light_json_ok ch : light_ints ch → json_ok (light_json ch).
Proof.
  intros (? & ? & ? & ?). cbn [light_json json_ok foldr fst snd]. split_and!; try done; try (by apply bytes_cstr).
  destruct (state_ ch =? 1); by apply bytes_cstr.
Qed.

Lemma add_channel_tree l ch i : light_ok i ch → (i < 3)%nat → light_ints ch →
  nlight_add_channel_json (tree None (JObject l)) ch =
    Some (tree None (JObject (l ++ [(bytes "channel" ++ sprintf_ld (index ch + 1), light_json ch)]))).
Proof.
  intros [Hi _] Hlt (? & ? & ? & ?). unfold nlight_add_channel_json.
  replace (fits_in 20 (bytes "channel" ++ sprintf_ld (index ch + 1))) with true
    by (rewrite Hi; destruct i as [|[|[|i]]]; [done|done|done|lia]).
  rewrite create_object_tree, add_string_tree. cbn [app].
  do 4 (rewrite add_number_tree by done; cbn [app]). by rewrite add_item_tree.
Qed.

Lemma light_json_length d ch : light_ints ch → zlen (render false d (light_json ch)) <= 150.
Proof.
  intros _. unfold light_json. rewrite object_length by done. cbn [total fst snd render].
  pose proof (sprintf_ld_length (on_source ch)). pose proof (sprintf_ld_length (on_tim ch)).
  pose proof (sprintf_ld_length (off_source ch)). pose proof (sprintf_ld_length (off_tim ch)).
  assert (zlen (quoted (if state_ ch =? 1 then bytes "on" else bytes "off")) <= 5) by (by destruct (state_ ch =? 1)).
  change (zlen (quoted (bytes "state"))) with 7. change (zlen (quoted (bytes "onsource"))) with 10.
  change (zlen (quoted (bytes "ontim"))) with 7. change (zlen (quoted (bytes "offsource"))) with 11.
  change (zlen (quoted (bytes "offtim"))) with 8. unfold zlen in *. lia.
Qed.

(** The three lights of the application. *)
Lemma three_lights w : app_ok w → ∃ a b c, channel w = [a; b; c] ∧ light_ok 0 a ∧ light_ok 1 b ∧ light_ok 2 c.
Proof.
  intros Hw. pose proof (ok_lights w Hw) as Hl. pose proof (ok_count w Hw) as Hn.
  destruct (channel w) as [|a [|b [|c [|]]]]; try done. exists a, b, c. split; [done|].
  split_and!; [by apply (Hl 0%nat)|by apply (Hl 1%nat)|by apply (Hl 2%nat)].
Qed.

Lemma status_message_run w : app_ok w → Forall light_ints (channel w) →
  csro_nlight_prepare_status_message w = Some (tt, set_mqtt (set_content_ (render false 0 (status_json (channel w))) (mqtt w)) w) ∧
  json_ok (status_json (channel w)) ∧ fits_in MQTT_BUFFER_LENGTH (render false 0 (status_json (channel w))) = true.
Proof.
  intros Hw Hints. destruct (three_lights w Hw) as (a & b & c & E & Ha & Hb & Hc). rewrite E in Hints |- *.
  apply Forall_cons in Hints as [Ia Hints]. apply Forall_cons in Hints as [Ib Hints]. apply Forall_cons in Hints as [Ic _].
  assert (Hok : json_ok (status_json [a; b; c])).
  { cbn [status_json fmap list_fmap json_ok foldr fst snd]. pose proof (proj1 Ha). pose proof (proj1 Hb). pose proof (proj1 Hc).
    replace (index a) with 0 by lia. replace (index b) with 1 by lia. replace (index c) with 2 by lia.
    split_and!; try done; try (by apply light_json_ok); by apply (bool_decide_unpack _); vm_compute. }
  assert (Hfit : fits_in MQTT_BUFFER_LENGTH (render false 0 (status_json [a; b; c])) = true).
  { unfold fits_in. apply Z.ltb_lt. fold (zlen (render false 0 (status_json [a; b; c]))). unfold status_json.
    rewrite object_length by done. cbn [fmap list_fmap total fst snd].
    pose proof (light_json_length (0 + 1) a Ia). pose proof (light_json_length (0 + 1) b Ib). pose proof (light_json_length (0 + 1) c Ic).
    pose proof (proj1 Ha). pose proof (proj1 Hb). pose proof (proj1 Hc).
    replace (index a) with 0 by lia. replace (index b) with 1 by lia. replace (index c) with 2 by lia.
    change (zlen (quoted (bytes "channel" ++ sprintf_ld (0 + 1)))) with 10.
    change (zlen (quoted (bytes "channel" ++ sprintf_ld (1 + 1)))) with 10.
    change (zlen (quoted (bytes "channel" ++ sprintf_ld (2 + 1)))) with 10.
    unfold MQTT_BUFFER_LENGTH. lia. }
  split; [|done]. unfold csro_nlight_prepare_status_message, add_channel.
  change (1 <=? NLIGHT) with true. change (2 <=? NLIGHT) with true. change (3 <=? NLIGHT) with true. cbv iota.
  assert (Hadd : ∀ k ch j l, channel w !! Z.to_nat (k - 1) = Some ch → 0 <= k - 1 → light_ok (Z.to_nat (k - 1)) ch → (Z.to_nat (k - 1) < 3)%nat →
    light_ints ch → j = tree None (JObject l) →
    (let! ch := get_channel (k - 1) in lift (nlight_add_channel_json j ch)) w =
      Some (tree None (JObject (l ++ [(bytes "channel" ++ sprintf_ld (index ch + 1), light_json ch)])), w)).
  { intros k ch j l Hk H0' Hok' Hlt Hi ->. rewrite (bind_run _ _ _ _ _ (get_channel_at _ _ _ Hk H0')).
    by apply lift_run, (add_channel_tree _ _ (Z.to_nat (k - 1))). }
  rewrite (bind_run _ _ _ _ _ (Hadd 1 a _ [] ltac:(by rewrite E) ltac:(lia) Ha ltac:(cbn; lia) Ia create_object_tree)).
  rewrite (bind_run _ _ _ _ _ (Hadd 2 b _ _ ltac:(by rewrite E) ltac:(lia) Hb ltac:(cbn; lia) Ib eq_refl)).
  rewrite (bind_run _ _ _ _ _ (Hadd 3 c _ _ ltac:(by rewrite E) ltac:(lia) Hc ltac:(cbn; lia) Ic eq_refl)).
  change (tree None (JObject _)) with (tree None (status_json [a; b; c])).
  rewrite print_content_run by done. unfold copy_to. by rewrite Hfit.
Qed.

(** In every state of the running application whose times are those before
    2038, the status message is built without a fault, fits the 1000 bytes of
    [mqtt.content], changes nothing else, and reads back as exactly the three
    channels with their states, sources and times. *)
Theorem status_message_roundtrip w : app_ok w → Forall light_ints (channel w) →
  ∃ text, csro_nlight_prepare_status_message w = Some (tt, set_mqtt (set_content_ text (mqtt w)) w) ∧
    Z.of_nat (length text) < MQTT_BUFFER_LENGTH ∧
    cJSON_Parse text = Some (Some (tree None (status_json (channel w)))).
Proof.
  intros Hw Hi. destruct (status_message_run w Hw Hi) as (Hr & Hok & Hf). eexists. split; [exact Hr|].
  split; [by apply Z.ltb_lt|]. apply parse_rendered; [done|].
  unfold status_json. destruct (three_lights w Hw) as (a & b & c & -> & _). by vm_compute.
Qed.
End Status.

(** ** Messages from the home assistant *)
Section Hass.
Context `{Nvs st}.

(** The channel a level names. *)
Definition named_channel (l : list Z) : option nat :=
  if bool_decide (l = bytes "channel1") then Some 0%nat else if bool_decide (l = bytes "channel2") then Some 1%nat
  else if bool_decide (l = bytes "channel3") then Some 2%nat else None.
Definition named_state (s : list Z) : option Z :=
  if bool_decide (s = bytes "on") then Some 1 else if bool_decide (s = bytes "off") then Some 0 else None.
(** A light after a message: set, with source 2, and reported. *)
Definition light_set_to (i : nat) (v : Z) (w : world st) : world st :=
  triggered (set_channel (alter (switched v 2 (time_now_of w)) i (channel w)) w).

Lemma alter_at {A} (f : A → A) (l : list A) (i : nat) x : l !! i = Some x → alter f i l = <[i := f x]> l.
Proof.
  revert i. induction l as [|y l IH]; intros [|i]; cbn; try done; [by intros [= ->]|]. intros Hl. f_equal. by apply IH.
Qed.

Lemma bind_ext {A B} (m m' : M (world st) A) (k : A → M (world st) B) w : m w = m' w → bind m k w = bind m' k w.
Proof. unfold bind. by intros ->. Qed.

Lemma hass_channel_run i payload_ s w : app_ok w → (i < 3)%nat → c_string payload_ = Some s →
  (let! valid := hass_channel (Z.of_nat i) payload_ in when valid csro_mqtt_msg_trigger_status) w =
    Some (tt, match named_state s with Some v => light_set_to i v w | None => w end).
Proof.
  intros Hw Hi Hs. destruct (lookup_lt_is_Some_2 (channel w) i) as [ch Hch]; [by rewrite (ok_count w Hw)|].
  assert (Hset : ∀ v, (v = 0 ∨ v = 1) → nlight_channel_set (Z.of_nat i) v 2 w = Some (tt, light_set_to i v w)).
  { intros v Hv. rewrite (channel_set_run i v 2 w ch) by (try done; destruct Hv as [-> | ->]; done).
    unfold light_set_to. rewrite (alter_at _ _ _ ch) by done. destruct Hv as [-> | ->]; done. }
  unfold hass_channel, named_state. unfold bind at 1 2. rewrite (lift_run _ _ _ Hs).
  case_bool_decide; [|case_bool_decide].
  - by rewrite (bind_run _ _ _ _ _ (Hset 1 ltac:(by right))).
  - by rewrite (bind_run _ _ _ _ _ (Hset 0 ltac:(by left))).
  - done.
Qed.

Lemma c_string_prefix p m : is_cstr p → c_string (p ++ m) = (p ++.) <$> c_string m.
Proof. induction 1 as [|c p Hc Hp IH]; cbn; [by destruct (c_string m)|]. destruct (Z.eqb_spec c 0); [lia|]. rewrite IH. by destruct (c_string m). Qed.

(** C24: A message from the home assistant on any topic with a level and with
    any payload: the light its last level names is set to what the payload
    says, reported as switched by source 2, and nothing else changes; other
    names and payloads do nothing. The payload that counts is not the one of
    the message: the array it is copied to is never terminated, so what the
    stack holds after it, up to the first NUL, belongs to it; "on" is
    understood only where a NUL happens to follow. A payload of more than 200
    bytes, a topic of 200 or a level of 50 is a write past an array, and a
    stack without a NUL a read past one. *)
Theorem hass_message t rest p after sub stack w : is_cstr t → levels t [] ≠ [] → is_cstr p → length sub = 50%nat → length stack = 200%nat →
  app_ok w →
  csro_nlight_handle_hass_message sub stack (mkMessage (t ++ rest) (Z.of_nat (length t)) (p ++ after) (Z.of_nat (length p))) w =
    if (Z.of_nat (length p) <=? 200) && ((Z.of_nat (length t) <? 200) && forallb level_fits (levels t [])) then
      match l ← last (levels t []); named_channel l with
      | Some i =>
          match c_string (drop (length p) stack) with
          | Some garbage => Some (tt, match named_state (p ++ garbage) with Some v => light_set_to i v w | None => w end)
          | None => None
          end
      | None => Some (tt, w)
      end
    else None.
Proof.
  intros Ht Hne Hp Hsub Hstack Hw. unfold csro_nlight_handle_hass_message. cbn [payload payloadlen].
  assert (Hcpy : strncpy stack (p ++ after) (Z.of_nat (length p)) =
    if Z.of_nat (length p) <=? 200 then Some (p ++ drop (length p) stack) else None).
  { unfold strncpy. rewrite Nat2Z.id, (strncpy_run p after _ Hp eq_refl). cbn [mbind option_bind]. by rewrite Hstack. }
  rewrite Hcpy. destruct (Z.of_nat (length p) <=? 200); cbn [andb]; [|done].
  rewrite (bind_run _ _ _ _ _ (lift_run _ _ _ eq_refl)).
  destruct (last (levels t [])) as [l|] eqn:El; [|by apply last_None in El]. cbn [mbind option_bind].
  pose proof (sub_topic_run t rest sub l (p ++ after) (Z.of_nat (length p)) Ht Hsub El) as Htop.
  destruct (last_level_cstr t l Ht El) as [Hc Hfit].
  destruct ((Z.of_nat (length t) <? 200) && forallb level_fits (levels t [])) eqn:Ef; [|unfold lift at 1; by rewrite Htop].
  rewrite (bind_run _ _ _ _ _ (lift_run _ _ _ Htop)). apply andb_true_iff in Ef as [_ Ef].
  pose proof (padded_string l (Hfit Ef) Hc) as Hs.
  assert (Hcmp : ∀ k, is_cstr (bytes k) → strcmp_eq (padded l) (bytes k) = Some (bool_decide (l = bytes k))) by (intros k; by apply strcmp_eq_string).
  pose proof (c_string_prefix p (drop (length p) stack) Hp) as Hg.
  rewrite (bind_run _ _ _ _ _ (lift_run _ _ _ (Hcmp "channel1" ltac:(by apply bytes_cstr)))).
  set (payload_ := p ++ drop (length p) stack) in *.
  rewrite (bind_ext _ (match named_channel l with Some i => hass_channel (Z.of_nat i) payload_ | None => ret false end) _ w).
  2: { unfold named_channel. case_bool_decide; [done|].
       rewrite (bind_run _ _ _ _ _ (lift_run _ _ _ (Hcmp "channel2" ltac:(by apply bytes_cstr)))). case_bool_decide; [done|].
       rewrite (bind_run _ _ _ _ _ (lift_run _ _ _ (Hcmp "channel3" ltac:(by apply bytes_cstr)))). by case_bool_decide. }
  assert (Hi : ∀ i, named_channel l = Some i → (i < 3)%nat).
  { intros i. unfold named_channel. repeat case_bool_decide; intros [= <-]; lia. }
  destruct (named_channel l) as [i|]; [|done]. destruct (c_string (drop (length p) stack)) as [g|]; cbn [fmap option_fmap option_map] in Hg.
  - by apply hass_channel_run; [|apply Hi|].
  - unfold bind at 1, hass_channel. unfold bind at 1, lift at 1. by rewrite Hg.
Qed.
End Hass.

End Nlight.

Import Rational.
Lemma status_message_roundtrip_witness : ∃ text,
  csro_nlight_prepare_status_message (D := QArith_base.Q) demo_world = Some (tt, set_mqtt (set_content_ text (mqtt demo_world)) demo_world) ∧
  Z.of_nat (length text) < MQTT_BUFFER_LENGTH ∧
  cJSON_Parse text = Some (Some (tree (D := QArith_base.Q) None (status_json (channel demo_world)))).
Proof.
  apply (status_message_roundtrip demo_world demo_ok).
  repeat (apply Forall_cons; split; [unfold light_ints, is_int, INT_MIN, INT_MAX; cbn; lia|]). apply Forall_nil_2.
Defined.


(** "on" for the second light: it is set where a NUL follows on the stack, and
    not where another byte does. *)
Lemma hass_message_witness :
  let data := mkMessage (bytes "p/hass/channel2") 15 (bytes "on") 2 in
  csro_nlight_handle_hass_message (replicate 50 9) (replicate 200 0) data demo_world = Some (tt, light_set_to 1 1 demo_world) ∧
  csro_nlight_handle_hass_message (replicate 50 9) ([0; 0; 120] ++ replicate 197 0) data demo_world = Some (tt, demo_world).
Proof.
  cbv zeta. assert (Ht : is_cstr (bytes "p/hass/channel2")) by (by apply bytes_cstr). assert (Hp : is_cstr (bytes "on")) by (by apply bytes_cstr).
  split.
  - refine (eq_trans (hass_message (bytes "p/hass/channel2") [] (bytes "on") [] (replicate 50 9) (replicate 200 0) demo_world Ht _ Hp _ _ demo_ok) _); done.
  - refine (eq_trans (hass_message (bytes "p/hass/channel2") [] (bytes "on") [] (replicate 50 9) ([0; 0; 120] ++ replicate 197 0) demo_world Ht _ Hp _ _ demo_ok) _); done.
Defined.
End Nlight.
