(* ===== verification/Device.v ===== *)
(** The dispatcher of [app/components/device/csro_device.c] in the
    configuration built: messages to the device, to its group and from the
    home assistant, and the message that lists the alarms. *)
From S2P Require Import Prelude Nvs Datetime Cjson Misc World System Nlight.

Module Device.
Import Cjson Cstring Misc World System Nlight Datetime.Alarm.

Section Device.
Context {st : Type} `{Nvs st} {D : Type} `{Double D}.

Definition csro_device_prepare_status_message : M (world st) unit := csro_nlight_prepare_status_message (D := D).

(** The loop of [csro_device_prepare_timer_message]: it ends at the first
    alarm that is not valid, which is when the count is added. *)
Fixpoint add_alarms (l : list alarm_struct) (timer_count : Z) (alarm_json : cJSON D) : option (cJSON D) :=
  match l with
  | [] => Some alarm_json
  | a :: l =>
      if valid a then
        let timer_count := u8 (timer_count + 1) in
        let key := bytes "alarm" ++ sprintf_ld timer_count in
        if fits_in 20 key then
          let single := cJSON_CreateObject in
          let single := cJSON_AddNumberToObject single (bytes "weekday") (d_of_Z (weekday a)) in
          let single := cJSON_AddNumberToObject single (bytes "minutes") (d_of_Z (minutes a)) in
          let single := cJSON_AddNumberToObject single (bytes "action") (d_of_Z (Alarm.action a)) in
          add_alarms l timer_count (cJSON_AddItemToObject alarm_json key single)
        else None
      else Some (cJSON_AddNumberToObject alarm_json (bytes "count") (d_of_Z timer_count))
  end.
Definition csro_device_prepare_timer_message : M (world st) unit :=
  let! l := get alarms_of in
  let! alarm_json := lift (add_alarms (take (Z.to_nat ALARM_NUMBER) l) 0 cJSON_CreateObject) in
  print_content alarm_json.

(** [if (csro_system_parse_level1_json_number(msg, &value, name)) k(value)]:
    [value] afterwards. *)
Definition on_number {A} (msg name : list Z) (value : Z) (k : Z → M (world st) A) (other : M (world st) A) : M (world st) (Z * A) :=
  let! (found, value) := lift (csro_system_parse_level1_json_number msg value name) in
  let! a := (if found then k value else other) in ret (value, a).
Definition on_number_unit (msg name : list Z) (value : Z) (k : Z → M (world st) unit) : M (world st) Z :=
  let! (value, _) := on_number msg name value k (ret tt) in ret value.

(** The members of an object that are numbers, in order; what the code counts
    in [valid_count]. An absent one leaves its variable as it was. *)
Fixpoint level2_numbers (msg object_name : list Z) (names : list (list Z)) : option (list (option Z)) :=
  match names with
  | [] => Some []
  | name :: names =>
      '(found, value) ← csro_system_parse_level2_json_number (D := D) msg 0 object_name name;
      rest ← level2_numbers msg object_name names;
      Some ((if found : bool then Some value else None) :: rest)
  end.

(** The four commands on the alarm table: whether one was carried out. *)
Definition alarm_command (msg object_name : list Z) (names : list (list Z)) (k : list Z → M (world st) bool) (valid : bool) : M (world st) bool :=
  let! present := lift (csro_system_parse_level1_json_object msg object_name) in
  if present then
    let! values := lift (level2_numbers msg object_name names) in
    match mapM id values with
    | Some values => let! done := k values in ret (done || valid)
    | None => ret valid
    end
  else ret valid.
Definition add_command (values : list Z) : M (world st) bool :=
  match values with
  | [weekday_; minutes_; action_] => on_alarms (csro_alarm_add weekday_ minutes_ action_) ;;; ret true
  | _ => ret false
  end.
Definition modify_command (values : list Z) : M (world st) bool :=
  match values with
  | [index_; weekday_; minutes_; action_] => on_alarms (csro_alarm_modify index_ weekday_ minutes_ action_) ;;; ret true
  | _ => ret false
  end.
Definition delete_command (values : list Z) : M (world st) bool :=
  match values with
  | [index_] => on_alarms (csro_alarm_delete (u32 (index_ - 1))) ;;; ret true
  | _ => ret false
  end.
Definition clear_command (values : list Z) : M (world st) bool :=
  match values with
  | [clear_value] => if clear_value =? 1 then (on_alarms csro_alarm_clear ;;; ret true) else ret false
  | _ => ret false
  end.

Definition csro_device_handle_self_message (data : message) : MR (world st) unit :=
  let msg := payload data in
  let? value := returning (on_number_unit msg (bytes "interval") 0 csro_system_set_interval) in
  let? value := returning (on_number_unit msg (bytes "sysinfo") value (λ v, when (v =? 1) csro_mqtt_msg_trigger_system)) in
  let? value := returning (on_number_unit msg (bytes "alarminfo") value (λ v, when (v =? 1) csro_mqtt_msg_trigger_alarm)) in
  let? (_, restart) := returning (on_number msg (bytes "restart") value (λ v, ret (v =? 1)) (ret false)) in
  if restart then esp_restart else
  returning (
    let! valid_ := alarm_command msg (bytes "alarm_add") [bytes "weekday"; bytes "minutes"; bytes "action"] add_command false in
    let! valid_ := alarm_command msg (bytes "alarm_modify") [bytes "index"; bytes "weekday"; bytes "minutes"; bytes "action"] modify_command valid_ in
    let! valid_ := alarm_command msg (bytes "alarm_delete") [bytes "index"] delete_command valid_ in
    let! valid_ := alarm_command msg (bytes "alarm_clear") [bytes "value"] clear_command valid_ in
    when valid_ csro_mqtt_msg_trigger_alarm ;;;
    csro_nlight_handle_self_message data).

Definition csro_device_handle_hass_message (sub_topic payload_ : list Z) (data : message) : M (world st) unit :=
  csro_nlight_handle_hass_message sub_topic payload_ data.

Definition csro_device_handle_group_message (data : message) : M (world st) unit :=
  on_number_unit (payload data) (bytes "update") 0 (λ v, when (v =? 1) csro_mqtt_msg_trigger_status) ;;;
  ret tt.

Definition csro_device_init : M (world st) unit := csro_nlight_init.

(** ** The invariant of the application *)

Lemma ok_on_number {A} msg name value (k : Z → M (world st) A) other :
  (∀ v, keeps app_ok (k v)) → keeps app_ok other → keeps app_ok (on_number msg name value k other).
Proof. intros Hk Ho. unfold on_number. keep; auto. Qed.
Lemma ok_on_number_unit msg name value k : (∀ v, keeps app_ok (k v)) → keeps app_ok (on_number_unit msg name value k).
Proof. intros Hk. unfold on_number_unit. keep. apply ok_on_number; [done|apply keeps_ret]. Qed.

Lemma ok_alarm_command msg name names k valid : (∀ vs, keeps app_ok (k vs)) → keeps app_ok (alarm_command msg name names k valid).
Proof. intros Hk. unfold alarm_command. keep. Qed.

(** A command of the table. *)
Lemma ok_command c : keeps app_ok (on_alarms (Alarm.run c)).
Proof. apply ok_on_alarms. intros P HP. by apply run_frame. Qed.

Lemma ok_commands vs : keeps app_ok (add_command vs) ∧ keeps app_ok (modify_command vs) ∧
  keeps app_ok (delete_command vs) ∧ keeps app_ok (clear_command vs).
Proof.
  unfold add_command, modify_command, delete_command, clear_command.
  split_and!; keep; match goal with
    | |- keeps _ (on_alarms (csro_alarm_add ?a ?b ?c)) => exact (ok_command (Add a b c))
    | |- keeps _ (on_alarms (csro_alarm_modify ?i ?a ?b ?c)) => exact (ok_command (Modify i a b c))
    | |- keeps _ (on_alarms (csro_alarm_delete ?i)) => exact (ok_command (Delete i))
    | |- keeps _ (on_alarms csro_alarm_clear) => exact (ok_command Clear)
    end.
Qed.

Lemma ok_self_message data : keeps app_ok (csro_device_handle_self_message data).
Proof.
  unfold csro_device_handle_self_message. keep_r;
    try (apply ok_on_number_unit; intros; keep); try (apply ok_on_number; intros; keep);
    try (apply ok_alarm_command; intros vs; apply (ok_commands vs));
    first [apply ok_set_interval | apply ok_trigger_system | apply ok_trigger_alarm | apply ok_nlight_self].
Qed.

Lemma ok_hass_message sub_topic payload_ data : keeps app_ok (csro_device_handle_hass_message sub_topic payload_ data).
Proof. apply ok_nlight_hass. Qed.

Lemma ok_group_message data : keeps app_ok (csro_device_handle_group_message data).
Proof. unfold csro_device_handle_group_message. keep. apply ok_on_number_unit. intros. keep. apply ok_trigger_status. Qed.

Lemma ok_timer_message : keeps app_ok csro_device_prepare_timer_message.
Proof. unfold csro_device_prepare_timer_message. keep. apply ok_print_content. Qed.

(** ** What a message asks for

    The meaning of a JSON message to the device, over the value it carries. *)
Section SelfMessage.
Context `{!DoubleLaws D}.

(** The number of a member, as the handlers read it. *)
Definition number_at (name : list Z) (j : json) : option Z :=
  match member_of name j with Some (JNumber n) => Some (u32 n) | _ => None end.

Definition interval_after (j : json) (i : Z) : Z :=
  match number_at (bytes "interval") j with
  | Some v => if (2 <=? u16 v) && (u16 v <=? 120) then u16 v else i
  | None => i
  end.

(** The numbers of an object, when they are all there. *)
Definition numbers_of (object_name : list Z) (names : list (list Z)) (j : json) : option (list Z) :=
  match member_of object_name j with
  | Some (JObject l) => mapM (λ name, number_at name (JObject l)) names
  | _ => None
  end.
Definition add_of (vs : list Z) : option command := match vs with [w; m; a] => Some (Add w m a) | _ => None end.
Definition modify_of (vs : list Z) : option command := match vs with [i; w; m; a] => Some (Modify i w m a) | _ => None end.
Definition delete_of (vs : list Z) : option command := match vs with [i] => Some (Delete (u32 (i - 1))) | _ => None end.
Definition clear_of (vs : list Z) : option command := match vs with [v] => if v =? 1 then Some Clear else None | _ => None end.
(** The alarm commands, in the order they are carried out. *)
Definition commands_of (j : json) : list command :=
  omap Datatypes.id
    [vs ← numbers_of (bytes "alarm_add") [bytes "weekday"; bytes "minutes"; bytes "action"] j; add_of vs;
     vs ← numbers_of (bytes "alarm_modify") [bytes "index"; bytes "weekday"; bytes "minutes"; bytes "action"] j; modify_of vs;
     vs ← numbers_of (bytes "alarm_delete") [bytes "index"] j; delete_of vs;
     vs ← numbers_of (bytes "alarm_clear") [bytes "value"] j; clear_of vs].

(** A channel after a request for a value: 0, 1, or 2 to toggle, of which only
    the low eight bits count; other values are ignored. *)
Definition light_after (value source now : Z) (ch : csro_switch) : csro_switch :=
  if 2 <? u8 value then ch else switched (u8 value) source now ch.
Definition light_request (j : json) (i : nat) : option Z := number_at (bytes "channel" ++ sprintf_ld (Z.of_nat i + 1)) j.
Definition lights_after (j : json) (now : Z) (l : list csro_switch) : list csro_switch :=
  imap (λ i ch, match light_request j i with Some v => light_after v 1 now ch | None => ch end) l.
Definition asks_lights (j : json) : bool := existsb (λ i, bool_decide (is_Some (light_request j i))) (seq 0 3).

(** What the rest of the application sees of the state. *)
Record view := mkView { v_alarms : list entry; v_interval : Z; v_lights : list csro_switch;
                        v_system : bool; v_alarm : bool; v_status : bool }.
Record sees (w : world st) (v : view) : Prop := {
  sees_alarms : holds (v_alarms v) (Clock.tbl (clock w));
  sees_interval : interval (mqtt w) = v_interval v;
  sees_lights : channel w = v_lights v;
  sees_system : system_msg w = v_system v;
  sees_alarm : alarm_msg w = v_alarm v;
  sees_status : status_msg w = v_status v }.

(** The part of the application the message does not change. *)
Definition same_rest (w w' : world st) : Prop :=
  Clock.datetime (clock w') = Clock.datetime (clock w) ∧ sysinfo w' = sysinfo w ∧ log w' = log w ∧
  isconnected (mqtt w') = isconnected (mqtt w).

Lemma same_rest_trans w1 w2 w3 : same_rest w1 w2 → same_rest w2 w3 → same_rest w1 w3.
Proof. unfold same_rest. intros (-> & -> & -> & ->) (-> & -> & -> & ->). done. Qed.

(** [goes m a v w v']: from [w], seen as [v], [m] answers [a] in a running
    state seen as [v'], and leaves the rest alone. *)
Definition goes {A} (m : M (world st) A) (a : A) (w : world st) (v v' : view) : Prop :=
  app_ok w → sees w v → ∃ w', m w = Some (a, w') ∧ app_ok w' ∧ sees w' v' ∧ same_rest w w'.

Lemma goes_bind {A B} (m : M (world st) A) (k : A → M (world st) B) a b w v v1 v' :
  goes m a w v v1 → (∀ w1, same_rest w w1 → goes (k a) b w1 v1 v') → goes (bind m k) b w v v'.
Proof.
  intros Hm Hk Hw Hv. destruct (Hm Hw Hv) as (w1 & Hr & Hw1 & Hv1 & Hs1).
  destruct (Hk w1 Hs1 Hw1 Hv1) as (w2 & Hr2 & Hw2 & Hv2 & Hs2). exists w2.
  rewrite (bind_run _ _ _ _ _ Hr). split_and!; try done. by eapply same_rest_trans.
Qed.
Lemma goes_ret {A} (a : A) w v : goes (ret a) a w v v.
Proof. intros Hw Hv. by exists w. Qed.
Lemma goes_keeps {A} (m : M (world st) A) a w v v' : keeps app_ok m →
  (app_ok w → sees w v → ∃ w', m w = Some (a, w') ∧ sees w' v' ∧ same_rest w w') → goes m a w v v'.
Proof. intros Hk Hm Hw Hv. destruct (Hm Hw Hv) as (w' & Hr & Hv' & Hs). exists w'. split_and!; try done. by eapply Hk, Hr. Qed.

Lemma goes_set_interval x w v :
  goes (csro_system_set_interval x) tt w v
    (mkView (v_alarms v) (if (2 <=? u16 x) && (u16 x <=? 120) then u16 x else v_interval v) (v_lights v)
       (v_system v) (v_alarm v) (v_status v)).
Proof.
  apply goes_keeps; [apply ok_set_interval|]. intros _ []. unfold csro_system_set_interval.
  destruct ((2 <=? u16 x) && (u16 x <=? 120)); cbn [when]; eexists; (split; [done|]); split; try done.
  constructor; try done. destruct sees_alarms0 as [Hr [Hn Hst]]. split; [done|]. split; cbn.
  - unfold nvs_read. by rewrite nvs_get_set_ne.
  - intros i e Hi. rewrite nvs_get_set_ne by done. by apply Hst.
Qed.

Lemma goes_trigger_system w v :
  goes csro_mqtt_msg_trigger_system tt w v (mkView (v_alarms v) (v_interval v) (v_lights v) true (v_alarm v) (v_status v)).
Proof. apply goes_keeps; [apply ok_trigger_system|]. intros _ []. by eexists. Qed.
Lemma goes_trigger_alarm w v :
  goes csro_mqtt_msg_trigger_alarm tt w v (mkView (v_alarms v) (v_interval v) (v_lights v) (v_system v) true (v_status v)).
Proof. apply goes_keeps; [apply ok_trigger_alarm|]. intros _ []. by eexists. Qed.
Lemma goes_trigger_status w v :
  goes csro_mqtt_msg_trigger_status tt w v (mkView (v_alarms v) (v_interval v) (v_lights v) (v_system v) (v_alarm v) true).
Proof. apply goes_keeps; [apply ok_trigger_status|]. intros _ []. by eexists. Qed.

(** A command of the alarm table, by its refinement. *)
Lemma goes_command c w v :
  goes (on_alarms (Alarm.run c)) tt w v
    (mkView (spec c (v_alarms v)) (v_interval v) (v_lights v) (v_system v) (v_alarm v) (v_status v)).
Proof.
  apply goes_keeps; [apply ok_command|]. intros _ []. destruct (run_run _ _ c sees_alarms0) as (t & Hr & Hh).
  exists (set_clock (set_table t (clock w)) w). split; [|by split].
  unfold on_alarms, on_clock. apply zoom_run. by apply (zoom_run Clock.tbl set_table).
Qed.

(** A light of a running device, by its number. *)
Lemma goes_channel_set i value source w v : (i < 3)%nat → in_u8 source →
  goes (nlight_channel_set (Z.of_nat i) value source) tt w v
    (mkView (v_alarms v) (v_interval v) (alter (light_after value source (time_now_of w)) i (v_lights v))
       (v_system v) (v_alarm v) (v_status v || negb (2 <? u8 value))).
Proof.
  intros Hi Hsrc Hw Hv. pose proof Hv as []. destruct (lookup_lt_is_Some_2 (channel w) i) as [ch Hch]; [by rewrite (ok_count w Hw)|].
  revert Hw Hv. apply goes_keeps; [apply ok_channel_set|]. intros Hw _.
  assert (Halt : alter (light_after value source (time_now_of w)) i (channel w) =
    <[i := light_after value source (time_now_of w) ch]> (channel w)) by (by apply alter_at).
  rewrite <- sees_lights0. unfold light_after in *. destruct (2 <? u8 value) eqn:Ev.
  - exists w. split; [|split; [|by split]].
    + unfold nlight_channel_set. rewrite (bind_run _ _ _ _ _ (get_channel_at (Z.of_nat i) ch w ltac:(by rewrite Nat2Z.id) ltac:(lia))), Ev.
      by rewrite orb_true_r.
    + constructor; try done; cbn; [|by rewrite orb_false_r]. by rewrite Halt, list_insert_id.
  - rewrite (channel_set_run i value source w ch) by done. eexists. split; [done|]. split; [|by split].
    constructor; try done; cbn; try (by rewrite orb_true_r); by rewrite Halt.
Qed.

Section Message.
Context (msg : list Z) (j : json) (Hmsg : carries msg j).

Lemma level1_at name dest : csro_system_parse_level1_json_number (D := D) msg dest name =
  Some (bool_decide (is_Some (number_at name j)), default dest (number_at name j)).
Proof.
  rewrite (level1_number _ _ _ _ Hmsg). unfold number_in, number_at. by destruct (member_of name j) as [[]|].
Qed.

Lemma goes_on_number {A} name value (k : Z → M (world st) A) other a w v v' :
  match number_at name j with Some x => goes (k x) a w v v' | None => goes other a w v v' end →
  goes (on_number msg name value k other) (default value (number_at name j), a) w v v'.
Proof.
  intros Hk Hw Hv. unfold on_number. rewrite level1_at. rewrite (bind_run _ _ _ _ _ (lift_run _ _ _ eq_refl)).
  destruct (number_at name j) as [x|]; cbn [default from_option];
    [rewrite bool_decide_eq_true_2 by done|rewrite bool_decide_eq_false_2 by (by intros [? ?])];
    destruct (Hk Hw Hv) as (w' & Hr & Hrest); exists w'; by rewrite (bind_run _ _ _ _ _ Hr).
Qed.
Lemma goes_on_number_unit name value k w v v' :
  match number_at name j with Some x => goes (k x) tt w v v' | None => v' = v end →
  goes (on_number_unit msg name value k) (default value (number_at name j)) w v v'.
Proof.
  intros Hk. unfold on_number_unit. eapply goes_bind; [apply (goes_on_number name value k (ret tt) tt)|intros; apply goes_ret].
  destruct (number_at name j); [done|]. subst. apply goes_ret.
Qed.

Lemma goes_when b m w v v' : (b = true → goes m tt w v v') → (b = false → v' = v) → goes (when b m) tt w v v'.
Proof. intros Ht Hf. destruct b; cbn; [by apply Ht|]. rewrite (Hf eq_refl). apply goes_ret. Qed.

(** [if (value == 1) m]. *)
Lemma goes_flag name value m w v v' :
  (number_at name j = Some 1 → goes m tt w v v') → (number_at name j ≠ Some 1 → v' = v) →
  goes (on_number_unit msg name value (λ x, when (x =? 1) m)) (default value (number_at name j)) w v v'.
Proof.
  intros Ht Hf. apply goes_on_number_unit. destruct (number_at name j) as [x|]; [|by apply Hf].
  apply goes_when; intros Hx; [apply Z.eqb_eq in Hx; subst; by apply Ht|apply Z.eqb_neq in Hx; apply Hf; congruence].
Qed.

Lemma level2_at object_name names : level2_numbers msg object_name names =
  Some ((λ name, o ← member_of object_name j; number_at name o) <$> names).
Proof.
  induction names as [|name names IH]; [done|]. cbn [level2_numbers]. rewrite (level2_number _ _ _ _ _ Hmsg), IH.
  cbn. do 2 f_equal. destruct (member_of object_name j) as [o|]; cbn; [|done]. unfold number_at, number_in.
  by destruct (member_of name o) as [[]|].
Qed.

Lemma mapM_fmap {A B} (f : A → option B) (l : list A) : mapM Datatypes.id (f <$> l) = mapM f l.
Proof. induction l as [|x l IH]; [done|]. cbn. destruct (f x); [|done]. cbn. by rewrite IH. Qed.

(** A command of the message is carried out on the list of alarms. *)
Lemma goes_alarm_command object_name names k cmd valid_ w v :
  (∀ vs, numbers_of object_name names j = Some vs →
    match cmd vs with Some c => k vs = (on_alarms (Alarm.run c) ;;; ret true) | None => k vs = ret false end) →
  let c := vs ← numbers_of object_name names j; cmd vs in
  goes (alarm_command msg object_name names k valid_) (bool_decide (is_Some c) || valid_) w v
    (mkView (match c with Some c => spec c (v_alarms v) | None => v_alarms v end) (v_interval v) (v_lights v)
      (v_system v) (v_alarm v) (v_status v)).
Proof.
  intros Hk. cbv zeta. unfold alarm_command. rewrite (level1_object _ _ _ Hmsg).
  intros Hw Hv. rewrite (bind_run _ _ _ _ _ (lift_run _ _ _ eq_refl)). revert Hw Hv.
  unfold numbers_of in *. destruct (member_of object_name j) as [o|] eqn:Eo; cbn [is_object];
    [|destruct v; apply goes_ret].
  destruct o; try (destruct v; apply goes_ret). intros Hw Hv.
  rewrite level2_at, Eo, (bind_run _ _ _ _ _ (lift_run _ _ _ eq_refl)). cbn [mbind option_bind].
  rewrite mapM_fmap. revert Hw Hv. destruct (mapM (λ name, number_at name (JObject l)) names) as [vs|]; [|destruct v; apply goes_ret].
  specialize (Hk vs eq_refl). cbn [mbind option_bind]. destruct (cmd vs) as [c|]; rewrite Hk.
  - eapply goes_bind; [|intros; apply goes_ret]. eapply goes_bind; [apply goes_command|intros; apply goes_ret].
  - destruct v. rewrite bool_decide_eq_false_2 by (by intros [? ?]). eapply goes_bind; [apply goes_ret|intros; apply goes_ret].
Qed.

Definition set_light (now : Z) (i : nat) (l : list csro_switch) : list csro_switch :=
  match light_request j i with Some x => alter (light_after x 1 now) i l | None => l end.
Definition light_set (i : nat) : bool := match light_request j i with Some x => negb (2 <? u8 x) | None => false end.

Lemma goes_self_channel i value valid_ w v : (i < 3)%nat →
  goes (self_channel (Z.of_nat i + 1) msg value valid_)
    (default value (light_request j i), bool_decide (is_Some (light_request j i)) || valid_) w v
    (mkView (v_alarms v) (v_interval v) (set_light (time_now_of w) i (v_lights v)) (v_system v) (v_alarm v)
      (v_status v || light_set i)).
Proof.
  intros Hi. unfold self_channel. destruct (Z.leb_spec (Z.of_nat i + 1) NLIGHT) as [_|Hlt]; [|unfold NLIGHT in Hlt; lia].
  rewrite level1_at. fold (light_request j i). unfold set_light, light_set.
  intros Hw Hv. rewrite (bind_run _ _ _ _ _ (lift_run _ _ _ eq_refl)). revert Hw Hv.
  destruct (light_request j i) as [x|]; cbn [default from_option].
  - rewrite bool_decide_eq_true_2 by done. eapply goes_bind; [|intros; apply goes_ret].
    replace (Z.of_nat i + 1 - 1) with (Z.of_nat i) by lia. by apply goes_channel_set.
  - rewrite bool_decide_eq_false_2 by (by intros [? ?]). rewrite orb_false_r. destruct v. apply goes_ret.
Qed.

Lemma goes_nlight_self data w v : payload data = msg → length (v_lights v) = 3%nat →
  goes (csro_nlight_handle_self_message data) tt w v
    (mkView (v_alarms v) (v_interval v) (lights_after j (time_now_of w) (v_lights v)) (v_system v) (v_alarm v)
      (v_status v || asks_lights j)).
Proof.
  intros Hp Hlen. unfold csro_nlight_handle_self_message. rewrite Hp.
  assert (Hnow : ∀ w', same_rest w w' → time_now_of w' = time_now_of w) by (intros w' (E & _); unfold time_now_of; by rewrite E).
  eapply goes_bind; [apply (goes_self_channel 0); lia|]. intros w1 H1.
  eapply goes_bind; [apply (goes_self_channel 1); lia|]. intros w2 H2.
  eapply goes_bind; [apply (goes_self_channel 2); lia|]. intros w3 H3. cbn [v_alarms v_interval v_lights v_system v_alarm v_status].
  rewrite (Hnow w1 H1), (Hnow w2) by (by eapply same_rest_trans).
  assert (El : set_light (time_now_of w) 2 (set_light (time_now_of w) 1 (set_light (time_now_of w) 0 (v_lights v))) =
    lights_after j (time_now_of w) (v_lights v)).
  { revert Hlen. generalize (v_lights v). intros [|a [|b [|c [|]]]]; try done. intros _. unfold set_light, lights_after.
    change (imap ?f [a; b; c]) with [f 0%nat a; f 1%nat b; f 2%nat c]. cbv beta.
    by destruct (light_request j 0), (light_request j 1), (light_request j 2). }
  rewrite El. unfold light_set. assert (Hasks : ∀ i, (i < 3)%nat → is_Some (light_request j i) → asks_lights j = true).
  { intros i Hi Hs. apply existsb_exists. exists i. split; [apply in_seq; lia|]. by apply bool_decide_eq_true_2. }
  apply goes_when; cbn [v_alarms v_interval v_lights v_system v_alarm v_status]; intros Hb.
  - assert (asks_lights j = true) as ->.
    { repeat rewrite orb_true_iff in Hb. destruct Hb as [Hb|[Hb|[Hb|Hb]]]; [apply (Hasks 2%nat)|apply (Hasks 1%nat)|apply (Hasks 0%nat)|done];
        first [lia|by apply bool_decide_eq_true_1 in Hb]. }
    rewrite orb_true_r. apply goes_trigger_status.
  - repeat rewrite orb_false_iff in Hb. destruct Hb as (Hb2 & Hb1 & Hb0 & _).
    unfold asks_lights. cbn [seq existsb]. rewrite Hb0, Hb1, Hb2.
    destruct (light_request j 0), (light_request j 1), (light_request j 2); try done. by rewrite !orb_false_r.
Qed.
End Message.

(** The four alarm commands and the lights. *)
Lemma goes_commands data j w v : carries (payload data) j → length (v_lights v) = 3%nat →
  goes (let msg := payload data in
    let! valid_ := alarm_command msg (bytes "alarm_add") [bytes "weekday"; bytes "minutes"; bytes "action"] add_command false in
    let! valid_ := alarm_command msg (bytes "alarm_modify") [bytes "index"; bytes "weekday"; bytes "minutes"; bytes "action"] modify_command valid_ in
    let! valid_ := alarm_command msg (bytes "alarm_delete") [bytes "index"] delete_command valid_ in
    let! valid_ := alarm_command msg (bytes "alarm_clear") [bytes "value"] clear_command valid_ in
    when valid_ csro_mqtt_msg_trigger_alarm ;;;
    csro_nlight_handle_self_message data) tt w v
    (mkView (foldl (λ xs c, spec c xs) (v_alarms v) (commands_of j)) (v_interval v)
      (lights_after j (time_now_of w) (v_lights v)) (v_system v) (v_alarm v || bool_decide (commands_of j ≠ []))
      (v_status v || asks_lights j)).
Proof.
  intros Hmsg Hlen. cbv zeta.
  assert (Hnow : ∀ w', same_rest w w' → time_now_of w' = time_now_of w) by (intros w' (E & _); unfold time_now_of; by rewrite E).
  eapply goes_bind; [apply (goes_alarm_command _ j Hmsg _ _ _ add_of)|intros w1 H1].
  { intros vs _. by destruct vs as [|? [|? [|? [|]]]]. }
  eapply goes_bind; [apply (goes_alarm_command _ j Hmsg _ _ _ modify_of)|intros w2 H2].
  { intros vs _. by destruct vs as [|? [|? [|? [|? [|]]]]]. }
  eapply goes_bind; [apply (goes_alarm_command _ j Hmsg _ _ _ delete_of)|intros w3 H3].
  { intros vs _. by destruct vs as [|? [|]]. }
  eapply goes_bind; [apply (goes_alarm_command _ j Hmsg _ _ _ clear_of)|intros w4 H4].
  { intros vs _. destruct vs as [|x [|]]; try done. cbn. by destruct (x =? 1). }
  cbn [v_alarms v_interval v_lights v_system v_alarm v_status].
  assert (Hs4 : same_rest w w4) by (repeat (eapply same_rest_trans; [done|]); done).
  unfold commands_of. cbn [omap list_omap].
  set (c1 := vs ← numbers_of (bytes "alarm_add") _ j; add_of vs). set (c2 := vs ← numbers_of (bytes "alarm_modify") _ j; modify_of vs).
  set (c3 := vs ← numbers_of (bytes "alarm_delete") _ j; delete_of vs). set (c4 := vs ← numbers_of (bytes "alarm_clear") _ j; clear_of vs).
  clearbody c1 c2 c3 c4.
  assert (Hnow4 : ∀ w5, same_rest w4 w5 → time_now_of w5 = time_now_of w) by (intros w5 H5; apply Hnow; by eapply same_rest_trans).
  destruct c1 as [c1|], c2 as [c2|], c3 as [c3|], c4 as [c4|]; cbn [Datatypes.id foldl];
    (eapply goes_bind; [first [apply goes_trigger_alarm | apply goes_ret]|intros w5 H5];
     cbn [v_alarms v_interval v_lights v_system v_alarm v_status];
     rewrite <- (Hnow4 w5 H5), ?orb_true_r, ?orb_false_r;
     apply (goes_nlight_self _ j Hmsg data w5 (mkView _ _ _ _ _ _)); done).
Qed.

(** C1: A JSON message to the device does exactly what it asks for. Unless it
    asks for a restart, the handler returns; the interval, when it is one from
    2 to 120 modulo 2^16, is set and stored; the alarm commands of the message
    act, in their order, on the list of alarms that memory and store hold; the
    channels it names are switched or toggled, the others stay; the messages
    it calls for become due; and nothing is sent, no other state changes, and
    the application invariant holds. With "restart" equal to 1 the device
    restarts before any alarm or channel is touched. *)
Theorem self_message_refines data j w v : carries (payload data) j → app_ok w → sees w v →
  let system := v_system v || bool_decide (number_at (bytes "sysinfo") j = Some 1) in
  let alarm := v_alarm v || bool_decide (number_at (bytes "alarminfo") j = Some 1) in
  if bool_decide (number_at (bytes "restart") j = Some 1) then
    ∃ w', csro_device_handle_self_message data w = Some (None, w') ∧ app_ok w' ∧ same_rest w w' ∧
      sees w' (mkView (v_alarms v) (interval_after j (v_interval v)) (v_lights v) system alarm (v_status v))
  else
    ∃ w', csro_device_handle_self_message data w = Some (Some tt, w') ∧ app_ok w' ∧ same_rest w w' ∧
      sees w' (mkView (foldl (λ xs c, spec c xs) (v_alarms v) (commands_of j)) (interval_after j (v_interval v))
        (lights_after j (time_now_of w) (v_lights v)) system (alarm || bool_decide (commands_of j ≠ []))
        (v_status v || asks_lights j)).
Proof.
  intros Hmsg Hw Hv. cbv zeta. unfold csro_device_handle_self_message.
  set (msg := payload data) in *.
  assert (Hlen : length (v_lights v) = 3%nat) by (rewrite <- (sees_lights w v Hv); by apply ok_count).
  set (v1 := mkView (v_alarms v) (interval_after j (v_interval v)) (v_lights v) (v_system v) (v_alarm v) (v_status v)).
  assert (G1 : goes (on_number_unit msg (bytes "interval") 0 csro_system_set_interval) (default 0 (number_at (bytes "interval") j)) w v v1).
  { apply goes_on_number_unit; [done|]. unfold v1, interval_after.
    destruct (number_at (bytes "interval") j) as [x|]; [apply goes_set_interval|by destruct v]. }
  destruct (G1 Hw Hv) as (w1 & R1 & Hw1 & Hv1 & S1). rewrite (bind_r_run _ _ _ _ _ (returning_run _ _ _ _ R1)).
  set (v2 := mkView (v_alarms v) (interval_after j (v_interval v)) (v_lights v)
    (v_system v || bool_decide (number_at (bytes "sysinfo") j = Some 1)) (v_alarm v) (v_status v)).
  assert (G2 : ∀ x, goes (on_number_unit msg (bytes "sysinfo") x (λ v, when (v =? 1) csro_mqtt_msg_trigger_system))
    (default x (number_at (bytes "sysinfo") j)) w1 v1 v2).
  { intros x. apply goes_flag; [done|..]; unfold v2; intros Hx.
    - rewrite bool_decide_eq_true_2, orb_true_r by done. apply goes_trigger_system.
    - by rewrite bool_decide_eq_false_2, orb_false_r by done. }
  destruct (G2 (default 0 (number_at (bytes "interval") j)) Hw1 Hv1) as (w2 & R2 & Hw2 & Hv2 & S2). rewrite (bind_r_run _ _ _ _ _ (returning_run _ _ _ _ R2)).
  set (v3 := mkView (v_alarms v) (interval_after j (v_interval v)) (v_lights v)
    (v_system v || bool_decide (number_at (bytes "sysinfo") j = Some 1))
    (v_alarm v || bool_decide (number_at (bytes "alarminfo") j = Some 1)) (v_status v)).
  assert (G3 : ∀ x, goes (on_number_unit msg (bytes "alarminfo") x (λ v, when (v =? 1) csro_mqtt_msg_trigger_alarm))
    (default x (number_at (bytes "alarminfo") j)) w2 v2 v3).
  { intros x. apply goes_flag; [done|..]; unfold v3; intros Hx.
    - rewrite (bool_decide_eq_true_2 (number_at (bytes "alarminfo") j = Some 1)), orb_true_r by done. apply goes_trigger_alarm.
    - rewrite (bool_decide_eq_false_2 (number_at (bytes "alarminfo") j = _)), orb_false_r by done. done. }
  destruct (G3 (default (default 0 (number_at (bytes "interval") j)) (number_at (bytes "sysinfo") j)) Hw2 Hv2) as (w3 & R3 & Hw3 & Hv3 & S3). rewrite (bind_r_run _ _ _ _ _ (returning_run _ _ _ _ R3)).
  assert (G4 : ∀ x, goes (on_number msg (bytes "restart") x (λ v, ret (v =? 1)) (ret false))
    (default x (number_at (bytes "restart") j), bool_decide (number_at (bytes "restart") j = Some 1)) w3 v3 v3).
  { intros x. apply goes_on_number; [done|]. destruct (number_at (bytes "restart") j) as [y|]; [|apply goes_ret].
    replace (bool_decide (Some y = Some 1)) with (y =? 1) by (destruct (Z.eqb_spec y 1); case_bool_decide; congruence). apply goes_ret. }
  match goal with |- context[on_number msg (bytes "restart") ?x _ _] => destruct (G4 x Hw3 Hv3) as (w4 & R4 & Hw4 & Hv4 & S4) end.
  rewrite (bind_r_run _ _ _ _ _ (returning_run _ _ _ _ R4)).
  assert (Hs : same_rest w w4) by (repeat (eapply same_rest_trans; [done|]); done).
  case_bool_decide; cbv beta iota zeta.
  - by exists w4.
  - destruct (goes_commands data j w4 v3 Hmsg Hlen Hw4 Hv4) as (w5 & R5 & Hw5 & Hv5 & S5). exists w5.
    subst msg. cbv zeta in R5 |- *. rewrite (returning_run _ _ _ _ R5). split; [done|]. split; [done|]. split; [by eapply same_rest_trans|].
    replace (time_now_of w) with (time_now_of w4); [exact Hv5|].
    destruct Hs as (E & _). unfold time_now_of. by rewrite E.
Qed.
End SelfMessage.

(** ** The message that lists the alarms *)
Section Timer.
Context `{!DoubleLaws D}.

Definition alarm_json (e : entry) : json :=
  JObject [(bytes "weekday", JNumber (e_weekday e)); (bytes "minutes", JNumber (e_minutes e)); (bytes "action", JNumber (e_action e))].
Fixpoint alarm_members (n : Z) (xs : list entry) : list (list Z * json) :=
  match xs with [] => [] | e :: xs => (bytes "alarm" ++ sprintf_ld (n + 1), alarm_json e) :: alarm_members (n + 1) xs end.
(** The count is added at the first slot that is free; a full table has none. *)
Definition timer_json (xs : list entry) : json :=
  JObject (alarm_members 0 xs ++ if (length xs =? 20)%nat then [] else [(bytes "count", JNumber (Z.of_nat (length xs)))]).

(** The members of an alarm have their types. *)
Definition in_width (e : entry) : Prop := 0 <= e_weekday e < 2 ^ 8 ∧ 0 <= e_minutes e < 2 ^ 16 ∧ 0 <= e_action e < 2 ^ 16.

Ltac int_range := unfold is_int, INT_MIN, INT_MAX, in_width in *; cbn; lia.

Lemma alarm_key_cstr n : is_cstr (bytes "alarm" ++ sprintf_ld n).
Proof.
  apply Forall_app. split; [by apply bytes_cstr|]. apply sprintf_ld_cstr.
Qed.

Lemma add_alarms_run xs rest n acc : Forall in_width xs → 0 <= n → n + Z.of_nat (length xs) <= 20 →
  (∀ a, head rest = Some a → valid a = false) →
  add_alarms ((of_entry <$> xs) ++ rest) n (tree (D := D) None (JObject acc)) =
    Some (tree None (JObject (acc ++ alarm_members n xs ++
      match rest with [] => [] | _ => [(bytes "count", JNumber (n + Z.of_nat (length xs)))] end))).
Proof.
  intros Hxs. revert n acc. induction Hxs as [|e xs He Hxs IH]; intros n acc Hn Hlen Hrest; cbn [fmap list_fmap app add_alarms alarm_members length] in *.
  - destruct rest as [|a rest]; cbn [add_alarms]; [by rewrite !app_nil_r|]. rewrite (Hrest a eq_refl).
    rewrite add_number_tree by int_range. by rewrite Z.add_0_r.
  - cbn [of_entry valid]. assert (E : u8 (n + 1) = n + 1) by (unfold u8; rewrite Z.mod_small; lia). rewrite E.
    assert (Hf : fits_in 20 (bytes "alarm" ++ sprintf_ld (n + 1)) = true).
    { apply Z.ltb_lt. rewrite length_app. change (length (bytes "alarm")) with 5%nat.
      pose proof (sprintf_ld_bound 2 (n + 1) ltac:(lia) ltac:(lia)) as Hb. unfold zlen in Hb. lia. }
    rewrite Hf, create_object_tree. do 3 (rewrite add_number_tree by int_range; cbn [app]). rewrite add_item_tree.
    rewrite (IH (n + 1)) by (done || lia). rewrite <- app_assoc. cbn [app].
    replace (n + 1 + Z.of_nat (length xs)) with (n + Z.of_nat (Datatypes.S (length xs))) by lia. done.
Qed.

(** A table that holds the entries begins with them. *)
Lemma repr_split al xs : repr al xs → ∃ rest, al = (of_entry <$> xs) ++ rest ∧ (∀ a, head rest = Some a → valid a = false) ∧
  (rest = [] ↔ length xs = 20%nat).
Proof.
  intros [[Hl Hs] Hlen]. exists (drop (length xs) al).
  assert (Ht : take (length xs) al = of_entry <$> xs).
  { apply list_eq. intros i. rewrite list_lookup_fmap. destruct (decide (i < length xs)%nat) as [Hi|Hi].
    - rewrite lookup_take_lt by done. destruct (lookup_lt_is_Some_2 xs i Hi) as [e He].
      destruct (lookup_lt_is_Some_2 al i ltac:(lia)) as [a Ha]. specialize (Hs i a Ha). rewrite He in Hs |- *. rewrite Ha. cbn in *. by rewrite Hs.
    - rewrite lookup_take_ge by lia. by rewrite lookup_ge_None_2 by lia. }
  split; [rewrite <- Ht; symmetry; apply take_drop|]. split.
  - intros a Ha. rewrite head_lookup, lookup_drop, Nat.add_0_r in Ha. specialize (Hs _ _ Ha).
    by rewrite lookup_ge_None_2 in Hs by lia.
  - split; intros E; [apply (f_equal length) in E; rewrite length_drop in E; cbn in E; lia|apply drop_ge; lia].
Qed.

Lemma alarm_json_ok e : in_width e → json_ok (alarm_json e).
Proof. intros He. cbn [alarm_json json_ok foldr fst snd]. split_and!; try int_range; try done; by apply bytes_cstr. Qed.
Lemma alarm_members_ok n xs : Forall in_width xs → foldr (λ m P, (is_cstr m.1 ∧ json_ok m.2) ∧ P) True (alarm_members n xs).
Proof.
  intros Hxs. revert n. induction Hxs as [|e xs He _ IH]; intros n; [done|]. cbn [alarm_members foldr fst snd].
  split; [split; [apply alarm_key_cstr|by apply alarm_json_ok]|apply IH].
Qed.
Lemma foldr_app_and {A} (P : A → Prop) l l' : foldr (λ m Q, P m ∧ Q) True l → foldr (λ m Q, P m ∧ Q) True l' →
  foldr (λ m Q, P m ∧ Q) True (l ++ l').
Proof. induction l as [|x l IH]; cbn; [done|]. intros [? ?] ?. auto. Qed.
Lemma timer_json_ok xs : Forall in_width xs → (length xs <= 20)%nat → json_ok (timer_json xs).
Proof.
  intros Hxs Hlen. cbn [timer_json json_ok]. apply (foldr_app_and (λ m, is_cstr m.1 ∧ json_ok m.2)); [by apply alarm_members_ok|].
  destruct (length xs =? 20)%nat; cbn; [done|]. split; [|done]. split; [by apply bytes_cstr|int_range].
Qed.

(** The length of the text: at most 57 characters an alarm. *)
Lemma alarm_members_length n xs : Forall in_width xs → 0 <= n → n + Z.of_nat (length xs) <= 20 →
  total (λ m, zlen (quoted m.1) + 1 + zlen (render false 1 m.2) + 1) (alarm_members n xs) <= 57 * Z.of_nat (length xs).
Proof.
  intros Hxs. revert n. induction Hxs as [|e xs He _ IH]; intros n Hn Hlen; [done|]. cbn [alarm_members total fst snd length] in *.
  specialize (IH (n + 1) ltac:(lia) ltac:(lia)). unfold alarm_json. rewrite object_length by done. cbn [total fst snd render].
  change (zlen (quoted (bytes "weekday"))) with 9. change (zlen (quoted (bytes "minutes"))) with 9. change (zlen (quoted (bytes "action"))) with 8.
  destruct He as (Hw & Hm & Ha). pose proof (sprintf_ld_bound 3 (e_weekday e) ltac:(lia) ltac:(lia)).
  pose proof (sprintf_ld_bound 5 (e_minutes e) ltac:(lia) ltac:(lia)). pose proof (sprintf_ld_bound 5 (e_action e) ltac:(lia) ltac:(lia)).
  assert (zlen (quoted (bytes "alarm" ++ sprintf_ld (n + 1))) <= 9); [|lia].
  assert (n + 1 ∈ seqZ 0 21) as Hin by (apply elem_of_seqZ; lia). revert Hin. generalize (n + 1). clear.
  intros k Hk. assert (Hall : forallb (λ k, zlen (quoted (bytes "alarm" ++ sprintf_ld k)) <=? 9) (seqZ 0 21) = true) by by vm_compute.
  rewrite forallb_forall in Hall. apply list_elem_of_In in Hk. specialize (Hall k Hk). lia.
Qed.

Lemma timer_json_fits xs : Forall in_width xs → (length xs <= 17)%nat → fits_in MQTT_BUFFER_LENGTH (render false 0 (timer_json xs)) = true.
Proof.
  intros Hxs Hlen. apply Z.ltb_lt. fold (zlen (render false 0 (timer_json xs))). unfold timer_json.
  destruct (Nat.eqb_spec (length xs) 20); [lia|]. rewrite object_length by (by destruct xs).
  assert (Ht : ∀ (f : list Z * json → Z) l l', total f (l ++ l') = total f l + total f l').
  { intros f l l'. induction l as [|x l IH]; cbn [total app]; [lia|]. rewrite IH. lia. }
  rewrite Ht. pose proof (alarm_members_length 0 xs Hxs ltac:(lia) ltac:(lia)). cbn [total fst snd render].
  pose proof (sprintf_ld_bound 2 (Z.of_nat (length xs)) ltac:(lia) ltac:(lia)).
  change (zlen (quoted (bytes "count"))) with 7. change (0 + 1) with 1. unfold MQTT_BUFFER_LENGTH. lia.
Qed.

Lemma alarm_members_nesting n xs l : foldr (λ m k, Z.max (nesting m.2) k) 0 l <= 1 →
  foldr (λ m k, Z.max (nesting m.2) k) 0 (alarm_members n xs ++ l) <= 1.
Proof. intros Hl. revert n. induction xs as [|e xs IH]; intros n; [done|]. cbn [alarm_members app foldr fst snd]. specialize (IH (n + 1)). cbn. lia. Qed.

(** C31: The message that lists the alarms is the JSON object of all of them in
    order, named "alarm1", "alarm2" and so on, with their count unless the
    table is full, and it reads back as that object. With at most 17 alarms the
    text fits the 1000 bytes of [mqtt.content], whatever the alarms; with more
    it is copied when it fits, and is a write past the array when it does not. *)
Theorem timer_message xs w : repr (alarms_of w) xs → Forall in_width xs →
  let text := render false 0 (timer_json xs) in
  csro_device_prepare_timer_message w =
    (if fits_in MQTT_BUFFER_LENGTH text then Some (tt, set_mqtt (set_content_ text (mqtt w)) w) else None) ∧
  ((length xs <= 17)%nat → fits_in MQTT_BUFFER_LENGTH text = true) ∧
  cJSON_Parse text = Some (Some (tree (D := D) None (timer_json xs))).
Proof.
  intros Hr Hxs text. pose proof Hr as [_ Hlen]. pose proof (timer_json_ok xs Hxs Hlen) as Hok.
  split; [|split; [by apply timer_json_fits|]].
  - unfold csro_device_prepare_timer_message. rewrite (bind_run (get alarms_of) _ w (alarms_of w) w) by done.
    rewrite take_ge by (destruct Hr as [[Hl _] _]; rewrite Hl; vm_compute; lia). destruct (repr_split _ _ Hr) as (rest & -> & Hhead & Hfull).
    rewrite create_object_tree, (add_alarms_run xs rest 0 []) by (done || lia).
    assert (E : match rest with [] => [] | _ => [(bytes "count", JNumber (0 + Z.of_nat (length xs)))] end =
      if (length xs =? 20)%nat then [] else [(bytes "count", JNumber (Z.of_nat (length xs)))]).
    { destruct rest; [by rewrite (proj1 Hfull eq_refl)|]. destruct (Nat.eqb_spec (length xs) 20) as [E|_]; [|done].
      discriminate (proj2 Hfull E). }
    rewrite E, (bind_run _ _ _ _ _ (lift_run _ _ _ eq_refl)). cbn [app]. fold (timer_json xs).
    rewrite print_content_run by exact Hok. unfold copy_to, text. by destruct (fits_in _ _).
  - apply parse_rendered; [done|]. unfold timer_json. cbn [nesting].
    pose proof (alarm_members_nesting 0 xs (if (length xs =? 20)%nat then [] else [(bytes "count", JNumber (Z.of_nat (length xs)))])
      ltac:(destruct (length xs =? 20)%nat; cbn; lia)). unfold CJSON_NESTING_LIMIT. lia.
Qed.
End Timer.

End Device.
(** A message that sets the interval, adds an alarm and toggles the first
    light, on the running device of [System]. *)
Import Rational.
Definition demo_request : json :=
  JObject [(bytes "interval", JNumber 60);
           (bytes "alarm_add", JObject [(bytes "weekday", JNumber 3); (bytes "minutes", JNumber 400); (bytes "action", JNumber 7)]);
           (bytes "channel1", JNumber 2)].
Definition demo_message : message := mkMessage [] 0 (render false 0 demo_request ++ [0]) 0.
Definition demo_view : view :=
  mkView [] 5 [mkSwitch 0 1 1 1553890000 2 1553880000; mkSwitch 1 0 0 0 1 1553800000; mkSwitch 2 0 0 0 0 0] false false false.

Lemma demo_carries : carries (payload demo_message) demo_request.
Proof.
  split; [|split; [by vm_compute|by exists false, []]].
  cbn [demo_request json_ok foldr fst snd]. unfold is_int, INT_MIN, INT_MAX. split_and!; try done; by apply bytes_cstr.
Qed.
Lemma demo_sees : sees demo_world demo_view.
Proof.
  constructor; try done. split; [|split; [by vm_compute|done]]. split; [|cbn; lia]. split; [done|].
  intros i a Hi. change (alarms _) with (replicate 20 (mkAlarm false 0 0 0)) in Hi.
  apply lookup_replicate in Hi as [-> _]. done.
Qed.

Lemma self_message_refines_witness :
  ∃ w', csro_device_handle_self_message (D := QArith_base.Q) demo_message demo_world = Some (Some tt, w') ∧ app_ok w' ∧
    same_rest demo_world w' ∧
    sees w' (mkView [mkEntry 3 400 7] 60
      [mkSwitch 0 0 1 1553890000 1 1553900000; mkSwitch 1 0 0 0 1 1553800000; mkSwitch 2 0 0 0 0 0] false true true).
Proof. exact (self_message_refines demo_message demo_request demo_world demo_view demo_carries demo_ok demo_sees). Defined.


(** Two alarms, and eighteen whose text is too long. *)
Definition with_alarms (xs : list entry) : world nvs_map :=
  set_clock (set_table (mkTable ((of_entry <$> xs) ++ replicate (20 - length xs) (mkAlarm false 0 0 0)) (∅, ∅)) (clock demo_world)) demo_world.
Lemma with_alarms_repr xs : (length xs <= 20)%nat → repr (alarms_of (with_alarms xs)) xs.
Proof.
  intros Hlen. split; [|done]. change (alarms_of (with_alarms xs)) with ((of_entry <$> xs) ++ replicate (20 - length xs) (mkAlarm false 0 0 0)).
  split; [rewrite length_app, length_fmap, length_replicate; lia|]. intros i a Hi.
  apply lookup_app_Some in Hi as [Hi|[Hge Hi]].
  - rewrite list_lookup_fmap in Hi. destruct (xs !! i) as [e|]; [|done]. by injection Hi as <-.
  - rewrite length_fmap in Hge. apply lookup_replicate in Hi as [-> _]. by rewrite lookup_ge_None_2.
Qed.

Lemma timer_message_witness :
  (∃ w', csro_device_prepare_timer_message (D := QArith_base.Q) (with_alarms [mkEntry 3 400 7; mkEntry 5 1200 1]) = Some (tt, w')) ∧
  csro_device_prepare_timer_message (D := QArith_base.Q) (with_alarms (replicate 18 (mkEntry 127 10000 10000))) = None.
Proof.
  assert (Hfit : fits_in MQTT_BUFFER_LENGTH (render false 0 (timer_json (replicate 18 (mkEntry 127 10000 10000)))) = false) by by vm_compute.
  split.
  - destruct (timer_message (D := QArith_base.Q) [mkEntry 3 400 7; mkEntry 5 1200 1] _
      (with_alarms_repr [mkEntry 3 400 7; mkEntry 5 1200 1] ltac:(cbn; lia))) as (-> & Hf & _).
    { repeat (apply Forall_cons; split; [unfold in_width; cbn; lia|]). apply Forall_nil_2. }
    rewrite Hf by (cbn; lia). by eexists.
  - destruct (timer_message (D := QArith_base.Q) (replicate 18 (mkEntry 127 10000 10000)) _
      (with_alarms_repr (replicate 18 (mkEntry 127 10000 10000)) ltac:(cbn; lia))) as (-> & _ & _).
    { apply Forall_replicate. unfold in_width. cbn. lia. }
    by rewrite Hfit.
Defined.

End Device.
