(* ===== verification/Mqtt.v ===== *)
(** The main task, the UDP task and the start of the application:
    [app/components/common/csro_mqtt.c], [csro_udp.c], [csro_sc.c] and
    [csro_common.c].

    The network and the MQTT client library answer through the record
    [answer]: whether the call succeeds, and what the other tasks and the
    message handlers do while it blocks. *)
From S2P Require Import Prelude Nvs Datetime Cjson Misc World System Nlight Device.

Module Mqtt.
Import Cjson Cstring Misc World System Nlight Device Datetime.Alarm.

(** What can happen beside the main loop: the second timer, a tick of the
    status timer, the key timer, a datagram, a message, the end of the session
    when the client closes it. The lists are what the stack holds in the
    uninitialised arrays of a handler. *)
Inductive event :=
  | Second
  | Status_tick
  | Key_tick
  | Datagram (udp_buf stack : list Z)
  | Self_message (data : message)
  | Hass_message (sub_topic payload_ : list Z) (data : message)
  | Group_message (data : message)
  | Session_closed.

Record answer := mkAnswer { success : bool; meanwhile : list event }.

Section Mqtt.
Context {st : Type} `{Nvs st} `{!NvsStr st} {D : Type} `{Double D}.

(** ** [csro_udp.c] *)

Definition text_of (j : option (cJSON D)) : option (list Z) :=
  match j with
  | Some j => if type_ j =? cJSON_String then valuestring j else None
  | None => None
  end.
Definition process_udp_message (stack udp_buf : list Z) : M (world st) unit :=
  let! json := lift (parse_msg udp_buf) in
  match json with
  | None => ret tt
  | Some json =>
      let serv_ip := cJSON_GetObjectItem json (bytes "ip") in
      let serv_mac := cJSON_GetObjectItem json (bytes "mac") in
      let time_info := cJSON_GetObjectItem json (bytes "time") in
      (match text_of serv_ip, text_of serv_mac with
       | Some ip_, Some mac_ =>
           when ((4 <=? Z.of_nat (length ip_)) && (10 <=? Z.of_nat (length mac_))) (
             let! m := get mqtt in
             when (bool_decide (ip_ ≠ broker m) || bool_decide (mac_ ≠ prefix m)) (
               copy_to 50 ip_ (λ s, put_mqtt (set_broker s)) ;;;
               copy_to 50 mac_ (λ s, put_mqtt (set_prefix s)) ;;;
               put_mqtt (set_isconnected false)))
       | _, _ => ret tt
       end) ;;;
      match text_of time_info with
      | Some t => on_clock (Clock.csro_datetime_set stack (to_string t))
      | None => ret tt
      end
  end.

(** ** Timers and messages *)

(** The auto-reload timer [status_msg_timer]; its callback triggers the status
    message. *)
Definition status_timer_tick : M (world st) unit :=
  let! t := get status_timer in
  if left_ t <=? 1 then
    modify (set_status_timer (mkTimer (period t) (period t))) ;;;
    csro_mqtt_msg_trigger_status
  else modify (set_status_timer (mkTimer (period t) (left_ t - 1))).

Definition handle (e : event) : MR (world st) unit :=
  match e with
  | Second => returning (on_clock Clock.second_timer_callback)
  | Status_tick => returning status_timer_tick
  | Key_tick => returning key_timer_callback
  | Datagram udp_buf stack => returning (process_udp_message stack udp_buf)
  | Self_message data => csro_device_handle_self_message (D := D) data
  | Hass_message sub_topic payload_ data => returning (csro_device_handle_hass_message sub_topic payload_ data)
  | Group_message data => returning (csro_device_handle_group_message (D := D) data)
  | Session_closed => returning (put_mqtt (set_isconnected false))
  end.
Fixpoint handle_all (es : list event) : MR (world st) unit :=
  match es with [] => returning (ret tt) | e :: es => handle e ;? handle_all es end.

(** ** Calls of the MQTT client

    Each records what goes out, lets the others run, and answers. *)
Definition blocking (a : answer) : MR (world st) bool := handle_all (meanwhile a) ;? returning (ret (success a)).
Definition NetworkConnect (a : answer) (host : list Z) (port : Z) : MR (world st) bool :=
  returning (emit_effect (Connect host port)) ;? blocking a.
Definition MQTTCloseSession : M (world st) unit := put_mqtt (set_isconnected false).
Definition MQTTConnect (a : answer) (id name pass will_topic : list Z) : MR (world st) bool :=
  returning (emit_effect (Login id name pass will_topic)) ;?
  let? ok := blocking a in
  returning (when ok (put_mqtt (set_isconnected true)) ;;; ret ok).
(** A request on the session: [MQTTSubscribe] and [MQTTPublish]. *)
Definition on_session (a : answer) (e : effect) : MR (world st) bool :=
  let? connected := returning (get (λ w, isconnected (mqtt w))) in
  if negb connected then returning (MQTTCloseSession ;;; ret false) else
  returning (emit_effect e) ;?
  let? ok := blocking a in
  returning (when (negb ok) MQTTCloseSession ;;; ret ok).
Definition MQTTSubscribe (a : answer) (topic_filter : list Z) : MR (world st) bool := on_session a (Subscribe topic_filter).
Definition MQTTPublish (a : answer) (topic content : list Z) (retained : bool) : MR (world st) bool :=
  on_session a (Publish topic content retained).
Definition MQTTYield (a : answer) : MR (world st) bool :=
  let? ok := blocking a in
  returning (when (negb ok) MQTTCloseSession ;;; ret ok).

(** ** [csro_mqtt.c] *)

Definition slash : list Z := bytes "/".
(** [sprintf(topic, "%s/%s/%s/%s", mqtt.prefix, sysinfo.mac_str, sysinfo.dev_type, suffix)] *)
Definition device_topic (suffix : list Z) (w : world st) : list Z :=
  prefix (mqtt w) ++ slash ++ mac_str (sysinfo w) ++ slash ++ dev_type (sysinfo w) ++ slash ++ suffix.
Definition print_topic (text : world st → list Z) (put : list Z → mqtt_struct → mqtt_struct) : M (world st) unit :=
  let! s := get text in copy_to MQTT_TOPIC_LENGTH s (λ s, put_mqtt (put s)).

Definition mqtt_pub_messgae (a : answer) (suffix : list Z) (retained : bool) : MR (world st) bool :=
  returning (print_topic (device_topic suffix) set_pub_topic) ;?
  let? m := returning (get mqtt) in
  let? ok := MQTTPublish a (pub_topic m) (content_ m) retained in
  if negb ok then (returning (put_mqtt (set_isconnected false)) ;? returning (ret false))
  else returning (ret true).

(** The answers of one connection attempt. *)
Record attempt := mkAttempt { net : answer; login : answer; sub_self : answer; sub_hass : answer; sub_group : answer; online : answer }.

(** [if (call != SUCCESS) { mqtt.client.isconnected = 0; return false; } k] *)
Definition or_disconnect (m : MR (world st) bool) (k : MR (world st) bool) : MR (world st) bool :=
  let? ok := m in
  if negb ok then (returning (put_mqtt (set_isconnected false)) ;? returning (ret false)) else k.

(** The topics, and [MQTTClientInit]. *)
Definition print_topics : M (world st) unit :=
  print_topic (λ w, prefix (mqtt w) ++ bytes "/group") set_sub_topic_group ;;;
  print_topic (device_topic (bytes "command")) set_sub_topic_self ;;;
  print_topic (device_topic (bytes "hass/#")) set_sub_topic_hass ;;;
  print_topic (device_topic (bytes "available")) set_pub_topic ;;;
  put_mqtt (set_isconnected false).

Definition broker_is_connected (t : attempt) : MR (world st) bool :=
  let? m := returning (get mqtt) in
  if isconnected m then returning (ret true) else
  if bool_decide (broker m = []) || bool_decide (prefix m = []) then returning (ret false) else
  let? ok := NetworkConnect (net t) (broker m) 1883 in
  if negb ok then returning (ret false) else
  returning print_topics ;?
  let? m := returning (get mqtt) in
  or_disconnect (MQTTConnect (login t) (id_ m) (name m) (pass m) (pub_topic m)) (
  or_disconnect (MQTTSubscribe (sub_self t) (sub_topic_self m)) (
  or_disconnect (MQTTSubscribe (sub_hass t) (sub_topic_hass m)) (
  or_disconnect (MQTTSubscribe (sub_group t) (sub_topic_group m)) (
  returning (put_sys (λ s, set_serv_conn_count (u32 (serv_conn_count s + 1)) s)) ;?
  returning (copy_to MQTT_BUFFER_LENGTH (bytes "online") (λ s, put_mqtt (set_content_ s))) ;?
  mqtt_pub_messgae (online t) (bytes "available") true)))).

(** [if (xSemaphoreTake(s, 1) == pdTRUE) { prepare(); mqtt_pub_messgae(suffix, QOS1, false); }] *)
Definition serve (taken : world st → bool) (clear : world st → world st) (prepare : M (world st) unit) (a : answer) (suffix : list Z) : MR (world st) unit :=
  let? t := returning (get taken) in
  if t then
    returning (modify clear) ;?
    returning prepare ;?
    let? _ := mqtt_pub_messgae a suffix false in returning (ret tt)
  else returning (ret tt).

(** What the outside does during one round of the main loop. *)
Record round := mkRound { addr : Z; try_ : attempt; pub_state : answer; pub_system : answer; pub_timer : answer;
                          heap : Z; yield_ : answer; delay : list event }.

(** One round of the loop of [csro_mqtt_task]. *)
Definition mqtt_round (r : round) : MR (world st) unit :=
  let? wifi := returning (csro_system_get_wifi_status (addr r)) in
  if wifi then
    let? connected := broker_is_connected (try_ r) in
    if connected then
      returning (csro_system_set_status NORMAL_START_OK) ;?
      serve status_msg (set_status_msg false) (csro_device_prepare_status_message (D := D)) (pub_state r) (bytes "state") ;?
      serve system_msg (set_system_msg false) (csro_system_prepare_message (D := D) (heap r)) (pub_system r) (bytes "system") ;?
      serve alarm_msg (set_alarm_msg false) (csro_device_prepare_timer_message (D := D)) (pub_timer r) (bytes "timer") ;?
      let? ok := MQTTYield (yield_ r) in
      returning (when (negb ok) (put_mqtt (set_isconnected false)))
    else
      returning (csro_system_set_status NORMAL_START_NOSERVER) ;?
      handle_all (delay r)
  else
    returning (modify (λ w, set_wifi_retry (u16 (wifi_retry w + 1)) w)) ;?
    let? w := returning (get Datatypes.id) in
    if (sc_flag (sysinfo w) =? 1) && (10 <=? wifi_retry w) then
      returning (on_store (nvs_set (sys_key "sc_flag" NVS_U8) 0)) ;?
      esp_restart
    else handle_all (delay r).

(** [csro_mqtt_task] up to its loop: the semaphores are created empty and the
    timer started. [csro_udp_receive_task] sets the status as it starts. *)
Definition csro_mqtt_task_start : M (world st) unit :=
  csro_system_set_status NORMAL_START_NOWIFI ;;;
  modify (set_status_msg false) ;;;
  modify (set_system_msg false) ;;;
  modify (set_alarm_msg false) ;;;
  modify (λ w, let p := status_period (interval (mqtt w)) in set_status_timer (mkTimer p p) w).

(** ** [csro_sc.c] *)

(** [smartconfig_callback] with [SC_STATUS_LINK]. *)
Definition smartconfig_link : M (world st) unit :=
  copy_to 50 (bytes "Jupiter") (λ s, put_sys (set_router_ssid s)) ;;;
  copy_to 50 (bytes "150933205") (λ s, put_sys (set_router_pass s)).
(** [smartconfig_task] when [ESPTOUCH_DONE_BIT] is set. *)
Definition smartconfig_done : MR (world st) unit :=
  let? s := returning (get sysinfo) in
  returning (
    on_store (nvs_set_str ("system"%string, "ssid"%string) (router_ssid s)) ;;;
    on_store (nvs_set_str ("system"%string, "pass"%string) (router_pass s)) ;;;
    on_store (nvs_set (sys_key "router" NVS_U8) 1) ;;;
    on_store (nvs_set (sys_key "sc_flag" NVS_U8) 1)) ;?
  esp_restart.
Definition csro_sc_task_start : M (world st) unit := csro_system_set_status SMARTCONFIG.

(** ** [csro_common.c] *)

(** The answer is whether the device has its wifi credentials and runs the
    main task. *)
Definition csro_init (timer : bool) (mac_of : list Z) (sha1 : list Z → list Z) : M (world st) bool :=
  on_clock (Clock.csro_datetime_init timer) ;;;
  csro_system_get_info mac_of sha1 ;;;
  csro_device_init ;;;
  let! wifi := csro_system_get_wifi_info in
  (if wifi then csro_mqtt_task_start else csro_sc_task_start) ;;;
  ret wifi.

(** Power up: every global is zero, the store is what it was. *)
Definition zero_tm : Datetime.Libc.tm := Datetime.Libc.mkTm 0 0 0 0 0 0 0.
Definition power_up (store : st) : world st :=
  mkWorld (Clock.mkState (Clock.mkDatetime 0 0 0 0 zero_tm "") false (mkTable (replicate 20 (mkAlarm false 0 0 0)) store) [])
    (mkSystem IDLE [] [] 0 (replicate 6 0) (replicate 4 0) [] [] [] [] 0 0 0)
    (mkMqtt [] [] [] [] [] [] [] [] [] [] 0 false)
    (replicate 3 (mkSwitch 0 0 0 0 0 0)) false false false (mkTimer 0 0) false 0 0 [].

(** ** The invariant of the application *)

Lemma ok_put_broker s : fits_in 50 s = true → keeps app_ok (put_mqtt (set_broker s)).
Proof. intros Hs. apply keeps_modify. intros w []. by constructor. Qed.
Lemma ok_put_prefix s : fits_in 50 s = true → keeps app_ok (put_mqtt (set_prefix s)).
Proof. intros Hs. apply keeps_modify. intros w []. by constructor. Qed.
Lemma ok_put_connected b : keeps app_ok (put_mqtt (set_isconnected b)).
Proof. by apply ok_put_mqtt. Qed.
#[local] Hint Resolve ok_put_connected : keeps.

Lemma set_time_table stack s t : keeps (λ c : Clock.state st, Clock.tbl c = t) (Clock.csro_datetime_set stack s).
Proof. unfold Clock.csro_datetime_set, Clock.put_datetime, Clock.set_time_sync. keep; apply keeps_modify; by intros ? <-. Qed.
Lemma second_table t : keeps (λ c : Clock.state st, Clock.tbl c = t) Clock.second_timer_callback.
Proof.
  unfold Clock.second_timer_callback, Clock.put_datetime, Clock.datetime_check_alarm, Clock.debug.
  keep; apply keeps_modify; by intros ? <-.
Qed.

Lemma ok_datagram stack buf : keeps app_ok (process_udp_message stack buf).
Proof.
  unfold process_udp_message. keep; first
    [apply keeps_copy_to; intros ?; first [by apply ok_put_broker | by apply ok_put_prefix]
    |apply ok_on_clock; intros t; apply set_time_table].
Qed.

Lemma ok_status_tick : keeps app_ok status_timer_tick.
Proof.
  unfold status_timer_tick. intros w u w' Hw (t & w1 & [= <- <-] & Hr)%bind_Some_inv.
  pose proof (status_period_pos _ (ok_interval w Hw)) as Hp. revert Hr. destruct (Z.leb_spec (left_ (status_timer w)) 1).
  - intros (u1 & w2 & [= <- <-] & Hr)%bind_Some_inv. eapply ok_trigger_status, Hr. destruct Hw. constructor; cbn; try done; lia.
  - intros [= <- <-]. destruct Hw. constructor; cbn; try done; lia.
Qed.

Lemma ok_handle e : keeps app_ok (handle e).
Proof.
  destruct e; cbn [handle].
  - apply keeps_returning, ok_on_clock. intros t. apply second_table.
  - apply keeps_returning, ok_status_tick.
  - apply keeps_returning, ok_key_timer.
  - apply keeps_returning, ok_datagram.
  - apply ok_self_message.
  - apply keeps_returning, ok_hass_message.
  - apply keeps_returning, ok_group_message.
  - by apply keeps_returning, ok_put_connected.
Qed.

Lemma ok_handle_all es : keeps app_ok (handle_all es).
Proof. induction es as [|e es IH]; cbn [handle_all]; keep_r. apply ok_handle. Qed.
#[local] Hint Resolve ok_handle_all : keeps.
Lemma ok_blocking a : keeps app_ok (blocking a).
Proof. unfold blocking. keep_r. Qed.
#[local] Hint Resolve ok_blocking : keeps.
Lemma ok_on_session a e : keeps app_ok (on_session a e).
Proof. unfold on_session, MQTTCloseSession. keep_r. apply ok_emit. Qed.
#[local] Hint Resolve ok_on_session : keeps.

Lemma ok_print_topic text put : (∀ s m, interval (put s m) = interval m ∧ broker (put s m) = broker m ∧
  prefix (put s m) = prefix m ∧ content_ (put s m) = content_ m) → keeps app_ok (print_topic text put).
Proof. intros Hp. unfold print_topic. keep. apply keeps_copy_to. intros _. by apply ok_put_mqtt. Qed.

Lemma ok_publish a suffix retained : keeps app_ok (mqtt_pub_messgae a suffix retained).
Proof. unfold mqtt_pub_messgae, MQTTPublish. keep_r. by apply ok_print_topic. Qed.
#[local] Hint Resolve ok_publish : keeps.

Lemma ok_or_disconnect m k : keeps app_ok m → keeps app_ok k → keeps app_ok (or_disconnect m k).
Proof. intros Hm Hk. unfold or_disconnect. keep_r. Qed.

Lemma ok_connect t : keeps app_ok (broker_is_connected t).
Proof.
  unfold broker_is_connected, print_topics, NetworkConnect, MQTTConnect, MQTTSubscribe.
  repeat first [progress keep_r | apply ok_or_disconnect]; try apply ok_emit; try by apply ok_print_topic.
  - by apply ok_put_sys.
  - apply keeps_copy_to. apply ok_put_content.
Qed.

Lemma ok_serve taken clear prepare a suffix : (∀ w, app_ok w → app_ok (clear w)) → keeps app_ok prepare →
  keeps app_ok (serve taken clear prepare a suffix).
Proof. intros Hc Hp. unfold serve. keep_r. by apply keeps_modify. Qed.

Lemma ok_round r : keeps app_ok (mqtt_round r).
Proof.
  unfold mqtt_round, MQTTYield, MQTTCloseSession. keep_r; try apply ok_get_wifi_status; try apply ok_connect; try by apply ok_set_status.
  - apply ok_serve; [intros w []; by constructor|apply ok_nlight_status].
  - apply ok_serve; [intros w []; by constructor|apply ok_prepare_message].
  - apply ok_serve; [intros w []; by constructor|apply ok_timer_message].
  - apply keeps_modify. intros w []. by constructor.
  - apply keeps_on_store. intros w t [] ->. constructor; try done. unfold store_of in *. cbn.
    by rewrite nvs_get_set_ne.
Qed.

(** *** Start *)

Lemma hex_text_length l : length (concat (hex2 <$> l)) = (2 * length l)%nat.
Proof. induction l as [|c l IH]; [done|]. cbn [fmap list_fmap concat]. rewrite length_app, IH. cbn [length hex2]. lia. Qed.

Lemma copy_to_inv n s put w (u : unit) (w' : world st) : copy_to n s put w = Some (u, w') → fits_in n s = true ∧ put s w = Some (u, w').
Proof. unfold copy_to. by destruct (fits_in n s). Qed.

Lemma lift_inv {A} (o : option A) (w w' : world st) a : lift o w = Some (a, w') → w' = w ∧ o = Some a.
Proof. unfold lift. destruct o; [by intros [= <- <-]|done]. Qed.

(** Run an inverted procedure over the calls that only read or change the
    state. *)
Ltac inv_step Hr :=
  apply bind_Some_inv in Hr; let a := fresh "a" in let w1 := fresh "w" in let E := fresh "E" in
  destruct Hr as (a & w1 & E & Hr);
  try (apply copy_to_inv in E; let F := fresh "F" in destruct E as [F E]);
  try (apply lift_inv in E as [-> E]);
  try (injection E as <- <-).

Lemma load_settings_run (w w' : world st) u : load_settings w = Some (u, w') →
  alarms_of w' = alarms_of w ∧ channel w' = channel w ∧ status (sysinfo w') = status (sysinfo w) ∧
  interval_ok (interval (mqtt w')) ∧
  (interval_ok (interval (mqtt w)) ∨ nvs_get interval_key (store_of w') = Some (interval (mqtt w'))) ∧
  broker (mqtt w') = broker (mqtt w) ∧ prefix (mqtt w') = prefix (mqtt w) ∧ content_ (mqtt w') = content_ (mqtt w).
Proof.
  intros Hr. unfold load_settings in Hr. do 7 inv_step Hr.
  set (i := nvs_read (sys_key "interval" NVS_U16) (interval (mqtt w)) (store_of w)) in *.
  change (interval _) with i in Hr. unfold interval_ok.
  destruct ((i <? MIN_INTERVAL) || (MAX_INTERVAL <? i)) eqn:Ei; cbn [when] in Hr.
  - inv_step Hr. injection Hr as <- <-. cbn. unfold store_of. cbn. rewrite nvs_get_set_eq.
    repeat split; try done. by right.
  - injection Hr as <- <-. cbn. apply orb_false_iff in Ei as [H1 H2]. apply Z.ltb_ge in H1, H2. repeat split; try done.
    unfold store_of. cbn. rewrite nvs_get_set_ne by done. unfold i, nvs_read in *. unfold interval_key, store_of in *.
    destruct (nvs_get (sys_key "interval" NVS_U16) _) as [v|]; cbn in *; [by right|by left].
Qed.

Lemma make_names_run mac_of sha1 (w w' : world st) u : length mac_of = 6%nat →
  make_names mac_of sha1 w = Some (u, w') →
  clock w' = clock w ∧ channel w' = channel w ∧ status (sysinfo w') = status (sysinfo w) ∧
  interval (mqtt w') = interval (mqtt w) ∧ dev_type (sysinfo w') = bytes "nlight3" ∧
  length (mac_str (sysinfo w')) = 12%nat ∧ broker (mqtt w') = broker (mqtt w) ∧
  prefix (mqtt w') = prefix (mqtt w) ∧ content_ (mqtt w') = content_ (mqtt w).
Proof.
  intros Hmac Hr. unfold make_names in Hr. do 9 inv_step Hr. apply copy_to_inv in Hr as [_ Hr].
  injection Hr as <- <-. cbn -[sprintf_ld concat].
  repeat split; try reflexivity. exact (eq_trans (hex_text_length mac_of) (f_equal (λ n, 2 * n)%nat Hmac)).
Qed.

(** What boot leaves before the main task starts its timer. *)
Definition booted (w : world st) : Prop :=
  length (alarms_of w) = 20%nat ∧ interval_ok (interval (mqtt w)) ∧
  nvs_get interval_key (store_of w) = Some (interval (mqtt w)) ∧ status (sysinfo w) ≠ RESET_PENDING ∧
  length (channel w) = 3%nat ∧ (∀ i ch, channel w !! i = Some ch → light_ok i ch) ∧
  dev_type (sysinfo w) = bytes "nlight3" ∧ length (mac_str (sysinfo w)) = 12%nat ∧
  fits_in 50 (broker (mqtt w)) = true ∧ fits_in 50 (prefix (mqtt w)) = true ∧
  fits_in MQTT_BUFFER_LENGTH (content_ (mqtt w)) = true.

Lemma booted_sys f : (∀ s, status (f s) = status s ∧ dev_type (f s) = dev_type s ∧ mac_str (f s) = mac_str s) →
  keeps booted (put_sys f).
Proof.
  intros Hf. apply keeps_modify. intros w (? & ? & ? & ? & ? & ? & ? & ? & ? & ? & ?).
  destruct (Hf (sysinfo w)) as (E1 & E2 & E3). unfold booted. cbn. rewrite E1, E2, E3. auto 20.
Qed.

(** The channels that [csro_nlight_init] numbers are all off. *)
Lemma device_init_run (w : world st) :
  channel w = replicate 3 (mkSwitch 0 0 0 0 0 0) →
  csro_device_init w = Some (tt, set_log (log w ++ [I2c_write 0x13 0x00])
    (set_channel [mkSwitch 0 0 0 0 0 0; mkSwitch 1 0 0 0 0 0; mkSwitch 2 0 0 0 0 0] w)).
Proof. destruct w. cbn. by intros ->. Qed.

Lemma init_booted timer mac_of sha1 store w wifi : length mac_of = 6%nat →
  (let! _ := on_clock (Clock.csro_datetime_init timer) in csro_system_get_info mac_of sha1 ;;; csro_device_init ;;;
   csro_system_get_wifi_info) (power_up store) = Some (wifi, w) → booted w.
Proof.
  intros Hmac Hr. apply bind_Some_inv in Hr as (u & w1 & H1 & Hr).
  assert (Hw1 : length (alarms_of w1) = 20%nat ∧ channel w1 = channel (power_up store) ∧ sysinfo w1 = sysinfo (power_up store) ∧
    mqtt w1 = mqtt (power_up store)).
  { unfold on_clock, zoom in H1. destruct (Clock.csro_datetime_init timer _) as [[u1 c]|] eqn:E; [|done].
    injection H1 as <- <-. repeat split; try done. unfold Clock.csro_datetime_init in E. destruct timer; cbn [when] in E.
    - unfold zoom in E. destruct (load_alarm_from_nvs _) as [[u2 t]|] eqn:El; [|done]. injection E as <- <-.
      eapply (load_frame (λ _, True)) in El; [by destruct El|]. by split.
    - by injection E as <- <-. }
  destruct Hw1 as (Ht & Hch & Hs & Hm). apply bind_Some_inv in Hr as (u2 & w2 & H2 & Hr).
  apply bind_Some_inv in H2 as (u3 & w3 & H3 & H2).
  apply load_settings_run in H3 as (A1 & A2 & A3 & A4 & A5 & A6 & A7 & A8).
  apply make_names_run in H2 as (B1 & B2 & B3 & B4 & B5 & B6 & B7 & B8 & B9); [|done].
  apply bind_Some_inv in Hr as (u4 & w4 & H4 & Hr).
  rewrite device_init_run in H4 by (by rewrite B2, A2, Hch). injection H4 as <- <-.
  assert (Hb : booted (set_log (log w2 ++ [I2c_write 0x13 0x00])
    (set_channel [mkSwitch 0 0 0 0 0 0; mkSwitch 1 0 0 0 0 0; mkSwitch 2 0 0 0 0 0] w2))).
  { unfold booted, alarms_of, store_of. cbn. rewrite B1, B3, B4, B7, B8, B9, A3, A6, A7, A8, Hs, Hm.
    split; [by rewrite <- Ht, <- A1|]. split; [done|]. split; [|].
    { destruct A5 as [A5|A5]; [rewrite Hm in A5; unfold interval_ok, MIN_INTERVAL in A5; cbn in A5; lia|].
      unfold store_of in A5. by rewrite A5. }
    split; [done|]. split; [done|]. split; [|by auto 10].
    intros i ch Hi. destruct i as [|[|[|i]]]; [injection Hi as <-..|done]; split; cbn; auto. }
  clear - Hb Hr. revert Hb Hr. generalize (set_log (log w2 ++ [I2c_write 0x13 0x00])
    (set_channel [mkSwitch 0 0 0 0 0 0; mkSwitch 1 0 0 0 0 0; mkSwitch 2 0 0 0 0 0] w2)). intros w3 Hb Hr. revert w3 wifi w Hb Hr.
  change (keeps booted csro_system_get_wifi_info). unfold csro_system_get_wifi_info, load_str. keep;
    apply keeps_copy_to; intros _; by apply booted_sys.
Qed.

Lemma task_start_ok w u w' : booted w → csro_mqtt_task_start w = Some (u, w') → app_ok w'.
Proof.
  intros (? & Hi & ? & Hst & ? & ? & ? & ? & ? & ? & ?) Hr. unfold csro_mqtt_task_start in Hr.
  apply bind_Some_inv in Hr as (u1 & w1 & Hset & Hr).
  unfold csro_system_set_status in Hset. apply bind_Some_inv in Hset as (s & w2 & [= <- <-] & Hset).
  rewrite decide_False in Hset by done. do 3 inv_step Hr. injection Hr as <- <-.
  pose proof (status_period_pos _ Hi). case_bool_decide; cbn [when] in Hset; injection Hset as _ <-;
    constructor; cbn; try done; lia.
Qed.

(** What can be reached: boot on any store with the credentials of a network,
    then rounds of the main loop and events in any order. A restart starts
    again from the store. *)
Inductive reachable : world st → Prop :=
  | reach_boot timer mac_of sha1 store w :
      length mac_of = 6%nat → csro_init timer mac_of sha1 (power_up store) = Some (true, w) → reachable w
  | reach_round r w w' : reachable w → mqtt_round r w = Some (Some tt, w') → reachable w'
  | reach_event e w w' : reachable w → handle e w = Some (Some tt, w') → reachable w'.

Lemma reachable_ok w : reachable w → app_ok w.
Proof.
  induction 1 as [timer mac_of sha1 store w Hmac Hr|r w w' _ IH Hr|e w w' _ IH Hr].
  - unfold csro_init in Hr. inv_step Hr. inv_step Hr. inv_step Hr. inv_step Hr.
    destruct a2; inv_step Hr; [injection Hr as <-|done].
    eapply task_start_ok; [|exact E3].
    apply (init_booted timer mac_of sha1 store _ true Hmac).
    by rewrite (bind_run _ _ _ _ _ E), (bind_run _ _ _ _ _ E0), (bind_run _ _ _ _ _ E1).
  - by eapply ok_round.
  - by eapply ok_handle.
Qed.

(** C10: In every state the running application can reach - boot on any store
    with credentials, then any rounds of the main loop, timer ticks, key ticks,
    datagrams and messages of any content, in any order and interleaved with
    the calls that block - the interval is one from 2 to 120 and the one that
    is stored, the status timer runs with its period, the three channels are
    numbered and on or off, and every string is shorter than its array. *)
Theorem app_invariant w : reachable w → app_ok w.
Proof. apply reachable_ok. Qed.

End Mqtt.

(** ** A boot, for the witnesses: a device with credentials whose store has an
    interval out of range. *)

(** Where a procedure ends, when it answers [a]. *)
Definition final {A S} (o : option (A * S)) (s : S) : S := match o with Some (_, s') => s' | None => s end.
Lemma final_run {A S} (o : option (A * S)) a s : fst <$> o = Some a → o = Some (a, final o s).
Proof. destruct o as [[]|]; cbn; congruence. Qed.

Definition demo_store : nvs_map :=
  nvs_set_str ("system"%string, "ssid"%string) (bytes "home") (nvs_set_str ("system"%string, "pass"%string) (bytes "secret")
    (nvs_set (sys_key "router" NVS_U8) 1 (nvs_set interval_key 500 (∅, ∅)))).
Definition demo_mac : list Z := [1; 2; 3; 4; 5; 6].
Definition demo_sha1 (text : list Z) : list Z := take 20 (text ++ replicate 20 0).
Definition demo_boot : world nvs_map := final (csro_init true demo_mac demo_sha1 (power_up demo_store)) (power_up demo_store).
Import Rational.
(** Then the datagram of a server. *)
Definition demo_datagram : json :=
  JObject [(bytes "ip", JString (bytes "10.0.0.1")); (bytes "mac", JString (bytes "aabbccddeeff"))].
Definition demo_found : world nvs_map :=
  final (handle (D := QArith_base.Q) (Datagram (render false 0 demo_datagram ++ [0]) []) demo_boot) demo_boot.

Lemma demo_boot_reachable : reachable (D := QArith_base.Q) demo_boot.
Proof. apply (reach_boot true demo_mac demo_sha1 demo_store); [done|]. apply final_run. by vm_compute. Qed.
Lemma demo_found_reachable : reachable (D := QArith_base.Q) demo_found.
Proof. eapply reach_event; [exact demo_boot_reachable|]. apply final_run. by vm_compute. Qed.

Lemma app_invariant_witness : app_ok demo_found ∧ interval (mqtt demo_found) = 5 ∧ broker (mqtt demo_found) = bytes "10.0.0.1".
Proof. split; [exact (app_invariant demo_found demo_found_reachable)|]. split; by vm_compute. Defined.
End Mqtt.
