(* ===== verification/MqttSession.v ===== *)
(** The device with its MQTT client: the application of [Mqtt.v] on the client
    of [MqttClient.v].

    The calls of the client run on the state [sys] of the client with the state
    [world] of the application in it; the message handlers are events of the
    application. The round of [csro_mqtt_task] is written again with these
    calls, and refines the round of [Mqtt.v], where a call only answers whether
    it succeeds and what happens meanwhile. *)
From S2P Require Import Prelude Nvs Datetime Cjson Misc MqttPacket MqttClient World System Nlight Device Mqtt.

Module MqttSession.
Import MqttClient Cjson Misc World System Nlight Device Mqtt.

(** The handlers the application gives to [MQTTSubscribe]. *)
Inductive who := Self | Hass | Group.

Section MqttSession.
Context {st : Type} `{Nvs st} `{!NvsStr st} {D : Type} `{Double D}.
(** What the stack holds in the uninitialised arrays [sub_topic] and [payload]
    of [csro_nlight_handle_hass_message]. *)
Context (garbage : message → list Z * list Z).

(** [MessageData]: the text from the topic pointer on, and the payload. *)
Definition message_of (m : MqttPacket.publish_data) : message :=
  let t := MqttPacket.lenstring (MqttPacket.p_topicName m) in
  mkMessage (default [] (MqttPacket.data t)) (MqttPacket.len t) (MqttPacket.p_payload m) (MqttPacket.p_payloadlen m).
Definition told (h : who) (m : MqttPacket.publish_data) : Mqtt.event :=
  let data := message_of m in
  match h with
  | Self => Self_message data
  | Hass => Hass_message (garbage data).1 (garbage data).2 data
  | Group => Group_message data
  end.
#[export] Instance device_app : App (world st) Mqtt.event who := {|
  happens := handle (D := D);
  on_message := told;
  connected w := isconnected (mqtt w);
  set_connected b w := set_mqtt (set_isconnected b (mqtt w)) w |}.
#[export] Instance device_laws : AppLaws (W := world st) := {| closed := Session_closed; closed_happens _ := eq_refl |}.

#[local] Abbreviation device := (sys (world st) Mqtt.event who).
(** A step of the application. *)
Definition local {A} (m : M (world st) A) : MR device A := zoom appl set_app (returning m).
(** The flag [isconnected]. *)
Definition up (s : device) : bool := isconnected (mqtt (appl s)).
(** An array of characters, in memory. *)
Definition chars (s : list Z) : list Z := s ++ [0].

(** ** The calls of the client

    Each notes what it asks for in the log of the application. *)
Definition note (e : effect) : MR device unit := local (emit_effect e).
Definition succeeds (m : MR device Z) : MR device bool := let? rc := m in give (rc =? SUCCESS).
Definition request (e : effect) (m : MR device Z) : MR device bool :=
  let? c := read_sys up in
  (if c then note e else give tt) ;?
  succeeds m.

(** [NetworkConnect] of [MQTTFreeRTOS.c]: [gethostbyname], [socket] and
    [connect] answer by the script of the socket. *)
Definition syscall_returns (otherwise : Z) : MR device Z :=
  let? c := syscall in give (match c with Some c => returns c | None => otherwise end).
Definition NetworkConnect (host : list Z) (port : Z) : MR device bool :=
  note (Connect host port) ;?
  let? host_found := syscall_returns 0 in
  if host_found =? 0 then give false else
  let? my_socket := syscall_returns (-1) in
  if my_socket <? 0 then give false else
  let? rc := syscall_returns (-1) in
  give (rc =? SUCCESS).

(** [MQTTPacket_connectData data] of [broker_is_connected]. *)
Definition connect_options (id name pass will_topic : list Z) : MqttPacket.connectData :=
  let d := MqttPacket.MQTTPacket_connectData_initializer in
  let text s := MqttPacket.mkString (Some (chars s)) (MqttPacket.lenstring MqttPacket.MQTTString_initializer) in
  MqttPacket.mkConnect (MqttPacket.MQTTVersion d) (text id) (MqttPacket.keepAliveInterval d) (MqttPacket.cleansession d) 1
    (MqttPacket.mkWill (text will_topic) (text (bytes "offline")) 1 (MqttPacket.w_qos (MqttPacket.will d)))
    (text name) (text pass).
(** The client has the buffers of [mqtt] from the start. *)
Definition client_init : MR device unit :=
  let? b := read_client buf in
  let? r := read_client readbuf in
  let? _ := MQTTClientInit (λ _, None) 5000 (Some (b, MQTT_BUFFER_LENGTH)) (Some (r, MQTT_BUFFER_LENGTH)) in
  give tt.
Definition login (data : MqttPacket.connack_data) (id name pass will_topic : list Z) : MR device bool :=
  note (Login id name pass will_topic) ;?
  succeeds (MqttClient.MQTTConnect (Some (connect_options id name pass will_topic)) data).
Definition subscribe (topic_filter : list Z) (h : who) : MR device bool :=
  request (Subscribe topic_filter) (MqttClient.MQTTSubscribe (chars topic_filter) QOS1 (Some h)).
Definition publish (topic content : list Z) (retained : bool) : MR device bool :=
  request (Publish topic content retained)
    (MqttClient.MQTTPublish (chars topic) (mkMQTTMessage QOS1 (if retained then 1 else 0) 0 (chars content) (zlen content))).
Definition yield_ : MR device bool := succeeds (MqttClient.MQTTYield 50).

(** ** [csro_mqtt.c] on these calls *)

Definition mqtt_pub_messgae (suffix : list Z) (retained : bool) : MR device bool :=
  local (print_topic (device_topic suffix) set_pub_topic) ;?
  let? m := local (get mqtt) in
  let? ok := publish (pub_topic m) (content_ m) retained in
  if negb ok then (local (put_mqtt (set_isconnected false)) ;? give false) else give true.
Definition or_disconnect (m : MR device bool) (k : MR device bool) : MR device bool :=
  let? ok := m in
  if negb ok then (local (put_mqtt (set_isconnected false)) ;? give false) else k.
(** [data] is what the stack holds where [MQTTConnect] keeps its answer. *)
Definition broker_is_connected (data : MqttPacket.connack_data) : MR device bool :=
  let? m := local (get mqtt) in
  if isconnected m then give true else
  if bool_decide (broker m = []) || bool_decide (prefix m = []) then give false else
  let? ok := NetworkConnect (broker m) 1883 in
  if negb ok then give false else
  local print_topics ;?
  client_init ;?
  let? m := local (get mqtt) in
  or_disconnect (login data (id_ m) (name m) (pass m) (pub_topic m)) (
  or_disconnect (subscribe (sub_topic_self m) Self) (
  or_disconnect (subscribe (sub_topic_hass m) Hass) (
  or_disconnect (subscribe (sub_topic_group m) Group) (
  local (put_sys (λ s, set_serv_conn_count (u32 (serv_conn_count s + 1)) s)) ;?
  local (copy_to MQTT_BUFFER_LENGTH (bytes "online") (λ s, put_mqtt (set_content_ s))) ;?
  mqtt_pub_messgae (bytes "available") true)))).

Definition serve (taken : world st → bool) (clear : world st → world st) (prepare : M (world st) unit) (suffix : list Z) : MR device unit :=
  let? t := local (get taken) in
  if t then
    local (modify clear) ;?
    local prepare ;?
    let? _ := mqtt_pub_messgae suffix false in give tt
  else give tt.
(** [vTaskDelay]: the next entry of the script says what happens. *)
Definition vTaskDelay : MR device unit := let? _ := syscall in give tt.

(** What a round finds: the address of the device, the free heap, the stack. *)
Record surroundings := mkSurroundings { address : Z; free_heap : Z; stack_data : MqttPacket.connack_data }.
Definition mqtt_round (x : surroundings) : MR device unit :=
  let? wifi := local (csro_system_get_wifi_status (address x)) in
  if wifi then
    let? connected := broker_is_connected (stack_data x) in
    if connected then
      local (csro_system_set_status NORMAL_START_OK) ;?
      serve status_msg (set_status_msg false) (csro_device_prepare_status_message (D := D)) (bytes "state") ;?
      serve system_msg (set_system_msg false) (csro_system_prepare_message (D := D) (free_heap x)) (bytes "system") ;?
      serve alarm_msg (set_alarm_msg false) (csro_device_prepare_timer_message (D := D)) (bytes "timer") ;?
      let? ok := yield_ in
      local (when (negb ok) (put_mqtt (set_isconnected false)))
    else
      local (csro_system_set_status NORMAL_START_NOSERVER) ;?
      vTaskDelay
  else
    local (modify (λ w, set_wifi_retry (u16 (wifi_retry w + 1)) w)) ;?
    let? w := local (get Datatypes.id) in
    if (sc_flag (sysinfo w) =? 1) && (10 <=? wifi_retry w) then
      local (on_store (nvs_set (sys_key "sc_flag" NVS_U8) 0)) ;?
      esp_restart
    else vTaskDelay.

(** What the device can reach: it boots; in any order, a round runs, something
    happens between the calls, and the network and the time go on in any way. *)
Definition set_outside (cs : list (sockcall Mqtt.event)) (n : Z) (x : MqttPacket.publish_data) (s : device) : device :=
  mkSys (client s) n cs (sent s) (out_of_fuel s) x (appl s).
Inductive device_reachable : device → Prop :=
  | device_boot timer mac_of sha1 store s :
      length mac_of = 6%nat → csro_init timer mac_of sha1 (power_up store) = Some (true, appl s) → device_reachable s
  | device_round x s s' : device_reachable s → mqtt_round x s = Some (Some tt, s') → device_reachable s'
  | device_event e s w : device_reachable s → handle (D := D) e (appl s) = Some (Some tt, w) → device_reachable (set_app w s)
  | device_outside cs n x s : device_reachable s → device_reachable (set_outside cs n x s).

(** ** Refinement

    [refine P m n Q]: a run of [m] from a state of [P] is, on the application, a
    run of [n] for some choice of what [n] leaves open, and ends in [Q]. *)
Definition refine {A X} (P : device → Prop) (m : MR device A) (n : X → MR (world st) A) (Q : device → Prop) : Prop :=
  (device → inhabited X) ∧ ∀ s r s', P s → m s = Some (r, s') → (is_Some r → Q s') ∧ ∃ x, n x (appl s) = Some (r, appl s').
Definition anywhere : device → Prop := λ _, True.
#[local] Instance answer_inhabited : Inhabited answer := populate (mkAnswer true []).

(** The choices of both parts are mixed into one. *)
Lemma refine_bind {A B X} (mix : X → X → X) P (m : MR device A) (n : X → MR (world st) A) Q (k : A → MR device B) (l : A → X → MR (world st) B) R :
  (∀ x y, n (mix x y) = n x ∧ ∀ a, l a (mix x y) = l a y) → refine P m n Q → (∀ a, refine Q (k a) (l a) R) →
  refine P (bind_r m k) (λ x, bind_r (n x) (λ a, l a x)) R.
Proof.
  intros Hmix [Hi Hm] Hk. split; [done|]. intros s r s' HP (o & s1 & Hr & Hr')%bind_Some_inv.
  destruct (Hm s o s1 HP Hr) as (HQ & x & Hx). destruct o as [a|].
  - destruct (Hk a) as [_ Hka]. destruct (Hka s1 r s' (HQ ltac:(done)) Hr') as (HR & y & Hy). split; [done|]. exists (mix x y).
    destruct (Hmix x y) as [E1 E2]. rewrite E1, (bind_r_run _ _ _ _ _ Hx). by rewrite E2.
  - injection Hr' as <- <-. split; [by intros []|]. exists x. unfold bind_r, bind. by rewrite Hx.
Qed.
Lemma refine_if {A X} P (b : bool) (m1 m2 : MR device A) (n1 n2 : X → MR (world st) A) Q :
  refine P m1 n1 Q → refine P m2 n2 Q → refine P (if b then m1 else m2) (λ x, if b then n1 x else n2 x) Q.
Proof. by destruct b. Qed.
(** A part of what is left open. *)
Lemma refine_part {A X Y} (f : Y → X) (g : X → Y) P (m : MR device A) (n : X → MR (world st) A) Q :
  (∀ x, f (g x) = x) → refine P m n Q → refine P m (λ y, n (f y)) Q.
Proof.
  intros Hfg [Hi Hm]. split; [intros s; destruct (Hi s) as [x]; by constructor; apply g|]. intros s r s' HP Hr.
  destruct (Hm s r s' HP Hr) as (HQ & x & Hx). split; [done|]. exists (g x). by rewrite Hfg.
Qed.
Lemma refine_pre {A X} P P' (m : MR device A) (n : X → MR (world st) A) Q : (∀ s, P s → P' s) → refine P' m n Q → refine P m n Q.
Proof. intros HP [Hi Hm]. split; [done|]. intros s r s' Hs. apply Hm. by apply HP. Qed.
Lemma refine_local {A X} `{Inhabited X} P (m : M (world st) A) Q : (∀ s a w, P s → m (appl s) = Some (a, w) → Q (set_app w s)) →
  refine P (local m) (λ _ : X, returning m) Q.
Proof.
  intros Hm. split; [intros _; exact (inhabits inhabitant)|]. intros s r s' HP. unfold local, zoom. destruct (returning m (appl s)) as [[o w]|] eqn:E; [|done]. intros [= <- <-]. split.
  - intros [a ->]. apply bind_Some_inv in E as (b & w1 & Hb & [= <- <-]). by eapply Hm.
  - by exists inhabitant.
Qed.
Lemma refine_local_any {A X} `{Inhabited X} P (m : M (world st) A) : refine P (local m) (λ _ : X, returning m) anywhere.
Proof. by apply refine_local. Qed.
Lemma refine_give {A X} `{Inhabited X} P (a : A) : refine P (give a) (λ _ : X, returning (ret a)) anywhere.
Proof. split; [intros _; exact (inhabits inhabitant)|]. intros s r s' _ [= <- <-]. split; [done|]. by exists inhabitant. Qed.
Lemma refine_restart {A X} `{Inhabited X} P : refine P (esp_restart : MR device A) (λ _ : X, esp_restart) anywhere.
Proof. split; [intros _; exact (inhabits inhabitant)|]. intros s r s' _ [= <- <-]. split; [done|]. by exists inhabitant. Qed.

(** A trace is a list of events. *)
Lemma happen_handle es w : happen es w = handle_all (D := D) es w.
Proof.
  revert w. induction es as [|e es IH]; intros w; [done|]. cbn [happen handle_all]. unfold bind_r, bind. cbn [happens device_app].
  destruct (handle e w) as [[[u|] w1]|]; [apply IH|done|done].
Qed.

(** ** A call that fails closes the session *)

Definition answers {A} (m : MR device A) (P : A → Prop) : Prop := ∀ s a s', m s = Some (Some a, s') → P a.
Lemma answers_bind {A B} (m : MR device A) Q (k : A → MR device B) P : answers m Q → (∀ a, Q a → answers (k a) P) → answers (bind_r m k) P.
Proof. intros Hm Hk s b s' (o & s1 & Hr & Hr')%bind_Some_inv. destruct o as [a|]; [|done]. by eapply (Hk a (Hm _ _ _ Hr)). Qed.
Lemma answers_then {A B} (m : MR device A) (k : A → MR device B) P : (∀ a, answers (k a) P) → answers (bind_r m k) P.
Proof. intros Hk. by apply (answers_bind _ any). Qed.
Lemma answers_give {A} (a : A) (P : A → Prop) : P a → answers (give a) P.
Proof. by intros Ha s b s' [= <- <-]. Qed.
Ltac answer := repeat first
  [ match goal with
    | |- answers (bind_r _ _) _ => apply answers_then; intros
    | |- answers (if ?b then _ else _) _ => destruct b
    | |- answers (match ?x with _ => _ end) _ => destruct x
    | |- answers (let _ := _ in _) _ => cbv zeta
    end
  | apply answers_give; auto ].

(** The calls answer [SUCCESS] or [FAILURE]. *)
Definition rc_ok (rc : Z) : Prop := rc = SUCCESS ∨ rc = FAILURE.
Lemma sendPacket_rc n t : answers (sendPacket n t) (λ r, rc_ok r.1).
Proof. unfold sendPacket, rc_ok. answer. Qed.
Lemma send_and_wait_rc n t p k : answers k rc_ok → answers (send_and_wait n t p k) rc_ok.
Proof.
  intros Hk. unfold send_and_wait. destruct (n <=? 0); [apply answers_give; by right|].
  eapply answers_bind; [apply sendPacket_rc|]. intros [rc t'] Hrc. cbn [fst] in Hrc. destruct (negb _); [by apply answers_give|].
  apply answers_then. intros a. destruct (a =? p); [done|apply answers_give; by right].
Qed.
Lemma set_handler_rc f h : answers (MQTTSetMessageHandler f h : MR device Z) rc_ok.
Proof. unfold MQTTSetMessageHandler, rc_ok. answer. match goal with |- context [if ?b then _ else _] => destruct b end; auto. Qed.

Lemma dispatch_rc p t : answers (dispatch p t : MR device (Z * bool * Timer)) (λ r, r.1.1 = SUCCESS → 0 <= p).
Proof.
  unfold dispatch. match goal with |- answers (if ?b then _ else _) _ => destruct b eqn:E1 end.
  { apply answers_give. intros _. repeat (apply orb_true_iff in E1 as [E1|E1]; [|apply Z.eqb_eq in E1; subst; done]). apply Z.eqb_eq in E1. lia. }
  destruct (Z.eqb_spec p MqttPacket.PUBLISH) as [->|]; [by intros ? ? ? _ ?|].
  destruct (Z.eqb_spec p MqttPacket.PUBREC) as [->|]; [by intros ? ? ? _ ?|].
  destruct (Z.eqb_spec p MqttPacket.PUBREL) as [->|]; [by intros ? ? ? _ ?|]. cbn [orb].
  destruct (Z.eqb_spec p MqttPacket.PINGRESP) as [->|]; [by intros ? ? ? _ ?|].
  apply answers_give. cbn [fst]. intros ->. done.
Qed.

Lemma session_close_run (s : device) r s' : MqttClient.MQTTCloseSession s = Some (r, s') → r = Some tt ∧ appl s' = set_mqtt (set_isconnected false (mqtt (appl s))) (appl s).
Proof.
  unfold MqttClient.MQTTCloseSession. rewrite bind_put_client. unfold put_connected, read_client. cbn. unfold bind_r, bind, returning, read_sys, bind, modify, get, ret. cbn.
  destruct (clean_session _ =? 0); intros [= <- <-]; done.
Qed.
Lemma close_down s r s' : MqttClient.MQTTCloseSession s = Some (r, s') → up s' = false.
Proof. intros Hr. unfold up. by destruct (session_close_run s r s' Hr) as [_ ->]. Qed.
Lemma cycle_fails t (s : device) rc t' s' : cycle t s = Some (Some (rc, t'), s') → rc < 0 → up s' = false.
Proof.
  unfold cycle. intros ([[p t1]|] & s1 & _ & Hr)%bind_Some_inv Hrc; [|done]. apply bind_Some_inv in Hr as ([[[rc0 exit] t2]|] & s2 & Hd & Hr); [|done].
  pose proof (dispatch_rc _ _ _ _ _ Hd) as Hp. cbn [fst] in Hp.
  apply bind_Some_inv in Hr as ([rc1|] & s3 & Hk & Hr); [|done].
  assert (Hrc1 : rc1 = SUCCESS → 0 <= p).
  { intros ->. apply Hp. destruct exit; [by injection Hk|]. apply bind_Some_inv in Hk as ([k|] & s4 & _ & Hk); [|done].
    injection Hk as Hk _. by destruct (k =? SUCCESS). }
  destruct (Z.eqb_spec rc1 SUCCESS) as [Es|]; [injection Hr as <- _ _; specialize (Hrc1 Es); lia|].
  rewrite bind_r_read in Hr. change (connected (appl s3)) with (up s3) in Hr. apply bind_Some_inv in Hr as ([u|] & s4 & Hc & [= <- <- <-]).
  destruct (up s3) eqn:Eu; [by eapply close_down|]. by injection Hc as _ <-.
Qed.
Lemma yield_fails ms (s : device) rc s' : MqttClient.MQTTYield ms s = Some (Some rc, s') → rc ≠ SUCCESS → up s' = false.
Proof.
  unfold MqttClient.MQTTYield. rewrite !bind_r_read. generalize (TimerCountdownMS (now s) ms). generalize (rounds_left s). intros fuel. revert s rc s'.
  induction fuel as [|fuel IH]; intros s rc s' t; cbn [yield_loop]; [by intros [= <- _] ?|].
  intros ([[rc0 t1]|] & s1 & Hc & Hr)%bind_Some_inv; [|done]. destruct (Z.ltb_spec rc0 0).
  - injection Hr as <- <-. intros _. by eapply cycle_fails.
  - rewrite bind_timer_expired in Hr. destruct (TimerIsExpired (now s1) t1) as [[] t2]; [by injection Hr as <- _|]. by eapply IH.
Qed.

Lemma with_mutex_run {A} (m : MR device A) s r s' : with_mutex m s = Some (r, s') →
  ∃ s1, m (set_client (set_mutex true (client s)) s) = Some (r, s1) ∧ appl s' = appl s1.
Proof.
  unfold with_mutex. rewrite bind_read_client. destruct (mutex (client s)); [done|]. rewrite bind_put_client.
  intros ([a|] & s1 & Hr & Hr')%bind_Some_inv; [|injection Hr' as <- <-; by exists s1].
  rewrite bind_put_client in Hr'. injection Hr' as <- <-. by exists s1.
Qed.
Lemma close_on_failure_run rc (s : device) r s' : close_on_failure rc s = Some (r, s') →
  r = Some rc ∧ (rc = FAILURE → appl s' = set_mqtt (set_isconnected false (mqtt (appl s))) (appl s)).
Proof.
  unfold close_on_failure. intros (o & s1 & Hc & Hr)%bind_Some_inv. destruct (Z.eqb_spec rc FAILURE) as [->|].
  - apply session_close_run in Hc as [-> Hc]. injection Hr as <- <-. by split.
  - injection Hc as <- <-. injection Hr as <- <-. by split.
Qed.
Lemma client_command_run m s r s' : answers m rc_ok → command m s = Some (r, s') →
  (∀ rc, r = Some rc → rc ≠ SUCCESS → up s' = false) ∧
  (up s = false → r = Some FAILURE ∧ appl s' = set_mqtt (set_isconnected false (mqtt (appl s))) (appl s)).
Proof.
  intros Hm (s1 & Hr & Ha)%with_mutex_run. rewrite bind_r_read in Hr. set (s0 := set_client _ s) in Hr. change (connected (appl s0)) with (up s) in Hr.
  apply bind_Some_inv in Hr as (o & s2 & Hrc & Hr). split.
  - intros rc -> Hne. destruct o as [rc'|]; [|done]. apply close_on_failure_run in Hr as [[= <-] Hdown]. unfold up. rewrite Ha, Hdown; [done|].
    destruct (up s); cbn [negb] in Hrc; [by destruct (Hm _ _ _ Hrc)|by injection Hrc as <- _].
  - intros Hup. rewrite Hup in Hrc. cbn [negb] in Hrc. injection Hrc as <- <-. apply close_on_failure_run in Hr as [-> Hdown].
    split; [done|]. by rewrite Ha, Hdown.
Qed.

(** A trace with its answer is a call of [Mqtt.v]. *)
Lemma blocking_trace {A} es (r : option A) b w w' : happen es w = Some ((λ _, tt) <$> r, w') →
  blocking (D := D) (mkAnswer b es) w = Some ((λ _, b) <$> r, w').
Proof.
  rewrite happen_handle. intros Hes. unfold blocking, bind_r, bind. cbn [meanwhile success]. rewrite Hes. by destruct r.
Qed.
Lemma down_again (w : world st) : isconnected (mqtt w) = false → set_mqtt (set_isconnected false (mqtt w)) w = w.
Proof. destruct w as [? ? [] ? ? ? ? ? ? ? ? ?]. cbn. by intros ->. Qed.
Definition success_of (r : option Z) : bool := match r with Some rc => rc =? SUCCESS | None => true end.
(** Running [succeeds]. *)
Lemma succeeds_run (m : MR device Z) s r s' : succeeds m s = Some (r, s') → ∃ r0, m s = Some (r0, s') ∧ r = (λ rc, rc =? SUCCESS) <$> r0.
Proof.
  unfold succeeds. intros ([rc|] & s1 & Hr & Hr')%bind_Some_inv; injection Hr' as <- <-; eexists; by split.
Qed.
(** A call that closes the session when it fails, after what happened. *)
Lemma answered_run es r0 w (s' : device) : happen es w = Some ((λ _, tt) <$> r0, appl s') →
  (∀ rc, r0 = Some rc → rc ≠ SUCCESS → up s' = false) →
  (let? ok := blocking (D := D) (mkAnswer (success_of r0) es) in returning (when (negb ok) Mqtt.MQTTCloseSession ;;; ret ok)) w =
    Some ((λ rc, rc =? SUCCESS) <$> r0, appl s').
Proof.
  intros Hes Hdown. pose proof (blocking_trace es r0 (success_of r0) w _ Hes) as Hb. unfold bind_r, bind. rewrite Hb.
  destruct r0 as [rc|]; [|done]. cbn [fmap option_fmap option_map success_of]. destruct (Z.eqb_spec rc SUCCESS) as [|Hne]; [done|]. cbn [negb when].
  specialize (Hdown rc eq_refl Hne). unfold Mqtt.MQTTCloseSession, put_mqtt, returning, bind, modify. by rewrite (down_again _ Hdown).
Qed.

Lemma yield_refines P : refine P yield_ (λ a, Mqtt.MQTTYield (D := D) a) anywhere.
Proof.
  split; [intros _; exact (inhabits (mkAnswer true []))|]. intros s r s' _ (r0 & Hr & ->)%succeeds_run. split; [done|]. destruct (traces_yield 50 s r0 s' Hr) as [es Hes].
  exists (mkAnswer (success_of r0) es). apply answered_run; [done|]. intros rc -> Hne. by eapply yield_fails.
Qed.
Lemma bind_note {B} e (k : unit → MR device B) s : bind_r (note e) k s = k tt (set_app (set_log (log (appl s) ++ [e]) (appl s)) s).
Proof. done. Qed.
Lemma request_refines P e m : answers m rc_ok → traces (command m) →
  refine P (request e (command m)) (λ a, on_session (D := D) a e) anywhere.
Proof.
  intros Hm Ht. split; [intros _; exact (inhabits (mkAnswer true []))|]. intros s r s' _ Hr. split; [done|]. unfold request in Hr. rewrite bind_r_read in Hr.
  unfold on_session. destruct (up s) eqn:Eup.
  - cbv iota in Hr. rewrite bind_note in Hr. apply succeeds_run in Hr as (r0 & Hr & ->).
    destruct (Ht _ _ _ Hr) as [es Hes]. destruct (client_command_run m _ _ _ Hm Hr) as [Hdown _].
    exists (mkAnswer (success_of r0) es). pose proof (answered_run es r0 _ s' Hes Hdown) as Hrun.
    unfold bind_r at 1, bind at 1, returning at 1, bind at 1, get at 1. unfold up in Eup. cbn [ret]. rewrite Eup. cbn [negb]. exact Hrun.
  - cbv iota in Hr. rewrite bind_give in Hr. apply succeeds_run in Hr as (r0 & Hr & ->).
    destruct (client_command_run m _ _ _ Hm Hr) as [_ Hdown]. destruct (Hdown Eup) as [-> ->]. exists (mkAnswer true []).
    unfold up in Eup. unfold bind_r at 1, bind at 1, returning at 1, bind at 1, get at 1. cbn [ret]. by rewrite Eup.
Qed.
Lemma publish_refines P topic content retained : refine P (publish topic content retained) (λ a, Mqtt.MQTTPublish (D := D) a topic content retained) anywhere.
Proof.
  unfold publish, MqttClient.MQTTPublish, Mqtt.MQTTPublish. apply request_refines; [|apply traces_publish]. apply answers_then. intros t. apply answers_then. intros id. apply answers_then. intros len.
  apply send_and_wait_rc. unfold check_ack, rc_ok. answer. match goal with |- context [if ?b then _ else _] => destruct b end; auto.
Qed.
Lemma subscribe_refines P topic_filter h : refine P (subscribe topic_filter h) (λ a, Mqtt.MQTTSubscribe (D := D) a topic_filter) anywhere.
Proof.
  unfold subscribe, MqttClient.MQTTSubscribe, Mqtt.MQTTSubscribe. apply request_refines; [|apply traces_subscribe]. apply answers_then. intros t. apply answers_then. intros id. apply answers_then. intros len.
  apply send_and_wait_rc. apply answers_then. intros b. apply answers_then. intros x. apply answers_then. intros [rc d].
  apply answers_then. intros granted. destruct (_ && _); [apply set_handler_rc|apply answers_give; by left].
Qed.

(** *** The connection *)

Lemma trace_refines P m : traces m → refine P m (λ a, blocking (D := D) a) anywhere.
Proof.
  intros Ht. split; [intros _; exact (inhabits (mkAnswer true []))|]. intros s r s' _ Hr. split; [done|]. destruct (Ht _ _ _ Hr) as [es Hes]. exists (mkAnswer (default true r) es).
  rewrite (blocking_trace es r _ _ _ Hes). by destruct r.
Qed.
Lemma traces_returns z : traces (syscall_returns z).
Proof. apply traces_bind; [apply traces_syscall|]. intros c. apply traces_give. Qed.
Lemma connect_refines P host port : refine P (NetworkConnect host port) (λ a, Mqtt.NetworkConnect (D := D) a host port) anywhere.
Proof.
  apply (refine_bind (λ _ a, a) _ _ _ anywhere _ (λ _ a, blocking a)); [done|apply refine_local_any|intros u; apply trace_refines].
  apply traces_bind; [apply traces_returns|intros h]. destruct (h =? 0); [apply traces_give|].
  apply traces_bind; [apply traces_returns|intros f]. destruct (f <? 0); [apply traces_give|].
  apply traces_bind; [apply traces_returns|intros rc]. apply traces_give.
Qed.

Definition session_down : device → Prop := λ s, up s = false.
Lemma with_results_run options d s r s' : up s = false → MQTTConnectWithResults options d s = Some (r, s') →
  ∃ es w, happen es (appl s) = Some ((λ _, tt) <$> r, w) ∧
    appl s' = match r with Some (rc, _) => if rc =? SUCCESS then set_mqtt (set_isconnected true (mqtt w)) w else w | None => w end.
Proof.
  intros Hup (s1 & Hr & Ha)%with_mutex_run. rewrite Ha. clear Ha s'. rewrite bind_r_read in Hr. set (s0 := set_client _ s) in Hr.
  change (connected (appl s0)) with (up s) in Hr. rewrite Hup in Hr. cbv iota in Hr. apply bind_Some_inv in Hr as (o & s2 & Hb & Hr).
  destruct (traces_connect_session _ _ _ _ _ Hb) as [es Hes]. exists es. destruct o as [[rc d']|]; [|injection Hr as <- <-; by exists (appl s2)].
  exists (appl s2). destruct (Z.eqb_spec rc SUCCESS) as [->|Hne]; injection Hr as <- <-; (split; [exact Hes|]); [done|].
  by rewrite (proj2 (Z.eqb_neq rc SUCCESS) Hne).
Qed.
Lemma login_refines d id name pass will_topic : refine session_down (login d id name pass will_topic)
  (λ a, Mqtt.MQTTConnect (D := D) a id name pass will_topic) anywhere.
Proof.
  split; [intros _; exact (inhabits (mkAnswer true []))|]. intros s r s' Hup Hr. split; [done|]. unfold login in Hr. rewrite bind_note in Hr. apply succeeds_run in Hr as (r0 & Hr & ->).
  unfold MqttClient.MQTTConnect in Hr. apply bind_Some_inv in Hr as (o & s1 & Hr & Hr'). set (s0 := set_app _ s) in Hr.
  destruct (with_results_run _ _ s0 o s1 Hup Hr) as (es & w & Hes & Hw).
  exists (mkAnswer (match o with Some (rc, _) => rc =? SUCCESS | None => true end) es).
  unfold Mqtt.MQTTConnect. rewrite (bind_r_run (returning (emit_effect _)) _ (appl s) tt (appl s0) eq_refl).
  pose proof (blocking_trace es o (match o with Some (rc, _) => rc =? SUCCESS | None => true end) (appl s0) w Hes) as Hb.
  unfold bind_r, bind. rewrite Hb. destruct o as [[rc d']|]; injection Hr' as <- <-; rewrite Hw; [|done]. cbn [fmap option_fmap option_map].
  by destruct (rc =? SUCCESS).
Qed.

(** [MQTTClientInit] ends no session but the flag: [print_topics] of [Mqtt.v]
    has cleared it. *)
Definition leaves_down {A} (m : MR device A) : Prop := ∀ s r s', up s = false → m s = Some (r, s') → is_Some r ∧ appl s' = appl s.
Lemma leaves_down_bind {A B} (m : MR device A) (k : A → MR device B) : leaves_down m → (∀ a, leaves_down (k a)) → leaves_down (bind_r m k).
Proof.
  intros Hm Hk s r s' Hup (o & s1 & Hr & Hr')%bind_Some_inv. destruct (Hm s o s1 Hup Hr) as [[a ->] Ha].
  unfold up in Hup. rewrite <- Ha in Hup |- *. by apply (Hk a s1 r s').
Qed.
Lemma leaves_down_put f : leaves_down (put_client f).
Proof. by intros s r s' _ [= <- <-]. Qed.
Lemma leaves_down_give {A} (a : A) : leaves_down (give a).
Proof. by intros s r s' _ [= <- <-]. Qed.
Lemma init_refines : refine session_down client_init (λ _ : unit, returning (ret tt)) session_down.
Proof.
  assert (Hinit : leaves_down client_init).
  { unfold client_init, MQTTClientInit. repeat (apply leaves_down_bind; [|intros]); try apply leaves_down_put; try apply leaves_down_give;
      try by intros s r s' _ [= <- <-].
    intros s r s' Hup [= <- <-]. split; [done|]. by apply down_again. }
  split; [by constructor|]. intros s r s' Hup Hr. destruct (Hinit s r s' Hup Hr) as [[[] ->] Ha].
  split; [intros _; unfold session_down, up; by rewrite Ha|]. exists tt. by rewrite Ha.
Qed.

(** ** The main task *)

(** Step over a part that both have, whose states satisfy [Q] afterwards. *)
Ltac step_to Q mix := match goal with
  | |- refine ?P (bind_r ?m ?k) (fun x => bind_r (@?n x) (@?l x)) ?R =>
      refine (refine_bind mix P m n Q k (fun a x => l x a) R _ _ _); cbv beta; [by intros|..|intros]
  end.
(** A step of the application, which leaves nothing open. *)
Ltac step_local Q := match goal with
  | |- refine ?P (bind_r (local ?m) ?k) (fun x => bind_r (@?n x) (@?l x)) ?R =>
      refine (refine_bind (λ _ y, y) P (local m) n Q k (fun a x => l x a) R _ _ _); cbv beta; [by intros|..|intros]
  end.
Ltac branch := match goal with
  | |- refine _ (if ?b then _ else _) (fun x => if ?b then @?n x else @?l x) _ => refine (refine_if _ b _ _ n l _ _ _); cbv beta
  end.
Ltac refines := repeat first
  [ apply refine_local_any | apply refine_give | apply refine_restart
  | step_local anywhere; [apply refine_local_any|]
  | branch ].

Lemma pub_refines P suffix retained : refine P (mqtt_pub_messgae suffix retained) (λ a, Mqtt.mqtt_pub_messgae (D := D) a suffix retained) anywhere.
Proof.
  unfold mqtt_pub_messgae, Mqtt.mqtt_pub_messgae. refines. step_to anywhere (λ (a _ : answer), a); [apply publish_refines|]. refines.
Qed.

Lemma or_disconnect_refines {X} (mix : X → X → X) P m (n : X → MR (world st) bool) k (l : X → MR (world st) bool) :
  (∀ x y, n (mix x y) = n x ∧ l (mix x y) = l y) → refine P m n anywhere → refine anywhere k l anywhere →
  refine P (or_disconnect m k) (λ x, Mqtt.or_disconnect (n x) (l x)) anywhere.
Proof.
  intros Hmix Hm Hk. unfold or_disconnect, Mqtt.or_disconnect.
  refine (refine_bind mix P m n anywhere _ (λ ok x, if negb ok then _ else l x) _ _ Hm _).
  - intros x y. destruct (Hmix x y) as [-> E]. split; [done|]. intros a. by rewrite E.
  - intros ok. refine (refine_if _ (negb ok) _ _ (λ _, _) l _ _ Hk). destruct Hk as [Hi _]. split; [exact Hi|].
    intros s r s' _ Hr. split; [done|]. destruct (Hi s) as [x]. exists x. by injection Hr as <- <-.
Qed.
(** A step of the client alone. *)
Lemma refine_skip {B X} P (m : MR device unit) Q (k : unit → MR device B) (n : X → MR (world st) B) R :
  refine P m (λ _ : unit, returning (ret tt)) Q → refine Q (k tt) n R → refine P (bind_r m k) n R.
Proof.
  intros [_ Hm] [Hi Hk]. split; [done|]. intros s r s' HP (o & s1 & Hr & Hr')%bind_Some_inv.
  destruct (Hm s o s1 HP Hr) as (HQ & _ & [= <- Ha]). destruct (Hk s1 r s' (HQ ltac:(done)) Hr') as (HR & x & Hx).
  split; [done|]. exists x. by rewrite Ha.
Qed.

#[local] Instance attempt_inhabited : Inhabited attempt :=
  populate (let a := mkAnswer true [] in mkAttempt a a a a a a).
(** The answer of one call of an attempt. *)
Lemma attempt_part {A} (f : attempt → answer) P (m : MR device A) (n : answer → MR (world st) A) Q :
  (∀ a, f (mkAttempt a a a a a a) = a) → refine P m n Q → refine P m (λ t, n (f t)) Q.
Proof. intros Hf. by apply (refine_part f (λ a, mkAttempt a a a a a a)). Qed.

Lemma print_topics_down s a w : print_topics (appl s) = Some (a, w) → session_down (set_app w s).
Proof.
  intros Hr. unfold session_down, up. cbn [appl set_app]. unfold print_topics in Hr.
  do 4 (apply bind_Some_inv in Hr as (? & ? & _ & Hr)). by injection Hr as _ <-.
Qed.

Lemma broker_refines P d : refine P (broker_is_connected d) (λ t, Mqtt.broker_is_connected (D := D) t) anywhere.
Proof.
  unfold broker_is_connected, Mqtt.broker_is_connected. refines. rename a into m.
  step_to anywhere (λ x y, mkAttempt (net x) (Mqtt.login y) (sub_self y) (sub_hass y) (sub_group y) (online y)).
  { apply (attempt_part net _ _ (λ a, Mqtt.NetworkConnect a (broker m) 1883)), connect_refines. done. }
  branch; [apply refine_give|]. step_local session_down. { apply refine_local. intros s x w _. apply print_topics_down. }
  eapply refine_skip; [apply init_refines|]. step_local session_down. { apply refine_local. by intros s x w Hs [= <- <-]. }
  clear m. rename a1 into m.
  apply (or_disconnect_refines (λ x y, mkAttempt (net y) (Mqtt.login x) (sub_self y) (sub_hass y) (sub_group y) (online y)) _ _
    (λ t, Mqtt.MQTTConnect (Mqtt.login t) (id_ m) (name m) (pass m) (pub_topic m))); [done| |].
  { apply (attempt_part Mqtt.login _ _ (λ a, Mqtt.MQTTConnect a (id_ m) (name m) (pass m) (pub_topic m))), login_refines. done. }
  apply (or_disconnect_refines (λ x y, mkAttempt (net y) (Mqtt.login y) (sub_self x) (sub_hass y) (sub_group y) (online y)) _ _
    (λ t, Mqtt.MQTTSubscribe (sub_self t) (sub_topic_self m))); [done| |].
  { apply (attempt_part sub_self _ _ (λ a, Mqtt.MQTTSubscribe a (sub_topic_self m))), subscribe_refines. done. }
  apply (or_disconnect_refines (λ x y, mkAttempt (net y) (Mqtt.login y) (sub_self y) (sub_hass x) (sub_group y) (online y)) _ _
    (λ t, Mqtt.MQTTSubscribe (sub_hass t) (sub_topic_hass m))); [done| |].
  { apply (attempt_part sub_hass _ _ (λ a, Mqtt.MQTTSubscribe a (sub_topic_hass m))), subscribe_refines. done. }
  apply (or_disconnect_refines (λ x y, mkAttempt (net y) (Mqtt.login y) (sub_self y) (sub_hass y) (sub_group x) (online y)) _ _
    (λ t, Mqtt.MQTTSubscribe (sub_group t) (sub_topic_group m))); [done| |].
  { apply (attempt_part sub_group _ _ (λ a, Mqtt.MQTTSubscribe a (sub_topic_group m))), subscribe_refines. done. }
  refines. apply (attempt_part online _ _ (λ a, Mqtt.mqtt_pub_messgae a (bytes "available") true)), pub_refines. done.
Qed.

Lemma serve_refines P taken clear prepare suffix : refine P (serve taken clear prepare suffix)
  (λ a, Mqtt.serve (D := D) taken clear prepare a suffix) anywhere.
Proof.
  unfold serve, Mqtt.serve. refines. step_to anywhere (λ (a _ : answer), a); [apply pub_refines|]. refines.
Qed.
Lemma delay_refines P : refine P vTaskDelay (λ es, handle_all (D := D) es) anywhere.
Proof.
  split; [intros _; exact (inhabits [])|]. intros s r s' _ Hr. split; [done|].
  assert (Ht : traces vTaskDelay) by (apply traces_bind; [apply traces_syscall|intros c; apply traces_give]).
  destruct (Ht _ _ _ Hr) as [es Hes]. exists es. rewrite <- happen_handle, Hes. by destruct r as [[]|].
Qed.

(** The round of [Mqtt.v] in these surroundings. *)
Definition round_in (x : surroundings) (r : round) : round :=
  mkRound (address x) (try_ r) (pub_state r) (pub_system r) (pub_timer r) (free_heap x) (Mqtt.yield_ r) (delay r).
Definition all_of (t : attempt) (a : answer) (es : list Mqtt.event) : round := mkRound 0 t a a a 0 a es.
#[local] Instance round_inhabited : Inhabited round := populate (all_of inhabitant inhabitant []).
Lemma round_part {A} (f : round → answer) P (m : MR device A) (n : answer → MR (world st) A) Q :
  (∀ a, f (all_of inhabitant a []) = a) → refine P m n Q → refine P m (λ r, n (f r)) Q.
Proof. intros Hf. by apply (refine_part f (λ a, all_of inhabitant a [])). Qed.

Lemma round_refines x : refine anywhere (mqtt_round x) (λ r, Mqtt.mqtt_round (D := D) (round_in x r)) anywhere.
Proof.
  unfold mqtt_round, Mqtt.mqtt_round, round_in. cbn [addr try_ pub_state pub_system pub_timer heap Mqtt.yield_ delay]. refines.
  - step_to anywhere (λ r r', mkRound 0 (try_ r) (pub_state r') (pub_system r') (pub_timer r') 0 (Mqtt.yield_ r') (delay r')).
    { by apply (refine_part try_ (λ t, all_of t inhabitant []) _ _ (λ t, Mqtt.broker_is_connected t)), broker_refines. }
    refines.
    + step_to anywhere (λ r r', mkRound 0 (try_ r') (pub_state r) (pub_system r') (pub_timer r') 0 (Mqtt.yield_ r') (delay r')).
      { by apply (round_part pub_state _ _ (λ a, Mqtt.serve _ _ _ a _)), serve_refines. }
      step_to anywhere (λ r r', mkRound 0 (try_ r') (pub_state r') (pub_system r) (pub_timer r') 0 (Mqtt.yield_ r') (delay r')).
      { by apply (round_part pub_system _ _ (λ a, Mqtt.serve _ _ _ a _)), serve_refines. }
      step_to anywhere (λ r r', mkRound 0 (try_ r') (pub_state r') (pub_system r') (pub_timer r) 0 (Mqtt.yield_ r') (delay r')).
      { by apply (round_part pub_timer _ _ (λ a, Mqtt.serve _ _ _ a _)), serve_refines. }
      step_to anywhere (λ r r', mkRound 0 (try_ r') (pub_state r') (pub_system r') (pub_timer r') 0 (Mqtt.yield_ r) (delay r')).
      { by apply (round_part Mqtt.yield_ _ _ (λ a, Mqtt.MQTTYield a)), yield_refines. }
      refines.
    + by apply (refine_part delay (λ es, all_of inhabitant inhabitant es) _ _ (λ es, handle_all es)), delay_refines.
  - by apply (refine_part delay (λ es, all_of inhabitant inhabitant es) _ _ (λ es, handle_all es)), delay_refines.
Qed.

(** C2: A round of the main task on the real client is a round of [Mqtt.v].
    Whatever the socket answers and the broker sends - packets in any pieces and
    of any content - the application sees only what a round of the abstract
    model allows: each call of the client succeeds or fails, messages and the
    other tasks come in between, and a call that fails leaves the session
    closed. *)
Theorem client_refinement x s r s' : mqtt_round x s = Some (r, s') →
  ∃ c, Mqtt.mqtt_round (D := D) (round_in x c) (appl s) = Some (r, appl s').
Proof. intros Hr. by destruct (proj2 (round_refines x) s r s' I Hr) as [_ Hc]. Qed.

(** C9: The invariant of the application holds in every state the device can
    reach with its MQTT client, whatever the network brings. *)
Theorem device_invariant s : device_reachable s → app_ok (appl s).
Proof.
  intros Hs. apply (reachable_ok (D := D)).
  induction Hs as [timer mac_of sha1 store s Hmac Hr|x s s' _ IH Hr|e s w _ IH Hr|cs n x s _ IH].
  - by eapply reach_boot.
  - destruct (proj2 (round_refines x) s (Some tt) s' I Hr) as [_ [c Hc]]. by eapply reach_round.
  - by eapply reach_event.
  - exact IH.
Qed.

(** ** Messages to the device *)

(** The levels of its topics, and the slots of the client after
    [broker_is_connected] with every subscription granted. *)
Definition device_levels (w : world st) : list (list Z) := [prefix (mqtt w); mac_str (sysinfo w); dev_type (sysinfo w)].
Definition group_levels (w : world st) : list (list Z) := [prefix (mqtt w); bytes "group"].
Definition subscriptions (w : world st) : list (slot (handler := who)) :=
  [(Some (device_levels w ++ [bytes "command"]), Some Self);
   (Some ((device_levels w ++ [bytes "hass"]) ++ [bytes "#"]), Some Hass);
   (Some (group_levels w), Some Group); (None, None); (None, None)].
Definition subscribed (s : device) : Prop :=
  Forall2 holds (subscriptions (appl s)) (messageHandlers (client s)) ∧ defaultMessageHandler (client s) = None.
(** Whom a topic is for. *)
Definition destination (w : world st) (ns : list (list Z)) : option who :=
  if bool_decide (ns = device_levels w ++ [bytes "command"]) then Some Self
  else if under (device_levels w ++ [bytes "hass"]) ns then Some Hass
  else if bool_decide (ns = group_levels w) then Some Group
  else None.

Lemma filters_are_topics w : join (device_levels w ++ [bytes "command"]) = device_topic (bytes "command") w ∧
  join ((device_levels w ++ [bytes "hass"]) ++ [bytes "#"]) = device_topic (bytes "hass/#") w ∧ join (group_levels w) = prefix (mqtt w) ++ bytes "/group".
Proof. done. Qed.
Lemma device_audience w ns : Forall plain (device_levels w) → ns ≠ [] → Forall level ns →
  audience ns (subscriptions w) None = option_list (destination w ns).
Proof.
  intros Hw Hne Hns. unfold audience, recipients, subscriptions, destination. cbn [omap list_omap recipient].
  assert (Hplain : ∀ s, plain (bytes s) → Forall plain (device_levels w ++ [bytes s])) by (intros s Hs; apply Forall_app; auto).
  rewrite (filter_plain ns (device_levels w ++ [bytes "command"])) by (done || apply Hplain; repeat constructor; done).
  change (bytes "#") with [35]. rewrite filter_under by (done || apply Hplain; repeat constructor; done).
  rewrite (filter_plain ns (group_levels w)); [|done..|].
  2: { apply Forall_cons. split; [by apply Forall_cons in Hw as [? _]|]. repeat constructor; done. }
  case_bool_decide as E1; [subst ns|].
  - rewrite bool_decide_eq_false_2 by done. destruct (under _ _) eqn:E2; [|done]. unfold under in E2. apply andb_true_iff in E2 as [E2 _].
    apply bool_decide_eq_true in E2. injection E2 as E2. exfalso. revert E2. by vm_compute.
  - destruct (under _ _) eqn:E2; [|by case_bool_decide]. rewrite bool_decide_eq_false_2; [done|]. intros ->.
    unfold under in E2. by apply andb_true_iff in E2 as [_ E2].
Qed.

(** The slots in memory. *)
Definition in_memory (x : slot (handler := who)) : option (list Z) * option who := ((λ fs, chars (join fs)) <$> x.1, x.2).
Lemma subscriptions_hold w : Forall plain (device_levels w) → Forall2 holds (subscriptions w) (in_memory <$> subscriptions w).
Proof.
  intros Hw. pose proof Hw as [Hp [Hm [Ht _]%Forall_cons]%Forall_cons]%Forall_cons.
  assert (Hlit : ∀ s, Forall (λ c, c ≠ 0 ∧ c ≠ 47 ∧ c ≠ 43 ∧ c ≠ 35) (bytes s) → plain (bytes s)) by done.
  repeat (apply Forall2_cons; split; [split; [done|]; first [exact I | split; [done|]; split; [|by exists []]]|]); [..|by apply Forall2_nil].
  all: cbn [filter_ok device_levels group_levels app]; repeat split; auto; try (left; apply Hlit; repeat constructor; done).
Qed.

(** C4: A message for the device reaches its handler and is answered. On a
    session with the three subscriptions, a PUBLISH packet that comes in - to
    the command topic, to a topic below "hass", to the group, or to any other -
    has exactly the effect of the handler of its topic on the application, once,
    with the payload that was published, and none when the topic is no one's;
    and it is acknowledged with its packet identifier. *)
Theorem message_delivered m cs acks rest d s w : well_formed m → comes_in m cs acks rest d s → subscribed s →
  Forall plain (device_levels (appl s)) →
  match destination (appl s) (i_levels m) with
  | Some h => handle (D := D) (told h (i_message m s)) (appl s) = Some (Some tt, w)
  | None => w = appl s
  end →
  ∃ t s', cycle (armed (now s) d) s = Some (Some (MqttPacket.PUBLISH, t), s') ∧ appl s' = w ∧
    sent s' = sent s ++ MqttClient.answer (i_qos m) (i_packetid m) ∧ script s' = rest.
Proof.
  intros Hm Hin [Hslots Hdefault] Hplain Hh.
  destruct (cycle_delivers m cs acks rest d s (subscriptions (appl s)) w Hm Hin Hslots eq_refl) as (t & s' & Hr & Ha & Hsent & Hs & _).
  - rewrite Hdefault, device_audience by (done || apply Hm). destruct (destination _ _) as [h|]; cbn [option_list fmap list_fmap happen]; [|by subst].
    exact (bind_r_run _ _ _ _ _ Hh).
  - by exists t, s'.
Qed.
End MqttSession.

(** ** A device on its network, for the witnesses *)

Import Rational.
#[local] Abbreviation demo_device_sys := (sys (world nvs_map) Mqtt.event who).
Definition no_garbage (_ : message) : list Z * list Z := (replicate 50 0, replicate 50 0).
Definition idle_client : MQTTClient who :=
  mkClient 1 5000 1000 1000 (replicate 1000 0) (replicate 1000 0) 60 0 1 (replicate 5 (None, None)) None TimerInit TimerInit TimerInit false 0.
#[local] Instance demo_device_app : App (world nvs_map) Mqtt.event who := device_app (D := QArith_base.Q) no_garbage.
(** The device has booted and heard of a server; [cs] is what the network does. *)
Definition demo_found_device (cs : list (sockcall Mqtt.event)) : demo_device_sys :=
  mkSys idle_client 1000 cs [] false (MqttPacket.mkPublish 0 0 0 0 MqttPacket.MQTTString_initializer [] 0) demo_found.
Definition reading (bs : list Z) : list (sockcall Mqtt.event) := [mkCall 1 [] 1 []; mkCall 0 bs 0 []].
Definition writing : list (sockcall Mqtt.event) := [mkCall 1 [] 1 []; mkCall 1000 [] 0 []].
(** The name is found, the socket connects, the broker accepts the login and
    the subscriptions; the second timer runs meanwhile. *)
Definition demo_network : list (sockcall Mqtt.event) :=
  [mkCall 1 [] 3 [Second]; mkCall 4 [] 0 []; mkCall 0 [] 5 [Second]] ++
  writing ++ reading [32] ++ reading [2] ++ reading [0; 0] ++
  writing ++ reading [144] ++ reading [3] ++ reading [0; 2; 1] ++
  writing ++ reading [144] ++ reading [3] ++ reading [0; 3; 1] ++
  writing ++ reading [144] ++ reading [3] ++ reading [0; 4; 1] ++
  writing ++ reading [64] ++ reading [2] ++ reading [0; 5].
Definition demo_surroundings : surroundings := mkSurroundings 0x0700000a 20000 (MqttPacket.mkConnack 0 0).
Definition demo_round (s : demo_device_sys) : demo_device_sys :=
  final (mqtt_round (D := QArith_base.Q) no_garbage demo_surroundings s) s.
Definition demo_online : demo_device_sys := demo_round (demo_found_device demo_network).

Lemma demo_round_run : mqtt_round (D := QArith_base.Q) no_garbage demo_surroundings (demo_found_device demo_network) = Some (Some tt, demo_online).
Proof. apply final_run. by vm_compute. Qed.

Lemma client_refinement_witness : (∃ c, Mqtt.mqtt_round (D := QArith_base.Q) (round_in demo_surroundings c) demo_found = Some (Some tt, appl demo_online)) ∧
  isconnected (mqtt (appl demo_online)) = true ∧ length (log (appl demo_online)) = (length (log demo_found) + 6)%nat.
Proof.
  split; [exact (client_refinement no_garbage demo_surroundings (demo_found_device demo_network) (Some tt) demo_online demo_round_run)|].
  by vm_compute.
Defined.
Lemma device_invariant_witness : app_ok (appl demo_online).
Proof.
  apply (device_invariant (D := QArith_base.Q) no_garbage). eapply device_round; [|exact demo_round_run].
  apply (device_event no_garbage (Datagram (render false 0 demo_datagram ++ [0]) []) (set_app demo_boot (demo_found_device demo_network)));
    [|apply final_run; by vm_compute].
  apply (device_boot no_garbage true demo_mac demo_sha1 demo_store); [done|]. apply final_run. by vm_compute.
Defined.

Lemma reading_arrives bs : arrives bs (reading bs).
Proof. by exists 1, 0, 1%nat, 0%nat. Qed.
Lemma writing_leaves n : n <= 1000 → leaves n writing.
Proof. intros Hn. by exists 1, [], 1%nat, 1000, [], 0%nat. Qed.
Lemma short_packet_arrives h body : body ≠ [] → zlen body < 128 → packet_arrives h body (reading [h] ++ reading [zlen body] ++ reading body).
Proof.
  intros Hne Hlen. exists (reading [h]), (reading [zlen body]), (reading body). split; [done|]. split; [apply reading_arrives|].
  rewrite MqttPacket.varint_last by done. split; [|rewrite bool_decide_eq_false_2 by done; apply reading_arrives].
  exists (reading [zlen body]), []. split; [by rewrite app_nil_r|]. split; [apply reading_arrives|done].
Qed.

(** Then a command of the broker. *)
Definition demo_command : incoming :=
  mkIncoming 0 1 0 9 [bytes "aabbccddeeff"; bytes "010203040506"; bytes "nlight3"; bytes "command"] (render false 0 (JObject [(bytes "sysinfo", JNumber 1)])).
Definition demo_reads : list (sockcall Mqtt.event) :=
  reading [i_header demo_command] ++ reading [zlen (i_body demo_command)] ++ reading (i_body demo_command).
Definition demo_told : demo_device_sys :=
  set_outside (demo_reads ++ writing) (now demo_online) (MqttPacket.mkPublish 0 0 0 0 MqttPacket.MQTTString_initializer [] 0) demo_online.
Definition demo_after : world nvs_map :=
  final (handle (D := QArith_base.Q) (told no_garbage Self (i_message demo_command demo_told)) (appl demo_told)) (appl demo_told).
Lemma demo_plain : Forall plain (device_levels demo_found).
Proof.
  assert (Hl : device_levels demo_found = [bytes "aabbccddeeff"; bytes "010203040506"; bytes "nlight3"]) by (by vm_compute).
  rewrite Hl. by repeat constructor.
Qed.
Lemma demo_subscribed : subscribed demo_told.
Proof.
  split; [|by vm_compute]. assert (Hh : messageHandlers (client demo_told) = in_memory <$> subscriptions (appl demo_told)) by (by vm_compute).
  rewrite Hh. apply subscriptions_hold. assert (Hl : device_levels (appl demo_told) = device_levels demo_found) by (by vm_compute).
  rewrite Hl. apply demo_plain.
Qed.
Lemma message_delivered_witness : ∃ t s',
  cycle (armed (now demo_told) 100) demo_told = Some (Some (MqttPacket.PUBLISH, t), s') ∧ system_msg (appl demo_online) = false ∧
  system_msg (appl s') = true ∧ sent s' = sent demo_told ++ [64; 2; 0; 9].
Proof.
  assert (H1 : system_msg (appl demo_online) = false) by (by vm_compute). assert (H1' : system_msg demo_after = true) by (by vm_compute).
  assert (H2 : MqttClient.answer (i_qos demo_command) (i_packetid demo_command) = [64; 2; 0; 9]) by (by vm_compute).
  destruct (message_delivered (D := QArith_base.Q) no_garbage demo_command demo_reads writing [] 100 demo_told demo_after) as (t & s' & Hr & Hw & Hsent & _).
  - clear. constructor; try done. by repeat constructor.
  - clear. assert (Hc : 1 <= 1000 ∧ readbuf_size (client demo_told) = 1000 ∧ zlen (readbuf (client demo_told)) = 1000 ∧
      buf_size (client demo_told) = 1000 ∧ zlen (buf (client demo_told)) = 1000 ∧ keep_alive (client demo_told) = 60) by (by vm_compute).
    destruct Hc as (_ & E1 & E2 & E3 & E4 & E5).
    assert (Hp : zlen (i_packet demo_command) <=? 1000 = true) by (by vm_compute).
    constructor; rewrite ?E1, ?E2, ?E3, ?E4, ?E5; try lia.
    + apply short_packet_arrives; [done|]. apply Z.ltb_lt. by vm_compute.
    + change (leaves 4 writing). by apply writing_leaves.
    + reflexivity.
    + split; by vm_compute.
    + by split.
    + left. by vm_compute.
    + intros [=].
  - exact demo_subscribed.
  - clear. assert (Hl : device_levels (appl demo_told) = device_levels demo_found) by (by vm_compute). rewrite Hl. apply demo_plain.
  - clear. assert (Hd : destination (appl demo_told) (i_levels demo_command) = Some Self) by (by vm_compute). rewrite Hd. apply final_run. by vm_compute.
  - rewrite H2 in Hsent. rewrite <- Hw in H1'. exists t, s'. split; [exact Hr|]. split; [exact H1|]. split; [exact H1'|exact Hsent].
Defined.

End MqttSession.
