(* ===== verification/Session.v ===== *)
(** What the main task of [Mqtt.v] does: the connection to the broker, the
    period of the status message, the datagrams of the server, the rounds
    without a network, and the boot after smartconfig. *)
From S2P Require Import Prelude Nvs Datetime Cjson Misc World System Nlight Device Mqtt.

Module Session.
Import Cjson Misc World System Nlight Device Mqtt Datetime.Alarm.

Section Session.
Context {st : Type} `{Nvs st} `{!NvsStr st} {D : Type} `{Double D}.
Implicit Types w : world st.

(** A call that returns before anything else happens. *)
Definition quiet (a : answer) : Prop := meanwhile a = [].

Lemma bind_r_returning {S A B} (m : M S A) (k : A → MR S B) s a s' : m s = Some (a, s') → bind_r (returning m) k s = k a s'.
Proof. intros Hm. by apply bind_r_run, returning_run. Qed.

Lemma blocking_quiet a w : quiet a → blocking (D := D) a w = Some (Some (success a), w).
Proof. intros Ha. unfold blocking. by rewrite Ha. Qed.

(** What a request leaves: it is out, and a failed one closes the session. *)
Definition requested (ok : bool) (e : effect) w : world st :=
  let w := set_log (log w ++ [e]) w in if ok then w else set_mqtt (set_isconnected false (mqtt w)) w.

Lemma on_session_quiet a e w : quiet a → isconnected (mqtt w) = true →
  on_session (D := D) a e w = Some (Some (success a), requested (success a) e w).
Proof.
  intros Ha Hc. unfold on_session. rewrite (bind_r_returning (get _) _ w true w) by (unfold get; by rewrite Hc). cbn [negb].
  rewrite (bind_r_returning (emit_effect e) _ w tt (set_log (log w ++ [e]) w)) by done.
  rewrite (bind_r_run _ _ _ _ _ (blocking_quiet a _ Ha)). unfold requested. by destruct (success a).
Qed.

Lemma connect_quiet a host port w : quiet a →
  NetworkConnect (D := D) a host port w = Some (Some (success a), set_log (log w ++ [Connect host port]) w).
Proof.
  intros Ha. unfold NetworkConnect. rewrite (bind_r_returning (emit_effect _) _ w tt (set_log (log w ++ [Connect host port]) w)) by done.
  by apply blocking_quiet.
Qed.

Lemma login_quiet a i n p t w : quiet a → isconnected (mqtt w) = false →
  MQTTConnect (D := D) a i n p t w =
    Some (Some (success a), set_mqtt (set_isconnected (success a) (mqtt w)) (set_log (log w ++ [Login i n p t]) w)).
Proof.
  intros Ha Hc. unfold MQTTConnect. rewrite (bind_r_returning (emit_effect _) _ w tt (set_log (log w ++ [Login i n p t]) w)) by done.
  rewrite (bind_r_run _ _ _ _ _ (blocking_quiet a _ Ha)).
  destruct (success a); [done|]. destruct w as [? ? [] ? ? ? ? ? ? ? ? ?]. cbn in Hc |- *. by rewrite Hc.
Qed.

Lemma or_disconnect_ok m k w w1 : m w = Some (Some true, w1) → or_disconnect m k w = k w1.
Proof. intros Hm. unfold or_disconnect. by rewrite (bind_r_run _ _ _ _ _ Hm). Qed.
Lemma or_disconnect_failed m k w w1 : m w = Some (Some false, w1) →
  or_disconnect m k w = Some (Some false, set_mqtt (set_isconnected false (mqtt w1)) w1).
Proof. intros Hm. unfold or_disconnect. by rewrite (bind_r_run _ _ _ _ _ Hm). Qed.

Lemma or_disconnect_session a e k w : quiet a → isconnected (mqtt w) = true →
  or_disconnect (on_session (D := D) a e) k w =
    let w1 := set_log (log w ++ [e]) w in
    if success a then k w1 else Some (Some false, set_mqtt (set_isconnected false (mqtt w1)) w1).
Proof.
  intros Ha Hc. pose proof (on_session_quiet a e w Ha Hc) as Hr. unfold requested in Hr. cbv zeta. destruct (success a).
  - by rewrite (or_disconnect_ok _ _ _ _ Hr).
  - by rewrite (or_disconnect_failed _ _ _ _ Hr).
Qed.

(** *** Topics *)

(** Every topic of the device fits its 100 bytes. *)
Lemma device_topic_fits suffix w : app_ok w → (length suffix <= 9)%nat → fits_in MQTT_TOPIC_LENGTH (device_topic suffix w) = true.
Proof.
  intros Hw Hs. apply Z.ltb_lt. unfold device_topic, slash. rewrite !length_app, (ok_mac w Hw), (ok_type w Hw).
  pose proof (ok_prefix w Hw) as Hp. apply Z.ltb_lt in Hp. change (length (bytes "/")) with 1%nat.
  change (length (bytes "nlight3")) with 7%nat. unfold MQTT_TOPIC_LENGTH. lia.
Qed.
Definition group_topic w : list Z := prefix (mqtt w) ++ bytes "/group".
Lemma group_topic_fits w : app_ok w → fits_in MQTT_TOPIC_LENGTH (group_topic w) = true.
Proof.
  intros Hw. apply Z.ltb_lt. unfold group_topic. rewrite length_app. pose proof (ok_prefix w Hw) as Hp. apply Z.ltb_lt in Hp.
  change (length (bytes "/group")) with 6%nat. unfold MQTT_TOPIC_LENGTH. lia.
Qed.

Lemma print_topic_run text put w : fits_in MQTT_TOPIC_LENGTH (text w) = true →
  print_topic text put w = Some (tt, set_mqtt (put (text w) (mqtt w)) w).
Proof.
  intros Hf. unfold print_topic, copy_to. rewrite (bind_run (get text) _ w (text w) w) by done. by rewrite Hf.
Qed.

(** The topics are printed before the login. *)
Definition topics_set w : world st :=
  set_mqtt (set_isconnected false (set_pub_topic (device_topic (bytes "available") w)
    (set_sub_topic_hass (device_topic (bytes "hass/#") w) (set_sub_topic_self (device_topic (bytes "command") w)
    (set_sub_topic_group (group_topic w) (mqtt w)))))) w.
Lemma print_topics_run w : app_ok w → print_topics w = Some (tt, topics_set w).
Proof.
  intros Hw. unfold print_topics.
  rewrite (bind_run _ _ _ _ _ (print_topic_run _ set_sub_topic_group w (group_topic_fits w Hw))).
  assert (Hd : ∀ suffix put w1, (length suffix <= 9)%nat → prefix (mqtt w1) = prefix (mqtt w) → sysinfo w1 = sysinfo w →
    print_topic (device_topic suffix) put w1 = Some (tt, set_mqtt (put (device_topic suffix w) (mqtt w1)) w1)).
  { intros suffix put w1 Hl Ep Es. assert (E : device_topic suffix w1 = device_topic suffix w) by (unfold device_topic; by rewrite Ep, Es).
    rewrite <- E. apply print_topic_run. rewrite E. by apply device_topic_fits. }
  match goal with |- _ ?w1 = _ => rewrite (bind_run _ _ _ _ _ (Hd (bytes "command") set_sub_topic_self w1 ltac:(by apply Nat.leb_le) eq_refl eq_refl)) end.
  match goal with |- _ ?w1 = _ => rewrite (bind_run _ _ _ _ _ (Hd (bytes "hass/#") set_sub_topic_hass w1 ltac:(by apply Nat.leb_le) eq_refl eq_refl)) end.
  match goal with |- _ ?w1 = _ =>
    by rewrite (bind_run _ _ _ _ _ (Hd (bytes "available") set_pub_topic w1 ltac:(by apply Nat.leb_le) eq_refl eq_refl)) end.
Qed.

(** A message on a session goes out on the topic of its suffix. *)
Lemma publish_quiet a suffix retained w : app_ok w → (length suffix <= 9)%nat → quiet a → isconnected (mqtt w) = true →
  ∃ w', mqtt_pub_messgae (D := D) a suffix retained w = Some (Some (success a), w') ∧
    w' = set_log (log w ++ [Publish (device_topic suffix w) (content_ (mqtt w)) retained])
      (set_mqtt (set_isconnected (success a) (set_pub_topic (device_topic suffix w) (mqtt w))) w).
Proof.
  intros Hw Hs Ha Hc. eexists. split; [|done]. unfold mqtt_pub_messgae, MQTTPublish.
  rewrite (bind_r_returning _ _ _ _ _ (print_topic_run (device_topic suffix) set_pub_topic w (device_topic_fits _ _ Hw Hs))).
  set (w1 := set_mqtt _ w). rewrite (bind_r_returning (get mqtt) _ w1 (mqtt w1) w1) by done.
  rewrite (bind_r_run _ _ _ _ _ (on_session_quiet a _ w1 Ha Hc)).
  destruct w as [? ? [] ? ? ? ? ? ? ? ? ?]. cbn in Hc. subst. by destruct (success a).
Qed.

(** *** The connection *)

Definition answers (t : attempt) : list answer := [net t; login t; sub_self t; sub_hass t; sub_group t; online t].
(** What is sent, in order, when every call succeeds. *)
Definition script w : list effect :=
  [Connect (broker (mqtt w)) 1883;
   Login (id_ (mqtt w)) (name (mqtt w)) (pass (mqtt w)) (device_topic (bytes "available") w);
   Subscribe (device_topic (bytes "command") w);
   Subscribe (device_topic (bytes "hass/#") w);
   Subscribe (group_topic w);
   Publish (device_topic (bytes "available") w) (bytes "online") true].
(** How many calls succeed before the first that fails. *)
Fixpoint good (l : list answer) : nat := match l with a :: l => if success a then Datatypes.S (good l) else 0%nat | [] => 0%nat end.

(** C19: When the application has a server and no session, one attempt to
    connect makes the calls of the script in order - the socket to port 1883,
    the login with the names of the device and "offline" as its will on the
    topic "available", the three subscriptions, then the retained "online" -
    stops after the first that fails, and answers whether all six succeeded,
    which is also whether there is a session afterwards; the connection is
    counted once the subscriptions stand. The application invariant holds
    afterwards, and no topic overflows its array. *)
Theorem connect_sequence w t : app_ok w → isconnected (mqtt w) = false → broker (mqtt w) ≠ [] → prefix (mqtt w) ≠ [] →
  Forall quiet (answers t) →
  let k := good (answers t) in
  ∃ w', broker_is_connected (D := D) t w = Some (Some (bool_decide (k = 6%nat)), w') ∧ app_ok w' ∧
    log w' = log w ++ take (Datatypes.S k) (script w) ∧
    isconnected (mqtt w') = bool_decide (k = 6%nat) ∧
    serv_conn_count (sysinfo w') = (if bool_decide (5 <= k)%nat then u32 (serv_conn_count (sysinfo w) + 1) else serv_conn_count (sysinfo w)) ∧
    clock w' = clock w ∧ channel w' = channel w.
Proof.
  intros Hw Hc Hb Hp Hq k.
  assert (Hok : ∀ r w', broker_is_connected (D := D) t w = Some (r, w') → app_ok w') by (intros r w'; by apply ok_connect).
  repeat (apply Forall_cons in Hq as [? Hq]). unfold broker_is_connected in *.
  rewrite (bind_r_returning (get mqtt) _ w (mqtt w) w) in Hok |- * by done. rewrite Hc, !bool_decide_eq_false_2 in Hok |- * by done.
  cbn [orb] in Hok |- *. rewrite (bind_r_run _ _ _ _ _ (connect_quiet (net t) _ _ w ltac:(done))) in Hok |- *.
  unfold k, answers. cbn [good]. destruct (success (net t)); cbn [negb] in Hok |- *.
  2: { eexists. split; [done|]. split; [by eapply Hok|]. by cbn. }
  set (w1 := set_log _ w) in *. assert (Hw1 : app_ok w1) by (by eapply ok_emit).
  rewrite (bind_r_returning _ _ _ _ _ (print_topics_run w1 Hw1)) in Hok |- *. set (w2 := topics_set w1) in *.
  rewrite (bind_r_returning (get mqtt) _ w2 (mqtt w2) w2) in Hok |- * by done.
  pose proof (login_quiet (login t) (id_ (mqtt w2)) (name (mqtt w2)) (pass (mqtt w2)) (pub_topic (mqtt w2)) w2 ltac:(done) eq_refl) as R3.
  destruct (success (login t)).
  2: { rewrite (or_disconnect_failed _ _ _ _ R3) in Hok |- *. eexists. split; [done|]. split; [by eapply Hok|].
       cbn. rewrite <- app_assoc. done. }
  rewrite (or_disconnect_ok _ _ _ _ R3) in Hok |- *. unfold MQTTSubscribe in Hok |- *.
  do 3 (rewrite or_disconnect_session in Hok |- * by done; cbv zeta in Hok |- *;
    match type of Hok with context[if success ?a then _ else _] => destruct (success a) end;
    [|eexists; split; [done|]; split; [by eapply Hok|]; cbn; by rewrite <- !app_assoc]).
  match type of Hok with context[(_ ;? _) ?s] => set (w4 := s) in * end.
  rewrite (bind_r_returning (put_sys _) _ w4 tt (set_sysinfo (set_serv_conn_count (u32 (serv_conn_count (sysinfo w4) + 1)) (sysinfo w4)) w4)) in Hok |- * by done.
  match type of Hok with context[(_ ;? _) ?s] => set (w5 := s) in * end.
  rewrite (bind_r_returning (copy_to _ _ _) _ w5 tt (set_mqtt (set_content_ (bytes "online") (mqtt w5)) w5)) in Hok |- * by done.
  match type of Hok with context[mqtt_pub_messgae _ _ _ ?s] => set (w6 := s) in * end.
  assert (Hw6 : app_ok w6) by (destruct Hw; by constructor).
  destruct (publish_quiet (online t) (bytes "available") true w6 Hw6 ltac:(by apply Nat.leb_le) ltac:(done) eq_refl) as (w' & Hr & ->).
  rewrite Hr in Hok |- *. clear Hr. destruct (success (online t)); (eexists; split; [reflexivity|]; split; [by eapply Hok|]);
    cbn; by rewrite <- !app_assoc.
Qed.

(** *** Events that let the status timer run

    A property that the parts of the state other than the timer do not matter
    to, and that holds again when the message is asked for. *)
Lemma any_clock {A} (P : world st → Prop) (m : M (Datetime.Clock.state st) A) : (∀ c w, P w → P (set_clock c w)) → keeps P (on_clock m).
Proof. intros HP. apply (keeps_zoom P _ _ _ (λ _ _, True)); [done| |auto]. by intros w _ s a s'. Qed.

Section Undisturbed.
Variable P : world st → Prop.
Hypothesis P_clock : ∀ c w, P w → Clock.tbl c = Clock.tbl (clock w) → P (set_clock c w).
Hypothesis P_commands : ∀ c, keeps P (on_alarms (Datetime.Alarm.run c)).
Hypothesis P_sysinfo : ∀ s w, P w → P (set_sysinfo s w).
Hypothesis P_mqtt : ∀ m w, P w → P (set_mqtt m w).
Hypothesis P_channel : ∀ c w, P w → P (set_channel c w).
Hypothesis P_system : ∀ w, P w → P (set_system_msg true w).
Hypothesis P_alarm : ∀ w, P w → P (set_alarm_msg true w).
Hypothesis P_count : ∀ n w, P w → P (set_chip_count n w).
Hypothesis P_log : ∀ e w, P w → P (set_log (log w ++ [e]) w).
Hypothesis P_trigger : keeps P (csro_mqtt_msg_trigger_status (st := st)).

Lemma undisturbed_clock {A} (m : M (Datetime.Clock.state st) A) : (∀ t, keeps (λ c, Clock.tbl c = t) m) → keeps P (on_clock m).
Proof. intros Hm. apply keeps_on_clock; [exact Hm|]. intros w c. apply P_clock. Qed.
Lemma undisturbed_commands vs : keeps P (add_command vs) ∧ keeps P (modify_command vs) ∧ keeps P (delete_command vs) ∧ keeps P (clear_command vs).
Proof.
  unfold add_command, modify_command, delete_command, clear_command.
  split_and!; keep; match goal with
    | |- keeps _ (on_alarms (csro_alarm_add ?a ?b ?c)) => exact (P_commands (Add a b c))
    | |- keeps _ (on_alarms (csro_alarm_modify ?i ?a ?b ?c)) => exact (P_commands (Modify i a b c))
    | |- keeps _ (on_alarms (csro_alarm_delete ?i)) => exact (P_commands (Delete i))
    | |- keeps _ (on_alarms csro_alarm_clear) => exact (P_commands Clear)
    end.
Qed.
Lemma undisturbed_mqtt f : keeps P (put_mqtt f).
Proof. apply keeps_modify. auto. Qed.
Lemma undisturbed_copy n s f : keeps P (copy_to n s (λ s, put_mqtt (f s))).
Proof. apply keeps_copy_to. intros _. apply undisturbed_mqtt. Qed.
Lemma undisturbed_put_channel i ch : keeps P (put_channel i ch).
Proof. unfold put_channel. keep. apply keeps_modify. auto. Qed.
Lemma undisturbed_emit e : keeps P (emit_effect e).
Proof. apply keeps_modify. auto. Qed.
Lemma undisturbed_asked : keeps P csro_mqtt_msg_trigger_system ∧ keeps P csro_mqtt_msg_trigger_alarm.
Proof. split; apply keeps_modify; auto. Qed.
#[local] Hint Resolve undisturbed_mqtt undisturbed_copy undisturbed_put_channel undisturbed_emit P_trigger : keeps.
Lemma undisturbed_channel_set i v s : keeps P (nlight_channel_set i v s).
Proof. unfold nlight_channel_set, get_channel. keep. Qed.
#[local] Hint Resolve undisturbed_channel_set : keeps.

Lemma undisturbed_self data :
  (∀ v, csro_system_parse_level1_json_number (D := D) (payload data) 0 (bytes "interval") = Some (true, v) → keeps P (csro_system_set_interval v)) →
  keeps P (csro_device_handle_self_message (D := D) data).
Proof.
  intros Hs. destruct undisturbed_asked as [Hsys Hal]. unfold csro_device_handle_self_message, on_number_unit, on_number.
  apply keeps_bind_r.
  - apply keeps_returning. apply keeps_bind; [|intros [? ?]; keep].
    intros w a w' Hw ([found v] & w1 & Hr & Hr')%bind_Some_inv. unfold lift in Hr.
    destruct (csro_system_parse_level1_json_number _ _ _) as [[f' v']|] eqn:E; [|done]. injection Hr as <- <- <-.
    destruct f'; [|by injection Hr' as <- <-]. revert Hr'. refine (keeps_bind P _ _ (Hs v' eq_refl) _ w a w' Hw). intros []. apply keeps_ret.
  - intros v. unfold alarm_command, csro_nlight_handle_self_message, self_channel. keep_r;
      match goal with |- keeps P (?k ?vs) => destruct (undisturbed_commands vs) as (? & ? & ? & ?); assumption end.
Qed.
Lemma undisturbed_handle e : (e = Status_tick → keeps P status_timer_tick) →
  (∀ data v, e = Self_message data → csro_system_parse_level1_json_number (D := D) (payload data) 0 (bytes "interval") = Some (true, v) → keeps P (csro_system_set_interval v)) →
  keeps P (handle (D := D) e).
Proof.
  intros Ht Hs. destruct undisturbed_asked as [Hsys Hal]. destruct e; cbn [handle].
  - apply keeps_returning, undisturbed_clock, second_table.
  - by apply keeps_returning, Ht.
  - assert (Hw : ∀ l v, keeps P (write_all l v)) by (induction l as [|x l IH]; intros v; cbn [write_all]; unfold i2c_master_aw9523b_write; keep).
    unfold key_timer_callback, csro_aw9523b_test, i2c_master_aw9523b_read. keep_r; first [apply Hw|by apply keeps_modify; auto].
  - unfold process_udp_message. keep_r. apply undisturbed_clock. intros t. apply set_time_table.
  - apply undisturbed_self. intros v. by apply Hs.
  - unfold csro_device_handle_hass_message, csro_nlight_handle_hass_message, hass_channel. keep_r.
  - unfold csro_device_handle_group_message, on_number_unit, on_number. keep_r.
  - keep_r.
Qed.
End Undisturbed.


(** A message to the device that sets the interval starts the timer anew. *)
Definition sets_interval (e : event) : Prop :=
  match e with Self_message data => ∃ v, csro_system_parse_level1_json_number (D := D) (payload data) 0 (bytes "interval") = Some (true, v) | _ => False end.
(** What is left of the timer, or the message is due. *)
Definition due_in (n : Z) w : Prop := status_msg w = true ∨ left_ (status_timer w) <= n.
Lemma due_in_kept n e : e ≠ Status_tick → ¬ sets_interval e → keeps (due_in n) (handle (D := D) e).
Proof.
  intros He Hs. apply undisturbed_handle; try done.
  - intros c. by apply any_clock.
  - intros w u w' _ (u1 & w1 & [= <- <-] & [= <- <-])%bind_Some_inv. by left.
  - intros data v -> Hv. destruct Hs. by exists v.
Qed.
Fixpoint ticks_of (es : list event) : Z := match es with [] => 0 | Status_tick :: es => 1 + ticks_of es | _ :: es => ticks_of es end.
Lemma due_in_run es : ∀ w w1 n, app_ok w → due_in n w → Forall (λ e, ¬ sets_interval e) es → handle_all (D := D) es w = Some (Some tt, w1) →
  due_in (n - ticks_of es) w1.
Proof.
  induction es as [|e es IH]; intros w w1 n Hw Hn Hs Hr; [injection Hr as <-; by rewrite Z.sub_0_r|].
  apply Forall_cons in Hs as [He Hs]. cbn [handle_all] in Hr. apply bind_Some_inv in Hr as ([u|] & w2 & He' & Hr); [|done].
  pose proof (ok_handle e w _ w2 Hw He') as Hw2.
  assert (Hstep : due_in (n - ticks_of [e]) w2).
  { assert (Hother : e ≠ Status_tick → due_in n w2) by (intros Hne; by eapply due_in_kept).
    destruct e; cbn [ticks_of]; rewrite ?Z.sub_0_r; try by apply Hother.
    cbn [handle] in He'. apply bind_Some_inv in He' as (u' & w3 & Hr3 & [= _ <-]). unfold status_timer_tick in Hr3.
    apply bind_Some_inv in Hr3 as (t & w4 & [= <- <-] & Hr3). destruct (Z.leb_spec (left_ (status_timer w)) 1) as [|Hl].
    - apply bind_Some_inv in Hr3 as (u2 & w5 & [= <- <-] & Hr3). apply bind_Some_inv in Hr3 as (u3 & w6 & [= <- <-] & [= <- <-]). by left.
    - injection Hr3 as <- <-. destruct Hn as [Hn|Hn]; [by left|right]. cbn. lia. }
  specialize (IH w2 w1 _ Hw2 Hstep Hs Hr). replace (n - ticks_of (e :: es)) with (n - ticks_of [e] - ticks_of es) by (destruct e; cbn [ticks_of]; lia). done.
Qed.

(** What is out stays out. *)
Definition logged (l : list effect) w : Prop := ∃ l', log w = l ++ l'.
Lemma logged_emit l e : keeps (logged l) (emit_effect e).
Proof. apply keeps_modify. intros w [l' E]. exists (l' ++ [e]). cbn. by rewrite E, app_assoc. Qed.
Lemma logged_quiet l f : (∀ w, log (f w) = log w) → keeps (logged l) (modify f).
Proof. intros Hf. apply keeps_modify. intros w [l' E]. exists l'. by rewrite Hf. Qed.
Lemma logged_handle l e : keeps (logged l) (handle (D := D) e).
Proof.
  apply undisturbed_handle; try done.
  - intros c. by apply any_clock.
  - intros e' w Hw. by apply (logged_emit l e' w tt).
  - unfold csro_mqtt_msg_trigger_status, reset_status_timer. keep; by apply logged_quiet.
  - intros _. unfold status_timer_tick, csro_mqtt_msg_trigger_status, reset_status_timer. keep; by apply logged_quiet.
  - intros data v _ _. unfold csro_system_set_interval, csro_mqtt_change_status_msg_timer, reset_status_timer, on_store, put_mqtt. keep; by apply logged_quiet.
Qed.
Lemma logged_handle_all l es : keeps (logged l) (handle_all (D := D) es).
Proof. induction es as [|e es IH]; cbn [handle_all]; keep_r. apply logged_handle. Qed.
Lemma logged_blocking l a : keeps (logged l) (blocking (D := D) a).
Proof. unfold blocking. keep_r. apply logged_handle_all. Qed.
Lemma logged_put_mqtt l f : keeps (logged l) (put_mqtt f).
Proof. by apply logged_quiet. Qed.
#[local] Hint Resolve logged_blocking logged_put_mqtt logged_emit : keeps.
Lemma logged_copy l n s f : keeps (logged l) (copy_to n s (λ s, put_mqtt (f s))).
Proof. apply keeps_copy_to. intros _. apply logged_put_mqtt. Qed.
#[local] Hint Resolve logged_copy : keeps.
Lemma logged_serve l taken clear prepare a suffix : (∀ w, log (clear w) = log w) → keeps (logged l) prepare →
  keeps (logged l) (serve (D := D) taken clear prepare a suffix).
Proof.
  intros Hc Hp. unfold serve, mqtt_pub_messgae, MQTTPublish, on_session, print_topic, MQTTCloseSession. keep_r; try by apply logged_quiet.
Qed.
Lemma logged_content l j : keeps (logged l) (print_content (D := D) j).
Proof. unfold print_content. keep. Qed.
#[local] Hint Resolve logged_content : keeps.

(** The part of a round behind the publication of the state. *)
Lemma logged_rest l r : keeps (logged l) (
  serve system_msg (set_system_msg false) (csro_system_prepare_message (D := D) (heap r)) (pub_system r) (bytes "system") ;?
  serve alarm_msg (set_alarm_msg false) (csro_device_prepare_timer_message (D := D)) (pub_timer r) (bytes "timer") ;?
  let? ok := MQTTYield (D := D) (yield_ r) in
  returning (when (negb ok) (put_mqtt (set_isconnected false)))).
Proof.
  unfold MQTTYield, MQTTCloseSession. keep_r; apply logged_serve; try done.
  - unfold csro_system_prepare_message. keep. apply keeps_copy_to. intros _. by apply any_clock.
  - unfold csro_device_prepare_timer_message. keep.
Qed.

(** *** The status message *)

(** A good call of [serve]. *)
Lemma serve_quiet taken clear prepare a suffix w w1 : taken w = true → prepare (clear w) = Some (tt, w1) → app_ok w1 →
  (length suffix <= 9)%nat → quiet a → isconnected (mqtt w1) = true →
  serve (D := D) taken clear prepare a suffix w =
    Some (Some tt, set_log (log w1 ++ [Publish (device_topic suffix w1) (content_ (mqtt w1)) false])
      (set_mqtt (set_isconnected (success a) (set_pub_topic (device_topic suffix w1) (mqtt w1))) w1)).
Proof.
  intros Ht Hp Hw1 Hs Ha Hc. unfold serve. rewrite (bind_r_returning (get taken) _ w true w) by (unfold get; by rewrite Ht).
  rewrite (bind_r_returning (modify clear) _ w tt (clear w)) by done. rewrite (bind_r_returning _ _ _ _ _ Hp).
  destruct (publish_quiet a suffix false w1 Hw1 Hs Ha Hc) as (w' & Hr & ->). by rewrite (bind_r_run _ _ _ _ _ Hr).
Qed.
Lemma serve_idle taken clear prepare a suffix w : taken w = false → serve (D := D) taken clear prepare a suffix w = Some (Some tt, w).
Proof. intros Ht. unfold serve. by rewrite (bind_r_returning (get taken) _ w false w) by (unfold get; by rewrite Ht). Qed.

Section Due.
Context `{!DoubleLaws D}.

(** A round with a session and the status message due, up to its publication. *)
Lemma status_round w r : app_ok w → Forall light_ints (channel w) → isconnected (mqtt w) = true → is_connect w = true → status_msg w = true →
  addr r ≠ 0 → quiet (pub_state r) → success (pub_state r) = true →
  ∃ w', app_ok w' ∧ log w' = log w ++ [Publish (device_topic (bytes "state") w) (render false 0 (status_json (channel w))) false] ∧
    status_msg w' = false ∧ isconnected (mqtt w') = true ∧ system_msg w' = system_msg w ∧ alarm_msg w' = alarm_msg w ∧
    mqtt_round (D := D) r w = (
      serve system_msg (set_system_msg false) (csro_system_prepare_message (D := D) (heap r)) (pub_system r) (bytes "system") ;?
      serve alarm_msg (set_alarm_msg false) (csro_device_prepare_timer_message (D := D)) (pub_timer r) (bytes "timer") ;?
      let? ok := MQTTYield (D := D) (yield_ r) in
      returning (when (negb ok) (put_mqtt (set_isconnected false)))) w'.
Proof.
  intros Hw Hl Hc Hwifi Hst Ha Hq1 Hs1. unfold mqtt_round.
  assert (Hwf : csro_system_get_wifi_status (addr r) w = Some (true, w)).
  { unfold csro_system_get_wifi_status. apply Z.eqb_neq in Ha as ->. cbn [negb].
    rewrite (bind_run (get is_connect) _ w true w) by (unfold get; by rewrite Hwifi). cbn [negb when].
    rewrite (bind_run (ret tt) _ w tt w) by done. unfold get. by rewrite Hwifi. }
  rewrite (bind_r_returning _ _ _ _ _ Hwf).
  assert (Hbr : broker_is_connected (D := D) (try_ r) w = Some (Some true, w)).
  { unfold broker_is_connected. rewrite (bind_r_returning (get mqtt) _ w (mqtt w) w) by done. by rewrite Hc. }
  rewrite (bind_r_run _ _ _ _ _ Hbr).
  assert (Hset : ∃ w2, csro_system_set_status NORMAL_START_OK w = Some (tt, w2) ∧ app_ok w2 ∧ log w2 = log w ∧ channel w2 = channel w ∧
    mqtt w2 = mqtt w ∧ status_msg w2 = true ∧ system_msg w2 = system_msg w ∧ alarm_msg w2 = alarm_msg w ∧ mac_str (sysinfo w2) = mac_str (sysinfo w) ∧
    dev_type (sysinfo w2) = dev_type (sysinfo w)).
  { pose proof (ok_set_status NORMAL_START_OK ltac:(done) w) as Hk. unfold csro_system_set_status in *.
    rewrite (bind_run (get _) _ w (status (sysinfo w)) w) in Hk |- * by done.
    rewrite decide_False in Hk |- * by (exact (ok_status w Hw)).
    case_bool_decide; cbn [when] in *; eexists; (split; [done|]); (split; [by eapply Hk|]); done. }
  destruct Hset as (w2 & Hr2 & Hw2 & El & Ech & Em & Es1 & Es2 & Es3 & Emac & Ety).
  rewrite (bind_r_returning _ _ _ _ _ Hr2).
  set (w3 := set_status_msg false w2). assert (Hw3 : app_ok w3) by (destruct Hw2; by constructor).
  destruct (status_message_run (D := D) w3 Hw3) as (Hp & Hj & Hf); [by change (channel w3) with (channel w2); rewrite Ech|].
  change (csro_nlight_prepare_status_message (D := D) (st := st)) with (csro_device_prepare_status_message (D := D) (st := st)) in Hp.
  assert (Hw4 : app_ok (set_mqtt (set_content_ (render false 0 (status_json (channel w3))) (mqtt w3)) w3)).
  { eapply ok_nlight_status; [exact Hw3|exact Hp]. }
  pose proof (serve_quiet status_msg (set_status_msg false) _ _ (bytes "state") w2 _ Es1 Hp Hw4 ltac:(by apply Nat.leb_le) Hq1 ltac:(cbn; by rewrite Em)) as Hserve.
  rewrite (bind_r_run _ _ _ _ _ Hserve). eexists. split; [|split; [|split; [|split; [|split; [|split; [|reflexivity]]]]]].
  - eapply (ok_serve status_msg (set_status_msg false)); [|apply ok_nlight_status|exact Hw2|exact Hserve]. intros w' []. by constructor.
  - unfold device_topic. cbn. by rewrite El, Em, Emac, Ety, Ech.
  - done.
  - cbn. by rewrite Hs1.
  - exact Es2.
  - exact Es3.
Qed.

(** C20: The status message falls due after [interval] seconds of the tick timer
    (100 ticks a second) at the latest, whatever else happens meanwhile: while
    the main task is held up in one call, let any events happen, messages,
    datagrams, keys and the end of the session among them, except a command that
    sets the interval, which starts the period anew. When they have no fault
    and restart nothing, and [100 * interval] of them are ticks, the message is
    due. Then a round of the main loop with network and session publishes, as
    the first thing it sends, the channels as they are, on the topic "state" of
    the device, when the calls of that publication succeed at once, whatever
    comes behind; with nothing else due the round ends without a fault, this is
    all it sends, the request is cleared and the session stays if the yield
    succeeds. *)
Theorem status_message_due w es w1 r : app_ok w → Forall (λ e, ¬ sets_interval e) es → 100 * interval (mqtt w) <= ticks_of es →
  handle_all (D := D) es w = Some (Some tt, w1) →
  status_msg w1 = true ∧
  (Forall light_ints (channel w1) → isconnected (mqtt w1) = true → is_connect w1 = true → addr r ≠ 0 →
   quiet (pub_state r) → success (pub_state r) = true →
   let state := Publish (device_topic (bytes "state") w1) (render false 0 (status_json (channel w1))) false in
   (∀ o w', mqtt_round (D := D) r w1 = Some (o, w') → ∃ rest, log w' = log w1 ++ state :: rest) ∧
   (system_msg w1 = false → alarm_msg w1 = false → quiet (yield_ r) →
    ∃ w', mqtt_round (D := D) r w1 = Some (Some tt, w') ∧ log w' = log w1 ++ [state] ∧
      status_msg w' = false ∧ isconnected (mqtt w') = success (yield_ r) ∧ app_ok w')).
Proof.
  intros Hw Hes Hn Hrun. assert (Hw1 : app_ok w1) by (by eapply ok_handle_all).
  assert (Hst : status_msg w1 = true).
  { pose proof (ok_left w Hw) as Hleft. rewrite (ok_period w Hw) in Hleft. unfold status_period, portTICK_RATE_MS in Hleft. change (1000 / 100) with 10 in Hleft.
    destruct (due_in_run es w w1 (ticks_of es) Hw) as [?|Hd]; [right; dlia|done|done|done|]. pose proof (ok_left w1 Hw1). lia. }
  split; [done|]. intros Hl Hc Hwifi Ha Hq1 Hs1 state.
  destruct (status_round w1 r Hw1 Hl Hc Hwifi Hst Ha Hq1 Hs1) as (w5 & Hw5 & Elog & Est & Hc5 & Esys & Eal & Hround).
  rewrite Hround. fold state in Elog. split.
  - intros o w' Hr. destruct (logged_rest (log w1 ++ [state]) r w5 o w') as [rest E]; [exists []; by rewrite app_nil_r|exact Hr|].
    exists rest. by rewrite E, <- app_assoc.
  - intros Hsys Hal Hq2.
    assert (Hok : ∀ o w', mqtt_round (D := D) r w1 = Some (o, w') → app_ok w') by (intros o w'; by apply ok_round). rewrite Hround in Hok. revert Hok.
    rewrite (bind_r_run _ _ _ _ _ (serve_idle system_msg _ _ _ _ w5 (eq_trans Esys Hsys))).
    rewrite (bind_r_run _ _ _ _ _ (serve_idle alarm_msg _ _ _ _ w5 (eq_trans Eal Hal))).
    assert (Hy : MQTTYield (D := D) (yield_ r) w5 = Some (Some (success (yield_ r)), if success (yield_ r) then w5 else set_mqtt (set_isconnected false (mqtt w5)) w5)).
    { unfold MQTTYield. rewrite (bind_r_run _ _ _ _ _ (blocking_quiet _ _ Hq2)). by destruct (success (yield_ r)). }
    rewrite (bind_r_run _ _ _ _ _ Hy). intros Hok.
    destruct (success (yield_ r)); (eexists; split; [reflexivity|]; split; [exact Elog|]; split; [exact Est|]; split; [done|]; by eapply Hok).
Qed.
End Due.

(** *** Datagrams *)
Section Datagrams.
Context `{!DoubleLaws D}.

(** The text of a member. *)
Definition text_at (name : list Z) (j : json) : option (list Z) :=
  match member_of name j with Some (JString s) => Some s | _ => None end.

Lemma text_of_member name j : text_of (cJSON_GetObjectItem (tree (D := D) None j) name) = text_at name j.
Proof.
  pose proof (get_member (D := D) name None j) as Hm. unfold same_member in Hm. unfold text_at.
  destruct (member_of name j) as [j'|]; [destruct Hm as [k ->]|by rewrite Hm]. by destruct j' as [|[]| | | |].
Qed.

(** The server a datagram names, when it is another one than [m]'s. *)
Definition new_server (j : json) (m : mqtt_struct) : option (list Z * list Z) :=
  ip_ ← text_at (bytes "ip") j; mac_ ← text_at (bytes "mac") j;
  if ((4 <=? Z.of_nat (length ip_)) && (10 <=? Z.of_nat (length mac_))) && bool_decide (¬ (ip_ = broker m ∧ mac_ = prefix m))
  then Some (ip_, mac_) else None.
(** The clock is set from the member "time". *)
Definition time_set (stack : list Z) (j : json) : M (world st) unit :=
  match text_at (bytes "time") j with Some t => on_clock (Clock.csro_datetime_set stack (to_string t)) | None => ret tt end.

(** What a JSON datagram does: when its "ip" and "mac" are strings of at
    least 4 and 10 characters and name another server than the present one,
    they become the server and the topic prefix, and the session ends; then
    the clock is set from "time". The copies stay inside the 50-byte arrays
    exactly when both strings have fewer than 50 characters, which nothing
    checks: a longer one is a write past the array. *)
Theorem datagram_server buf stack j w : carries buf j →
  process_udp_message (D := D) stack buf w =
    match new_server j (mqtt w) with
    | Some (ip_, mac_) =>
        if fits_in 50 ip_ && fits_in 50 mac_
        then time_set stack j (set_mqtt (set_isconnected false (set_prefix mac_ (set_broker ip_ (mqtt w)))) w)
        else None
    | None => time_set stack j w
    end.
Proof.
  intros Hc. unfold process_udp_message. rewrite (bind_run _ _ _ _ _ (lift_run _ _ _ (parse_carried (D := D) buf j Hc))).
  rewrite !text_of_member. fold (time_set stack j). unfold new_server.
  destruct (text_at (bytes "ip") j) as [ip_|]; [|done]. destruct (text_at (bytes "mac") j) as [mac_|]; [|done]. cbn [mbind option_bind].
  destruct ((4 <=? Z.of_nat (length ip_)) && (10 <=? Z.of_nat (length mac_))); cbn [andb when]; [|done].
  replace (bool_decide (¬ (ip_ = broker (mqtt w) ∧ mac_ = prefix (mqtt w)))) with
    (bool_decide (ip_ ≠ broker (mqtt w)) || bool_decide (mac_ ≠ prefix (mqtt w))) by (repeat case_bool_decide; tauto).
  unfold bind at 1. unfold bind at 1. unfold get.
  destruct (bool_decide (ip_ ≠ broker (mqtt w)) || bool_decide (mac_ ≠ prefix (mqtt w))); cbn [when]; [|done].
  unfold copy_to. destruct (fits_in 50 ip_); [|done]. by destruct (fits_in 50 mac_).
Qed.
End Datagrams.

(** *** Without a network *)

Fixpoint rounds (rs : list round) : MR (world st) unit :=
  match rs with [] => returning (ret tt) | r :: rs => mqtt_round (D := D) r ;? rounds rs end.

(** A round in which the interface has no address, and nothing else happens. *)
Definition no_wifi (r : round) : Prop := addr r = 0 ∧ delay r = [].
Definition sc_key : nvs_key := sys_key "sc_flag" NVS_U8.

(** What such a round leaves, before the device may restart. *)
Definition offline w : world st :=
  let w := if bool_decide (status (sysinfo w) = RESET_PENDING) then w else set_sysinfo (set_status NORMAL_START_NOWIFI (sysinfo w)) w in
  set_wifi_retry (u16 (wifi_retry w + 1)) (set_is_connect false w).
Definition gives_up w : bool := (sc_flag (sysinfo w) =? 1) && (10 <=? wifi_retry w).
Definition flag_cleared w : world st :=
  set_clock (set_table (mkTable (alarms_of w) (nvs_set sc_key 0 (store_of w))) (clock w)) w.

Lemma no_wifi_round r w : no_wifi r →
  mqtt_round (D := D) r w = if gives_up (offline w) then Some (None, flag_cleared (offline w)) else Some (Some tt, offline w).
Proof.
  intros [Ha Hd]. unfold mqtt_round. set (w1 := set_is_connect false (if bool_decide (status (sysinfo w) = RESET_PENDING) then w else
    set_sysinfo (set_status NORMAL_START_NOWIFI (sysinfo w)) w)).
  assert (Hwf : csro_system_get_wifi_status (addr r) w = Some (false, w1)).
  { unfold csro_system_get_wifi_status, w1. rewrite Ha. cbn [Z.eqb negb].
    assert (Hset : csro_system_set_status NORMAL_START_NOWIFI w = Some (tt, if bool_decide (status (sysinfo w) = RESET_PENDING) then w else
      set_sysinfo (set_status NORMAL_START_NOWIFI (sysinfo w)) w)).
    { unfold csro_system_set_status. rewrite (bind_run (get _) _ w (status (sysinfo w)) w) by done.
      destruct (decide _) as [E|E]; [by rewrite bool_decide_eq_true_2|]. rewrite (bool_decide_eq_false_2 (_ = RESET_PENDING)) by done.
      destruct (decide (status (sysinfo w) = NORMAL_START_NOWIFI)) as [E'|E'].
      - rewrite bool_decide_eq_false_2 by tauto. cbn [when]. destruct w as [? [] ? ? ? ? ? ? ? ? ? ?]. cbn in E' |- *. by rewrite E'.
      - by rewrite bool_decide_eq_true_2. }
    by rewrite (bind_run _ _ _ _ _ Hset). }
  rewrite (bind_r_returning _ _ _ _ _ Hwf). unfold gives_up.
  rewrite (bind_r_returning (modify _) _ w1 tt (offline w)) by (unfold offline, w1; by destruct (bool_decide _)).
  rewrite (bind_r_returning (get Datatypes.id) _ (offline w) (offline w) (offline w)) by done.
  destruct ((sc_flag (sysinfo (offline w)) =? 1) && (10 <=? wifi_retry (offline w))); [done|]. by rewrite Hd.
Qed.

Lemma offline_stays w : clock (offline w) = clock w ∧ sc_flag (sysinfo (offline w)) = sc_flag (sysinfo w) ∧
  wifi_retry (offline w) = u16 (wifi_retry w + 1).
Proof. unfold offline. by destruct (bool_decide _). Qed.

(** The rounds that do not restart. *)
Lemma rounds_on rs w : Forall no_wifi rs → (sc_flag (sysinfo w) = 1 → 0 <= wifi_retry w ∧ wifi_retry w + Z.of_nat (length rs) < 10) →
  ∃ w', rounds rs w = Some (Some tt, w') ∧ clock w' = clock w ∧ sc_flag (sysinfo w') = sc_flag (sysinfo w) ∧
    (sc_flag (sysinfo w) = 1 → wifi_retry w' = wifi_retry w + Z.of_nat (length rs)).
Proof.
  intros Hrs. revert w. induction Hrs as [|r rs Hr Hrs IH]; intros w Hlt; cbn [rounds length] in *.
  - exists w. split_and!; try done. intros _. lia.
  - pose proof (no_wifi_round r w Hr) as Hrun. destruct (offline_stays w) as (E1 & E2 & E3).
    assert (Hno : gives_up (offline w) = false).
    { unfold gives_up. rewrite E2, E3. destruct (Z.eqb_spec (sc_flag (sysinfo w)) 1) as [E|]; [|done]. cbn [andb].
      destruct (Hlt E). unfold u16. apply Z.leb_gt. rewrite Z.mod_small; lia. }
    rewrite Hno in Hrun. rewrite (bind_r_run _ _ _ _ _ Hrun).
    destruct (IH (offline w)) as (w' & -> & F1 & F2 & F3).
    { rewrite E2, E3. intros E. destruct (Hlt E). unfold u16. rewrite Z.mod_small; lia. }
    exists w'. rewrite F1, F2, E1, E2. split_and!; try done. intros E. rewrite F3, E3 by (by rewrite E2). destruct (Hlt E).
    unfold u16. rewrite Z.mod_small; lia.
Qed.

(** A device that has just been given its credentials gives up after ten
    rounds without a network: nine rounds change nothing that is stored, the
    tenth clears the flag "sc_flag" in the store, nothing else of it, and
    restarts. A device whose flag is clear goes on for ever. *)
Theorem wifi_give_up w rs : Forall no_wifi rs → wifi_retry w = 0 →
  if bool_decide (sc_flag (sysinfo w) = 1 ∧ (10 <= length rs)%nat) then
    ∃ w', rounds rs w = Some (None, w') ∧ store_of w' = nvs_set sc_key 0 (store_of w)
  else ∃ w', rounds rs w = Some (Some tt, w') ∧ store_of w' = store_of w.
Proof.
  intros Hrs Hz. case_bool_decide as Hd.
  - destruct Hd as [Hf Hl]. assert (Hsplit : rs = take 9 rs ++ drop 9 rs) by (symmetry; apply take_drop).
    destruct (rounds_on (take 9 rs) w) as (w' & Hr & Hc & Hs & Ht); [by apply Forall_take|rewrite length_take; lia|].
    specialize (Ht Hf). rewrite length_take in Ht.
    assert (Hrun : ∀ l l' v, rounds l w = Some (Some tt, v) → rounds (l ++ l') w = rounds l' v).
    { clear. intros l l'. revert w. induction l as [|r l IH]; intros w v; cbn [rounds app]; [by intros [= <-]|].
      intros (o & w1 & Hm & Hk)%bind_Some_inv. destruct o as [u|]; [|done]. rewrite (bind_r_run _ _ _ _ _ Hm). by apply IH. }
    rewrite Hsplit, (Hrun _ _ _ Hr). assert (Hdl : (1 <= length (drop 9 rs))%nat) by (rewrite length_drop; lia).
    apply (Forall_drop _ 9) in Hrs. destruct (drop 9 rs) as [|r rs']; [cbn in Hdl; lia|]. apply Forall_cons in Hrs as [Hr9 _].
    cbn [rounds]. pose proof (no_wifi_round r w' Hr9) as Hrun9. destruct (offline_stays w') as (E1 & E2 & E3).
    assert (gives_up (offline w') = true) as Hg.
    { unfold gives_up. rewrite E2, E3, Hs, Hf, Ht, Hz. replace (9 `min` length rs)%nat with 9%nat by lia. by vm_compute. }
    rewrite Hg in Hrun9. unfold bind_r. rewrite (bind_run _ _ _ _ _ Hrun9). eexists. split; [done|].
    unfold store_of, flag_cleared. cbn. unfold store_of. by rewrite E1, Hc.
  - destruct (rounds_on rs w Hrs) as (w' & Hr & Hc & _); [intros E; split; [lia|]; apply not_and_l in Hd as [|]; [done|lia]|].
    exists w'. split; [done|]. unfold store_of. by rewrite Hc.
Qed.

(** *** Boot *)
Section Boot.
Context (mac_of : list Z) (sha1 : list Z → list Z) (Hmac : length mac_of = 6%nat) (Hsha : ∀ s, length (sha1 s) = 20%nat).

(** What the store says of the network. *)
Definition router_key : nvs_key := sys_key "router" NVS_U8.
Definition text_key (k : string) : string * string := ("system"%string, k).

Lemma load_settings_total w : ∃ w', load_settings w = Some (tt, w') ∧
  (∀ k, k ≠ sys_key "power_count" NVS_U32 → k ≠ interval_key → nvs_get k (store_of w') = nvs_get k (store_of w)) ∧
  (∀ k, nvs_get_str k (store_of w') = nvs_get_str k (store_of w)) ∧
  sc_flag (sysinfo w') = nvs_read sc_key (sc_flag (sysinfo w)) (store_of w) ∧ wifi_retry w' = wifi_retry w ∧
  router_ssid (sysinfo w') = router_ssid (sysinfo w) ∧ router_pass (sysinfo w') = router_pass (sysinfo w).
Proof.
  unfold load_settings. rewrite (bind_run (get store_of) _ w (store_of w) w) by done. do 2 (unfold put_sys at 1; rewrite (bind_run (modify _) _ _ _ _ eq_refl)).
  rewrite (bind_run (get _) _ _ _ _ eq_refl). rewrite (bind_run (on_store _) _ _ _ _ eq_refl).
  unfold put_mqtt at 1; rewrite (bind_run (modify _) _ _ _ _ eq_refl). rewrite (bind_run (get _) _ _ _ _ eq_refl).
  match goal with |- context[when ?b _] => destruct b end; cbn [when]; eexists; (split; [reflexivity|]); split_and!; try done; unfold store_of; cbn.
  - intros k H1 H2. rewrite !nvs_get_set_ne by (intros E; by subst). done.
  - intros k. by rewrite !nvs_get_str_set.
  - intros k H1 H2. by rewrite nvs_get_set_ne by (intros E; by subst).
  - intros k. by rewrite nvs_get_str_set.
Qed.

(** A string that fits is copied; its length is a sum of known ones. *)
Ltac text_length :=
  rewrite ?length_app; repeat match goal with
    | |- context[length (bytes ?s)] => let n := eval vm_compute in (length (bytes s)) in change (length (bytes s)) with n
    | |- context[length (sprintf_ld NLIGHT)] => change (length (sprintf_ld NLIGHT)) with 1%nat
    | H : length ?l = _ |- context[length ?l] => rewrite H
    end; unfold MQTT_NAME_ID_LENGTH; lia.
Ltac copy_step :=
  match goal with Hc : ∀ n s f w1, _ → copy_to n s _ w1 = _ |- context[bind (copy_to ?n ?s _) _ ?w1] =>
    let F := fresh in assert (F : Z.of_nat (length s) < n) by text_length; rewrite (bind_run _ _ _ _ _ (Hc n s _ w1 F)); clear F
  end.

Lemma make_names_total w : ∃ w', make_names mac_of sha1 w = Some (tt, w') ∧ clock w' = clock w ∧
  sc_flag (sysinfo w') = sc_flag (sysinfo w) ∧ wifi_retry w' = wifi_retry w ∧
  router_ssid (sysinfo w') = router_ssid (sysinfo w) ∧ router_pass (sysinfo w') = router_pass (sysinfo w).
Proof.
  assert (Hhex : length (concat (hex2 <$> mac_of)) = 12%nat) by (rewrite hex_text_length; lia).
  assert (Hpass : ∀ s, ∃ l, mapM (rd (sha1 s)) [0; 2; 4; 6; 8; 10; 12; 14] = Some l ∧ length l = 8%nat).
  { intros s. generalize (Hsha s). generalize (sha1 s). intros l. do 15 (destruct l as [|? l]; [done|]). intros _. by eexists. }
  assert (Hw16 : ∀ l, length l = 8%nat → length (concat (hex2 <$> l)) = 16%nat) by (intros l Hl; rewrite hex_text_length; lia).
  assert (Hcopy : ∀ n s (f : list Z → world st → world st) w1, Z.of_nat (length s) < n → copy_to n s (λ s, modify (f s)) w1 = Some (tt, f s w1)).
  { intros n s f w1 Hn. unfold copy_to, fits_in. apply Z.ltb_lt in Hn as ->. done. }
  unfold make_names, system_print_device_type. unfold put_sys, put_mqtt.
  copy_step. rewrite (bind_run (modify _) _ _ _ _ eq_refl). copy_step.
  rewrite (bind_run (get _) _ _ _ _ eq_refl). cbn [mac_str set_mac_str sysinfo set_sysinfo].
  do 2 copy_step. rewrite (bind_run (get _) _ _ _ _ eq_refl). 
  cbn [dev_type set_dev_type set_mac_str set_mac set_host_name sysinfo set_sysinfo set_mqtt].
  copy_step. destruct (Hpass (concat (hex2 <$> mac_of))) as (l & Hl & Hl8). rewrite (bind_run _ _ _ _ _ (lift_run _ _ _ Hl)).
  rewrite Hcopy by (rewrite (Hw16 l Hl8); unfold MQTT_NAME_ID_LENGTH; lia). by eexists.
Qed.

Definition text_fits (k : string) (s : st) : Prop := ∀ t, nvs_get_str (text_key k) s = Some t → fits_in 50 t = true.

Lemma load_str_run k put w : text_fits k (store_of w) →
  load_str k (λ s, put_sys (put s)) w = Some (tt, match nvs_get_str (text_key k) (store_of w) with
    | Some t => set_sysinfo (put t (sysinfo w)) w | None => w end).
Proof.
  intros Hf. unfold load_str. rewrite (bind_run (get store_of) _ w (store_of w) w) by done.
  unfold text_fits, text_key in Hf. destruct (nvs_get_str _ _) as [t|]; [|done]. unfold copy_to. by rewrite (Hf t).
Qed.

Lemma wifi_info_run w : text_fits "ssid" (store_of w) → text_fits "pass" (store_of w) →
  ∃ w', csro_system_get_wifi_info w = Some (bool_decide (nvs_get router_key (store_of w) = Some 1), w') ∧
  (nvs_get router_key (store_of w) = Some 1 → 
    router_ssid (sysinfo w') = default (router_ssid (sysinfo w)) (nvs_get_str (text_key "ssid") (store_of w)) ∧
    router_pass (sysinfo w') = default (router_pass (sysinfo w)) (nvs_get_str (text_key "pass") (store_of w))) ∧
  clock w' = clock w ∧ sc_flag (sysinfo w') = sc_flag (sysinfo w) ∧ wifi_retry w' = wifi_retry w ∧ status (sysinfo w') = status (sysinfo w).
Proof.
  intros Hs Hp. unfold csro_system_get_wifi_info. rewrite (bind_run (get store_of) _ w (store_of w) w) by done.
  fold router_key. unfold nvs_read. destruct (nvs_get router_key (store_of w)) as [v|]; cbn [default from_option].
  2: { by exists w. }
  unfold Datatypes.id. destruct (Z.eqb_spec v 1) as [->|Hv].
  2: { rewrite bool_decide_eq_false_2 by congruence. exists w. split; [done|]. split; [congruence|done]. }
  rewrite (bind_run _ _ _ _ _ (load_str_run _ set_router_ssid w Hs)).
  match goal with |- context[bind _ _ ?w1] => assert (E : store_of w1 = store_of w) by (by destruct (nvs_get_str _ _)) end.
  rewrite (bind_run _ _ _ _ _ (load_str_run "pass" set_router_pass _ ltac:(by rewrite E))). rewrite E, bool_decide_eq_true_2 by done.
  eexists. split; [reflexivity|].
  by destruct (nvs_get_str (text_key "ssid") (store_of w)), (nvs_get_str (text_key "pass") (store_of w)).
Qed.

(** A boot never faults, and runs the main task with the stored credentials
    exactly when there are some. *)
Lemma power_up_run timer s xs : stored s xs → Forall fits xs → (length xs <= 20)%nat → text_fits "ssid" s → text_fits "pass" s →
  ∃ w, csro_init timer mac_of sha1 (power_up s) = Some (bool_decide (nvs_get router_key s = Some 1), w) ∧
    (nvs_get router_key s = Some 1 → router_ssid (sysinfo w) = default [] (nvs_get_str (text_key "ssid") s) ∧
       router_pass (sysinfo w) = default [] (nvs_get_str (text_key "pass") s)) ∧
    status (sysinfo w) = (if bool_decide (nvs_get router_key s = Some 1) then NORMAL_START_NOWIFI else SMARTCONFIG) ∧
    sc_flag (sysinfo w) = nvs_read sc_key 0 s ∧ wifi_retry w = 0 ∧ (timer = true → repr (alarms_of w) xs).
Proof.
  intros Hst Hfit Hlen Hssid Hpass. unfold csro_init.
  assert (Hc : ∃ c, on_clock (Clock.csro_datetime_init timer) (power_up s) = Some (tt, set_clock c (power_up s)) ∧ store (Clock.tbl c) = s ∧
    (timer = true → repr (alarms (Clock.tbl c)) xs)).
  { destruct (load_run (mkTable (replicate 20 (mkAlarm false 0 0 0)) s) xs eq_refl Hst Hfit Hlen) as (t & Hr & Hrep & Hs).
    destruct timer; [|by eexists]. exists (Clock.mkState (Clock.datetime (clock (power_up s))) false t []). split_and!; try done.
    unfold on_clock, zoom, Clock.csro_datetime_init. cbn [when]. unfold zoom. cbn [Clock.tbl power_up clock]. by rewrite Hr. }
  destruct Hc as (c & Hrc & Hsc & Hac). rewrite (bind_run _ _ _ _ _ Hrc). set (w0 := set_clock c (power_up s)) in *.
  assert (Es : store_of w0 = s) by exact Hsc.
  destruct (load_settings_total w0) as (w1 & H1 & Hk1 & Hs1 & Hf1 & Ht1 & Hi1 & Hp1).
  destruct (make_names_total w1) as (w2 & H2 & Hc2 & Hf2 & Ht2 & Hi2 & Hp2).
  destruct (load_settings_run _ _ _ H1) as (La & Lc & Lst & _). destruct (make_names_run _ _ _ _ _ Hmac H2) as (_ & Nc & Nst & _).
  assert (Hinfo : csro_system_get_info mac_of sha1 w0 = Some (tt, w2)).
  { unfold csro_system_get_info. by rewrite (bind_run _ _ _ _ _ H1). }
  rewrite (bind_run _ _ _ _ _ Hinfo).
  rewrite (bind_run _ _ _ _ _ (device_init_run w2 ltac:(by rewrite Nc, Lc))). set (w3 := set_log _ _).
  assert (E3 : clock w3 = clock w1) by exact Hc2.
  assert (Hn : nvs_get router_key (store_of w3) = nvs_get router_key s).
  { unfold store_of. rewrite E3. fold (store_of w1). by rewrite Hk1, Es. }
  assert (Ht : ∀ k, nvs_get_str k (store_of w3) = nvs_get_str k s).
  { intros k. unfold store_of. rewrite E3. fold (store_of w1). by rewrite Hs1, Es. }
  destruct (wifi_info_run w3) as (w4 & H4 & Hcred & Hc4 & Hf4 & Ht4 & Hst4);
    [unfold text_fits; by rewrite Ht..|]. rewrite (bind_run _ _ _ _ _ H4). rewrite Hn, !Ht in *.
  assert (Hidle : status (sysinfo w4) = IDLE).
  { rewrite Hst4. change (status (sysinfo w3)) with (status (sysinfo w2)). by rewrite Nst, Lst. }
  assert (Hset : ∀ x, x ≠ IDLE → csro_system_set_status x w4 = Some (tt, set_sysinfo (set_status x (sysinfo w4)) w4)).
  { intros x Hx. unfold csro_system_set_status. rewrite (bind_run (get _) _ w4 IDLE w4) by (unfold get; by rewrite Hidle).
    cbn [decide]. rewrite decide_False by done. by rewrite bool_decide_eq_true_2 by congruence. }
  assert (Hssid4 : router_ssid (sysinfo w3) = [] ∧ router_pass (sysinfo w3) = []).
  { change (sysinfo w3) with (sysinfo w2). by rewrite Hi2, Hp2, Hi1, Hp1. }
  destruct Hssid4 as [E1 E2]. rewrite E1, E2 in Hcred.
  assert (Hflag : sc_flag (sysinfo w4) = nvs_read sc_key 0 s).
  { rewrite Hf4. change (sysinfo w3) with (sysinfo w2). by rewrite Hf2, Hf1, Es. }
  assert (Hretry : wifi_retry w4 = 0) by (rewrite Ht4; change (wifi_retry w3) with (wifi_retry w2); by rewrite Ht2, Ht1).
  assert (Hal : timer = true → repr (alarms_of w4) xs).
  { intros E. unfold alarms_of. rewrite Hc4, E3. fold (alarms_of w1). rewrite La. by apply Hac. }
  case_bool_decide as Hr.
  - unfold csro_mqtt_task_start. unfold bind at 1 2. rewrite (Hset NORMAL_START_NOWIFI) by done.
    eexists. split; [reflexivity|]. by split_and!.
  - unfold csro_sc_task_start. rewrite (bind_run _ _ _ _ _ (Hset SMARTCONFIG ltac:(done))).
    eexists. split; [reflexivity|]. by split_and!.
Qed.

(** *** What smartconfig stored stays stored *)

Definition credentials (s : st) : Prop :=
  nvs_get router_key s = Some 1 ∧ nvs_get_str (text_key "ssid") s = Some (bytes "Jupiter") ∧ nvs_get_str (text_key "pass") s = Some (bytes "150933205").
Definition configured w : Prop := length (alarms_of w) = 20%nat ∧ credentials (store_of w).

Lemma credentials_set k v s : k ≠ router_key → credentials s → credentials (nvs_set k v s).
Proof. intros Hk (H1 & H2 & H3). unfold credentials. by rewrite nvs_get_set_ne, !nvs_get_str_set. Qed.
Lemma configured_alarms {A} (m : M (table st) A) : (∀ P, ignores_alarms P → keeps (frame P) m) → keeps configured (on_alarms m).
Proof.
  intros Hm. apply (keeps_on_alarms configured (λ _, frame credentials)); [by intros w []| |by intros w t _ []].
  intros w _. apply Hm. intros k v s Hk. apply credentials_set. by intros ->.
Qed.
Lemma configured_commands c : keeps configured (on_alarms (Datetime.Alarm.run c)).
Proof. apply configured_alarms. intros P HP. by apply run_frame. Qed.
Lemma configured_store k v : k ≠ router_key → keeps configured (on_store (nvs_set k v)).
Proof. intros Hk. apply keeps_on_store. intros w t [Hl Hc] ->. split; [done|]. by apply credentials_set. Qed.
Lemma configured_same f : (∀ w, clock (f w) = clock w) → keeps configured (modify f).
Proof. intros Hf. apply keeps_modify. intros w. unfold configured, alarms_of, store_of. by rewrite Hf. Qed.
Lemma configured_put_sys f : keeps configured (put_sys f).
Proof. by apply configured_same. Qed.
Lemma configured_put_mqtt f : keeps configured (put_mqtt f).
Proof. by apply configured_same. Qed.
Lemma configured_emit e : keeps configured (emit_effect e).
Proof. by apply configured_same. Qed.
Lemma configured_clock {A} (m : M (Datetime.Clock.state st) A) : (∀ t, keeps (λ c, Clock.tbl c = t) m) → keeps configured (on_clock m).
Proof. intros Hm. apply keeps_on_clock; [exact Hm|]. intros w c [Hl Hc] E. unfold configured, alarms_of, store_of. cbn. by rewrite E. Qed.
Lemma configured_copy_sys n s f : keeps configured (copy_to n s (λ s, put_sys (f s))).
Proof. apply keeps_copy_to. intros _. apply configured_put_sys. Qed.
Lemma configured_copy_mqtt n s f : keeps configured (copy_to n s (λ s, put_mqtt (f s))).
Proof. apply keeps_copy_to. intros _. apply configured_put_mqtt. Qed.
Lemma configured_copy_modify n s f : (∀ s w, clock (f s w) = clock w) → keeps configured (copy_to n s (λ s, modify (f s))).
Proof. intros Hf. apply keeps_copy_to. intros _. by apply configured_same. Qed.
#[local] Hint Resolve configured_put_sys configured_put_mqtt configured_emit configured_copy_sys configured_copy_mqtt : keeps.

Lemma configured_trigger : keeps configured csro_mqtt_msg_trigger_status.
Proof. unfold csro_mqtt_msg_trigger_status, reset_status_timer. keep; by apply configured_same. Qed.
Lemma configured_handle e : keeps configured (handle (D := D) e).
Proof.
  apply undisturbed_handle; try done.
  - intros c w [Hl Hc] E. unfold configured, alarms_of, store_of. cbn. by rewrite E.
  - apply configured_commands.
  - apply configured_trigger.
  - intros _. unfold status_timer_tick. keep; first [apply configured_trigger|by apply configured_same].
  - intros data v _ _. unfold csro_system_set_interval, csro_mqtt_change_status_msg_timer, reset_status_timer.
    keep; first [by apply configured_store|by apply configured_same].
Qed.
Lemma configured_handle_all es : keeps configured (handle_all (D := D) es).
Proof. induction es as [|e es IH]; cbn [handle_all]; keep_r. apply configured_handle. Qed.
Lemma configured_blocking a : keeps configured (blocking (D := D) a).
Proof. unfold blocking. keep_r. apply configured_handle_all. Qed.
#[local] Hint Resolve configured_handle_all configured_blocking : keeps.
Lemma configured_session a e : keeps configured (on_session (D := D) a e).
Proof. unfold on_session, MQTTCloseSession. keep_r. Qed.
#[local] Hint Resolve configured_session : keeps.
Lemma configured_topic text put : keeps configured (print_topic text put).
Proof. unfold print_topic. keep. Qed.
#[local] Hint Resolve configured_topic : keeps.
Lemma configured_serve taken clear prepare a suffix : (∀ w, clock (clear w) = clock w) → keeps configured prepare →
  keeps configured (serve (D := D) taken clear prepare a suffix).
Proof. intros Hc Hp. unfold serve, mqtt_pub_messgae, MQTTPublish. keep_r. by apply configured_same. Qed.
Lemma configured_content j : keeps configured (print_content (D := D) j).
Proof. unfold print_content. keep. Qed.
#[local] Hint Resolve configured_content : keeps.
Lemma configured_connect t : keeps configured (broker_is_connected (D := D) t).
Proof.
  unfold broker_is_connected, print_topics, NetworkConnect, MQTTConnect, MQTTSubscribe, or_disconnect, mqtt_pub_messgae, MQTTPublish. keep_r.
Qed.
Lemma configured_status x : keeps configured (csro_system_set_status x).
Proof. unfold csro_system_set_status. keep. Qed.
#[local] Hint Resolve configured_connect configured_status : keeps.
Lemma configured_round r : keeps configured (mqtt_round (D := D) r).
Proof.
  unfold mqtt_round, csro_system_get_wifi_status, MQTTYield, MQTTCloseSession. keep_r;
    try (apply configured_serve; [done|]); try (by apply configured_same); try (by apply configured_store).
  - unfold csro_device_prepare_status_message, csro_nlight_prepare_status_message, add_channel, get_channel. keep.
  - unfold csro_system_prepare_message. keep. apply keeps_copy_to. intros _. apply configured_clock. intros t. apply keeps_modify. by intros c <-.
  - unfold csro_device_prepare_timer_message. keep.
Qed.
Lemma configured_boot timer s b w : credentials s → csro_init timer mac_of sha1 (power_up s) = Some (b, w) → configured w.
Proof.
  intros Hs. assert (Hup : configured (power_up s)) by (split; [done|exact Hs]). revert Hup.
  assert (Hk : keeps configured (csro_init timer mac_of sha1)); [|intros Hup Hr; exact (Hk _ _ _ Hup Hr)].
  unfold csro_init, csro_system_get_info, load_settings, make_names, system_print_device_type, csro_device_init, csro_nlight_init, csro_aw9523b_init,
    i2c_master_aw9523b_write, csro_system_get_wifi_info, load_str, csro_mqtt_task_start, csro_sc_task_start, get_channel, put_channel. keep;
    try (by apply configured_store); try (by apply configured_same).
  destruct timer; cbn [Clock.csro_datetime_init when]; [|apply configured_clock; intros t; apply keeps_ret].
  apply (configured_alarms load_alarm_from_nvs). intros P HP. by apply load_frame.
Qed.

(** The lives of a device with [s] in its store: it boots, runs rounds of the
    main task and takes events, restarts where one of them restarts it, and may
    lose its power in between. *)
Inductive lives (s : st) : world st → Prop :=
  | life_boot timer b w : csro_init timer mac_of sha1 (power_up s) = Some (b, w) → lives s w
  | life_round r w w' : lives s w → mqtt_round (D := D) r w = Some (Some tt, w') → lives s w'
  | life_event e w w' : lives s w → handle (D := D) e w = Some (Some tt, w') → lives s w'
  | life_restart (m : round + event) timer b w w1 w' : lives s w →
      match m with inl r => mqtt_round (D := D) r | inr e => handle (D := D) e end w = Some (None, w1) →
      csro_init timer mac_of sha1 (power_up (store_of w1)) = Some (b, w') → lives s w'
  | life_power timer b w w' : lives s w → csro_init timer mac_of sha1 (power_up (store_of w)) = Some (b, w') → lives s w'.
Lemma lives_configured s w : credentials s → lives s w → configured w.
Proof.
  intros Hs. induction 1 as [timer b w Hr|r w w' _ IH Hr|e w w' _ IH Hr|m timer b w w1 w' _ IH Hm Hr|timer b w w' _ [_ IH] Hr].
  - by eapply configured_boot.
  - by eapply configured_round.
  - by eapply configured_handle.
  - eapply configured_boot; [|exact Hr]. destruct m as [r|e]; [apply (configured_round r w _ w1 IH Hm)|apply (configured_handle e w _ w1 IH Hm)].
  - by eapply configured_boot.
Qed.

(** A boot with the credentials in the store. *)
Lemma configured_power_up timer s xs : credentials s → stored s xs → Forall fits xs → (length xs <= 20)%nat →
  ∃ w, csro_init timer mac_of sha1 (power_up s) = Some (true, w) ∧
    router_ssid (sysinfo w) = bytes "Jupiter" ∧ router_pass (sysinfo w) = bytes "150933205" ∧
    status (sysinfo w) = NORMAL_START_NOWIFI ∧ sc_flag (sysinfo w) = nvs_read sc_key 0 s ∧ wifi_retry w = 0 ∧
    (timer = true → repr (alarms_of w) xs) ∧ app_ok w.
Proof.
  intros (H1 & H2 & H3) Hst Hfit Hlen. destruct (power_up_run timer s xs Hst Hfit Hlen) as (w & Hr & Hcred & Hstat & Hflag & Hretry & Hal).
  - intros t. rewrite H2. by intros [= <-].
  - intros t. rewrite H3. by intros [= <-].
  - rewrite bool_decide_eq_true_2 in Hr, Hstat by done. destruct (Hcred H1) as [E1 E2]. rewrite H2 in E1. rewrite H3 in E2.
    exists w. split_and!; try done. apply (reachable_ok (D := D)). by eapply reach_boot.
Qed.

(** C27: Once smartconfig has linked and finished, the store names the network,
    which is the one of the program, "Jupiter", whatever the phone sent, and
    the device restarts. The boot that follows has the flag set that makes the
    device give up after ten rounds without a network, and the alarms that were
    stored before. From then on, through every boot, round, event, restart and
    loss of power between them, the store names that network, so that every
    boot - with a good alarm table in the store - completes without a fault and
    runs the main task with it: the names fit their arrays, the alarms loaded
    are those stored, and the application invariant holds. *)
Theorem smartconfig_boot w xs : stored (store_of w) xs → Forall fits xs → (length xs <= 20)%nat →
  ∃ w1 w2, smartconfig_link w = Some (tt, w1) ∧ smartconfig_done w1 = Some (None, w2) ∧
    let s := store_of w2 in
    stored s xs ∧ nvs_read sc_key 0 s = 1 ∧
    let boots s xs := ∀ timer, ∃ w3, csro_init timer mac_of sha1 (power_up s) = Some (true, w3) ∧
      router_ssid (sysinfo w3) = bytes "Jupiter" ∧ router_pass (sysinfo w3) = bytes "150933205" ∧
      status (sysinfo w3) = NORMAL_START_NOWIFI ∧ sc_flag (sysinfo w3) = nvs_read sc_key 0 s ∧ wifi_retry w3 = 0 ∧
      (timer = true → repr (alarms_of w3) xs) ∧ app_ok w3 in
    boots s xs ∧
    ∀ w', lives s w' → credentials (store_of w') ∧
      ∀ xs', stored (store_of w') xs' → Forall fits xs' → (length xs' <= 20)%nat → boots (store_of w') xs'.
Proof.
  intros [Hcount Hst] Hfit Hlen. do 2 eexists. split; [reflexivity|]. split; [reflexivity|]. cbv zeta.
  set (s := nvs_set sc_key 1 (nvs_set router_key 1 (nvs_set_str (text_key "pass") (bytes "150933205")
    (nvs_set_str (text_key "ssid") (bytes "Jupiter") (store_of w))))).
  assert (Hs : stored s xs).
  { split.
    - unfold nvs_read. unfold s. rewrite !nvs_get_set_ne, !nvs_get_set_str by done. exact Hcount.
    - intros i e Hi. unfold s. rewrite !nvs_get_set_ne, !nvs_get_set_str by done. by apply Hst. }
  assert (Hc : credentials s).
  { unfold credentials, s. rewrite !nvs_get_str_set, nvs_get_str_set_eq, nvs_get_str_set_ne, nvs_get_str_set_eq, nvs_get_set_ne, nvs_get_set_eq by done. done. }
  match goal with |- stored ?x _ ∧ _ => change x with s end. split; [exact Hs|]. split; [unfold nvs_read, s; by rewrite nvs_get_set_eq|].
  split; [intros timer; by apply configured_power_up|]. intros w' Hw'. destruct (lives_configured s w' Hc Hw') as [_ Hc']. split; [exact Hc'|].
  intros xs' Hs' Hfit' Hlen' timer. by apply configured_power_up.
Qed.
End Boot.
End Session.

Import Rational.
Definition yes : answer := mkAnswer true [].
Definition no : answer := mkAnswer false [].

(** The second subscription is refused. *)
Lemma connect_sequence_witness : ∃ w',
  broker_is_connected (D := QArith_base.Q) (mkAttempt yes yes yes no yes yes) demo_found = Some (Some false, w') ∧
  log w' = log demo_found ++ take 4 (script demo_found).
Proof.
  destruct (connect_sequence (D := QArith_base.Q) demo_found (mkAttempt yes yes yes no yes yes)) as (w' & Hr & _ & Hl & _).
  - exact (reachable_ok demo_found demo_found_reachable).
  - by vm_compute.
  - by vm_compute.
  - by vm_compute.
  - repeat (apply Forall_cons; split; [done|]). apply Forall_nil_2.
  - exists w'. by split.
Defined.

Lemma demo_light_ints : Forall light_ints (channel demo_world).
Proof. repeat (apply Forall_cons; split; [unfold light_ints, is_int, INT_MIN, INT_MAX; cbn; lia|]). apply Forall_nil_2. Qed.

(** Five seconds of the running device. *)
(** The main task is held up for five seconds, in which a key is polled. *)
Definition demo_delay : list event := replicate 250 Status_tick ++ Key_tick :: replicate 250 Status_tick.
Definition demo_round : round := mkRound 0x0700000a (mkAttempt yes yes yes yes yes yes) yes yes yes 0 yes [].
Lemma status_message_due_witness : ∃ w1 w',
  handle_all (D := QArith_base.Q) demo_delay demo_world = Some (Some tt, w1) ∧ status_msg w1 = true ∧
  mqtt_round (D := QArith_base.Q) demo_round w1 = Some (Some tt, w') ∧
  log w' = log w1 ++ [Publish (bytes "aabbccddeeff/010203040506/nlight3/state") (render false 0 (status_json (channel demo_world))) false].
Proof.
  assert (Hrun : match handle_all (D := QArith_base.Q) demo_delay demo_world with
    | Some (Some _, w1) => channel w1 = channel demo_world ∧ isconnected (mqtt w1) = true ∧ is_connect w1 = true ∧ system_msg w1 = false ∧
        alarm_msg w1 = false ∧ device_topic (bytes "state") w1 = bytes "aabbccddeeff/010203040506/nlight3/state"
    | _ => False end) by (vm_compute; split_and!; reflexivity).
  destruct (handle_all (D := QArith_base.Q) demo_delay demo_world) as [[[[]|] w1]|] eqn:Er; [|destruct Hrun..].
  destruct Hrun as (Hch & Hc & Hi & Hsys & Hal & Ht).
  destruct (status_message_due (D := QArith_base.Q) demo_world demo_delay w1 demo_round demo_ok) as [Hst Hround];
    [apply (Forall_impl (λ e, e = Status_tick ∨ e = Key_tick))|by apply Z.leb_le|exact Er|].
  - unfold demo_delay. rewrite Forall_app, Forall_cons. split; [|split; [by right|]]; apply Forall_replicate; by left.
  - intros ? [-> | ->]; exact (λ x, x).
  - destruct Hround as [_ Hround]; [by rewrite Hch; exact demo_light_ints|exact Hc|exact Hi|discriminate|done|done|].
    destruct (Hround Hsys Hal ltac:(done)) as (w' & Hr & Hl & _). exists w1, w'. rewrite Ht, Hch in Hl. by split_and!.
Defined.


(** The server moves: the session ends. An address of fifty characters faults. *)
Lemma datagram_server_witness :
  process_udp_message (D := QArith_base.Q) [] (render false 0 (JObject [(bytes "ip", JString (bytes "10.0.0.9")); (bytes "mac", JString (bytes "aabbccddeeff"))]) ++ [0]) demo_world =
    Some (tt, set_mqtt (set_isconnected false (set_prefix (bytes "aabbccddeeff") (set_broker (bytes "10.0.0.9") (mqtt demo_world)))) demo_world) ∧
  process_udp_message (D := QArith_base.Q) [] (render false 0 (JObject [(bytes "ip", JString (replicate 50 49)); (bytes "mac", JString (bytes "aabbccddeeff"))]) ++ [0]) demo_world = None.
Proof.
  assert (Hc : ∀ s, is_cstr s → carries (render false 0 (JObject [(bytes "ip", JString s); (bytes "mac", JString (bytes "aabbccddeeff"))]) ++ [0])
    (JObject [(bytes "ip", JString s); (bytes "mac", JString (bytes "aabbccddeeff"))])).
  { intros s Hs. split; [|split; [done|by exists false, []]]. cbn [json_ok foldr fst snd]. split_and!; try done; by apply bytes_cstr. }
  split.
  - rewrite (datagram_server _ _ _ _ (Hc (bytes "10.0.0.9") ltac:(by apply bytes_cstr))). assert (new_server (JObject [(bytes "ip", JString (bytes "10.0.0.9")); (bytes "mac", JString (bytes "aabbccddeeff"))]) (mqtt demo_world) =
      Some (bytes "10.0.0.9", bytes "aabbccddeeff")) as -> by by vm_compute.
    reflexivity.
  - rewrite (datagram_server _ _ _ _ (Hc (replicate 50 49) ltac:(apply Forall_replicate; lia))). assert (new_server (JObject [(bytes "ip", JString (replicate 50 49)); (bytes "mac", JString (bytes "aabbccddeeff"))]) (mqtt demo_world) =
      Some (replicate 50 49, bytes "aabbccddeeff")) as -> by by vm_compute.
    reflexivity.
Defined.

(** Ten rounds without a network, on a device that has just been configured. *)
Definition demo_fresh : world nvs_map := set_sysinfo (set_sc_flag 1 (sysinfo demo_world)) demo_world.
Definition no_network : round := mkRound 0 (mkAttempt no no no no no no) no no no 0 no [].
Lemma wifi_give_up_witness :
  (∃ w', rounds (D := QArith_base.Q) (replicate 9 no_network) demo_fresh = Some (Some tt, w') ∧ store_of w' = store_of demo_fresh) ∧
  ∃ w', rounds (D := QArith_base.Q) (replicate 10 no_network) demo_fresh = Some (None, w') ∧
    store_of w' = nvs_set sc_key 0 (store_of demo_fresh).
Proof.
  assert (Hrs : ∀ n, Forall no_wifi (replicate n no_network)) by (intros n; by apply Forall_replicate).
  split; [exact (wifi_give_up demo_fresh (replicate 9 no_network) (Hrs 9%nat) eq_refl)
         |exact (wifi_give_up demo_fresh (replicate 10 no_network) (Hrs 10%nat) eq_refl)].
Defined.

Lemma demo_sha_length s : length (demo_sha1 s) = 20%nat.
Proof. unfold demo_sha1. rewrite length_take, length_app, length_replicate. lia. Qed.
(** The first boot, and the one after a loss of power. *)
Lemma smartconfig_boot_witness : ∃ w1 w2 w3 w4,
  smartconfig_link demo_world = Some (tt, w1) ∧ smartconfig_done w1 = Some (None, w2) ∧
  csro_init true demo_mac demo_sha1 (power_up (store_of w2)) = Some (true, w3) ∧ router_ssid (sysinfo w3) = bytes "Jupiter" ∧
  csro_init true demo_mac demo_sha1 (power_up (store_of w3)) = Some (true, w4) ∧ router_ssid (sysinfo w4) = bytes "Jupiter".
Proof.
  destruct (smartconfig_boot (D := QArith_base.Q) demo_mac demo_sha1 eq_refl demo_sha_length demo_world (@nil entry)) as (w1 & w2 & H1 & H2 & _ & _ & Hboot & Hlife);
    [by split; [by vm_compute|]|done|cbn; lia|].
  destruct (Hboot true) as (w3 & H3 & H4 & _). destruct (Hlife w3) as [_ Hlater]; [by eapply life_boot|].
  assert (Hst : match smartconfig_link demo_world with Some (_, w1) => match smartconfig_done w1 with Some (_, w2) =>
    match csro_init true demo_mac demo_sha1 (power_up (store_of w2)) with Some (_, w3) => nvs_read count_key 0 (store_of w3) = 0
    | None => False end | None => False end | None => False end) by (vm_compute; reflexivity).
  rewrite H1, H2, H3 in Hst.
  assert (Hs : stored (store_of w3) (@nil entry)) by (split; [exact Hst|done]).
  destruct (Hlater (@nil entry) Hs (Forall_nil_2 _) ltac:(cbn; lia) true) as (w4 & H5 & H6 & _).
  exists w1, w2, w3, w4. by split_and!.
Defined.
End Session.
