(* ===== verification/MqttOnline.v ===== *)
(** The device gets its session: [broker_is_connected] of [MqttSession.v] on a
    network that answers, with the calls of [MqttExchange.v]. *)
From S2P Require Import Prelude Nvs Datetime Cjson Misc MqttPacket MqttClient MqttExchange World System Nlight Device Mqtt MqttSession Session.

Module MqttOnline.
Import MqttClient MqttExchange Cjson Misc Cstring World System Nlight Device MqttSession.

Section Online.
Context {st : Type} `{Nvs st} `{!NvsStr st} {D : Type} `{Double D}.
Context (garbage : message → list Z * list Z).
#[local] Instance online_app : App (world st) Mqtt.event who := device_app (D := D) garbage.
#[local] Abbreviation device := (sys (world st) Mqtt.event who).
#[local] Abbreviation syscall_returns := (MqttSession.syscall_returns (D := D) garbage).
#[local] Abbreviation NetworkConnect := (MqttSession.NetworkConnect (D := D) garbage).
#[local] Abbreviation client_init := (MqttSession.client_init (D := D) garbage).
#[local] Abbreviation login := (MqttSession.login (D := D) garbage).
#[local] Abbreviation subscribe := (MqttSession.subscribe (D := D) garbage).
#[local] Abbreviation publish := (MqttSession.publish (D := D) garbage).
#[local] Abbreviation mqtt_pub_messgae := (MqttSession.mqtt_pub_messgae (D := D) garbage).
#[local] Abbreviation broker_is_connected := (MqttSession.broker_is_connected (D := D) garbage).
Implicit Types (s : device) (w : world st).

Lemma local_run {A B} (m : M (world st) A) (k : A → MR device B) s a w : m (appl s) = Some (a, w) → bind_r (local m) k s = k a (set_app w s).
Proof. intros Hm. apply bind_r_run. unfold local, zoom. by rewrite (returning_run _ _ _ _ Hm). Qed.
Definition noted (e : effect) w : world st := set_log (log w ++ [e]) w.
Lemma note_run {B} e (k : unit → MR device B) s : bind_r (note e) k s = k tt (set_app (noted e (appl s)) s).
Proof. by apply local_run. Qed.

(** The name of the server is found, and the connection made. *)
Definition resolves (cs : list (sockcall Mqtt.event)) : Prop :=
  ∃ a b x y z n m k, cs = [mkCall a x n []; mkCall b y m []; mkCall 0 z k []] ∧ a ≠ 0 ∧ 0 <= b.
Lemma syscall_returns_run {B} otherwise c cs (k : Z → MR device B) s : script s = c :: cs → others c = [] →
  bind_r (syscall_returns otherwise) k s = k (returns c) (later (now s + Z.of_nat (ticks c)) cs s).
Proof. intros Hs Ho. apply bind_r_run. unfold syscall_returns. by rewrite (bind_r_run _ _ _ _ _ (syscall_run _ _ s Hs Ho)). Qed.
Lemma network_run host port cs rest s : resolves cs → script s = cs ++ rest →
  NetworkConnect host port s = Some (Some true, later (now s + elapsed cs) rest (set_app (noted (Connect host port) (appl s)) s)).
Proof.
  intros (a & b & x & y & z & n & m & k & -> & Ha & Hb) Hs. unfold NetworkConnect. rewrite note_run. cbn [app] in Hs.
  set (s0 := set_app _ s). rewrite (syscall_returns_run _ _ _ _ s0 Hs eq_refl). cbn [returns ticks]. rewrite (proj2 (Z.eqb_neq a 0) Ha).
  set (s1 := later _ _ _). rewrite (syscall_returns_run _ _ _ _ s1 eq_refl eq_refl). cbn [returns ticks]. destruct (Z.ltb_spec b 0); [lia|].
  set (s2 := later _ _ s1). rewrite (syscall_returns_run _ _ _ _ s2 eq_refl eq_refl). cbn [returns ticks elapsed].
  replace (now s + (Z.of_nat n + (Z.of_nat m + (Z.of_nat k + 0)))) with (now s2 + Z.of_nat k) by (cbn; lia). done.
Qed.

Lemma client_init_run s (k : unit → MR device bool) : zlen (buf (client s)) = 1000 → zlen (readbuf (client s)) = 1000 →
  ∃ c, bind_r client_init k s = k tt (set_client c (set_app (set_mqtt (set_isconnected false (mqtt (appl s))) (appl s)) s)) ∧
    configured false 1 ((λ x, (None, x.2)) <$> messageHandlers (client s)) (MqttClient.set_keep_alive 60 c).
Proof.
  intros Hb Hr. destruct (client_init_fresh (buf (client s)) (readbuf (client s)) s Hb Hr) as (c & Hi & Hc).
  exists c. split; [|done]. apply bind_r_run. unfold client_init. rewrite !bind_read_client. by rewrite (bind_r_run _ _ _ _ _ Hi).
Qed.

(** ** The calls of the application *)

Lemma chars_text t : is_cstr t → c_string (chars t) = Some t.
Proof. intros Ht. apply c_string_text. eapply Forall_impl; [exact Ht|]. cbn. lia. Qed.
Lemma succeeds_success m s s' : m s = Some (Some SUCCESS, s') → succeeds m s = Some (Some true, s').
Proof. intros Hm. unfold succeeds. by rewrite (bind_r_run _ _ _ _ _ Hm). Qed.
Lemma request_run_up e m s s' : isconnected (mqtt (appl s)) = true → m (set_app (noted e (appl s)) s) = Some (Some SUCCESS, s') →
  request e m s = Some (Some true, s').
Proof.
  intros Hup Hm. unfold request. rewrite bind_r_read. unfold up. rewrite Hup, note_run. by apply succeeds_success.
Qed.
Lemma or_disconnect_run m k s s' : m s = Some (Some true, s') → MqttSession.or_disconnect m k s = k s'.
Proof. intros Hm. unfold MqttSession.or_disconnect. by rewrite (bind_r_run _ _ _ _ _ Hm). Qed.

Lemma text_stands t : small_text 100 t → MqttPacket.short_text (MqttPacket.mkString (Some (chars t)) (MqttPacket.lenstring MqttPacket.MQTTString_initializer)) t.
Proof. intros Ht. apply (small_stands 100); [done|lia|]. by apply chars_text, Ht. Qed.

(** From [s] to [s'] the device sends [bs]; the application is in [w] and the
    socket has [rest] left. *)
Record reach w (bs : list Z) (rest : list (sockcall Mqtt.event)) s s' : Prop := {
  re_appl : appl s' = w;
  re_sent : sent s' = sent s ++ bs;
  re_script : script s' = rest }.
Lemma reach_sending w bs cs rest s s' : sending bs cs rest (set_app w s) s' → reach w bs rest s s'.
Proof. intros []. by constructor. Qed.
Lemma reach_app w w' bs bs' rest rest' s s1 s' : reach w bs rest s s1 → reach w' bs' rest' s1 s' → reach w' (bs ++ bs') rest' s s'.
Proof. intros [] [Ha Hs Hc]. constructor; [done| |done]. rewrite Hs, app_assoc. by f_equal. Qed.

Definition session_set (b : bool) w : world st := set_mqtt (set_isconnected b (mqtt w)) w.
Definition login_texts (id name pass topic : list Z) : MqttPacket.connect_texts := MqttPacket.mkTexts id topic (bytes "offline") name pass.
Lemma login_run data id name pass topic flags i hs cs rest s : isconnected (mqtt (appl s)) = false →
  Forall (small_text 100) [id; name; pass; topic] → configured false i hs (MqttClient.set_keep_alive 60 (client s)) →
  serves (zlen (connect_packet (connect_options id name pass topic) (login_texts id name pass topic))) (MqttPacket.header_byte MqttPacket.CONNACK 0 0 0) [flags; 0] cs →
  script s = cs ++ rest →
  ∃ s', login data id name pass topic s = Some (Some true, s') ∧ configured false i hs (client s') ∧
    reach (session_set true (noted (Login id name pass topic) (appl s)))
      (connect_packet (connect_options id name pass topic) (login_texts id name pass topic)) rest s s'.
Proof.
  intros Hup Htexts Hc Hcs Hs. set (o := connect_options id name pass topic) in *. set (x := login_texts id name pass topic) in *.
  pose proof Htexts as [[_ L1] [[_ L2] [[_ L3] [[_ L4] _]%Forall_cons]%Forall_cons]%Forall_cons]%Forall_cons.
  assert (Hx : MqttPacket.has_texts o x).
  { apply Forall_cons in Htexts as [H1 [H2 [H3 [H4 _]%Forall_cons]%Forall_cons]%Forall_cons].
    constructor; apply text_stands; try done. by repeat constructor. }
  assert (Hbody : zlen (MqttPacket.connect_body o x) <= 900).
  { unfold MqttPacket.connect_body, MqttPacket.will_bytes, MqttPacket.credential_bytes, MqttPacket.protocol_bytes.
    destruct (_ =? 4), (MqttPacket.wants_will o), (MqttPacket.supplied (MqttPacket.username o)), (MqttPacket.supplied (MqttPacket.password o));
      rewrite ?zlen_app, ?MqttPacket.utf_length; cbn [x login_texts MqttPacket.t_id MqttPacket.t_topic MqttPacket.t_message MqttPacket.t_user MqttPacket.t_pass];
      unfold zlen in *; change (length (bytes "MQTT")) with 4%nat; change (length (bytes "MQIsdp")) with 6%nat; change (length (bytes "offline")) with 7%nat;
      change (length (MqttPacket.int2 ?n)) with 2%nat; cbn [length]; lia. }
  set (s1 := set_app (noted (Login id name pass topic) (appl s)) s).
  destruct (connect_run o x data flags i hs cs rest s1) as (s2 & Hr & Hc2 & Hs2); try done; [by right|].
  exists s2. split; [|split; [done|by eapply reach_sending]]. unfold login. rewrite note_run. by apply succeeds_success.
Qed.

Lemma subscribe_up topic h a b q used fp more id cs rest s : isconnected (mqtt (appl s)) = true → small_text 200 topic → 0 <= id < 65535 → q ≠ SUBFAIL →
  configured false id (used ++ (None, fp) :: more) (client s) → length (used ++ (None, fp) :: more) = MAX_MESSAGE_HANDLERS →
  Forall (λ x, ∃ t', t' ≠ topic ∧ has_filter t' x) used → Forall (λ x, x.1 = None) more →
  serves (zlen (subscribe_packet (id + 1) topic)) (MqttPacket.header_byte MqttPacket.SUBACK 0 0 0) [a; b; q] cs → script s = cs ++ rest →
  ∃ s', subscribe topic h s = Some (Some true, s') ∧ configured false (id + 1) (used ++ (Some (chars topic), Some h) :: more) (client s') ∧
    reach (noted (Subscribe topic) (appl s)) (subscribe_packet (id + 1) topic) rest s s'.
Proof.
  intros Hup Ht Hid Hq Hc Hlen Hused Hmore Hcs Hs.
  destruct (subscribe_run (chars topic) topic h a b q used fp more id cs rest (set_app (noted (Subscribe topic) (appl s)) s)) as (s' & Hr & Hc' & Hs'); try done.
  { by apply chars_text, Ht. }
  exists s'. split; [by apply request_run_up|]. split; [done|by eapply reach_sending].
Qed.
Lemma publish_up topic content (retained : bool) a b id hs cs rest s : isconnected (mqtt (appl s)) = true → small_text 200 topic → small_text 600 content → 0 <= id < 65535 →
  configured false id hs (client s) →
  let p := publish_packet (if retained then 1 else 0) (id + 1) topic content in
  serves (zlen p) (MqttPacket.header_byte MqttPacket.PUBACK 0 0 0) [a; b] cs → script s = cs ++ rest →
  ∃ s', publish topic content retained s = Some (Some true, s') ∧ configured false (id + 1) hs (client s') ∧
    reach (noted (Publish topic content retained) (appl s)) p rest s s'.
Proof.
  intros Hup Ht [Hct Hcl] Hid Hc p Hcs Hs.
  destruct (publish_run (chars topic) topic (chars content) content (if retained then 1 else 0) a b id hs cs rest
    (set_app (noted (Publish topic content retained) (appl s)) s)) as (s' & Hr & Hc' & Hs'); try done.
  { by apply chars_text, Ht. }
  { by destruct retained. }
  { unfold chars. by rewrite take_app_length. }
  { eapply Forall_impl; [exact Hct|]. unfold in_u8. lia. }
  exists s'. split; [by apply request_run_up|]. split; [done|by eapply reach_sending].
Qed.

(** ** The session *)

Definition topic (suffix : string) w : list Z := Mqtt.device_topic (bytes suffix) w.
Definition login_packet w : list Z :=
  connect_packet (connect_options (id_ (mqtt w)) (name (mqtt w)) (pass (mqtt w)) (topic "available" w))
    (login_texts (id_ (mqtt w)) (name (mqtt w)) (pass (mqtt w)) (topic "available" w)).
(** What the device sends to get online. *)
Definition online_packets w : list (list Z) :=
  [login_packet w; subscribe_packet 2 (topic "command" w); subscribe_packet 3 (topic "hass/#" w); subscribe_packet 4 (Session.group_topic w);
   publish_packet 1 5 (topic "available" w) (bytes "online")].

(** A network that finds the server and brings what the broker answers: the
    login accepted, each subscription granted with some QoS, the message
    acknowledged. *)
Definition grants (p : list Z) (cs : list (sockcall Mqtt.event)) : Prop :=
  ∃ a b q, q ≠ SUBFAIL ∧ serves (zlen p) (MqttPacket.header_byte MqttPacket.SUBACK 0 0 0) [a; b; q] cs.
Record accepts w (cs : list (sockcall Mqtt.event)) : Prop := {
  ac_parts : ∃ c0 c1 c2 c3 c4 c5, cs = c0 ++ c1 ++ c2 ++ c3 ++ c4 ++ c5 ∧ resolves c0 ∧
    (∃ flags, serves (zlen (login_packet w)) (MqttPacket.header_byte MqttPacket.CONNACK 0 0 0) [flags; 0] c1) ∧
    grants (subscribe_packet 2 (topic "command" w)) c2 ∧ grants (subscribe_packet 3 (topic "hass/#" w)) c3 ∧
    grants (subscribe_packet 4 (Session.group_topic w)) c4 ∧
    ∃ a b, serves (zlen (publish_packet 1 5 (topic "available" w) (bytes "online"))) (MqttPacket.header_byte MqttPacket.PUBACK 0 0 0) [a; b] c5 }.
(** The names of the device are C strings that fit, its levels without '/', '+'
    and '#'. *)
Record well_named w : Prop := {
  wn_names : Forall (small_text 100) [id_ (mqtt w); name (mqtt w); pass (mqtt w)];
  wn_levels : Forall is_cstr (device_levels w);
  wn_plain : Forall plain (device_levels w) }.

Lemma topic_small suffix w : app_ok w → Forall is_cstr (device_levels w) → is_cstr (bytes suffix) → (length (bytes suffix) <= 9)%nat → small_text 100 (topic suffix w).
Proof.
  intros Hw [H1 [H2 [H3 _]%Forall_cons]%Forall_cons]%Forall_cons Hs Hl. split.
  - unfold topic, Mqtt.device_topic, is_cstr in *. repeat (apply Forall_app; split; [first [done|by repeat constructor]|]). done.
  - pose proof (Session.device_topic_fits (bytes suffix) w Hw Hl) as Hf. apply Z.ltb_lt in Hf. unfold MQTT_TOPIC_LENGTH, topic, zlen in *. lia.
Qed.
Lemma group_small w : app_ok w → Forall is_cstr (device_levels w) → small_text 100 (Session.group_topic w).
Proof.
  intros Hw [H1 _]%Forall_cons. split.
  - unfold Session.group_topic, is_cstr in *. apply Forall_app. split; [done|by repeat constructor].
  - pose proof (Session.group_topic_fits w Hw) as Hf. apply Z.ltb_lt in Hf. unfold MQTT_TOPIC_LENGTH, zlen in *. lia.
Qed.
(** The three filters are different texts. *)
Lemma filters_differ w : Forall plain (device_levels w) →
  topic "command" w ≠ topic "hass/#" w ∧ topic "command" w ≠ Session.group_topic w ∧ topic "hass/#" w ≠ Session.group_topic w.
Proof.
  intros Hw. destruct (filters_are_topics w) as (E1 & E2 & E3).
  assert (Hl : Forall level (device_levels w)) by (eapply Forall_impl; [exact Hw|exact plain_level]).
  assert (Hl1 : Forall level (device_levels w ++ [bytes "command"])) by (apply Forall_app; split; [done|]; by repeat constructor).
  assert (Hl2 : Forall level ((device_levels w ++ [bytes "hass"]) ++ [bytes "#"])).
  { apply Forall_app. split; [apply Forall_app; split; [done|]|]; by repeat constructor. }
  assert (Hl3 : Forall level (group_levels w)).
  { apply Forall_cons in Hl as [? _]. apply Forall_cons. split; [done|]. by repeat constructor. }
  unfold topic, Session.group_topic. rewrite <- E1, <- E2, <- E3.
  repeat split; intros Hj%join_inj; try done.
Qed.

(** The slots before and after. *)
Definition free_slots (f1 f2 f3 : option who) : list (option (list Z) * option who) :=
  [(None, f1); (None, f2); (None, f3); (None, None); (None, None)].
Definition taken_slots (t1 t2 t3 : list Z) : list (option (list Z) * option who) :=
  [(Some (chars t1), Some Self); (Some (chars t2), Some Hass); (Some (chars t3), Some Group); (None, None); (None, None)].
(** The three subscriptions, each granted, and a call [k] after them. *)
Lemma subscriptions_run t1 t2 t3 f1 f2 f3 c1 c2 c3 rest s k : Forall (small_text 100) [t1; t2; t3] → t1 ≠ t2 → t1 ≠ t3 → t2 ≠ t3 →
  isconnected (mqtt (appl s)) = true → configured false 1 (free_slots f1 f2 f3) (client s) →
  grants (subscribe_packet 2 t1) c1 → grants (subscribe_packet 3 t2) c2 → grants (subscribe_packet 4 t3) c3 → script s = c1 ++ c2 ++ c3 ++ rest →
  ∃ s', MqttSession.or_disconnect (subscribe t1 Self) (MqttSession.or_disconnect (subscribe t2 Hass) (MqttSession.or_disconnect (subscribe t3 Group) k)) s = k s' ∧
    configured false 4 (taken_slots t1 t2 t3) (client s') ∧
    reach (noted (Subscribe t3) (noted (Subscribe t2) (noted (Subscribe t1) (appl s))))
      (subscribe_packet 2 t1 ++ subscribe_packet 3 t2 ++ subscribe_packet 4 t3) rest s s'.
Proof.
  intros Ht Hd1 Hd2 Hd3 Hup Hc (a1 & b1 & q1 & Hq1 & H1) (a2 & b2 & q2 & Hq2 & H2) (a3 & b3 & q3 & Hq3 & H3) Hs.
  assert (Hmore : ∀ t, small_text 100 t → small_text 200 t) by (intros t [? ?]; split; [done|lia]).
  apply Forall_cons in Ht as [T1 [T2 [T3 _]%Forall_cons]%Forall_cons].
  assert (Hf : ∀ t (x : option who), small_text 100 t → has_filter t (Some (chars t), x)) by (intros t x [? _]; eexists; split; [done|by apply chars_text]).
  destruct (subscribe_up t1 Self a1 b1 q1 [] f1 [(None, f2); (None, f3); (None, None); (None, None)] 1 c1 (c2 ++ c3 ++ rest) s Hup
    (Hmore _ T1) ltac:(lia) Hq1 Hc eq_refl ltac:(constructor) ltac:(by repeat constructor) H1 Hs) as (s1 & R1 & C1 & P1).
  destruct (subscribe_up t2 Hass a2 b2 q2 [(Some (chars t1), Some Self)] f2 [(None, f3); (None, None); (None, None)] 2 c2 (c3 ++ rest) s1
    ltac:(by rewrite (re_appl _ _ _ _ _ P1)) (Hmore _ T2) ltac:(lia) Hq2 C1 eq_refl) as (s2 & R2 & C2 & P2);
    [repeat constructor; by eexists; split; [|by apply Hf]|by repeat constructor|done|by apply P1|].
  destruct (subscribe_up t3 Group a3 b3 q3 [(Some (chars t1), Some Self); (Some (chars t2), Some Hass)] f3 [(None, None); (None, None)] 3 c3 rest s2
    ltac:(by rewrite (re_appl _ _ _ _ _ P2), (re_appl _ _ _ _ _ P1)) (Hmore _ T3) ltac:(lia) Hq3 C2 eq_refl) as (s3 & R3 & C3 & P3);
    [repeat constructor; (eexists; split; [|by apply Hf]; done)|by repeat constructor|done|by apply P2|].
  exists s3. rewrite (or_disconnect_run _ _ _ _ R1), (or_disconnect_run _ _ _ _ R2), (or_disconnect_run _ _ _ _ R3). split; [done|]. split; [done|].
  pose proof (reach_app _ _ _ _ _ _ _ _ _ P1 (reach_app _ _ _ _ _ _ _ _ _ P2 P3)) as P. by rewrite (re_appl _ _ _ _ _ P2), (re_appl _ _ _ _ _ P1) in P.
Qed.

(** A message on a topic of the device. *)
Lemma message_run suffix (retained : bool) a b id hs cs rest s : let w := appl s in let t := Mqtt.device_topic suffix w in
  isconnected (mqtt w) = true → fits_in MQTT_TOPIC_LENGTH t = true → small_text 200 t → small_text 600 (content_ (mqtt w)) → 0 <= id < 65535 →
  configured false id hs (client s) →
  let p := publish_packet (if retained then 1 else 0) (id + 1) t (content_ (mqtt w)) in
  serves (zlen p) (MqttPacket.header_byte MqttPacket.PUBACK 0 0 0) [a; b] cs → script s = cs ++ rest →
  ∃ s', mqtt_pub_messgae suffix retained s = Some (Some true, s') ∧ configured false (id + 1) hs (client s') ∧
    reach (noted (Publish t (content_ (mqtt w)) retained) (set_mqtt (set_pub_topic t (mqtt w)) w)) p rest s s'.
Proof.
  intros w t Hup Hfit Ht Hcont Hid Hc p Hcs Hs. unfold mqtt_pub_messgae.
  rewrite (local_run _ _ s _ _ (Session.print_topic_run (Mqtt.device_topic suffix) set_pub_topic w Hfit)). set (w1 := set_mqtt _ w).
  rewrite (local_run _ _ (set_app w1 s) (mqtt w1) w1) by done. change (set_app w1 (set_app w1 s)) with (set_app w1 s).
  destruct (publish_up t (content_ (mqtt w)) retained a b id hs cs rest (set_app w1 s)) as (s' & Hr & Hc' & [Ha Hse Hsc]); try done.
  exists s'. rewrite (bind_r_run _ _ _ _ _ Hr). split; [done|]. split; [done|]. by constructor.
Qed.

(** The connection is counted, and the device says that it is there. *)
Definition counted w : world st := set_sysinfo (set_serv_conn_count (u32 (serv_conn_count (sysinfo w) + 1)) (sysinfo w)) w.
Definition announced w : world st :=
  let w := counted w in let m := set_pub_topic (topic "available" w) (set_content_ (bytes "online") (mqtt w)) in
  noted (Publish (topic "available" w) (bytes "online") true) (set_mqtt m w).
Lemma online_run a b hs cs rest s : let w := appl s in
  isconnected (mqtt w) = true → fits_in MQTT_TOPIC_LENGTH (topic "available" w) = true → small_text 100 (topic "available" w) →
  configured false 4 hs (client s) → let p := publish_packet 1 5 (topic "available" w) (bytes "online") in
  serves (zlen p) (MqttPacket.header_byte MqttPacket.PUBACK 0 0 0) [a; b] cs → script s = cs ++ rest →
  ∃ s', (local (put_sys (λ i, set_serv_conn_count (u32 (serv_conn_count i + 1)) i)) ;?
     local (copy_to MQTT_BUFFER_LENGTH (bytes "online") (λ t, put_mqtt (set_content_ t))) ;?
     mqtt_pub_messgae (bytes "available") true) s = Some (Some true, s') ∧ configured false 5 hs (client s') ∧ reach (announced w) p rest s s'.
Proof.
  intros w Hup Hfit [Ht Hl] Hc p Hcs Hs. rewrite (local_run (put_sys _) _ s tt (counted w)) by done. set (s1 := set_app (counted w) s).
  set (w2 := set_mqtt (set_content_ (bytes "online") (mqtt (counted w))) (counted w)). rewrite (local_run (copy_to _ _ _) _ s1 tt w2) by done.
  destruct (message_run (bytes "available") true a b 4 hs cs rest (set_app w2 s1)) as (s' & R & C & [Ha Hse Hsc]); try done.
  { split; [done|]. change (zlen (topic "available" w) <= 200). lia. }
  { split; [by repeat constructor|done]. }
  exists s'. split; [exact R|]. split; [exact C|by constructor].
Qed.

(** C5: The device gets online. With a server and a network that accepts, a call
    of [broker_is_connected] sends exactly the login with the will, the three
    subscriptions and the retained "online", in this order, the last four with the
    packet identifiers 2 to 5 (a login has none); it takes no more from the socket than the answers, and
    leaves a session in which a message reaches its handler: each filter is in
    a slot with its handler. *)
Theorem session_established data s cs rest : app_ok (appl s) → well_named (appl s) → isconnected (mqtt (appl s)) = false →
  broker (mqtt (appl s)) ≠ [] → prefix (mqtt (appl s)) ≠ [] → accepts (appl s) cs → script s = cs ++ rest →
  zlen (buf (client s)) = 1000 → zlen (readbuf (client s)) = 1000 → (∃ a b c, (messageHandlers (client s)).*2 = [a; b; c; None; None]) →
  ∃ s', broker_is_connected data s = Some (Some true, s') ∧ isconnected (mqtt (appl s')) = true ∧ subscribed s' ∧
    sent s' = sent s ++ concat (online_packets (appl s)) ∧ script s' = rest ∧
    log (appl s') = log (appl s) ++ Session.script (appl s) ∧ device_levels (appl s') = device_levels (appl s).
Proof.
  intros Hw [Hnames Hlev Hplain] Hdown Hbroker Hprefix [(c0 & c1 & c2 & c3 & c4 & c5 & -> & H0' & [flags H1] & (a2 & b2 & q2 & Hq2 & H2) &
    (a3 & b3 & q3 & Hq3 & H3) & (a4 & b4 & q4 & Hq4 & H4) & a5 & b5 & H5)] Hs Hbuf Hreadbuf (f1 & f2 & f3 & Hslots).
  rewrite <- !app_assoc in Hs. set (w := appl s) in *.
  pose proof (topic_small "available" w Hw Hlev ltac:(by repeat constructor) ltac:(by apply Nat.leb_le)) as Havail.
  pose proof (topic_small "command" w Hw Hlev ltac:(by repeat constructor) ltac:(by apply Nat.leb_le)) as Hself.
  pose proof (topic_small "hass/#" w Hw Hlev ltac:(by repeat constructor) ltac:(by apply Nat.leb_le)) as Hhass.
  pose proof (group_small w Hw Hlev) as Hgroup. destruct (filters_differ w Hplain) as (Hd1 & Hd2 & Hd3).
  assert (Hhs : (λ x, (None, x.2)) <$> messageHandlers (client s) = free_slots f1 f2 f3).
  { destruct (messageHandlers (client s)) as [|[? ?] [|[? ?] [|[? ?] [|[? ?] [|[? ?] [|]]]]]]; try done. cbn in Hslots |- *. by injection Hslots as -> -> -> -> ->. }
  unfold broker_is_connected. rewrite (local_run _ _ s (mqtt w) w) by done. replace (set_app w s) with s by (by destruct s).
  rewrite Hdown, !bool_decide_eq_false_2 by done. cbn [orb].
  rewrite (bind_r_run _ _ _ _ _ (network_run _ 1883 c0 _ s H0' Hs)). cbn [negb]. fold w. set (w1 := noted (Connect (broker (mqtt w)) 1883) w).
  set (s1 := later _ _ _). assert (Hw1 : app_ok w1) by (destruct Hw; by constructor).
  rewrite (local_run _ _ s1 tt (Session.topics_set w1)) by (by apply Session.print_topics_run). set (w2 := Session.topics_set w1).
  match goal with |- context [bind_r client_init ?k ?s0] => destruct (client_init_run s0 k Hbuf Hreadbuf) as (c & -> & Hc) end.
  change (messageHandlers (client (set_app w2 s1))) with (messageHandlers (client s)) in Hc. rewrite Hhs in Hc.
  set (w3 := set_mqtt _ _). set (s3 := set_client c _). rewrite (local_run _ _ s3 (mqtt w3) w3) by done. change (set_app w3 s3) with s3.
  destruct (login_run data (id_ (mqtt w)) (name (mqtt w)) (pass (mqtt w)) (topic "available" w) flags 1 (free_slots f1 f2 f3) c1 (c2 ++ c3 ++ c4 ++ c5 ++ rest) s3 eq_refl) as (s4 & R4 & C4 & P4);
    [|exact Hc|exact H1|done|].
  { apply (Forall_app _ [_; _; _] [_]). split; [exact Hnames|by apply Forall_singleton]. }
  rewrite (or_disconnect_run _ _ _ _ R4).
  match goal with |- context [MqttSession.or_disconnect (subscribe ?t1 _) (MqttSession.or_disconnect (subscribe ?t2 _) (MqttSession.or_disconnect (subscribe ?t3 _) ?k))] =>
    change t1 with (topic "command" w); change t2 with (topic "hass/#" w); change t3 with (Session.group_topic w);
    destruct (subscriptions_run (topic "command" w) (topic "hass/#" w) (Session.group_topic w) f1 f2 f3 c2 c3 c4 (c5 ++ rest) s4 k) as (s5 & -> & C5 & P5) end;
    [by do 2 (apply Forall_cons; split; [done|]); apply Forall_singleton|done|done|done|by rewrite (re_appl _ _ _ _ _ P4)|done|by exists a2, b2, q2|by exists a3, b3, q3|by exists a4, b4, q4|by apply P4|].
  assert (E5 : appl s5 = noted (Subscribe (Session.group_topic w)) (noted (Subscribe (topic "hass/#" w)) (noted (Subscribe (topic "command" w))
    (session_set true (noted (Login (id_ (mqtt w)) (name (mqtt w)) (pass (mqtt w)) (topic "available" w)) w3))))).
  { by rewrite (re_appl _ _ _ _ _ P5), (re_appl _ _ _ _ _ P4). }
  destruct (online_run a5 b5 (taken_slots (topic "command" w) (topic "hass/#" w) (Session.group_topic w)) c5 rest s5) as (s8 & R8 & C8 & P8); [by rewrite E5|rewrite E5|by rewrite E5|exact C5|by rewrite E5|by apply P5|].
  { exact (Session.device_topic_fits (bytes "available") w Hw ltac:(by apply Nat.leb_le)). }
  rewrite E5 in P8. exists s8. split; [exact R8|]. destruct P8 as [E8 S8 Q8], P5 as [_ S5 _], P4 as [_ S4 _].
  assert (Elev : device_levels (appl s8) = device_levels w ∧ group_levels (appl s8) = group_levels w) by by rewrite E8. destruct Elev as [Elev Egroup].
  split; [by rewrite E8|]. split; [|split; [|split; [done|split; [|done]]]].
  - split; [|apply C8]. rewrite (cf_slots _ _ _ _ C8). pose proof (subscriptions_hold (appl s8) ltac:(by rewrite Elev)) as Hsub.
    revert Hsub. unfold subscriptions. by rewrite Elev, Egroup.
  - rewrite S8, S5, S4. unfold online_packets. cbn [concat]. by rewrite <- !app_assoc, app_nil_r.
  - rewrite E8. cbn. by rewrite <- !app_assoc.
Qed.
End Online.

(** ** The device of the witnesses gets online *)

Import Rational.
#[local] Instance demo_online_app : App (world nvs_map) Mqtt.event who := device_app (D := QArith_base.Q) no_garbage.
(** What the network brings: each packet answered. *)
Definition answered_with (h : Z) (body : list Z) : list (sockcall Mqtt.event) := writing ++ reading [h] ++ reading [zlen body] ++ reading body.
Definition demo_host : list (sockcall Mqtt.event) := [mkCall 1 [] 3 []; mkCall 4 [] 0 []; mkCall 0 [] 5 []].
Definition demo_accepting : list (sockcall Mqtt.event) :=
  demo_host ++ answered_with 32 [0; 0] ++ answered_with 144 [0; 2; 1] ++ answered_with 144 [0; 3; 1] ++ answered_with 144 [0; 4; 0] ++ answered_with 64 [0; 5].
Lemma demo_serves n h body : n <= 1000 → body ≠ [] → zlen body < 128 → serves n h body (answered_with h body).
Proof.
  intros Hn Hne Hl. eexists _, _. split; [reflexivity|]. split; [by apply writing_leaves|]. split; [by apply short_packet_arrives|done].
Qed.
Lemma demo_accepts : accepts Mqtt.demo_found demo_accepting.
Proof.
  constructor. eexists _, _, _, _, _, _. split; [reflexivity|]. split; [by eexists _, _, _, _, _, _, _, _|].
  assert (Hall : Forall (λ p, (zlen p <=? 1000) = true) (online_packets Mqtt.demo_found)) by (repeat constructor; by vm_compute).
  apply Forall_cons in Hall as [H1%Z.leb_le [H2%Z.leb_le [H3%Z.leb_le [H4%Z.leb_le [H5%Z.leb_le _]%Forall_cons]%Forall_cons]%Forall_cons]%Forall_cons].
  split; [exists 0; by apply demo_serves|]. do 3 (split; [eexists _, _, _; split; [|by apply demo_serves]; done|]). eexists _, _. by apply demo_serves.
Qed.
Lemma small_text_check n t : forallb (λ c, (0 <? c) && (c <? 256)) t && (zlen t <=? n) = true → small_text n t.
Proof.
  intros [Hc Hn%Z.leb_le]%andb_true_iff. split; [|done]. apply List.Forall_forall. intros c Hin.
  apply (proj1 (forallb_forall _ _) Hc) in Hin. apply andb_true_iff in Hin as [?%Z.ltb_lt ?%Z.ltb_lt]. lia.
Qed.
Lemma demo_well_named : well_named Mqtt.demo_found.
Proof.
  assert (Hlev : Forall (small_text 50) (device_levels Mqtt.demo_found)) by (repeat (apply Forall_cons; split; [apply small_text_check; by vm_compute|]); by apply Forall_nil).
  constructor; [| |exact demo_plain].
  - repeat (apply Forall_cons; split; [apply small_text_check; by vm_compute|]). by apply Forall_nil.
  - eapply Forall_impl; [exact Hlev|]. by intros t [? _].
Qed.
Lemma session_established_witness : ∃ s', MqttSession.broker_is_connected (D := QArith_base.Q) no_garbage (MqttPacket.mkConnack 0 0) (demo_found_device demo_accepting) = Some (Some true, s') ∧
  isconnected (mqtt (appl s')) = true ∧ subscribed s' ∧ length (sent s') = 306%nat ∧ script s' = [] ∧ length (log (appl s')) = (length (log Mqtt.demo_found) + 6)%nat.
Proof.
  destruct (session_established (D := QArith_base.Q) no_garbage (MqttPacket.mkConnack 0 0) (demo_found_device demo_accepting) demo_accepting []) as (s' & Hr & Hup & Hsub & Hsent & Hs & Hlog & _).
  - exact (Mqtt.reachable_ok _ Mqtt.demo_found_reachable).
  - exact demo_well_named.
  - by vm_compute.
  - by vm_compute.
  - by vm_compute.
  - exact demo_accepts.
  - by rewrite app_nil_r.
  - by vm_compute.
  - by vm_compute.
  - by exists None, None, None.
  - exists s'. split; [exact Hr|]. split; [exact Hup|]. split; [exact Hsub|]. split; [rewrite Hsent; by vm_compute|]. split; [exact Hs|]. rewrite Hlog, length_app.
    assert (Hl : ∀ w : world nvs_map, length (Session.script w) = 6%nat) by done. rewrite Hl. by apply (f_equal2 Nat.add).
Defined.
End MqttOnline.
