(* ===== verification/Motor.v ===== *)
(** The controller of window and curtain motors, [app/components/device/csro_motor.c].

    The build of the repository defines [NLIGHT], not [MOTOR], so this part is
    compiled out; the number of motors, [MOTOR], is a parameter here. Two
    functions it calls are defined nowhere in the repository: the trigger
    [csro_mqtt_msg_trigger_state], of which the state counts the calls, and
    [csro_systen_get_self_message_sub_topic], which is a parameter. *)
From S2P Require Import Prelude Cjson Misc World.

Module Motor.
Import Cjson Cstring Misc.

Inductive motor_state := STOP | UP | DOWN | TOUP | TODOWN.
#[global] Instance motor_state_eq_dec : EqDecision motor_state.
Proof. solve_decision. Defined.

Record csro_motor := mkMotor {
  index : Z; state_now : motor_state; command : motor_state; command_tim : Z; command_source : Z; count_down : Z }.
Record state := mkState { motor : list csro_motor; triggers : Z }.

Definition MOTOR_MAX_ON_SEC : Z := 120.

Section Motor.
(** [MOTOR] motors of the two there is room for. *)
Context (MOTOR : Z) (HMOTOR : 1 <= MOTOR <= 2).

Definition get_motor (i : Z) : M state csro_motor := let! l := get motor in lift (rd l i).
Definition put_motor (i : Z) (m : csro_motor) : M state unit :=
  let! l := get motor in
  let! l := lift (wr l i m) in
  modify (λ s, mkState l (triggers s)).
Definition csro_mqtt_msg_trigger_state : M state unit := modify (λ s, mkState (motor s) (triggers s + 1)).

Definition set_count (c : Z) (m : csro_motor) : csro_motor :=
  mkMotor (index m) (state_now m) (command m) (command_tim m) (command_source m) c.
Definition set_state_now (a : motor_state) (m : csro_motor) : csro_motor :=
  mkMotor (index m) a (command m) (command_tim m) (command_source m) (count_down m).
Definition set_command (c : motor_state) (now source : Z) (m : csro_motor) : csro_motor :=
  mkMotor (index m) (state_now m) c now source (count_down m).

Definition motor_do_action (i : Z) (action : motor_state) : M state unit :=
  let! mtr := get_motor i in
  if MOTOR <? index mtr + 1 then ret tt else
  let mtr := match action with
    | UP | DOWN => set_count (MOTOR_MAX_ON_SEC * 10) mtr
    | STOP => set_count 0 mtr
    | TOUP | TODOWN => set_count 5 mtr
    end in
  put_motor i (set_state_now action mtr) ;;;
  csro_mqtt_msg_trigger_state.

(** [now] is [datetime.time_now]. *)
Definition motor_process_command (i : Z) (command : motor_state) (source now : Z) : M state unit :=
  let! mtr := get_motor i in
  if MOTOR <? index mtr + 1 then ret tt else
  match command with
  | UP | DOWN | STOP =>
      match state_now mtr with
      | STOP => motor_do_action i command
      | UP => if decide (command = DOWN) then motor_do_action i TODOWN else motor_do_action i command
      | DOWN => if decide (command = UP) then motor_do_action i TOUP else motor_do_action i command
      | TODOWN => when (bool_decide (command ≠ DOWN)) (motor_do_action i command)
      | TOUP => when (bool_decide (command ≠ TOUP)) (motor_do_action i command)
      end ;;;
      let! mtr := get_motor i in
      put_motor i (set_command command now (u8 source) mtr)
  | _ => ret tt
  end.

Definition mtr_timer_callback : M state unit :=
  for_proc 0 (Z.to_nat MOTOR) (λ i,
    let! mtr := get_motor i in
    when (0 <? count_down mtr) (
      put_motor i (set_count (count_down mtr - 1) mtr) ;;;
      let! mtr := get_motor i in
      when (count_down mtr =? 0) (
        match state_now mtr with
        | TOUP => motor_do_action i UP
        | TODOWN => motor_do_action i DOWN
        | _ => motor_do_action i STOP
        end))).

Definition csro_motor_init : M state unit :=
  for_proc 0 (Z.to_nat MOTOR) (λ i, let! mtr := get_motor i in
    put_motor i (mkMotor i (state_now mtr) (command mtr) (command_tim mtr) (command_source mtr) (count_down mtr))).

(** *** Messages *)
Section Messages.
Context {D : Type} `{Double D}.

Definition state_text (a : motor_state) : list Z :=
  match a with UP => bytes "up" | DOWN => bytes "down" | _ => bytes "stop" end.
Definition motor_add_channel_json (target : cJSON D) (mtr : csro_motor) : option (cJSON D) :=
  let key := bytes "motor" ++ sprintf_ld (index mtr + 1) in
  if World.fits_in 20 key then
    let motor_json := cJSON_CreateObject in
    let motor_json := cJSON_AddStringToObject motor_json (bytes "state") (state_text (state_now mtr)) in
    let motor_json := cJSON_AddStringToObject motor_json (bytes "command") (state_text (command mtr)) in
    let motor_json := cJSON_AddNumberToObject motor_json (bytes "command_time") (d_of_Z (command_tim mtr)) in
    let motor_json := cJSON_AddNumberToObject motor_json (bytes "command_cource") (d_of_Z (command_source mtr)) in
    Some (cJSON_AddItemToObject target key motor_json)
  else None.
(** The text that is copied to [mqtt.content]. *)
Definition csro_motor_prepare_status_message : M state (list Z) :=
  let add k (basic_json : cJSON D) :=
    if k <=? MOTOR then let! mtr := get_motor (k - 1) in lift (motor_add_channel_json basic_json mtr) else ret basic_json in
  let! basic_json := add 1 cJSON_CreateObject in
  let! basic_json := add 2 basic_json in
  let! out := lift (cJSON_PrintUnformatted basic_json) in
  let! out := lift out in
  if World.fits_in 1000 out then ret out else fault.

Context (csro_systen_get_self_message_sub_topic : message → list Z → option (list Z)).
(** One motor of a message; [command_] is the array the text is copied to. *)
Definition motor_command (k now : Z) (msg command_ : list Z) : M state (list Z) :=
  if k <=? MOTOR then
    let! (found, command_) := lift (csro_system_parse_level1_json_string (D := D) msg command_ (bytes "motor" ++ sprintf_ld k)) in
    (if found : bool then
      let! is_up := lift (strcmp_eq command_ (bytes "up")) in
      if is_up then motor_process_command (k - 1) UP 1 now else
      let! is_stop := lift (strcmp_eq command_ (bytes "stop")) in
      if is_stop then motor_process_command (k - 1) STOP 1 now else
      let! is_down := lift (strcmp_eq command_ (bytes "down")) in
      when is_down (motor_process_command (k - 1) DOWN 1 now)
     else ret tt) ;;;
    ret command_
  else ret command_.
Definition csro_motor_handle_self_message (sub_topic command_ : list Z) (now : Z) (data : message) : M state unit :=
  let! sub_topic := lift (csro_systen_get_self_message_sub_topic data sub_topic) in
  let! is_motor := lift (strcmp_eq sub_topic (bytes "motor")) in
  when is_motor (
    let! command_ := motor_command 1 now (payload data) command_ in
    let! _ := motor_command 2 now (payload data) command_ in ret tt).
End Messages.

(** ** What happens to a motor *)

(** A command, or a tick of the timer, ten a second. *)
Inductive event := Tick | Command (i : nat) (c : motor_state) (source now : Z).
Definition handle (e : event) : M state unit :=
  match e with Tick => mtr_timer_callback | Command i c source now => motor_process_command (Z.of_nat i) c source now end.
Fixpoint run_all (es : list event) : M state unit :=
  match es with [] => ret tt | e :: es => handle e ;;; run_all es end.
(** Commands are to a motor there is, and are one of the three. *)
Definition event_ok (e : event) : Prop :=
  match e with Tick => True | Command i c _ _ => Z.of_nat i < MOTOR ∧ (c = UP ∨ c = DOWN ∨ c = STOP) end.

Definition acted (a : motor_state) (m : csro_motor) : csro_motor :=
  set_state_now a (set_count (match a with UP | DOWN => 1200 | STOP => 0 | TOUP | TODOWN => 5 end) m).
(** What a command to a motor makes it do. *)
Definition next_action (now_ c : motor_state) : option motor_state :=
  match now_, c with
  | UP, DOWN => Some TODOWN
  | DOWN, UP => Some TOUP
  | TODOWN, DOWN => None
  | _, c => Some c
  end.
Definition commanded (c : motor_state) (source now : Z) (m : csro_motor) : csro_motor :=
  set_command c now (u8 source) (match next_action (state_now m) c with Some a => acted a m | None => m end).
Definition ticked (m : csro_motor) : csro_motor :=
  if count_down m <=? 0 then m
  else if count_down m =? 1 then acted (match state_now m with TOUP => UP | TODOWN => DOWN | _ => STOP end) (set_count 0 m)
  else set_count (count_down m - 1) m.
Definition after (j : nat) (m : csro_motor) (e : event) : csro_motor :=
  match e with Tick => ticked m | Command i c source now => if decide (i = j) then commanded c source now m else m end.

(** The motors that are driven are numbered. *)
Definition numbered (s : state) : Prop :=
  length (motor s) = 2%nat ∧ ∀ i m, motor s !! i = Some m → Z.of_nat i < MOTOR → index m = Z.of_nat i.

Lemma get_motor_run s i m : motor s !! i = Some m → get_motor (Z.of_nat i) s = Some (m, s).
Proof.
  intros Hm. unfold get_motor. rewrite (bind_run (get motor) _ s (motor s) s) by done. apply lift_run.
  unfold rd. destruct (Z.ltb_spec (Z.of_nat i) 0); [lia|]. by rewrite Nat2Z.id.
Qed.
Lemma put_motor_run s i m0 m : motor s !! i = Some m0 → put_motor (Z.of_nat i) m s = Some (tt, mkState (<[i := m]> (motor s)) (triggers s)).
Proof.
  intros Hm. unfold put_motor. rewrite (bind_run (get motor) _ s (motor s) s) by done.
  assert (Hw : wr (motor s) (Z.of_nat i) m = Some (<[i := m]> (motor s))).
  { rewrite wr_Some, Nat2Z.id; [done|]. apply lookup_lt_Some in Hm. lia. }
  by rewrite (bind_run _ _ _ _ _ (lift_run _ _ _ Hw)).
Qed.
Lemma do_action_run s i m a : motor s !! i = Some m → index m = Z.of_nat i → Z.of_nat i < MOTOR →
  motor_do_action (Z.of_nat i) a s = Some (tt, mkState (<[i := acted a m]> (motor s)) (triggers s + 1)).
Proof.
  intros Hm Hi Hlt. unfold motor_do_action. rewrite (bind_run _ _ _ _ _ (get_motor_run _ _ _ Hm)).
  destruct (Z.ltb_spec MOTOR (index m + 1)); [lia|]. rewrite (bind_run _ _ _ _ _ (put_motor_run _ _ m _ Hm)).
  unfold acted. by destruct a.
Qed.

(** The next state of motor [i], the others as they were. *)
Definition becomes (i : nat) (m : csro_motor) (s s' : state) : Prop := motor s' = <[i := m]> (motor s).

Lemma command_run s i m c source now : motor s !! i = Some m → index m = Z.of_nat i → Z.of_nat i < MOTOR → c = UP ∨ c = DOWN ∨ c = STOP →
  ∃ s', motor_process_command (Z.of_nat i) c source now s = Some (tt, s') ∧ becomes i (commanded c source now m) s s'.
Proof.
  intros Hm Hi Hlt Hc. unfold motor_process_command. rewrite (bind_run _ _ _ _ _ (get_motor_run _ _ _ Hm)).
  destruct (Z.ltb_spec MOTOR (index m + 1)); [lia|].
  assert (Hact : ∀ a, ∃ s1, motor_do_action (Z.of_nat i) a s = Some (tt, s1) ∧ motor s1 = <[i := acted a m]> (motor s))
    by (intros a; eexists; split; [by apply do_action_run|done]).
  assert (Hlast : ∀ m1 s1, motor s1 = <[i := m1]> (motor s) →
    ∃ s', (let! mtr := get_motor (Z.of_nat i) in put_motor (Z.of_nat i) (set_command c now (u8 source) mtr)) s1 = Some (tt, s') ∧
      becomes i (set_command c now (u8 source) m1) s s').
  { intros m1 s1 Hs1. assert (Hm1 : motor s1 !! i = Some m1) by (rewrite Hs1; apply list_lookup_insert_eq; by eapply lookup_lt_Some).
    rewrite (bind_run _ _ _ _ _ (get_motor_run _ _ _ Hm1)), (put_motor_run _ _ _ _ Hm1). eexists. split; [done|].
    unfold becomes. cbn. by rewrite Hs1, list_insert_insert_eq. }
  assert (Hdo : ∀ a, ∃ s', (let! _ := motor_do_action (Z.of_nat i) a in let! mtr := get_motor (Z.of_nat i) in
      put_motor (Z.of_nat i) (set_command c now (u8 source) mtr)) s = Some (tt, s') ∧ becomes i (set_command c now (u8 source) (acted a m)) s s').
  { intros a. destruct (Hact a) as (s1 & Hr & Hs1). rewrite (bind_run _ _ _ _ _ Hr). by apply Hlast. }
  unfold commanded. destruct Hc as [->|[->| ->]], (state_now m); cbn [next_action]; try apply Hdo.
  all: unfold decide; try apply Hdo.
  change (when (bool_decide (DOWN ≠ DOWN)) (motor_do_action (Z.of_nat i) DOWN)) with (ret (S := state) tt).
  rewrite (bind_run (ret tt) _ s tt s) by done. apply Hlast. by rewrite list_insert_id.
Qed.

Lemma tick_one s i m : motor s !! i = Some m → index m = Z.of_nat i → Z.of_nat i < MOTOR →
  ∃ s', (let! mtr := get_motor (Z.of_nat i) in
    when (0 <? count_down mtr) (
      put_motor (Z.of_nat i) (set_count (count_down mtr - 1) mtr) ;;;
      let! mtr := get_motor (Z.of_nat i) in
      when (count_down mtr =? 0) (
        match state_now mtr with
        | TOUP => motor_do_action (Z.of_nat i) UP
        | TODOWN => motor_do_action (Z.of_nat i) DOWN
        | _ => motor_do_action (Z.of_nat i) STOP
        end))) s = Some (tt, s') ∧ becomes i (ticked m) s s'.
Proof.
  intros Hm Hi Hlt. rewrite (bind_run _ _ _ _ _ (get_motor_run _ _ _ Hm)). unfold ticked.
  destruct (Z.leb_spec (count_down m) 0) as [Hc|Hc].
  - replace (0 <? count_down m) with false by lia. exists s. split; [done|]. unfold becomes. by rewrite list_insert_id.
  - replace (0 <? count_down m) with true by lia. cbn [when]. rewrite (bind_run _ _ _ _ _ (put_motor_run _ _ _ _ Hm)).
    set (m1 := set_count (count_down m - 1) m). set (s1 := mkState (<[i := m1]> (motor s)) (triggers s)).
    assert (Hm1 : motor s1 !! i = Some m1) by (apply list_lookup_insert_eq; by eapply lookup_lt_Some).
    rewrite (bind_run _ _ _ _ _ (get_motor_run _ _ _ Hm1)). change (count_down m1) with (count_down m - 1).
    destruct (Z.eqb_spec (count_down m) 1) as [E|E].
    + replace (count_down m - 1 =? 0) with true by lia. cbn [when].
      assert (Hdo : ∀ a, ∃ s', motor_do_action (Z.of_nat i) a s1 = Some (tt, s') ∧ becomes i (acted a (set_count 0 m)) s s').
      { intros a. rewrite (do_action_run s1 i m1 a Hm1 Hi Hlt). eexists. split; [done|]. unfold becomes, s1, m1. cbn.
        by rewrite list_insert_insert_eq. }
      change (state_now m1) with (state_now m). destruct (state_now m); apply Hdo.
    + replace (count_down m - 1 =? 0) with false by lia. cbn [when]. exists s1. by split.
Qed.

(** Every event does to each motor what [after] says. *)
Lemma becomes_numbered i m m' s s' : becomes i m' s s' → motor s !! i = Some m → index m' = index m → numbered s → numbered s'.
Proof.
  intros Hb Hm Hidx [Hl Hn]. unfold numbered. rewrite Hb, length_insert. split; [done|].
  intros j x [(<- & <- & _)|(Hne & Hx)]%list_lookup_insert_Some Hlt; [rewrite Hidx; by apply Hn|by apply Hn].
Qed.
Lemma ticked_index m : index (ticked m) = index m.
Proof. unfold ticked. destruct (count_down m <=? 0); [done|]. by destruct (count_down m =? 1). Qed.
Lemma commanded_index c so now m : index (commanded c so now m) = index m.
Proof. unfold commanded. by destruct (next_action (state_now m) c). Qed.

Lemma numbered_lookup s i : numbered s → Z.of_nat i < MOTOR → ∃ m, motor s !! i = Some m ∧ index m = Z.of_nat i.
Proof.
  intros [Hl Hn] Hi. destruct (lookup_lt_is_Some_2 (motor s) i) as [m Hm]; [lia|]. exists m. split; [done|by apply Hn].
Qed.

Lemma handle_run e s : numbered s → event_ok e → ∃ s', handle e s = Some (tt, s') ∧ numbered s' ∧
  ∀ j m, Z.of_nat j < MOTOR → motor s !! j = Some m → motor s' !! j = Some (after j m e).
Proof.
  intros Hs He. destruct e as [|i c source now]; cbn [handle after event_ok] in *.
  - unfold mtr_timer_callback. destruct (numbered_lookup s 0 Hs ltac:(lia)) as (m0 & H0 & I0).
    destruct (tick_one s 0 m0 H0 I0 ltac:(lia)) as (s1 & R1 & B1).
    assert (Hs1 : numbered s1) by (by eapply becomes_numbered; [| |apply ticked_index|]).
    assert (L0 : motor s1 !! 0%nat = Some (ticked m0)) by (rewrite B1; apply list_lookup_insert_eq; by eapply lookup_lt_Some).
    assert (MOTOR = 1 ∨ MOTOR = 2) as [E|E] by lia.
    + rewrite E. change (Z.to_nat 1) with 1%nat. cbn [for_proc]. rewrite (bind_run _ _ _ _ _ R1). exists s1. split; [done|]. split; [done|].
      intros j m Hj Hm. assert (j = 0%nat) as -> by lia. by simplify_eq.
    + rewrite E. change (Z.to_nat 2) with 2%nat. cbn [for_proc]. rewrite (bind_run _ _ _ _ _ R1).
      destruct (numbered_lookup s1 1 Hs1 ltac:(lia)) as (m1 & H1 & I1).
      destruct (tick_one s1 1 m1 H1 I1 ltac:(lia)) as (s2 & R2 & B2). change (0 + 1) with (Z.of_nat 1). rewrite (bind_run _ _ _ _ _ R2).
      exists s2. split; [done|]. split; [by eapply becomes_numbered; [| |apply ticked_index|]|].
      rewrite B1, list_lookup_insert_ne in H1 by done. intros j m Hj Hm. rewrite B2.
      assert (j = 0%nat ∨ j = 1%nat) as [->| ->] by lia; simplify_eq.
      * by rewrite list_lookup_insert_ne by done.
      * apply list_lookup_insert_eq. rewrite (proj1 Hs1). lia.
  - destruct He as [Hi Hc]. destruct (numbered_lookup s i Hs Hi) as (m0 & H0 & I0).
    destruct (command_run s i m0 c source now H0 I0 Hi Hc) as (s1 & R1 & B1). exists s1. split; [done|].
    split; [by eapply becomes_numbered; [| |apply commanded_index|]|].
    intros j m Hj Hm. rewrite B1. destruct (decide (i = j)) as [->|Hne].
    + simplify_eq. apply list_lookup_insert_eq. by eapply lookup_lt_Some.
    + by rewrite list_lookup_insert_ne.
Qed.

Lemma events_run es s : numbered s → Forall event_ok es → ∃ s', run_all es s = Some (tt, s') ∧ numbered s' ∧
  ∀ j m, Z.of_nat j < MOTOR → motor s !! j = Some m → motor s' !! j = Some (foldl (after j) m es).
Proof.
  intros Hs Hes. revert s Hs. induction Hes as [|e es He Hes IH]; intros s Hs; cbn [run_all foldl]; [by exists s|].
  destruct (handle_run e s Hs He) as (s1 & R1 & Hs1 & L1). destruct (IH s1 Hs1) as (s2 & R2 & Hs2 & L2).
  exists s2. rewrite (bind_run _ _ _ _ _ R1). split; [done|]. split; [done|]. intros j m Hj Hm. apply L2; [done|]. by apply L1.
Qed.

(** ** The invariant of a motor *)

(** The timer of a motor fits its state. *)
Definition motor_ok (m : csro_motor) : Prop :=
  match state_now m with
  | STOP => count_down m = 0
  | UP | DOWN => 1 <= count_down m <= 1200
  | TOUP | TODOWN => 1 <= count_down m <= 5
  end.

Lemma acted_ok a m : motor_ok (acted a m).
Proof. destruct a; cbn; lia. Qed.
Lemma after_ok j m e : motor_ok m → event_ok e → motor_ok (after j m e).
Proof.
  intros Hm He. destruct e as [|i c source now]; cbn [after].
  - unfold ticked. destruct (Z.leb_spec (count_down m) 0); [done|]. destruct (Z.eqb_spec (count_down m) 1); [apply acted_ok|].
    unfold motor_ok in *. cbn. destruct (state_now m); cbn in *; lia.
  - case_decide; [|done]. unfold commanded. destruct (next_action (state_now m) c) as [a|]; [apply (acted_ok a m)|done].
Qed.
Lemma foldl_after_ok j es m : motor_ok m → Forall event_ok es → motor_ok (foldl (after j) m es).
Proof. intros Hm Hes. revert m Hm. induction Hes as [|e es He _ IH]; intros m Hm; [done|]. apply IH. by apply after_ok. Qed.

(** Zeroed, then numbered. *)
Definition off (i : Z) : csro_motor := mkMotor i STOP STOP 0 0 0.
Definition power_on : state := mkState [off 0; off 0] 0.
Lemma init_run : ∃ s, csro_motor_init power_on = Some (tt, s) ∧ numbered s ∧ ∀ i, Z.of_nat i < MOTOR → motor s !! i = Some (off (Z.of_nat i)).
Proof.
  unfold csro_motor_init, numbered. assert (MOTOR = 1 ∨ MOTOR = 2) as [E|E] by lia; rewrite E; (eexists; split; [reflexivity|]); (split; [split; [done|]|]);
    [intros [|[|i]] m Hm Hi|intros [|[|i]] Hi|intros [|[|i]] m Hm Hi|intros [|[|i]] Hi]; try done; try lia; by injection Hm as <-.
Qed.

(** [s] is where the application is after [es]. *)
Definition reached (es : list event) (s : state) : Prop :=
  Forall event_ok es ∧ (csro_motor_init ;;; run_all es) power_on = Some (tt, s).

Lemma reached_run es : Forall event_ok es → ∃ s, reached es s ∧ numbered s ∧
  ∀ i, Z.of_nat i < MOTOR → motor s !! i = Some (foldl (after i) (off (Z.of_nat i)) es).
Proof.
  intros Hes. destruct init_run as (s0 & R0 & Hs0 & L0). destruct (events_run es s0 Hs0 Hes) as (s & R & Hs & L).
  exists s. split; [split; [done|by rewrite (bind_run _ _ _ _ _ R0)]|]. split; [done|]. intros i Hi. apply L; [done|]. by apply L0.
Qed.
Lemma reached_ok es s i m : reached es s → Z.of_nat i < MOTOR → motor s !! i = Some m → numbered s ∧ motor_ok m.
Proof.
  intros [Hes Hr] Hi Hm. destruct (reached_run es Hes) as (s' & [_ Hr'] & Hn & L). simplify_eq.
  split; [done|]. rewrite L in Hm by done. injection Hm as <-. by apply foldl_after_ok.
Qed.

(** The motors never fault, and after any sequence of commands and timer
    ticks each is numbered by its place and has a timer that fits its state: a
    stopped motor has none, one that runs has between one tick and 120 seconds
    left, one that waits to reverse at most five ticks. *)
Theorem motor_invariant es : Forall event_ok es →
  ∃ s, (csro_motor_init ;;; run_all es) power_on = Some (tt, s) ∧
    ∀ i, Z.of_nat i < MOTOR → ∃ m, motor s !! i = Some m ∧ index m = Z.of_nat i ∧ motor_ok m.
Proof.
  intros Hes. destruct (reached_run es Hes) as (s & Hr & [Hl Hn] & L). exists s. split; [apply Hr|]. intros i Hi.
  specialize (L i Hi). eexists. split; [exact L|]. split; [by apply Hn|]. by eapply reached_ok.
Qed.

(** *** Stopping *)

Definition remaining (m : csro_motor) : Z :=
  match state_now m with TOUP | TODOWN => count_down m + 1200 | _ => count_down m end.
Lemma ticked_remaining m : motor_ok m → remaining (ticked m) = Z.max 0 (remaining m - 1).
Proof.
  unfold motor_ok, ticked, remaining. intros Hm. destruct (Z.leb_spec (count_down m) 0); [destruct (state_now m); lia|].
  destruct (Z.eqb_spec (count_down m) 1) as [E|]; [rewrite E; by destruct (state_now m)|]. cbn. destruct (state_now m); lia.
Qed.
Lemma ticks_remaining j n m : motor_ok m →
  motor_ok (foldl (after j) m (replicate n Tick)) ∧ remaining (foldl (after j) m (replicate n Tick)) = Z.max 0 (remaining m - Z.of_nat n).
Proof.
  revert m. induction n as [|n IH]; intros m Hm; cbn [replicate foldl after].
  - split; [done|]. unfold remaining, motor_ok in *. destruct (state_now m); lia.
  - destruct (IH (ticked m) (after_ok j m Tick Hm I)) as [Hok ->]. split; [done|]. rewrite (ticked_remaining m Hm). lia.
Qed.

(** C26: A motor that is left alone stops by itself, after exactly the ticks of
    its timer - those of the wait included when it is about to reverse - and
    so after at most 1205 ticks, 120.5 seconds; then it stays stopped. *)
Theorem motor_stops es s i m n : reached es s → Z.of_nat i < MOTOR → motor s !! i = Some m →
  ∃ s' m', run_all (replicate n Tick) s = Some (tt, s') ∧ motor s' !! i = Some m' ∧
    (state_now m' = STOP ↔ remaining m <= Z.of_nat n) ∧ remaining m <= 1205.
Proof.
  intros Hr Hi Hm. destruct (reached_ok es s i m Hr Hi Hm) as [Hn Hok].
  destruct (events_run (replicate n Tick) s Hn) as (s' & R & _ & L); [by apply Forall_replicate|].
  destruct (ticks_remaining i n m Hok) as [Hok' Hrem]. eexists _, _. split; [exact R|]. split; [by apply L|].
  revert Hok' Hrem. generalize (foldl (after i) m (replicate n Tick)). intros m' Hok' Hrem.
  unfold motor_ok, remaining in *. destruct (state_now m'), (state_now m); (split; [split; intros; (done || lia)|lia]).
Qed.

(** *** Reversing *)

(** What may happen while motor [i] is told to go down: ticks, more commands
    down, commands to the other. *)
Definition only_down (i : nat) (e : event) : Prop :=
  match e with Tick => True | Command j c _ _ => j = i → c = DOWN end.
Fixpoint ticks (es : list event) : nat :=
  match es with [] => 0%nat | Tick :: es => Datatypes.S (ticks es) | _ :: es => ticks es end.

Lemma stays_down i m es : state_now m = DOWN → count_down m = 1200 → Forall (only_down i) es → ticks es = 0%nat →
  state_now (foldl (after i) m es) = DOWN.
Proof.
  intros Hs Hc Hes. revert m Hs Hc. induction Hes as [|e es He _ IH]; intros m Hs Hc; [done|]. destruct e as [|j c so now]; [done|].
  cbn [ticks foldl after only_down] in *. intros Ht. destruct (decide (j = i)) as [->|]; [|by apply IH].
  rewrite (He eq_refl). unfold commanded. rewrite Hs. by apply IH.
Qed.

Lemma waits i m es : state_now m = TODOWN → Forall (only_down i) es → 1 <= count_down m → Z.of_nat (ticks es) <= count_down m →
  state_now (foldl (after i) m es) = if Z.of_nat (ticks es) <? count_down m then TODOWN else DOWN.
Proof.
  intros Hs Hes. revert m Hs. induction Hes as [|e es He Hes IH]; intros m Hs H1 Ht.
  - cbn [foldl ticks]. rewrite Hs. change (Z.of_nat 0) with 0. by destruct (Z.ltb_spec 0 (count_down m)); [|lia].
  - destruct e as [|j c so now]; cbn [ticks foldl after only_down] in *.
    + unfold ticked. destruct (Z.leb_spec (count_down m) 0); [lia|]. rewrite Hs. destruct (Z.eqb_spec (count_down m) 1) as [E|E].
      * rewrite (proj2 (Z.ltb_ge (Z.of_nat (Datatypes.S (ticks es))) (count_down m))) by lia.
        apply stays_down; try done. lia.
      * rewrite (IH (set_count (count_down m - 1) m) Hs) by (cbn; lia). cbn [set_count count_down].
        destruct (Z.ltb_spec (Z.of_nat (ticks es)) (count_down m - 1)), (Z.ltb_spec (Z.of_nat (Datatypes.S (ticks es))) (count_down m)); done || lia.
    + destruct (decide (j = i)) as [->|]; [|by apply IH]. rewrite (He eq_refl). unfold commanded. rewrite Hs. cbn [next_action]. by apply (IH (set_command DOWN now (u8 so) m)).
Qed.

(** C25: A motor that runs up and is told to go down waits before it reverses:
    whatever commands down are repeated, and whatever the other motor is told,
    it is between the directions until the fifth tick, half a second, and runs
    down from then on. The other way the wait can be skipped: a motor that
    runs down and is told twice to go up runs up at once. *)
Theorem motor_reversal es s i m source now ds : reached es s → Z.of_nat i < MOTOR → motor s !! i = Some m →
  Forall event_ok ds → Forall (only_down i) ds →
  (state_now m = UP → (ticks ds <= 5)%nat →
    ∃ s' m', run_all (Command i DOWN source now :: ds) s = Some (tt, s') ∧ motor s' !! i = Some m' ∧
      state_now m' = if (ticks ds <? 5)%nat then TODOWN else DOWN) ∧
  (state_now m = DOWN →
    ∃ s' m', run_all [Command i UP source now; Command i UP source now] s = Some (tt, s') ∧ motor s' !! i = Some m' ∧ state_now m' = UP).
Proof.
  intros Hr Hi Hm Hds Hdown. destruct (reached_ok es s i m Hr Hi Hm) as [Hn _].
  assert (Hc : ∀ c, c = UP ∨ c = DOWN → event_ok (Command i c source now)) by (intros c Hc; cbn; tauto).
  split; intros Hs.
  - intros Ht. destruct (events_run (Command i DOWN source now :: ds) s Hn) as (s' & R & _ & L).
    { apply Forall_cons. split; [|done]. apply Hc. by right. }
    eexists _, _. split; [exact R|]. split; [by apply L|]. cbn [foldl after]. rewrite decide_True by done.
    unfold commanded. rewrite Hs. rewrite waits by (cbn; done || lia).
    change (count_down _) with 5. destruct (Nat.ltb_spec (ticks ds) 5), (Z.ltb_spec (Z.of_nat (ticks ds)) 5); done || lia.
  - destruct (events_run [Command i UP source now; Command i UP source now] s Hn) as (s' & R & _ & L).
    { repeat (apply Forall_cons; split; [apply Hc; by left|]). apply Forall_nil_2. }
    eexists _, _. split; [exact R|]. split; [by apply L|]. cbn [foldl after]. rewrite !decide_True by done.
    unfold commanded. by rewrite Hs.
Qed.
End Motor.

(** Two motors; the first has been sent up, the second up and then down. *)
Definition demo_events : list event := [Command 0 UP 1 100; Command 1 UP 1 100; Tick; Command 1 DOWN 1 101; Tick].
Definition demo_state : state := mkState [mkMotor 0 UP UP 100 1 1198; mkMotor 1 TODOWN DOWN 101 1 4] 3.
Lemma demo_events_ok : Forall (event_ok 2) demo_events.
Proof. repeat (apply Forall_cons; split; [cbn; auto with lia|]). apply Forall_nil_2. Qed.
Lemma demo_reached : reached 2 demo_events demo_state.
Proof. split; [apply demo_events_ok|]. by vm_compute. Qed.

Lemma motor_invariant_witness : ∃ s, (csro_motor_init 2 ;;; run_all 2 demo_events) power_on = Some (tt, s) ∧
  ∀ i, Z.of_nat i < 2 → ∃ m, motor s !! i = Some m ∧ index m = Z.of_nat i ∧ motor_ok m.
Proof. exact (motor_invariant 2 ltac:(lia) demo_events demo_events_ok). Defined.

(** The second motor has 1204 ticks left. *)
Lemma motor_stops_witness : ∃ s' m', run_all 2 (replicate 1204 Tick) demo_state = Some (tt, s') ∧ motor s' !! 1%nat = Some m' ∧ state_now m' = STOP.
Proof.
  destruct (motor_stops 2 ltac:(lia) demo_events demo_state 1 _ 1204 demo_reached ltac:(lia) eq_refl) as (s' & m' & H1 & H2 & H3 & _).
  exists s', m'. split; [exact H1|]. split; [exact H2|]. apply H3. cbn. lia.
Defined.

Lemma motor_reversal_witness : ∃ s' m',
  run_all 2 [Command 0 DOWN 1 200; Tick; Command 0 DOWN 2 201; Tick; Tick; Tick] demo_state = Some (tt, s') ∧
  motor s' !! 0%nat = Some m' ∧ state_now m' = TODOWN.
Proof.
  destruct (motor_reversal 2 ltac:(lia) demo_events demo_state 0 _ 1 200 [Tick; Command 0 DOWN 2 201; Tick; Tick; Tick]
    demo_reached ltac:(lia) eq_refl) as [Hup _].
  - repeat (apply Forall_cons; split; [cbn; auto with lia|]). apply Forall_nil_2.
  - repeat (apply Forall_cons; split; [done|]). apply Forall_nil_2.
  - apply Hup; [done|cbn; lia].
Defined.
End Motor.
